(* ===== verification/_CoqProject ===== *)
-Q . S2P
Prelude.v
CString.v
Mem.v
Kalloc.v
Vm.v
VmMap.v
Uvm.v
Ucopy.v
VmSpec.v
Bio.v
Log.v
LogSpec.v
LogTxn.v
FsLayout.v
TxnLayer.v
Fs.v
FsAlloc.v
FsMap.v
FsInode.v
FsRw.v
FsTrunc.v
FsDir.v
FsPath.v
FsNamex.v
FsBoot.v
FsSpec.v
Ring.v
Pipe.v
PipeSpec.v
PipeMachine.v
PipeClaims.v
User.v
Printf.v
PrintfSpec.v
Grep.v
GrepSpec.v
Umalloc.v
UmallocSpec.v
UmallocClaims.v
Spinlock.v
Proc.v
ProcSpec.v
ProcMachine.v
ProcClaims.v
File.v
Syscall.v
Sysfile.v
Exec.v
FileSpec.v
SysfileSpec.v
FileRefs.v
FileClaims.v
Sh.v
ShSpec.v
ShClaims.v
Tty.v
TtySpec.v
TtyClaims.v
Virtio.v
VirtioSpec.v
VirtioInv.v
VirtioClaims.v
Riscv.v
RiscvSpec.v
Trap.v
TrapSpec.v
TrapKernel.v
TrapClaims.v
TrapRun.v
Kvm.v
KvmSpec.v
KvmClaims.v
Mkfs.v
MkfsSpec.v
MkfsInv.v
MkfsRun.v
MkfsClaims.v
