(* ===== verification/Prelude.v ===== *)
(** * A verification library for the xv6 kernel and user programs

    The program is the xv6 teaching operating system for RISC-V: a kernel (src/kernel),
    its user programs (src/user) and the tool that makes a file system image
    (src/mkfs).  The C sources are modelled; the repository's Zig files restate
    parts of the C code in another language and are not.

    ** Parts and files

    - [Prelude]: machine integers, bytes, lists and slices, and the monad [M S A] of
      kernel code, whose outcomes are a result, a panic, blocking, undefined
      behaviour and running out of fuel; [wp] reasons about all of them at once.
      [Ring]: ring buffers with counters that wrap.
    - [CString]: kernel/string.c and the string routines of user/ulib.c.
    - Memory: [Mem] (physical memory), [Kalloc] (kernel/kalloc.c), [Vm] (kernel/vm.c),
      with the specifications in [VmMap], [Uvm], [Ucopy] and the theorems in [VmSpec].
      [Kvm] is the kernel's own page table ([kvmmake], [kvminit], [kvminithart] and
      [proc_mapstacks] of proc.c), with [KvmSpec] and [KvmClaims].
    - Processor: [Riscv] (the accessors of kernel/riscv.h, the instructions the assembly
      files use, traps and returns) with [RiscvSpec]; [Trap] (kernel/trampoline.S,
      kernelvec.S, trap.c, syscall.c's dispatch, start.c, plic.c, and [forkret] of proc.c)
      with [TrapSpec] (user side), [TrapKernel] (kernel side), the theorems in
      [TrapClaims] and concrete runs in [TrapRun].
    - Storage, from the device up: [Virtio] (kernel/virtio_disk.c, virtio.h) with its
      machine, invariant and theorem in [VirtioSpec], [VirtioInv], [VirtioClaims];
      [Bio] (kernel/bio.c); [Log] (kernel/log.c) with [LogSpec] and [LogTxn];
      [FsLayout] (kernel/fs.h) and [Fs] (kernel/fs.c) with [FsAlloc], [FsMap], [FsInode],
      [FsRw], [FsTrunc], [FsDir], [FsPath], [FsNamex], a concrete disk in [FsBoot], and
      the theorems in [FsSpec].  [TxnLayer] is the interface between the file system
      and the log: the operations [TxnOps], their laws [TxnLaws], and the instance for
      the log.  The file system is verified against the laws.
    - Processes: [Spinlock] (kernel/spinlock.c); [Proc] (kernel/proc.c) with what each
      function does to the table in [ProcSpec], the machine in [ProcMachine] and the
      theorems in [ProcClaims].
    - Files: [Pipe] (kernel/pipe.c) with [PipeSpec], [PipeMachine], [PipeClaims];
      [File] (kernel/file.c); [Syscall] (kernel/syscall.c, sysproc.c), [Sysfile]
      (kernel/sysfile.c) and [Exec] (kernel/exec.c); reference counts in [FileSpec],
      [SysfileSpec], [FileRefs] and [FileClaims].  The process layer calls the file
      layer through the interface [FileOps], which [FileClaims] instantiates.
    - Devices: [Tty] (kernel/console.c, uart.c, procdump) with [TtySpec], [TtyClaims];
      kernel/printf.c in [Printf].
    - User programs: [User] (the environment of a program), [Printf] (user/printf.c) with
      [PrintfSpec], [Grep] (user/grep.c) with [GrepSpec], [Umalloc] (user/umalloc.c) with
      [UmallocSpec] and [UmallocClaims], [Sh] (user/sh.c, the parser) with [ShSpec] and
      [ShClaims].
    - [Mkfs] (mkfs/mkfs.c), the program that builds the disk image, in the module [Host]:
      what it does to the image in [MkfsSpec], the invariant while it runs in [MkfsInv],
      whole runs in [MkfsRun], and the theorem on the finished image in [MkfsClaims],
      in terms of the invariant [fs_good] of the file-system theorems.

    ** How the code is modelled

    A function is a definition of the same name, in the monad of the state it works
    on; a [struct] is a record, a pointer an index or an address.  C integers are [Z]
    with the wrap-around written where the code relies on it.  What runs under a
    spin lock is one step, so a function that sleeps is a sequence of segments
    from one [sleep] to the next (pipes, console, disk), or ends in the outcome
    [Blocked].  Interleavings are step relations on a state with many processes:
    [PipeMachine], [ProcMachine], [FileClaims], [VirtioSpec], [Spinlock].  Code and
    hardware outside src are interfaces with laws: the UART ([UartDev],
    [UartLaws]), the virtio device ([VirtioRegs], [VirtioLaws]), the interrupt
    controller, the environment of a user program and the files of the host.  Each has an instance, in which the witnesses run.

    ** What the theorems show

    - Storage.  The disk driver implements atomic transfers for any order of
      processes, interrupts and completions.  The buffer cache implements the array
      of blocks and recycles the least recently used buffer.  A group of system
      calls is atomic under a crash at every write of its commit, and recovery can
      itself be interrupted.  The file system's allocator, block map, reads,
      writes, truncation, inode table, directories and path resolution do what
      they promise, including when disk or memory run out.
    - Memory.  Pages are free or allocated, never both; page tables map exactly what
      is asked for; fork's copy shares nothing; copies to and from user memory
      agree with what the process sees.  The page table the kernel boots with translates
      exactly its regions, with nothing writable and executable, and a guard page under
      each stack.
    - Traps.  An interrupt is invisible to a user program and to the kernel: registers,
      program counter and memory are as before, also when the process has given the
      CPU up in between.  A system call returns behind its instruction with its
      value; a process that faults does not return.  [start] brings a hart to [main],
      and the timer interrupt keeps every register.
    - The image.  What mkfs writes satisfies the invariant that the file-system theorems
      assume, and has the files of the command line under their names.
    - Processes and files.  The process table keeps its invariant in every
      interleaving; an exit status is collected once; a file's reference count is
      the number of descriptors that refer to it; pipes are queues without lost
      wakeups; at most one CPU holds a spin lock.
    - Devices and programs.  The console edits lines and queues output within its
      rings; both printfs write the rendering of their format; the shell's parser
      accepts its grammar and gives its syntax trees; grep prints the lines that
      match; the heap hands out disjoint blocks.

    ** Fuel

    A loop that is not structural has a bound that the code's own data gives: the
    length of a string, the bytes or pages left, the size of a table or ring, the
    number of tokens.  The theorems say that the result is reached, so the bound is
    never the reason for an answer.  Waiting for the UART is bounded by a number that
    the laws of the device relate to its state.

    ** Not modelled

    The context switch (swtch.S) is a step of the machines, and the order of
    initialisation (entry.S, main.c) is not a definition.  Sleep locks (sleeplock.c)
    are the lock flags of buffers and inodes.  Translations cached by the processor,
    and memory ordering: the models are sequentially consistent.  In ulib.c [stat], in
    sh.c running commands; the small tools (cat, echo, find, init, kill, ln, ls,
    mkdir, primes, rm, sleep, wc, xargs, zombie), the RAM disk (ramdisk.c), which is
    not linked, the test programs (usertests.c, grind.c, forktest.c, stressfs.c),
    and the Zig files. *)

From Stdlib Require Export Strings.Byte Lia.
From stdpp Require Export base numbers functions gmap strings option list.
#[global] Open Scope Z_scope.

(** ** Machine integers

    C integers are modelled as [Z]; the wrap-around of each width is written
    out where the code relies on it. *)

Definition u8 (z : Z) : Z := z mod 2 ^ 8.
Definition u16 (z : Z) : Z := z mod 2 ^ 16.
Definition u32 (z : Z) : Z := z mod 2 ^ 32.
Definition u64 (z : Z) : Z := z mod 2 ^ 64.

(** Two's complement reading of a [w]-bit pattern. *)
Definition sgn (w z : Z) : Z := (z + 2 ^ (w - 1)) mod 2 ^ w - 2 ^ (w - 1).
Definition i16 (z : Z) : Z := sgn 16 z.
Definition i32 (z : Z) : Z := sgn 32 z.

#[global] Arguments u8 : simpl never.
#[global] Arguments u16 : simpl never.
#[global] Arguments u32 : simpl never.
#[global] Arguments u64 : simpl never.
#[global] Arguments i16 : simpl never.
#[global] Arguments i32 : simpl never.

Lemma u32_range z : 0 <= u32 z < 2 ^ 32.
Proof. apply Z.mod_pos_bound. lia. Qed.

Lemma u64_range z : 0 <= u64 z < 2 ^ 64.
Proof. apply Z.mod_pos_bound. lia. Qed.

Lemma u32_small z : 0 <= z < 2 ^ 32 -> u32 z = z.
Proof. apply Z.mod_small. Qed.

Lemma u64_small z : 0 <= z < 2 ^ 64 -> u64 z = z.
Proof. apply Z.mod_small. Qed.

Lemma i32_small z : - 2 ^ 31 <= z < 2 ^ 31 -> i32 z = z.
Proof. intros. unfold i32, sgn. rewrite Z.mod_small; lia. Qed.

Lemma i16_mod z : i16 (z mod 2 ^ 16) = i16 z.
Proof. unfold i16, sgn. by rewrite Z.add_mod_idemp_l. Qed.

Lemma i16_small z : - 2 ^ 15 <= z < 2 ^ 15 -> i16 z = z.
Proof. intros. unfold i16, sgn. rewrite Z.mod_small; lia. Qed.

Create HintDb xv6.
#[export] Hint Resolve u32_range u64_range u32_small u64_small : xv6.

(** [lia] with the Euclidean-division equations of [/] and [mod]. *)
Ltac dlia := Z.div_mod_to_equations; lia.

(** Reflect the boolean tests of the code into propositions. *)
Ltac bprop :=
  repeat match goal with
  | H : (_ <? _) = true |- _ => apply Z.ltb_lt in H
  | H : (_ <? _) = false |- _ => apply Z.ltb_ge in H
  | H : (_ <=? _) = true |- _ => apply Z.leb_le in H
  | H : (_ <=? _) = false |- _ => apply Z.leb_gt in H
  | H : (_ =? _) = true |- _ => apply Z.eqb_eq in H
  | H : (_ =? _) = false |- _ => apply Z.eqb_neq in H
  | H : (_ && _)%bool = true |- _ => apply andb_true_iff in H; destruct H
  | H : (_ || _)%bool = false |- _ => apply orb_false_iff in H; destruct H
  | H : negb _ = true |- _ => apply negb_true_iff in H
  | H : negb _ = false |- _ => apply negb_false_iff in H
  end.

(** Case split on the first boolean test found in the goal. *)
Ltac case_if :=
  match goal with
  | |- context [if ?b then _ else _] =>
      lazymatch type of b with
      | bool => let E := fresh "E" in destruct b eqn:E
      end
  end; bprop.

(** ** Bytes *)

#[global] Instance byte_eq_dec : EqDecision byte := Byte.byte_eq_dec.
#[global] Instance byte_inhabited : Inhabited byte := populate x00.

Definition byte_of_Z (z : Z) : byte :=
  default x00 (Byte.of_N (Z.to_N (z mod 256))).
Definition byte_to_Z (b : byte) : Z := Z.of_N (Byte.to_N b).

Lemma byte_to_Z_range b : 0 <= byte_to_Z b < 256.
Proof. unfold byte_to_Z. pose proof (Byte.to_N_bounded b). lia. Qed.

Lemma byte_to_of_Z z : byte_to_Z (byte_of_Z z) = z mod 256.
Proof.
  unfold byte_to_Z, byte_of_Z.
  pose proof (Z.mod_pos_bound z 256 ltac:(lia)).
  destruct (Byte.of_N (Z.to_N (z mod 256))) as [b|] eqn:E; simpl.
  - apply Byte.to_of_N in E. rewrite E. lia.
  - apply Byte.of_N_None_iff in E. lia.
Qed.

Lemma byte_of_to_Z b : byte_of_Z (byte_to_Z b) = b.
Proof.
  unfold byte_of_Z. rewrite Z.mod_small by apply byte_to_Z_range.
  unfold byte_to_Z. rewrite N2Z.id, Byte.of_to_N. done.
Qed.

#[global] Instance byte_to_Z_inj : Inj (=) (=) byte_to_Z.
Proof. intros a b H. by rewrite <- (byte_of_to_Z a), H, byte_of_to_Z. Qed.

#[export] Hint Resolve byte_to_Z_range : xv6.

(** Character constants of the source, as byte values. *)
Definition chr (s : String.string) : byte :=
  match String.list_byte_of_string s with b :: _ => b | [] => x00 end.
Definition bytes (s : String.string) : list byte := String.list_byte_of_string s.

(** ** Little-endian encodings (riscv64 byte order) *)

Fixpoint le_enc (n : nat) (z : Z) : list byte :=
  match n with
  | O => []
  | S n => byte_of_Z z :: le_enc n (z / 256)
  end.

Fixpoint le_dec (l : list byte) : Z :=
  match l with
  | [] => 0
  | b :: l => byte_to_Z b + 256 * le_dec l
  end.

Lemma length_le_enc n z : length (le_enc n z) = n.
Proof. revert z. induction n; intros; simpl; auto. Qed.

Lemma le_dec_range l : 0 <= le_dec l < 256 ^ Z.of_nat (length l).
Proof.
  induction l as [|b l IH]; simpl length; [simpl; lia|].
  rewrite Nat2Z.inj_succ, Z.pow_succ_r by lia. simpl.
  pose proof (byte_to_Z_range b). lia.
Qed.

Lemma le_dec_enc n z : le_dec (le_enc n z) = z mod 256 ^ Z.of_nat n.
Proof.
  revert z. induction n as [|n IH]; intros z; [simpl; by rewrite Z.mod_1_r|].
  rewrite Nat2Z.inj_succ, Z.pow_succ_r by lia. simpl.
  rewrite IH, byte_to_of_Z.
  rewrite Z.rem_mul_r; lia.
Qed.

Lemma le_enc_dec l : le_enc (length l) (le_dec l) = l.
Proof.
  induction l as [|b l IH]; simpl; [done|].
  pose proof (byte_to_Z_range b).
  f_equal.
  - apply (inj byte_to_Z). rewrite byte_to_of_Z. dlia.
  - replace ((byte_to_Z b + 256 * le_dec l) / 256) with (le_dec l) by dlia. done.
Qed.

Lemma le_dec_enc_small n z :
  0 <= z < 256 ^ Z.of_nat n -> le_dec (le_enc n z) = z.
Proof. intros. rewrite le_dec_enc. by apply Z.mod_small. Qed.

(** ** Byte arrays: a slice, and the in-place update of a slice *)

Definition slice {A} (off n : nat) (l : list A) : list A := take n (drop off l).
Definition splice {A} (l : list A) (off : nat) (l' : list A) : list A :=
  take off l ++ l' ++ drop (off + length l') l.

Section splice.
Context {A : Type}.
Implicit Types l : list A.

Lemma length_slice off n l :
  (off + n <= length l)%nat -> length (slice off n l) = n.
Proof. intros. unfold slice. rewrite length_take, length_drop. lia. Qed.

Lemma length_splice l off l' :
  (off + length l' <= length l)%nat -> length (splice l off l') = length l.
Proof. intros. unfold splice. rewrite !length_app, length_take, length_drop. lia. Qed.

Lemma slice_splice_same l off l' :
  (off + length l' <= length l)%nat -> slice off (length l') (splice l off l') = l'.
Proof.
  intros. unfold slice, splice.
  rewrite drop_app_length' by (rewrite length_take; lia).
  by rewrite take_app_length.
Qed.

Lemma lookup_slice off n l i :
  (i < n)%nat -> slice off n l !! i = l !! (off + i)%nat.
Proof. intros. unfold slice. by rewrite lookup_take_lt, lookup_drop. Qed.

Lemma lookup_splice_out l off l' i :
  (off + length l' <= length l)%nat ->
  (i < off \/ off + length l' <= i)%nat -> splice l off l' !! i = l !! i.
Proof.
  intros Hl Hi. unfold splice. destruct Hi.
  - rewrite lookup_app_l by (rewrite length_take; lia).
    by rewrite lookup_take_lt.
  - rewrite lookup_app_r by (rewrite length_take; lia).
    rewrite length_take, lookup_app_r by lia.
    rewrite lookup_drop. f_equal. lia.
Qed.

Lemma lookup_splice_in l off l' i :
  (off + length l' <= length l)%nat ->
  (off <= i < off + length l')%nat -> splice l off l' !! i = l' !! (i - off)%nat.
Proof.
  intros Hl Hi. unfold splice.
  rewrite lookup_app_r by (rewrite length_take; lia).
  rewrite length_take, lookup_app_l by lia. f_equal. lia.
Qed.

Lemma slice_splice_disj l off l' off2 n :
  (off + length l' <= length l)%nat ->
  (off2 + n <= off \/ off + length l' <= off2)%nat ->
  slice off2 n (splice l off l') = slice off2 n l.
Proof.
  intros Hl Hd. apply list_eq. intros i.
  destruct (decide (i < n)%nat).
  - rewrite !lookup_slice by lia. apply lookup_splice_out; lia.
  - rewrite !lookup_ge_None_2; [done| |];
      unfold slice; rewrite length_take; lia.
Qed.

Lemma splice_slice_id l off n :
  (off + n <= length l)%nat -> splice l off (slice off n l) = l.
Proof.
  intros. apply list_eq. intros i.
  assert (Hn : length (slice off n l) = n) by (by apply length_slice).
  destruct (decide (off <= i < off + n)%nat).
  - rewrite lookup_splice_in by lia. rewrite lookup_slice by lia. f_equal. lia.
  - apply lookup_splice_out; lia.
Qed.
End splice.

Lemma alter_insert {A} (f : A -> A) (l : list A) i x : l !! i = Some x -> alter f i l = <[i := f x]> l.
Proof.
  intros Hx. apply list_eq. intros k. destruct (decide (k = i)) as [->|Hk].
  - rewrite list_lookup_alter_eq, Hx, list_lookup_insert_eq by (by eapply lookup_lt_Some). done.
  - by rewrite list_lookup_alter_ne, list_lookup_insert_ne by done.
Qed.

(** ** Little-endian fields of a byte array *)

Definition rd (n off : nat) (d : list byte) : Z := le_dec (slice off n d).
Definition wr (n off : nat) (v : Z) (d : list byte) : list byte := splice d off (le_enc n v).

Lemma length_wr n off v d : (off + n <= length d)%nat -> length (wr n off v d) = length d.
Proof. intros. apply length_splice. by rewrite length_le_enc. Qed.

Lemma rd_wr_same n off v d :
  (off + n <= length d)%nat -> rd n off (wr n off v d) = v mod 256 ^ Z.of_nat n.
Proof.
  intros. unfold rd, wr. rewrite <- le_dec_enc. f_equal.
  rewrite <- (length_le_enc n v) at 1. apply slice_splice_same. by rewrite length_le_enc.
Qed.

Lemma rd_wr_other n off v d n' off' :
  (off + n <= length d)%nat -> (off' + n' <= off \/ off + n <= off')%nat ->
  rd n' off' (wr n off v d) = rd n' off' d.
Proof.
  intros. unfold rd, wr. f_equal. apply slice_splice_disj; rewrite length_le_enc; lia.
Qed.

Lemma rd_range n off d : (off + n <= length d)%nat -> 0 <= rd n off d < 256 ^ Z.of_nat n.
Proof. intros H. pose proof (le_dec_range (slice off n d)) as Hr. by rewrite length_slice in Hr. Qed.

(** ** The kernel monad

    Kernel code runs on a state [S] and ends in one of these outcomes.
    [Panic] is a call of [panic()]; [Blocked] is a call of [sleep()] that only
    another process can end; [Undef] is behaviour that C leaves undefined (an
    access outside an object); [NoFuel] is a loop cut off by the bound of the
    model, which the theorems exclude. *)

Inductive outcome (S A : Type) :=
| Ok (a : A) (s : S)
| Panic (msg : String.string)
| Blocked (s : S)
| Undef
| NoFuel.
Arguments Ok {S A}. Arguments Panic {S A}. Arguments Blocked {S A}.
Arguments Undef {S A}. Arguments NoFuel {S A}.

Definition M (S A : Type) := S -> outcome S A.

Definition ret {S A} (a : A) : M S A := fun s => Ok a s.
Definition bind {S A B} (m : M S A) (k : A -> M S B) : M S B := fun s =>
  match m s with
  | Ok a s' => k a s'
  | Panic e => Panic e
  | Blocked s' => Blocked s'
  | Undef => Undef
  | NoFuel => NoFuel
  end.
Definition get {S} : M S S := fun s => Ok s s.
Definition gets {S A} (f : S -> A) : M S A := fun s => Ok (f s) s.
Definition modify {S} (f : S -> S) : M S unit := fun s => Ok tt (f s).
Definition panic {S A} (msg : String.string) : M S A := fun _ => Panic msg.
Definition blocked {S A} : M S A := fun s => Blocked s.
Definition undef {S A} : M S A := fun _ => Undef.
Definition nofuel {S A} : M S A := fun _ => NoFuel.
Definition from_opt {S A} (o : option A) : M S A :=
  match o with Some a => ret a | None => undef end.

Declare Scope kmon_scope.
Delimit Scope kmon_scope with kmon.
Notation "x <- m ;; k" := (bind m (fun x => k))
  (at level 100, m at next level, right associativity) : kmon_scope.
Notation "m ;;; k" := (bind m (fun _ => k))
  (at level 100, k at level 200, right associativity) : kmon_scope.
#[global] Open Scope kmon_scope.

(** Running a computation of a component on a part of the state. *)
Definition zoom {S T A} (g : S -> T) (p : T -> S -> S) (m : M T A) : M S A := fun s =>
  match m (g s) with
  | Ok a t => Ok a (p t s)
  | Panic e => Panic e
  | Blocked t => Blocked (p t s)
  | Undef => Undef
  | NoFuel => NoFuel
  end.

Lemma bind_ok {S A B} (m : M S A) (k : A -> M S B) s a s' :
  m s = Ok a s' -> bind m k s = k a s'.
Proof. intros E. unfold bind. by rewrite E. Qed.

Lemma bind_ok_inv {S A B} (m : M S A) (k : A -> M S B) s b s' :
  (x <- m;; k x) s = Ok b s' -> exists a s1, m s = Ok a s1 /\ k a s1 = Ok b s'.
Proof. unfold bind. destruct (m s) as [a s1| | | |]; [eauto|done..]. Qed.

Lemma zoom_ok {S T A} (g : S -> T) (p : T -> S -> S) (m : M T A) s a t :
  m (g s) = Ok a t -> zoom g p m s = Ok a (p t s).
Proof. intros E. unfold zoom. by rewrite E. Qed.

(** Execute the first statement of the goal's program, whose outcome is [E]. *)
Ltac run E := rewrite (bind_ok _ _ _ _ _ E); cbv beta.
Ltac run1 := erewrite bind_ok by reflexivity; cbv beta.

(** [for] loops over a list of indices, without and with an early exit. *)
Fixpoint for_each {S B} (l : list B) (body : B -> M S unit) : M S unit :=
  match l with
  | [] => ret tt
  | b :: l => body b;;; for_each l body
  end.

Fixpoint for_until {S B R} (l : list B) (body : B -> M S (option R)) : M S (option R) :=
  match l with
  | [] => ret None
  | b :: l =>
      r <- body b;;
      match r with
      | Some x => ret (Some x)
      | None => for_until l body
      end
  end.

(** A loop whose body always succeeds and re-establishes the invariant. *)
Lemma for_each_app {S B} (l1 l2 : list B) (body : B -> M S unit) s :
  for_each (l1 ++ l2) body s = (for_each l1 body;;; for_each l2 body) s.
Proof.
  revert s. induction l1 as [|b l1 IH]; intros s; [done|]. cbn [app for_each].
  unfold bind at 1. unfold bind at 1. unfold bind at 1.
  destruct (body b s) as [a s'| | | |]; [|done..]. rewrite IH. done.
Qed.

Lemma for_each_ok {T} (I : nat -> T -> Prop) (body : nat -> M T unit) n :
  (forall k s, (k < n)%nat -> I k s -> exists s', body k s = Ok tt s' /\ I (k + 1)%nat s') ->
  forall s, I 0%nat s -> exists s', for_each (seq 0 n) body s = Ok tt s' /\ I n s'.
Proof.
  intros Hb s H0. induction n as [|n IH]; [by exists s|].
  destruct IH as (s1 & E1 & H1); [intros; apply Hb; [lia|done]|].
  destruct (Hb n s1) as (s2 & E2 & H2); [lia|done|].
  exists s2. rewrite seq_S, for_each_app. rewrite (bind_ok _ _ _ _ _ E1). cbn [for_each].
  rewrite (bind_ok _ _ _ _ _ E2). split; [done|]. by replace (S n) with (n + 1)%nat by lia.
Qed.

(** The same for a loop that is known to have returned. *)
Lemma for_each_inv {T} (I : nat -> T -> Prop) (body : nat -> M T unit) n :
  (forall k s s', (k < n)%nat -> body k s = Ok tt s' -> I k s -> I (S k) s') ->
  forall s u s', for_each (seq 0 n) body s = Ok u s' -> I 0%nat s -> I n s'.
Proof.
  intros Hb s u s' H. revert u s' H. induction n as [|n IH]; intros u s' H H0; [by injection H as _ <-|].
  rewrite seq_S, for_each_app in H. apply bind_ok_inv in H as ([] & s1 & E1 & E2). cbn [for_each] in E2.
  apply bind_ok_inv in E2 as ([] & s2 & E2 & E3). injection E3 as _ <-. eapply Hb; [lia|exact E2|].
  eapply IH; [|exact E1|exact H0]. intros k a b Hk. apply Hb. lia.
Qed.

(** The outcomes a computation may have: [Q] of the result and final state,
    or a panic whose message satisfies [E]. *)
Definition wp {S A} (m : M S A) (E : String.string -> Prop)
    (Q : A -> S -> Prop) (s : S) : Prop :=
  match m s with
  | Ok a s' => Q a s'
  | Panic e => E e
  | _ => False
  end.

Definition safe : String.string -> Prop := fun _ => False.

Section wp.
Context {S : Type}.

Lemma wp_ret {A} (a : A) E Q (s : S) : Q a s -> wp (ret a) E Q s.
Proof. done. Qed.

Lemma wp_bind {A B} (m : M S A) (k : A -> M S B) E Q s :
  wp m E (fun a => wp (k a) E Q) s -> wp (bind m k) E Q s.
Proof. unfold wp, bind. by destruct (m s). Qed.

Lemma wp_mono {A} (m : M S A) (E E' : String.string -> Prop) (Q Q' : A -> S -> Prop) s :
  wp m E Q s -> (forall e, E e -> E' e) ->
  (forall a s', Q a s' -> Q' a s') -> wp m E' Q' s.
Proof. unfold wp. destruct (m s); naive_solver. Qed.

Lemma wp_gets {A} (f : S -> A) E Q s : Q (f s) s -> wp (gets f) E Q s.
Proof. done. Qed.

Lemma wp_get E (Q : S -> S -> Prop) s : Q s s -> wp get E Q s.
Proof. done. Qed.

Lemma wp_modify f E Q (s : S) : Q tt (f s) -> wp (modify f) E Q s.
Proof. done. Qed.

Lemma wp_panic {A} msg (E : String.string -> Prop) (Q : A -> S -> Prop) s :
  E msg -> wp (panic msg) E Q s.
Proof. done. Qed.

Lemma wp_ok {A} (m : M S A) E (Q : A -> S -> Prop) s a s' :
  m s = Ok a s' -> Q a s' -> wp m E Q s.
Proof. unfold wp. intros ->. done. Qed.

Lemma wp_safe_inv {A} (m : M S A) (Q : A -> S -> Prop) s :
  wp m safe Q s -> exists a s', m s = Ok a s' /\ Q a s'.
Proof. unfold wp, safe. destruct (m s); intros H; [eauto|destruct H..]. Qed.

(** Loop rule: [I done s] holds after the iterations [done]. *)
Lemma wp_for_each {B} (I : list B -> S -> Prop) (body : B -> M S unit) E :
  forall l pre s,
  I pre s ->
  (forall p b r s', pre ++ l = p ++ b :: r -> I p s' ->
     wp (body b) E (fun _ s'' => I (p ++ [b]) s'') s') ->
  wp (for_each l body) E (fun _ s' => I (pre ++ l) s') s.
Proof.
  induction l as [|b l IH]; intros pre s HI Hb; simpl.
  - rewrite app_nil_r. by apply wp_ret.
  - apply wp_bind. eapply wp_mono; [by eapply (Hb pre b l)|done|].
    intros ? s' HI'. replace (pre ++ b :: l) with ((pre ++ [b]) ++ l)
      by (rewrite <- app_assoc; reflexivity).
    apply IH; [done|]. intros p b' r s'' Heq. apply (Hb p b' r).
    by rewrite <- Heq, <- app_assoc.
Qed.

(** Loop rule with early exit: [I done s] while the loop goes on, [Q] at the
    exit. *)
Lemma wp_for_until {B R} (I : list B -> S -> Prop) (Q : R -> S -> Prop)
    (body : B -> M S (option R)) E :
  forall l pre s,
  I pre s ->
  (forall p b r s', pre ++ l = p ++ b :: r -> I p s' ->
     wp (body b) E (fun o s'' => match o with
                                 | Some x => Q x s''
                                 | None => I (p ++ [b]) s''
                                 end) s') ->
  wp (for_until l body) E (fun o s' => match o with
                                       | Some x => Q x s'
                                       | None => I (pre ++ l) s'
                                       end) s.
Proof.
  induction l as [|b l IH]; intros pre s HI Hb; simpl.
  - rewrite app_nil_r. by apply wp_ret.
  - apply wp_bind. eapply wp_mono; [by eapply (Hb pre b l)|done|].
    intros [x|] s' HI'; [by apply wp_ret|].
    replace (pre ++ b :: l) with ((pre ++ [b]) ++ l) by (rewrite <- app_assoc; reflexivity).
    apply IH; [done|]. intros p b' r s'' Heq. apply (Hb p b' r).
    by rewrite <- Heq, <- app_assoc.
Qed.
End wp.

(** The final state of a run, and the test by evaluation of how it ends. *)
Definition run_state {S A} (d : S) (o : outcome S A) : S :=
  match o with Ok _ s => s | _ => d end.
Definition ends_with {S A} (P : A -> bool) (o : outcome S A) : bool :=
  match o with Ok a _ => P a | _ => false end.

Lemma in_rev_elem {A} (x : A) l : x ∈ l <-> x ∈ rev l.
Proof. rewrite !list_elem_of_In. apply in_rev. Qed.

Lemma Ok_inj {S A} (a b : A) (s s' : S) : Ok a s = Ok b s' -> a = b /\ s = s'.
Proof. by intros [= -> ->]. Qed.

Lemma run_state_ok {S A} (P : A -> bool) (a : A) (d : S) (o : outcome S A) :
  (forall b, P b = true -> b = a) -> ends_with P o = true -> o = Ok a (run_state d o).
Proof. intros HP. destruct o; simpl; try done. intros ->%HP. done. Qed.

(** A chain of runs evaluated in one go: each must end as its test says, and the
    rest of the chain is tested on the state it leaves. *)
Definition step_ok {S A} (P : A -> bool) (m : M S A) (s : S) (rest : S -> bool) : bool :=
  match m s with Ok a s' => P a && rest s' | _ => false end.

Lemma step_ok_inv {S A} (P : A -> bool) (a : A) (m : M S A) s (rest : S -> bool) :
  (forall b, P b = true -> b = a) -> step_ok P m s rest = true -> exists s', m s = Ok a s' /\ rest s' = true.
Proof. intros HP. unfold step_ok. destruct (m s) as [b s'| | | |]; try done. intros [->%HP H]%andb_prop. by exists s'. Qed.

(** One step of symbolic execution of a [wp] goal. *)
Ltac wp_step :=
  lazymatch goal with
  | |- wp (bind _ _) _ _ _ => apply wp_bind
  | |- wp (ret _) _ _ _ => apply wp_ret
  | |- wp get _ _ _ => apply wp_get
  | |- wp (gets _) _ _ _ => apply wp_gets
  | |- wp (modify _) _ _ _ => apply wp_modify
  | |- wp (panic _) _ _ _ => apply wp_panic
  | |- wp (if ?b then _ else _) _ _ _ => let E := fresh "E" in destruct b eqn:E; bprop
  end; cbv beta.
Ltac wp_steps := repeat wp_step.

