(* ===== verification/CString.v ===== *)
(** * String and memory routines

    The kernel's [kernel/string.c] and the user library's [user/ulib.c].

    A pointer into a character array is the list of the bytes from it to the
    end of its object, so that [p++] is the tail; a read or write outside the
    object has no result ([None]).  [memmove] is the routine whose operands may
    be in one object, so it is modelled on a flat memory with two offsets. *)

From S2P Require Import Prelude.

(** ** kernel/string.c *)
Module KString.

Fixpoint memset (dst : list byte) (c : Z) (n : nat) {struct n} : option (list byte) :=
  match n, dst with
  | O, _ => Some dst
  | S n, _ :: dst => cons (byte_of_Z c) <$> memset dst c n
  | S _, [] => None
  end.

Fixpoint memcmp (s1 s2 : list byte) (n : nat) {struct n} : option Z :=
  match n, s1, s2 with
  | O, _, _ => Some 0
  | S n, a :: s1, b :: s2 =>
      if bool_decide (a = b) then memcmp s1 s2 n
      else Some (byte_to_Z a - byte_to_Z b)
  | S _, _, _ => None
  end.

(** [while(n-- > 0) *d++ = *s++;] *)
Fixpoint copy_up (m : list byte) (d s n : nat) : option (list byte) :=
  match n with
  | O => Some m
  | S n =>
      match m !! s, m !! d with
      | Some c, Some _ => copy_up (<[d:=c]> m) (S d) (S s) n
      | _, _ => None
      end
  end.

(** [while(n-- > 0) *--d = *--s;] *)
Fixpoint copy_down (m : list byte) (d s n : nat) : option (list byte) :=
  match n with
  | O => Some m
  | S n =>
      match m !! (s - 1)%nat, m !! (d - 1)%nat with
      | Some c, Some _ => copy_down (<[(d - 1)%nat:=c]> m) (d - 1) (s - 1) n
      | _, _ => None
      end
  end.

Definition memmove (m : list byte) (dst src n : nat) : option (list byte) :=
  if (n =? 0)%nat then Some m
  else if (src <? dst)%nat && (dst <? src + n)%nat
  then copy_down m (dst + n) (src + n) n
  else copy_up m dst src n.

Fixpoint strncmp (p q : list byte) (n : nat) {struct n} : option Z :=
  match n, p, q with
  | O, _, _ => Some 0
  | S n, a :: p, b :: q =>
      if bool_decide (a <> x00) && bool_decide (a = b) then strncmp p q n
      else Some (byte_to_Z a - byte_to_Z b)
  | S _, _, _ => None
  end.

(** Both loops write through [s]; the second one, entered after the NUL has
    been copied, is the [memset] of the remaining count. *)
Fixpoint strncpy (s t : list byte) (n : nat) {struct n} : option (list byte) :=
  match n, s, t with
  | O, _, _ => Some s
  | S n, _ :: s, c :: t =>
      cons c <$> (if bool_decide (c = x00) then memset s 0 n else strncpy s t n)
  | S _, _, _ => None
  end.

(** [n] is the value before the [--n] of the loop test; the final [*s = 0]
    is done where the loop stops, one past the NUL when it was copied. *)
Fixpoint safestrcpy_loop (s t : list byte) (n : nat) {struct n} : option (list byte) :=
  match n with
  | O => None
  | S O => match s with [] => None | _ :: s => Some (x00 :: s) end
  | S n =>
      match s, t with
      | _ :: s, c :: t =>
          cons c <$> (if bool_decide (c = x00)
                      then match s with [] => None | _ :: s => Some (x00 :: s) end
                      else safestrcpy_loop s t n)
      | _, _ => None
      end
  end.

Definition safestrcpy (s t : list byte) (n : Z) : option (list byte) :=
  if n <=? 0 then Some s else safestrcpy_loop s t (Z.to_nat n).

Fixpoint strlen (s : list byte) : option Z :=
  match s with
  | [] => None
  | c :: s => if bool_decide (c = x00) then Some 0 else Z.succ <$> strlen s
  end.
End KString.

(** ** user/ulib.c *)
Module Ulib.

Fixpoint strcpy (s t : list byte) : option (list byte) :=
  match s, t with
  | _ :: s, c :: t =>
      cons c <$> (if bool_decide (c = x00) then Some s else strcpy s t)
  | _, _ => None
  end.

Fixpoint strcmp (p q : list byte) : option Z :=
  match p, q with
  | a :: p, b :: q =>
      if bool_decide (a <> x00) && bool_decide (a = b) then strcmp p q
      else Some (byte_to_Z a - byte_to_Z b)
  | _, _ => None
  end.

(** The pointer returned is the suffix that starts at the match; [Some None]
    is the null pointer. *)
Fixpoint strchr (s : list byte) (c : byte) : option (option (list byte)) :=
  match s with
  | [] => None
  | a :: s' =>
      if bool_decide (a = x00) then Some None
      else if bool_decide (a = c) then Some (Some s)
      else strchr s' c
  end.

Definition memmove (m : list byte) (dst src : nat) (n : Z) : option (list byte) :=
  if (dst <? src)%nat then KString.copy_up m dst src (Z.to_nat n)
  else if n <? 0 then Some m
  else KString.copy_down m (dst + Z.to_nat n) (src + Z.to_nat n) (Z.to_nat n).

(** The accumulation overflows [int] outside [- 2^31, 2^31), which C leaves
    undefined. *)
Fixpoint atoi_loop (s : list byte) (n : Z) : option Z :=
  match s with
  | [] => None
  | c :: s =>
      let d := byte_to_Z c in
      if (48 <=? d) && (d <=? 57) then
        let n := n * 10 + d - 48 in
        if n <? 2 ^ 31 then atoi_loop s n else None
      else Some n
  end.
Definition atoi (s : list byte) : option Z := atoi_loop s 0.

(** [gets] reads bytes one by one from [input], whose end is the end of the
    file; it fills [buf] and gives the bytes not consumed.  [room] is
    [max - 1 - i], the iterations left. *)
Fixpoint gets_loop (buf input : list byte) (room : nat)
    : option (list byte * list byte) :=
  match room, input, buf with
  | S room, c :: input, _ :: buf =>
      if bool_decide (c = x0a) || bool_decide (c = x0d) then
        match buf with
        | [] => None
        | _ :: buf => Some (c :: x00 :: buf, input)
        end
      else
        r ← gets_loop buf input room;
        Some (c :: r.1, r.2)
  | _, _, _ :: buf => Some (x00 :: buf, input)
  | _, _, [] => None
  end.
Definition gets (buf input : list byte) (max : Z) : option (list byte * list byte) :=
  gets_loop buf input (Z.to_nat (max - 1)).
End Ulib.

(** ** Specifications *)

(** The C string an array holds: the bytes before the first NUL. *)
Fixpoint cstr (l : list byte) : list byte :=
  match l with
  | [] => []
  | c :: l => if bool_decide (c = x00) then [] else c :: cstr l
  end.

Section copies.
Import KString.

Lemma copy_up_lookup n : forall m d s,
  (d + n <= length m)%nat -> (s + n <= length m)%nat ->
  (d <= s \/ s + n <= d)%nat ->
  exists m', copy_up m d s n = Some m' /\ length m' = length m /\
    forall i, m' !! i = if decide (d <= i < d + n)%nat
                        then m !! (s + (i - d))%nat else m !! i.
Proof.
  induction n as [|n IH]; intros m d s Hd Hs Ho; simpl.
  { exists m. split_and!; [done..|]. intros i. by rewrite decide_False by lia. }
  destruct (lookup_lt_is_Some_2 m s) as [c Hc]; [lia|].
  destruct (lookup_lt_is_Some_2 m d) as [c' Hc']; [lia|].
  rewrite Hc, Hc'.
  destruct (IH (<[d:=c]> m) (S d) (S s)) as (m' & -> & Hl & Hm);
    rewrite ?length_insert in *; [lia..|].
  exists m'. split_and!; [done|lia|]. intros i. rewrite Hm.
  destruct (decide (i = d)) as [->|Hi].
  - rewrite decide_False by lia. rewrite decide_True by lia.
    rewrite list_lookup_insert_eq by lia. by rewrite Nat.sub_diag, Nat.add_0_r.
  - destruct (decide (S d <= i < S d + n)%nat).
    + rewrite decide_True by lia. rewrite list_lookup_insert_ne by lia.
      f_equal. lia.
    + rewrite decide_False by lia. by rewrite list_lookup_insert_ne by lia.
Qed.

Lemma copy_down_lookup n : forall m d s,
  (n <= d <= length m)%nat -> (n <= s <= length m)%nat -> (s <= d \/ d + n <= s)%nat ->
  exists m', copy_down m d s n = Some m' /\ length m' = length m /\
    forall i, m' !! i = if decide (d - n <= i < d)%nat
                        then m !! (s - n + (i - (d - n)))%nat else m !! i.
Proof.
  induction n as [|n IH]; intros m d s Hd Hs Ho; simpl.
  { exists m. split_and!; [done..|]. intros i. by rewrite decide_False by lia. }
  destruct (lookup_lt_is_Some_2 m (s - 1)) as [c Hc]; [lia|].
  destruct (lookup_lt_is_Some_2 m (d - 1)) as [c' Hc']; [lia|].
  rewrite Hc, Hc'.
  destruct (IH (<[(d - 1)%nat:=c]> m) (d - 1)%nat (s - 1)%nat) as (m' & -> & Hl & Hm);
    rewrite ?length_insert in *; [lia..|].
  exists m'. split_and!; [done|lia|]. intros i. rewrite Hm.
  destruct (decide (i = (d - 1)%nat)) as [->|Hi].
  - rewrite decide_False by lia. rewrite decide_True by lia.
    rewrite list_lookup_insert_eq by lia. rewrite <- Hc. f_equal. lia.
  - destruct (decide (d - 1 - n <= i < d - 1)%nat).
    + rewrite decide_True by lia. rewrite list_lookup_insert_ne by lia.
      f_equal. lia.
    + rewrite decide_False by lia. by rewrite list_lookup_insert_ne by lia.
Qed.

(** A list with the lookups of a splice is that splice. *)
Lemma splice_by_lookup (m m' : list byte) d s n :
  (d + n <= length m)%nat -> (s + n <= length m)%nat -> length m' = length m ->
  (forall i, m' !! i = if decide (d <= i < d + n)%nat
                       then m !! (s + (i - d))%nat else m !! i) ->
  m' = splice m d (slice s n m).
Proof.
  intros Hd Hs Hl Hm. apply list_eq. intros i. rewrite Hm.
  pose proof (length_slice s n m Hs) as Hsl. case_decide.
  - rewrite lookup_splice_in by lia. by rewrite lookup_slice by lia.
  - by rewrite lookup_splice_out by lia.
Qed.

Lemma kmemmove_splice m dst src n :
  (dst + n <= length m)%nat -> (src + n <= length m)%nat ->
  memmove m dst src n = Some (splice m dst (slice src n m)).
Proof.
  intros Hd Hs. unfold memmove. destruct (Nat.eqb_spec n 0) as [->|Hn].
  { f_equal. apply splice_by_lookup; [done..|].
    intros i. by rewrite decide_False by lia. }
  destruct (Nat.ltb_spec src dst), (Nat.ltb_spec dst (src + n)); simpl;
    first [destruct (copy_up_lookup n m dst src) as (m' & -> & Hl & Hm); [lia..|]
          |destruct (copy_down_lookup n m (dst + n) (src + n)) as (m' & -> & Hl & Hm); [lia..|]];
    f_equal; apply splice_by_lookup; try done.
  intros i. rewrite Hm. replace (dst + n - n)%nat with dst by lia.
  by replace (src + n - n)%nat with src by lia.
Qed.

Lemma umemmove_splice m dst src n :
  0 <= n -> (dst + Z.to_nat n <= length m)%nat -> (src + Z.to_nat n <= length m)%nat ->
  Ulib.memmove m dst src n = Some (splice m dst (slice src (Z.to_nat n) m)).
Proof.
  intros Hn Hd Hs. unfold Ulib.memmove.
  destruct (Nat.ltb_spec dst src).
  - destruct (copy_up_lookup (Z.to_nat n) m dst src) as (m' & -> & Hl & Hm); [lia..|].
    f_equal. by apply splice_by_lookup.
  - destruct (Z.ltb_spec n 0); [lia|].
    destruct (copy_down_lookup (Z.to_nat n) m (dst + Z.to_nat n) (src + Z.to_nat n))
      as (m' & -> & Hl & Hm); [lia..|].
    f_equal. apply splice_by_lookup; try done.
    intros i. rewrite Hm. replace (dst + Z.to_nat n - Z.to_nat n)%nat with dst by lia.
    by replace (src + Z.to_nat n - Z.to_nat n)%nat with src by lia.
Qed.
End copies.

(** The first [n] bytes of [p] can be read by a routine that stops at NUL. *)
Definition readable (p : list byte) (n : nat) : Prop := (n <= length p)%nat \/ x00 ∈ p.

Lemma readable_cons c p n : c <> x00 -> readable (c :: p) (S n) -> readable p n.
Proof. unfold readable. simpl. rewrite elem_of_cons. intros Hc [H|[H|H]]; [left; lia|congruence|by right]. Qed.

Lemma readable_not_nil n : ~ readable [] (S n).
Proof. unfold readable. simpl. intros [?|H]; [lia|by apply not_elem_of_nil in H]. Qed.

#[export] Hint Resolve readable_cons : xv6.

Section strings.
Import KString.

Lemma length_cstr_le l : (length (cstr l) <= length l)%nat.
Proof. induction l; simpl; [lia|]. case_bool_decide; simpl; lia. Qed.

Lemma cstr_no_nul l : x00 ∉ cstr l.
Proof.
  induction l; simpl; [apply not_elem_of_nil|]. case_bool_decide; [apply not_elem_of_nil|].
  rewrite elem_of_cons. intros [?|?]; congruence || done.
Qed.

Lemma cstr_app_nul l r : x00 ∉ l -> cstr (l ++ x00 :: r) = l.
Proof.
  induction l as [|c l IH]; simpl; [done|]. rewrite elem_of_cons. intros Hl.
  rewrite bool_decide_false by naive_solver. f_equal. apply IH. naive_solver.
Qed.

Lemma cstr_clean l : x00 ∉ l -> cstr l = l.
Proof.
  induction l as [|c l IH]; simpl; [done|]. rewrite elem_of_cons. intros Hl.
  rewrite bool_decide_false by naive_solver. f_equal. apply IH. naive_solver.
Qed.

(** [strncmp] answers 0 exactly when the two (possibly unterminated) names
    of at most [n] bytes are the same string. *)
Lemma strncmp_zero n : forall p q,
  readable p n -> readable q n ->
  exists z, strncmp p q n = Some z /\ (z = 0 <-> cstr (take n p) = cstr (take n q)).
Proof.
  induction n as [|n IH]; intros p q Hp Hq; [by exists 0|].
  destruct p as [|a p]; [by apply readable_not_nil in Hp|].
  destruct q as [|b q]; [by apply readable_not_nil in Hq|]. simpl.
  destruct (decide (a = x00)) as [->|Ha].
  { simpl. eexists; split; [done|]. split.
    - intros H. assert (b = x00) as -> by (apply (inj byte_to_Z); cbn in *; lia). done.
    - case_bool_decide; [subst; lia|discriminate]. }
  rewrite (bool_decide_true (a <> x00)), (bool_decide_false (a = x00)) by done. simpl.
  destruct (decide (a = b)) as [<-|Hab].
  - rewrite bool_decide_true, (bool_decide_false (a = x00)) by done.
    destruct (IH p q) as (z & -> & Hz); eauto with xv6.
    exists z. split; [done|]. rewrite Hz. split; congruence.
  - rewrite bool_decide_false by done. eexists; split; [done|]. split.
    + intros H. destruct Hab. apply (inj byte_to_Z). lia.
    + case_bool_decide; intros; congruence.
Qed.

(** What [strncpy] stores: the string cut to [n] bytes, padded with NULs. *)
Definition name_field (t : list byte) (n : nat) : list byte :=
  let u := cstr (take n t) in u ++ replicate (n - length u) x00.

Lemma length_name_field t n : length (name_field t n) = n.
Proof.
  unfold name_field. rewrite length_app, length_replicate.
  pose proof (length_cstr_le (take n t)). rewrite length_take in *. lia.
Qed.

Lemma cstr_name_field t n : cstr (name_field t n) = cstr (take n t).
Proof.
  unfold name_field. destruct (n - length (cstr (take n t)))%nat; simpl.
  - rewrite app_nil_r. apply cstr_clean, cstr_no_nul.
  - apply cstr_app_nul, cstr_no_nul.
Qed.

Lemma memset_eq c n : forall dst, (n <= length dst)%nat ->
  memset dst c n = Some (replicate n (byte_of_Z c) ++ drop n dst).
Proof.
  induction n as [|n IH]; intros [|b dst] H; simpl in *; try done; try lia.
  rewrite IH by lia. done.
Qed.

Lemma strncpy_eq n : forall s t,
  (n <= length s)%nat -> readable t n ->
  strncpy s t n = Some (name_field t n ++ drop n s).
Proof.
  induction n as [|n IH]; intros s t Hs Ht; [done|].
  destruct s as [|b s]; [simpl in *; lia|].
  destruct t as [|c t]; [by apply readable_not_nil in Ht|]. simpl in *.
  unfold name_field. simpl. destruct (bool_decide_reflect (c = x00)) as [->|Hc].
  - rewrite memset_eq by lia. done.
  - rewrite IH by (eauto with xv6; lia). done.
Qed.

Lemma safestrcpy_loop_eq n : forall s t,
  (S n <= length s)%nat -> readable t n ->
  exists r, safestrcpy_loop s t (S n) = Some r /\ length r = length s /\
    cstr r = cstr (take n t).
Proof.
  induction n as [|n IH]; intros s t Hs Ht.
  { destruct s as [|b s]; [simpl in *; lia|]. by exists (x00 :: s). }
  destruct s as [|b s]; [simpl in *; lia|].
  destruct t as [|c t]; [by apply readable_not_nil in Ht|].
  change (safestrcpy_loop (b :: s) (c :: t) (S (S n))) with
    (cons c <$> (if bool_decide (c = x00)
                 then match s with [] => None | _ :: s => Some (x00 :: s) end
                 else safestrcpy_loop s t (S n))).
  cbn [take cstr]. simpl in Hs.
  destruct (bool_decide_reflect (c = x00)) as [->|Hc].
  - destruct s as [|b' s]; [simpl in *; lia|]. by exists (x00 :: x00 :: s).
  - destruct (IH s t) as (r & -> & Hl & Hr); [lia|eauto with xv6|].
    exists (c :: r). simpl. rewrite bool_decide_false by done.
    split_and!; [done|lia|by f_equal].
Qed.

Lemma strlen_eq s : x00 ∈ s -> strlen s = Some (Z.of_nat (length (cstr s))).
Proof.
  induction s as [|c s IH]; [by intros ?%not_elem_of_nil|]. simpl.
  rewrite elem_of_cons. intros H. case_bool_decide; [done|].
  rewrite IH by naive_solver. simpl. f_equal. lia.
Qed.
End strings.

(** ** Properties *)

(** [memmove], in the kernel and in the user library, has the effect of
    copying the [n] source bytes through a temporary, whatever the overlap of
    source and destination, and touches no other byte. *)
Lemma memmove_overlap_safe (m : list byte) (dst src n : nat) :
  (dst + n <= length m)%nat -> (src + n <= length m)%nat ->
  KString.memmove m dst src n = Some (splice m dst (slice src n m)) /\
  Ulib.memmove m dst src (Z.of_nat n) = Some (splice m dst (slice src n m)).
Proof.
  intros Hd Hs. split; [by apply kmemmove_splice|].
  rewrite umemmove_splice; rewrite ?Nat2Z.id; done || lia.
Qed.

(** The string routines are safe and mean what their names say on every
    pair of arrays they may read: [strncmp] is 0 exactly on equal strings of at
    most [n] bytes, [strncpy] fills the [n] bytes with the string cut and
    NUL-padded, and [safestrcpy] always leaves a NUL-terminated string, cut to
    [n - 1] bytes. *)
Lemma string_copy_compare (s t : list byte) (n : nat) :
  (S n <= length s)%nat -> readable t n ->
  (exists z, KString.strncmp s t n = Some z /\
     (z = 0 <-> cstr (take n s) = cstr (take n t))) /\
  KString.strncpy s t n = Some (name_field t n ++ drop n s) /\
  (exists r, KString.safestrcpy s t (Z.of_nat (S n)) = Some r /\
     length r = length s /\ cstr r = cstr (take n t)).
Proof.
  intros Hs Ht. split_and!.
  - apply strncmp_zero; [left; lia|done].
  - apply strncpy_eq; [lia|done].
  - unfold KString.safestrcpy. rewrite Nat2Z.id.
    destruct (Z.leb_spec (Z.of_nat (S n)) 0); [lia|]. by apply safestrcpy_loop_eq.
Qed.

(** The memory and string routines of the kernel and of the user library are
    correct on everything they may read.  Both [memmove]s copy as through a
    temporary under any overlap; [strncmp] is 0 exactly on equal strings of at
    most [n] bytes, [strncpy] fills the [n] bytes with the string cut and
    NUL-padded, and [safestrcpy] always leaves a NUL-terminated string, cut to
    [n - 1] bytes. *)
Theorem string_routines :
  (forall (m : list byte) (dst src n : nat), (dst + n <= length m)%nat -> (src + n <= length m)%nat ->
    KString.memmove m dst src n = Some (splice m dst (slice src n m)) /\
    Ulib.memmove m dst src (Z.of_nat n) = Some (splice m dst (slice src n m))) /\
  (forall (s t : list byte) (n : nat), (S n <= length s)%nat -> readable t n ->
    (exists z, KString.strncmp s t n = Some z /\ (z = 0 <-> cstr (take n s) = cstr (take n t))) /\
    KString.strncpy s t n = Some (name_field t n ++ drop n s) /\
    (exists r, KString.safestrcpy s t (Z.of_nat (S n)) = Some r /\ length r = length s /\ cstr r = cstr (take n t))).
Proof. split; [exact memmove_overlap_safe|exact string_copy_compare]. Qed.

Lemma string_routines_witness :
  KString.memmove (bytes "abcdef") 1 0 4 = Some (bytes "aabcdf") /\
  KString.strncpy (bytes "usertests") (bytes "userte" ++ [x00]) 8 = Some (bytes "userte" ++ [x00; x00; "s"%byte]).
Proof.
  split; [exact (proj1 (proj1 string_routines (bytes "abcdef") 1%nat 0%nat 4%nat ltac:(simpl; lia) ltac:(simpl; lia)))|].
  exact (proj1 (proj2 (proj2 string_routines (bytes "usertests") (bytes "userte" ++ [x00]) 8%nat
           ltac:(simpl; lia) ltac:(right; apply list_elem_of_In; simpl; tauto)))).
Defined.
