(* ===== verification/Mem.v ===== *)
(** * Physical memory

    Byte-addressed physical memory, as the kernel sees it through its direct
    map: reads and writes of byte ranges and of 64-bit words, and the lemmas on
    which the page allocator and the page tables are verified. *)

From S2P Require Import Prelude.

Abbreviation pmem := (gmap Z byte).

Definition mget (m : pmem) (a : Z) : byte := default x00 (m !! a).

Fixpoint mread (m : pmem) (a : Z) (n : nat) : list byte :=
  match n with
  | O => []
  | S n => mget m a :: mread m (a + 1) n
  end.

Fixpoint mwrite (m : pmem) (a : Z) (bs : list byte) : pmem :=
  match bs with
  | [] => m
  | b :: bs => mwrite (<[a:=b]> m) (a + 1) bs
  end.

(** A 64-bit load and store (riscv64 is little-endian). *)
Definition load64 (m : pmem) (a : Z) : Z := le_dec (mread m a 8).
Definition store64 (m : pmem) (a v : Z) : pmem := mwrite m a (le_enc 8 v).

(** [memset] and [memmove] on physical addresses, the ranges being disjoint. *)
Definition mem_set (m : pmem) (a c n : Z) : pmem :=
  mwrite m a (replicate (Z.to_nat n) (byte_of_Z c)).
Definition mem_copy (m : pmem) (dst src n : Z) : pmem :=
  mwrite m dst (mread m src (Z.to_nat n)).

#[global] Arguments mem_set : simpl never.
#[global] Arguments mem_copy : simpl never.
#[global] Arguments load64 : simpl never.
#[global] Arguments store64 : simpl never.

Lemma length_mread m a n : length (mread m a n) = n.
Proof. revert a. induction n; intros; simpl; auto. Qed.

Lemma mget_mwrite bs : forall m a x,
  mget (mwrite m a bs) x =
    if decide (a <= x < a + Z.of_nat (length bs))
    then default x00 (bs !! Z.to_nat (x - a)) else mget m x.
Proof.
  induction bs as [|b bs IH]; intros m a x; simpl mwrite.
  { rewrite decide_False; [done|simpl; lia]. }
  rewrite IH. simpl length. destruct (decide (x = a)) as [->|Hx].
  - rewrite decide_False, decide_True by lia. rewrite Z.sub_diag. simpl.
    unfold mget. by rewrite lookup_insert_eq.
  - destruct (decide (a + 1 <= x < a + 1 + Z.of_nat (length bs))).
    + rewrite decide_True by lia.
      replace (Z.to_nat (x - a)) with (S (Z.to_nat (x - (a + 1)))) by lia. done.
    + rewrite decide_False by lia. unfold mget. by rewrite lookup_insert_ne by lia.
Qed.

Lemma mget_mwrite_out m a bs x :
  x < a \/ a + Z.of_nat (length bs) <= x -> mget (mwrite m a bs) x = mget m x.
Proof. intros. rewrite mget_mwrite. by rewrite decide_False by lia. Qed.

Lemma lookup_mread m n : forall a i,
  (i < n)%nat -> mread m a n !! i = Some (mget m (a + Z.of_nat i)).
Proof.
  induction n as [|n IH]; intros a [|i] Hi; simpl; try lia.
  - by rewrite Z.add_0_r.
  - rewrite IH by lia. do 2 f_equal. lia.
Qed.

Lemma mread_ext m m' a n :
  (forall x, a <= x < a + Z.of_nat n -> mget m x = mget m' x) -> mread m a n = mread m' a n.
Proof.
  revert a. induction n as [|n IH]; intros a H; simpl; [done|].
  f_equal; [apply H; lia|]. apply IH. intros. apply H. lia.
Qed.

Lemma mread_mwrite_same m a bs : mread (mwrite m a bs) a (length bs) = bs.
Proof.
  apply list_eq. intros i. destruct (decide (i < length bs)%nat).
  - rewrite lookup_mread by lia. rewrite mget_mwrite, decide_True by lia.
    destruct (lookup_lt_is_Some_2 bs i) as [b Hb]; [lia|].
    by replace (Z.to_nat (a + Z.of_nat i - a)) with i by lia; rewrite Hb.
  - rewrite !lookup_ge_None_2; rewrite ?length_mread; done || lia.
Qed.

Lemma mread_mwrite_out m a bs b n :
  b + Z.of_nat n <= a \/ a + Z.of_nat (length bs) <= b ->
  mread (mwrite m a bs) b n = mread m b n.
Proof. intros. apply mread_ext. intros. apply mget_mwrite_out. lia. Qed.

Lemma mread_app m a n k : mread m a (n + k) = mread m a n ++ mread m (a + Z.of_nat n) k.
Proof.
  revert a. induction n as [|n IH]; intros a; simpl; [by rewrite Z.add_0_r|].
  rewrite IH. do 3 f_equal. lia.
Qed.

Lemma mwrite_app m a l1 l2 :
  mwrite m a (l1 ++ l2) = mwrite (mwrite m a l1) (a + Z.of_nat (length l1)) l2.
Proof.
  revert m a. induction l1 as [|b l1 IH]; intros m a; simpl; [by rewrite Z.add_0_r|].
  rewrite IH. f_equal. lia.
Qed.

Lemma load64_range m a : 0 <= load64 m a < 2 ^ 64.
Proof.
  unfold load64. pose proof (le_dec_range (mread m a 8)) as H.
  rewrite length_mread in H. simpl Z.of_nat in H. lia.
Qed.

Lemma load_store64_same m a v : 0 <= v < 2 ^ 64 -> load64 (store64 m a v) a = v.
Proof.
  intros. unfold load64, store64. rewrite <- (length_le_enc 8 v) at 2.
  rewrite mread_mwrite_same. apply le_dec_enc_small. simpl Z.of_nat. lia.
Qed.

Lemma load64_ext m m' a :
  (forall x, a <= x < a + 8 -> mget m x = mget m' x) -> load64 m a = load64 m' a.
Proof. intros. unfold load64. f_equal. apply mread_ext. simpl Z.of_nat. done. Qed.

Lemma mget_store64_out m a v x : x < a \/ a + 8 <= x -> mget (store64 m a v) x = mget m x.
Proof. intros. apply mget_mwrite_out. rewrite length_le_enc. simpl Z.of_nat. done. Qed.

Lemma load_store64_other m a v b :
  b + 8 <= a \/ a + 8 <= b -> load64 (store64 m a v) b = load64 m b.
Proof. intros. apply load64_ext. intros. apply mget_store64_out. lia. Qed.

Lemma mget_set m a c n x :
  0 <= n ->
  mget (mem_set m a c n) x = if decide (a <= x < a + n) then byte_of_Z c else mget m x.
Proof.
  intros. unfold mem_set. rewrite mget_mwrite, length_replicate, Z2Nat.id by done.
  case_decide; [|done]. rewrite lookup_replicate_2 by lia. done.
Qed.

Lemma mget_set_out m a c n x :
  0 <= n -> x < a \/ a + n <= x -> mget (mem_set m a c n) x = mget m x.
Proof. intros. rewrite mget_set by done. by rewrite decide_False by lia. Qed.

Lemma load_set64_out m a c n b :
  0 <= n -> b + 8 <= a \/ a + n <= b -> load64 (mem_set m a c n) b = load64 m b.
Proof. intros. apply load64_ext. intros. apply mget_set_out; lia. Qed.

Lemma load_set64_zero m a n b :
  0 <= n -> a <= b -> b + 8 <= a + n -> load64 (mem_set m a 0 n) b = 0.
Proof.
  intros. unfold load64.
  assert (mread (mem_set m a 0 n) b 8 = replicate 8 x00) as ->; [|done].
  apply list_eq. intros i. destruct (decide (i < 8)%nat).
  - rewrite lookup_mread, lookup_replicate_2 by lia. rewrite mget_set, decide_True by lia. done.
  - rewrite !lookup_ge_None_2; rewrite ?length_mread, ?length_replicate; done || lia.
Qed.

Lemma mget_copy_out m d s n x :
  0 <= n -> x < d \/ d + n <= x -> mget (mem_copy m d s n) x = mget m x.
Proof.
  intros. unfold mem_copy. apply mget_mwrite_out. rewrite length_mread. lia.
Qed.

Lemma mget_copy_in m d s n x :
  0 <= n -> d <= x < d + n -> mget (mem_copy m d s n) x = mget m (s + (x - d)).
Proof.
  intros. unfold mem_copy. rewrite mget_mwrite, length_mread, decide_True by lia.
  rewrite lookup_mread by lia. simpl. f_equal. lia.
Qed.

Lemma load_copy64_out m d s n b :
  0 <= n -> b + 8 <= d \/ d + n <= b -> load64 (mem_copy m d s n) b = load64 m b.
Proof. intros. apply load64_ext. intros. apply mget_copy_out; lia. Qed.
