(* ===== verification/Kalloc.v ===== *)
(** * Physical page allocator ([kernel/kalloc.c])

    The free list is threaded through the free pages themselves, as in the
    code: [kmem.freelist] is the address of the first free page and the first
    word of a free page is the address of the next.  The critical sections
    under [kmem.lock] are atomic steps here. *)

From S2P Require Import Prelude Mem.

(** ** Layout constants and macros ([kernel/memlayout.h], [kernel/riscv.h]) *)

Definition PGSIZE : Z := 4096.
Definition KERNBASE : Z := 0x80000000.
Definition PHYSTOP : Z := KERNBASE + 128 * 1024 * 1024.

Definition PGROUNDUP (sz : Z) : Z := Z.land (u64 (sz + PGSIZE - 1)) (Z.lnot (PGSIZE - 1)).
Definition PGROUNDDOWN (a : Z) : Z := Z.land a (Z.lnot (PGSIZE - 1)).

#[global] Arguments PGROUNDUP : simpl never.
#[global] Arguments PGROUNDDOWN : simpl never.

Lemma PGROUNDDOWN_eq a : PGROUNDDOWN a = a / PGSIZE * PGSIZE.
Proof.
  unfold PGROUNDDOWN. rewrite <- Z.ldiff_land.
  change (PGSIZE - 1) with (Z.ones 12). rewrite Z.ldiff_ones_r by lia.
  rewrite Z.shiftl_mul_pow2, Z.shiftr_div_pow2 by lia. done.
Qed.

Lemma PGROUNDUP_eq sz :
  0 <= sz <= 2 ^ 64 - PGSIZE -> PGROUNDUP sz = (sz + PGSIZE - 1) / PGSIZE * PGSIZE.
Proof.
  intros. unfold PGROUNDUP.
  change (Z.land ?x (Z.lnot (PGSIZE - 1))) with (PGROUNDDOWN x).
  rewrite PGROUNDDOWN_eq, u64_small by (unfold PGSIZE in *; lia). done.
Qed.

(** ** State *)

(** Physical memory and [kmem.freelist] ([0] is the null pointer). *)
Record kst := mkKst { kmem : pmem; freelist : Z }.

Definition set_mem (f : pmem -> pmem) (s : kst) : kst := mkKst (f (kmem s)) (freelist s).
Definition set_freelist (p : Z) (s : kst) : kst := mkKst (kmem s) p.

(** ** Operations *)

Section kalloc.
(** The first address after the kernel, [end] in [kernel.ld]. *)
Variable kend : Z.

Definition kfree (pa : Z) : M kst unit :=
  if negb (pa mod PGSIZE =? 0) || (pa <? kend) || (PHYSTOP <=? pa)
  then panic "kfree"
  else
    modify (set_mem (fun m => mem_set m pa 1 PGSIZE));;;
    head <- gets freelist;;
    modify (set_mem (fun m => store64 m pa head));;;
    modify (set_freelist pa).

Definition kalloc : M kst Z :=
  r <- gets freelist;;
  (if negb (r =? 0)
   then next <- gets (fun s => load64 (kmem s) r);; modify (set_freelist next)
   else ret tt);;;
  (if negb (r =? 0)
   then modify (set_mem (fun m => mem_set m r 5 PGSIZE))
   else ret tt);;;
  ret r.

(** The pages the loop of [freerange] visits, in order. *)
Definition page_range (p n : Z) : list Z :=
  (fun i => p + Z.of_nat i * PGSIZE) <$> seq 0 (Z.to_nat n).

Definition freerange (pa_start pa_end : Z) : M kst unit :=
  let p := PGROUNDUP pa_start in
  for_each (page_range p ((pa_end - p) / PGSIZE)) kfree.

Definition kinit : M kst unit := freerange kend PHYSTOP.

(** ** Abstraction: the stack of free pages *)

(** A page that may be on the free list. *)
Definition kpage (pa : Z) : Prop := pa mod PGSIZE = 0 /\ kend <= pa < PHYSTOP.

(** [chain m head l]: the linked list in memory from [head] is [l]. *)
Fixpoint chain (m : pmem) (head : Z) (l : list Z) : Prop :=
  match l with
  | [] => head = 0
  | p :: l => head = p /\ p <> 0 /\ chain m (load64 m p) l
  end.

Definition krep (s : kst) (l : list Z) : Prop :=
  chain (kmem s) (freelist s) l /\ NoDup l /\ Forall kpage l.

(** Nothing but the bytes of page [pa] differs. *)
Definition same_outside (pa : Z) (m m' : pmem) : Prop :=
  forall x, x < pa \/ pa + PGSIZE <= x -> mget m' x = mget m x.

Lemma chain_ext m m' l : forall head,
  chain m head l -> (forall p, p ∈ l -> load64 m' p = load64 m p) -> chain m' head l.
Proof.
  induction l as [|p l IH]; intros head; simpl; [done|].
  intros (-> & Hp & Hc) He. split_and!; [done..|].
  rewrite He by (apply elem_of_cons; auto).
  apply IH; [done|]. intros. apply He. apply elem_of_cons. auto.
Qed.

Lemma kpage_disjoint p q :
  p mod PGSIZE = 0 -> q mod PGSIZE = 0 -> p <> q ->
  p + PGSIZE <= q \/ q + PGSIZE <= p.
Proof. unfold PGSIZE. intros. dlia. Qed.

Lemma kpage_set_mem_chain m m' l head p :
  chain m head l -> Forall kpage l -> kpage p -> p ∉ l -> same_outside p m m' ->
  chain m' head l.
Proof.
  intros Hc Hl [Hp _] Hpl Hs. eapply chain_ext; [done|]. intros q Hq.
  rewrite Forall_forall in Hl. destruct (Hl q Hq) as [Hq' _].
  destruct (kpage_disjoint p q) as [?|?]; [done..|intros ->; done| |];
    apply load64_ext; intros; apply Hs; unfold PGSIZE in *; lia.
Qed.

Hypothesis kend_pos : 0 < kend.

Lemma kfree_eq pa s :
  kpage pa ->
  kfree pa s = Ok tt (mkKst (store64 (mem_set (kmem s) pa 1 PGSIZE) pa (freelist s)) pa).
Proof.
  intros [Ha Hr]. unfold kfree.
  rewrite (proj2 (Z.eqb_eq _ _) Ha), (proj2 (Z.ltb_ge _ _) (proj1 Hr)).
  rewrite (proj2 (Z.leb_gt _ _) (proj2 Hr)). done.
Qed.

Lemma kfree_spec pa s l :
  krep s l -> kpage pa -> pa ∉ l ->
  exists s', kfree pa s = Ok tt s' /\ krep s' (pa :: l) /\
    same_outside pa (kmem s) (kmem s').
Proof.
  intros (Hc & Hnd & Hl) Hpa Hn. eexists. split; [by apply kfree_eq|].
  set (m' := store64 _ _ _).
  assert (Hs : same_outside pa (kmem s) m').
  { intros x Hx. unfold m'. rewrite mget_store64_out by (unfold PGSIZE in *; lia).
    apply mget_set_out; [done|lia]. }
  assert (Hf : 0 <= freelist s < 2 ^ 64).
  { destruct l as [|p l']; simpl in Hc; [lia|]. destruct Hc as (-> & _).
    rewrite Forall_cons in Hl. destruct Hl as [[_ ?] _]. unfold PHYSTOP, KERNBASE in *. lia. }
  split; [|done]. split_and!; [|by constructor|by constructor]. simpl. split_and!; [done| |].
  - destruct Hpa. lia.
  - unfold m' at 2. rewrite load_store64_same by done.
    by eapply kpage_set_mem_chain.
Qed.

Lemma kalloc_empty s : krep s [] -> kalloc s = Ok 0 s.
Proof.
  intros (Hc & _). simpl in Hc. unfold kalloc, bind, gets. rewrite Hc. done.
Qed.

Lemma kalloc_cons_eq s p l :
  krep s (p :: l) ->
  kalloc s = Ok p (mkKst (mem_set (kmem s) p 5 PGSIZE) (load64 (kmem s) p)).
Proof.
  intros (Hc & _). simpl in Hc. destruct Hc as (Hf & Hp & _).
  unfold kalloc, bind, gets. rewrite Hf. rewrite (proj2 (Z.eqb_neq p 0) Hp). done.
Qed.

Lemma kalloc_cons s p l :
  krep s (p :: l) ->
  exists s', kalloc s = Ok p s' /\ krep s' l /\ same_outside p (kmem s) (kmem s').
Proof.
  intros Hk. eexists. split; [by eapply kalloc_cons_eq|].
  assert (Hs : same_outside p (kmem s) (mem_set (kmem s) p 5 PGSIZE)).
  { intros x Hx. apply mget_set_out; [done|lia]. }
  split; [|done]. destruct Hk as (Hc & Hnd & Hl).
  apply NoDup_cons in Hnd as [Hn Hnd]. apply Forall_cons in Hl as [Hp Hl].
  split_and!; [|done..]. simpl in *. destruct Hc as (_ & _ & Hc).
  by eapply kpage_set_mem_chain.
Qed.

(** ** Initialisation *)

Lemma elem_of_page_range p n x :
  x ∈ page_range p n <-> exists i, 0 <= i < n /\ x = p + i * PGSIZE.
Proof.
  unfold page_range. rewrite list_elem_of_fmap. split.
  - intros (i & -> & Hi%elem_of_seq). exists (Z.of_nat i). lia.
  - intros (i & Hi & ->). exists (Z.to_nat i). rewrite elem_of_seq, Z2Nat.id by lia. split; [done|lia].
Qed.

Lemma NoDup_page_range p n : NoDup (page_range p n).
Proof.
  apply NoDup_fmap_2; [|apply NoDup_seq].
  intros i j H. unfold PGSIZE in H. lia.
Qed.

(** The pages between the end of the kernel and the end of memory. *)
Definition all_pages : list Z :=
  page_range (PGROUNDUP kend) ((PHYSTOP - PGROUNDUP kend) / PGSIZE).

Hypothesis kend_le : kend <= PHYSTOP.

Lemma all_pages_kpage : Forall kpage all_pages.
Proof.
  apply Forall_forall. intros x (i & Hi & ->)%elem_of_page_range.
  rewrite PGROUNDUP_eq in * by (unfold PHYSTOP, KERNBASE, PGSIZE in *; lia).
  unfold kpage, PGSIZE in *. split; dlia.
Qed.

(** Freeing fresh pages one after the other stacks them on the list. *)
Lemma kfree_all ps : forall s l,
  krep s l -> Forall kpage ps -> NoDup (ps ++ l) ->
  exists s', for_each ps kfree s = Ok tt s' /\ krep s' (rev ps ++ l).
Proof.
  induction ps as [|p ps IH]; intros s l Hk Hps Hnd; [by exists s|].
  apply Forall_cons in Hps as [Hp Hps]. simpl in Hnd. apply NoDup_cons in Hnd as [Hn Hnd].
  destruct (kfree_spec p s l) as (s1 & Hf & Hk1 & _); [done..| |].
  { intros ?. apply Hn, elem_of_app. by right. }
  destruct (IH s1 (p :: l)) as (s2 & Hf2 & Hk2); [done..| |].
  { rewrite <- Permutation_middle. by constructor. }
  exists s2. simpl. unfold bind. rewrite Hf. split; [done|]. by rewrite <- app_assoc.
Qed.

Lemma kinit_spec s :
  freelist s = 0 -> exists s', kinit s = Ok tt s' /\ krep s' (rev all_pages).
Proof.
  intros Hf. destruct (kfree_all all_pages s []) as (s' & H1 & H2).
  - split_and!; [done|constructor|constructor].
  - apply all_pages_kpage.
  - rewrite app_nil_r. apply NoDup_page_range.
  - rewrite app_nil_r in H2. by exists s'.
Qed.

(** ** Clients of the allocator

    [A] lists the pages handed out and not yet returned.  Clients allocate,
    return a page they own, and write what they like into pages they own. *)

Inductive kstep : kst * list Z -> kst * list Z -> Prop :=
| kstep_alloc s s' p A : kalloc s = Ok p s' -> p <> 0 -> kstep (s, A) (s', p :: A)
| kstep_fail s s' A : kalloc s = Ok 0 s' -> kstep (s, A) (s', A)
| kstep_free s s' p A A' : A ≡ₚ p :: A' -> kfree p s = Ok tt s' -> kstep (s, A) (s', A')
| kstep_write s m' p A : p ∈ A -> same_outside p (kmem s) m' ->
    kstep (s, A) (mkKst m' (freelist s), A).

Definition kinv (c : kst * list Z) : Prop :=
  exists l, krep c.1 l /\ c.2 ++ l ≡ₚ all_pages.

Lemma kinv_parts s A l :
  krep s l -> A ++ l ≡ₚ all_pages -> Forall kpage A /\ NoDup (A ++ l).
Proof.
  intros Hk Hp. split.
  - pose proof all_pages_kpage as H. rewrite <- Hp, Forall_app in H. tauto.
  - rewrite Hp. apply NoDup_page_range.
Qed.

Lemma kstep_inv c c' : kinv c -> kstep c c' -> kinv c'.
Proof.
  intros (l & Hk & Hp) Hs.
  destruct Hs as [s s' p A Ha Hn|s s' A Ha|s s' p A A' HA Hf|s m' p A HpA Hm]; simpl in *;
    destruct (kinv_parts _ _ _ Hk Hp) as [HA' Hnd].
  - destruct l as [|q l].
    { rewrite kalloc_empty in Ha by done. congruence. }
    destruct (kalloc_cons s q l Hk) as (s1 & Ha1 & Hk1 & _).
    rewrite Ha in Ha1. injection Ha1 as -> ->. exists l. split; [done|].
    simpl. rewrite <- Hp. apply Permutation_middle.
  - destruct l as [|q l].
    { rewrite kalloc_empty in Ha by done. injection Ha as <-. by exists []. }
    destruct (kalloc_cons s q l Hk) as (s1 & Ha1 & _). rewrite Ha in Ha1.
    injection Ha1 as <- ->. destruct Hk as ((_ & Hz & _) & _). done.
  - rewrite HA in HA', Hnd, Hp. apply Forall_cons in HA' as [Hpp _].
    simpl in Hnd. apply NoDup_cons in Hnd as [Hn _].
    destruct (kfree_spec p s l) as (s1 & Hf1 & Hk1 & _); [done..| |].
    { intros ?. apply Hn, elem_of_app. by right. }
    rewrite Hf in Hf1. injection Hf1 as ->. exists (p :: l). split; [done|].
    simpl. rewrite <- Hp. symmetry. apply Permutation_middle.
  - exists l. split; [|done]. destruct Hk as (Hc & Hl & Hf). split_and!; [|done..].
    simpl. rewrite Forall_forall in HA'.
    eapply kpage_set_mem_chain; [done|done|by apply HA'| |done].
    intros Hpl. apply NoDup_app in Hnd as (_ & Hd & _). by apply (Hd p).
Qed.

Lemma ksteps_inv c c' : kinv c -> rtc kstep c c' -> kinv c'.
Proof. intros H Hr. revert H. induction Hr; eauto using kstep_inv. Qed.

(** C9: after [kinit], whatever clients do with the pages they own, the pages
    handed out and the pages on the free list are always exactly the pages of
    memory, each once: no page is handed out twice, none is lost, [kalloc] fails
    only when every page is in use, and returning an owned page never panics. *)
Theorem kalloc_partition s s0 s1 A :
  freelist s = 0 -> kinit s = Ok tt s0 -> rtc kstep (s0, []) (s1, A) ->
  exists l, krep s1 l /\ A ++ l ≡ₚ all_pages /\ NoDup (A ++ l) /\
    (exists p s2, kalloc s1 = Ok p s2 /\ (p = 0 <-> A ≡ₚ all_pages)) /\
    (forall p, p ∈ A -> exists s2, kfree p s1 = Ok tt s2).
Proof.
  intros Hf Hi Hr. destruct (kinit_spec s Hf) as (s0' & Hi' & Hk0).
  rewrite Hi in Hi'. injection Hi' as <-.
  destruct (ksteps_inv (s0, []) (s1, A)) as (l & Hk & Hp); [|done|].
  { exists (rev all_pages). simpl. split; [done|]. by rewrite <- Permutation_rev. }
  simpl in *. destruct (kinv_parts _ _ _ Hk Hp) as [HA Hnd].
  exists l. split_and!; [done..| |].
  - destruct l as [|q l].
    + rewrite app_nil_r in Hp. exists 0, s1. rewrite kalloc_empty by done. done.
    + destruct (kalloc_cons s1 q l Hk) as (s2 & Ha & _). exists q, s2. split; [done|].
      split; [intros ->; by destruct Hk as ((_ & Hz & _) & _)|].
      intros HA'. rewrite HA' in Hp. apply Permutation_length in Hp.
      rewrite length_app in Hp. simpl in Hp. lia.
  - intros p HpA. rewrite Forall_forall in HA. eexists. apply kfree_eq. by apply HA.
Qed.

(** [kfree] panics on every address that is not a page of the allocator. *)
Lemma kfree_rejects pa s : ~ kpage pa -> kfree pa s = Panic "kfree".
Proof.
  intros Hn. unfold kfree. case_if; [done|].
  destruct Hn. split; [|lia]. destruct (Z.eqb_spec (pa mod PGSIZE) 0); done.
Qed.
End kalloc.

(** A machine with two free pages, booted, and with one page handed out. *)
Definition two_pages_kend : Z := PHYSTOP - 2 * PGSIZE.
Definition two_pages_boot : kst := run_state (mkKst ∅ 0) (kinit two_pages_kend (mkKst ∅ 0)).

Lemma kalloc_partition_witness :
  exists s1 l, krep two_pages_kend s1 l /\
    [PHYSTOP - PGSIZE] ++ l ≡ₚ all_pages two_pages_kend.
Proof.
  destruct (kalloc_partition two_pages_kend ltac:(done) ltac:(done)
              (mkKst ∅ 0) two_pages_boot (run_state (mkKst ∅ 0) (kalloc two_pages_boot))
              [PHYSTOP - PGSIZE]) as (l & H1 & H2 & _).
  - reflexivity.
  - apply (run_state_ok (fun _ => true)); [by intros []|vm_compute; reflexivity].
  - apply rtc_once, kstep_alloc; [|discriminate].
    apply (run_state_ok (Z.eqb (PHYSTOP - PGSIZE))); [|vm_compute; reflexivity].
    intros b Hb. symmetry. by apply Z.eqb_eq.
  - exists (run_state (mkKst ∅ 0) (kalloc two_pages_boot)), l. split; [exact H1|exact H2].
Defined.
