(* ===== verification/Vm.v ===== *)
(** * Virtual memory ([kernel/vm.c])

    Sv39 page tables in physical memory: [walk], [mappages], the user memory
    operations built on them, and the copies between kernel and user space.
    Page-table pages come from the allocator of [Kalloc]; a page-table entry is
    the 64-bit word in memory, and a pointer to an entry is its address. *)

From S2P Require Import Prelude Mem Kalloc.

(** ** Macros of [kernel/riscv.h] *)

Definition PTE_V : Z := 1.
Definition PTE_R : Z := 2.
Definition PTE_W : Z := 4.
Definition PTE_X : Z := 8.
Definition PTE_U : Z := 16.
Definition PA2PTE (pa : Z) : Z := u64 (Z.shiftl (Z.shiftr pa 12) 10).
Definition PTE2PA (pte : Z) : Z := u64 (Z.shiftl (Z.shiftr pte 10) 12).
Definition PTE_FLAGS (pte : Z) : Z := Z.land pte 0x3FF.
Definition PX (level va : Z) : Z := Z.land (Z.shiftr va (12 + 9 * level)) 0x1FF.
Definition MAXVA : Z := 2 ^ 38.
Definition TRAMPOLINE : Z := MAXVA - PGSIZE.
Definition TRAPFRAME : Z := TRAMPOLINE - PGSIZE.
Definition KSTACK (p : Z) : Z := TRAMPOLINE - (p + 1) * 2 * PGSIZE.

#[global] Arguments PX : simpl never.
#[global] Arguments PA2PTE : simpl never.
#[global] Arguments PTE2PA : simpl never.
#[global] Arguments PTE_FLAGS : simpl never.

(** A C condition: non-zero is true. *)
Definition istrue (z : Z) : bool := negb (z =? 0).

Section vm.
Variable kend : Z.

(** ** Page-table walk *)

(** One level of the walk: the next page-table page, [None] when it is missing
    and not (or cannot be) allocated. *)
Definition walk_level (pagetable va : Z) (alloc : bool) (level : Z) : M kst (option Z) :=
  let pte := pagetable + 8 * PX level va in
  v <- gets (fun s => load64 (kmem s) pte);;
  if istrue (Z.land v PTE_V) then ret (Some (PTE2PA v))
  else if negb alloc then ret None
  else
    p <- kalloc;;
    if p =? 0 then ret None
    else
      modify (set_mem (fun m => mem_set m p 0 PGSIZE));;;
      modify (set_mem (fun m => store64 m pte (Z.lor (PA2PTE p) PTE_V)));;;
      ret (Some p).

Definition walk (pagetable va : Z) (alloc : bool) : M kst Z :=
  if MAXVA <=? va then panic "walk"
  else
    t1 <- walk_level pagetable va alloc 2;;
    match t1 with
    | None => ret 0
    | Some t1 =>
        t0 <- walk_level t1 va alloc 1;;
        match t0 with
        | None => ret 0
        | Some t0 => ret (t0 + 8 * PX 0 va)
        end
    end.

Definition walkaddr (pagetable va : Z) : M kst Z :=
  if MAXVA <=? va then ret 0
  else
    pte <- walk pagetable va false;;
    if pte =? 0 then ret 0
    else
      v <- gets (fun s => load64 (kmem s) pte);;
      if Z.land v PTE_V =? 0 then ret 0
      else if Z.land v PTE_U =? 0 then ret 0
      else ret (PTE2PA v).

(** ** Mappings *)

Fixpoint mappages_loop (fuel : nat) (pagetable a last pa perm : Z) : M kst Z :=
  match fuel with
  | O => nofuel
  | S fuel =>
      pte <- walk pagetable a true;;
      if pte =? 0 then ret (-1)
      else
        v <- gets (fun s => load64 (kmem s) pte);;
        if istrue (Z.land v PTE_V) then panic "mappages: remap"
        else
          modify (set_mem (fun m =>
            store64 m pte (Z.lor (Z.lor (PA2PTE pa) perm) PTE_V)));;;
          if a =? last then ret 0
          else mappages_loop fuel pagetable (u64 (a + PGSIZE)) last (u64 (pa + PGSIZE)) perm
  end.

(** The loop ends at [last], or in the panic of [walk] at [MAXVA]. *)
Definition mappages (pagetable va size pa perm : Z) : M kst Z :=
  if size =? 0 then panic "mappages: size"
  else
    let a := PGROUNDDOWN va in
    let last := PGROUNDDOWN (u64 (va + size - 1)) in
    let stop := if a <=? last then last else MAXVA in
    mappages_loop (S (Z.to_nat ((stop - a) / PGSIZE))) pagetable a last pa perm.

Definition kvmmap (kpgtbl va pa sz perm : Z) : M kst unit :=
  r <- mappages kpgtbl va sz pa perm;;
  if istrue r then panic "kvmmap" else ret tt.

Definition uvmunmap_page (pagetable : Z) (do_free : bool) (a : Z) : M kst unit :=
  pte <- walk pagetable a false;;
  if pte =? 0 then panic "uvmunmap: walk"
  else
    v <- gets (fun s => load64 (kmem s) pte);;
    if Z.land v PTE_V =? 0 then panic "uvmunmap: not mapped"
    else if PTE_FLAGS v =? PTE_V then panic "uvmunmap: not a leaf"
    else
      (if do_free then kfree kend (PTE2PA v) else ret tt);;;
      modify (set_mem (fun m => store64 m pte 0)).

Definition uvmunmap (pagetable va npages : Z) (do_free : bool) : M kst unit :=
  if istrue (va mod PGSIZE) then panic "uvmunmap: not aligned"
  else
    let stop := u64 (va + npages * PGSIZE) in
    for_each (page_range va ((stop - va + PGSIZE - 1) / PGSIZE))
             (uvmunmap_page pagetable do_free).

(** ** User address spaces *)

Definition uvmcreate : M kst Z :=
  pagetable <- kalloc;;
  if pagetable =? 0 then ret 0
  else
    modify (set_mem (fun m => mem_set m pagetable 0 PGSIZE));;;
    ret pagetable.

Definition uvmfirst (pagetable : Z) (src : list byte) (sz : Z) : M kst unit :=
  if PGSIZE <=? sz then panic "uvmfirst: more than a page"
  else
    mem <- kalloc;;
    modify (set_mem (fun m => mem_set m mem 0 PGSIZE));;;
    _ <- mappages pagetable 0 PGSIZE mem (Z.lor (Z.lor (Z.lor PTE_W PTE_R) PTE_X) PTE_U);;
    modify (set_mem (fun m => mwrite m mem (take (Z.to_nat sz) src))).

Definition uvmdealloc (pagetable oldsz newsz : Z) : M kst Z :=
  if oldsz <=? newsz then ret oldsz
  else
    (if PGROUNDUP newsz <? PGROUNDUP oldsz
     then
       let npages := i32 ((PGROUNDUP oldsz - PGROUNDUP newsz) / PGSIZE) in
       uvmunmap pagetable (PGROUNDUP newsz) npages true
     else ret tt);;;
    ret newsz.

Fixpoint uvmalloc_loop (fuel : nat) (pagetable a oldsz newsz xperm : Z) : M kst Z :=
  if newsz <=? a then ret newsz
  else match fuel with
  | O => nofuel
  | S fuel =>
      mem <- kalloc;;
      if mem =? 0 then
        _ <- uvmdealloc pagetable a oldsz;; ret 0
      else
        modify (set_mem (fun m => mem_set m mem 0 PGSIZE));;;
        r <- mappages pagetable a PGSIZE mem (Z.lor (Z.lor PTE_R PTE_U) xperm);;
        if istrue r then
          kfree kend mem;;;
          _ <- uvmdealloc pagetable a oldsz;; ret 0
        else uvmalloc_loop fuel pagetable (u64 (a + PGSIZE)) oldsz newsz xperm
  end.

Definition uvmalloc (pagetable oldsz newsz xperm : Z) : M kst Z :=
  if newsz <? oldsz then ret oldsz
  else
    let oldsz := PGROUNDUP oldsz in
    uvmalloc_loop (Z.to_nat ((newsz - oldsz + PGSIZE - 1) / PGSIZE))
                  pagetable oldsz oldsz newsz xperm.

(** The recursion follows the page-table tree; [fuel] bounds its depth. *)
Fixpoint freewalk (fuel : nat) (pagetable : Z) : M kst unit :=
  match fuel with
  | O => nofuel
  | S fuel =>
      for_each (seq 0 512) (fun i =>
        let a := pagetable + 8 * Z.of_nat i in
        pte <- gets (fun s => load64 (kmem s) a);;
        if istrue (Z.land pte PTE_V)
           && (Z.land pte (Z.lor (Z.lor PTE_R PTE_W) PTE_X) =? 0) then
          freewalk fuel (PTE2PA pte);;;
          modify (set_mem (fun m => store64 m a 0))
        else if istrue (Z.land pte PTE_V) then panic "freewalk: leaf"
        else ret tt);;;
      kfree kend pagetable
  end.

Definition uvmfree (pagetable sz : Z) : M kst unit :=
  (if 0 <? sz then uvmunmap pagetable 0 (PGROUNDUP sz / PGSIZE) true else ret tt);;;
  freewalk 3 pagetable.

(** [Some i] is the jump to [err] at address [i]. *)
Fixpoint uvmcopy_loop (fuel : nat) (old new i sz : Z) : M kst (option Z) :=
  if sz <=? i then ret None
  else match fuel with
  | O => nofuel
  | S fuel =>
      pte <- walk old i false;;
      if pte =? 0 then panic "uvmcopy: pte should exist"
      else
        v <- gets (fun s => load64 (kmem s) pte);;
        if Z.land v PTE_V =? 0 then panic "uvmcopy: page not present"
        else
          let pa := PTE2PA v in
          let flags := PTE_FLAGS v in
          mem <- kalloc;;
          if mem =? 0 then ret (Some i)
          else
            modify (set_mem (fun m => mem_copy m mem pa PGSIZE));;;
            r <- mappages new i PGSIZE mem flags;;
            if istrue r then kfree kend mem;;; ret (Some i)
            else uvmcopy_loop fuel old new (i + PGSIZE) sz
  end.

Definition uvmcopy (old new sz : Z) : M kst Z :=
  r <- uvmcopy_loop (Z.to_nat ((sz + PGSIZE - 1) / PGSIZE)) old new 0 sz;;
  match r with
  | None => ret 0
  | Some i => uvmunmap new 0 (i / PGSIZE) true;;; ret (-1)
  end.

Definition uvmclear (pagetable va : Z) : M kst unit :=
  pte <- walk pagetable va false;;
  if pte =? 0 then panic "uvmclear"
  else modify (set_mem (fun m => store64 m pte (Z.land (load64 m pte) (Z.lnot PTE_U)))).

(** ** Copies between kernel and user memory

    The kernel buffer is a byte list; the user range is copied page by page. *)

Fixpoint copyout_loop (fuel : nat) (pagetable dstva : Z) (src : list byte) : M kst Z :=
  match src with
  | [] => ret 0
  | _ =>
    match fuel with
    | O => nofuel
    | S fuel =>
        let len := Z.of_nat (length src) in
        let va0 := PGROUNDDOWN dstva in
        pa0 <- walkaddr pagetable va0;;
        if pa0 =? 0 then ret (-1)
        else
          let n := PGSIZE - (dstva - va0) in
          let n := if len <? n then len else n in
          modify (set_mem (fun m => mwrite m (pa0 + (dstva - va0)) (take (Z.to_nat n) src)));;;
          copyout_loop fuel pagetable (u64 (va0 + PGSIZE)) (drop (Z.to_nat n) src)
    end
  end.
Definition copyout (pagetable dstva : Z) (src : list byte) : M kst Z :=
  copyout_loop (length src) pagetable dstva src.

(** [None] is the return value -1; the bytes are those stored in [dst]. *)
Fixpoint copyin_loop (fuel : nat) (pagetable srcva len : Z) : M kst (option (list byte)) :=
  if len <=? 0 then ret (Some [])
  else match fuel with
  | O => nofuel
  | S fuel =>
      let va0 := PGROUNDDOWN srcva in
      pa0 <- walkaddr pagetable va0;;
      if pa0 =? 0 then ret None
      else
        let n := PGSIZE - (srcva - va0) in
        let n := if len <? n then len else n in
        bs <- gets (fun s => mread (kmem s) (pa0 + (srcva - va0)) (Z.to_nat n));;
        r <- copyin_loop fuel pagetable (u64 (va0 + PGSIZE)) (len - n);;
        ret (app bs <$> r)
  end.
Definition copyin (pagetable srcva len : Z) : M kst (option (list byte)) :=
  copyin_loop (Z.to_nat len) pagetable srcva len.

(** The inner loop of [copyinstr] over the [n] bytes of one page: the bytes
    stored in [dst], and whether the NUL was among them. *)
Fixpoint copy_until_nul (bs : list byte) : list byte * bool :=
  match bs with
  | [] => ([], false)
  | b :: bs =>
      if bool_decide (b = x00) then ([x00], true)
      else let r := copy_until_nul bs in (b :: r.1, r.2)
  end.

Fixpoint copyinstr_loop (fuel : nat) (pagetable srcva max : Z) : M kst (option (list byte)) :=
  if max <=? 0 then ret None
  else match fuel with
  | O => nofuel
  | S fuel =>
      let va0 := PGROUNDDOWN srcva in
      pa0 <- walkaddr pagetable va0;;
      if pa0 =? 0 then ret None
      else
        let n := PGSIZE - (srcva - va0) in
        let n := if max <? n then max else n in
        bs <- gets (fun s => mread (kmem s) (pa0 + (srcva - va0)) (Z.to_nat n));;
        let r := copy_until_nul bs in
        if r.2 then ret (Some r.1)
        else
          k <- copyinstr_loop fuel pagetable (u64 (va0 + PGSIZE)) (max - n);;
          ret (app r.1 <$> k)
  end.
Definition copyinstr (pagetable srcva max : Z) : M kst (option (list byte)) :=
  copyinstr_loop (Z.to_nat max) pagetable srcva max.
End vm.

(** ** Arithmetic of page-table entries *)

Lemma land_high_low k f : 0 <= f < 1024 -> Z.land (k * 1024) f = 0.
Proof.
  intros Hf. rewrite <- (Z.mod_small f 1024) by done. change 1024 with (2 ^ 10).
  rewrite <- (Z.land_ones f) by lia.
  rewrite Z.land_assoc, (Z.land_comm _ f), <- Z.land_assoc, Z.land_ones by lia.
  rewrite Z.mod_mul by lia. apply Z.land_0_r.
Qed.

Lemma lor_flags k f : 0 <= f < 1024 -> Z.lor (k * 1024) f = k * 1024 + f.
Proof. intros. symmetry. apply Z.add_nocarry_lor. by apply land_high_low. Qed.

Lemma land_flags k f c :
  0 <= f < 1024 -> 0 <= c < 1024 -> Z.land (k * 1024 + f) c = Z.land f c.
Proof.
  intros. rewrite <- lor_flags by done. rewrite Z.land_lor_distr_l, land_high_low by done.
  done.
Qed.

Lemma lor_bound a b : 0 <= a < 1024 -> 0 <= b < 1024 -> 0 <= Z.lor a b < 1024.
Proof.
  intros. split; [apply Z.lor_nonneg; lia|].
  destruct (decide (Z.lor a b = 0)) as [->|Hn]; [lia|].
  assert (0 <= Z.lor a b) by (apply Z.lor_nonneg; lia).
  change 1024 with (2 ^ 10). apply Z.log2_lt_pow2; [lia|].
  rewrite Z.log2_lor by lia. apply Z.max_lub_lt; 
    (destruct (Z.eq_dec a 0), (Z.eq_dec b 0); subst; simpl; try lia;
     apply Z.log2_lt_pow2; lia).
Qed.

(** The entry that maps page [pa] with flags [f]. *)
Definition mkpte (pa f : Z) : Z := pa / 4096 * 1024 + f.

Lemma PA2PTE_eq pa : 0 <= pa < 2 ^ 64 -> PA2PTE pa = pa / 4096 * 1024.
Proof.
  intros. unfold PA2PTE. rewrite Z.shiftr_div_pow2, Z.shiftl_mul_pow2 by lia.
  change (2 ^ 12) with 4096. change (2 ^ 10) with 1024. apply u64_small. dlia.
Qed.

Lemma PA2PTE_lor pa f :
  0 <= pa < 2 ^ 64 -> 0 <= f < 1024 -> Z.lor (PA2PTE pa) f = mkpte pa f.
Proof. intros. rewrite PA2PTE_eq by done. by apply lor_flags. Qed.

Lemma mkpte_range pa f : 0 <= pa < 2 ^ 64 -> 0 <= f < 1024 -> 0 <= mkpte pa f < 2 ^ 64.
Proof. intros. unfold mkpte. dlia. Qed.

Lemma PTE2PA_mkpte pa f :
  pa mod PGSIZE = 0 -> 0 <= pa < 2 ^ 56 -> 0 <= f < 1024 -> PTE2PA (mkpte pa f) = pa.
Proof.
  unfold PGSIZE. intros. unfold PTE2PA, mkpte.
  rewrite Z.shiftr_div_pow2, Z.shiftl_mul_pow2 by lia.
  change (2 ^ 12) with 4096. change (2 ^ 10) with 1024.
  replace ((pa / 4096 * 1024 + f) / 1024 * 4096) with pa by dlia.
  apply u64_small. lia.
Qed.

Lemma land_mkpte pa f c :
  0 <= f < 1024 -> 0 <= c < 1024 -> Z.land (mkpte pa f) c = Z.land f c.
Proof. apply land_flags. Qed.

Lemma PTE_FLAGS_mkpte pa f : 0 <= f < 1024 -> PTE_FLAGS (mkpte pa f) = f.
Proof.
  intros. unfold PTE_FLAGS. rewrite land_mkpte by lia.
  change 0x3FF with (Z.ones 10). rewrite Z.land_ones by lia. by apply Z.mod_small.
Qed.

Lemma PX_eq level va : 0 <= level -> PX level va = va / 2 ^ (12 + 9 * level) mod 512.
Proof.
  intros. unfold PX. rewrite Z.shiftr_div_pow2 by lia.
  change 0x1FF with (Z.ones 9). by rewrite Z.land_ones by lia.
Qed.

Lemma PX_range level va : 0 <= level -> 0 <= PX level va < 512.
Proof. intros. rewrite PX_eq by done. apply Z.mod_pos_bound. lia. Qed.

(** The three indices of a virtual address determine its page. *)
Lemma PX_page va va' :
  0 <= va < MAXVA -> 0 <= va' < MAXVA ->
  (PX 2 va = PX 2 va' /\ PX 1 va = PX 1 va' /\ PX 0 va = PX 0 va')
  <-> va / PGSIZE = va' / PGSIZE.
Proof.
  unfold MAXVA, PGSIZE. intros. rewrite !PX_eq by lia. simpl (12 + _).
  change (2 ^ (12 + 9 * 2)) with (4096 * 512 * 512).
  change (2 ^ (12 + 9 * 1)) with (4096 * 512). change (2 ^ (12 + 9 * 0)) with 4096.
  rewrite <- !Z.div_div by lia. set (q := va / 4096). set (q' := va' / 4096).
  assert (0 <= q < 2 ^ 26) by (unfold q; dlia).
  assert (0 <= q' < 2 ^ 26) by (unfold q'; dlia).
  split; [|intros ->; done]. intros (?&?&?). clearbody q q'. dlia.
Qed.
#[global] Opaque PX.

(** ** Page-table trees

    The ghost description of a page table: which page holds the root, the
    level-1 tables (by level-2 index) and the level-0 tables (by the level-2 and
    level-1 indices). *)

Record ptree := mkPtree { pt_root : Z; pt_l1 : gmap Z Z; pt_l0 : gmap (Z * Z) Z }.

Inductive role := Root | L1 (i : Z) | L0 (i j : Z).
#[global] Instance role_eq_dec : EqDecision role.
Proof. solve_decision. Defined.

Definition tbl (t : ptree) (r : role) : option Z :=
  match r with
  | Root => Some (pt_root t)
  | L1 i => pt_l1 t !! i
  | L0 i j => pt_l0 t !! (i, j)
  end.

(** Entry [k] of a table that should point to [child]. *)
Definition points_to (m : pmem) (table k : Z) (child : option Z) : Prop :=
  match child with
  | Some p => load64 m (table + 8 * k) = mkpte p PTE_V
  | None => Z.land (load64 m (table + 8 * k)) PTE_V = 0
  end.

Record pt_tables (m : pmem) (t : ptree) : Prop := {
  tb_root : forall i, 0 <= i < 512 -> points_to m (pt_root t) i (pt_l1 t !! i);
  tb_l1 : forall i p j, pt_l1 t !! i = Some p -> 0 <= j < 512 ->
            points_to m p j (pt_l0 t !! (i, j));
  tb_up : forall i j q, pt_l0 t !! (i, j) = Some q -> is_Some (pt_l1 t !! i)
}.

(** A page that the tree or the free list [l] accounts for. *)
Definition covers (t : ptree) (l : list Z) (b : Z) : Prop :=
  b ∈ l \/ exists r, tbl t r = Some b.

(** The bytes of pages that neither the tree nor the free list accounts for. *)
Definition frame (t : ptree) (l : list Z) (m m' : pmem) : Prop :=
  forall b x, ~ covers t l b -> b mod PGSIZE = 0 -> b <= x < b + PGSIZE ->
    mget m' x = mget m x.

Section tree.
Variable kend : Z.
Hypothesis kend_pos : 0 < kend.

Record vm_inv (s : kst) (t : ptree) (l : list Z) : Prop := {
  vi_free : krep kend s l;
  vi_tables : pt_tables (kmem s) t;
  vi_pages : forall r p, tbl t r = Some p -> kpage kend p /\ p ∉ l;
  vi_inj : forall r r' p, tbl t r = Some p -> tbl t r' = Some p -> r = r'
}.

Lemma kpage_range p : kpage kend p -> 0 < p /\ p + PGSIZE <= 2 ^ 56 /\ p mod PGSIZE = 0.
Proof. unfold kpage, PHYSTOP, KERNBASE, PGSIZE. lia. Qed.

Lemma vi_aligned s t l r p : vm_inv s t l -> tbl t r = Some p -> p mod PGSIZE = 0.
Proof. intros Hv Hp. by destruct (vi_pages _ _ _ Hv _ _ Hp) as [[? _] _]. Qed.

(** Loads of entries of tables that keep their bytes. *)
Lemma load_same_outside p m m' q k :
  same_outside p m m' -> p mod PGSIZE = 0 -> q mod PGSIZE = 0 -> p <> q -> 0 <= k < 512 ->
  load64 m' (q + 8 * k) = load64 m (q + 8 * k).
Proof.
  intros Hs Hp Hq Hn Hk. apply load64_ext. intros x Hx. apply Hs.
  destruct (kpage_disjoint p q); unfold PGSIZE in *; [done..| |]; lia.
Qed.

Lemma pt_tables_ext m m' t :
  pt_tables m t ->
  (forall r p k, tbl t r = Some p -> (forall i j, r <> L0 i j) -> 0 <= k < 512 ->
     load64 m' (p + 8 * k) = load64 m (p + 8 * k)) ->
  pt_tables m' t.
Proof.
  intros [H1 H2 H3] He. split; [..|done].
  - intros i Hi. specialize (H1 i Hi). unfold points_to in *.
    by rewrite (He Root).
  - intros i p j Hp Hj. specialize (H2 i p j Hp Hj). unfold points_to in *.
    by rewrite (He (L1 i)).
Qed.

(** Changing the bytes of one page that is free or unaccounted for. *)
Lemma vm_inv_same_outside s s' t l l' p :
  vm_inv s t l -> krep kend s' l' -> (forall b, b ∈ l' -> b ∈ l \/ b = p) -> p mod PGSIZE = 0 ->
  (forall r, tbl t r <> Some p) -> same_outside p (kmem s) (kmem s') ->
  vm_inv s' t l'.
Proof.
  intros Hv Hk Hl Hp Hn Hs. split; [done| | |apply Hv].
  - eapply pt_tables_ext; [apply Hv|]. intros r q k Hq _ Hk'.
    eapply load_same_outside; [done|done|by eapply vi_aligned| |done].
    intros ->. by apply (Hn r).
  - intros r q Hq. destruct (vi_pages _ _ _ Hv _ _ Hq) as [? Hnl]. split; [done|].
    intros Hin. destruct (Hl q Hin) as [|Heq]; [done|]. apply (Hn r). congruence.
Qed.

Lemma frame_refl t l m : frame t l m m.
Proof. done. Qed.

Lemma frame_trans t l t' l' m m' m'' :
  frame t l m m' -> frame t' l' m' m'' -> (forall b, covers t' l' b -> covers t l b) ->
  frame t l m m''.
Proof.
  intros H1 H2 Hc b x Hb Ha Hx. rewrite (H2 b x); [by apply (H1 b)|intros Hb2; by apply Hb, Hc|done..].
Qed.

Lemma frame_same_outside t l p m m' :
  covers t l p -> p mod PGSIZE = 0 -> same_outside p m m' -> frame t l m m'.
Proof.
  intros Hp Ha Hs b x Hb Hba Hx. apply Hs.
  destruct (kpage_disjoint p b); [done..|by intros ->| |]; unfold PGSIZE in *; lia.
Qed.

(** *** Taking a page off the free list *)
Lemma vm_kalloc s t p l :
  vm_inv s t (p :: l) ->
  exists s', kalloc s = Ok p s' /\ vm_inv s' t l /\ same_outside p (kmem s) (kmem s') /\
    kpage kend p /\ (p ∉ l) /\ (forall r, tbl t r <> Some p).
Proof.
  intros Hv. destruct (kalloc_cons kend s p l) as (s' & Ha & Hk & Hs); [apply Hv|].
  pose proof (vi_free _ _ _ Hv) as (_ & Hnd & Hkp).
  apply NoDup_cons in Hnd as [Hn _]. apply Forall_cons in Hkp as [Hp _].
  assert (Ht : forall r, tbl t r <> Some p).
  { intros r Hr. destruct (vi_pages _ _ _ Hv _ _ Hr) as [_ H]. set_solver. }
  exists s'. split_and!; try done.
  eapply (vm_inv_same_outside s s' t (p :: l) l p); [done..| | |done|done].
  { intros b Hb. left. by apply elem_of_cons; right. }
  apply Hp.
Qed.

(** *** Writing a page outside the free list and the tree *)
Lemma vm_write_page s t l p m' :
  vm_inv s t l -> kpage kend p -> p ∉ l -> (forall r, tbl t r <> Some p) ->
  same_outside p (kmem s) m' -> vm_inv (mkKst m' (freelist s)) t l.
Proof.
  intros Hv Hp Hl Ht Hs. eapply vm_inv_same_outside; [done| |by left|apply Hp|done|done].
  destruct (vi_free _ _ _ Hv) as (Hc & Hnd & Hk). split_and!; [|done..].
  simpl. by eapply kpage_set_mem_chain.
Qed.

(** *** Writing an entry of a table *)
Lemma vm_write_entry_free s t l r p k v :
  vm_inv s t l -> tbl t r = Some p -> 0 <= k < 512 ->
  krep kend (set_mem (fun m => store64 m (p + 8 * k) v) s) l /\
  same_outside p (kmem s) (store64 (kmem s) (p + 8 * k) v).
Proof.
  intros Hv Hr Hk. destruct (vi_pages _ _ _ Hv _ _ Hr) as [Hp Hl].
  assert (Hs : same_outside p (kmem s) (store64 (kmem s) (p + 8 * k) v)).
  { intros x Hx. apply mget_store64_out. unfold PGSIZE in *. lia. }
  split; [|done]. destruct (vi_free _ _ _ Hv) as (Hc & Hnd & Hkp).
  split_and!; [|done..]. by eapply kpage_set_mem_chain.
Qed.

(** The value of every entry of every table after one entry was written. *)
Lemma load_store_entry s t l r p k v r' p' k' :
  vm_inv s t l -> tbl t r = Some p -> tbl t r' = Some p' ->
  0 <= k < 512 -> 0 <= k' < 512 -> 0 <= v < 2 ^ 64 ->
  (r = r' /\ k = k' /\ load64 (store64 (kmem s) (p + 8 * k) v) (p' + 8 * k') = v) \/
  ((r <> r' \/ k <> k') /\
   load64 (store64 (kmem s) (p + 8 * k) v) (p' + 8 * k') = load64 (kmem s) (p' + 8 * k')).
Proof.
  intros Hv Hr Hr' Hk Hk' Hvr.
  destruct (decide (p = p')) as [<-|Hn].
  - pose proof (vi_inj _ _ _ Hv _ _ _ Hr Hr') as <-.
    destruct (decide (k = k')) as [<-|Hnk].
    + left. split_and!; [done..|]. by apply load_store64_same.
    + right. split; [by right|]. apply load_store64_other. lia.
  - right. split; [left; intros <-; congruence|].
    destruct (kpage_disjoint p p') as [?|?];
      [by eapply vi_aligned|by eapply vi_aligned|done| |];
      apply load_store64_other; unfold PGSIZE in *; lia.
Qed.

(** *** The entry of a virtual address *)

Definition pte_of (m : pmem) (t : ptree) (va : Z) : Z :=
  match tbl t (L0 (PX 2 va) (PX 1 va)) with
  | Some p => load64 m (p + 8 * PX 0 va)
  | None => 0
  end.

Lemma pte_of_ext m m' t t' va :
  tbl t' (L0 (PX 2 va) (PX 1 va)) = tbl t (L0 (PX 2 va) (PX 1 va)) ->
  (forall p, tbl t (L0 (PX 2 va) (PX 1 va)) = Some p ->
     load64 m' (p + 8 * PX 0 va) = load64 m (p + 8 * PX 0 va)) ->
  pte_of m' t' va = pte_of m t va.
Proof. intros Ht Hm. unfold pte_of. rewrite Ht. by case_match; [apply Hm|]. Qed.

Lemma istrue_V v : istrue (Z.land v PTE_V) = false <-> Z.land v PTE_V = 0.
Proof. unfold istrue. rewrite negb_false_iff. apply Z.eqb_eq. Qed.

Lemma points_to_some m tb k p :
  kpage kend p -> points_to m tb k (Some p) ->
  istrue (Z.land (load64 m (tb + 8 * k)) PTE_V) = true /\
  PTE2PA (load64 m (tb + 8 * k)) = p.
Proof.
  intros (?&?&?)%kpage_range. simpl. intros ->. unfold PTE_V, PGSIZE in *.
  rewrite land_mkpte by lia. split; [done|]. apply PTE2PA_mkpte; unfold PGSIZE; done || lia.
Qed.

Lemma walk_level_present tb va alloc level p s :
  points_to (kmem s) tb (PX level va) (Some p) -> kpage kend p ->
  walk_level tb va alloc level s = Ok (Some p) s.
Proof.
  intros Hp Hk. destruct (points_to_some _ _ _ _ Hk Hp) as [H1 H2].
  unfold walk_level, bind, gets. by rewrite H1, H2.
Qed.

Lemma walk_level_absent tb va level s :
  points_to (kmem s) tb (PX level va) None ->
  walk_level tb va false level s = Ok None s.
Proof.
  intros Hp%istrue_V. unfold walk_level, bind, gets. by rewrite Hp.
Qed.

(** [walk] without allocation finds the entry and changes nothing. *)
Lemma walk_lookup s t l va :
  vm_inv s t l -> 0 <= va < MAXVA ->
  walk (pt_root t) va false s =
    Ok (match tbl t (L0 (PX 2 va) (PX 1 va)) with
        | Some p => p + 8 * PX 0 va
        | None => 0
        end) s.
Proof.
  intros Hv Hva. unfold walk. destruct (Z.leb_spec MAXVA va); [lia|].
  pose proof (tb_root _ _ (vi_tables _ _ _ Hv) (PX 2 va) (PX_range 2 va ltac:(lia))) as H1.
  simpl. destruct (pt_l1 t !! PX 2 va) as [p1|] eqn:E1.
  - pose proof (tb_l1 _ _ (vi_tables _ _ _ Hv) _ _ (PX 1 va) E1 (PX_range 1 va ltac:(lia))) as H2.
    unfold bind. rewrite (walk_level_present _ _ _ _ p1) by
      (done || by destruct (vi_pages _ _ _ Hv (L1 (PX 2 va)) p1 E1)).
    destruct (pt_l0 t !! (PX 2 va, PX 1 va)) as [p0|] eqn:E0.
    + by rewrite (walk_level_present _ _ _ _ p0) by
        (done || by destruct (vi_pages _ _ _ Hv (L0 (PX 2 va) (PX 1 va)) p0 E0)).
    + by rewrite walk_level_absent.
  - unfold bind. rewrite walk_level_absent by done.
    destruct (pt_l0 t !! (PX 2 va, PX 1 va)) as [p0|] eqn:E0; [|done].
    destruct (tb_up _ _ (vi_tables _ _ _ Hv) _ _ _ E0). congruence.
Qed.

Lemma walk_present s t l va alloc p0 :
  vm_inv s t l -> 0 <= va < MAXVA -> tbl t (L0 (PX 2 va) (PX 1 va)) = Some p0 ->
  walk (pt_root t) va alloc s = Ok (p0 + 8 * PX 0 va) s.
Proof.
  intros Hv Hva E0. unfold walk. destruct (Z.leb_spec MAXVA va); [lia|].
  pose proof (tb_root _ _ (vi_tables _ _ _ Hv) (PX 2 va) (PX_range 2 va ltac:(lia))) as H1.
  cbn [tbl] in E0. destruct (tb_up _ _ (vi_tables _ _ _ Hv) _ _ _ E0) as [p1 E1].
  pose proof (tb_l1 _ _ (vi_tables _ _ _ Hv) _ _ (PX 1 va) E1 (PX_range 1 va ltac:(lia))) as H2.
  rewrite E1 in H1. rewrite E0 in H2. unfold bind.
  rewrite (walk_level_present _ _ _ _ p1) by
    (done || by destruct (vi_pages _ _ _ Hv (L1 (PX 2 va)) p1 E1)).
  by rewrite (walk_level_present _ _ _ _ p0) by
    (done || by destruct (vi_pages _ _ _ Hv (L0 (PX 2 va) (PX 1 va)) p0 E0)).
Qed.

(** *** Growing the tree *)

Definition add_l1 (t : ptree) (i p : Z) : ptree :=
  mkPtree (pt_root t) (<[i:=p]> (pt_l1 t)) (pt_l0 t).
Definition add_l0 (t : ptree) (i j p : Z) : ptree :=
  mkPtree (pt_root t) (pt_l1 t) (<[(i, j):=p]> (pt_l0 t)).

Definition zero_page (m : pmem) (p : Z) : Prop :=
  forall k, 0 <= k < 512 -> load64 m (p + 8 * k) = 0.

(** Adding table [p] under role [r] to the accounting. *)
Lemma vm_pages_add s t t' l r p :
  vm_inv s t l -> kpage kend p -> p ∉ l -> (forall r', tbl t r' <> Some p) ->
  (forall r' q, tbl t' r' = Some q -> (r' = r /\ q = p) \/ tbl t r' = Some q) ->
  (forall r' q, tbl t' r' = Some q -> kpage kend q /\ q ∉ l) /\
  (forall r1 r2 q, tbl t' r1 = Some q -> tbl t' r2 = Some q -> r1 = r2).
Proof.
  intros Hv Hp Hl Ht Hr. split.
  - intros r' q [[-> ->]|Hq]%Hr; [done|]. by apply (vi_pages _ _ _ Hv r').
  - intros r1 r2 q [[-> ->]|H1]%Hr [[-> E]|H2]%Hr; subst; try done.
    + by destruct (Ht r2).
    + by destruct (Ht r1).
    + by eapply vi_inj.
Qed.

Lemma tbl_add_l1 t i p r q :
  tbl (add_l1 t i p) r = Some q -> (r = L1 i /\ q = p) \/ tbl t r = Some q.
Proof.
  destruct r as [|i'|i' j']; simpl; try tauto.
  rewrite lookup_insert_Some. intros [[<- <-]|[_ H]]; auto.
Qed.

Lemma tbl_add_l0 t i j p r q :
  tbl (add_l0 t i j p) r = Some q -> (r = L0 i j /\ q = p) \/ tbl t r = Some q.
Proof.
  destruct r as [|i'|i' j']; simpl; try tauto.
  rewrite lookup_insert_Some. intros [[[= <- <-] <-]|[_ H]]; auto.
Qed.

Lemma mkpte_V_range p : kpage kend p -> 0 <= mkpte p PTE_V < 2 ^ 64.
Proof.
  intros (?&?&?)%kpage_range. apply mkpte_range; unfold PTE_V, PGSIZE in *; lia.
Qed.

Lemma vm_add_l1 s t l i p :
  vm_inv s t l -> 0 <= i < 512 -> pt_l1 t !! i = None ->
  kpage kend p -> p ∉ l -> (forall r, tbl t r <> Some p) -> zero_page (kmem s) p ->
  vm_inv (set_mem (fun m => store64 m (pt_root t + 8 * i) (mkpte p PTE_V)) s) (add_l1 t i p) l.
Proof.
  intros Hv Hi Hn Hp Hl Ht Hz.
  destruct (vm_pages_add s t (add_l1 t i p) l (L1 i) p) as [Hpg Hinj];
    [done..|apply tbl_add_l1|].
  destruct (vm_write_entry_free s t l Root (pt_root t) i (mkpte p PTE_V)) as [Hk Hs]; [done..|].
  split; [done| |done|done]. simpl.
  assert (Hup : forall j, pt_l0 t !! (i, j) = None).
  { intros j. destruct (pt_l0 t !! (i, j)) eqn:E; [|done].
    destruct (tb_up _ _ (vi_tables _ _ _ Hv) _ _ _ E). congruence. }
  split; simpl.
  - intros k Hk'. rewrite lookup_insert.
    destruct (load_store_entry s t l Root (pt_root t) i (mkpte p PTE_V) Root (pt_root t) k)
      as [(_ & <- & E)|(Hne & E)]; [done..|by apply mkpte_V_range| |].
    + rewrite decide_True by done. exact E.
    + rewrite decide_False by (destruct Hne; done). unfold points_to. rewrite E.
      by apply (tb_root _ _ (vi_tables _ _ _ Hv)).
  - intros i' q j Hq Hj. apply lookup_insert_Some in Hq as [[<- <-]|[Hne Hq]].
    + rewrite Hup. simpl. rewrite (load_same_outside (pt_root t) (kmem s));
        [by rewrite Hz|done| |by apply Hp|intros <-; by destruct (Ht Root)|done].
      by apply (vi_aligned s t l Root).
    + pose proof (tb_l1 _ _ (vi_tables _ _ _ Hv) _ _ j Hq Hj) as H.
      unfold points_to in *. rewrite (load_same_outside (pt_root t) (kmem s)); [done|done| | | |done].
      * by apply (vi_aligned s t l Root).
      * by apply (vi_aligned s t l (L1 i')).
      * intros <-. by pose proof (vi_inj _ _ _ Hv Root (L1 i') _ eq_refl Hq).
  - intros i' j q Hq. destruct (tb_up _ _ (vi_tables _ _ _ Hv) _ _ _ Hq) as [q' Hq'].
    rewrite lookup_insert. case_decide; by eexists.
Qed.

Lemma vm_add_l0 s t l i j p1 p :
  vm_inv s t l -> pt_l1 t !! i = Some p1 -> 0 <= j < 512 -> pt_l0 t !! (i, j) = None ->
  kpage kend p -> p ∉ l -> (forall r, tbl t r <> Some p) ->
  vm_inv (set_mem (fun m => store64 m (p1 + 8 * j) (mkpte p PTE_V)) s) (add_l0 t i j p) l.
Proof.
  intros Hv Hi Hj Hn Hp Hl Ht.
  destruct (vm_pages_add s t (add_l0 t i j p) l (L0 i j) p) as [Hpg Hinj];
    [done..|apply tbl_add_l0|].
  destruct (vm_write_entry_free s t l (L1 i) p1 j (mkpte p PTE_V)) as [Hk Hs]; [done..|].
  split; [done| |done|done]. simpl. split; simpl.
  - intros k Hk'.
    destruct (load_store_entry s t l (L1 i) p1 j (mkpte p PTE_V) Root (pt_root t) k)
      as [(? & _)|(_ & E)]; [done..|by apply mkpte_V_range|done|].
    unfold points_to. rewrite E. by apply (tb_root _ _ (vi_tables _ _ _ Hv)).
  - intros i' q k Hq Hk'.
    destruct (load_store_entry s t l (L1 i) p1 j (mkpte p PTE_V) (L1 i') q k)
      as [([= <-] & <- & E)|(Hne & E)]; [done..|by apply mkpte_V_range| |].
    + rewrite lookup_insert_eq. exact E.
    + rewrite lookup_insert_ne by (intros [= <- <-]; destruct Hne; done).
      unfold points_to. rewrite E. by apply (tb_l1 _ _ (vi_tables _ _ _ Hv) i').
  - intros i' k q. rewrite lookup_insert_Some. intros [[[= <- <-] _]|[_ Hq]]; [by eexists|].
    by apply (tb_up _ _ (vi_tables _ _ _ Hv) i' k q).
Qed.

(** Allocating and clearing a page. *)
Lemma vm_alloc_zeroed s t p l :
  vm_inv s t (p :: l) ->
  exists s1, kalloc s = Ok p s1 /\ p <> 0 /\
    let s2 := set_mem (fun m => mem_set m p 0 PGSIZE) s1 in
    vm_inv s2 t l /\ zero_page (kmem s2) p /\ same_outside p (kmem s) (kmem s2) /\
    kpage kend p /\ (p ∉ l) /\ (forall r, tbl t r <> Some p).
Proof.
  intros Hv. destruct (vm_kalloc s t p l Hv) as (s1 & Ha & Hv1 & Hs1 & Hp & Hl & Ht).
  exists s1. split; [done|]. split; [destruct Hp; lia|].
  assert (Hs2 : same_outside p (kmem s1) (mem_set (kmem s1) p 0 PGSIZE)).
  { intros x Hx. apply mget_set_out; [done|lia]. }
  split_and!; try done.
  - by eapply vm_write_page.
  - intros k Hk. apply load_set64_zero; unfold PGSIZE; lia.
  - intros x Hx. simpl. rewrite Hs2 by done. by apply Hs1.
Qed.

(** *** What [walk] with allocation preserves *)

Record grows (s : kst) (t : ptree) (l : list Z) (s' : kst) (t' : ptree) (l' : list Z) : Prop := {
  gr_inv : vm_inv s' t' l';
  gr_root : pt_root t' = pt_root t;
  gr_covers : forall b, covers t' l' b <-> covers t l b;
  gr_frame : frame t l (kmem s) (kmem s');
  gr_ptes : forall va, pte_of (kmem s') t' va = pte_of (kmem s) t va;
  gr_mono : forall r p, tbl t r = Some p -> tbl t' r = Some p;
  gr_suffix : exists k, l = k ++ l'
}.

Lemma grows_refl s t l : vm_inv s t l -> grows s t l s t l.
Proof. intros. split; try done. by exists []. Qed.

Lemma grows_trans s t l s' t' l' s'' t'' l'' :
  grows s t l s' t' l' -> grows s' t' l' s'' t'' l'' -> grows s t l s'' t'' l''.
Proof.
  intros [I1 R1 C1 F1 P1 M1 [k1 S1]] [I2 R2 C2 F2 P2 M2 [k2 S2]]. split.
  - done.
  - congruence.
  - intros b. by rewrite C2.
  - eapply frame_trans; [done..|]. intros b. by rewrite C1.
  - intros va. by rewrite P2.
  - auto.
  - exists (k1 ++ k2). by rewrite <- app_assoc, <- S2.
Qed.

(** Hooking a freshly cleared page into the tree under a new role. *)
Lemma grows_hook s s2 t t' l p r q k v :
  vm_inv s t (p :: l) -> same_outside p (kmem s) (kmem s2) -> zero_page (kmem s2) p ->
  vm_inv s2 t l -> tbl t q = Some k -> (forall i j, q <> L0 i j) ->
  kpage kend p -> p ∉ l -> (forall r', tbl t r' <> Some p) ->
  pt_root t' = pt_root t ->
  (forall r' x, tbl t' r' = Some x -> (r' = r /\ x = p) \/ tbl t r' = Some x) ->
  tbl t r = None -> tbl t' r = Some p -> (forall r', r' <> r -> tbl t' r' = tbl t r') ->
  forall e, 0 <= e < 512 ->
  let s3 := set_mem (fun m => store64 m (k + 8 * e) v) s2 in
  vm_inv s3 t' l -> grows s t (p :: l) s3 t' l.
Proof.
  intros Hv Hs Hz Hv2 Hq Hq0 Hp Hl Ht Hroot Hadd Hr Hr' Hoth e He s3 Hv3.
  assert (Hk : same_outside k (kmem s2) (kmem s3)).
  { destruct (vm_write_entry_free s2 t l q k e v) as [_ H]; done. }
  assert (Hcov : forall b, covers t' l b <-> covers t (p :: l) b).
  { intros b. unfold covers. rewrite elem_of_cons. split.
    - intros [?|[r1 Hr1]]; [tauto|]. apply Hadd in Hr1 as [[-> ->]|Hr1]; eauto.
    - intros [[->|?]|[r1 Hr1]]; [eauto|tauto|]. right. exists r1. rewrite Hoth; [done|].
      intros ->. congruence. }
  assert (Hpl : forall x y e', tbl t x = Some y -> 0 <= e' < 512 ->
            (forall i j, q <> L0 i j) -> x <> q ->
            load64 (kmem s3) (y + 8 * e') = load64 (kmem s) (y + 8 * e')).
  { intros x y e' Hx He' _ Hxq.
    rewrite (load_same_outside k (kmem s2) _ y); [|done|by eapply (vi_aligned s2 t l)| | |done].
    - apply (load_same_outside p); [done|apply Hp|by eapply (vi_aligned s2 t l)| |done].
      intros <-. by apply (Ht x).
    - by eapply (vi_aligned s2 t l).
    - intros <-. apply Hxq. by eapply (vi_inj s2 t l). }
  split; [done|done|done| | | |by exists [p]].
  - eapply frame_trans; [eapply frame_same_outside; [|apply Hp|exact Hs]|
      eapply (frame_same_outside t (p :: l) k); [|by eapply (vi_aligned s2 t l)|exact Hk]|done].
    + left. apply elem_of_cons. by left.
    + right. by exists q.
  - intros va. unfold pte_of. destruct (decide (r = L0 (PX 2 va) (PX 1 va))) as [<-|Hn].
    + rewrite Hr', Hr. rewrite (load_same_outside k (kmem s2));
        [by rewrite Hz by (apply PX_range; lia)|done|by eapply (vi_aligned s2 t l)|apply Hp| |by apply PX_range].
      intros ->. by apply (Ht q).
    + rewrite Hoth by done. case_match; [|done]. eapply Hpl; [done|by apply PX_range|done|].
      intros E. by apply (Hq0 (PX 2 va) (PX 1 va)).
  - intros r' x Hx. rewrite Hoth; [done|]. intros ->. congruence.
Qed.
End tree.
