(* ===== verification/VmMap.v ===== *)
(** * Mapping and unmapping user pages

    The behaviour of [walk], [mappages] and [uvmunmap] of [kernel/vm.c] on
    well-formed page-table trees, and the refinement of the page table to a map
    from virtual pages to entries. *)

From S2P Require Import Prelude Mem Kalloc Vm.

Section walk.
Variable kend : Z.
Hypothesis kend_pos : 0 < kend.
Abbreviation vm_inv := (vm_inv kend).
Abbreviation grows := (grows kend).

(** The tables that [t'] has and [t] has not lead to addresses of [V]. *)
Definition adds (t t' : ptree) (V : Z -> Prop) : Prop :=
  forall r, is_Some (tbl t' r) ->
    is_Some (tbl t r) \/ exists va, V va /\ (r = L1 (PX 2 va) \/ r = L0 (PX 2 va) (PX 1 va)).

Lemma adds_refl t V : adds t t V.
Proof. intros r Hr. by left. Qed.

Lemma adds_trans t t' t'' (V V' W : Z -> Prop) :
  adds t t' V -> adds t' t'' V' -> (forall va, V va -> W va) -> (forall va, V' va -> W va) -> adds t t'' W.
Proof.
  intros H1 H2 HV HV' r Hr. destruct (H2 r Hr) as [Hr'|(va & Hva & E)]; [|right; eauto].
  destruct (H1 r Hr') as [?|(va & Hva & E)]; [by left|right; eauto].
Qed.

Lemma walk_root_alloc s t l va :
  vm_inv s t l ->
  exists o s' t' l', walk_level (pt_root t) va true 2 s = Ok o s' /\ grows s t l s' t' l' /\
    adds t t' (eq va) /\ match o with Some p => tbl t' (L1 (PX 2 va)) = Some p | None => l' = [] end.
Proof.
  intros Hv. pose proof (PX_range 2 va ltac:(lia)) as Hi.
  pose proof (tb_root _ _ (vi_tables _ _ _ _ Hv) (PX 2 va) Hi) as H1.
  destruct (pt_l1 t !! PX 2 va) as [p1|] eqn:E1.
  { exists (Some p1), s, t, l. split; [|split; [by apply grows_refl|split; [apply adds_refl|done]]].
    eapply (walk_level_present kend); [done..|].
    by destruct (vi_pages _ _ _ _ Hv (L1 (PX 2 va)) p1 E1). }
  unfold walk_level, bind, gets. rewrite (proj2 (istrue_V _) H1). cbn [negb].
  destruct l as [|p l].
  { exists None, s, t, []. rewrite (kalloc_empty kend) by apply Hv.
    split; [done|]. split; [by apply grows_refl|split; [apply adds_refl|done]]. }
  destruct (vm_alloc_zeroed kend kend_pos s t p l Hv) as (s1 & Ha & Hp0 & Hv2 & Hz & Hs & Hp & Hl & Ht).
  rewrite Ha. rewrite (proj2 (Z.eqb_neq p 0) Hp0).
  destruct (kpage_range kend kend_pos p Hp) as (?&?&?).
  eexists (Some p), _, (add_l1 t (PX 2 va) p), l. split.
  { unfold modify. rewrite PA2PTE_lor by (unfold PTE_V, PGSIZE in *; lia). reflexivity. }
  split; [|split; [intros r [q [[-> _]|Hq]%tbl_add_l1]; [right; eauto|left; by exists q]|apply lookup_insert_eq]].
  set (s2 := set_mem _ s1) in *.
  apply (grows_hook kend s s2 t (add_l1 t (PX 2 va) p) l p (L1 (PX 2 va)) Root (pt_root t));
    try done.
  - apply tbl_add_l1.
  - apply lookup_insert_eq.
  - intros [|i|i j] Hn; [done| |done]. apply lookup_insert_ne. congruence.
  - by apply vm_add_l1.
Qed.

Lemma walk_mid_alloc s t l va p1 :
  vm_inv s t l -> tbl t (L1 (PX 2 va)) = Some p1 ->
  exists o s' t' l', walk_level p1 va true 1 s = Ok o s' /\ grows s t l s' t' l' /\
    adds t t' (eq va) /\ match o with Some p => tbl t' (L0 (PX 2 va) (PX 1 va)) = Some p | None => l' = [] end.
Proof.
  intros Hv E1. pose proof (PX_range 1 va ltac:(lia)) as Hi. cbn [tbl] in E1.
  pose proof (tb_l1 _ _ (vi_tables _ _ _ _ Hv) _ _ (PX 1 va) E1 Hi) as H1.
  destruct (pt_l0 t !! (PX 2 va, PX 1 va)) as [p0|] eqn:E0.
  { exists (Some p0), s, t, l. split; [|split; [by apply grows_refl|split; [apply adds_refl|done]]].
    eapply (walk_level_present kend); [done..|].
    by destruct (vi_pages _ _ _ _ Hv (L0 (PX 2 va) (PX 1 va)) p0 E0). }
  unfold walk_level, bind, gets. rewrite (proj2 (istrue_V _) H1). cbn [negb].
  destruct l as [|p l].
  { exists None, s, t, []. rewrite (kalloc_empty kend) by apply Hv.
    split; [done|]. split; [by apply grows_refl|split; [apply adds_refl|done]]. }
  destruct (vm_alloc_zeroed kend kend_pos s t p l Hv) as (s1 & Ha & Hp0 & Hv2 & Hz & Hs & Hp & Hl & Ht).
  rewrite Ha. rewrite (proj2 (Z.eqb_neq p 0) Hp0).
  destruct (kpage_range kend kend_pos p Hp) as (?&?&?).
  eexists (Some p), _, (add_l0 t (PX 2 va) (PX 1 va) p), l. split.
  { unfold modify. rewrite PA2PTE_lor by (unfold PTE_V, PGSIZE in *; lia). reflexivity. }
  split; [|split; [intros r [q [[-> _]|Hq]%tbl_add_l0]; [right; eauto|left; by exists q]|apply lookup_insert_eq]].
  set (s2 := set_mem _ s1) in *.
  apply (grows_hook kend s s2 t (add_l0 t (PX 2 va) (PX 1 va) p) l p
           (L0 (PX 2 va) (PX 1 va)) (L1 (PX 2 va)) p1); try done.
  - apply tbl_add_l0.
  - apply lookup_insert_eq.
  - intros [|i|i j] Hn; [done|done|]. apply lookup_insert_ne. congruence.
  - by apply vm_add_l0.
Qed.

(** [walk] with allocation finds or creates the entry of [va]; it fails only
    when memory is exhausted, and in every case no translation changes. *)
Lemma walk_alloc s t l va :
  vm_inv s t l -> 0 <= va < MAXVA ->
  exists r s' t' l', walk (pt_root t) va true s = Ok r s' /\ grows s t l s' t' l' /\ adds t t' (eq va) /\
    ((r = 0 /\ l' = []) \/
     (exists p, tbl t' (L0 (PX 2 va) (PX 1 va)) = Some p /\ r = p + 8 * PX 0 va)).
Proof.
  intros Hv Hva. unfold walk. destruct (Z.leb_spec MAXVA va); [lia|].
  destruct (walk_root_alloc s t l va Hv) as (o1 & s1 & t1 & l1 & E1 & G1 & A1 & H1).
  unfold bind. rewrite E1. destruct o1 as [p1|].
  2:{ exists 0, s1, t1, l1. split; [done|]. split; [done|]. split; [done|]. left. done. }
  destruct (walk_mid_alloc s1 t1 l1 va p1) as (o2 & s2 & t2 & l2 & E2 & G2 & A2 & H2);
    [apply G1|done|].
  pose proof (adds_trans _ _ _ _ _ _ A1 A2 (fun _ H => H) (fun _ H => H)) as A.
  rewrite E2. destruct o2 as [p0|].
  - exists (p0 + 8 * PX 0 va), s2, t2, l2. split; [done|].
    split; [by eapply grows_trans|]. split; [done|]. right. by exists p0.
  - exists 0, s2, t2, l2. split; [done|]. split; [by eapply grows_trans|]. split; [done|]. left. done.
Qed.

(** ** Writing entries *)

(** The parts of [grows] that also hold when entries change. *)
Record evolves (s : kst) (t : ptree) (l : list Z) (s' : kst) (t' : ptree) (l' : list Z) : Prop := {
  ev_inv : vm_inv s' t' l';
  ev_root : pt_root t' = pt_root t;
  ev_covers : forall b, covers t' l' b <-> covers t l b;
  ev_frame : frame t l (kmem s) (kmem s');
  ev_mono : forall r p, tbl t r = Some p -> tbl t' r = Some p;
  ev_suffix : exists k, l = k ++ l'
}.

Lemma grows_evolves s t l s' t' l' : grows s t l s' t' l' -> evolves s t l s' t' l'.
Proof. by intros []. Qed.

Lemma evolves_trans s t l s' t' l' s'' t'' l'' :
  evolves s t l s' t' l' -> evolves s' t' l' s'' t'' l'' -> evolves s t l s'' t'' l''.
Proof.
  intros [I1 R1 C1 F1 M1 [k1 S1]] [I2 R2 C2 F2 M2 [k2 S2]]. split.
  - done.
  - congruence.
  - intros b. by rewrite C2.
  - eapply frame_trans; [done..|]. intros b. by rewrite C1.
  - auto.
  - exists (k1 ++ k2). by rewrite <- app_assoc, <- S2.
Qed.

Lemma leaf_write s t l va p v :
  vm_inv s t l -> tbl t (L0 (PX 2 va) (PX 1 va)) = Some p -> 0 <= v < 2 ^ 64 ->
  0 <= va < MAXVA ->
  let s' := set_mem (fun m => store64 m (p + 8 * PX 0 va) v) s in
  evolves s t l s' t l /\
  forall va', 0 <= va' < MAXVA ->
    pte_of (kmem s') t va' =
      if decide (va' / PGSIZE = va / PGSIZE) then v else pte_of (kmem s) t va'.
Proof.
  intros Hv Hp Hvr Hva s'. pose proof (PX_range 0 va ltac:(lia)) as Hk.
  destruct (vm_write_entry_free kend s t l _ p (PX 0 va) v Hv Hp Hk) as [Hf Hs].
  assert (Hent : forall r' p' k', tbl t r' = Some p' -> 0 <= k' < 512 ->
    L0 (PX 2 va) (PX 1 va) <> r' \/ PX 0 va <> k' ->
    load64 (kmem s') (p' + 8 * k') = load64 (kmem s) (p' + 8 * k')).
  { intros r' p' k' Hr' Hk' Hne.
    destruct (load_store_entry kend s t l _ p (PX 0 va) v r' p' k' Hv Hp Hr' Hk Hk' Hvr)
      as [(E1 & E2 & _)|(_ & E)]; [destruct Hne; congruence|exact E]. }
  split.
  - split; try done; [|apply (frame_same_outside _ _ p); [right; by eexists|
      by eapply (vi_aligned kend s t l)|done]|by exists []].
    split; [done| |apply Hv|apply Hv]. eapply pt_tables_ext; [apply Hv|].
    intros r q k Hr Hn Hkk. apply (Hent r); [done..|]. left. intros <-. by eapply Hn.
  - intros va' Hva'. case_decide as Hd.
    + apply PX_page in Hd as (E2 & E1 & E0); [|done..]. unfold pte_of.
      rewrite E2, E1, E0, Hp. by apply load_store64_same.
    + apply pte_of_ext; [done|]. intros q Hq. apply (Hent (L0 (PX 2 va') (PX 1 va')) q);
        [done|by apply PX_range|].
      destruct (decide (L0 (PX 2 va) (PX 1 va) = L0 (PX 2 va') (PX 1 va'))) as [[= E2 E1]|]; [|by left].
      right. intros E0. apply Hd. symmetry. by apply PX_page.
Qed.

(** ** mappages *)

(** [n] pages from [a] are mapped to the physical pages from [pa]; every other
    entry is as before. *)
Definition mapped (m : pmem) (t : ptree) (m' : pmem) (t' : ptree) (a n pa f : Z) : Prop :=
  forall va, 0 <= va < MAXVA ->
    pte_of m' t' va =
      if decide (a <= va < a + n * PGSIZE)
      then mkpte (pa + (va / PGSIZE * PGSIZE - a)) f else pte_of m t va.

Lemma mapped_0 s t l s' t' l' a pa f :
  grows s t l s' t' l' -> mapped (kmem s) t (kmem s') t' a 0 pa f.
Proof. intros G va Hva. rewrite decide_False by lia. by apply G. Qed.

Lemma mapped_app m t m' t' m'' t'' a n k pa f :
  0 <= n -> 0 <= k -> mapped m t m' t' a n pa f ->
  mapped m' t' m'' t'' (a + n * PGSIZE) k (pa + n * PGSIZE) f ->
  mapped m t m'' t'' a (n + k) pa f.
Proof.
  intros Hn Hk H1 H2 va Hva. rewrite H2, H1 by done. unfold PGSIZE in *.
  repeat case_decide; try lia; [f_equal; lia|done..].
Qed.

(** One round of the loop of [mappages]. *)
Lemma map_one s t l a pa perm :
  vm_inv s t l -> 0 <= a -> a mod PGSIZE = 0 -> a + PGSIZE <= MAXVA -> 0 <= pa < 2 ^ 64 ->
  0 <= perm < 1024 -> Z.land (pte_of (kmem s) t a) PTE_V = 0 ->
  exists pte s1 t1 l1, walk (pt_root t) a true s = Ok pte s1 /\ grows s t l s1 t1 l1 /\ adds t t1 (eq a) /\
    ((pte = 0 /\ l1 = []) \/
     (pte <> 0 /\ Z.land (load64 (kmem s1) pte) PTE_V = 0 /\
      let s2 := set_mem (fun m =>
        store64 m pte (Z.lor (Z.lor (PA2PTE pa) perm) PTE_V)) s1 in
      evolves s t l s2 t1 l1 /\
      mapped (kmem s) t (kmem s2) t1 a 1 pa (Z.lor perm PTE_V))).
Proof.
  intros Hv Ha0 Ha Hmax Hpa Hperm Hun. assert (PGSIZE = 4096) as HP by done.
  assert (Hf : 0 <= Z.lor perm PTE_V < 1024) by (apply lor_bound; unfold PTE_V; lia).
  destruct (walk_alloc s t l a Hv) as (r & s1 & t1 & l1 & Ew & G & Ad & Hr); [lia|].
  exists r, s1, t1, l1. split; [done|]. split; [done|]. split; [done|].
  destruct Hr as [?|(p & Hp & ->)]; [by left|right].
  pose proof (PX_range 0 a ltac:(lia)).
  destruct (vi_pages _ _ _ _ (gr_inv _ _ _ _ _ _ _ G) _ _ Hp) as [Hpg _].
  destruct (kpage_range kend kend_pos p Hpg) as [? _].
  split; [lia|]. split.
  { rewrite <- (gr_ptes _ _ _ _ _ _ _ G a) in Hun. unfold pte_of in Hun. by rewrite Hp in Hun. }
  rewrite <- Z.lor_assoc, PA2PTE_lor by done.
  destruct (leaf_write s1 t1 l1 a p (mkpte pa (Z.lor perm PTE_V))) as [E1 P1];
    [apply G|done|by apply mkpte_range|lia|].
  split; [by eapply evolves_trans; [apply grows_evolves|]|].
  intros va Hva. rewrite P1 by done. rewrite HP in *. case_decide.
  - rewrite decide_True by dlia. f_equal. dlia.
  - rewrite decide_False by dlia. by apply G.
Qed.

Lemma mappages_loop_S n pt a last pa perm :
  mappages_loop (S n) pt a last pa perm =
    (pte <- walk pt a true;;
     if pte =? 0 then ret (-1)
     else
       v <- gets (fun s => load64 (kmem s) pte);;
       if istrue (Z.land v PTE_V) then panic "mappages: remap"
       else
         modify (set_mem (fun m =>
           store64 m pte (Z.lor (Z.lor (PA2PTE pa) perm) PTE_V)));;;
         if a =? last then ret 0
         else mappages_loop n pt (u64 (a + PGSIZE)) last (u64 (pa + PGSIZE)) perm).
Proof. done. Qed.

Lemma mappages_loop_spec perm : 0 <= perm < 1024 -> forall n s t l a pa,
  vm_inv s t l -> a mod PGSIZE = 0 -> 0 <= a -> a + (Z.of_nat n + 1) * PGSIZE <= MAXVA ->
  0 <= pa -> pa + (Z.of_nat n + 1) * PGSIZE <= 2 ^ 64 ->
  (forall i, 0 <= i <= Z.of_nat n -> Z.land (pte_of (kmem s) t (a + i * PGSIZE)) PTE_V = 0) ->
  exists r s' t' l' k,
    mappages_loop (S n) (pt_root t) a (a + Z.of_nat n * PGSIZE) pa perm s = Ok r s' /\
    evolves s t l s' t' l' /\
    mapped (kmem s) t (kmem s') t' a k pa (Z.lor perm PTE_V) /\
    adds t t' (fun va => a <= va < a + (Z.of_nat n + 1) * PGSIZE) /\
    ((r = 0 /\ k = Z.of_nat n + 1) \/ (r = -1 /\ 0 <= k <= Z.of_nat n /\ l' = [])).
Proof.
  intros Hperm n. assert (PGSIZE = 4096) as HP by done.
  induction n as [|n IH]; intros s t l a pa Hv Ha Ha0 Hmax Hpa Hpam Hun.
  all: destruct (map_one s t l a pa perm) as (pte & s1 & t1 & l1 & Ew & G & Ad & Hr);
    [done|done|done|lia|lia|done|rewrite <- (Hun 0) by lia; do 2 f_equal; lia|].
  all: rewrite mappages_loop_S; unfold bind at 1; rewrite Ew.
  all: pose proof (fun V HV => adds_trans _ _ _ _ _ V Ad (adds_refl t1 (eq a)) HV HV) as A1.
  all: destruct Hr as [[-> ->]|(Hnz & Hun1 & E1 & M1)].
  1,3: exists (-1), s1, t1, [], 0; split; [done|]; split; [by apply grows_evolves|];
    split; [by eapply mapped_0|]; split; [apply A1; intros ? <-; lia|right; split_and!; lia || done].
  all: rewrite (proj2 (Z.eqb_neq _ _) Hnz); unfold bind at 1, gets at 1.
  all: rewrite (proj2 (istrue_V _) Hun1); unfold bind at 1, modify at 1.
  - rewrite (proj2 (Z.eqb_eq _ _)) by lia. eexists 0, _, t1, l1, 1.
    split_and!; [done..|apply A1; intros ? <-; lia|]. left. lia.
  - rewrite (proj2 (Z.eqb_neq _ _)) by lia.
    rewrite !u64_small by (unfold MAXVA in *; lia).
    set (s2 := set_mem _ s1) in *.
    destruct (IH s2 t1 l1 (a + PGSIZE) (pa + PGSIZE)) as (r & s' & t' & l' & k & E & Ev & M & A2 & Hr);
      [apply E1|by rewrite HP in *; dlia|lia|lia|lia|lia| |].
    { intros i Hi. rewrite HP in *. rewrite M1 by lia. rewrite decide_False by lia.
      replace (a + 4096 + i * 4096) with (a + (i + 1) * 4096) by lia. apply Hun. lia. }
    rewrite (ev_root _ _ _ _ _ _ E1) in E.
    exists r, s', t', l', (1 + k). 
    split; [|split; [by eapply evolves_trans|]].
    { replace (a + Z.of_nat (S n) * PGSIZE) with (a + PGSIZE + Z.of_nat n * PGSIZE) by lia.
      exact E. }
    split; [eapply mapped_app; [lia|lia|done|]; by rewrite Z.mul_1_l|].
    split; [|destruct Hr as [[]|(? & ? & ?)]; [left|right]; split_and!; lia || done].
    eapply adds_trans; [exact Ad|exact A2|intros ? <-; lia|]. intros va Hva. cbv beta in Hva. lia.
Qed.

(** The guards of [mappages] and its result on an unmapped range: every page of
    the range is mapped, or memory ran out and a prefix is. *)
Lemma mappages_spec_adds s t l va size pa perm :
  vm_inv s t l -> 0 <= va -> 0 < size -> va + size <= MAXVA -> 0 <= perm < 1024 ->
  let a := PGROUNDDOWN va in
  let n := (va + size - 1) / PGSIZE - va / PGSIZE + 1 in
  0 <= pa -> pa + n * PGSIZE <= 2 ^ 64 ->
  (forall x, a <= x < a + n * PGSIZE -> Z.land (pte_of (kmem s) t x) PTE_V = 0) ->
  exists r s' t' l' k,
    mappages (pt_root t) va size pa perm s = Ok r s' /\
    evolves s t l s' t' l' /\
    mapped (kmem s) t (kmem s') t' a k pa (Z.lor perm PTE_V) /\
    adds t t' (fun x => a <= x < a + n * PGSIZE) /\
    ((r = 0 /\ k = n) \/ (r = -1 /\ 0 <= k < n /\ l' = [])).
Proof.
  intros Hv Hva Hsz Hmax Hperm a n Hpa Hpan Hun. assert (PGSIZE = 4096) as HP by done.
  assert (MAXVA = 2 ^ 38) as HM by done.
  unfold mappages. rewrite (proj2 (Z.eqb_neq _ _)) by lia. fold a.
  rewrite (u64_small (va + size - 1)) by lia.
  assert (a = va / PGSIZE * PGSIZE) as Ea by (apply PGROUNDDOWN_eq; lia).
  assert (Hlast : PGROUNDDOWN (va + size - 1) = a + (n - 1) * PGSIZE).
  { rewrite PGROUNDDOWN_eq by lia. rewrite Ea. unfold n. lia. }
  assert (1 <= n) by (unfold n; rewrite HP in *; dlia).
  rewrite Hlast, (proj2 (Z.leb_le _ _)) by (rewrite HP; lia).
  replace ((a + (n - 1) * PGSIZE - a) / PGSIZE) with (n - 1) by (rewrite HP; dlia).
  destruct (mappages_loop_spec perm Hperm (Z.to_nat (n - 1)) s t l a pa)
    as (r & s' & t' & l' & k & E & Ev & M & A & Hr);
    [done|rewrite Ea, HP; dlia|rewrite Ea, HP; dlia| |done|lia|intros; apply Hun; lia|].
  { unfold n. rewrite Ea, HP, Z2Nat.id by (rewrite HP in *; dlia). rewrite HM in *. dlia. }
  rewrite Z2Nat.id in E, Hr, A by lia. replace (n - 1 + 1) with n in A by lia. exists r, s', t', l', k.
  split_and!; [done..|]. destruct Hr as [[]|(? & ? & ?)]; [left|right]; split_and!; lia || done.
Qed.

Lemma mappages_spec s t l va size pa perm :
  vm_inv s t l -> 0 <= va -> 0 < size -> va + size <= MAXVA -> 0 <= perm < 1024 ->
  let a := PGROUNDDOWN va in
  let n := (va + size - 1) / PGSIZE - va / PGSIZE + 1 in
  0 <= pa -> pa + n * PGSIZE <= 2 ^ 64 ->
  (forall x, a <= x < a + n * PGSIZE -> Z.land (pte_of (kmem s) t x) PTE_V = 0) ->
  exists r s' t' l' k,
    mappages (pt_root t) va size pa perm s = Ok r s' /\
    evolves s t l s' t' l' /\
    mapped (kmem s) t (kmem s') t' a k pa (Z.lor perm PTE_V) /\
    ((r = 0 /\ k = n) \/ (r = -1 /\ 0 <= k < n /\ l' = [])).
Proof.
  intros Hv Hva Hsz Hmax Hperm a n Hpa Hpan Hun.
  destruct (mappages_spec_adds s t l va size pa perm) as (r & s' & t' & l' & k & E & Ev & M & _ & Hr); [done..|].
  by exists r, s', t', l', k.
Qed.
End walk.
