(* ===== verification/Uvm.v ===== *)
(** * User address spaces ([kernel/vm.c])

    The user memory operations of [Vm] against an abstract address space: a
    finite map from virtual page numbers to the physical page and the flags of
    the mapping.  [uas] says that a page table in memory represents such a map,
    that the process owns its pages (no page is mapped twice, is free, or is
    part of the page table), and the theorems say what [uvmalloc], [uvmdealloc],
    [uvmcopy], [copyout], [copyin] and [copyinstr] do to the map and to the
    bytes behind it. *)

From S2P Require Import Prelude Mem Kalloc Vm VmMap.

(** The number of virtual pages below the trapframe page. *)
Definition UPAGES : Z := TRAPFRAME / PGSIZE.

Lemma UPAGES_eq : UPAGES = 67108862.
Proof. reflexivity. Qed.

Lemma MAXVA_pages : MAXVA = 67108864 * PGSIZE.
Proof. reflexivity. Qed.

(** Arithmetic on virtual page numbers and addresses. *)
Ltac plia := rewrite ?UPAGES_eq, ?MAXVA_pages in *; unfold PGSIZE in *; dlia.

Abbreviation umap := (gmap Z (Z * Z)).

(** The pages an address space and the free list account for. *)
Definition own (t : ptree) (l : list Z) (U : umap) (b : Z) : Prop :=
  covers t l b \/ exists v f, U !! v = Some (b, f).

(** Nothing changes outside the pages [P]. *)
Definition agree (P : Z -> Prop) (m m' : pmem) : Prop :=
  forall b x, ~ P b -> b mod PGSIZE = 0 -> b <= x < b + PGSIZE -> mget m' x = mget m x.

(** The pages mapped by [U] keep their bytes. *)
Definition keeps (U : umap) (m m' : pmem) : Prop :=
  forall v pa f x, U !! v = Some (pa, f) -> pa <= x < pa + PGSIZE -> mget m' x = mget m x.

Lemma agree_trans (P Q : Z -> Prop) m m' m'' :
  agree P m m' -> agree Q m' m'' -> (forall b, Q b -> P b) -> agree P m m''.
Proof.
  intros H1 H2 Hs b x Hb Ha Hx. rewrite (H2 b x); [by apply (H1 b)|intros ?; by apply Hb, Hs|done..].
Qed.

Lemma agree_mono (P Q : Z -> Prop) m m' :
  agree P m m' -> (forall b, P b -> Q b) -> agree Q m m'.
Proof. intros H1 Hs b x Hb. apply H1. auto. Qed.

Lemma agree_same_outside (P : Z -> Prop) p m m' :
  P p -> p mod PGSIZE = 0 -> same_outside p m m' -> agree P m m'.
Proof.
  intros Hp Ha Hs b x Hb Hba Hx. apply Hs.
  destruct (kpage_disjoint p b); [done..|by intros ->| |]; unfold PGSIZE in *; lia.
Qed.

Lemma keeps_trans U U' m m' m'' : U ⊆ U' -> keeps U m m' -> keeps U' m' m'' -> keeps U m m''.
Proof.
  intros Hs H1 H2 v pa f x Hv Hx. rewrite (H2 v pa f); [by eapply H1| |done].
  by eapply lookup_weaken.
Qed.

Lemma keeps_weaken U U' m m' : U ⊆ U' -> keeps U' m m' -> keeps U m m'.
Proof. intros Hs H v pa f x Hv Hx. apply (H v pa f); [by eapply lookup_weaken|done]. Qed.

Lemma pte_of_page m t va va' :
  0 <= va < MAXVA -> 0 <= va' < MAXVA -> va / PGSIZE = va' / PGSIZE ->
  pte_of m t va = pte_of m t va'.
Proof.
  intros H1 H2 Hp. apply PX_page in Hp as (E2 & E1 & E0); [|done..].
  unfold pte_of. by rewrite E2, E1, E0.
Qed.

Section uvm.
Variable kend : Z.
Hypothesis kend_pos : 0 < kend.

Record uas (s : kst) (t : ptree) (l : list Z) (U : umap) : Prop := {
  ua_vm : vm_inv kend s t l;
  ua_pte : forall v pa f, U !! v = Some (pa, f) ->
    pte_of (kmem s) t (v * PGSIZE) = mkpte pa f;
  ua_ok : forall v pa f, U !! v = Some (pa, f) ->
    0 <= v < UPAGES /\ kpage kend pa /\ 0 <= f < 1024 /\ Z.land f PTE_V <> 0 /\ f <> PTE_V;
  ua_none : forall v, 0 <= v < UPAGES -> U !! v = None ->
    Z.land (pte_of (kmem s) t (v * PGSIZE)) PTE_V = 0;
  ua_high : forall v, UPAGES <= v < MAXVA / PGSIZE ->
    Z.land (pte_of (kmem s) t (v * PGSIZE)) PTE_V = 0 \/
    Z.land (pte_of (kmem s) t (v * PGSIZE)) PTE_U = 0;
  ua_sep : forall v pa f, U !! v = Some (pa, f) -> ~ covers t l pa;
  ua_inj : forall v v' pa f f',
    U !! v = Some (pa, f) -> U !! v' = Some (pa, f') -> v = v'
}.

(** What an operation on an address space may do to the machine: the pages the
    space and the free list account for are the same before and after, and no
    other page is written. *)
Record uevolves (s : kst) (t : ptree) (l : list Z) (U : umap)
    (s' : kst) (t' : ptree) (l' : list Z) (U' : umap) : Prop := {
  ue_as : uas s' t' l' U';
  ue_root : pt_root t' = pt_root t;
  ue_own : forall b, own t' l' U' b <-> own t l U b;
  ue_frame : agree (own t l U) (kmem s) (kmem s')
}.

Lemma uevolves_refl s t l U : uas s t l U -> uevolves s t l U s t l U.
Proof. by split. Qed.

Lemma uevolves_trans s t l U s' t' l' U' s'' t'' l'' U'' :
  uevolves s t l U s' t' l' U' -> uevolves s' t' l' U' s'' t'' l'' U'' ->
  uevolves s t l U s'' t'' l'' U''.
Proof.
  intros [I1 R1 C1 F1] [I2 R2 C2 F2]. split.
  - done.
  - congruence.
  - intros b. by rewrite C2.
  - eapply agree_trans; [done..|]. intros b. by rewrite C1.
Qed.

Lemma uas_page s t l U v pa f :
  uas s t l U -> U !! v = Some (pa, f) -> pa mod PGSIZE = 0 /\ 0 < pa < 2 ^ 56.
Proof.
  intros Hu Hv. destruct (ua_ok _ _ _ _ Hu _ _ _ Hv) as (_ & Hp & _).
  destruct (kpage_range kend kend_pos _ Hp) as (? & ? & ?). unfold PGSIZE in *. split; [done|lia].
Qed.

Lemma keeps_agree s t l U m' (P : Z -> Prop) :
  uas s t l U -> agree P (kmem s) m' ->
  (forall v pa f, U !! v = Some (pa, f) -> ~ P pa) -> keeps U (kmem s) m'.
Proof.
  intros Hu Ha Hn v pa f x Hv Hx. apply (Ha pa); [by eapply Hn| |done].
  by destruct (uas_page _ _ _ _ _ _ _ Hu Hv).
Qed.

Lemma uas_range v : 0 <= v < UPAGES -> 0 <= v * PGSIZE /\ v * PGSIZE + PGSIZE <= MAXVA - 2 * PGSIZE.
Proof. intros. plia. Qed.

(** ** Steps that leave the map alone *)

Lemma uas_same s t l U s' t' l' :
  uas s t l U -> evolves kend s t l s' t' l' ->
  (forall va, 0 <= va < MAXVA -> pte_of (kmem s') t' va = pte_of (kmem s) t va) ->
  uevolves s t l U s' t' l' U /\ keeps U (kmem s) (kmem s').
Proof.
  intros Hu He Hp. split; [split|].
  - assert (forall v, 0 <= v < MAXVA / PGSIZE -> 0 <= v * PGSIZE < MAXVA) as Hr by plia.
    destruct Hu as [H1 H2 H3 H4 H5 H6 H7]. split; try done.
    + apply He.
    + intros v pa f Hv. destruct (H3 v pa f Hv) as (? & _). rewrite Hp by plia. eauto.
    + intros v Hv Hn. rewrite Hp by plia. eauto.
    + intros v Hv. rewrite Hp by plia. eauto.
    + intros v pa f Hv. rewrite (ev_covers _ _ _ _ _ _ _ He). eauto.
  - apply He.
  - intros b. unfold own. by rewrite (ev_covers _ _ _ _ _ _ _ He).
  - eapply agree_mono; [exact (ev_frame _ _ _ _ _ _ _ He)|]. by left.
  - eapply keeps_agree; [done|exact (ev_frame _ _ _ _ _ _ _ He)|].
    intros v pa f Hv. by eapply ua_sep.
Qed.

(** Changing the bytes of a page outside the tables, possibly with a change of
    the free list. *)
Lemma uas_page_change s s' t l l' U p :
  uas s t l U -> krep kend s' l' -> p mod PGSIZE = 0 -> (forall r, tbl t r <> Some p) ->
  (forall b, b ∈ l' -> b ∈ l \/ b = p) -> same_outside p (kmem s) (kmem s') ->
  (forall v f, U !! v = Some (p, f) -> p ∉ l') -> uas s' t l' U.
Proof.
  intros Hu Hk Hp Ht Hl Hs Hown. pose proof (ua_vm _ _ _ _ Hu) as Hv.
  assert (Hpte : forall va, pte_of (kmem s') t va = pte_of (kmem s) t va).
  { intros va. apply pte_of_ext; [done|]. intros q Hq.
    apply (load_same_outside p); [done|done|by eapply vi_aligned| |apply PX_range; lia].
    intros ->. by eapply Ht. }
  destruct Hu as [_ H2 H3 H4 H5 H6 H7]. split; try done.
  - by eapply (vm_inv_same_outside kend s s' t l l' p).
  - intros v pa f Hvv. rewrite Hpte. eauto.
  - intros v Hv1 Hv2. rewrite Hpte. eauto.
  - intros v Hv1. rewrite Hpte. eauto.
  - intros v pa f Hvv [Hin|[r Hr]].
    + destruct (Hl pa Hin) as [Hin'|Heq]; [eapply H6; [done|by left]|subst].
      by eapply Hown.
    + eapply H6; [done|]. right. by exists r.
Qed.

Lemma uas_write s t l U p m' :
  uas s t l U -> kpage kend p -> ~ covers t l p -> same_outside p (kmem s) m' ->
  uas (mkKst m' (freelist s)) t l U.
Proof.
  intros Hu Hp Hc Hs. eapply (uas_page_change s _ t l l U p); simpl; try done.
  - apply (vi_free kend _ t), (vm_write_page kend s t l p); [apply Hu|done|..|done];
      [intros ?; apply Hc; by left|intros r ?; apply Hc; right; by exists r].
  - apply Hp.
  - intros r Hr. apply Hc. right. by exists r.
  - auto.
  - intros v f _ Hin. apply Hc. by left.
Qed.

(** ** Mapping a fresh page *)

Lemma uas_insert s t l U s' t' l' v p f :
  uas s t l U -> kpage kend p -> ~ own t l U p -> 0 <= v < UPAGES ->
  0 <= f < 1024 -> Z.land f PTE_V <> 0 -> f <> PTE_V ->
  evolves kend s t l s' t' l' ->
  mapped (kmem s) t (kmem s') t' (v * PGSIZE) 1 p f ->
  uas s' t' l' (<[v := (p, f)]> U).
Proof.
  intros Hu Hp Hown Hv Hf1 Hf2 Hf3 He Hm.
  assert (Hpte : forall w, 0 <= w < MAXVA / PGSIZE -> pte_of (kmem s') t' (w * PGSIZE) =
    if decide (w = v) then mkpte p f else pte_of (kmem s) t (w * PGSIZE)).
  { intros w Hw. rewrite Hm by plia. repeat case_decide; try done; try plia.
    subst w. f_equal. plia. }
  destruct Hu as [H1 H2 H3 H4 H5 H6 H7]. split.
  - apply He.
  - intros w pa g. destruct (decide (w = v)) as [->|Hn].
    + rewrite lookup_insert_eq. intros [= <- <-]. rewrite Hpte by plia. by rewrite decide_True.
    + rewrite lookup_insert_ne by done. intros Hw. destruct (H3 _ _ _ Hw) as [? _].
      rewrite Hpte by plia. rewrite decide_False by done. eauto.
  - intros w pa g. destruct (decide (w = v)) as [->|Hn];
      [rewrite lookup_insert_eq; by intros [= <- <-]|rewrite lookup_insert_ne by done; eauto].
  - intros w Hw. destruct (decide (w = v)) as [->|Hn]; [by rewrite lookup_insert_eq|].
    rewrite lookup_insert_ne by done. intros. rewrite Hpte by plia.
    rewrite decide_False by done. eauto.
  - intros w Hw. rewrite Hpte by plia. rewrite decide_False by lia. eauto.
  - intros w pa g. rewrite (ev_covers _ _ _ _ _ _ _ He). destruct (decide (w = v)) as [->|Hn].
    + rewrite lookup_insert_eq. intros [= <- <-] ?. apply Hown. by left.
    + rewrite lookup_insert_ne by done. eauto.
  - intros w w' pa g g'. rewrite !lookup_insert_Some.
    intros [[<- [= <- <-]]|[Hn Hw]] [[<- [= ]]|[Hn' Hw']]; subst; try done.
    + destruct Hown. right. eauto.
    + destruct Hown. right. eauto.
    + eauto.
Qed.

(** ** Removing a mapping *)

Lemma uas_delete s t l U s' l' v pa f :
  uas s t l U -> U !! v = Some (pa, f) -> vm_inv kend s' t l' ->
  (forall w, 0 <= w < MAXVA / PGSIZE -> pte_of (kmem s') t (w * PGSIZE) =
     if decide (w = v) then 0 else pte_of (kmem s) t (w * PGSIZE)) ->
  (forall b, covers t l' b -> covers t l b \/ b = pa) ->
  uas s' t l' (delete v U).
Proof.
  intros Hu Hv Hi Hpte Hc. destruct Hu as [H1 H2 H3 H4 H5 H6 H7].
  destruct (H3 _ _ _ Hv) as [Hvr _]. split.
  - done.
  - intros w pa' g [Hn Hw]%lookup_delete_Some. destruct (H3 _ _ _ Hw) as [? _].
    rewrite Hpte, decide_False by (done || plia). eauto.
  - intros w pa' g [Hn Hw]%lookup_delete_Some. eauto.
  - intros w Hw Hn. rewrite Hpte by plia. case_decide; [done|].
    rewrite lookup_delete_ne in Hn by done. eauto.
  - intros w Hw. rewrite Hpte, decide_False by plia. eauto.
  - intros w pa' g [Hn Hw]%lookup_delete_Some Hcov.
    destruct (Hc _ Hcov) as [|Heq]; [by eapply H6|subst pa']. by apply Hn, (H7 v w pa f g).
  - intros w w' pa' g g' [_ Hw]%lookup_delete_Some [_ Hw']%lookup_delete_Some. eauto.
Qed.

Lemma unmap_one s t l U v pa f :
  uas s t l U -> U !! v = Some (pa, f) ->
  exists s', uvmunmap_page kend (pt_root t) true (v * PGSIZE) s = Ok tt s' /\
    uevolves s t l U s' t (pa :: l) (delete v U) /\ keeps (delete v U) (kmem s) (kmem s').
Proof.
  intros Hu Hv. pose proof (ua_vm _ _ _ _ Hu) as Hi.
  destruct (ua_ok _ _ _ _ Hu _ _ _ Hv) as (Hvr & Hpa & Hf & HfV & HfnV).
  pose proof (ua_pte _ _ _ _ Hu _ _ _ Hv) as Hpte.
  pose proof (ua_sep _ _ _ _ Hu _ _ _ Hv) as Hsep.
  destruct (uas_page _ _ _ _ _ _ _ Hu Hv) as [Hal Hpr].
  unfold uvmunmap_page, bind, gets. rewrite (walk_lookup kend kend_pos s t l) by (done || plia).
  unfold pte_of in Hpte. destruct (tbl t _) as [p0|] eqn:Hp0.
  2:{ unfold mkpte in Hpte. unfold PGSIZE in *. exfalso. dlia. }
  destruct (vi_pages _ _ _ _ Hi _ _ Hp0) as [Hk0 _].
  destruct (kpage_range kend kend_pos _ Hk0) as (? & _).
  pose proof (PX_range 0 (v * PGSIZE) ltac:(lia)).
  rewrite (proj2 (Z.eqb_neq _ _)) by lia. rewrite Hpte, land_mkpte by (done || unfold PTE_V; lia).
  rewrite (proj2 (Z.eqb_neq _ _) HfV), PTE_FLAGS_mkpte by done.
  rewrite (proj2 (Z.eqb_neq _ _) HfnV), PTE2PA_mkpte by (done || lia).
  destruct (kfree_spec kend kend_pos pa s l) as (s1 & -> & Hk1 & Hs1);
    [apply Hi|done|intros ?; apply Hsep; by left|].
  assert (Hi1 : vm_inv kend s1 t (pa :: l)).
  { eapply (vm_inv_same_outside kend s s1 t l _ pa); try done.
    - intros b. rewrite elem_of_cons. tauto.
    - intros r Hr. apply Hsep. right. by exists r. }
  destruct (leaf_write kend s1 t (pa :: l) (v * PGSIZE) p0 0) as [E2 P2];
    [done|done|lia|plia|].
  eexists. split; [done|]. set (s2 := set_mem _ s1) in *.
  assert (Hcov : forall b, covers t (pa :: l) b <-> covers t l b \/ b = pa).
  { intros b. unfold covers. rewrite elem_of_cons. tauto. }
  assert (Hown : forall b, own t (pa :: l) (delete v U) b <-> own t l U b).
  { intros b. unfold own. rewrite Hcov. split.
    - intros [[?| ->]|(w & g & [_ Hw]%lookup_delete_Some)]; [by left|right..]; eauto.
    - intros [?|(w & g & Hw)]; [by left; left|]. destruct (decide (w = v)) as [->|Hn].
      + left. right. congruence.
      + right. exists w, g. by rewrite lookup_delete_ne. }
  assert (Hag : agree (own t l U) (kmem s) (kmem s2)).
  { eapply agree_trans; [apply (agree_same_outside _ pa); [|done|exact Hs1]; right; eauto|
      exact (ev_frame _ _ _ _ _ _ _ E2)|].
    intros b Hb. apply Hown. by left. }
  split; [split; [|done..]|].
  - eapply uas_delete; [done..|apply E2| |apply Hcov].
    intros w Hw. rewrite P2 by plia. repeat case_decide; try done; try plia.
    apply pte_of_ext; [done|]. intros q Hq.
    apply (load_same_outside pa); [done|done|by eapply vi_aligned| |apply PX_range; lia].
    intros ->. apply Hsep. right. by eexists.
  - intros w pa' g x [Hn Hw]%lookup_delete_Some Hx.
    rewrite (ev_frame _ _ _ _ _ _ _ E2 pa' x); [|..|done].
    + apply Hs1. destruct (kpage_disjoint pa pa'); [done| | |unfold PGSIZE in *; lia..].
      * by destruct (uas_page _ _ _ _ _ _ _ Hu Hw).
      * intros <-. by apply Hn, (ua_inj _ _ _ _ Hu v w pa f g).
    + rewrite Hcov. intros [Hc|<-]; [by eapply (ua_sep _ _ _ _ Hu w)|].
      by apply Hn, (ua_inj _ _ _ _ Hu v w pa' f g).
    + by destruct (uas_page _ _ _ _ _ _ _ Hu Hw).
Qed.

Lemma unmap_list ws : forall s t l U,
  uas s t l U -> NoDup ws -> (forall w, w ∈ ws -> is_Some (U !! w)) ->
  exists s' l' U',
    for_each ((fun w => w * PGSIZE) <$> ws) (uvmunmap_page kend (pt_root t) true) s = Ok tt s' /\
    uevolves s t l U s' t l' U' /\ keeps U' (kmem s) (kmem s') /\
    forall w, U' !! w = if decide (w ∈ ws) then None else U !! w.
Proof.
  induction ws as [|w ws IH]; intros s t l U Hu Hnd Hall.
  - exists s, l, U. split; [done|]. split; [by apply uevolves_refl|]. split; [done|].
    intros w. by rewrite decide_False by apply not_elem_of_nil.
  - apply NoDup_cons in Hnd as [Hw Hnd].
    destruct (Hall w) as [[pa f] Hl]; [by left|].
    destruct (unmap_one s t l U w pa f Hu Hl) as (s1 & E1 & V1 & K1).
    destruct (IH s1 t (pa :: l) (delete w U)) as (s2 & l2 & U2 & E2 & V2 & K2 & L2);
      [apply V1|done| |].
    { intros w' Hw'. rewrite lookup_delete_ne by (intros ->; done). apply Hall. by right. }
    exists s2, l2, U2. rewrite fmap_cons. cbn [for_each]. unfold bind. rewrite E1, E2. split; [done|].
    split; [by eapply uevolves_trans|]. split.
    + eapply keeps_trans; [done| |exact K2]. intros v' pa' f' x Hv'. apply (K1 v' pa' f').
      rewrite L2 in Hv'. by case_decide.
    + intros w'. rewrite L2. destruct (decide (w' = w)) as [->|Hn].
      * rewrite lookup_delete_eq. rewrite (decide_True (P := w ∈ w :: ws)) by by left.
        by case_decide.
      * rewrite lookup_delete_ne by done. repeat case_decide; set_solver.
Qed.

(** ** [uvmunmap] and [uvmdealloc] *)

Lemma uvmunmap_spec s t l U v n :
  uas s t l U -> 0 <= v -> 0 <= n -> v + n <= UPAGES ->
  (forall w, v <= w < v + n -> is_Some (U !! w)) ->
  exists s' l' U',
    uvmunmap kend (pt_root t) (v * PGSIZE) n true s = Ok tt s' /\
    uevolves s t l U s' t l' U' /\ keeps U' (kmem s) (kmem s') /\
    forall w, U' !! w = if decide (v <= w < v + n) then None else U !! w.
Proof.
  intros Hu Hv Hn Hmax Hall. unfold uvmunmap.
  rewrite Z.mod_mul, u64_small by plia. simpl.
  replace ((v * PGSIZE + n * PGSIZE - v * PGSIZE + PGSIZE - 1) / PGSIZE) with n by plia.
  assert (page_range (v * PGSIZE) n = (fun w => w * PGSIZE) <$> seqZ v n) as ->.
  { unfold page_range, seqZ. rewrite <- list_fmap_compose. apply list_fmap_ext.
    intros i x _. unfold compose. plia. }
  destruct (unmap_list (seqZ v n) s t l U) as (s' & l' & U' & E & V & K & L).
  - done.
  - apply NoDup_seqZ.
  - intros w. rewrite elem_of_seqZ. apply Hall.
  - exists s', l', U'. split_and!; [done..|]. intros w. rewrite L.
    repeat case_decide; try done; exfalso; rewrite elem_of_seqZ in *; lia.
Qed.

Lemma uvmdealloc_spec s t l U oldsz newsz :
  uas s t l U -> 0 <= newsz <= oldsz -> oldsz <= UPAGES * PGSIZE ->
  (forall w, PGROUNDUP newsz <= w * PGSIZE < PGROUNDUP oldsz -> is_Some (U !! w)) ->
  exists s' l' U',
    uvmdealloc kend (pt_root t) oldsz newsz s = Ok newsz s' /\
    uevolves s t l U s' t l' U' /\ keeps U' (kmem s) (kmem s') /\
    forall w, U' !! w =
      if decide (PGROUNDUP newsz <= w * PGSIZE < PGROUNDUP oldsz) then None else U !! w.
Proof.
  intros Hu Hnew Hold Hall. unfold uvmdealloc.
  rewrite !PGROUNDUP_eq in * by plia.
  set (vn := (newsz + PGSIZE - 1) / PGSIZE) in *. set (vo := (oldsz + PGSIZE - 1) / PGSIZE) in *.
  assert (0 <= vn <= vo /\ vo <= UPAGES) as (? & ?) by (subst vn vo; plia).
  destruct (Z.leb_spec oldsz newsz).
  { assert (newsz = oldsz) as -> by lia. exists s, l, U. split; [done|].
    split; [by apply uevolves_refl|]. split; [done|]. intros w. rewrite decide_False; [done|lia]. }
  unfold bind. destruct (Z.ltb_spec (vn * PGSIZE) (vo * PGSIZE)).
  - replace ((vo * PGSIZE - vn * PGSIZE) / PGSIZE) with (vo - vn) by plia.
    rewrite i32_small by plia.
    destruct (uvmunmap_spec s t l U vn (vo - vn)) as (s' & l' & U' & E & V & K & L);
      [done|lia..|intros w Hw; apply Hall; plia|].
    exists s', l', U'. rewrite E. split_and!; [done..|]. intros w. rewrite L.
    repeat case_decide; try done; plia.
  - exists s, l, U. split; [done|]. split; [by apply uevolves_refl|]. split; [done|].
    intros w. rewrite decide_False; [done|lia].
Qed.

(** ** Allocating and mapping a page, as [uvmalloc] and [uvmcopy] do *)

Lemma own_kalloc t p l U b : own t (p :: l) U b <-> own t l U b \/ b = p.
Proof. unfold own, covers. rewrite elem_of_cons. tauto. Qed.

Lemma alloc_fill s t p l U fill :
  uas s t (p :: l) U -> (forall m, same_outside p m (fill m)) ->
  exists s1, kalloc s = Ok p s1 /\ uas (set_mem fill s1) t l U /\ ~ own t l U p /\
    kpage kend p /\ same_outside p (kmem s) (kmem s1).
Proof.
  intros Hu Hfill. pose proof (ua_vm _ _ _ _ Hu) as Hi.
  destruct (vm_kalloc kend kend_pos s t p l Hi) as (s1 & Ea & Hi1 & Hs & Hp & Hpl & Ht).
  assert (Hown : ~ own t l U p).
  { intros [[?|[r ?]]|(v & f & Hv)]; [done|by eapply Ht|].
    eapply (ua_sep _ _ _ _ Hu); [done|left; by left]. }
  exists s1. split_and!; try done. eapply (uas_write s1 t l U p); [|done| |apply Hfill].
  - eapply (uas_page_change s s1 t (p :: l) l U p); try done; [apply Hi1|apply Hp|].
    intros b Hb. left. by right.
  - intros Hc. apply Hown. by left.
Qed.

Lemma map_fresh s t l U p v perm :
  uas s t l U -> kpage kend p -> ~ own t l U p -> 0 <= v < UPAGES -> U !! v = None ->
  0 <= perm < 1024 -> Z.lor perm PTE_V <> PTE_V ->
  exists r s' t' l',
    mappages (pt_root t) (v * PGSIZE) PGSIZE p perm s = Ok r s' /\
    evolves kend s t l s' t' l' /\
    ((r = 0 /\ uas s' t' l' (<[v := (p, Z.lor perm PTE_V)]> U)) \/
     (r = -1 /\ l' = [] /\ uas s' t' l' U)).
Proof.
  intros Hu Hp Hown Hv Hnone Hperm HpV.
  pose proof (kpage_range kend kend_pos _ Hp) as (? & ? & ?).
  destruct (mappages_spec kend kend_pos s t l (v * PGSIZE) PGSIZE p perm)
    as (r & s' & t' & l' & k & E & Ev & M & Hr); try plia; [apply Hu| |].
  { rewrite PGROUNDDOWN_eq. intros x Hx.
    rewrite (pte_of_page _ _ _ (v * PGSIZE)) by plia. by eapply ua_none. }
  replace ((v * PGSIZE + PGSIZE - 1) / PGSIZE - v * PGSIZE / PGSIZE + 1) with 1 in Hr by plia.
  rewrite PGROUNDDOWN_eq in M. replace (v * PGSIZE / PGSIZE * PGSIZE) with (v * PGSIZE) in M by plia.
  exists r, s', t', l'. split; [done|]. split; [done|].
  destruct Hr as [[-> ->]|(-> & Hk & ->)]; [left|right]; split_and!; try done.
  - eapply uas_insert; try done; [apply lor_bound; unfold PTE_V; lia|].
    rewrite Z.land_lor_distr_l. by intros [_ Hz]%Z.lor_eq_0_iff.
  - eapply (uas_same s t l U s' t' []); [done..|]. intros va Hva. rewrite M by done.
    rewrite decide_False; [done|plia].
Qed.

Lemma own_insert t l U v p f b :
  U !! v = None -> own t l (<[v := (p, f)]> U) b <-> own t l U b \/ b = p.
Proof.
  intros Hn. unfold own. split.
  - intros [?|(w & g & [[<- [= -> ->]]|[? ?]]%lookup_insert_Some)]; [by left; left|by right|].
    left. right. eauto.
  - intros [[?|(w & g & Hw)]| ->]; [by left|right; exists w, g|right; exists v, f].
    + rewrite lookup_insert_ne; [done|congruence].
    + by rewrite lookup_insert_eq.
Qed.

Lemma fresh_page s t l U v fill perm :
  uas s t l U -> 0 <= v < UPAGES -> U !! v = None ->
  0 <= perm < 1024 -> Z.lor perm PTE_V <> PTE_V ->
  (forall p m, same_outside p m (fill p m)) ->
  (kalloc s = Ok 0 s) \/
  exists p s1 r s2 t2 l2,
    kalloc s = Ok p s1 /\ p <> 0 /\ same_outside p (kmem s) (kmem s1) /\ kpage kend p /\ p ∈ l /\
    mappages (pt_root t) (v * PGSIZE) PGSIZE p perm (set_mem (fill p) s1) = Ok r s2 /\
    ((r = 0 /\ uevolves s t l U s2 t2 l2 (<[v := (p, Z.lor perm PTE_V)]> U) /\
      keeps U (kmem s) (kmem s2) /\
      (forall x, p <= x < p + PGSIZE -> mget (kmem s2) x = mget (fill p (kmem s1)) x)) \/
     (r = -1 /\ exists s3, kfree kend p s2 = Ok tt s3 /\
      uevolves s t l U s3 t2 [p] U /\ keeps U (kmem s) (kmem s3))).
Proof.
  intros Hu Hv Hnone Hperm HpV Hfill. destruct l as [|p l].
  { left. apply (kalloc_empty kend). apply Hu. }
  right. destruct (alloc_fill s t p l U (fill p)) as (s1 & Ea & Hu1 & Hown & Hp & Hs); [done..|].
  destruct (map_fresh _ _ _ _ p v perm Hu1) as (r & s2 & t2 & l2 & E2 & Ev & Hr); try done.
  pose proof (kpage_range kend kend_pos _ Hp) as (? & ? & Hal).
  assert (Hcov : ~ covers t l p) by (intros ?; apply Hown; by left).
  assert (Hag : agree (own t (p :: l) U) (kmem s) (kmem s2)).
  { apply (agree_trans _ (covers t l) _ (kmem (set_mem (fill p) s1))).
    - apply (agree_same_outside _ p); [apply own_kalloc; by right|done|].
      intros x Hx. simpl. rewrite Hfill by done. by apply Hs.
    - exact (ev_frame _ _ _ _ _ _ _ Ev).
    - intros b Hb. apply own_kalloc. left. by left. }
  assert (Hk : keeps U (kmem s) (kmem s2)).
  { intros w pa f x Hw Hx. assert (pa <> p) as Hne by (intros ->; apply Hown; right; eauto).
    destruct (uas_page _ _ _ _ _ _ _ Hu Hw) as [Hpal _].
    rewrite (ev_frame _ _ _ _ _ _ _ Ev pa x); [|by eapply (ua_sep _ _ _ _ Hu1)|done..].
    destruct (kpage_disjoint p pa) as [Hd|Hd]; try done; simpl;
      (rewrite Hfill by lia); apply Hs; unfold PGSIZE in *; lia. }
  exists p, s1, r, s2, t2, l2. split_and!; try done; [lia|by left|].
  destruct Hr as [[-> Hu2]|(-> & -> & Hu2)]; [left|right]; split_and!; try done.
  - split; [done|apply Ev| |done]. intros b. rewrite own_insert by done.
    rewrite own_kalloc. unfold own. by rewrite (ev_covers _ _ _ _ _ _ _ Ev).
  - intros x Hx. by rewrite (ev_frame _ _ _ _ _ _ _ Ev p x).
  - assert (Hcov2 : ~ covers t2 [] p) by by rewrite (ev_covers _ _ _ _ _ _ _ Ev).
    destruct (kfree_spec kend kend_pos p s2 []) as (s3 & E3 & Hk3 & Hs3);
      [apply Hu2|done|apply not_elem_of_nil|].
    assert (Hnu : forall w f, U !! w <> Some (p, f)) by (intros w f Hw; apply Hown; right; eauto).
    exists s3. split; [done|]. split; [split|].
    + eapply (uas_page_change s2 s3 t2 [] [p] U p); try done.
      * intros r Hr. apply Hcov2. right. by exists r.
      * intros b ->%list_elem_of_singleton. by right.
      * intros w f Hw. by destruct (Hnu w f).
    + apply Ev.
    + intros b. rewrite !own_kalloc. unfold own. by rewrite (ev_covers _ _ _ _ _ _ _ Ev).
    + eapply agree_trans; [exact Hag| |].
      * apply (agree_same_outside (own t (p :: l) U) p); [apply own_kalloc; by right|done..].
      * done.
    + eapply keeps_trans; [done|exact Hk|]. intros w pa f x Hw Hx. apply Hs3.
      destruct (uas_page _ _ _ _ _ _ _ Hu Hw) as [Hpal _].
      destruct (kpage_disjoint p pa); try done; [by intros ->; eapply Hnu|unfold PGSIZE in *; lia..].
Qed.

(** ** [uvmalloc] *)

Definition uperm (xperm : Z) : Z := Z.lor (Z.lor (Z.lor PTE_R PTE_U) xperm) PTE_V.

Lemma uperm_ok xperm :
  0 <= xperm < 1024 -> 0 <= Z.lor (Z.lor PTE_R PTE_U) xperm < 1024 /\ uperm xperm <> PTE_V.
Proof.
  intros Hx. split; [apply lor_bound; [by vm_compute|done]|].
  intros Heq. apply (f_equal (fun z => Z.testbit z 1)) in Heq. unfold uperm in Heq.
  rewrite !Z.lor_spec in Heq. done.
Qed.

(** [U'] is [U] with zero-filled pages mapped at [v0 .. v1 - 1]. *)
Record grown (m : pmem) (U U' : umap) (v0 v1 f : Z) : Prop := {
  gn_new : forall x, v0 <= x < v1 -> exists p, U' !! x = Some (p, f) /\
    forall y, p <= y < p + PGSIZE -> mget m y = x00;
  gn_old : forall x, ~ (v0 <= x < v1) -> U' !! x = U !! x
}.

Lemma grown_refl m U v0 f : grown m U U v0 v0 f.
Proof. split; [lia|done]. Qed.

Lemma grown_step m m' U U' v0 w f p :
  grown m U U' v0 w f -> v0 <= w -> keeps U' m m' ->
  (forall x, p <= x < p + PGSIZE -> mget m' x = x00) ->
  grown m' U (<[w := (p, f)]> U') v0 (w + 1) f.
Proof.
  intros [Hn Ho] Hw Hk Hz. split.
  - intros x Hx. destruct (decide (x = w)) as [->|Hne].
    + exists p. by rewrite lookup_insert_eq.
    + destruct (Hn x) as (q & Hq & Hqz); [lia|]. exists q. rewrite lookup_insert_ne by done.
      split; [done|]. intros y Hy. rewrite (Hk x q f) by done. by apply Hqz.
  - intros x Hx. rewrite lookup_insert_ne by lia. apply Ho. lia.
Qed.

Lemma same_outside_mem_set p c m : same_outside p m (mem_set m p c PGSIZE).
Proof. intros x Hx. apply mget_set_out; [done|lia]. Qed.

(** Undoing the loop: everything it mapped is unmapped again. *)
Lemma uvmalloc_undo s t l U U' m v0 w f :
  uas s t l U' -> grown m U U' v0 w f -> 0 <= v0 <= w -> w <= UPAGES ->
  (forall x, v0 <= x < w -> U !! x = None) ->
  exists s' l', uvmdealloc kend (pt_root t) (w * PGSIZE) (v0 * PGSIZE) s = Ok (v0 * PGSIZE) s' /\
    uevolves s t l U' s' t l' U /\ keeps U (kmem s) (kmem s').
Proof.
  intros Hu [Hn Ho] Hv0 Hw Hnone.
  assert (Hr : forall x, PGROUNDUP (v0 * PGSIZE) <= x * PGSIZE < PGROUNDUP (w * PGSIZE) <-> v0 <= x < w).
  { intros x. rewrite !PGROUNDUP_eq by plia. plia. }
  destruct (uvmdealloc_spec s t l U' (w * PGSIZE) (v0 * PGSIZE)) as (s' & l' & U2 & E & V & K & L);
    [done|plia|plia| |].
  { intros x Hx%Hr. destruct (Hn x Hx) as (p & -> & _). done. }
  assert (U2 = U) as ->; [|by exists s', l'].
  apply map_eq. intros x. rewrite L. destruct (decide (v0 <= x < w)) as [Hd|Hd].
  - rewrite decide_True by by apply Hr. symmetry. by apply Hnone.
  - rewrite decide_False by by rewrite Hr. by apply Ho.
Qed.

Lemma uvmalloc_loop_spec U v0 v1 newsz xperm :
  0 <= xperm < 1024 -> 0 <= v0 -> v1 <= UPAGES ->
  (v1 - 1) * PGSIZE < newsz <= v1 * PGSIZE ->
  (forall x, v0 <= x < v1 -> U !! x = None) ->
  forall k s t l U1 w, uas s t l U1 -> w + Z.of_nat k = v1 -> v0 <= w ->
  grown (kmem s) U U1 v0 w (uperm xperm) ->
  exists r s' t' l' U2,
    uvmalloc_loop kend k (pt_root t) (w * PGSIZE) (v0 * PGSIZE) newsz xperm s = Ok r s' /\
    uevolves s t l U1 s' t' l' U2 /\ keeps U (kmem s) (kmem s') /\
    ((r = newsz /\ grown (kmem s') U U2 v0 v1 (uperm xperm)) \/ (r = 0 /\ U2 = U)).
Proof.
  intros Hxp Hv0 Hv1 Hnew Hnone. destruct (uperm_ok xperm Hxp) as [Hperm HpV].
  induction k as [|k IH]; intros s t l U1 w Hu Hw Hvw Hg; cbn [uvmalloc_loop].
  { assert (w = v1) as -> by lia. rewrite (proj2 (Z.leb_le _ _)) by lia.
    exists newsz, s, t, l, U1. split; [done|]. split; [by apply uevolves_refl|].
    split; [done|]. by left. }
  rewrite (proj2 (Z.leb_gt _ _)) by plia.
  assert (HU : U ⊆ U1).
  { apply map_subseteq_spec. intros x y Hx. rewrite (gn_old _ _ _ _ _ _ Hg); [done|].
    intros Hr. rewrite Hnone in Hx by lia. done. }
  assert (Hw1 : U1 !! w = None).
  { rewrite (gn_old _ _ _ _ _ _ Hg) by lia. apply Hnone. lia. }
  destruct (fresh_page s t l U1 w (fun p m => mem_set m p 0 PGSIZE) _ Hu ltac:(lia) Hw1 Hperm HpV)
    as [E0|(p & s1 & r & s2 & t2 & l2 & E0 & Hp0 & Hs1 & Hp & _ & E2 & Hr)];
    [intros; apply same_outside_mem_set|..].
  { unfold bind at 1. rewrite E0. cbn [Z.eqb].
    destruct (uvmalloc_undo s t l U U1 (kmem s) v0 w _ Hu Hg) as (s' & l' & E & V & K);
      [lia|lia|intros; apply Hnone; lia|].
    exists 0, s', t, l', U. unfold bind. rewrite E. split_and!; [done..|]. by right. }
  unfold bind at 1. rewrite E0, (proj2 (Z.eqb_neq _ _) Hp0).
  unfold bind at 1, modify at 1. unfold bind at 1. rewrite E2.
  destruct Hr as [(-> & V2 & K2 & Hz)|(-> & s3 & E3 & V3 & K3)]; cbn [istrue Z.eqb negb].
  - rewrite u64_small by plia. replace (w * PGSIZE + PGSIZE) with ((w + 1) * PGSIZE) by lia.
    destruct (IH s2 t2 l2 (<[w := (p, uperm xperm)]> U1) (w + 1))
      as (r & s' & t' & l' & U2 & E & V & K & Hr); [apply V2|lia|lia| |].
    { eapply grown_step; [done|lia|done|]. intros x Hx. rewrite Hz by done.
      rewrite mget_set by done. by rewrite decide_True. }
    rewrite (ue_root _ _ _ _ _ _ _ _ V2) in E. exists r, s', t', l', U2.
    split; [done|]. split; [by eapply uevolves_trans|]. split; [|done].
    eapply (keeps_trans U U); [done|by eapply keeps_weaken|done].
  - unfold bind at 1. rewrite E3.
    destruct (uvmalloc_undo s3 t2 [p] U U1 (kmem s) v0 w (uperm xperm)) as (s' & l' & E & V & K);
      [apply V3|done|lia|lia|intros; apply Hnone; lia|].
    rewrite (ue_root _ _ _ _ _ _ _ _ V3) in E.
    exists 0, s', t2, l', U. unfold bind. rewrite E. split; [done|].
    split; [by eapply uevolves_trans|]. split; [|by right].
    eapply (keeps_trans U U); [done|by eapply keeps_weaken|done].
Qed.

Lemma uvmalloc_spec s t l U oldsz newsz xperm :
  uas s t l U -> 0 <= xperm < 1024 -> 0 <= oldsz <= newsz -> newsz <= UPAGES * PGSIZE ->
  let v0 := PGROUNDUP oldsz / PGSIZE in
  let v1 := PGROUNDUP newsz / PGSIZE in
  (forall x, v0 <= x < v1 -> U !! x = None) ->
  exists r s' t' l' U2,
    uvmalloc kend (pt_root t) oldsz newsz xperm s = Ok r s' /\
    uevolves s t l U s' t' l' U2 /\ keeps U (kmem s) (kmem s') /\
    ((r = newsz /\ grown (kmem s') U U2 v0 v1 (uperm xperm)) \/ (r = 0 /\ U2 = U)).
Proof.
  intros Hu Hxp Hsz Hmax v0 v1. unfold uvmalloc, v0, v1. rewrite !PGROUNDUP_eq by plia.
  rewrite !Z.div_mul by done. rewrite (proj2 (Z.ltb_ge _ _)) by lia. clear v0 v1.
  set (v0 := (oldsz + PGSIZE - 1) / PGSIZE). set (v1 := (newsz + PGSIZE - 1) / PGSIZE).
  intros Hnone.
  assert (0 <= v0 <= v1 /\ v1 <= UPAGES) as (? & ?) by (subst v0 v1; plia).
  replace (Z.to_nat ((newsz - v0 * PGSIZE + PGSIZE - 1) / PGSIZE)) with (Z.to_nat (v1 - v0))
    by (f_equal; subst v0 v1; plia).
  apply (uvmalloc_loop_spec U v0 v1 newsz xperm); try done; try lia.
  - subst v1. plia.
  - by apply grown_refl.
Qed.

(** ** Two address spaces side by side *)

(** What one address space does leaves another one alone. *)
Lemma uas_other s tn l Un s' tn' l' Un' t U :
  uevolves s tn l Un s' tn' l' Un' -> uas s t l U ->
  (forall b, own t [] U b -> ~ own tn l Un b) ->
  uas s' t l' U /\ keeps U (kmem s) (kmem s').
Proof.
  intros V Hu Hd. pose proof (ua_vm _ _ _ _ Hu) as Hi.
  assert (Hnl : forall b, own t [] U b -> b ∉ l').
  { intros b Hb Hin. apply (Hd b Hb), (ue_own _ _ _ _ _ _ _ _ V). left. by left. }
  assert (Htb : forall r q, tbl t r = Some q -> own t [] U q).
  { intros r q Hq. left. right. by exists r. }
  assert (Hld : forall r q k, tbl t r = Some q -> 0 <= k < 512 ->
    load64 (kmem s') (q + 8 * k) = load64 (kmem s) (q + 8 * k)).
  { intros r q k Hq Hk. apply load64_ext. intros x Hx.
    apply (ue_frame _ _ _ _ _ _ _ _ V q); [by eapply Hd, Htb|by eapply vi_aligned|unfold PGSIZE; lia]. }
  assert (Hpte : forall va, pte_of (kmem s') t va = pte_of (kmem s) t va).
  { intros va. apply pte_of_ext; [done|]. intros q Hq. eapply Hld; [done|apply PX_range; lia]. }
  assert (Hdata : forall v pa f, U !! v = Some (pa, f) -> own t [] U pa).
  { intros v pa f Hv. right. eauto. }
  split.
  - destruct Hu as [_ H2 H3 H4 H5 H6 H7]. split; try done; try (intros; rewrite Hpte; eauto).
    + split; [apply (ue_as _ _ _ _ _ _ _ _ V)| | |apply Hi].
      * eapply pt_tables_ext; [apply Hi|]. intros r q k Hq _. by eapply Hld.
      * intros r q Hq. split; [by destruct (vi_pages _ _ _ _ Hi r q Hq)|]. eauto.
    + intros v pa f Hv [Hin|Hr]; [by eapply Hnl; [eapply Hdata|]|]. eapply H6; [done|by right].
  - eapply keeps_agree; [done|exact (ue_frame _ _ _ _ _ _ _ _ V)|]. intros v pa f Hv.
    eapply Hd, Hdata. exact Hv.
Qed.

(** ** [uvmcopy] *)

(** [U'] is [U] with copies of the pages [v0 .. v1 - 1] of [Uo] mapped, under the
    same flags. *)
Record copied (m : pmem) (Uo U U' : umap) (v0 v1 : Z) : Prop := {
  cp_new : forall x pa f, v0 <= x < v1 -> Uo !! x = Some (pa, f) ->
    exists p, U' !! x = Some (p, f) /\
      forall o, 0 <= o < PGSIZE -> mget m (p + o) = mget m (pa + o);
  cp_old : forall x, ~ (v0 <= x < v1) -> U' !! x = U !! x
}.

Lemma lor_V f : Z.land f PTE_V <> 0 -> Z.lor f PTE_V = f.
Proof.
  intros Hf. apply Z.bits_inj'. intros n Hn. rewrite Z.lor_spec.
  destruct (Z.eq_dec n 0) as [->|].
  - destruct (Z.testbit f 0) eqn:E; [done|]. destruct Hf. apply Z.bits_inj'. intros k Hk.
    rewrite Z.land_spec, Z.bits_0. destruct (Z.eq_dec k 0) as [->|]; [by rewrite E|].
    change PTE_V with (2 ^ 0). rewrite Z.pow2_bits_false by lia. by rewrite andb_false_r.
  - change PTE_V with (2 ^ 0). rewrite Z.pow2_bits_false by lia. by rewrite orb_false_r.
Qed.

Lemma copied_keeps m m' Uo U U' v0 v1 :
  copied m Uo U U' v0 v1 -> keeps U' m m' -> keeps Uo m m' -> copied m' Uo U U' v0 v1.
Proof.
  intros [Hn Ho] Hk Hko. split; [|done]. intros x pa f Hx Hx'.
  destruct (Hn x pa f Hx Hx') as (q & Hq & Hqz). exists q. split; [done|]. intros o Hoff.
  rewrite (Hk x q f), (Hko x pa f) by (done || lia). by apply Hqz.
Qed.

Lemma copied_step m m' Uo U U' w pa p f :
  copied m Uo U U' 0 w -> 0 <= w -> Uo !! w = Some (pa, f) ->
  keeps U' m m' -> keeps Uo m m' ->
  (forall o, 0 <= o < PGSIZE -> mget m' (p + o) = mget m' (pa + o)) ->
  copied m' Uo U (<[w := (p, f)]> U') 0 (w + 1).
Proof.
  intros Hc Hw Hold Hk Hko Hz.
  destruct (copied_keeps _ _ _ _ _ _ _ Hc Hk Hko) as [Hn Ho]. split.
  - intros x pa' f' Hx Hx'. destruct (decide (x = w)) as [->|Hne].
    + exists p. rewrite lookup_insert_eq. assert (pa' = pa /\ f' = f) as [-> ->] by (split; congruence).
      done.
    + rewrite lookup_insert_ne by done. apply Hn; [lia|done].
  - intros x Hx. rewrite lookup_insert_ne by lia. apply Ho. lia.
Qed.

Lemma walk_mapped s t l U v pa f :
  uas s t l U -> U !! v = Some (pa, f) ->
  exists pte, walk (pt_root t) (v * PGSIZE) false s = Ok pte s /\ pte <> 0 /\
    load64 (kmem s) pte = mkpte pa f.
Proof.
  intros Hu Hv. pose proof (ua_vm _ _ _ _ Hu) as Hi.
  destruct (ua_ok _ _ _ _ Hu _ _ _ Hv) as (Hvr & _).
  destruct (uas_page _ _ _ _ _ _ _ Hu Hv) as [Hal Hpr].
  pose proof (ua_pte _ _ _ _ Hu _ _ _ Hv) as Hpte. unfold pte_of in Hpte.
  rewrite (walk_lookup kend kend_pos s t l) by (done || plia).
  destruct (tbl t _) as [p0|] eqn:Hp0.
  - eexists. split; [done|]. split; [|done].
    destruct (vi_pages _ _ _ _ Hi _ _ Hp0) as [Hk0 _].
    destruct (kpage_range kend kend_pos _ Hk0) as (? & _).
    pose proof (PX_range 0 (v * PGSIZE) ltac:(lia)). lia.
  - destruct (ua_ok _ _ _ _ Hu _ _ _ Hv) as (_ & _ & Hf & _).
    unfold mkpte in Hpte. unfold PGSIZE in *. exfalso. dlia.
Qed.

Lemma own_nil t l U b : own t [] U b -> own t l U b.
Proof. unfold own, covers. rewrite elem_of_nil. tauto. Qed.

Lemma uvmcopy_loop_spec to Uo Un sz v1 :
  (v1 - 1) * PGSIZE < sz <= v1 * PGSIZE -> v1 <= UPAGES ->
  (forall x, 0 <= x < v1 -> is_Some (Uo !! x)) -> (forall x, 0 <= x < v1 -> Un !! x = None) ->
  forall k s t l U1 w, uas s to l Uo -> uas s t l U1 ->
  (forall b, own to [] Uo b -> ~ own t l U1 b) ->
  w + Z.of_nat k = v1 -> 0 <= w -> copied (kmem s) Uo Un U1 0 w ->
  exists r s' t' l' U2 w',
    uvmcopy_loop kend k (pt_root to) (pt_root t) (w * PGSIZE) sz s = Ok r s' /\
    uevolves s t l U1 s' t' l' U2 /\ keeps Un (kmem s) (kmem s') /\
    ((r = None /\ w' = v1) \/ (r = Some (w' * PGSIZE) /\ 0 <= w' < v1)) /\
    copied (kmem s') Uo Un U2 0 w'.
Proof.
  intros Hsz Hv1 Hold Hnone.
  induction k as [|k IH]; intros s t l U1 w Huo Hu Hd Hw Hw0 Hc; cbn [uvmcopy_loop].
  { assert (w = v1) as -> by lia. rewrite (proj2 (Z.leb_le _ _)) by lia.
    exists None, s, t, l, U1, v1. split; [done|]. split; [by apply uevolves_refl|].
    split; [done|]. split; [by left|done]. }
  rewrite (proj2 (Z.leb_gt _ _)) by plia.
  destruct (Hold w) as [[pa f] Hpa]; [lia|].
  destruct (walk_mapped _ _ _ _ _ _ _ Huo Hpa) as (pte & Ew & Hp0 & Hld).
  destruct (ua_ok _ _ _ _ Huo _ _ _ Hpa) as (_ & Hkpa & Hf & HfV & HfnV).
  destruct (uas_page _ _ _ _ _ _ _ Huo Hpa) as [Hal Hpr].
  unfold bind at 1. rewrite Ew, (proj2 (Z.eqb_neq _ _) Hp0). unfold bind at 1, gets at 1.
  rewrite Hld, land_mkpte by (done || unfold PTE_V; lia).
  rewrite (proj2 (Z.eqb_neq _ _) HfV), PTE2PA_mkpte, PTE_FLAGS_mkpte by (done || lia). cbv zeta.
  assert (HU : Un ⊆ U1).
  { apply map_subseteq_spec. intros x y Hx. rewrite (cp_old _ _ _ _ _ _ Hc); [done|].
    intros Hr. rewrite Hnone in Hx by lia. done. }
  assert (Hw1 : U1 !! w = None).
  { rewrite (cp_old _ _ _ _ _ _ Hc) by lia. apply Hnone. lia. }
  destruct (fresh_page s t l U1 w (fun p m => mem_copy m p pa PGSIZE) f Hu ltac:(lia) Hw1 Hf)
    as [E0|(p & s1 & r & s2 & t2 & l2 & E0 & Hpn0 & Hs1 & Hp & Hpl & E2 & Hr)];
    [by rewrite lor_V|intros q m x Hx; apply mget_copy_out; [done|lia]|..].
  { unfold bind at 1. rewrite E0. cbn [Z.eqb]. exists (Some (w * PGSIZE)), s, t, l, U1, w.
    split; [done|]. split; [by apply uevolves_refl|]. split; [done|]. split; [right|done].
    split; [done|lia]. }
  unfold bind at 1. rewrite E0, (proj2 (Z.eqb_neq _ _) Hpn0).
  unfold bind at 1, modify at 1. unfold bind at 1. rewrite E2.
  rewrite lor_V in Hr by done.
  destruct Hr as [(-> & V2 & K2 & Hz)|(-> & s3 & E3 & V3 & K3)]; cbn [istrue Z.eqb negb].
  - destruct (uas_other _ _ _ _ _ _ _ _ to Uo V2 Huo Hd) as [Huo2 Ko2].
    destruct (IH s2 t2 l2 (<[w := (p, f)]> U1) (w + 1))
      as (r & s' & t' & l' & U2 & w' & E & V & K & Hr & Hc2); try done.
    + apply V2.
    + intros b Hb Hn. by apply (Hd b Hb), (ue_own _ _ _ _ _ _ _ _ V2).
    + lia.
    + lia.
    + eapply copied_step; [done..|]. intros o Ho. rewrite Hz, mget_copy_in by lia.
      rewrite (Ko2 w pa f) by (done || lia). replace (pa + (p + o - p)) with (pa + o) by lia.
      apply Hs1. assert (p <> pa) as Hne.
      { intros ->. apply (ua_sep _ _ _ _ Huo w pa f Hpa). by left. }
      pose proof (kpage_range kend kend_pos _ Hp) as (_ & _ & ?).
      destruct (kpage_disjoint p pa); try done; unfold PGSIZE in *; lia.
    + rewrite (ue_root _ _ _ _ _ _ _ _ V2) in E.
      replace (w * PGSIZE + PGSIZE) with ((w + 1) * PGSIZE) by lia.
      exists r, s', t', l', U2, w'. split; [done|]. split; [by eapply uevolves_trans|].
      split; [|done]. eapply (keeps_trans Un Un); [done|by eapply keeps_weaken|done].
  - unfold bind at 1. rewrite E3. destruct (uas_other _ _ _ _ _ _ _ _ to Uo V3 Huo Hd) as [_ Ko3].
    exists (Some (w * PGSIZE)), s3, t2, [p], U1, w. split; [done|]. split; [done|].
    split; [by eapply keeps_weaken|]. split; [right; split; [done|lia]|].
    by eapply copied_keeps.
Qed.

Lemma uvmcopy_spec s to Uo t l U sz :
  uas s to l Uo -> uas s t l U -> (forall b, own to [] Uo b -> ~ own t l U b) ->
  0 <= sz <= UPAGES * PGSIZE ->
  let v1 := PGROUNDUP sz / PGSIZE in
  (forall x, 0 <= x < v1 -> is_Some (Uo !! x)) -> (forall x, 0 <= x < v1 -> U !! x = None) ->
  exists r s' t' l' U2,
    uvmcopy kend (pt_root to) (pt_root t) sz s = Ok r s' /\
    uevolves s t l U s' t' l' U2 /\ keeps U (kmem s) (kmem s') /\
    uas s' to l' Uo /\ keeps Uo (kmem s) (kmem s') /\
    ((r = 0 /\ copied (kmem s') Uo U U2 0 v1) \/ (r = -1 /\ U2 = U)).
Proof.
  intros Huo Hu Hd Hsz v1. subst v1. rewrite PGROUNDUP_eq, Z.div_mul by plia.
  set (v1 := (sz + PGSIZE - 1) / PGSIZE). intros Hold Hnone. unfold uvmcopy. fold v1.
  assert (0 <= v1 <= UPAGES) by (subst v1; plia).
  destruct (uvmcopy_loop_spec to Uo U sz v1) with (k := Z.to_nat v1) (s := s) (t := t) (l := l)
    (U1 := U) (w := 0) as (r & s' & t' & l' & U2 & w' & E & V & K & Hr & Hc); try done; try lia.
  { subst v1. plia. }
  { split; [lia|done]. }
  unfold bind. rewrite Z.mul_0_l in E. rewrite E. destruct Hr as [[-> ->]|[-> Hw']].
  - destruct (uas_other _ _ _ _ _ _ _ _ to Uo V Huo Hd) as [Huo' Ko].
    exists 0, s', t', l', U2. split_and!; try done. by left.
  - rewrite Z.div_mul by done.
    destruct (uvmunmap_spec s' t' l' U2 0 w') as (s2 & l2 & U3 & E3 & V3 & K3 & L3);
      [apply V|lia..| |].
    { intros x Hx. destruct (Hold x) as [[pa f] Hx']; [lia|].
      destruct (cp_new _ _ _ _ _ _ Hc x pa f Hx Hx') as (q & -> & _). done. }
    rewrite Z.mul_0_l, (ue_root _ _ _ _ _ _ _ _ V) in E3. rewrite E3.
    assert (U3 = U) as ->.
    { apply map_eq. intros x. rewrite L3. case_decide; [symmetry; apply Hnone; lia|].
      apply (cp_old _ _ _ _ _ _ Hc). lia. }
    pose proof (uevolves_trans _ _ _ _ _ _ _ _ _ _ _ _ V V3) as V4.
    destruct (uas_other _ _ _ _ _ _ _ _ to Uo V4 Huo Hd) as [Huo' Ko].
    exists (-1), s2, t', l2, U. split_and!; try done; [by eapply (keeps_trans U U)|by right].
Qed.

(** ** [uvmcreate] *)

Definition empty_tree (p : Z) : ptree := mkPtree p ∅ ∅.

Lemma uvmcreate_spec s p l :
  krep kend s (p :: l) ->
  exists s', uvmcreate s = Ok p s' /\ uas s' (empty_tree p) l ∅ /\
    same_outside p (kmem s) (kmem s').
Proof.
  intros Hk. destruct (kalloc_cons kend s p l Hk) as (s1 & E & Hk1 & Hs).
  pose proof Hk as (_ & Hnd & Hkp). apply NoDup_cons in Hnd as [Hn _]. apply Forall_cons in Hkp as [Hp _].
  pose proof (kpage_range kend kend_pos _ Hp) as (? & ? & Hal).
  unfold uvmcreate, bind. rewrite E, (proj2 (Z.eqb_neq _ _)) by lia.
  eexists. split; [done|].
  assert (Hs2 : same_outside p (kmem s) (kmem (set_mem (fun m => mem_set m p 0 PGSIZE) s1))).
  { intros x Hx. simpl. rewrite same_outside_mem_set by done. by apply Hs. }
  split; [|done].
  assert (Ht : forall r q, tbl (empty_tree p) r = Some q -> r = Root /\ q = p).
  { intros [|i|i j] q; cbn [tbl empty_tree pt_root pt_l1 pt_l0];
      [by intros [= <-]|rewrite lookup_empty; done..]. }
  assert (Hpte : forall m va, pte_of m (empty_tree p) va = 0).
  { intros m va. unfold pte_of, tbl, empty_tree. cbn [pt_l0]. by rewrite lookup_empty. }
  split.
  - split.
    + destruct Hk1 as (Hc & ? & ?). split_and!; [|done..]. simpl.
      eapply kpage_set_mem_chain; [done..|]. apply same_outside_mem_set.
    + split.
      * intros i Hi. cbn [empty_tree pt_root pt_l1]. rewrite lookup_empty. unfold points_to. simpl.
        rewrite load_set64_zero; [done|unfold PGSIZE; lia..].
      * intros i q j. cbn [empty_tree pt_l1]. by rewrite lookup_empty.
      * intros i j q. cbn [empty_tree pt_l0]. by rewrite lookup_empty.
    + intros r q [-> ->]%Ht. done.
    + intros r r' q [-> _]%Ht [-> _]%Ht. done.
  - intros v pa f. by rewrite lookup_empty.
  - intros v pa f. by rewrite lookup_empty.
  - intros v _ _. by rewrite Hpte.
  - intros v _. left. by rewrite Hpte.
  - intros v pa f. by rewrite lookup_empty.
  - intros v v' pa f f'. by rewrite lookup_empty.
Qed.
End uvm.
