(* ===== verification/Ucopy.v ===== *)
(** * Copies between kernel and user memory ([kernel/vm.c])

    [copyin], [copyinstr] and [copyout] against the bytes that the address
    space of [Uvm] gives to a process, page boundaries and bad addresses
    included. *)

From S2P Require Import Prelude Mem Kalloc Vm VmMap Uvm.

(** The byte a process sees at a virtual address, [None] where it may not
    look. *)
Definition ubyte (m : pmem) (U : umap) (va : Z) : option byte :=
  match U !! (va / PGSIZE) with
  | Some (pa, f) => if Z.land f PTE_U =? 0 then None else Some (mget m (pa + va mod PGSIZE))
  | None => None
  end.

(** [n] user bytes from [va]. *)
Fixpoint uread (m : pmem) (U : umap) (va : Z) (n : nat) : option (list byte) :=
  match n with
  | O => Some []
  | S n => b ← ubyte m U va; cons b <$> uread m U (va + 1) n
  end.

(** The NUL-terminated user string at [va], NUL included, if the NUL is within
    the first [n] bytes. *)
Fixpoint ustr (m : pmem) (U : umap) (va : Z) (n : nat) : option (list byte) :=
  match n with
  | O => None
  | S n =>
      b ← ubyte m U va;
      if bool_decide (b = x00) then Some [x00] else cons b <$> ustr m U (va + 1) n
  end.

(** The physical address of a user page, 0 when the process may not use it. *)
Definition upage (U : umap) (v : Z) : Z :=
  match U !! v with
  | Some (pa, f) => if Z.land f PTE_U =? 0 then 0 else pa
  | None => 0
  end.

Lemma ubyte_upage m U va :
  (forall v pa f, U !! v = Some (pa, f) -> pa <> 0) ->
  ubyte m U va = if upage U (va / PGSIZE) =? 0 then None
                 else Some (mget m (upage U (va / PGSIZE) + va mod PGSIZE)).
Proof.
  intros Hnz. unfold ubyte, upage. destruct (U !! _) as [[pa f]|] eqn:E; [|done].
  destruct (Z.land f PTE_U =? 0); [done|].
  by rewrite (proj2 (Z.eqb_neq _ _) (Hnz _ _ _ E)).
Qed.

Section ucopy.
Variable kend : Z.
Hypothesis kend_pos : 0 < kend.

Lemma walkaddr_spec s t l U va :
  uas kend s t l U -> 0 <= va ->
  walkaddr (pt_root t) va s = Ok (upage U (va / PGSIZE)) s.
Proof.
  intros Hu Hva. unfold walkaddr, upage. pose proof (ua_vm _ _ _ _ _ Hu) as Hi.
  destruct (U !! (va / PGSIZE)) as [[pa f]|] eqn:E.
  all: destruct (Z.leb_spec MAXVA va) as [Hm|Hm].
  - destruct (ua_ok _ _ _ _ _ Hu _ _ _ E) as (? & _). plia.
  - destruct (ua_ok _ _ _ _ _ Hu _ _ _ E) as (? & _ & Hf & HfV & _).
    destruct (uas_page kend kend_pos _ _ _ _ _ _ _ Hu E) as [Hal Hpr].
    pose proof (ua_pte _ _ _ _ _ Hu _ _ _ E) as Hpte.
    rewrite (pte_of_page _ _ _ va) in Hpte by plia.
    unfold bind, gets. rewrite (walk_lookup kend kend_pos s t l) by done.
    unfold pte_of in Hpte. destruct (tbl t _) as [p0|] eqn:Hp0.
    2:{ unfold mkpte in Hpte. unfold PGSIZE in *. exfalso. dlia. }
    destruct (vi_pages _ _ _ _ Hi _ _ Hp0) as [Hk0 _].
    destruct (kpage_range kend kend_pos _ Hk0) as (? & _).
    pose proof (PX_range 0 va ltac:(lia)). rewrite (proj2 (Z.eqb_neq _ _)) by lia.
    rewrite Hpte, !land_mkpte by (done || unfold PTE_V, PTE_U; lia).
    rewrite (proj2 (Z.eqb_neq _ _) HfV), PTE2PA_mkpte by (done || lia).
    by destruct (Z.land f PTE_U =? 0).
  - done.
  - unfold bind, gets. rewrite (walk_lookup kend kend_pos s t l) by done.
    destruct (tbl t _) as [p0|] eqn:Hp0; [|done].
    case_if; [done|].
    assert (Hor : Z.land (pte_of (kmem s) t va) PTE_V = 0 \/ Z.land (pte_of (kmem s) t va) PTE_U = 0).
    { rewrite (pte_of_page _ _ va (va / PGSIZE * PGSIZE)) by plia.
      destruct (decide (va / PGSIZE < UPAGES)).
      - left. apply (ua_none _ _ _ _ _ Hu); [plia|done].
      - apply (ua_high _ _ _ _ _ Hu). plia. }
    unfold pte_of in Hor. rewrite Hp0 in Hor. destruct Hor as [-> | ->]; [done|].
    by case_if.
Qed.

Lemma uas_nz s t l U v pa f : uas kend s t l U -> U !! v = Some (pa, f) -> pa <> 0.
Proof. intros Hu Hv. destruct (uas_page kend kend_pos _ _ _ _ _ _ _ Hu Hv). lia. Qed.

Lemma upage_user s t l U v :
  uas kend s t l U -> upage U v <> 0 ->
  exists f, U !! v = Some (upage U v, f) /\ 0 <= v < UPAGES.
Proof.
  intros Hu Hn. unfold upage in *. destruct (U !! v) as [[pa f]|] eqn:E; [|done].
  destruct (Z.land f PTE_U =? 0); [done|]. exists f. split; [done|].
  by destruct (ua_ok _ _ _ _ _ Hu _ _ _ E).
Qed.

(** ** Reading *)

Lemma uread_app m U n k : forall va,
  uread m U va (n + k) =
    bs ← uread m U va n; app bs <$> uread m U (va + Z.of_nat n) k.
Proof.
  induction n as [|n IH]; intros va.
  - simpl. rewrite Z.add_0_r. by destruct (uread m U va k).
  - cbn [uread Nat.add]. destruct (ubyte m U va) as [b|]; simpl; [|done].
    rewrite IH. destruct (uread m U (va + 1) n) as [bs|]; simpl; [|done].
    replace (va + 1 + Z.of_nat n) with (va + Z.pos (Pos.of_succ_nat n)) by lia.
    by destruct (uread m U _ k).
Qed.

Lemma uread_page m U n : forall va,
  (forall v pa f, U !! v = Some (pa, f) -> pa <> 0) ->
  upage U (va / PGSIZE) <> 0 -> va mod PGSIZE + Z.of_nat n <= PGSIZE ->
  uread m U va n = Some (mread m (upage U (va / PGSIZE) + va mod PGSIZE) n).
Proof.
  induction n as [|n IH]; intros va Hnz Hp Hn; [done|]. cbn [uread].
  rewrite ubyte_upage, (proj2 (Z.eqb_neq _ _) Hp) by done. simpl.
  destruct n as [|n]; [done|].
  assert ((va + 1) / PGSIZE = va / PGSIZE) as E1 by plia.
  assert ((va + 1) mod PGSIZE = va mod PGSIZE + 1) as E2 by plia.
  rewrite IH; [|done|congruence|lia]. rewrite E1, E2, Z.add_assoc. done.
Qed.

Lemma uread_none m U va n :
  (forall v pa f, U !! v = Some (pa, f) -> pa <> 0) ->
  upage U (va / PGSIZE) = 0 -> (0 < n)%nat -> uread m U va n = None.
Proof.
  intros Hnz Hp Hn. destruct n; [lia|]. cbn [uread]. by rewrite ubyte_upage, Hp by done.
Qed.

Lemma copyin_loop_spec s t l U : uas kend s t l U -> forall fuel va len,
  0 <= va -> 0 <= len <= Z.of_nat fuel ->
  copyin_loop fuel (pt_root t) va len s = Ok (uread (kmem s) U va (Z.to_nat len)) s.
Proof.
  intros Hu. pose proof (fun v pa f => uas_nz s t l U v pa f Hu) as Hnz.
  induction fuel as [|fuel IH]; intros va len Hva Hlen; cbn [copyin_loop].
  { assert (len = 0) as -> by lia. done. }
  destruct (Z.leb_spec len 0).
  { assert (len = 0) as -> by lia. done. }
  rewrite PGROUNDDOWN_eq. unfold bind at 1.
  rewrite (walkaddr_spec s t l U) by (done || plia).
  replace (va / PGSIZE * PGSIZE / PGSIZE) with (va / PGSIZE) by plia.
  destruct (Z.eqb_spec (upage U (va / PGSIZE)) 0) as [Hz|Hz].
  { by rewrite uread_none by (done || lia). }
  destruct (upage_user _ _ _ _ _ Hu Hz) as (f & Hf & Hv).
  replace (va - va / PGSIZE * PGSIZE) with (va mod PGSIZE) by plia. cbv zeta.
  set (n := if len <? PGSIZE - va mod PGSIZE then len else PGSIZE - va mod PGSIZE).
  assert (1 <= n <= len /\ va mod PGSIZE + n <= PGSIZE) as (Hn & Hnp).
  { subst n. destruct (Z.ltb_spec len (PGSIZE - va mod PGSIZE)); plia. }
  unfold bind at 1, gets at 1. unfold bind at 1.
  replace (Z.to_nat len) with (Z.to_nat n + Z.to_nat (len - n))%nat by lia.
  rewrite uread_app, (uread_page _ _ _ va) by (done || lia). simpl. rewrite Z2Nat.id by lia.
  rewrite u64_small by plia.
  destruct (decide (len = n)) as [<-|Hne].
  { rewrite Z.sub_diag. destruct fuel; simpl; done. }
  assert (va / PGSIZE * PGSIZE + PGSIZE = va + n) as ->.
  { subst n. destruct (Z.ltb_spec len (PGSIZE - va mod PGSIZE)); plia. }
  by rewrite IH by plia.
Qed.

Lemma copyin_spec s t l U va len :
  uas kend s t l U -> 0 <= va -> 0 <= len ->
  copyin (pt_root t) va len s = Ok (uread (kmem s) U va (Z.to_nat len)) s.
Proof. intros. eapply copyin_loop_spec; [done|lia..]. Qed.

Lemma ustr_app m U n k : forall va bs,
  uread m U va n = Some bs ->
  ustr m U va (n + k) =
    let r := copy_until_nul bs in
    if r.2 then Some r.1 else app r.1 <$> ustr m U (va + Z.of_nat n) k.
Proof.
  induction n as [|n IH]; intros va bs; cbn [uread ustr Nat.add].
  - intros [= <-]. cbn. rewrite Z.add_0_r. by destruct (ustr m U va k).
  - destruct (ubyte m U va) as [b|]; [|done]. cbn [mbind option_bind].
    destruct (uread m U (va + 1) n) as [bs'|] eqn:E; [|done]. intros [= <-].
    cbn [copy_until_nul]. case_bool_decide; [done|]. rewrite (IH _ _ E). cbv zeta. cbn [fst snd].
    destruct (copy_until_nul bs').2; [done|].
    replace (va + 1 + Z.of_nat n) with (va + Z.of_nat (S n)) by lia.
    by destruct (ustr m U (va + Z.of_nat (S n)) k).
Qed.

Lemma copyinstr_loop_spec s t l U : uas kend s t l U -> forall fuel va max,
  0 <= va -> 0 <= max <= Z.of_nat fuel ->
  copyinstr_loop fuel (pt_root t) va max s = Ok (ustr (kmem s) U va (Z.to_nat max)) s.
Proof.
  intros Hu. pose proof (fun v pa f => uas_nz s t l U v pa f Hu) as Hnz.
  induction fuel as [|fuel IH]; intros va max Hva Hmax; cbn [copyinstr_loop].
  { assert (max = 0) as -> by lia. done. }
  destruct (Z.leb_spec max 0).
  { assert (max = 0) as -> by lia. done. }
  rewrite PGROUNDDOWN_eq. unfold bind at 1.
  rewrite (walkaddr_spec s t l U) by (done || plia).
  replace (va / PGSIZE * PGSIZE / PGSIZE) with (va / PGSIZE) by plia.
  destruct (Z.eqb_spec (upage U (va / PGSIZE)) 0) as [Hz|Hz].
  { destruct (Z.to_nat max) eqn:E; [lia|]. cbn [ustr]. by rewrite ubyte_upage, Hz by done. }
  destruct (upage_user _ _ _ _ _ Hu Hz) as (f & Hf & Hv).
  replace (va - va / PGSIZE * PGSIZE) with (va mod PGSIZE) by plia. cbv zeta.
  set (n := if max <? PGSIZE - va mod PGSIZE then max else PGSIZE - va mod PGSIZE).
  assert (1 <= n <= max /\ va mod PGSIZE + n <= PGSIZE) as (Hn & Hnp).
  { subst n. destruct (Z.ltb_spec max (PGSIZE - va mod PGSIZE)); plia. }
  unfold bind at 1, gets at 1.
  replace (Z.to_nat max) with (Z.to_nat n + Z.to_nat (max - n))%nat by lia.
  erewrite ustr_app by (apply uread_page; [done|done|lia]). cbv zeta. rewrite Z2Nat.id by lia.
  case_match; [done|]. unfold bind. rewrite u64_small by plia.
  destruct (decide (max = n)) as [Hmn|Hne].
  { replace (max - n) with 0 by lia. by destruct fuel. }
  assert (va / PGSIZE * PGSIZE + PGSIZE = va + n) as ->.
  { subst n. destruct (Z.ltb_spec max (PGSIZE - va mod PGSIZE)); plia. }
  by rewrite IH by plia.
Qed.

Lemma copyinstr_spec s t l U va max :
  uas kend s t l U -> 0 <= va -> 0 <= max ->
  copyinstr (pt_root t) va max s = Ok (ustr (kmem s) U va (Z.to_nat max)) s.
Proof. intros. eapply copyinstr_loop_spec; [done|lia..]. Qed.

(** ** Writing *)

(** Writing within one page: only the bytes written change, in every user page. *)
Lemma write_user s t l U va pa f bs :
  uas kend s t l U -> U !! (va / PGSIZE) = Some (pa, f) -> Z.land f PTE_U <> 0 ->
  va mod PGSIZE + Z.of_nat (length bs) <= PGSIZE ->
  let s' := set_mem (fun m => mwrite m (pa + va mod PGSIZE) bs) s in
  uevolves kend s t l U s' t l U /\
  forall x, ubyte (kmem s') U x =
    if decide (va <= x < va + Z.of_nat (length bs)) then bs !! Z.to_nat (x - va)
    else ubyte (kmem s) U x.
Proof.
  intros Hu Hv HfU Hlen s'. destruct (uas_page kend kend_pos _ _ _ _ _ _ _ Hu Hv) as [Hal Hpr].
  destruct (ua_ok _ _ _ _ _ Hu _ _ _ Hv) as (Hvr & Hkp & _).
  assert (Hs : same_outside pa (kmem s) (kmem s')).
  { intros x Hx. apply mget_mwrite_out. plia. }
  split.
  - split; try done.
    + apply (uas_write kend s t l U pa); try done. by eapply ua_sep.
    + apply (agree_same_outside (own t l U) pa); [|done|exact Hs]. right. eauto.
  - intros x. unfold ubyte. destruct (decide (x / PGSIZE = va / PGSIZE)) as [Hd|Hne].
    + rewrite Hd, Hv, (proj2 (Z.eqb_neq _ _) HfU). simpl. rewrite mget_mwrite.
      repeat case_decide; try plia; [|done].
      replace (pa + x mod PGSIZE - (pa + va mod PGSIZE)) with (x - va) by plia.
      destruct (lookup_lt_is_Some_2 bs (Z.to_nat (x - va))) as [b Hb]; [lia|]. by rewrite Hb.
    + rewrite decide_False by plia. destruct (U !! (x / PGSIZE)) as [[pa' g]|] eqn:E; [|done].
      rewrite Hs; [done|]. destruct (uas_page kend kend_pos _ _ _ _ _ _ _ Hu E) as [Hal' _].
      destruct (kpage_disjoint pa pa') as [?|?]; [done..| |plia|plia].
      intros ->. by apply Hne, (ua_inj _ _ _ _ _ Hu _ _ _ _ _ E Hv).
Qed.

(** The first [k] bytes of [src] are at [va]; every other user byte is as
    before. *)
Definition uwritten (m m' : pmem) (U : umap) (va : Z) (src : list byte) (k : Z) : Prop :=
  forall x, ubyte m' U x =
    if decide (va <= x < va + k) then src !! Z.to_nat (x - va) else ubyte m U x.

(** What was written reads back. *)
Lemma uread_uwritten m m' U va src :
  uwritten m m' U va src (Z.of_nat (length src)) ->
  uread m' U va (length src) = Some src.
Proof.
  intros W. assert (Hb : forall i b, src !! i = Some b -> ubyte m' U (va + Z.of_nat i) = Some b).
  { intros i b Hi. rewrite W. pose proof (lookup_lt_Some _ _ _ Hi).
    rewrite decide_True by lia. by replace (Z.to_nat (va + Z.of_nat i - va)) with i by lia. }
  clear W. revert va Hb. induction src as [|b src IH]; intros va Hb; [done|].
  cbn [length uread]. pose proof (Hb 0%nat b eq_refl) as H0. rewrite Z.add_0_r in H0. rewrite H0.
  cbn [mbind option_bind]. rewrite IH; [done|]. intros i b' Hi. rewrite <- (Hb (S i) b' Hi).
  f_equal. lia.
Qed.

Lemma uwritten_app m m1 m2 U va va1 src n r k :
  va1 = va + n \/ n = Z.of_nat (length src) -> 1 <= n <= Z.of_nat (length src) ->
  (forall x, ubyte m1 U x =
    if decide (va <= x < va + n) then take (Z.to_nat n) src !! Z.to_nat (x - va) else ubyte m U x) ->
  uwritten m1 m2 U va1 (drop (Z.to_nat n) src) k ->
  ((r = 0 /\ k = Z.of_nat (length src - Z.to_nat n)) \/
   (r = -1 /\ 0 <= k < Z.of_nat (length src - Z.to_nat n) /\ ubyte m1 U (va1 + k) = None)) ->
  uwritten m m2 U va src (n + k) /\
  ((r = 0 /\ n + k = Z.of_nat (length src)) \/
   (r = -1 /\ 0 <= n + k < Z.of_nat (length src) /\ ubyte m U (va + (n + k)) = None)).
Proof.
  intros Hn Hr W1 W2 Hres. split.
  - intros x. rewrite W2, W1. destruct (decide (va + n <= x < va + (n + k))).
    + assert (va1 = va + n) as -> by lia. rewrite !decide_True by lia. rewrite lookup_drop.
      f_equal. lia.
    + rewrite (decide_False (P := va1 <= x < va1 + k)) by lia. repeat case_decide; try lia; [|done].
      by rewrite lookup_take_lt by lia.
  - destruct Hres as [[-> ->]|(-> & Hk & Hu)]; [left; lia|right].
    split; [done|]. split; [lia|]. assert (va1 = va + n) as -> by lia.
    rewrite W1, decide_False in Hu by lia. by rewrite Z.add_assoc.
Qed.

Lemma copyout_loop_spec t l U : forall fuel s va src,
  uas kend s t l U -> 0 <= va -> (length src <= fuel)%nat ->
  exists r s' k, copyout_loop fuel (pt_root t) va src s = Ok r s' /\
    uevolves kend s t l U s' t l U /\ uwritten (kmem s) (kmem s') U va src k /\
    ((r = 0 /\ k = Z.of_nat (length src)) \/
     (r = -1 /\ 0 <= k < Z.of_nat (length src) /\ ubyte (kmem s) U (va + k) = None)).
Proof.
  induction fuel as [|fuel IH]; intros s va src Hu Hva Hlen.
  { destruct src; [|simpl in Hlen; lia]. exists 0, s, 0. split; [done|].
    split; [by apply uevolves_refl|]. split; [intros x; by rewrite decide_False by lia|by left]. }
  cbn [copyout_loop]. destruct src as [|b0 src0] eqn:Esrc.
  { exists 0, s, 0. split; [done|].
    split; [by apply uevolves_refl|]. split; [intros x; by rewrite decide_False by lia|by left]. }
  rewrite <- Esrc in *. assert (0 < length src)%nat as Hpos by (subst; simpl; lia). clear Esrc b0 src0.
  pose proof (fun v pa f => uas_nz s t l U v pa f Hu) as Hnz.
  rewrite PGROUNDDOWN_eq. unfold bind at 1.
  rewrite (walkaddr_spec s t l U) by (done || plia).
  replace (va / PGSIZE * PGSIZE / PGSIZE) with (va / PGSIZE) by plia.
  destruct (Z.eqb_spec (upage U (va / PGSIZE)) 0) as [Hz|Hz].
  { exists (-1), s, 0. split; [done|]. split; [by apply uevolves_refl|].
    split; [intros x; by rewrite decide_False by lia|]. right. split_and!; [done|lia|lia|].
    by rewrite Z.add_0_r, ubyte_upage, Hz. }
  destruct (upage_user _ _ _ _ _ Hu Hz) as (f & Hf & Hv).
  assert (HfU : Z.land f PTE_U <> 0).
  { intros Hfz. unfold upage in Hz. rewrite Hf, Hfz in Hz. done. }
  replace (va - va / PGSIZE * PGSIZE) with (va mod PGSIZE) by plia. cbv zeta.
  set (n := if _ <? _ then _ else _).
  assert (1 <= n <= Z.of_nat (length src) /\ va mod PGSIZE + n <= PGSIZE) as (Hn & Hnp).
  { subst n. destruct (Z.ltb_spec (Z.of_nat (length src)) (PGSIZE - va mod PGSIZE)); plia. }
  unfold bind at 1, modify at 1. rewrite u64_small by plia.
  destruct (write_user s t l U va _ f (take (Z.to_nat n) src) Hu Hf HfU) as [V1 W1].
  { rewrite length_take. lia. }
  rewrite length_take_le, Z2Nat.id in W1 by lia. set (s1 := set_mem _ s) in *.
  assert (Hnext : va / PGSIZE * PGSIZE + PGSIZE = va + n \/ n = Z.of_nat (length src)).
  { subst n. destruct (Z.ltb_spec (Z.of_nat (length src)) (PGSIZE - va mod PGSIZE)); plia. }
  destruct (IH s1 (va / PGSIZE * PGSIZE + PGSIZE) (drop (Z.to_nat n) src))
    as (r & s' & k & E & V & W & Hr); [apply V1|plia|rewrite length_drop; lia|].
  rewrite length_drop in Hr. exists r, s', (n + k). split; [done|].
  split; [by eapply uevolves_trans|]. by eapply (uwritten_app _ (kmem s1)).
Qed.

Lemma copyout_spec s t l U va src :
  uas kend s t l U -> 0 <= va ->
  exists r s' k, copyout (pt_root t) va src s = Ok r s' /\
    uevolves kend s t l U s' t l U /\ uwritten (kmem s) (kmem s') U va src k /\
    ((r = 0 /\ k = Z.of_nat (length src)) \/
     (r = -1 /\ 0 <= k < Z.of_nat (length src) /\ ubyte (kmem s) U (va + k) = None)).
Proof. intros. by apply copyout_loop_spec. Qed.
End ucopy.
