(* ===== verification/VmSpec.v ===== *)
(** * What the virtual memory system promises

    The theorems of [VmMap], [Uvm] and [Ucopy] put together, stated on the code's
    entry points, with a small booted machine on which they are exercised. *)

From S2P Require Import Prelude Mem Kalloc Vm VmMap Uvm Ucopy.

(** The entry the code finds for a virtual address, 0 if there is none. *)
Definition translate (pagetable va : Z) (s : kst) : Z :=
  match walk pagetable va false s with
  | Ok pte _ => if pte =? 0 then 0 else load64 (kmem s) pte
  | _ => 0
  end.

Section spec.
Variable kend : Z.
Hypothesis kend_pos : 0 < kend.

Lemma translate_eq s t l va :
  vm_inv kend s t l -> 0 <= va < MAXVA -> translate (pt_root t) va s = pte_of (kmem s) t va.
Proof.
  intros Hv Hva. unfold translate, pte_of. rewrite (walk_lookup kend kend_pos s t l) by done.
  destruct (tbl t _) as [p|] eqn:Hp; [|done].
  destruct (vi_pages _ _ _ _ Hv _ _ Hp) as [Hk _].
  destruct (kpage_range kend kend_pos _ Hk) as (? & _).
  pose proof (PX_range 0 va ltac:(lia)). by rewrite (proj2 (Z.eqb_neq _ _)) by lia.
Qed.

(** [mappages] on a range with no valid entry maps exactly that range: after
    a return of 0 every page of it translates to the corresponding physical
    page with the permissions asked for, after -1 the free list is empty and
    the same holds of a proper prefix, and in both cases every other
    translation is as before and no page outside the page table and the free
    list is written.  On a range that starts at a valid entry it panics. *)
Theorem mappages_exact s t l va size pa perm :
  vm_inv kend s t l -> 0 <= va -> 0 < size -> va + size <= MAXVA -> 0 <= perm < 1024 ->
  let a := PGROUNDDOWN va in
  let n := (va + size - 1) / PGSIZE - va / PGSIZE + 1 in
  0 <= pa -> pa + n * PGSIZE <= 2 ^ 64 ->
  ((forall x, a <= x < a + n * PGSIZE -> Z.land (translate (pt_root t) x s) PTE_V = 0) ->
   exists r s' t' l' k,
     mappages (pt_root t) va size pa perm s = Ok r s' /\
     vm_inv kend s' t' l' /\ frame t l (kmem s) (kmem s') /\
     ((r = 0 /\ k = n) \/ (r = -1 /\ 0 <= k < n /\ l' = [])) /\
     forall x, 0 <= x < MAXVA ->
       translate (pt_root t) x s' =
         if decide (a <= x < a + k * PGSIZE)
         then mkpte (pa + (x / PGSIZE * PGSIZE - a)) (Z.lor perm PTE_V)
         else translate (pt_root t) x s) /\
  (Z.land (translate (pt_root t) a s) PTE_V <> 0 ->
   mappages (pt_root t) va size pa perm s = Panic "mappages: remap").
Proof.
  intros Hv Hva Hsz Hmax Hperm a n Hpa Hpan. split.
  - intros Hun. destruct (mappages_spec kend kend_pos s t l va size pa perm)
      as (r & s' & t' & l' & k & E & Ev & M & Hr); try done.
    { intros x Hx. rewrite <- (translate_eq s t l); [by apply Hun|done|].
      fold a n in Hx. unfold a, n in Hx. rewrite PGROUNDDOWN_eq in Hx. plia. }
    exists r, s', t', l', k. split_and!; try done; try apply Ev.
    intros x Hx. rewrite <- (ev_root _ _ _ _ _ _ _ Ev).
    rewrite (translate_eq s' t' l') by (done || apply Ev). rewrite M by done.
    fold a. rewrite (ev_root _ _ _ _ _ _ _ Ev). by rewrite (translate_eq s t l).
  - assert (Ha : 0 <= a < MAXVA) by (unfold a; rewrite PGROUNDDOWN_eq; plia).
    rewrite (translate_eq s t l) by done. intros Hmap.
    unfold mappages. rewrite (proj2 (Z.eqb_neq _ _)) by lia. fold a.
    assert (exists p, tbl t (L0 (PX 2 a) (PX 1 a)) = Some p) as [p Hp].
    { unfold pte_of in Hmap. destruct (tbl t _); [by eexists|done]. }
    unfold pte_of in Hmap. rewrite Hp in Hmap.
    destruct (vi_pages _ _ _ _ Hv _ _ Hp) as [Hk _].
    destruct (kpage_range kend kend_pos _ Hk) as (? & _).
    pose proof (PX_range 0 a ltac:(lia)).
    rewrite mappages_loop_S. unfold bind at 1.
    rewrite (walk_present kend kend_pos s t l a true p) by done.
    rewrite (proj2 (Z.eqb_neq _ _)) by lia. unfold bind, gets.
    destruct (istrue _) eqn:Ei; [done|]. by apply istrue_V in Ei.
Qed.

(** C31: [uvmalloc] is all or nothing: it returns the new size with exactly the
    new pages mapped, zero-filled, readable by the user and with the extra
    permissions, or 0 with the address space as it was; no byte of the pages
    that were mapped before changes, and no page of anyone else is written.
    After a success, [uvmdealloc] from the new size to the old one gives back the original
    address space. *)
Theorem uvmalloc_all_or_nothing s t l U oldsz newsz xperm :
  uas kend s t l U -> 0 <= xperm < 1024 -> 0 <= oldsz <= newsz -> newsz <= UPAGES * PGSIZE ->
  let v0 := PGROUNDUP oldsz / PGSIZE in
  let v1 := PGROUNDUP newsz / PGSIZE in
  (forall x, v0 <= x < v1 -> U !! x = None) ->
  exists r s' t' l' U',
    uvmalloc kend (pt_root t) oldsz newsz xperm s = Ok r s' /\
    uevolves kend s t l U s' t' l' U' /\ keeps U (kmem s) (kmem s') /\
    ((r = 0 /\ U' = U) \/
     (r = newsz /\ grown (kmem s') U U' v0 v1 (uperm xperm) /\
      exists s2 l2, uvmdealloc kend (pt_root t) newsz oldsz s' = Ok oldsz s2 /\
        uevolves kend s' t' l' U' s2 t' l2 U /\ keeps U (kmem s') (kmem s2))).
Proof.
  intros Hu Hx Hsz Hmax v0 v1 Hnone.
  destruct (uvmalloc_spec kend kend_pos s t l U oldsz newsz xperm)
    as (r & s' & t' & l' & U' & E & V & K & Hr); try done.
  exists r, s', t', l', U'. split; [done|]. split; [done|]. split; [done|].
  destruct Hr as [[-> G]|[-> ->]]; [right|by left].
  split; [done|]. split; [done|].
  destruct (uvmdealloc_spec kend kend_pos s' t' l' U' newsz oldsz)
    as (s2 & l2 & U2 & E2 & V2 & K2 & L2); [apply V|done|done| |].
  { intros w Hw. destruct (gn_new _ _ _ _ _ _ G w) as (p & -> & _); [|done].
    rewrite !PGROUNDUP_eq in * by plia. subst v0 v1. rewrite !Z.div_mul in * by done. plia. }
  assert (U2 = U) as ->.
  { apply map_eq. intros x. rewrite L2. subst v0 v1. rewrite !PGROUNDUP_eq in * by plia.
    rewrite !Z.div_mul in * by done. case_decide as Hd.
    - symmetry. apply Hnone. plia.
    - apply (gn_old _ _ _ _ _ _ G). plia. }
  exists s2, l2. rewrite <- (ue_root _ _ _ _ _ _ _ _ _ V). done.
Qed.

(** C3: [uvmcopy] gives the child of a fork its own copy: on 0 every page of the
    parent below the size has a page of the child with the same flags and the
    same bytes, on a page of its own; on -1 the child is as it was.  Either way the parent keeps its address
    space and every byte of it, and parent and child share no page. *)
Theorem uvmcopy_isolated s to Uo t l U sz :
  uas kend s to l Uo -> uas kend s t l U -> (forall b, own to [] Uo b -> ~ own t l U b) ->
  0 <= sz <= UPAGES * PGSIZE ->
  let v1 := PGROUNDUP sz / PGSIZE in
  (forall x, 0 <= x < v1 -> is_Some (Uo !! x)) -> (forall x, 0 <= x < v1 -> U !! x = None) ->
  exists r s' t' l' U',
    uvmcopy kend (pt_root to) (pt_root t) sz s = Ok r s' /\
    uas kend s' t' l' U' /\ uas kend s' to l' Uo /\ pt_root t' = pt_root t /\
    (forall b, own to [] Uo b -> ~ own t' l' U' b) /\
    (forall x, ubyte (kmem s') Uo x = ubyte (kmem s) Uo x) /\
    ((r = -1 /\ U' = U) \/
     (r = 0 /\ (forall x, ~ 0 <= x < v1 -> U' !! x = U !! x) /\
      (forall x pa f, 0 <= x < v1 -> Uo !! x = Some (pa, f) -> exists p, U' !! x = Some (p, f)) /\
      forall x, 0 <= x < v1 * PGSIZE -> ubyte (kmem s') U' x = ubyte (kmem s) Uo x)).
Proof.
  intros Huo Hu Hd Hsz v1 Hold Hnone.
  destruct (uvmcopy_spec kend kend_pos s to Uo t l U sz)
    as (r & s' & t' & l' & U' & E & V & K & Huo' & Ko & Hr); try done.
  assert (Hbytes : forall x, ubyte (kmem s') Uo x = ubyte (kmem s) Uo x).
  { intros x. unfold ubyte. destruct (Uo !! (x / PGSIZE)) as [[pa f]|] eqn:Ex; [|done].
    by rewrite (Ko _ _ _ (pa + x mod PGSIZE) Ex) by plia. }
  exists r, s', t', l', U'. split; [done|]. split; [apply V|]. split; [done|].
  split; [apply V|]. split; [|split; [done|]].
  { intros b Hb Hn. by apply (Hd b Hb), (ue_own _ _ _ _ _ _ _ _ _ V). }
  destruct Hr as [[-> C]|[-> ->]]; [right|by left]. split; [done|].
  split; [apply C|]. split.
  { intros x pa f Hx Ex. destruct (cp_new _ _ _ _ _ _ C x pa f Hx Ex) as (p & ? & _). eauto. }
  intros x Hx. rewrite <- Hbytes. unfold ubyte.
  destruct (Hold (x / PGSIZE)) as [[pa f] Ex]; [plia|].
  destruct (cp_new _ _ _ _ _ _ C (x / PGSIZE) pa f) as (p & -> & Hp); [plia|done|].
  rewrite Ex, Hp by plia. done.
Qed.

(** C30: [copyin], [copyinstr] and [copyout] agree with the bytes the process
    sees, whatever the address: [copyin] returns exactly the bytes of the
    range, or -1 if one of them is not the process's to read; [copyinstr]
    returns the string up to its NUL, or -1 if there is none within the bound;
    [copyout] writes the whole buffer and nothing else, or fails at the first byte that is not the
    process's, with only bytes before it written.  What [copyout] wrote,
    [copyin] reads back. *)
Theorem user_copy_correct s t l U va :
  uas kend s t l U -> 0 <= va ->
  (forall len, 0 <= len ->
     copyin (pt_root t) va len s = Ok (uread (kmem s) U va (Z.to_nat len)) s) /\
  (forall max, 0 <= max ->
     copyinstr (pt_root t) va max s = Ok (ustr (kmem s) U va (Z.to_nat max)) s) /\
  (forall src, exists r s' k, copyout (pt_root t) va src s = Ok r s' /\
     uevolves kend s t l U s' t l U /\ uwritten (kmem s) (kmem s') U va src k /\
     ((r = 0 /\ k = Z.of_nat (length src) /\
       copyin (pt_root t) va (Z.of_nat (length src)) s' = Ok (Some src) s') \/
      (r = -1 /\ 0 <= k < Z.of_nat (length src) /\ ubyte (kmem s) U (va + k) = None))).
Proof.
  intros Hu Hva. split_and!.
  - intros len Hlen. by apply (copyin_spec kend kend_pos s t l).
  - intros max Hmax. by apply (copyinstr_spec kend kend_pos s t l).
  - intros src. destruct (copyout_spec kend kend_pos s t l U va src Hu Hva)
      as (r & s' & k & E & V & W & Hr).
    exists r, s', k. split; [done|]. split; [done|]. split; [done|].
    destruct Hr as [[-> ->]|Hr]; [left|by right]. split_and!; [done..|].
    rewrite (copyin_spec kend kend_pos s' t l U) by (lia || apply V).
    rewrite Nat2Z.id. by erewrite uread_uwritten.
Qed.
End spec.

(** ** A booted machine *)

Definition kend8 : Z := PHYSTOP - 8 * PGSIZE.
Definition boot8 : kst := run_state (mkKst ∅ 0) (kinit kend8 (mkKst ∅ 0)).

Lemma boot8_rep : krep kend8 boot8 (rev (all_pages kend8)).
Proof.
  destruct (kinit_spec kend8 ltac:(done) ltac:(done) (mkKst ∅ 0)) as (s & E & Hk); [done|].
  unfold boot8. rewrite E. exact Hk.
Qed.

(** The free list after boot. *)
Definition page8 (i : Z) : Z := kend8 + i * PGSIZE.

Lemma boot8_pages : rev (all_pages kend8) = page8 <$> [7; 6; 5; 4; 3; 2; 1; 0].
Proof. reflexivity. Qed.

(** An empty address space on the booted machine. *)
Definition proc8 : kst := run_state boot8 (uvmcreate boot8).

Lemma proc8_uas :
  uas kend8 proc8 (empty_tree (page8 7)) (page8 <$> [6; 5; 4; 3; 2; 1; 0]) ∅.
Proof.
  pose proof boot8_rep as Hk. rewrite boot8_pages in Hk. rewrite fmap_cons in Hk.
  destruct (uvmcreate_spec kend8 ltac:(done) _ _ _ Hk) as (s' & E & Hu & _).
  unfold proc8. rewrite E. exact Hu.
Qed.

Lemma mappages_exact_witness :
  exists r s' t' l', mappages (page8 7) 4096 8192 (page8 6) 22 proc8 = Ok r s' /\
    vm_inv kend8 s' t' l'.
Proof.
  destruct (mappages_exact kend8 ltac:(done) proc8 _ _ 4096 8192 (page8 6) 22
    (ua_vm _ _ _ _ _ proc8_uas)) as [H _]; [lia|lia|unfold MAXVA; lia|lia|by vm_compute|by vm_compute|].
  destruct H as (r & s' & t' & l' & k & E & Hv & _).
  - intros x Hx. rewrite (translate_eq kend8 ltac:(done) proc8 _ _ x (ua_vm _ _ _ _ _ proc8_uas)).
    + unfold pte_of, tbl, empty_tree. cbn [pt_l0]. by rewrite lookup_empty.
    + rewrite PGROUNDDOWN_eq in Hx. plia.
  - exists r, s', t', l'. split; [exact E|exact Hv].
Defined.

Lemma uvmalloc_all_or_nothing_witness :
  exists r s' t' l' U', uvmalloc kend8 (page8 7) 100 8192 PTE_W proc8 = Ok r s' /\
    uas kend8 s' t' l' U'.
Proof.
  destruct (uvmalloc_all_or_nothing kend8 ltac:(done) proc8 _ _ _ 100 8192 PTE_W proc8_uas)
    as (r & s' & t' & l' & U' & E & V & _); [by vm_compute|lia|by vm_compute|intros; apply lookup_empty|].
  exists r, s', t', l', U'. split; [exact E|apply V].
Defined.

(** A process with one page, and the machine after the page table of a child has
    been created. *)
Definition par8 : kst := run_state proc8 (uvmalloc kend8 (page8 7) 0 4096 PTE_W proc8).
Definition fork8 : kst := run_state par8 (uvmcreate par8).

Lemma par8_uas : exists t l U, uas kend8 par8 t l U /\ pt_root t = page8 7 /\ is_Some (U !! 0).
Proof.
  destruct (uvmalloc_spec kend8 ltac:(done) proc8 _ _ _ 0 4096 PTE_W proc8_uas)
    as (r & s' & t' & l' & U' & E & V & _ & Hr);
    [by vm_compute|lia|by vm_compute|intros; apply lookup_empty|].
  assert (uvmalloc kend8 (page8 7) 0 4096 PTE_W proc8 = Ok 4096 par8) as E2.
  { apply (run_state_ok (Z.eqb 4096)); [intros b Hb; symmetry; by apply Z.eqb_eq|].
    vm_compute. reflexivity. }
  change (pt_root (empty_tree (page8 7))) with (page8 7) in E. rewrite E2 in E. clear E2.
  apply Ok_inj in E as [<- <-]. destruct Hr as [[_ G]|[Hz _]]; [|discriminate Hz].
  exists t', l', U'. split; [apply V|]. split; [apply V|].
  destruct (gn_new _ _ _ _ _ _ G 0) as (p & -> & _); [by vm_compute|done].
Qed.

Lemma uvmcreate_beside s t p l U :
  uas kend8 s t (p :: l) U -> exists s', uvmcreate s = Ok p s' /\
    uas kend8 s' t l U /\ uas kend8 s' (empty_tree p) l ∅ /\
    (forall b, own t [] U b -> ~ own (empty_tree p) l ∅ b).
Proof.
  intros Hu. destruct (uvmcreate_spec kend8 ltac:(done) s p l) as (s' & E & Hn & Hs);
    [apply Hu|].
  assert (Hp : ~ own t l U p /\ kpage kend8 p).
  { destruct (alloc_fill kend8 ltac:(done) s t p l U (fun m => m) Hu) as (? & _ & _ & ? & ? & _); done. }
  destruct Hp as [Hp Hkp]. exists s'. split; [done|]. split; [|split; [done|]].
  - apply (uas_page_change kend8 s s' t (p :: l) l U p); try done.
    + apply Hn.
    + apply Hkp.
    + intros r Hr. apply Hp. left. right. by exists r.
    + intros b Hb. left. by right.
    + intros v f Hv _. apply Hp. right. eauto.
  - intros b Hb [[Hin|[r Hr]]|(v & f & Hv)].
    + destruct Hb as [[?%elem_of_nil|[r Hr]]|(v & f & Hv)]; [done| |].
      * destruct (vi_pages _ _ _ _ (ua_vm _ _ _ _ _ Hu) r b Hr) as [_ Hnl]. apply Hnl. by right.
      * apply (ua_sep _ _ _ _ _ Hu v b f Hv). left. by right.
    + destruct r; cbn in Hr; [|by rewrite lookup_empty in Hr..].
      injection Hr as <-. apply Hp. by apply own_nil.
    + by rewrite lookup_empty in Hv.
Qed.

Lemma par8_free : ~ krep kend8 par8 [].
Proof.
  intros Hk. assert (ends_with (fun p => negb (p =? 0)) (kalloc par8) = true) as Hc
    by (vm_compute; reflexivity).
  rewrite (kalloc_empty kend8 _ Hk) in Hc. discriminate Hc.
Qed.

Lemma uvmcopy_isolated_witness :
  exists r s' p, uvmcopy kend8 (page8 7) p 4096 fork8 = Ok r s'.
Proof.
  destruct par8_uas as (t & l & U & Hu & Hroot & H0). destruct l as [|p l].
  { destruct par8_free. apply Hu. }
  destruct (uvmcreate_beside par8 t p l U Hu) as (s1 & E1 & Hu1 & Hn1 & Hd).
  assert (fork8 = s1) as -> by (unfold fork8; rewrite E1; reflexivity). clear E1.
  destruct (uvmcopy_isolated kend8 ltac:(done) s1 t U (empty_tree p) l ∅ 4096 Hu1 Hn1 Hd)
    as (r & s' & t' & l' & U' & E & _); [by vm_compute| |intros; apply lookup_empty|].
  - intros x Hx. assert (x = 0) as -> by (rewrite PGROUNDUP_eq in Hx by plia; plia). exact H0.
  - exists r, s', p. rewrite Hroot in E. exact E.
Defined.

Lemma user_copy_correct_witness :
  exists r s', copyout (page8 7) 10 (bytes "hello") par8 = Ok r s'.
Proof.
  destruct par8_uas as (t & l & U & Hu & Hroot & H0).
  destruct (user_copy_correct kend8 ltac:(done) par8 t l U 10 Hu ltac:(done)) as (_ & _ & H).
  destruct (H (bytes "hello")) as (r & s' & k & E & _). exists r, s'. rewrite Hroot in E. exact E.
Defined.
