(* ===== verification/Bio.v ===== *)
(** * Buffer cache ([kernel/bio.c], [kernel/buf.h])

    [NBUF] buffers in an array, on a circular list through their [prev] and
    [next] pointers that keeps them in order of recent use; the list head is one
    more buffer of the array.  A pointer to a buffer is its index.  The critical
    sections under [bcache.lock] are atomic; a sleep lock is the flag [b_lock],
    and waiting for one that is taken is the outcome [Blocked].  The disk is a
    map from block addresses to blocks that a transfer reads or updates; the
    writes are also recorded in order, for the arguments about crashes. *)

From S2P Require Import Prelude.

(** ** Data *)

Definition BSIZE : Z := 1024.
Definition NBUF : nat := 30.

Abbreviation block := (list byte).
Definition zero_block : block := replicate (Z.to_nat BSIZE) x00.

Record buf := mkBuf {
  b_valid : bool; b_dev : Z; b_blockno : Z; b_lock : bool; b_refcnt : Z;
  b_prev : nat; b_next : nat; b_data : block
}.

(** [bcache.head] is the buffer after the [NBUF] buffers of the array. *)
Definition head : nat := NBUF.

Record bst := mkBst {
  bufs : list buf; disk : gmap (Z * Z) block; trace : list (Z * Z * block)
}.

Definition buf0 : buf := mkBuf false 0 0 false 0 0 0 zero_block.

Definition bat (s : bst) (i : nat) : buf := default buf0 (bufs s !! i).
Definition dat (s : bst) (k : Z * Z) : block := default zero_block (disk s !! k).
Definition upd_buf (i : nat) (f : buf -> buf) (s : bst) : bst :=
  mkBst (alter f i (bufs s)) (disk s) (trace s).

Definition set_valid (v : bool) (b : buf) : buf :=
  mkBuf v (b_dev b) (b_blockno b) (b_lock b) (b_refcnt b) (b_prev b) (b_next b) (b_data b).
Definition set_lock (l : bool) (b : buf) : buf :=
  mkBuf (b_valid b) (b_dev b) (b_blockno b) l (b_refcnt b) (b_prev b) (b_next b) (b_data b).
Definition set_refcnt (r : Z) (b : buf) : buf :=
  mkBuf (b_valid b) (b_dev b) (b_blockno b) (b_lock b) r (b_prev b) (b_next b) (b_data b).
Definition set_prev (p : nat) (b : buf) : buf :=
  mkBuf (b_valid b) (b_dev b) (b_blockno b) (b_lock b) (b_refcnt b) p (b_next b) (b_data b).
Definition set_next (n : nat) (b : buf) : buf :=
  mkBuf (b_valid b) (b_dev b) (b_blockno b) (b_lock b) (b_refcnt b) (b_prev b) n (b_data b).
Definition set_data (d : block) (b : buf) : buf :=
  mkBuf (b_valid b) (b_dev b) (b_blockno b) (b_lock b) (b_refcnt b) (b_prev b) (b_next b) d.
(** A recycled buffer. *)
Definition recycle (dev blockno : Z) (b : buf) : buf :=
  mkBuf false dev blockno (b_lock b) 1 (b_prev b) (b_next b) (b_data b).

(** ** Operations *)

(** Put [b] right after the head. *)
Definition push_front (b : nat) : M bst unit :=
  n <- gets (fun s => b_next (bat s head));;
  modify (upd_buf b (set_next n));;;
  modify (upd_buf b (set_prev head));;;
  n <- gets (fun s => b_next (bat s head));;
  modify (upd_buf n (set_prev b));;;
  modify (upd_buf head (set_next b)).

Definition binit : M bst unit :=
  modify (upd_buf head (set_prev head));;;
  modify (upd_buf head (set_next head));;;
  for_each (seq 0 NBUF) (fun b => modify (upd_buf b (set_lock false));;; push_front b).

(** Follow [dir] from [b] until the head or a buffer that satisfies [P]. *)
Fixpoint scan (fuel : nat) (dir : buf -> nat) (P : buf -> bool) (b : nat) : M bst (option nat) :=
  if decide (b = head) then ret None
  else match fuel with
  | O => nofuel
  | S fuel =>
      s <- get;;
      if P (bat s b) then ret (Some b) else scan fuel dir P (dir (bat s b))
  end.

Definition acquiresleep (b : nat) : M bst unit :=
  s <- get;;
  if b_lock (bat s b) then blocked else modify (upd_buf b (set_lock true)).

Definition incref (b : nat) : M bst unit :=
  modify (upd_buf b (fun x => set_refcnt (u32 (b_refcnt x + 1)) x)).
Definition decref (b : nat) : M bst unit :=
  modify (upd_buf b (fun x => set_refcnt (u32 (b_refcnt x - 1)) x)).

Definition is_block (dev blockno : Z) (b : buf) : bool :=
  (b_dev b =? dev) && (b_blockno b =? blockno).
Definition unused (b : buf) : bool := b_refcnt b =? 0.

Definition bget (dev blockno : Z) : M bst nat :=
  first <- gets (fun s => b_next (bat s head));;
  r <- scan NBUF b_next (is_block dev blockno) first;;
  match r with
  | Some b => incref b;;; acquiresleep b;;; ret b
  | None =>
      last <- gets (fun s => b_prev (bat s head));;
      r <- scan NBUF b_prev unused last;;
      match r with
      | Some b => modify (upd_buf b (recycle dev blockno));;; acquiresleep b;;; ret b
      | None => panic "bget: no buffers"
      end
  end.

(** A transfer between a buffer and the disk. *)
Definition virtio_disk_rw (b : nat) (write : bool) : M bst unit :=
  if write
  then modify (fun s =>
         let x := bat s b in
         mkBst (bufs s) (<[(b_dev x, b_blockno x) := b_data x]> (disk s))
               (trace s ++ [(b_dev x, b_blockno x, b_data x)]))
  else modify (fun s =>
         upd_buf b (set_data (dat s (b_dev (bat s b), b_blockno (bat s b)))) s).

Definition bread (dev blockno : Z) : M bst nat :=
  b <- bget dev blockno;;
  v <- gets (fun s => b_valid (bat s b));;
  (if negb v then virtio_disk_rw b false;;; modify (upd_buf b (set_valid true)) else ret tt);;;
  ret b.

Definition holdingsleep (b : nat) : M bst bool := gets (fun s => b_lock (bat s b)).

Definition bwrite (b : nat) : M bst unit :=
  h <- holdingsleep b;;
  if negb h then panic "bwrite" else virtio_disk_rw b true.

Definition brelse (b : nat) : M bst unit :=
  h <- holdingsleep b;;
  if negb h then panic "brelse"
  else
    modify (upd_buf b (set_lock false));;;
    decref b;;;
    r <- gets (fun s => b_refcnt (bat s b));;
    if r =? 0 then
      n <- gets (fun s => b_next (bat s b));;
      p <- gets (fun s => b_prev (bat s b));;
      modify (upd_buf n (set_prev p));;;
      p <- gets (fun s => b_prev (bat s b));;
      n <- gets (fun s => b_next (bat s b));;
      modify (upd_buf p (set_next n));;;
      push_front b
    else ret tt.

Definition bpin (b : nat) : M bst unit := incref b.
Definition bunpin (b : nat) : M bst unit := decref b.

(** ** The circular list *)

Section ring.
Context (nx pv : nat -> nat).

(** From [a] the pointers lead through [l] to [b], and back. *)
Fixpoint lseg (a : nat) (l : list nat) (b : nat) : Prop :=
  match l with
  | [] => nx a = b /\ pv b = a
  | x :: l => nx a = x /\ pv x = a /\ lseg x l b
  end.

Lemma lseg_app a l1 x l2 b : lseg a (l1 ++ x :: l2) b <-> lseg a l1 x /\ lseg x l2 b.
Proof. revert a. induction l1 as [|y l1 IH]; intros a; simpl; [tauto|]. rewrite IH. tauto. Qed.

End ring.

Lemma lseg_frame nx pv nx' pv' b l : forall a,
  lseg nx pv a l b -> (forall x, x ∈ a :: l -> nx' x = nx x) ->
  (forall x, x ∈ l ++ [b] -> pv' x = pv x) -> lseg nx' pv' a l b.
Proof.
  induction l as [|y l IH]; intros a; simpl.
  - intros [H1 H2] Hn Hp. split; [rewrite Hn|rewrite Hp]; set_solver.
  - intros (H1 & H2 & H3) Hn Hp. split_and!; [rewrite Hn by set_solver; done|rewrite Hp by set_solver; done|].
    apply IH; [done|..]; set_solver.
Qed.

Definition fupd (f : nat -> nat) (k v : nat) : nat -> nat := fun x => if decide (x = k) then v else f x.

Lemma fupd_eq f k v : fupd f k v k = v.
Proof. unfold fupd. by rewrite decide_True. Qed.
Lemma fupd_ne f k v x : x <> k -> fupd f k v x = f x.
Proof. intros. unfold fupd. by rewrite decide_False. Qed.

(** Frame conditions of the pointer updates below. *)
Ltac nodups H :=
  rewrite <- ?app_assoc in H; simpl in H;
  repeat (rewrite NoDup_cons in H || rewrite NoDup_app in H); destruct_and? H.
Ltac fupds := repeat (rewrite fupd_eq || rewrite fupd_ne by set_solver).
Ltac ring_frame := intros ? ?; repeat (rewrite fupd_ne by set_solver); rewrite ?fupd_eq; done.

Lemma unlink nx pv h l1 b l2 :
  lseg nx pv h (l1 ++ b :: l2) h -> NoDup (h :: l1 ++ b :: l2) ->
  lseg (fupd nx (pv b) (nx b)) (fupd pv (nx b) (pv b)) h (l1 ++ l2) h.
Proof.
  intros [H1 H2]%lseg_app Hnd.
  destruct l1 as [|p l1 _] using rev_ind; destruct l2 as [|n l2]; nodups Hnd; simpl in *.
  - destruct H1 as [? ->], H2 as [-> ?]. by rewrite !fupd_eq.
  - destruct H1 as [? ->], H2 as (-> & ? & H2). rewrite !fupd_eq. split_and!; [done..|].
    eapply lseg_frame; [done|ring_frame..].
  - apply lseg_app in H1 as [H1 [? ->]]. destruct H2 as [-> ?]. rewrite app_nil_r.
    apply lseg_app. simpl. rewrite !fupd_eq. split_and!; [|done..].
    eapply lseg_frame; [done|ring_frame..].
  - apply lseg_app in H1 as [H1 [? ->]]. destruct H2 as (-> & ? & H2).
    rewrite <- app_assoc. apply lseg_app. simpl. rewrite !fupd_eq. split_and!; [|done..|].
    + eapply lseg_frame; [done|ring_frame..].
    + eapply lseg_frame; [done|ring_frame..].
Qed.

Lemma link_front nx pv h l b :
  lseg nx pv h l h -> NoDup (h :: b :: l) ->
  lseg (fupd (fupd nx b (nx h)) h b) (fupd (fupd pv b h) (nx h) b) h (b :: l) h.
Proof.
  intros H Hnd. destruct l as [|n l]; simpl in *; nodups Hnd.
  - destruct H as [-> ?]. split_and!; fupds; done.
  - destruct H as (-> & ? & H). split_and!; try (fupds; done).
    eapply lseg_frame; [done|ring_frame..].
Qed.

(** The list as the code sees it. *)
Definition ring (s : bst) (l : list nat) : Prop :=
  length (bufs s) = S NBUF /\ l ≡ₚ seq 0 NBUF /\
  lseg (fun i => b_next (bat s i)) (fun i => b_prev (bat s i)) head l head.

Lemma ring_NoDup s l : ring s l -> NoDup (head :: l).
Proof.
  intros (_ & Hp & _). rewrite Hp. apply NoDup_cons. split; [|apply NoDup_seq].
  rewrite elem_of_seq. unfold head. lia.
Qed.

Lemma ring_elem s l i : ring s l -> i ∈ l <-> (i < NBUF)%nat.
Proof. intros (_ & Hp & _). rewrite Hp, elem_of_seq. lia. Qed.

(** ** Updates of one buffer *)

(** Everything but the links. *)
Definition payload (b : buf) : bool * Z * Z * bool * Z * block :=
  (b_valid b, b_dev b, b_blockno b, b_lock b, b_refcnt b, b_data b).

(** The states differ at most in links. *)
Definition same_payload (s s' : bst) : Prop :=
  (forall i, payload (bat s' i) = payload (bat s i)) /\ disk s' = disk s /\ trace s' = trace s.

#[global] Instance same_payload_equiv : Equivalence same_payload.
Proof.
  split; unfold same_payload; [done|intros s s' (? & ? & ?); by split_and!|].
  intros s1 s2 s3 (H1 & ? & ?) (H2 & ? & ?). split_and!; [|congruence..].
  intros i. by rewrite H2.
Qed.

Lemma bat_upd s i f j :
  (i < length (bufs s))%nat ->
  bat (upd_buf i f s) j = if decide (j = i) then f (bat s i) else bat s j.
Proof.
  intros Hi. unfold bat, upd_buf. simpl. case_decide; subst.
  - rewrite list_lookup_alter_eq. by destruct (lookup_lt_is_Some_2 _ _ Hi) as [b ->].
  - by rewrite list_lookup_alter_ne.
Qed.

Lemma bat_upd_eq s i f : (i < length (bufs s))%nat -> bat (upd_buf i f s) i = f (bat s i).
Proof. intros. rewrite bat_upd by done. by rewrite decide_True. Qed.
Lemma bat_upd_ne s i f j : j <> i -> bat (upd_buf i f s) j = bat s j.
Proof. intros. unfold bat, upd_buf. simpl. by rewrite list_lookup_alter_ne. Qed.
Lemma length_upd s i f : length (bufs (upd_buf i f s)) = length (bufs s).
Proof. apply length_alter. Qed.

(** Links as functions, after an update of one buffer. *)
Definition nxf (s : bst) : nat -> nat := fun i => b_next (bat s i).
Definition pvf (s : bst) : nat -> nat := fun i => b_prev (bat s i).

Lemma nxf_upd_next s i n j : (i < length (bufs s))%nat ->
  nxf (upd_buf i (set_next n) s) j = fupd (nxf s) i n j.
Proof. intros. unfold nxf, fupd. rewrite bat_upd by done. by case_decide. Qed.
Lemma pvf_upd_prev s i n j : (i < length (bufs s))%nat ->
  pvf (upd_buf i (set_prev n) s) j = fupd (pvf s) i n j.
Proof. intros. unfold pvf, fupd. rewrite bat_upd by done. by case_decide. Qed.

Lemma nxf_upd_prev s i n j : (i < length (bufs s))%nat -> nxf (upd_buf i (set_prev n) s) j = nxf s j.
Proof. intros. unfold nxf. rewrite bat_upd by done. case_decide; by subst. Qed.
Lemma pvf_upd_next s i n j : (i < length (bufs s))%nat -> pvf (upd_buf i (set_next n) s) j = pvf s j.
Proof. intros. unfold pvf. rewrite bat_upd by done. case_decide; by subst. Qed.

Lemma fupd_ext f g k v j : f j = g j -> fupd f k v j = fupd g k v j.
Proof. intros H. unfold fupd. by case_decide. Qed.

Lemma lseg_ext nx pv nx' pv' a l b :
  (forall j, nx' j = nx j) -> (forall j, pv' j = pv j) -> lseg nx pv a l b -> lseg nx' pv' a l b.
Proof. intros. eapply lseg_frame; [done|auto..]. Qed.

Lemma link_upd s i f :
  (i < length (bufs s))%nat ->
  (b_next (f (bat s i)) = b_next (bat s i) -> forall j, nxf (upd_buf i f s) j = nxf s j) /\
  (b_prev (f (bat s i)) = b_prev (bat s i) -> forall j, pvf (upd_buf i f s) j = pvf s j).
Proof.
  intros Hi. split; intros Hf j; unfold nxf, pvf; rewrite bat_upd by done; case_decide; subst; done.
Qed.

Lemma ring_upd s l i f :
  ring s l -> (i < length (bufs s))%nat ->
  b_next (f (bat s i)) = b_next (bat s i) -> b_prev (f (bat s i)) = b_prev (bat s i) ->
  ring (upd_buf i f s) l.
Proof.
  intros (Hl & Hp & Hs) Hi Hn Hpv. split; [by rewrite length_upd|]. split; [done|].
  destruct (link_upd s i f Hi) as [H1 H2].
  eapply lseg_frame; [exact Hs|intros j _; by apply H1|intros j _; by apply H2].
Qed.

Lemma same_payload_upd s i f :
  payload (f (bat s i)) = payload (bat s i) -> same_payload s (upd_buf i f s).
Proof.
  intros Hf. split_and!; [|done..]. intros j. unfold bat, upd_buf in *. simpl.
  destruct (decide (j = i)) as [->|]; [|by rewrite list_lookup_alter_ne].
  rewrite list_lookup_alter_eq. destruct (bufs s !! i); [apply Hf|done].
Qed.

Lemma upd_upd s i f g : upd_buf i g (upd_buf i f s) = upd_buf i (fun b => g (f b)) s.
Proof. unfold upd_buf. simpl. by rewrite list_alter_alter_eq. Qed.

(** ** Traversals *)

Lemma lseg_rev nx pv l : forall a b, lseg nx pv a l b -> lseg pv nx b (rev l) a.
Proof.
  induction l as [|x l IH]; intros a b; simpl; [tauto|].
  intros (H1 & H2 & H3). apply lseg_app. simpl. split; [by apply IH|done].
Qed.

Lemma lseg_start nx pv a l b : lseg nx pv a l b -> nx a = List.hd b l.
Proof. destruct l; simpl; tauto. Qed.

Lemma scan_spec s (dir back : buf -> nat) P l : forall fuel a,
  lseg (fun i => dir (bat s i)) (fun i => back (bat s i)) a l head ->
  head ∉ l -> (length l <= fuel)%nat ->
  scan fuel dir P (dir (bat s a)) s = Ok (List.find (fun i => P (bat s i)) l) s.
Proof.
  induction l as [|x l IH]; intros fuel a Hl Hh Hf; simpl in Hl.
  - destruct Hl as [-> _]. by destruct fuel.
  - destruct Hl as (-> & _ & Hl). simpl in Hf. destruct fuel as [|fuel]; [lia|].
    cbn [scan]. rewrite decide_False by set_solver. unfold bind, get. simpl.
    destruct (P (bat s x)); [done|]. apply IH; [done|set_solver|lia].
Qed.

Lemma ring_scan_next s l P :
  ring s l -> scan NBUF b_next P (b_next (bat s head)) s = Ok (List.find (fun i => P (bat s i)) l) s.
Proof.
  intros Hr. eapply scan_spec; [apply Hr|..].
  - apply ring_NoDup, NoDup_cons in Hr as [? _]. done.
  - destruct Hr as (_ & Hp & _). rewrite Hp, length_seq. done.
Qed.

Lemma ring_scan_prev s l P :
  ring s l ->
  scan NBUF b_prev P (b_prev (bat s head)) s = Ok (List.find (fun i => P (bat s i)) (rev l)) s.
Proof.
  intros Hr. eapply scan_spec; [apply lseg_rev, Hr|..].
  - apply ring_NoDup, NoDup_cons in Hr as [? _]. by rewrite <- in_rev_elem.
  - destruct Hr as (_ & Hp & _). rewrite length_rev, Hp, length_seq. done.
Qed.

(** ** [push_front] and the move to the front *)

Lemma push_front_spec s l b :
  length (bufs s) = S NBUF -> (b < NBUF)%nat ->
  lseg (nxf s) (pvf s) head l head -> NoDup (head :: b :: l) -> (forall i, i ∈ l -> (i < NBUF)%nat) ->
  exists s', push_front b s = Ok tt s' /\ length (bufs s') = S NBUF /\
    lseg (nxf s') (pvf s') head (b :: l) head /\ same_payload s s'.
Proof.
  intros Hlen Hb Hl Hnd Hin. unfold push_front, bind, gets, modify. eexists. split; [done|].
  set (n := b_next (bat s head)). set (s1 := upd_buf b (set_next n) s).
  set (s2 := upd_buf b (set_prev head) s1).
  assert (Hn : b_next (bat s2 head) = n).
  { unfold s2, s1. rewrite !bat_upd_ne; [done|unfold head; lia..]. }
  rewrite Hn. set (s3 := upd_buf n (set_prev b) s2). set (s4 := upd_buf head (set_next b) s3).
  assert (Hnl : (n < S NBUF)%nat).
  { unfold n. change (b_next (bat s head)) with (nxf s head). rewrite (lseg_start _ _ _ _ _ Hl).
    destruct l as [|x l]; simpl; [unfold head; lia|]. specialize (Hin x). set_solver by lia. }
  assert (L1 : length (bufs s1) = S NBUF) by (by unfold s1; rewrite length_upd).
  assert (L2 : length (bufs s2) = S NBUF) by (by unfold s2; rewrite length_upd).
  assert (L3 : length (bufs s3) = S NBUF) by (by unfold s3; rewrite length_upd).
  split; [by unfold s4; rewrite length_upd|]. split.
  - eapply lseg_ext; [| |apply (link_front (nxf s) (pvf s) head l b Hl Hnd)]; intros j.
    + unfold s4. rewrite nxf_upd_next by (unfold head; lia). apply fupd_ext. unfold s3, s2, s1.
      rewrite !nxf_upd_prev, nxf_upd_next; [done|fold s1 s2; lia..].
    + unfold s4. rewrite pvf_upd_next by (unfold head; lia). unfold s3.
      rewrite pvf_upd_prev by lia. apply fupd_ext. unfold s2, s1.
      rewrite pvf_upd_prev by (fold s1; lia). apply fupd_ext. by rewrite pvf_upd_next by lia.
  - unfold s4, s3, s2, s1. do 3 (etransitivity; [|by apply same_payload_upd]).
    by apply same_payload_upd.
Qed.

Lemma ring_move s l1 b l2 :
  ring s (l1 ++ b :: l2) ->
  let s1 := upd_buf (nxf s b) (set_prev (pvf s b)) s in
  let s2 := upd_buf (pvf s1 b) (set_next (nxf s1 b)) s1 in
  exists s', push_front b s2 = Ok tt s' /\ ring s' (b :: l1 ++ l2) /\ same_payload s s'.
Proof.
  intros Hr s1 s2. pose proof (ring_NoDup _ _ Hr) as Hnd.
  pose proof (fun i => proj1 (ring_elem _ _ i Hr)) as Hin.
  destruct Hr as (Hlen & Hp & Hl). apply (unlink (nxf s) (pvf s)) in Hl as Hu; [|done].
  assert (Hb : (b < NBUF)%nat) by (apply Hin, elem_of_app; right; by left).
  apply lseg_app in Hl as [Hl1 Hl2].
  assert (Hn : (nxf s b < S NBUF)%nat).
  { change (nxf s b) with (b_next (bat s b)). rewrite (lseg_start _ _ _ _ _ Hl2).
    destruct l2 as [|x l2]; simpl; [unfold head; lia|].
    assert (x < NBUF)%nat by (apply Hin; set_solver). lia. }
  assert (Hpv : (pvf s b < S NBUF)%nat).
  { apply lseg_rev in Hl1. change (pvf s b) with (b_prev (bat s b)).
    rewrite (lseg_start _ _ _ _ _ Hl1). destruct (rev l1) as [|x l] eqn:E; simpl; [unfold head; lia|].
    assert (x < NBUF)%nat; [|lia]. apply Hin, elem_of_app. left. rewrite in_rev_elem, E. by left. }
  assert (Hnb : nxf s b <> b).
  { change (nxf s b) with (b_next (bat s b)). rewrite (lseg_start _ _ _ _ _ Hl2).
    nodups Hnd. destruct l2; simpl; [unfold head; lia|set_solver]. }
  assert (E1 : nxf s1 b = nxf s b) by (apply nxf_upd_prev; lia).
  assert (E2 : pvf s1 b = pvf s b).
  { unfold s1. rewrite pvf_upd_prev by lia. by rewrite fupd_ne. }
  assert (L1 : length (bufs s1) = S NBUF) by (unfold s1; by rewrite length_upd).
  destruct (push_front_spec s2 (l1 ++ l2) b) as (s' & E & Hlen' & Hl' & Hs').
  - unfold s2. by rewrite length_upd.
  - done.
  - eapply lseg_ext; [| |exact Hu]; intros j; unfold s2; rewrite E1, E2.
    + rewrite nxf_upd_next by lia. apply fupd_ext. unfold s1. apply nxf_upd_prev. lia.
    + rewrite pvf_upd_next by lia. unfold s1. apply pvf_upd_prev. lia.
  - by rewrite Permutation_middle.
  - intros i Hi. apply Hin. set_solver.
  - exists s'. split; [done|]. split; [split_and!; [done| |done]|].
    + by rewrite Permutation_middle.
    + etransitivity; [|exact Hs']. unfold s2, s1.
      etransitivity; [|by apply same_payload_upd]. by apply same_payload_upd.
Qed.

(** ** What the cache represents

    [V n] is the current content of block [n] of device [dev]; [H] maps the
    buffers the process holds to their blocks; [P] are the pinned buffers; the
    blocks whose content may differ from the disk are in [D]. *)

Section rep.
Variable dev : Z.

Record brep (s : bst) (V : Z -> block) (H : gmap nat Z) (P : gmap nat Z) (D : gset Z) : Prop := {
  br_ring : exists l, ring s l;
  br_uniq : forall i j, (i < NBUF)%nat -> (j < NBUF)%nat ->
    b_dev (bat s i) = dev -> b_dev (bat s j) = dev ->
    b_blockno (bat s i) = b_blockno (bat s j) -> i = j;
  br_held : forall i n, H !! i = Some n ->
    (i < NBUF)%nat /\ b_dev (bat s i) = dev /\ b_blockno (bat s i) = n /\ b_valid (bat s i) = true;
  br_pin : forall i n, P !! i = Some n ->
    (i < NBUF)%nat /\ b_dev (bat s i) = dev /\ b_blockno (bat s i) = n /\ b_valid (bat s i) = true;
  br_lock : forall i, (i < NBUF)%nat -> b_lock (bat s i) = bool_decide (is_Some (H !! i));
  br_ref : forall i, (i < NBUF)%nat ->
    b_refcnt (bat s i) =
      (if decide (is_Some (H !! i)) then 1 else 0) + (if decide (is_Some (P !! i)) then 1 else 0);
  br_data : forall i, (i < NBUF)%nat -> b_dev (bat s i) = dev -> b_valid (bat s i) = true ->
    b_data (bat s i) = V (b_blockno (bat s i));
  br_disk : forall n, n ∉ D -> dat s (dev, n) = V n;
  br_dirty : forall n, n ∈ D -> exists i, (i < NBUF)%nat /\ b_dev (bat s i) = dev /\
    b_blockno (bat s i) = n /\ b_valid (bat s i) = true /\ (is_Some (H !! i) \/ is_Some (P !! i))
}.

Lemma brep_payload s s' V H P D :
  same_payload s s' -> (exists l, ring s' l) -> brep s V H P D -> brep s' V H P D.
Proof.
  intros (Hp & Hd & _) Hr Hb.
  assert (forall i, b_valid (bat s' i) = b_valid (bat s i) /\ b_dev (bat s' i) = b_dev (bat s i) /\
    b_blockno (bat s' i) = b_blockno (bat s i) /\ b_lock (bat s' i) = b_lock (bat s i) /\
    b_refcnt (bat s' i) = b_refcnt (bat s i) /\ b_data (bat s' i) = b_data (bat s i)) as He.
  { intros i. specialize (Hp i). unfold payload in Hp. split_and!; congruence. }
  destruct Hb as [H1 H2 H3 H4 H5 H6 H7 H8 H9]. split; [done|..].
  - intros i j ? ?. destruct (He i) as (_ & -> & -> & _), (He j) as (_ & -> & -> & _). auto.
  - intros i n ?. destruct (He i) as (-> & -> & -> & _). auto.
  - intros i n ?. destruct (He i) as (-> & -> & -> & _). auto.
  - intros i ?. destruct (He i) as (_ & _ & _ & -> & _). auto.
  - intros i ?. destruct (He i) as (_ & _ & _ & _ & -> & _). auto.
  - intros i ?. destruct (He i) as (-> & -> & -> & _ & _ & ->). auto.
  - intros n ?. unfold dat. rewrite Hd. by apply H8.
  - intros n Hn. destruct (H9 n Hn) as (i & ?). exists i. destruct (He i) as (-> & -> & -> & _). auto.
Qed.

(** A buffer of the cache that holds the block, if there is one. *)
Definition cached (s : bst) (n : Z) (i : nat) : Prop :=
  (i < NBUF)%nat /\ b_dev (bat s i) = dev /\ b_blockno (bat s i) = n.

(** Taking buffer [i] for block [n]: it held the block already, or it is an
    unused one and no buffer has the block. *)
Lemma brep_take s V H P D i n f :
  brep s V H P D -> (i < NBUF)%nat -> H !! i = None ->
  cached s n i \/ (P !! i = None /\ forall j, ~ cached s n j) ->
  (forall b, b_next (f b) = b_next b /\ b_prev (f b) = b_prev b) ->
  b_valid (f (bat s i)) = true -> b_dev (f (bat s i)) = dev -> b_blockno (f (bat s i)) = n ->
  b_lock (f (bat s i)) = true ->
  b_refcnt (f (bat s i)) = 1 + (if decide (is_Some (P !! i)) then 1 else 0) ->
  b_data (f (bat s i)) = V n ->
  brep (upd_buf i f s) V (<[i := n]> H) P D.
Proof.
  intros Hb Hi Hh Hc Hf Fv Fd Fn Fl Fr Fx. destruct Hb as [[l Hr] H2 H3 H4 H5 H6 H7 H8 H9].
  assert (Hlen : (i < length (bufs s))%nat) by (destruct Hr as [-> _]; lia).
  assert (Hoth : forall j, j <> i -> bat (upd_buf i f s) j = bat s j) by (intros; by apply bat_upd_ne).
  assert (Hsame : bat (upd_buf i f s) i = f (bat s i)) by by apply bat_upd_eq.
  assert (Hnew : forall j, j <> i -> cached s n j -> False).
  { intros j Hj (Hj1 & Hj2 & Hj3). destruct Hc as [(_ & Hc2 & Hc3)|[_ Hc]].
    - apply Hj, H2; congruence.
    - by apply (Hc j). }
  split.
  - exists l. destruct (Hf (bat s i)). by apply ring_upd.
  - intros j k Hj Hk. destruct (decide (j = i)) as [->|Hji], (decide (k = i)) as [->|Hki];
      rewrite ?Hsame, ?(Hoth _ Hji), ?(Hoth _ Hki); [done|..].
    + intros _ Hkd Hkn. exfalso. apply (Hnew k Hki). split_and!; congruence.
    + intros Hjd _ Hjn. exfalso. apply (Hnew j Hji). split_and!; congruence.
    + by apply H2.
  - intros j m. destruct (decide (j = i)) as [->|Hji].
    + rewrite lookup_insert_eq, Hsame. intros [= <-]. done.
    + rewrite lookup_insert_ne, (Hoth _ Hji) by done. apply H3.
  - intros j m Hj. destruct (decide (j = i)) as [->|Hji]; [|rewrite (Hoth _ Hji); auto].
    rewrite Hsame. destruct (H4 i m Hj) as (_ & _ & Hm & _).
    destruct Hc as [(_ & _ & Hc3)|[Hc _]]; [|congruence]. split_and!; congruence.
  - intros j Hj. destruct (decide (j = i)) as [->|Hji].
    + rewrite Hsame, Fl, lookup_insert_eq. by rewrite bool_decide_true.
    + rewrite (Hoth _ Hji), lookup_insert_ne by done. auto.
  - intros j Hj. destruct (decide (j = i)) as [->|Hji].
    + rewrite Hsame, lookup_insert_eq. by rewrite (decide_True (P := is_Some (Some n))) by done.
    + rewrite (Hoth _ Hji), lookup_insert_ne by done. auto.
  - intros j Hj. destruct (decide (j = i)) as [->|Hji]; [by rewrite Hsame, Fx, Fn|].
    rewrite (Hoth _ Hji). auto.
  - exact H8.
  - intros m Hm. destruct (H9 m Hm) as (j & Hj & Hjd & Hjn & Hjv & Hjh). exists j.
    destruct (decide (j = i)) as [->|Hji].
    + rewrite Hsame, lookup_insert_eq. destruct Hjh as [Hjh|Hjp]; [rewrite Hh in Hjh; by destruct Hjh|].
      destruct Hc as [(_ & _ & Hc3)|[Hc _]]; [|rewrite Hc in Hjp; by destruct Hjp].
      split_and!; try done; [congruence|by right].
    + rewrite (Hoth _ Hji), lookup_insert_ne by done. auto.
Qed.

(** A buffer is free unless as many as there are buffers are held or pinned. *)
Lemma unused_exists s V H P D l :
  brep s V H P D -> ring s l -> (size H + size P < NBUF)%nat ->
  exists i, List.find (fun i => unused (bat s i)) (rev l) = Some i.
Proof.
  intros Hb Hr Hsz. destruct (List.find _ _) as [i|] eqn:E; [by exists i|exfalso].
  assert (Hall : forall i, i ∈ seq 0 NBUF -> i ∈ (dom H ∪ dom P : gset nat)).
  { intros i Hi. assert (Hil : i ∈ rev l).
    { rewrite <- in_rev_elem, (ring_elem s) by done. apply elem_of_seq in Hi. lia. }
    apply list_elem_of_In in Hil. pose proof (List.find_none _ _ E i Hil) as Hu. simpl in Hu.
    apply elem_of_seq in Hi. unfold unused in Hu. rewrite (br_ref _ _ _ _ _ Hb) in Hu by lia.
    apply elem_of_union. rewrite !elem_of_dom. repeat case_decide; try done; [by left|by left|by right]. }
  assert (size (list_to_set (seq 0 NBUF) : gset nat) <= size (dom H ∪ dom P : gset nat))%nat as Hle.
  { apply subseteq_size. intros i Hi. apply Hall. set_solver. }
  rewrite size_list_to_set, length_seq in Hle by apply NoDup_seq.
  pose proof (size_union_alt (dom H) (dom P)) as Hu.
  pose proof (subseteq_size (dom P ∖ dom H : gset nat) (dom P) ltac:(set_solver)) as Hs.
  rewrite !size_dom in *. lia.
Qed.

Lemma find_elem (l : list nat) f i : List.find f l = Some i -> i ∈ l /\ f i = true.
Proof. intros [? ?]%List.find_some. by rewrite list_elem_of_In. Qed.

Lemma not_held s V H P D i :
  brep s V H P D -> (i < NBUF)%nat -> b_lock (bat s i) = false -> H !! i = None.
Proof.
  intros Hb Hi Hl. rewrite (br_lock _ _ _ _ _ Hb) in Hl by done.
  apply bool_decide_eq_false in Hl. by destruct (H !! i); [destruct Hl|].
Qed.

Lemma acquiresleep_free s b :
  b_lock (bat s b) = false -> acquiresleep b s = Ok tt (upd_buf b (set_lock true) s).
Proof. intros Hl. unfold acquiresleep, bind, get. by rewrite Hl. Qed.

Definition claim_buf (b : buf) : buf := set_lock true (set_refcnt (u32 (b_refcnt b + 1)) b).

Lemma bget_eq s l n :
  ring s l ->
  bget dev n s =
    match List.find (fun i => is_block dev n (bat s i)) l with
    | Some b => (incref b;;; acquiresleep b;;; ret b) s
    | None =>
        match List.find (fun i => unused (bat s i)) (rev l) with
        | Some b => (modify (upd_buf b (recycle dev n));;; acquiresleep b;;; ret b) s
        | None => Panic "bget: no buffers"
        end
    end.
Proof.
  intros Hr. unfold bget. unfold bind at 1, gets at 1. unfold bind at 1.
  rewrite (ring_scan_next s l) by done. destruct (List.find _ l); [done|].
  unfold bind at 1, gets at 1. unfold bind at 1. rewrite (ring_scan_prev s l) by done.
  by destruct (List.find _ (rev l)).
Qed.

(** [bget] of a block that the process does not hold: the buffer that has it,
    or else the least recently used buffer that nobody uses. *)
Lemma bget_spec s V H P D l n :
  brep s V H P D -> ring s l -> (forall i, H !! i <> Some n) ->
  (exists i, cached s n i) \/ (size H + size P < NBUF)%nat ->
  exists i, H !! i = None /\ (i < NBUF)%nat /\
   ((cached s n i /\ bget dev n s = Ok i (upd_buf i claim_buf s)) \/
    ((forall j, ~ cached s n j) /\ P !! i = None /\
     List.find (fun i => unused (bat s i)) (rev l) = Some i /\
     bget dev n s = Ok i (upd_buf i (fun b => set_lock true (recycle dev n b)) s))).
Proof.
  intros Hb Hr Hn Hsz. rewrite (bget_eq s l n Hr).
  assert (Hlen : forall i, (i < NBUF)%nat -> (i < length (bufs s))%nat) by (destruct Hr as [-> _]; lia).
  assert (Hunl : forall i, (i < NBUF)%nat -> H !! i = None -> b_lock (bat s i) = false).
  { intros i Hi Hh. rewrite (br_lock _ _ _ _ _ Hb) by done. rewrite Hh.
    by apply bool_decide_false; intros []. }
  destruct (List.find (fun i => is_block dev n (bat s i)) l) as [i|] eqn:E.
  - apply find_elem in E as [Hil Hk]. apply (ring_elem s) in Hil as Hi; [|done].
    unfold is_block in Hk. apply andb_true_iff in Hk as [Hd%Z.eqb_eq Hbn%Z.eqb_eq].
    assert (Hh : H !! i = None).
    { destruct (H !! i) as [m|] eqn:Em; [|done]. destruct (br_held _ _ _ _ _ Hb _ _ Em) as (_ & _ & ? & _).
      destruct (Hn i). congruence. }
    exists i. split; [done|]. split; [done|]. left. split; [done|].
    unfold bind, incref, modify. rewrite acquiresleep_free by (rewrite bat_upd_eq by auto; by apply Hunl).
    by rewrite upd_upd.
  - assert (Hc : forall j, ~ cached s n j).
    { intros j (Hj & Hd & Hbn). apply (ring_elem s l) in Hj; [|done].
      pose proof (List.find_none _ _ E j (proj1 (list_elem_of_In _ _) Hj)) as Hk. simpl in Hk.
      unfold is_block in Hk. rewrite Hd, Hbn, !Z.eqb_refl in Hk. done. }
    destruct Hsz as [[j Hj]|Hsz]; [by destruct (Hc j)|].
    destruct (unused_exists s V H P D l Hb Hr Hsz) as [i Ei].
    rewrite Ei.
    apply find_elem in Ei as Hi. destruct Hi as [Hil%in_rev_elem Hu%Z.eqb_eq].
    apply (ring_elem s) in Hil as Hi; [|done]. rewrite (br_ref _ _ _ _ _ Hb) in Hu by done.
    assert (Hh : H !! i = None /\ P !! i = None).
    { repeat case_decide; try done. by rewrite !eq_None_not_Some. }
    destruct Hh as [Hh HP]. exists i. split; [done|]. split; [done|]. right.
    split; [done|]. split; [done|]. split; [done|]. unfold bind, modify.
    rewrite acquiresleep_free by (rewrite bat_upd_eq by auto; by apply Hunl). by rewrite upd_upd.
Qed.

(** [bread] of a block that the process does not hold. *)
Lemma bread_spec s V H P D n :
  brep s V H P D -> (forall i, H !! i <> Some n) ->
  (exists i, cached s n i) \/ (size H + size P < NBUF)%nat ->
  exists i s', bread dev n s = Ok i s' /\ H !! i = None /\ brep s' V (<[i := n]> H) P D /\
    disk s' = disk s /\ trace s' = trace s.
Proof.
  intros Hb Hn Hsz. destruct (br_ring _ _ _ _ _ Hb) as [l Hr].
  destruct (bget_spec s V H P D l n Hb Hr Hn Hsz) as (i & Hh & Hi & Hcase).
  assert (Hlen : (i < length (bufs s))%nat) by (destruct Hr as [-> _]; lia).
  assert (Hrf : b_refcnt (bat s i) = if decide (is_Some (P !! i)) then 1 else 0).
  { rewrite (br_ref _ _ _ _ _ Hb) by done. rewrite Hh. by rewrite decide_False by (intros []; done). }
  assert (Hu : u32 (b_refcnt (bat s i) + 1) = 1 + b_refcnt (bat s i)).
  { rewrite Hrf. case_decide; reflexivity. }
  exists i. unfold bread. unfold bind at 1.
  destruct Hcase as [[Hc ->]|(Hc & HP & _ & ->)]; unfold bind at 1, gets at 1;
    rewrite bat_upd_eq by done; cbn [claim_buf set_lock set_refcnt recycle b_valid].
  - destruct Hc as (_ & Hd & Hbn). destruct (b_valid (bat s i)) eqn:Hv; simpl.
    + eexists. split; [done|]. split; [done|]. split; [|done].
      apply brep_take; simpl; try done; [by left|congruence|].
      rewrite <- Hbn. by apply (br_data _ _ _ _ _ Hb).
    + unfold bind, modify. eexists. split; [done|]. split; [done|]. split; [|done].
      rewrite !upd_upd, bat_upd_eq by done. simpl. rewrite Hd, Hbn.
      apply brep_take; simpl; try done; [by left|congruence|].
      apply (br_disk _ _ _ _ _ Hb). intros HnD.
      destruct (br_dirty _ _ _ _ _ Hb n HnD) as (j & Hj & Hjd & Hjn & Hjv & _).
      assert (j = i) as -> by (apply (br_uniq _ _ _ _ _ Hb); congruence). congruence.
  - unfold bind, modify. eexists. split; [done|]. split; [done|]. split; [|done].
    rewrite !upd_upd, bat_upd_eq by done. simpl.
    apply brep_take; simpl; try done; [by right|by rewrite HP|].
    apply (br_disk _ _ _ _ _ Hb). intros HnD.
    destruct (br_dirty _ _ _ _ _ Hb n HnD) as (j & Hj & Hjd & Hjn & _). by apply (Hc j).
Qed.

(** The process writes into a buffer it holds. *)
Lemma brep_set_data s V H P D i n d :
  brep s V H P D -> H !! i = Some n ->
  brep (upd_buf i (set_data d) s) (<[n := d]> V) H P ({[n]} ∪ D).
Proof.
  intros Hb Hh. destruct (br_held _ _ _ _ _ Hb i n Hh) as (Hi & Hd & Hn & Hv).
  destruct Hb as [[l Hr] H2 H3 H4 H5 H6 H7 H8 H9].
  assert (Hlen : (i < length (bufs s))%nat) by (destruct Hr as [-> _]; lia).
  set (s' := upd_buf i (set_data d) s).
  assert (Hoth : forall j, j <> i -> bat s' j = bat s j) by (intros; by apply bat_upd_ne).
  assert (Hsame : bat s' i = set_data d (bat s i)) by by apply bat_upd_eq.
  assert (Hmeta : forall j, b_valid (bat s' j) = b_valid (bat s j) /\ b_dev (bat s' j) = b_dev (bat s j) /\
    b_blockno (bat s' j) = b_blockno (bat s j) /\ b_lock (bat s' j) = b_lock (bat s j) /\
    b_refcnt (bat s' j) = b_refcnt (bat s j)).
  { intros j. destruct (decide (j = i)) as [->|Hj]; [by rewrite Hsame|by rewrite Hoth]. }
  split.
  - exists l. by apply ring_upd.
  - intros j k ? ?. destruct (Hmeta j) as (_ & -> & -> & _), (Hmeta k) as (_ & -> & -> & _). auto.
  - intros j m ?. destruct (Hmeta j) as (-> & -> & -> & _). auto.
  - intros j m ?. destruct (Hmeta j) as (-> & -> & -> & _). auto.
  - intros j ?. destruct (Hmeta j) as (_ & _ & _ & -> & _). auto.
  - intros j ?. destruct (Hmeta j) as (_ & _ & _ & _ & ->). auto.
  - intros j Hj. destruct (Hmeta j) as (-> & -> & -> & _). intros Hjd Hjv.
    destruct (decide (j = i)) as [->|Hji].
    + rewrite Hsame, Hn, fn_lookup_insert. done.
    + rewrite Hoth by done. rewrite fn_lookup_insert_ne; [by apply H7|].
      intros ->. apply Hji, H2; congruence.
  - intros m Hm. rewrite fn_lookup_insert_ne by set_solver. apply H8. set_solver.
  - intros m [->%elem_of_singleton|Hm]%elem_of_union.
    + exists i. destruct (Hmeta i) as (-> & -> & -> & _). split_and!; try done. left. by rewrite Hh.
    + destruct (H9 m Hm) as (j & ?). exists j. destruct (Hmeta j) as (-> & -> & -> & _). done.
Qed.

Lemma holding s V H P D i n : brep s V H P D -> H !! i = Some n -> b_lock (bat s i) = true.
Proof.
  intros Hb Hh. destruct (br_held _ _ _ _ _ Hb i n Hh) as (Hi & _).
  rewrite (br_lock _ _ _ _ _ Hb) by done. apply bool_decide_true. by rewrite Hh.
Qed.

Lemma bwrite_spec s V H P D i n :
  brep s V H P D -> H !! i = Some n ->
  exists s', bwrite i s = Ok tt s' /\ brep s' V H P (D ∖ {[n]}) /\
    disk s' = <[(dev, n) := V n]> (disk s) /\ trace s' = trace s ++ [(dev, n, V n)].
Proof.
  intros Hb Hh. destruct (br_held _ _ _ _ _ Hb i n Hh) as (Hi & Hd & Hn & Hv).
  unfold bwrite, bind, holdingsleep, gets. rewrite (holding s V H P D i n) by done. simpl.
  unfold modify. eexists. split; [done|].
  assert (Hx : b_data (bat s i) = V n) by (rewrite <- Hn; by apply (br_data _ _ _ _ _ Hb)).
  rewrite Hd, Hn, Hx. split; [|done].
  destruct Hb as [H1 H2 H3 H4 H5 H6 H7 H8 H9]. split; try done.
  - intros m Hm. unfold dat. simpl. destruct (decide (m = n)) as [->|Hne].
    + by rewrite lookup_insert_eq.
    + rewrite lookup_insert_ne by congruence. apply H8. set_solver.
  - intros m Hm. apply H9. set_solver.
Qed.

(** Changing only the lock and the reference count of buffer [i]. *)
Lemma brep_meta s V H P D i f H' P' :
  brep s V H P D -> (i < NBUF)%nat ->
  (forall b, b_valid (f b) = b_valid b /\ b_dev (f b) = b_dev b /\ b_blockno (f b) = b_blockno b /\
     b_data (f b) = b_data b /\ b_next (f b) = b_next b /\ b_prev (f b) = b_prev b) ->
  (forall j, j <> i -> H' !! j = H !! j) -> (forall j, j <> i -> P' !! j = P !! j) ->
  (H' !! i = None \/ H' !! i = H !! i) ->
  (P' !! i = None \/ P' !! i = P !! i \/ P' !! i = H !! i) ->
  b_lock (f (bat s i)) = bool_decide (is_Some (H' !! i)) ->
  b_refcnt (f (bat s i)) =
    (if decide (is_Some (H' !! i)) then 1 else 0) + (if decide (is_Some (P' !! i)) then 1 else 0) ->
  (b_blockno (bat s i) ∈ D -> is_Some (H' !! i) \/ is_Some (P' !! i)) ->
  brep (upd_buf i f s) V H' P' D.
Proof.
  intros Hb Hi Hf HH HP Hhi HPi Fl Fr HD. destruct Hb as [[l Hr] H2 H3 H4 H5 H6 H7 H8 H9].
  assert (Hlen : (i < length (bufs s))%nat) by (destruct Hr as [-> _]; lia).
  set (s' := upd_buf i f s).
  assert (Hoth : forall j, j <> i -> bat s' j = bat s j) by (intros; by apply bat_upd_ne).
  assert (Hsame : bat s' i = f (bat s i)) by by apply bat_upd_eq.
  assert (He : forall j, b_valid (bat s' j) = b_valid (bat s j) /\ b_dev (bat s' j) = b_dev (bat s j) /\
    b_blockno (bat s' j) = b_blockno (bat s j) /\ b_data (bat s' j) = b_data (bat s j)).
  { intros j. destruct (decide (j = i)) as [->|Hj]; [|by rewrite Hoth].
    rewrite Hsame. destruct (Hf (bat s i)) as (? & ? & ? & ? & _). done. }
  split.
  - exists l. destruct (Hf (bat s i)) as (_ & _ & _ & _ & ? & ?). by apply ring_upd.
  - intros j k ? ?. destruct (He j) as (_ & -> & -> & _), (He k) as (_ & -> & -> & _). auto.
  - intros j m Hj. destruct (He j) as (-> & -> & -> & _). apply H3.
    destruct (decide (j = i)) as [->|]; [|by rewrite <- HH]. destruct Hhi; congruence.
  - intros j m Hj. destruct (He j) as (-> & -> & -> & _). destruct (decide (j = i)) as [->|].
    + destruct HPi as [HPi|[HPi|HPi]]; [congruence|apply H4; congruence|apply H3; congruence].
    + apply H4. by rewrite <- HP.
  - intros j Hj. destruct (decide (j = i)) as [->|Hji]; [by rewrite Hsame|].
    rewrite Hoth, HH by done. auto.
  - intros j Hj. destruct (decide (j = i)) as [->|Hji]; [by rewrite Hsame|].
    rewrite Hoth, HH, H6 by done. by rewrite HP.
  - intros j ?. destruct (He j) as (-> & -> & -> & ->). auto.
  - exact H8.
  - intros m Hm. destruct (H9 m Hm) as (j & Hj & Hjd & Hjn & Hjv & Hjh). exists j.
    destruct (He j) as (-> & -> & -> & _). split_and!; try done.
    destruct (decide (j = i)) as [->|]; [apply HD; congruence|].
    rewrite HH, HP by done. done.
Qed.

(** A held buffer has one reference more than its pin. *)
Lemma held_ref s V H P D i n :
  brep s V H P D -> H !! i = Some n -> b_refcnt (bat s i) = 1 + if decide (is_Some (P !! i)) then 1 else 0.
Proof.
  intros Hb Hh. destruct (br_held _ _ _ _ _ Hb i n Hh) as (Hi & _).
  rewrite (br_ref _ _ _ _ _ Hb) by done. rewrite Hh. by rewrite (decide_True (P := is_Some (Some n))).
Qed.

Lemma bpin_spec s V H P D i n :
  brep s V H P D -> H !! i = Some n -> P !! i = None ->
  exists s', bpin i s = Ok tt s' /\ brep s' V H (<[i := n]> P) D /\
    disk s' = disk s /\ trace s' = trace s.
Proof.
  intros Hb Hh HP. destruct (br_held _ _ _ _ _ Hb i n Hh) as (Hi & Hd & Hn & Hv).
  eexists. split; [done|]. split; [|done].
  eapply brep_meta; try done; simpl.
  - intros j Hj. by rewrite lookup_insert_ne.
  - by right.
  - right. right. by rewrite lookup_insert_eq, Hh.
  - by rewrite (holding s V H P D i n), Hh.
  - by rewrite (held_ref s V H P D i n), Hh, HP, lookup_insert_eq.
  - intros _. left. by rewrite Hh.
Qed.

Lemma bunpin_spec s V H P D i n :
  brep s V H P D -> H !! i = Some n -> is_Some (P !! i) ->
  exists s', bunpin i s = Ok tt s' /\ brep s' V H (delete i P) D /\
    disk s' = disk s /\ trace s' = trace s.
Proof.
  intros Hb Hh HP. destruct (br_held _ _ _ _ _ Hb i n Hh) as (Hi & Hd & Hn & Hv).
  eexists. split; [done|]. split; [|done].
  eapply brep_meta; try done; simpl.
  - intros j Hj. by rewrite lookup_delete_ne.
  - by right.
  - left. apply lookup_delete_eq.
  - by rewrite (holding s V H P D i n), Hh.
  - rewrite (held_ref s V H P D i n), Hh, lookup_delete_eq by done. by destruct HP as [? ->].
  - intros _. left. by rewrite Hh.
Qed.

Lemma brelse_spec s V H P D i n :
  brep s V H P D -> H !! i = Some n -> n ∉ D \/ is_Some (P !! i) ->
  exists s', brelse i s = Ok tt s' /\ brep s' V (delete i H) P D /\
    disk s' = disk s /\ trace s' = trace s.
Proof.
  intros Hb Hh HD. destruct (br_held _ _ _ _ _ Hb i n Hh) as (Hi & Hd & Hn & Hv).
  unfold brelse, holdingsleep. unfold bind at 1, gets at 1. rewrite (holding s V H P D i n) by done.
  cbn [negb]. unfold bind at 1, modify at 1. unfold bind at 1, decref, modify at 1. rewrite upd_upd.
  set (f := fun b : buf => set_refcnt _ _). set (s1 := upd_buf i f s).
  pose proof (held_ref s V H P D i n Hb Hh) as Href.
  assert (Hrf : b_refcnt (f (bat s i)) = if decide (is_Some (P !! i)) then 1 else 0).
  { unfold f. simpl. rewrite Href. case_decide; reflexivity. }
  assert (Hb1 : brep s1 V (delete i H) P D).
  { eapply brep_meta; try done.
    - intros j Hj. by rewrite lookup_delete_ne.
    - left. apply lookup_delete_eq.
    - by right; left.
    - by rewrite lookup_delete_eq.
    - rewrite Hrf, lookup_delete_eq. rewrite (decide_False (P := is_Some None)) by (intros []; done). done.
    - intros ?. right. destruct HD; [congruence|done]. }
  assert (Hlen : (i < length (bufs s))%nat).
  { destruct (br_ring _ _ _ _ _ Hb) as [l [-> _]]. lia. }
  unfold bind at 1, gets at 1. unfold s1 at 1. rewrite bat_upd_eq, Hrf by done.
  destruct (br_ring _ _ _ _ _ Hb1) as [l Hr]. destruct (decide (is_Some (P !! i))); cbn [Z.eqb].
  - exists s1. done.
  - assert (Hil : i ∈ l) by by apply (ring_elem s1).
    apply list_elem_of_split in Hil as (l1 & l2 & ->).
    destruct (ring_move s1 l1 i l2 Hr) as (s' & E & Hr' & Hp').
    exists s'. split; [exact E|]. destruct Hp' as (Hp1 & Hp2 & Hp3).
    split; [|by rewrite Hp2, Hp3]. eapply brep_payload; [by split_and!|by eexists|done].
Qed.
End rep.

(** ** Initialisation *)

(** The cache in the zeroed memory of a fresh kernel. *)
Definition bboot (d : gmap (Z * Z) block) : bst := mkBst (replicate (S NBUF) buf0) d [].

Lemma binit_loop s0 : (forall i, b_lock (bat s0 i) = false) -> forall bs s l,
  length (bufs s) = S NBUF -> lseg (nxf s) (pvf s) head l head -> same_payload s0 s ->
  NoDup (head :: l ++ bs) -> (forall i, i ∈ l ++ bs -> (i < NBUF)%nat) ->
  exists s', for_each bs (fun b => modify (upd_buf b (set_lock false));;; push_front b) s = Ok tt s' /\
    length (bufs s') = S NBUF /\ lseg (nxf s') (pvf s') head (rev bs ++ l) head /\ same_payload s0 s'.
Proof.
  intros Hlock. induction bs as [|b bs IH]; intros s l Hlen Hl Hp Hnd Hin; [by exists s|].
  set (s1 := upd_buf b (set_lock false) s).
  assert (Hb : (b < NBUF)%nat) by (apply Hin, elem_of_app; right; by left).
  assert (Hp1 : same_payload s s1).
  { apply same_payload_upd. destruct Hp as [Hp _]. specialize (Hp b). unfold payload in *. simpl.
    specialize (Hlock b). congruence. }
  destruct (push_front_spec s1 l b) as (s2 & E & Hlen2 & Hl2 & Hp2).
  - unfold s1. by rewrite length_upd.
  - done.
  - destruct (link_upd s b (set_lock false)) as [Hn Hv]; [lia|].
    eapply lseg_ext; [by apply Hn|by apply Hv|exact Hl].
  - rewrite <- Permutation_middle in Hnd. nodups Hnd. repeat (apply NoDup_cons; split); set_solver.
  - intros i Hi. apply Hin. set_solver.
  - destruct (IH s2 (b :: l)) as (s' & E' & ?); try done.
    + by rewrite Hp, Hp1.
    + rewrite <- Permutation_middle in Hnd. exact Hnd.
    + intros i Hi. apply Hin. set_solver.
    + exists s'. cbn [for_each]. unfold bind, modify. fold s1. rewrite E.
      split; [exact E'|]. cbn [rev]. by rewrite <- app_assoc.
Qed.

Lemma bat_bboot d i : bat (bboot d) i = buf0.
Proof.
  unfold bat. change (bufs (bboot d)) with (replicate (S NBUF) buf0).
  destruct (replicate (S NBUF) buf0 !! i) as [b|] eqn:E; [|done].
  apply lookup_replicate in E as [-> _]. reflexivity.
Qed.

(** After [binit] the last buffer of the array is the first of the list. *)
Lemma binit_ring d :
  exists s, binit (bboot d) = Ok tt s /\ ring s (rev (seq 0 NBUF)) /\ same_payload (bboot d) s.
Proof.
  unfold binit. unfold bind at 1, modify at 1. unfold bind at 1, modify at 1.
  set (s1 := upd_buf head _ _).
  assert (Hp : same_payload (bboot d) s1).
  { unfold s1. etransitivity; [|by apply same_payload_upd]. by apply same_payload_upd. }
  destruct (binit_loop (bboot d)) with (bs := seq 0 NBUF) (s := s1) (l := @nil nat)
    as (s & E & Hlen & Hl & Hps); try done.
  - intros i. by rewrite bat_bboot.
  - rewrite app_nil_l. apply NoDup_cons. split; [|apply NoDup_seq]. rewrite elem_of_seq. unfold head. lia.
  - intros i. rewrite app_nil_l, elem_of_seq. lia.
  - exists s. split; [exact E|]. clear E. split; [|done]. rewrite app_nil_r in Hl.
    split_and!; [done| |done]. by rewrite <- Permutation_rev.
Qed.

Lemma fresh_payload d s i :
  same_payload (bboot d) s ->
  b_dev (bat s i) = 0 /\ b_lock (bat s i) = false /\ b_refcnt (bat s i) = 0.
Proof.
  intros (Hps & _). specialize (Hps i). rewrite bat_bboot in Hps.
  change (payload buf0) with (false, 0, 0, false, 0, zero_block) in Hps. unfold payload in Hps.
  split_and!; congruence.
Qed.

Lemma binit_spec dev d :
  dev <> 0 -> exists s, binit (bboot d) = Ok tt s /\
    brep dev s (fun n => default zero_block (d !! (dev, n))) ∅ ∅ ∅ /\ disk s = d /\ trace s = [].
Proof.
  intros Hdev. destruct (binit_ring d) as (s & E & Hr & Hps). exists s. split; [exact E|]. clear E.
  pose proof (fun i => fresh_payload d s i Hps) as He. destruct Hps as (_ & Hd & Ht).
  split; [|done]. split.
  - by eexists.
  - intros i j _ _ Hi. destruct (He i). congruence.
  - intros i n Hi. by rewrite lookup_empty in Hi.
  - intros i n Hi. by rewrite lookup_empty in Hi.
  - intros i _. rewrite lookup_empty. by destruct (He i) as (_ & -> & _).
  - intros i _. rewrite !lookup_empty. destruct (He i) as (_ & _ & ->).
    rewrite !decide_False by (by intros []). done.
  - intros i _ Hi. destruct (He i). congruence.
  - intros n _. unfold dat. by rewrite Hd.
  - intros n Hn. set_solver.
Qed.

(** C13: the buffer cache behaves as an array of blocks.  [binit] starts it on the
    content of the disk.  In every later state [bread] of a block the process
    does not hold returns a buffer, locked, with the current content of the
    block, whichever buffer it has to recycle; [bwrite] makes the disk agree
    with the buffer; [brelse], [bpin] and [bunpin] change no content; and each
    of them succeeds as long as fewer than [NBUF] buffers are in use. *)
Theorem bcache_refines_array dev :
  (dev <> 0 -> forall d, exists s, binit (bboot d) = Ok tt s /\
     brep dev s (fun n => default zero_block (d !! (dev, n))) ∅ ∅ ∅) /\
  (forall s V H P D, brep dev s V H P D ->
    (forall n, (forall i, H !! i <> Some n) -> (size H + size P < NBUF)%nat ->
       exists i s', bread dev n s = Ok i s' /\ H !! i = None /\
         brep dev s' V (<[i := n]> H) P D /\ b_data (bat s' i) = V n /\ disk s' = disk s) /\
    (forall i n, H !! i = Some n ->
       (exists s', bwrite i s = Ok tt s' /\ brep dev s' V H P (D ∖ {[n]}) /\
          disk s' = <[(dev, n) := V n]> (disk s)) /\
       (n ∉ D \/ is_Some (P !! i) -> exists s', brelse i s = Ok tt s' /\ brep dev s' V (delete i H) P D /\
          disk s' = disk s) /\
       (P !! i = None -> exists s', bpin i s = Ok tt s' /\ brep dev s' V H (<[i := n]> P) D) /\
       (is_Some (P !! i) -> exists s', bunpin i s = Ok tt s' /\ brep dev s' V H (delete i P) D))).
Proof.
  split.
  - intros Hdev d. destruct (binit_spec dev d Hdev) as (s & ? & ? & _). by exists s.
  - intros s V H P D Hb. split.
    + intros n Hn Hsz. destruct (bread_spec dev s V H P D n Hb Hn (or_intror Hsz)) as (i & s' & E & Hh & Hb' & Hd & _).
      exists i, s'. split_and!; try done.
      destruct (br_held _ _ _ _ _ _ Hb' i n (lookup_insert_eq _ _ _)) as (Hi & Hd' & Hn' & Hv).
      rewrite <- Hn'. by apply (br_data _ _ _ _ _ _ Hb').
    + intros i n Hh. split_and!.
      * destruct (bwrite_spec dev s V H P D i n Hb Hh) as (s' & ? & ? & ? & _). by exists s'.
      * intros HD. destruct (brelse_spec dev s V H P D i n Hb Hh HD) as (s' & ? & ? & ? & _). by exists s'.
      * intros HP. destruct (bpin_spec dev s V H P D i n Hb Hh HP) as (s' & ? & ? & _). by exists s'.
      * intros HP. destruct (bunpin_spec dev s V H P D i n Hb Hh HP) as (s' & ? & ? & _). by exists s'.
Qed.

(** the list is kept in order of use.  A block that no buffer has goes into
    the unused buffer nearest the tail, none of which is left untouched longer;
    a release that leaves the buffer unused moves it to the front and keeps the
    order of the others; and with every buffer in use [bget] panics. *)
Theorem bcache_lru dev n s l :
  ring s l ->
  (forall i, is_block dev n (bat s i) = true -> i ∉ l) ->
  (forall b, List.find (fun i => unused (bat s i)) (rev l) = Some b -> b_lock (bat s b) = false ->
     exists s', bget dev n s = Ok b s' /\ ring s' l /\ b_dev (bat s' b) = dev /\
       b_blockno (bat s' b) = n /\ b_valid (bat s' b) = false /\ b_refcnt (bat s' b) = 1) /\
  ((forall i, i ∈ l -> b_refcnt (bat s i) <> 0) -> bget dev n s = Panic "bget: no buffers") /\
  (forall l1 b l2, l = l1 ++ b :: l2 -> b_lock (bat s b) = true -> b_refcnt (bat s b) = 1 ->
     exists s', brelse b s = Ok tt s' /\ ring s' (b :: l1 ++ l2) /\
       b_refcnt (bat s' b) = 0 /\ b_lock (bat s' b) = false).
Proof.
  intros Hr Hn.
  assert (Hnone : List.find (fun i => is_block dev n (bat s i)) l = None).
  { destruct (List.find _ l) as [i|] eqn:E; [|done]. apply find_elem in E as [? Hi].
    by destruct (Hn i Hi). }
  assert (Hlen : forall i, (i < NBUF)%nat -> (i < length (bufs s))%nat) by (destruct Hr as [-> _]; lia).
  rewrite (bget_eq dev s l n Hr), Hnone. split_and!.
  - intros b Eb Hlk. rewrite Eb. apply find_elem in Eb as [Hb%in_rev_elem _].
    apply (ring_elem s l b Hr) in Hb. unfold bind, modify.
    rewrite acquiresleep_free by (by rewrite bat_upd_eq by auto). rewrite upd_upd.
    eexists. split; [done|]. rewrite bat_upd_eq by auto. split; [|done]. apply ring_upd; auto.
  - intros Hall. destruct (List.find _ (rev l)) as [b|] eqn:Eb; [|done].
    apply find_elem in Eb as [Hb%in_rev_elem Hu%Z.eqb_eq]. by destruct (Hall b Hb).
  - intros l1 b l2 -> Hlk Hrf. assert (Hb : (b < NBUF)%nat).
    { apply (ring_elem _ _ b Hr), elem_of_app. right. by left. }
    unfold brelse, holdingsleep. unfold bind at 1, gets at 1. rewrite Hlk. cbn [negb].
    unfold bind at 1, modify at 1. unfold bind at 1, decref, modify at 1. rewrite upd_upd.
    set (f := fun b : buf => set_refcnt _ _). set (s1 := upd_buf b f s).
    assert (Hf : b_refcnt (f (bat s b)) = 0) by (unfold f; simpl; by rewrite Hrf).
    unfold bind at 1, gets at 1. unfold s1 at 1. rewrite bat_upd_eq, Hf by auto. cbn [Z.eqb].
    destruct (ring_move s1 l1 b l2) as (s' & E & Hr' & Hp' & _).
    { apply ring_upd; auto. }
    exists s'. split; [exact E|]. split; [done|]. specialize (Hp' b). unfold s1 in Hp'.
    rewrite bat_upd_eq in Hp' by auto. unfold payload in Hp'. unfold f in *. simpl in *.
    split; congruence.
Qed.

(** The witness runs on a freshly initialised cache. *)
Lemma bcache_refines_array_witness :
  exists s V i s', brep 1 s V ∅ ∅ ∅ /\ bread 1 5 s = Ok i s' /\ b_data (bat s' i) = V 5.
Proof.
  destruct (bcache_refines_array 1) as [Hinit Hops].
  destruct (Hinit ltac:(discriminate) ∅) as (s & _ & Hb).
  destruct (Hops s _ _ _ _ Hb) as [Hread _].
  destruct (Hread 5) as (i & s' & E & _ & _ & Hd & _);
    [intros i; rewrite lookup_empty; discriminate|vm_compute; lia|].
  eexists s, _, i, s'. split; [exact Hb|]. split; [exact E|exact Hd].
Defined.

Lemma bcache_lru_witness : exists s s', ring s (rev (seq 0 NBUF)) /\ bget 1 5 s = Ok 0%nat s'.
Proof.
  destruct (binit_ring ∅) as (s & _ & Hr & Hps).
  destruct (bcache_lru 1 5 s (rev (seq 0 NBUF)) Hr) as (H & _).
  - intros i Hi _. unfold is_block in Hi. destruct (fresh_payload ∅ s i Hps) as (Hd & _).
    rewrite Hd in Hi. discriminate Hi.
  - destruct (H 0%nat) as (s' & E & _).
    + rewrite rev_involutive. cbn [List.find seq NBUF]. unfold unused.
      destruct (fresh_payload ∅ s 0 Hps) as (_ & _ & ->). reflexivity.
    + destruct (fresh_payload ∅ s 0 Hps) as (_ & -> & _). reflexivity.
    + exists s, s'. split; [exact Hr|exact E].
Defined.
