(* ===== verification/Log.v ===== *)
(** * The write-ahead log ([kernel/log.c])

    System calls write through [log_write], which only records the block and
    pins its buffer; the last system call of a group commits: the blocks go to
    the log area, then the header, which is the commit point, then home, then
    the header is cleared.  [recover_from_log] replays a committed log at
    boot.  The critical sections under [log.lock] are atomic; a [sleep] of
    [begin_op] is the outcome [Blocked]. *)

From S2P Require Import Prelude Bio.

Definition MAXOPBLOCKS : Z := 10.
Definition LOGSIZE : Z := MAXOPBLOCKS * 3.

(** ** State *)

(** [struct log], with the header [lh] as the fields [l_n] and [l_block]. *)
Record logst := mkLog {
  l_start : Z; l_size : Z; l_outstanding : Z; l_committing : bool; l_dev : Z;
  l_n : Z; l_block : list Z
}.

Record lst := mkLst { bc : bst; lg : logst }.

Definition set_bc (b : bst) (s : lst) : lst := mkLst b (lg s).
Definition upd_lg (f : logst -> logst) (s : lst) : lst := mkLst (bc s) (f (lg s)).

Definition set_outstanding (o : Z) (l : logst) : logst :=
  mkLog (l_start l) (l_size l) o (l_committing l) (l_dev l) (l_n l) (l_block l).
Definition set_committing (c : bool) (l : logst) : logst :=
  mkLog (l_start l) (l_size l) (l_outstanding l) c (l_dev l) (l_n l) (l_block l).
Definition set_n (n : Z) (l : logst) : logst :=
  mkLog (l_start l) (l_size l) (l_outstanding l) (l_committing l) (l_dev l) n (l_block l).
Definition set_block (i : nat) (b : Z) (l : logst) : logst :=
  mkLog (l_start l) (l_size l) (l_outstanding l) (l_committing l) (l_dev l) (l_n l)
        (<[i := b]> (l_block l)).
Definition set_area (start size dev : Z) (l : logst) : logst :=
  mkLog start size (l_outstanding l) (l_committing l) dev (l_n l) (l_block l).

(** The buffer cache as part of this state. *)
Definition lbio {A} (m : M bst A) : M lst A := zoom bc set_bc m.
Definition bdata (b : nat) : M lst block := gets (fun s => b_data (bat (bc s) b)).
Definition bset_data (b : nat) (d : block) : M lst unit :=
  lbio (modify (upd_buf b (set_data d))).

(** [log.lh.block[i]]: an access outside the array is undefined. *)
Definition lh_block (i : nat) : M lst Z :=
  l <- gets lg;; from_opt (l_block l !! i).
Definition lh_set_block (i : nat) (b : Z) : M lst unit :=
  l <- gets lg;;
  if decide (i < length (l_block l))%nat then modify (upd_lg (set_block i b)) else undef.

(** ** [struct logheader] in a block *)

Definition hb_n (d : block) : Z := i32 (rd 4 0 d).
Definition hb_block (i : nat) (d : block) : Z := i32 (rd 4 (4 + 4 * i) d).
Definition hb_set_n (n : Z) (d : block) : block := wr 4 0 n d.
Definition hb_set_block (i : nat) (b : Z) (d : block) : block := wr 4 (4 + 4 * i) b d.

(** ** Operations *)

(** The loops run while [tail < log.lh.n]. *)
Definition tails (n : Z) : list nat := seq 0 (Z.to_nat n).

Definition install_one (recovering : bool) (tail : nat) : M lst unit :=
  l <- gets lg;;
  lbuf <- lbio (bread (l_dev l) (u32 (l_start l + Z.of_nat tail + 1)));;
  n <- lh_block tail;;
  dbuf <- lbio (bread (l_dev l) (u32 n));;
  d <- bdata lbuf;;
  bset_data dbuf d;;;
  lbio (bwrite dbuf);;;
  (if recovering then ret tt else lbio (bunpin dbuf));;;
  lbio (brelse lbuf);;;
  lbio (brelse dbuf).

Definition install_trans (recovering : bool) : M lst unit :=
  l <- gets lg;; for_each (tails (l_n l)) (install_one recovering).

Definition read_head : M lst unit :=
  l <- gets lg;;
  buf <- lbio (bread (l_dev l) (u32 (l_start l)));;
  d <- bdata buf;;
  modify (upd_lg (set_n (hb_n d)));;;
  for_each (tails (hb_n d)) (fun i => lh_set_block i (hb_block i d));;;
  lbio (brelse buf).

Definition write_head : M lst unit :=
  l <- gets lg;;
  buf <- lbio (bread (l_dev l) (u32 (l_start l)));;
  d <- bdata buf;;
  bset_data buf (hb_set_n (l_n l) d);;;
  for_each (tails (l_n l)) (fun i =>
    b <- lh_block i;;
    d <- bdata buf;;
    bset_data buf (hb_set_block i b d));;;
  lbio (bwrite buf);;;
  lbio (brelse buf).

Definition recover_from_log : M lst unit :=
  read_head;;;
  install_trans true;;;
  modify (upd_lg (set_n 0));;;
  write_head.

(** [sizeof(struct logheader)] is 4 + 4 * LOGSIZE. *)
Definition initlog (dev logstart nlog : Z) : M lst unit :=
  if BSIZE <=? 4 + 4 * LOGSIZE then panic "initlog: too big logheader"
  else
    modify (upd_lg (set_area (i32 logstart) (i32 nlog) dev));;;
    recover_from_log.

Definition begin_op : M lst unit :=
  l <- gets lg;;
  if l_committing l then blocked
  else if LOGSIZE <? l_n l + (l_outstanding l + 1) * MAXOPBLOCKS then blocked
  else modify (upd_lg (set_outstanding (l_outstanding l + 1))).

Definition write_log_one (tail : nat) : M lst unit :=
  l <- gets lg;;
  to <- lbio (bread (l_dev l) (u32 (l_start l + Z.of_nat tail + 1)));;
  n <- lh_block tail;;
  from <- lbio (bread (l_dev l) (u32 n));;
  d <- bdata from;;
  bset_data to d;;;
  lbio (bwrite to);;;
  lbio (brelse from);;;
  lbio (brelse to).

Definition write_log : M lst unit :=
  l <- gets lg;; for_each (tails (l_n l)) write_log_one.

Definition commit : M lst unit :=
  l <- gets lg;;
  if 0 <? l_n l then
    write_log;;;
    write_head;;;
    install_trans false;;;
    modify (upd_lg (set_n 0));;;
    write_head
  else ret tt.

Definition end_op : M lst unit :=
  modify (fun s => upd_lg (set_outstanding (l_outstanding (lg s) - 1)) s);;;
  l <- gets lg;;
  if l_committing l then panic "log.committing"
  else if l_outstanding l =? 0 then
    modify (upd_lg (set_committing true));;;
    commit;;;
    modify (upd_lg (set_committing false))
  else ret tt.

(** The first slot below [n] that holds [blockno], or [n]. *)
Fixpoint find_slot (bs : list Z) (n : nat) (blockno : Z) (i : nat) : nat :=
  match n with
  | O => i
  | S n =>
      if u32 (default 0 (bs !! i)) =? blockno then i else find_slot bs n blockno (S i)
  end.

Definition log_write (b : nat) : M lst unit :=
  l <- gets lg;;
  if (LOGSIZE <=? l_n l) || (l_size l - 1 <=? l_n l) then panic "too big a transaction"
  else if l_outstanding l <? 1 then panic "log_write outside of trans"
  else
    blockno <- gets (fun s => b_blockno (bat (bc s) b));;
    let i := find_slot (l_block l) (Z.to_nat (l_n l)) blockno 0 in
    lh_set_block i (i32 blockno);;;
    if Z.of_nat i =? l_n l then
      lbio (bpin b);;;
      modify (upd_lg (set_n (l_n l + 1)))
    else ret tt.
