(* ===== verification/LogSpec.v ===== *)
(** * What the log promises

    The log operations of [Log] on top of the cache's contract in [Bio]: what
    each writes to disk and in which order, and from that the crash theorem: at
    whatever point of a commit or of a recovery the machine stops, the next
    recovery finds either the state before the group of system calls or the
    state after it. *)

From S2P Require Import Prelude Bio Log.

(** ** Sequences of disk writes *)

Abbreviation view := (Z -> block).

Definition aw (f : view) (ws : list (Z * block)) : view :=
  foldl (fun f w => <[w.1 := w.2]> f) f ws.

Lemma aw_app f ws ws' : aw f (ws ++ ws') = aw (aw f ws) ws'.
Proof. apply foldl_app. Qed.

Lemma aw_notin ws : forall f n, n ∉ ws.*1 -> aw f ws n = f n.
Proof.
  induction ws as [|[k b] ws IH]; intros f n Hn; [done|]. simpl in *.
  rewrite IH by set_solver. apply fn_lookup_insert_ne. set_solver.
Qed.

Lemma aw_in ws : forall f k b, NoDup ws.*1 -> (k, b) ∈ ws -> aw f ws k = b.
Proof.
  induction ws as [|[k' b'] ws IH]; intros f k b Hnd Hin; [by apply elem_of_nil in Hin|].
  simpl in *. apply NoDup_cons in Hnd as [Hn Hnd]. apply elem_of_cons in Hin as [[= -> ->]|Hin].
  - rewrite aw_notin by done. apply fn_lookup_insert.
  - by apply IH.
Qed.

Lemma aw_ext ws : forall f g, (forall n, f n = g n) -> forall n, aw f ws n = aw g ws n.
Proof.
  induction ws as [|[k b] ws IH]; intros f g Hfg n; [done|]. simpl. apply IH. intros m.
  destruct (decide (m = k)) as [->|]; [by rewrite !fn_lookup_insert|by rewrite !fn_lookup_insert_ne].
Qed.

(** ** The header block *)

Definition hdr_enc (L : list Z) (d : block) : block :=
  foldl (fun d p => hb_set_block p.1 p.2 d) (hb_set_n (Z.of_nat (length L)) d)
        (zip (seq 0 (length L)) L).

Lemma length_hdr_fold ps : forall d, length d = Z.to_nat BSIZE ->
  (forall p, p ∈ ps -> (p.1 < 255)%nat) ->
  length (foldl (fun d (p : nat * Z) => hb_set_block p.1 p.2 d) d ps) = Z.to_nat BSIZE.
Proof.
  induction ps as [|p ps IH]; intros d Hd Hps; [done|]. simpl. apply IH; [|set_solver].
  unfold hb_set_block. rewrite length_wr; [done|]. rewrite Hd.
  assert (p.1 < 255)%nat by (apply Hps; by left). change (Z.to_nat BSIZE) with 1024%nat. lia.
Qed.

Lemma zip_seq_lt (L : list Z) k p : p ∈ zip (seq k (length L)) L -> (k <= p.1 < k + length L)%nat.
Proof.
  intros Hp. destruct p as [i b]. apply elem_of_zip_l in Hp. apply elem_of_seq in Hp. simpl. lia.
Qed.

Lemma length_hdr_enc L d :
  length d = Z.to_nat BSIZE -> (length L <= 30)%nat -> length (hdr_enc L d) = Z.to_nat BSIZE.
Proof.
  intros Hd HL. apply length_hdr_fold.
  - unfold hb_set_n. rewrite length_wr; [done|]. rewrite Hd. change (Z.to_nat BSIZE) with 1024%nat. lia.
  - intros p Hp%zip_seq_lt. lia.
Qed.

Lemma hdr_fold_snoc d ps p :
  foldl (fun d (p : nat * Z) => hb_set_block p.1 p.2 d) d (ps ++ [p]) =
  hb_set_block p.1 p.2 (foldl (fun d (p : nat * Z) => hb_set_block p.1 p.2 d) d ps).
Proof. by rewrite foldl_app. Qed.

(** Fields that the loop does not write, or wrote last. *)
Lemma hdr_fold_other ps n off : forall d, length d = Z.to_nat BSIZE ->
  (forall p, p ∈ ps -> (p.1 < 255)%nat /\ (off + n <= 4 + 4 * p.1 \/ 4 + 4 * p.1 + 4 <= off)%nat) ->
  rd n off (foldl (fun d (p : nat * Z) => hb_set_block p.1 p.2 d) d ps) = rd n off d.
Proof.
  induction ps as [|p ps IH]; intros d Hd Hps; [done|]. simpl.
  destruct (Hps p) as [Hp1 Hp2]; [by left|].
  assert (4 + 4 * p.1 + 4 <= length d)%nat by (rewrite Hd; change (Z.to_nat BSIZE) with 1024%nat; lia).
  rewrite IH.
  - unfold hb_set_block. apply rd_wr_other; lia.
  - unfold hb_set_block. by rewrite length_wr.
  - intros q Hq. apply Hps. by right.
Qed.

Lemma hb_n_enc L d :
  length d = Z.to_nat BSIZE -> (length L <= 30)%nat -> hb_n (hdr_enc L d) = Z.of_nat (length L).
Proof.
  intros Hd HL. unfold hb_n, hdr_enc. rewrite hdr_fold_other.
  - unfold hb_set_n. rewrite rd_wr_same by (rewrite Hd; change (Z.to_nat BSIZE) with 1024%nat; lia).
    change (256 ^ Z.of_nat 4) with (2 ^ 32). rewrite Z.mod_small by lia. apply i32_small. lia.
  - unfold hb_set_n. rewrite length_wr; [done|]. rewrite Hd. change (Z.to_nat BSIZE) with 1024%nat. lia.
  - intros p Hp%zip_seq_lt. lia.
Qed.

Lemma hdr_fold_at L : forall k d i b, length d = Z.to_nat BSIZE -> (k + length L <= 255)%nat ->
  L !! i = Some b ->
  rd 4 (4 + 4 * (k + i)) (foldl (fun d (p : nat * Z) => hb_set_block p.1 p.2 d) d
    (zip (seq k (length L)) L)) = b mod 2 ^ 32.
Proof.
  induction L as [|x L IH]; intros k d i b Hd Hk Hi; [done|]. simpl in Hk. cbn [length seq zip foldl].
  assert (4 + 4 * k + 4 <= length d)%nat by (rewrite Hd; change (Z.to_nat BSIZE) with 1024%nat; lia).
  destruct i as [|i]; simpl in Hi.
  - injection Hi as ->. rewrite Nat.add_0_r, hdr_fold_other.
    + cbn [fst snd]. unfold hb_set_block. by rewrite rd_wr_same.
    + unfold hb_set_block. by rewrite length_wr.
    + intros p Hp%zip_seq_lt. lia.
  - replace (k + S i)%nat with (S k + i)%nat by lia. apply IH; [|lia|done].
    unfold hb_set_block. by rewrite length_wr.
Qed.

Lemma hb_block_enc L d i b :
  length d = Z.to_nat BSIZE -> (length L <= 30)%nat -> L !! i = Some b -> 0 <= b < 2 ^ 31 ->
  hb_block i (hdr_enc L d) = b.
Proof.
  intros Hd HL Hi Hb. unfold hb_block, hdr_enc. rewrite (hdr_fold_at L 0 _ i b); [|..|lia|done].
  - rewrite Z.mod_small by lia. apply i32_small. lia.
  - unfold hb_set_n. rewrite length_wr; [done|]. rewrite Hd. change (Z.to_nat BSIZE) with 1024%nat. lia.
Qed.

(** ** The log on disk

    [logged d] is the list of blocks in the header of disk [d]; [logical d] is
    the disk that recovery leads to. *)

Section log.
Variables dev start : Z.
Hypothesis start_range : 0 <= start /\ start + LOGSIZE + 1 < 2 ^ 31.

Definition in_log (n : Z) : Prop := start <= n <= start + LOGSIZE.

Definition logged (d : view) : list Z :=
  (fun i => hb_block i (d start)) <$> tails (hb_n (d start)).
Definition log_blocks (d : view) (k : nat) : list block :=
  (fun i => d (start + Z.of_nat i + 1)) <$> seq 0 k.
Definition install_writes (L : list Z) (d : view) : list (Z * block) :=
  zip L (log_blocks d (length L)).
Definition logical (d : view) : view := aw d (install_writes (logged d) d).

(** A set of blocks that may be logged. *)
Record log_ok (L : list Z) : Prop := {
  lo_nodup : NoDup L;
  lo_len : (length L <= Z.to_nat LOGSIZE)%nat;
  lo_data : forall b, b ∈ L -> 0 <= b < 2 ^ 31 /\ ~ in_log b
}.

(** The writes of a commit of the blocks [L] with contents [V]. *)
Definition log_writes (L : list Z) (V : view) : list (Z * block) :=
  zip ((fun i => start + Z.of_nat i + 1) <$> seq 0 (length L)) (V <$> L).
Definition home_writes (L : list Z) (V : view) : list (Z * block) := zip L (V <$> L).
Definition commit_writes (L : list Z) (V : view) (h : block) : list (Z * block) :=
  log_writes L V ++ [(start, hdr_enc L h)] ++ home_writes L V ++ [(start, hdr_enc [] (hdr_enc L h))].

Lemma logged_enc L h d :
  log_ok L -> length h = Z.to_nat BSIZE -> d start = hdr_enc L h -> logged d = L.
Proof.
  intros [Hnd Hlen Hdata] Hh Hd. unfold logged. rewrite Hd.
  assert (length L <= 30)%nat by (change (Z.to_nat LOGSIZE) with 30%nat in Hlen; lia).
  rewrite hb_n_enc by done. unfold tails. rewrite Nat2Z.id. apply list_eq. intros i.
  rewrite list_lookup_fmap. destruct (L !! i) as [b|] eqn:E.
  - pose proof (lookup_lt_Some _ _ _ E). rewrite lookup_seq_lt by done. simpl. f_equal.
    apply hb_block_enc; try done. apply Hdata. by eapply list_elem_of_lookup_2.
  - apply lookup_ge_None in E. rewrite lookup_seq_ge by lia. done.
Qed.

Lemma logged_empty d : hb_n (d start) <= 0 -> logged d = [].
Proof. intros Hn. unfold logged, tails. by replace (Z.to_nat (hb_n (d start))) with 0%nat by lia. Qed.

Lemma logical_empty d n : hb_n (d start) <= 0 -> logical d n = d n.
Proof. intros Hn. unfold logical. by rewrite logged_empty. Qed.

Lemma length_log_writes L V : length (log_writes L V) = length L.
Proof. unfold log_writes. rewrite length_zip, !length_fmap, length_seq. lia. Qed.
Lemma length_home_writes L V : length (home_writes L V) = length L.
Proof. unfold home_writes. rewrite length_zip, !length_fmap. lia. Qed.

Lemma fst_log_writes L V : (log_writes L V).*1 = (fun i => start + Z.of_nat i + 1) <$> seq 0 (length L).
Proof. unfold log_writes. apply fst_zip. rewrite !length_fmap, length_seq. lia. Qed.
Lemma fst_home_writes L V : (home_writes L V).*1 = L.
Proof. unfold home_writes. apply fst_zip. rewrite !length_fmap. lia. Qed.

Lemma log_write_at L V i b :
  L !! i = Some b -> (start + Z.of_nat i + 1, V b) ∈ log_writes L V.
Proof.
  intros Hi. pose proof (lookup_lt_Some _ _ _ Hi). apply list_elem_of_lookup_2 with i.
  unfold log_writes. rewrite lookup_zip_with, !list_lookup_fmap, Hi, lookup_seq_lt by done. done.
Qed.

Lemma home_write_at L V b : b ∈ L -> (b, V b) ∈ home_writes L V.
Proof.
  intros [i Hi]%list_elem_of_lookup_1. apply list_elem_of_lookup_2 with i.
  unfold home_writes. by rewrite lookup_zip_with, list_lookup_fmap, Hi.
Qed.

Lemma log_writes_region L V k n :
  log_ok L -> n ∈ (take k (log_writes L V)).*1 -> in_log n /\ n <> start.
Proof.
  intros [_ Hlen _] Hn. rewrite fmap_take, fst_log_writes in Hn.
  apply elem_of_take in Hn as (i & Hi & _). rewrite list_lookup_fmap in Hi.
  apply fmap_Some in Hi as (j & [-> Hj]%lookup_seq & ->).
  unfold in_log. change (Z.to_nat LOGSIZE) with 30%nat in Hlen. unfold LOGSIZE, MAXOPBLOCKS. lia.
Qed.

Lemma NoDup_log_writes L V : NoDup (log_writes L V).*1.
Proof.
  rewrite fst_log_writes. apply NoDup_fmap_2; [|apply NoDup_seq]. intros i j. lia.
Qed.

(** What recovery makes of a disk whose header lists [L]. *)
Lemma logical_in L h d i b :
  log_ok L -> length h = Z.to_nat BSIZE -> d start = hdr_enc L h -> L !! i = Some b ->
  logical d b = d (start + Z.of_nat i + 1).
Proof.
  intros Hok Hh Hd Hi. unfold logical. rewrite (logged_enc L h d Hok Hh Hd).
  pose proof (lookup_lt_Some _ _ _ Hi). apply aw_in.
  - unfold install_writes. rewrite fst_zip; [apply Hok|]. unfold log_blocks.
    rewrite length_fmap, length_seq. lia.
  - apply list_elem_of_lookup_2 with i. unfold install_writes, log_blocks.
    by rewrite lookup_zip_with, Hi, list_lookup_fmap, lookup_seq_lt.
Qed.

Lemma logical_out L h d n :
  log_ok L -> length h = Z.to_nat BSIZE -> d start = hdr_enc L h -> n ∉ L -> logical d n = d n.
Proof.
  intros Hok Hh Hd Hn. unfold logical. rewrite (logged_enc L h d Hok Hh Hd).
  apply aw_notin. unfold install_writes. rewrite fst_zip; [done|]. unfold log_blocks.
  rewrite length_fmap, length_seq. lia.
Qed.

(** A header block that lists nothing. *)
Lemma hb_n_clear h : length h = Z.to_nat BSIZE -> hb_n (hdr_enc [] h) <= 0.
Proof. intros Hh. rewrite hb_n_enc; [simpl; lia|done|simpl; lia]. Qed.

Lemma log_ok_start L : log_ok L -> start ∉ L.
Proof.
  intros Hok Hin. destruct (lo_data _ Hok _ Hin) as [_ H]. apply H. unfold in_log, LOGSIZE, MAXOPBLOCKS. lia.
Qed.

(** The disk between the header write and the end of the installation. *)
Lemma logical_committed L V h d k n :
  log_ok L -> length h = Z.to_nat BSIZE -> ~ in_log n ->
  logical (aw (<[start := hdr_enc L h]> (aw d (log_writes L V))) (take k (home_writes L V))) n =
    if decide (n ∈ L) then V n else d n.
Proof.
  intros Hok Hh Hn. set (d1 := aw d (log_writes L V)). set (d3 := aw _ _).
  assert (Hkeys : forall m, m ∉ L -> m ∉ (take k (home_writes L V)).*1).
  { intros m Hm. rewrite fmap_take, fst_home_writes. intros Ht. apply Hm.
    apply elem_of_take in Ht as (i & Hi & _). by eapply list_elem_of_lookup_2. }
  assert (Hs : d3 start = hdr_enc L h).
  { unfold d3. rewrite aw_notin by by apply Hkeys, log_ok_start. apply fn_lookup_insert. }
  case_decide as Hin.
  - apply list_elem_of_lookup_1 in Hin as [i Hi]. rewrite (logical_in L h d3 i n) by done.
    pose proof (lookup_lt_Some _ _ _ Hi). destruct Hok as [? Hlen Hdata].
    change (Z.to_nat LOGSIZE) with 30%nat in Hlen.
    assert (in_log (start + Z.of_nat i + 1)) as Hreg by (unfold in_log, LOGSIZE, MAXOPBLOCKS; lia).
    unfold d3. rewrite aw_notin.
    + rewrite fn_lookup_insert_ne by lia. apply aw_in; [apply NoDup_log_writes|by apply log_write_at].
    + apply Hkeys. intros Hl. by apply (Hdata _ Hl).
  - rewrite (logical_out L h d3 n) by done. unfold d3. rewrite aw_notin by by apply Hkeys.
    rewrite fn_lookup_insert_ne. 2:{ intros <-. apply Hn. unfold in_log, LOGSIZE, MAXOPBLOCKS. lia. }
    unfold d1. apply aw_notin. intros Hl. apply Hn.
    rewrite <- (firstn_all (log_writes L V)) in Hl. by eapply log_writes_region.
Qed.

(** Stopping a commit after [k] writes: recovery finds the old contents up to
    the header write and the new ones from then on. *)
Lemma commit_crash L V h d k n :
  log_ok L -> length h = Z.to_nat BSIZE -> hb_n (d start) <= 0 -> ~ in_log n ->
  logical (aw d (take k (commit_writes L V h))) n =
    if decide (k <= length L)%nat then d n else if decide (n ∈ L) then V n else d n.
Proof.
  intros Hok Hh Hd Hn. unfold commit_writes.
  pose proof (length_log_writes L V) as HL1. pose proof (length_home_writes L V) as HL2.
  destruct (decide (k <= length L)%nat) as [Hk|Hk].
  - rewrite take_app_le by lia.
    assert (Hs : aw d (take k (log_writes L V)) start = d start).
    { apply aw_notin. intros Hl. by apply log_writes_region in Hl as [_ Hl]. }
    rewrite logical_empty by by rewrite Hs. apply aw_notin. intros Hl.
    apply Hn. by eapply log_writes_region.
  - rewrite take_app_ge by lia. rewrite aw_app, HL1.
    destruct (k - length L)%nat as [|j] eqn:Ej; [lia|]. cbn [app firstn]. cbn [aw foldl].
    change (foldl _ ?f ?ws) with (aw f ws).
    destruct (decide (j <= length L)%nat) as [Hj|Hj].
    + rewrite take_app_le by lia. by apply logical_committed.
    + rewrite firstn_all2 by (rewrite length_app; simpl; lia). rewrite aw_app.
      set (d2 := <[start := hdr_enc L h]> (aw d (log_writes L V))).
      set (d3 := aw d2 (home_writes L V)). cbn [aw foldl fst snd].
      assert (n <> start) as Hns.
      { intros ->. apply Hn. unfold in_log, LOGSIZE, MAXOPBLOCKS. lia. }
      rewrite logical_empty.
      2:{ rewrite fn_lookup_insert. apply hb_n_clear. apply length_hdr_enc; [done|].
          pose proof (lo_len _ Hok) as Hlen. change (Z.to_nat LOGSIZE) with 30%nat in Hlen. lia. }
      rewrite fn_lookup_insert_ne by done. unfold d3. case_decide as Hin.
      * apply aw_in; [rewrite fst_home_writes; apply Hok|by apply home_write_at].
      * rewrite aw_notin by by rewrite fst_home_writes. unfold d2.
        rewrite fn_lookup_insert_ne by done. apply aw_notin. intros Hl. apply Hn.
        rewrite <- (firstn_all (log_writes L V)) in Hl. by eapply log_writes_region.
Qed.

(** Stopping a recovery after [k] writes changes nothing for the next one. *)
Lemma recovery_crash L h d k n :
  log_ok L -> length h = Z.to_nat BSIZE -> d start = hdr_enc L h -> ~ in_log n ->
  logical (aw d (take k (install_writes L d ++ [(start, hdr_enc [] (d start))]))) n = logical d n.
Proof.
  intros Hok Hh Hd Hn.
  assert (Hfst : (install_writes L d).*1 = L).
  { unfold install_writes. apply fst_zip. unfold log_blocks. rewrite length_fmap, length_seq. lia. }
  assert (Hlen : length (install_writes L d) = length L) by (rewrite <- (length_fmap fst), Hfst; done).
  destruct (decide (k <= length L)%nat) as [Hk|Hk].
  - rewrite take_app_le by lia. set (d1 := aw d _).
    assert (Hkeys : forall m, m ∉ L -> d1 m = d m).
    { intros m Hm. apply aw_notin. rewrite fmap_take, Hfst. intros Ht. apply Hm.
      apply elem_of_take in Ht as (i & Hi & _). by eapply list_elem_of_lookup_2. }
    assert (Hs : d1 start = hdr_enc L h) by (rewrite (Hkeys start (log_ok_start L Hok)); done).
    destruct (decide (n ∈ L)) as [Hin|Hin].
    + apply list_elem_of_lookup_1 in Hin as [i Hi].
      rewrite (logical_in L h d1 i n), (logical_in L h d i n) by done. apply Hkeys. intros Hl.
      pose proof (lookup_lt_Some _ _ _ Hi). destruct Hok as [? Hlen' Hdata].
      change (Z.to_nat LOGSIZE) with 30%nat in Hlen'.
      apply (Hdata _ Hl). unfold in_log, LOGSIZE, MAXOPBLOCKS. lia.
    + rewrite (logical_out L h d1 n), (logical_out L h d n) by done. by apply Hkeys.
  - rewrite firstn_all2 by (rewrite length_app; simpl; lia). rewrite aw_app. cbn [aw foldl fst snd].
    rewrite logical_empty.
    2:{ rewrite fn_lookup_insert, Hd. apply hb_n_clear, length_hdr_enc; [done|].
        pose proof (lo_len _ Hok) as Hl. change (Z.to_nat LOGSIZE) with 30%nat in Hl. lia. }
    rewrite fn_lookup_insert_ne.
    2:{ intros <-. apply Hn. unfold in_log, LOGSIZE, MAXOPBLOCKS. lia. }
    unfold logical. by rewrite (logged_enc L h d Hok Hh Hd).
Qed.

(** ** The cache under the log *)

Record rep (s : lst) (l : logst) (V : view) (H P : gmap nat Z) (D : gset Z)
    (Dk : view) (t : list (Z * Z * block)) : Prop := {
  rp_lg : lg s = l;
  rp_b : brep dev (bc s) V H P D;
  rp_dk : forall n, dat (bc s) (dev, n) = Dk n;
  rp_t : trace (bc s) = t;
  rp_len : forall n, length (V n) = Z.to_nat BSIZE
}.

Lemma rep_ext s l V V' H P D Dk Dk' t :
  rep s l V H P D Dk t -> (forall n, V' n = V n) -> (forall n, Dk' n = Dk n) ->
  rep s l V' H P D Dk' t.
Proof.
  intros [E1 [H1 H2 H3 H4 H5 H6 H7 H8 H9] E3 E4 E5] HV HDk. split; try done.
  - split; try done.
    + intros i ? ? ?. rewrite HV. auto.
    + intros n ?. rewrite HV. auto.
  - intros n. by rewrite HDk.
  - intros n. by rewrite HV.
Qed.

Lemma rep_bread s l V H P D Dk t n :
  rep s l V H P D Dk t -> (forall i, H !! i <> Some n) ->
  (exists i, P !! i = Some n) \/ (size H + size P < NBUF)%nat ->
  exists i s', lbio (bread dev n) s = Ok i s' /\ H !! i = None /\
    rep s' l V (<[i := n]> H) P D Dk t.
Proof.
  intros [E1 E2 E3 E4 E5] Hn Hc.
  destruct (bread_spec dev (bc s) V H P D n E2 Hn) as (i & b & E & Hi & Hb & Hd & Ht).
  { destruct Hc as [[i Hi]|]; [left|by right]. exists i.
    by destruct (br_pin _ _ _ _ _ _ E2 i n Hi) as (? & ? & ? & _). }
  exists i, (set_bc b s). split; [by apply zoom_ok|]. split; [done|]. split; try done.
  - intros m. unfold dat. simpl. rewrite Hd. apply E3.
  - simpl. congruence.
Qed.

Lemma rep_bdata s l V H P D Dk t i n :
  rep s l V H P D Dk t -> H !! i = Some n -> bdata i s = Ok (V n) s.
Proof.
  intros [E1 E2 E3 E4 E5] Hi. unfold bdata, gets. f_equal.
  destruct (br_held _ _ _ _ _ _ E2 i n Hi) as (? & ? & <- & ?). by apply (br_data _ _ _ _ _ _ E2).
Qed.

Lemma rep_bset s l V H P D Dk t i n d :
  rep s l V H P D Dk t -> H !! i = Some n -> length d = Z.to_nat BSIZE ->
  exists s', bset_data i d s = Ok tt s' /\ rep s' l (<[n := d]> V) H P ({[n]} ∪ D) Dk t.
Proof.
  intros [E1 E2 E3 E4 E5] Hi Hd. eexists. split; [by apply zoom_ok|]. split; try done.
  - by apply brep_set_data.
  - intros m. destruct (decide (m = n)) as [->|];
      [by rewrite fn_lookup_insert|by rewrite fn_lookup_insert_ne].
Qed.

Lemma rep_bwrite s l V H P D Dk t i n :
  rep s l V H P D Dk t -> H !! i = Some n ->
  exists s', lbio (bwrite i) s = Ok tt s' /\
    rep s' l V H P (D ∖ {[n]}) (<[n := V n]> Dk) (t ++ [(dev, n, V n)]).
Proof.
  intros [E1 E2 E3 E4 E5] Hi.
  destruct (bwrite_spec dev (bc s) V H P D i n E2 Hi) as (b & E & Hb & Hd & Ht).
  exists (set_bc b s). split; [by apply zoom_ok|]. split; try done.
  - intros m. unfold dat. simpl. rewrite Hd. destruct (decide (m = n)) as [->|].
    + by rewrite lookup_insert_eq, fn_lookup_insert.
    + rewrite lookup_insert_ne, fn_lookup_insert_ne by congruence. apply E3.
  - simpl. congruence.
Qed.

Lemma rep_same_disk s l V H P D Dk t b H' P' :
  rep s l V H P D Dk t -> brep dev b V H' P' D -> disk b = disk (bc s) -> trace b = trace (bc s) ->
  rep (set_bc b s) l V H' P' D Dk t.
Proof.
  intros [E1 E2 E3 E4 E5] Hb Hd Ht. split; try done.
  - intros n. unfold dat. simpl. rewrite Hd. apply E3.
  - simpl. congruence.
Qed.

Lemma rep_brelse s l V H P D Dk t i n :
  rep s l V H P D Dk t -> H !! i = Some n -> n ∉ D \/ is_Some (P !! i) ->
  exists s', lbio (brelse i) s = Ok tt s' /\ rep s' l V (delete i H) P D Dk t.
Proof.
  intros Hr Hi HD. pose proof (rp_b _ _ _ _ _ _ _ _ Hr) as E2.
  destruct (brelse_spec dev (bc s) V H P D i n E2 Hi HD) as (b & E & Hb & Hd & Ht).
  exists (set_bc b s). split; [by apply zoom_ok|]. by eapply rep_same_disk.
Qed.

Lemma rep_bpin s l V H P D Dk t i n :
  rep s l V H P D Dk t -> H !! i = Some n -> P !! i = None ->
  exists s', lbio (bpin i) s = Ok tt s' /\ rep s' l V H (<[i := n]> P) D Dk t.
Proof.
  intros Hr Hi HP. pose proof (rp_b _ _ _ _ _ _ _ _ Hr) as E2.
  destruct (bpin_spec dev (bc s) V H P D i n E2 Hi HP) as (b & E & Hb & Hd & Ht).
  exists (set_bc b s). split; [by apply zoom_ok|]. by eapply rep_same_disk.
Qed.

Lemma rep_bunpin s l V H P D Dk t i n :
  rep s l V H P D Dk t -> H !! i = Some n -> is_Some (P !! i) ->
  exists s', lbio (bunpin i) s = Ok tt s' /\ rep s' l V H (delete i P) D Dk t.
Proof.
  intros Hr Hi HP. pose proof (rp_b _ _ _ _ _ _ _ _ Hr) as E2.
  destruct (bunpin_spec dev (bc s) V H P D i n E2 Hi HP) as (b & E & Hb & Hd & Ht).
  exists (set_bc b s). split; [by apply zoom_ok|]. by eapply rep_same_disk.
Qed.

Lemma rep_upd_lg s l V H P D Dk t f :
  rep s l V H P D Dk t -> rep (upd_lg f s) (f l) V H P D Dk t.
Proof. intros [E1 E2 E3 E4 E5]. split; try done. simpl. congruence. Qed.

(** A block counts as modified as soon as its buffer is pinned. *)
Lemma rep_grow s l V H P D Dk t i n :
  rep s l V H (<[i := n]> P) D Dk t -> rep s l V H (<[i := n]> P) ({[n]} ∪ D) Dk t.
Proof.
  intros [E1 [H1 H2 H3 H4 H5 H6 H7 H8 H9] E3 E4 E5]. split; try done. split; try done.
  - intros m Hm. apply H8. set_solver.
  - intros m [->%elem_of_singleton|Hm]%elem_of_union; [|auto].
    destruct (H4 i n (lookup_insert_eq _ _ _)) as (? & ? & ? & ?). exists i.
    split_and!; try done. right. by rewrite lookup_insert_eq.
Qed.

Lemma rep_pin_held s l V H P D Dk t i j n :
  rep s l V H P D Dk t -> H !! i = Some n -> P !! j = Some n -> i = j.
Proof.
  intros Hr Hi Hj. pose proof (rp_b _ _ _ _ _ _ _ _ Hr) as E2.
  destruct (br_held _ _ _ _ _ _ E2 i n Hi) as (? & ? & ? & _).
  destruct (br_pin _ _ _ _ _ _ E2 j n Hj) as (? & ? & ? & _).
  apply (br_uniq _ _ _ _ _ _ E2); congruence.
Qed.

(** ** The log state *)

(** The in-memory header lists [L]. *)
Record lh_is (l : logst) (L : list Z) : Prop := {
  lh_start : l_start l = start;
  lh_dev : l_dev l = dev;
  lh_n : l_n l = Z.of_nat (length L);
  lh_len : length (l_block l) = Z.to_nat LOGSIZE;
  lh_blocks : forall i b, L !! i = Some b -> l_block l !! i = Some b
}.

(** The pinned buffers are those of the blocks [L]. *)
Record pins (P : gmap nat Z) (L : list Z) : Prop := {
  pn_all : forall n, n ∈ L -> exists i, P !! i = Some n;
  pn_only : forall i n, P !! i = Some n -> n ∈ L;
  pn_inj : forall i j n, P !! i = Some n -> P !! j = Some n -> i = j;
  pn_size : size P = length L
}.

Lemma lh_block_ok s l V H P D Dk t L i b :
  rep s l V H P D Dk t -> lh_is l L -> L !! i = Some b -> lh_block i s = Ok b s.
Proof.
  intros Hr Hl Hi. unfold lh_block. run1. rewrite (rp_lg _ _ _ _ _ _ _ _ Hr).
  by rewrite (lh_blocks _ _ Hl _ _ Hi).
Qed.

Lemma fn_insert_insert (V : view) n x y m : <[n := x]> (<[n := y]> V) m = (<[n := x]> V) m.
Proof.
  destruct (decide (m = n)) as [->|]; [by rewrite !fn_lookup_insert|by rewrite !fn_lookup_insert_ne].
Qed.

Lemma u32_start : u32 start = start.
Proof. apply u32_small. unfold LOGSIZE, MAXOPBLOCKS in *. lia. Qed.

Lemma write_head_spec s l V P D Dk t L :
  rep s l V ∅ P D Dk t -> lh_is l L -> (length L <= 30)%nat -> start ∉ D ->
  (size P < NBUF)%nat ->
  exists s', write_head s = Ok tt s' /\
    let h := hdr_enc L (V start) in
    rep s' l (<[start := h]> V) ∅ P D (<[start := h]> Dk) (t ++ [(dev, start, h)]).
Proof.
  intros Hr Hl HL HD HP. unfold write_head. run1. rewrite (rp_lg _ _ _ _ _ _ _ _ Hr).
  rewrite (lh_dev _ _ Hl), (lh_start _ _ Hl), u32_start.
  destruct (rep_bread s l V ∅ P D Dk t start Hr) as (buf & s1 & E1 & _ & R1).
  { intros i. by rewrite lookup_empty. }
  { right. by rewrite map_size_empty. }
  run E1. rewrite insert_empty in R1.
  assert (Hbuf : ({[buf := start]} : gmap nat Z) !! buf = Some start) by apply lookup_singleton_eq.
  run (rep_bdata _ _ _ _ _ _ _ _ _ _ R1 Hbuf).
  rewrite (lh_n _ _ Hl). set (d0 := hb_set_n _ (V start)).
  assert (Hd0 : length d0 = Z.to_nat BSIZE).
  { unfold d0, hb_set_n. rewrite length_wr; rewrite (rp_len _ _ _ _ _ _ _ _ Hr); [done|].
    change (Z.to_nat BSIZE) with 1024%nat. lia. }
  destruct (rep_bset _ _ _ _ _ _ _ _ buf start d0 R1 Hbuf Hd0) as (s2 & E2 & R2). run E2.
  set (ps := zip (seq 0 (length L)) L).
  set (hk := fun k => foldl (fun d p => hb_set_block p.1 p.2 d) d0 (take k ps)).
  assert (Hhk : forall k, length (hk k) = Z.to_nat BSIZE).
  { intros k. apply length_hdr_fold; [done|]. intros p (i & Hp & _)%elem_of_take.
    apply list_elem_of_lookup_2, zip_seq_lt in Hp. lia. }
  unfold tails. rewrite Nat2Z.id.
  destruct (for_each_ok (fun k s => rep s l (<[start := hk k]> V) {[buf := start]} P ({[start]} ∪ D) Dk t)
    (fun i => b <- lh_block i;; d <- bdata buf;; bset_data buf (hb_set_block i b d)) (length L))
    with (s := s2) as (s3 & E3 & R3); [|exact R2|].
  { intros k sk Hk Rk. destruct (lookup_lt_is_Some_2 L k Hk) as [b Hb].
    run (lh_block_ok _ _ _ _ _ _ _ _ _ _ _ Rk Hl Hb).
    run (rep_bdata _ _ _ _ _ _ _ _ _ _ Rk Hbuf). rewrite fn_lookup_insert.
    assert (Hnext : hb_set_block k b (hk k) = hk (k + 1)%nat).
    { unfold hk. rewrite Nat.add_1_r, (take_S_r ps k (k, b)), hdr_fold_snoc; [done|].
      unfold ps. rewrite lookup_zip_with, Hb, lookup_seq_lt by done. done. }
    rewrite Hnext.
    destruct (rep_bset _ _ _ _ _ _ _ _ buf start (hk (k + 1)%nat) Rk Hbuf (Hhk _)) as (s' & E & R').
    exists s'. split; [done|].
    replace ({[start]} ∪ ({[start]} ∪ D)) with ({[start]} ∪ D) in R' by set_solver.
    eapply rep_ext; [exact R'| |done]. intros n. symmetry. apply fn_insert_insert. }
  run E3.
  assert (Hh : hk (length L) = hdr_enc L (V start)).
  { unfold hk, ps. rewrite firstn_all2; [done|]. rewrite length_zip. lia. }
  rewrite Hh in R3.
  destruct (rep_bwrite _ _ _ _ _ _ _ _ buf start R3 Hbuf) as (s4 & E4 & R4). run E4.
  rewrite fn_lookup_insert in R4.
  replace (({[start]} ∪ D) ∖ {[start]}) with D in R4 by set_solver.
  destruct (rep_brelse _ _ _ _ _ _ _ _ buf start R4 Hbuf (or_introl HD)) as (s5 & E5 & R5).
  exists s5. split; [done|]. by rewrite delete_singleton_eq in R5.
Qed.

Definition tag (ws : list (Z * block)) : list (Z * Z * block) := (fun w => (dev, w.1, w.2)) <$> ws.

Lemma tag_app ws ws' : tag (ws ++ ws') = tag ws ++ tag ws'.
Proof. apply fmap_app. Qed.

Lemma log_region i : (i < 30)%nat -> in_log (start + Z.of_nat i + 1).
Proof. unfold in_log, LOGSIZE, MAXOPBLOCKS. lia. Qed.

Lemma u32_log i : (i < 30)%nat -> u32 (start + Z.of_nat i + 1) = start + Z.of_nat i + 1.
Proof. intros. apply u32_small. unfold LOGSIZE, MAXOPBLOCKS in *. lia. Qed.

Lemma log_writes_lookup L V k b :
  L !! k = Some b -> log_writes L V !! k = Some (start + Z.of_nat k + 1, V b).
Proof.
  intros Hk. pose proof (lookup_lt_Some _ _ _ Hk).
  unfold log_writes. rewrite lookup_zip_with, !list_lookup_fmap, Hk, lookup_seq_lt by done. done.
Qed.

Lemma write_log_one_spec s l V P D Dk t L k b :
  rep s l V ∅ P D Dk t -> lh_is l L -> log_ok L -> pins P L -> (size P < NBUF)%nat ->
  (forall n, in_log n -> n ∉ D) -> L !! k = Some b ->
  exists s', write_log_one k s = Ok tt s' /\
    let n := start + Z.of_nat k + 1 in
    rep s' l (<[n := V b]> V) ∅ P D (<[n := V b]> Dk) (t ++ [(dev, n, V b)]).
Proof.
  intros Hr Hl Hok Hp HP HD Hk. pose proof (lookup_lt_Some _ _ _ Hk) as Hlt.
  pose proof (lo_len _ Hok) as HL. change (Z.to_nat LOGSIZE) with 30%nat in HL.
  pose proof (list_elem_of_lookup_2 _ _ _ Hk) as HbL.
  destruct (lo_data _ Hok b HbL) as [Hb32 Hbl].
  pose proof (log_region k ltac:(lia)) as Hreg. set (n := start + Z.of_nat k + 1) in *.
  assert (Hnb : n <> b) by (intros ->; done).
  unfold write_log_one. run1. rewrite (rp_lg _ _ _ _ _ _ _ _ Hr).
  rewrite (lh_dev _ _ Hl), (lh_start _ _ Hl), u32_log by lia. fold n.
  destruct (rep_bread s l V ∅ P D Dk t n Hr) as (to & s1 & E1 & _ & R1).
  { intros i. by rewrite lookup_empty. }
  { right. by rewrite map_size_empty. }
  run E1. rewrite insert_empty in R1. run (lh_block_ok _ _ _ _ _ _ _ _ _ _ _ R1 Hl Hk).
  rewrite u32_small by lia.
  destruct (pn_all _ _ Hp b HbL) as [ip Hip].
  destruct (rep_bread s1 l V _ P D Dk t b R1) as (from & s2 & E2 & Hf & R2).
  { intros i Hi. apply lookup_singleton_Some in Hi as [_ ?]. congruence. }
  { left. by exists ip. }
  run E2. apply lookup_singleton_None in Hf.
  assert (Hfr : (<[from := b]> {[to := n]} : gmap nat Z) !! from = Some b) by apply lookup_insert_eq.
  assert (Hto : (<[from := b]> {[to := n]} : gmap nat Z) !! to = Some n).
  { rewrite lookup_insert_ne by congruence. apply lookup_singleton_eq. }
  run (rep_bdata _ _ _ _ _ _ _ _ _ _ R2 Hfr).
  destruct (rep_bset _ _ _ _ _ _ _ _ to n (V b) R2 Hto (rp_len _ _ _ _ _ _ _ _ Hr b)) as (s3 & E3 & R3).
  run E3. destruct (rep_bwrite _ _ _ _ _ _ _ _ to n R3 Hto) as (s4 & E4 & R4). run E4.
  rewrite fn_lookup_insert in R4.
  replace (({[n]} ∪ D) ∖ {[n]}) with D in R4 by (pose proof (HD n Hreg); set_solver).
  pose proof (rep_pin_held _ _ _ _ _ _ _ _ _ _ _ R4 Hfr Hip) as <-.
  destruct (rep_brelse _ _ _ _ _ _ _ _ from b R4 Hfr) as (s5 & E5 & R5); [right; by eexists|].
  run E5. rewrite delete_insert_id in R5 by by apply lookup_singleton_None.
  destruct (rep_brelse _ _ _ _ _ _ _ _ to n R5 (lookup_singleton_eq _ _)) as (s6 & E6 & R6);
    [left; by apply HD|].
  exists s6. split; [done|]. by rewrite delete_singleton_eq in R6.
Qed.

Lemma write_log_spec s l V P D Dk t L :
  rep s l V ∅ P D Dk t -> lh_is l L -> log_ok L -> pins P L -> (size P < NBUF)%nat ->
  (forall n, in_log n -> n ∉ D) ->
  exists s', write_log s = Ok tt s' /\
    let ws := log_writes L V in rep s' l (aw V ws) ∅ P D (aw Dk ws) (t ++ tag ws).
Proof.
  intros Hr Hl Hok Hp HP HD. unfold write_log. run1. rewrite (rp_lg _ _ _ _ _ _ _ _ Hr).
  unfold tails. rewrite (lh_n _ _ Hl), Nat2Z.id. set (ws := log_writes L V).
  destruct (for_each_ok (fun k s => rep s l (aw V (take k ws)) ∅ P D (aw Dk (take k ws)) (t ++ tag (take k ws)))
    write_log_one (length L)) with (s := s) as (s' & E & R).
  - intros k sk Hk Rk. destruct (lookup_lt_is_Some_2 L k Hk) as [b Hb].
    destruct (write_log_one_spec _ _ _ _ _ _ _ L k b Rk Hl Hok Hp HP HD Hb) as (s' & E & R).
    exists s'. split; [done|].
    assert (Hv : aw V (take k ws) b = V b).
    { apply aw_notin. intros Hin%(log_writes_region L V k b Hok).
      destruct (lo_data _ Hok b (list_elem_of_lookup_2 _ _ _ Hb)) as [_ ?]. tauto. }
    simpl in R. rewrite Hv in R.
    rewrite Nat.add_1_r, (take_S_r ws k _ (log_writes_lookup L V k b Hb)), !aw_app, tag_app, app_assoc.
    exact R.
  - simpl. rewrite app_nil_r. exact Hr.
  - exists s'. split; [done|]. by rewrite <- (length_log_writes L V), firstn_all in R.
Qed.

Lemma install_one_spec (recovering : bool) s l V P D Dk t L k b :
  rep s l V ∅ P D Dk t -> lh_is l L -> log_ok L -> (size P < NBUF)%nat ->
  (if recovering then P = ∅ else exists j, P !! j = Some b) ->
  (forall n, in_log n -> n ∉ D) -> L !! k = Some b ->
  exists s' j, install_one recovering k s = Ok tt s' /\
    (recovering = false -> P !! j = Some b) /\
    let x := V (start + Z.of_nat k + 1) in
    rep s' l (<[b := x]> V) ∅ (if recovering then P else delete j P) (D ∖ {[b]})
        (<[b := x]> Dk) (t ++ [(dev, b, x)]).
Proof.
  intros Hr Hl Hok HP Hpin HD Hk. pose proof (lookup_lt_Some _ _ _ Hk) as Hlt.
  pose proof (lo_len _ Hok) as HL. change (Z.to_nat LOGSIZE) with 30%nat in HL.
  pose proof (list_elem_of_lookup_2 _ _ _ Hk) as HbL.
  destruct (lo_data _ Hok b HbL) as [Hb32 Hbl].
  pose proof (log_region k ltac:(lia)) as Hreg. set (n := start + Z.of_nat k + 1) in *.
  assert (Hnb : n <> b) by (intros ->; done).
  unfold install_one. run1. rewrite (rp_lg _ _ _ _ _ _ _ _ Hr).
  rewrite (lh_dev _ _ Hl), (lh_start _ _ Hl), u32_log by lia. fold n.
  destruct (rep_bread s l V ∅ P D Dk t n Hr) as (lb & s1 & E1 & _ & R1).
  { intros i. by rewrite lookup_empty. }
  { right. by rewrite map_size_empty. }
  run E1. rewrite insert_empty in R1. run (lh_block_ok _ _ _ _ _ _ _ _ _ _ _ R1 Hl Hk).
  rewrite u32_small by lia.
  destruct (rep_bread s1 l V _ P D Dk t b R1) as (db & s2 & E2 & Hf & R2).
  { intros i Hi. apply lookup_singleton_Some in Hi as [_ ?]. congruence. }
  { destruct recovering; [right; subst P; rewrite map_size_singleton, map_size_empty; unfold NBUF; lia|by left]. }
  run E2. apply lookup_singleton_None in Hf.
  set (H2 := <[db := b]> {[lb := n]}) in *.
  assert (Hdb : H2 !! db = Some b) by apply lookup_insert_eq.
  assert (Hlb : H2 !! lb = Some n).
  { unfold H2. rewrite lookup_insert_ne by congruence. apply lookup_singleton_eq. }
  run (rep_bdata _ _ _ _ _ _ _ _ _ _ R2 Hlb). set (x := V n) in *.
  destruct (rep_bset _ _ _ _ _ _ _ _ db b x R2 Hdb (rp_len _ _ _ _ _ _ _ _ Hr n)) as (s3 & E3 & R3).
  run E3. destruct (rep_bwrite _ _ _ _ _ _ _ _ db b R3 Hdb) as (s4 & E4 & R4). run E4.
  rewrite fn_lookup_insert in R4.
  replace (({[b]} ∪ D) ∖ {[b]}) with (D ∖ {[b]}) in R4 by set_solver.
  set (P' := if recovering then P else delete db P).
  assert (exists s5, (if recovering then ret tt else lbio (bunpin db)) s4 = Ok tt s5 /\
    (recovering = false -> P !! db = Some b) /\
    rep s5 l (<[b := x]> V) H2 P' (D ∖ {[b]}) (<[b := x]> Dk) (t ++ [(dev, b, x)])) as (s5 & E5 & Hpdb & R5).
  { unfold P'. destruct recovering; [by exists s4|]. destruct Hpin as [j Hj].
    pose proof (rep_pin_held _ _ _ _ _ _ _ _ _ _ _ R4 Hdb Hj) as <-.
    destruct (rep_bunpin _ _ _ _ _ _ _ _ db b R4 Hdb) as (s5 & E5 & R5); [by eexists|]. by exists s5. }
  run E5. destruct (rep_brelse _ _ _ _ _ _ _ _ lb n R5 Hlb) as (s6 & E6 & R6).
  { left. pose proof (HD n Hreg). set_solver. }
  run E6. destruct (rep_brelse _ _ _ _ _ _ _ _ db b R6) as (s7 & E7 & R7).
  { rewrite lookup_delete_ne by congruence. done. }
  { left. set_solver. }
  exists s7, db. split; [done|]. split; [done|]. unfold H2 in R7.
  rewrite delete_insert_ne in R7 by congruence. rewrite delete_singleton_eq in R7.
  by rewrite insert_empty, delete_singleton_eq in R7.
Qed.

(** The log blocks are not among the blocks installed. *)
Lemma aw_install_log L V k n :
  log_ok L -> in_log n -> aw V (take k (install_writes L V)) n = V n.
Proof.
  intros Hok Hn. apply aw_notin. rewrite fmap_take. unfold install_writes.
  rewrite fst_zip by (unfold log_blocks; rewrite length_fmap, length_seq; lia).
  intros (i & Hi & _)%elem_of_take. apply list_elem_of_lookup_2 in Hi.
  by apply (lo_data _ Hok _ Hi).
Qed.

Lemma install_writes_lookup L V k b :
  L !! k = Some b -> install_writes L V !! k = Some (b, V (start + Z.of_nat k + 1)).
Proof.
  intros Hk. pose proof (lookup_lt_Some _ _ _ Hk). unfold install_writes, log_blocks.
  by rewrite lookup_zip_with, Hk, list_lookup_fmap, lookup_seq_lt.
Qed.

Lemma length_install_writes L V : length (install_writes L V) = length L.
Proof. unfold install_writes, log_blocks. rewrite length_zip, length_fmap, length_seq. lia. Qed.

Lemma pins_delete P L j b : NoDup (b :: L) -> pins P (b :: L) -> P !! j = Some b -> pins (delete j P) L.
Proof.
  intros [Hb Hnd]%NoDup_cons [Ha Ho Hi Hs] Hj. split.
  - intros n Hn. destruct (Ha n) as [i Hn']; [by right|]. exists i. rewrite lookup_delete_ne; [done|].
    intros ->. congruence.
  - intros i n [Hij Hn]%lookup_delete_Some. apply Ho in Hn as Hn'.
    apply elem_of_cons in Hn' as [->|?]; [|done]. by destruct Hij; apply (Hi _ _ b).
  - intros i i' n [_ H1]%lookup_delete_Some [_ H2]%lookup_delete_Some. eauto.
  - rewrite map_size_delete, Hj. simpl in *. lia.
Qed.

Lemma pins_insert P L j b :
  pins P L -> b ∉ L -> P !! j = None -> pins (<[j := b]> P) (L ++ [b]).
Proof.
  intros [Ha Ho Hi Hs] Hb Hj. split.
  - intros n [Hn| ->%list_elem_of_singleton]%elem_of_app.
    + destruct (Ha n Hn) as [i Hn']. exists i. rewrite lookup_insert_ne; [done|congruence].
    + exists j. apply lookup_insert_eq.
  - intros i n [[_ <-]|[_ Hn]]%lookup_insert_Some; apply elem_of_app; [right; by left|left; eauto].
  - intros i i' n [[<- <-]|[_ H1]]%lookup_insert_Some [[<- ?]|[_ H2]]%lookup_insert_Some; try done.
    + by apply Ho in H2.
    + subst. by apply Ho in H1.
    + eauto.
  - rewrite map_size_insert_None, length_app by done. simpl. lia.
Qed.

Lemma install_trans_spec (recovering : bool) s l V P D Dk t L :
  rep s l V ∅ P D Dk t -> lh_is l L -> log_ok L -> (size P < NBUF)%nat ->
  (if recovering then P = ∅ else pins P L) -> (forall n, in_log n -> n ∉ D) ->
  exists s', install_trans recovering s = Ok tt s' /\
    let ws := install_writes L V in
    rep s' l (aw V ws) ∅ ∅ (D ∖ list_to_set L) (aw Dk ws) (t ++ tag ws).
Proof.
  intros Hr Hl Hok HP Hp HD. unfold install_trans. run1. rewrite (rp_lg _ _ _ _ _ _ _ _ Hr).
  unfold tails. rewrite (lh_n _ _ Hl), Nat2Z.id. set (ws := install_writes L V).
  destruct (for_each_ok (fun k s => exists P', (if recovering then P' = ∅ else pins P' (drop k L)) /\
      (size P' < NBUF)%nat /\
      rep s l (aw V (take k ws)) ∅ P' (D ∖ list_to_set (take k L)) (aw Dk (take k ws)) (t ++ tag (take k ws)))
    (install_one recovering) (length L)) with (s := s) as (s' & E & (P' & HP' & _ & R)).
  - intros k sk Hk (P' & HP' & Hsz & Rk). destruct (lookup_lt_is_Some_2 L k Hk) as [b Hb].
    assert (Hdk : drop k L = b :: drop (k + 1) L) by (rewrite Nat.add_1_r; by apply drop_S).
    destruct (install_one_spec recovering _ _ _ _ _ _ _ L k b Rk Hl Hok Hsz) as (s' & j & E & Hj & R).
    { destruct recovering; [done|]. apply (pn_all _ _ HP'). rewrite Hdk. by left. }
    { intros n Hn. pose proof (HD n Hn). set_solver. }
    { done. }
    exists s'. split; [done|]. simpl in R.
    assert (length L <= 30)%nat by (pose proof (lo_len _ Hok) as HL; change (Z.to_nat LOGSIZE) with 30%nat in HL; lia).
    assert (aw V (take k ws) (start + Z.of_nat k + 1) = V (start + Z.of_nat k + 1)) as Hx
      by (apply aw_install_log; [done|apply log_region; lia]).
    rewrite Hx in R.
    exists (if recovering then P' else delete j P'). split; [|split].
    + destruct recovering; [done|]. rewrite Hdk in HP'.
      apply (pins_delete P' _ j b); [|done|by apply Hj].
      rewrite <- Hdk. rewrite <- (take_drop k L) in Hok. destruct Hok as [Hnd _ _].
      by apply NoDup_app in Hnd as (_ & _ & ?).
    + destruct recovering; [done|]. rewrite map_size_delete. destruct (P' !! j); simpl; lia.
    + rewrite Nat.add_1_r, (take_S_r ws k _ (install_writes_lookup L V k b Hb)), !aw_app, tag_app, app_assoc.
      rewrite (take_S_r L k b Hb), list_to_set_app_L. simpl.
      replace (D ∖ (list_to_set (take k L) ∪ ({[b]} ∪ ∅))) with (D ∖ list_to_set (take k L) ∖ {[b]}) by set_solver.
      exact R.
  - exists P. split; [done|]. split; [done|]. simpl. rewrite app_nil_r.
    replace (D ∖ ∅) with D by set_solver. exact Hr.
  - exists s'. split; [done|]. unfold ws in *.
    assert (take (length L) (install_writes L V) = install_writes L V) as Htk
      by (apply firstn_all2; rewrite length_install_writes; lia).
    rewrite !Htk, firstn_all in R. rewrite drop_all in HP'.
    assert (P' = ∅) as ->; [|exact R]. destruct recovering; [done|].
    apply map_size_empty_inv. by rewrite (pn_size _ _ HP').
Qed.

(** ** [commit] *)

Lemma lh_is_clear l L : lh_is l L -> lh_is (set_n 0 l) [].
Proof. intros [? ? ? ? ?]. by split. Qed.

(** Once the log holds the new contents, installing it is writing them home. *)
Lemma install_home L V h :
  log_ok L ->
  install_writes L (<[start := h]> (aw V (log_writes L V))) = home_writes L V.
Proof.
  intros Hok. apply list_eq. intros k. destruct (L !! k) as [b|] eqn:Hk.
  - rewrite (install_writes_lookup _ _ k b Hk). unfold home_writes.
    rewrite lookup_zip_with, list_lookup_fmap, Hk. simpl. do 2 f_equal.
    rewrite fn_lookup_insert_ne by lia.
    apply aw_in; [apply NoDup_log_writes|by apply log_write_at].
  - apply lookup_ge_None in Hk. rewrite !lookup_ge_None_2; [done|rewrite length_home_writes; lia|].
    rewrite length_install_writes. lia.
Qed.

Lemma aw_log_start L V : log_ok L -> aw V (log_writes L V) start = V start.
Proof.
  intros Hok. apply aw_notin. intros Hin. rewrite <- (firstn_all (log_writes L V)) in Hin.
  by apply (log_writes_region L V _ start Hok) in Hin as [_ ?].
Qed.

Lemma aw_home_start L V V' : log_ok L -> aw V' (home_writes L V) start = V' start.
Proof. intros Hok. apply aw_notin. rewrite fst_home_writes. by apply log_ok_start. Qed.

Lemma commit_spec s l V P Dk t L :
  rep s l V ∅ P (list_to_set L) Dk t -> lh_is l L -> log_ok L -> pins P L ->
  (0 < length L < NBUF)%nat ->
  exists s', commit s = Ok tt s' /\
    let ws := commit_writes L V (V start) in
    rep s' (set_n 0 l) (aw V ws) ∅ ∅ ∅ (aw Dk ws) (t ++ tag ws).
Proof.
  intros Hr Hl Hok Hp HL. unfold commit. run1. rewrite (rp_lg _ _ _ _ _ _ _ _ Hr), (lh_n _ _ Hl).
  rewrite (proj2 (Z.ltb_lt _ _)) by lia.
  assert (HP : (size P < NBUF)%nat) by (rewrite (pn_size _ _ Hp); lia).
  assert (HD : forall n, in_log n -> n ∉ (list_to_set L : gset Z)).
  { intros n Hn Hin%elem_of_list_to_set. by apply (lo_data _ Hok n Hin). }
  assert (Hst : in_log start) by (unfold in_log, LOGSIZE, MAXOPBLOCKS; lia).
  destruct (write_log_spec _ _ _ _ _ _ _ L Hr Hl Hok Hp HP HD) as (s1 & E1 & R1). run E1.
  destruct (write_head_spec _ _ _ _ _ _ _ L R1 Hl) as (s2 & E2 & R2);
    [unfold NBUF in *; lia|by apply HD|done|]. run E2.
  rewrite aw_log_start in R2 by done. set (h := hdr_enc L (V start)) in *.
  destruct (install_trans_spec false _ _ _ _ _ _ _ L R2 Hl Hok HP Hp HD) as (s3 & E3 & R3). run E3.
  rewrite install_home in R3 by done.
  replace (list_to_set L ∖ list_to_set L) with (∅ : gset Z) in R3 by set_solver.
  run1. apply (rep_upd_lg _ _ _ _ _ _ _ _ (set_n 0)) in R3.
  destruct (write_head_spec _ _ _ _ _ _ _ [] R3 (lh_is_clear _ _ Hl)) as (s4 & E4 & R4);
    [simpl; lia|set_solver|rewrite map_size_empty; unfold NBUF; lia|].
  exists s4. split; [done|]. cbv zeta. rewrite aw_home_start, fn_lookup_insert in R4 by done.
  unfold commit_writes. fold h. rewrite !aw_app, !tag_app.
  rewrite !app_assoc. exact R4.
Qed.

(** Outside the log the commit leaves every block with its current content. *)
Lemma aw_commit L V n :
  log_ok L -> length (V start) = Z.to_nat BSIZE -> ~ in_log n -> aw V (commit_writes L V (V start)) n = V n.
Proof.
  intros Hok Hh Hn. assert (n <> start) as Hns.
  { intros ->. apply Hn. unfold in_log, LOGSIZE, MAXOPBLOCKS. lia. }
  unfold commit_writes. rewrite !aw_app. cbn [aw foldl fst snd].
  rewrite fn_lookup_insert_ne by done. change (foldl _ ?f ?ws) with (aw f ws).
  destruct (decide (n ∈ L)) as [Hin|Hin].
  - apply aw_in; [rewrite fst_home_writes; apply Hok|by apply home_write_at].
  - rewrite aw_notin by by rewrite fst_home_writes. rewrite fn_lookup_insert_ne by done.
    apply aw_notin. intros Hl. apply Hn.
    rewrite <- (firstn_all (log_writes L V)) in Hl. by eapply log_writes_region.
Qed.

(** ** Recovery *)

Lemma rep_set_block s l V H P D Dk t i b :
  rep s l V H P D Dk t -> (i < length (l_block l))%nat ->
  exists s', lh_set_block i b s = Ok tt s' /\ rep s' (set_block i b l) V H P D Dk t.
Proof.
  intros Hr Hi. unfold lh_set_block. run1. rewrite (rp_lg _ _ _ _ _ _ _ _ Hr), decide_True by done.
  eexists. split; [done|]. by apply rep_upd_lg.
Qed.

Lemma read_head_spec s l V D Dk t L h :
  rep s l V ∅ ∅ D Dk t -> l_start l = start -> l_dev l = dev ->
  length (l_block l) = Z.to_nat LOGSIZE -> log_ok L -> length h = Z.to_nat BSIZE ->
  V start = hdr_enc L h -> start ∉ D ->
  exists s' l', read_head s = Ok tt s' /\ rep s' l' V ∅ ∅ D Dk t /\ lh_is l' L /\
    l_size l' = l_size l /\ l_outstanding l' = l_outstanding l /\ l_committing l' = l_committing l.
Proof.
  intros Hr Hst Hdv Hlb Hok Hh HV HD.
  pose proof (lo_len _ Hok) as HL. change (Z.to_nat LOGSIZE) with 30%nat in *.
  unfold read_head. run1. rewrite (rp_lg _ _ _ _ _ _ _ _ Hr), Hst, Hdv, u32_start.
  destruct (rep_bread s l V ∅ ∅ D Dk t start Hr) as (buf & s1 & E1 & _ & R1).
  { intros i. by rewrite lookup_empty. }
  { right. rewrite map_size_empty. unfold NBUF. lia. }
  run E1. rewrite insert_empty in R1.
  assert (Hbuf : ({[buf := start]} : gmap nat Z) !! buf = Some start) by apply lookup_singleton_eq.
  run (rep_bdata _ _ _ _ _ _ _ _ _ _ R1 Hbuf). run1. rewrite HV, hb_n_enc by done.
  apply (rep_upd_lg _ _ _ _ _ _ _ _ (set_n (Z.of_nat (length L)))) in R1.
  unfold tails. rewrite Nat2Z.id.
  destruct (for_each_ok (fun k s => exists l', rep s l' V {[buf := start]} ∅ D Dk t /\
      l_start l' = start /\ l_dev l' = dev /\ l_n l' = Z.of_nat (length L) /\
      length (l_block l') = 30%nat /\ l_size l' = l_size l /\
      l_outstanding l' = l_outstanding l /\ l_committing l' = l_committing l /\
      forall i b, (i < k)%nat -> L !! i = Some b -> l_block l' !! i = Some b)
    (fun i => lh_set_block i (hb_block i (hdr_enc L h))) (length L))
    with (s := upd_lg (set_n (Z.of_nat (length L))) s1)
    as (s2 & E2 & (l2 & R2 & ? & ? & ? & ? & ? & ? & ? & Hbl)).
  - intros k sk Hk (l' & Rk & ? & ? & ? & Hlb' & ? & ? & ? & Hbk).
    destruct (lookup_lt_is_Some_2 L k Hk) as [b Hb].
    rewrite (hb_block_enc L h k b) by
      (done || by apply (lo_data _ Hok b), (list_elem_of_lookup_2 _ _ _ Hb)).
    destruct (rep_set_block _ _ _ _ _ _ _ _ k b Rk) as (s' & E' & R'); [lia|].
    exists s'. split; [done|]. eexists. split; [exact R'|]. simpl.
    rewrite length_insert. split_and!; try done. intros i b' Hi Hb'.
    destruct (decide (i = k)) as [->|].
    + rewrite list_lookup_insert_eq by lia. congruence.
    + rewrite list_lookup_insert_ne by done. apply Hbk; [lia|done].
  - eexists. split; [exact R1|]. simpl. split_and!; try done. lia.
  - run E2. destruct (rep_brelse _ _ _ _ _ _ _ _ buf start R2 Hbuf (or_introl HD)) as (s3 & E3 & R3).
    rewrite delete_singleton_eq in R3. exists s3, l2. split; [done|]. split; [done|].
    split; [split; try done|done]. intros i b Hi. apply Hbl; [by eapply lookup_lt_Some|done].
Qed.

Definition recovery_writes (L : list Z) (V : view) : list (Z * block) :=
  install_writes L V ++ [(start, hdr_enc [] (V start))].

Lemma recover_spec s l V Dk t L h :
  rep s l V ∅ ∅ ∅ Dk t -> l_start l = start -> l_dev l = dev ->
  length (l_block l) = Z.to_nat LOGSIZE -> log_ok L -> length h = Z.to_nat BSIZE ->
  V start = hdr_enc L h ->
  exists s' l', recover_from_log s = Ok tt s' /\
    rep s' l' (aw V (recovery_writes L V)) ∅ ∅ ∅ (aw Dk (recovery_writes L V))
        (t ++ tag (recovery_writes L V)) /\
    lh_is l' [] /\ l_size l' = l_size l /\ l_outstanding l' = l_outstanding l /\
    l_committing l' = l_committing l.
Proof.
  intros Hr Hst Hdv Hlb Hok Hh HV. unfold recover_from_log.
  destruct (read_head_spec _ _ _ _ _ _ L h Hr Hst Hdv Hlb Hok Hh HV) as (s1 & l1 & E1 & R1 & Hl1 & Hrest);
    [set_solver|]. run E1.
  destruct (install_trans_spec true _ _ _ _ _ _ _ L R1 Hl1 Hok) as (s2 & E2 & R2);
    [rewrite map_size_empty; unfold NBUF; lia|done|set_solver|]. run E2.
  replace (∅ ∖ list_to_set L) with (∅ : gset Z) in R2 by set_solver.
  run1. apply (rep_upd_lg _ _ _ _ _ _ _ _ (set_n 0)) in R2.
  destruct (write_head_spec _ _ _ _ _ _ _ [] R2 (lh_is_clear _ _ Hl1)) as (s3 & E3 & R3);
    [simpl; lia|set_solver|rewrite map_size_empty; unfold NBUF; lia|].
  exists s3, (set_n 0 l1). split; [done|]. split; [|by split; [by eapply lh_is_clear|]].
  simpl in R3. assert (aw V (install_writes L V) start = V start) as Hs.
  { rewrite <- (firstn_all (install_writes L V)). apply aw_install_log; [done|].
    unfold in_log, LOGSIZE, MAXOPBLOCKS. lia. }
  rewrite Hs in R3. unfold recovery_writes. rewrite !aw_app, tag_app, app_assoc. exact R3.
Qed.
End log.
