(* ===== verification/LogTxn.v ===== *)
(** * Transactions ([kernel/log.c])

    The interface of the log to the file system: [begin_op], [log_write] and
    [end_op] on a state that says which blocks the current group of system calls has logged,
    with the theorems on crashes during a commit and during recovery. *)

From S2P Require Import Prelude Bio Log LogSpec.

Section txn.
Variables dev start : Z.
Hypothesis start_range : 0 <= start /\ start + LOGSIZE + 1 < 2 ^ 31.

(** [V]: current block contents; [H]: held buffers; [L]: logged blocks; [M]: blocks
    modified but not logged yet; [Dk]: contents of the disk; [t]: disk writes so
    far; [o]: system calls in progress; [sz]: size of the log area. *)
Definition txn (s : lst) (V : view) (H : gmap nat Z) (L : list Z) (M : gset Z)
    (Dk : view) (t : list (Z * Z * block)) (o sz : Z) : Prop :=
  exists l P, rep dev s l V H P (list_to_set L ∪ M) Dk t /\ lh_is dev start l L /\
    log_ok start L /\ pins P L /\
    l_outstanding l = o /\ l_committing l = false /\ l_size l = sz.

Lemma find_slot_spec bs b : forall n i,
  (exists k, (i <= k < i + n)%nat /\ find_slot bs n b i = k /\ u32 (default 0 (bs !! k)) = b) \/
  (find_slot bs n b i = (i + n)%nat /\
   forall k, (i <= k < i + n)%nat -> u32 (default 0 (bs !! k)) <> b).
Proof.
  induction n as [|n IH]; intros i; cbn [find_slot].
  - right. split; [lia|]. lia.
  - destruct (Z.eqb_spec (u32 (default 0 (bs !! i))) b) as [He|He].
    + left. exists i. split; [lia|done].
    + destruct (IH (S i)) as [(k & Hk & Ek & Hb)|[Ek Hno]].
      * left. exists k. split; [lia|done].
      * right. split; [lia|]. intros k Hk. destruct (decide (k = i)) as [->|]; [done|apply Hno; lia].
Qed.

Lemma log_ok_snoc L n :
  log_ok start L -> n ∉ L -> (length L < Z.to_nat LOGSIZE)%nat -> 0 <= n < 2 ^ 31 -> ~ in_log start n ->
  log_ok start (L ++ [n]).
Proof.
  intros [H1 H2 H3] Hn Hlen Hr Hl. split.
  - rewrite NoDup_app. split_and!; [done|set_solver|apply NoDup_singleton].
  - rewrite length_app. simpl. lia.
  - intros b [Hb| ->%list_elem_of_singleton]%elem_of_app; auto.
Qed.

Lemma log_ok_nil : log_ok start [].
Proof. split; [constructor|simpl; lia|by intros ? ?%elem_of_nil]. Qed.

Lemma pins_nil : pins ∅ [].
Proof.
  split; [by intros ? ?%elem_of_nil|intros ? ?; by rewrite lookup_empty|
    intros ? ? ?; by rewrite lookup_empty|by rewrite map_size_empty].
Qed.

Lemma log_write_spec s V H L M Dk t o sz i n :
  txn s V H L M Dk t o sz -> H !! i = Some n -> 0 <= n < 2 ^ 31 -> ~ in_log start n ->
  1 <= o -> Z.of_nat (length L) < LOGSIZE -> Z.of_nat (length L) < sz - 1 ->
  exists s', log_write i s = Ok tt s' /\
    txn s' V H (if decide (n ∈ L) then L else L ++ [n]) (M ∖ {[n]}) Dk t o sz.
Proof.
  intros (l & P & Hr & Hl & Hok & Hp & Ho & Hc & Hs) Hi Hn Hnl Hout Hlen Hsz.
  unfold log_write. run1. rewrite (rp_lg _ _ _ _ _ _ _ _ _ Hr), (lh_n _ _ _ _ Hl).
  rewrite (proj2 (Z.leb_gt _ _)), (proj2 (Z.leb_gt _ _)), (proj2 (Z.ltb_ge _ _)) by lia. cbn [orb].
  destruct (br_held _ _ _ _ _ _ (rp_b _ _ _ _ _ _ _ _ _ Hr) i n Hi) as (_ & _ & Hbn & _).
  run1. rewrite Hbn, Nat2Z.id.
  assert (Hu : forall k b, L !! k = Some b -> u32 (default 0 (l_block l !! k)) = b).
  { intros k b Hk. rewrite (lh_blocks _ _ _ _ Hl k b Hk). apply u32_small.
    destruct (lo_data _ _ Hok b (list_elem_of_lookup_2 _ _ _ Hk)). simpl. lia. }
  assert (Hll : (length L < length (l_block l))%nat) by (rewrite (lh_len _ _ _ _ Hl); lia).
  cbv zeta. rewrite i32_small by lia.
  destruct (find_slot_spec (l_block l) n (length L) 0) as [(k & Hk & -> & Hb)|[-> Hno]].
  - destruct (lookup_lt_is_Some_2 L k) as [b Hkb]; [lia|]. rewrite (Hu k b Hkb) in Hb. subst b.
    destruct (rep_set_block _ _ _ _ _ _ _ _ _ k n Hr) as (s' & E' & R'); [lia|]. run E'.
    rewrite (proj2 (Z.eqb_neq _ _)) by lia. exists s'. split; [done|].
    pose proof (list_elem_of_lookup_2 _ _ _ Hkb) as HnL. rewrite decide_True by done.
    exists (set_block k n l), P. split_and!; try done.
    + replace (list_to_set L ∪ M ∖ {[n]}) with (list_to_set L ∪ M); [done|].
      apply set_eq. intros x. destruct (decide (x = n)); set_solver.
    + destruct Hl. split; try done; simpl; [by rewrite length_insert|].
      intros j b Hj. destruct (decide (j = k)) as [->|].
      * rewrite list_lookup_insert_eq by lia. congruence.
      * rewrite list_lookup_insert_ne by done. auto.
  - assert (HnL : n ∉ L).
    { intros [k Hk]%list_elem_of_lookup_1. pose proof (lookup_lt_Some _ _ _ Hk).
      apply (Hno k); [lia|]. by apply Hu. }
    destruct (rep_set_block _ _ _ _ _ _ _ _ _ (0 + length L) n Hr) as (s1 & E1 & R1); [simpl; lia|].
    run E1. simpl Nat.add. rewrite Z.eqb_refl.
    destruct (rep_bpin _ _ _ _ _ _ _ _ _ i n R1 Hi) as (s2 & E2 & R2).
    { destruct (P !! i) as [m|] eqn:Em; [|done].
      destruct (br_pin _ _ _ _ _ _ (rp_b _ _ _ _ _ _ _ _ _ Hr) i m Em) as (_ & _ & Hm & _).
      apply (pn_only _ _ Hp) in Em. destruct HnL. congruence. }
    run E2. eexists. split; [done|]. rewrite decide_False by done.
    eexists _, (<[i := n]> P). split; [apply rep_upd_lg|split_and!].
    + replace (list_to_set (L ++ [n]) ∪ M ∖ {[n]}) with (({[n]} : gset Z) ∪ (list_to_set L ∪ M)).
      * by eapply rep_grow.
      * rewrite list_to_set_app_L. apply set_eq. intros x. destruct (decide (x = n)); set_solver.
    + destruct Hl as [? ? Hln Hlb Hlk]. split; try done; simpl.
      * rewrite length_app. simpl. lia.
      * by rewrite length_insert.
      * intros j b Hj. destruct (decide (j = length L)) as [->|].
        -- rewrite list_lookup_insert_eq by lia. rewrite lookup_app_r, Nat.sub_diag in Hj by lia. done.
        -- rewrite list_lookup_insert_ne by done. apply Hlk.
           pose proof (lookup_lt_Some _ _ _ Hj) as Hlt. rewrite length_app in Hlt. simpl in Hlt.
           by rewrite lookup_app_l in Hj by lia.
    + apply log_ok_snoc; try done. lia.
    + apply pins_insert; try done.
      destruct (P !! i) as [m|] eqn:Em; [|done].
      destruct (br_pin _ _ _ _ _ _ (rp_b _ _ _ _ _ _ _ _ _ Hr) i m Em) as (_ & _ & Hm & _).
      apply (pn_only _ _ Hp) in Em. destruct HnL. congruence.
    + done.
    + done.
    + done.
Qed.

(** ** Reading, modifying and releasing buffers inside a transaction *)

Lemma txn_bread s V H L M Dk t o sz n :
  txn s V H L M Dk t o sz -> (forall i, H !! i <> Some n) -> (size H + length L < NBUF)%nat ->
  exists i s', lbio (bread dev n) s = Ok i s' /\ H !! i = None /\
    txn s' V (<[i := n]> H) L M Dk t o sz.
Proof.
  intros (l & P & Hr & Hl & Hok & Hp & Hrest) Hn Hsz.
  destruct (rep_bread _ _ _ _ _ _ _ _ _ n Hr Hn) as (i & s' & E & Hi & R).
  { right. by rewrite (pn_size _ _ Hp). }
  exists i, s'. split; [done|]. split; [done|]. by exists l, P.
Qed.

Lemma txn_bdata s V H L M Dk t o sz i n :
  txn s V H L M Dk t o sz -> H !! i = Some n -> bdata i s = Ok (V n) s.
Proof. intros (l & P & Hr & _) Hi. by eapply rep_bdata. Qed.

Lemma txn_bset s V H L M Dk t o sz i n d :
  txn s V H L M Dk t o sz -> H !! i = Some n -> length d = Z.to_nat BSIZE ->
  exists s', bset_data i d s = Ok tt s' /\ txn s' (<[n := d]> V) H L ({[n]} ∪ M) Dk t o sz.
Proof.
  intros (l & P & Hr & Hrest) Hi Hd.
  destruct (rep_bset _ _ _ _ _ _ _ _ _ i n d Hr Hi Hd) as (s' & E & R).
  exists s'. split; [done|]. exists l, P. split; [|done].
  by replace (list_to_set L ∪ ({[n]} ∪ M)) with ({[n]} ∪ (list_to_set L ∪ M)) by set_solver.
Qed.

Lemma txn_brelse s V H L M Dk t o sz i n :
  txn s V H L M Dk t o sz -> H !! i = Some n -> n ∉ M ->
  exists s', lbio (brelse i) s = Ok tt s' /\ txn s' V (delete i H) L M Dk t o sz.
Proof.
  intros (l & P & Hr & Hl & Hok & Hp & Hrest) Hi HM.
  destruct (rep_brelse _ _ _ _ _ _ _ _ _ i n Hr Hi) as (s' & E & R).
  { destruct (decide (n ∈ L)) as [HnL|]; [right|left; set_solver].
    destruct (pn_all _ _ Hp n HnL) as [j Hj].
    pose proof (rep_pin_held _ _ _ _ _ _ _ _ _ _ _ _ Hr Hi Hj) as ->. by eexists. }
  exists s'. split; [done|]. by exists l, P.
Qed.

Lemma txn_ext s V V' H L M Dk t o sz :
  txn s V H L M Dk t o sz -> (forall n, V' n = V n) -> txn s V' H L M Dk t o sz.
Proof. intros (l & P & Hr & Hrest) HV. exists l, P. split; [by eapply rep_ext|done]. Qed.

(** ** [begin_op] *)

Lemma begin_op_spec s V H L M Dk t o sz :
  txn s V H L M Dk t o sz ->
  begin_op s =
    if LOGSIZE <? Z.of_nat (length L) + (o + 1) * MAXOPBLOCKS then Blocked s
    else Ok tt (upd_lg (set_outstanding (o + 1)) s).
Proof.
  intros (l & P & Hr & Hl & Hok & Hp & Ho & Hc & Hs). unfold begin_op. run1.
  rewrite (rp_lg _ _ _ _ _ _ _ _ _ Hr), Hc, (lh_n _ _ _ _ Hl), Ho.
  by destruct (LOGSIZE <? Z.of_nat (length L) + (o + 1) * MAXOPBLOCKS).
Qed.

Lemma txn_outstanding s V H L M Dk t o sz o' :
  txn s V H L M Dk t o sz -> txn (upd_lg (set_outstanding o') s) V H L M Dk t o' sz.
Proof.
  intros (l & P & Hr & Hl & Hok & Hp & Ho & Hc & Hs). exists (set_outstanding o' l), P.
  split; [by apply rep_upd_lg|]. split_and!; try done. by destruct Hl; split.
Qed.

(** ** [end_op] *)

(** The disk writes of the last [end_op] of a group. *)
Definition end_writes (L : list Z) (V : view) : list (Z * block) :=
  match L with [] => [] | _ => commit_writes start L V (V start) end.

Lemma commit_nop s : l_n (lg s) <= 0 -> commit s = Ok tt s.
Proof. intros Hn. unfold commit. run1. by rewrite (proj2 (Z.ltb_ge _ _)). Qed.

Lemma end_op_last s V L Dk t sz :
  txn s V ∅ L ∅ Dk t 1 sz -> (length L < NBUF)%nat ->
  exists s', end_op s = Ok tt s' /\
    txn s' (aw V (end_writes L V)) ∅ [] ∅ (aw Dk (end_writes L V)) (t ++ tag dev (end_writes L V)) 0 sz.
Proof.
  intros Ht HL. apply (txn_outstanding _ _ _ _ _ _ _ _ _ 0) in Ht as Ht0.
  destruct Ht as (l & P & Hr & _ & _ & _ & Ho & _).
  unfold end_op. run1. rewrite (rp_lg _ _ _ _ _ _ _ _ _ Hr), Ho. change (1 - 1) with 0.
  set (s1 := upd_lg (set_outstanding 0) s) in *. clear l P Hr Ho.
  destruct Ht0 as (l & P & Hr & Hl & Hok & Hp & Ho & Hc & Hs).
  run1. rewrite (rp_lg _ _ _ _ _ _ _ _ _ Hr), Hc, Ho. change (0 =? 0) with true. cbv iota. run1.
  apply (rep_upd_lg _ _ _ _ _ _ _ _ _ (set_committing true)) in Hr.
  set (l1 := set_committing true l) in *. assert (Hl1 : lh_is dev start l1 L) by by destruct Hl; split.
  replace (list_to_set L ∪ ∅) with (list_to_set L : gset Z) in Hr by set_solver.
  destruct L as [|b L'] eqn:EL.
  - subst L. assert (Hn : l_n (lg (upd_lg (set_committing true) s1)) <= 0).
    { rewrite (rp_lg _ _ _ _ _ _ _ _ _ Hr), (lh_n _ _ _ _ Hl1). done. }
    run (commit_nop _ Hn). eexists. split; [done|]. simpl. rewrite app_nil_r.
    exists (set_committing false l1), P. split_and!; try done.
    + replace (∅ ∪ ∅) with (∅ : gset Z) by set_solver. by apply rep_upd_lg.
    + by destruct Hl1; split.
  - rewrite <- EL in *. assert (end_writes L V = commit_writes start L V (V start)) as -> by by rewrite EL.
    destruct (commit_spec dev start start_range _ _ _ _ _ _ L Hr Hl1 Hok Hp) as (s2 & E2 & R2).
    { rewrite EL in *. simpl in *. lia. }
    run E2. eexists. split; [done|]. exists (set_committing false (set_n 0 l1)), ∅.
    split_and!; try done.
    + replace (list_to_set [] ∪ ∅) with (∅ : gset Z) by set_solver. by apply rep_upd_lg.
    + by destruct Hl1; split.
    + apply log_ok_nil.
    + apply pins_nil.
Qed.

Lemma end_op_more s V H L M Dk t o sz :
  txn s V H L M Dk t o sz -> o <> 1 ->
  exists s', end_op s = Ok tt s' /\ txn s' V H L M Dk t (o - 1) sz.
Proof.
  intros Ht Ho1. apply (txn_outstanding _ _ _ _ _ _ _ _ _ (o - 1)) in Ht as Ht0.
  destruct Ht as (l & P & Hr & _ & _ & _ & Ho & _).
  unfold end_op. run1. rewrite (rp_lg _ _ _ _ _ _ _ _ _ Hr), Ho.
  set (s1 := upd_lg (set_outstanding (o - 1)) s) in *. exists s1. split; [|done]. clear l P Hr Ho.
  destruct Ht0 as (l & P & Hr & Hl & Hok & Hp & Ho & Hc & Hs).
  run1. rewrite (rp_lg _ _ _ _ _ _ _ _ _ Hr), Hc, Ho. by rewrite (proj2 (Z.eqb_neq _ _)) by lia.
Qed.

(** ** Booting *)

(** The log in the zeroed memory of a fresh kernel. *)
Definition log0 : logst := mkLog 0 0 0 false 0 0 (replicate (Z.to_nat LOGSIZE) 0).

Lemma initlog_spec b V sz L h :
  brep dev b V ∅ ∅ ∅ -> (forall n, length (V n) = Z.to_nat BSIZE) -> - 2 ^ 31 <= sz < 2 ^ 31 ->
  log_ok start L -> length h = Z.to_nat BSIZE -> V start = hdr_enc L h ->
  exists s, initlog dev start sz (mkLst b log0) = Ok tt s /\
    let ws := recovery_writes start L V in
    txn s (aw V ws) ∅ [] ∅ (aw V ws) (trace b ++ tag dev ws) 0 sz.
Proof.
  intros Hb HV Hsz Hok Hh Hst. unfold initlog. change (BSIZE <=? 4 + 4 * LOGSIZE) with false. cbv iota.
  run1. unfold LOGSIZE, MAXOPBLOCKS in start_range. rewrite !i32_small by lia.
  set (s1 := upd_lg _ _).
  assert (Hr : rep dev s1 (set_area start sz dev log0) V ∅ ∅ ∅ V (trace b)).
  { split; try done. intros n. by apply (br_disk _ _ _ _ _ _ Hb). }
  destruct (recover_spec dev start start_range _ _ _ _ _ L h Hr) as (s & l & E & R & Hl & H1 & H2 & H3); try done.
  exists s. split; [done|]. exists l, ∅. split_and!; try done.
  + apply log_ok_nil.
  + apply pins_nil.
Qed.



(** [log_write] records a block once.  With room in the log and a system
    call in progress it succeeds, changes no content and writes nothing to
    disk; a block that is already in the log is absorbed, another one is
    appended and its buffer pinned until the commit.  With no room, or outside
    a system call, it panics. *)
Theorem log_write_absorbs s V H L M Dk t o sz i n :
  txn s V H L M Dk t o sz -> H !! i = Some n -> 0 <= n < 2 ^ 31 -> ~ in_log start n ->
  let room := Z.of_nat (length L) < LOGSIZE /\ Z.of_nat (length L) < sz - 1 in
  (room -> 1 <= o -> exists s', log_write i s = Ok tt s' /\
     txn s' V H (if decide (n ∈ L) then L else L ++ [n]) (M ∖ {[n]}) Dk t o sz) /\
  (~ room -> log_write i s = Panic "too big a transaction") /\
  (room -> o < 1 -> log_write i s = Panic "log_write outside of trans").
Proof.
  intros Ht Hi Hn Hl room. split_and!.
  - intros [? ?] ?. by eapply log_write_spec.
  - intros Hroom. destruct Ht as (l & P & Hr & Hh & _ & _ & _ & _ & Hs).
    unfold log_write. run1. rewrite (rp_lg _ _ _ _ _ _ _ _ _ Hr), (lh_n _ _ _ _ Hh), Hs.
    destruct (Z.leb_spec LOGSIZE (Z.of_nat (length L))); [done|].
    destruct (Z.leb_spec (sz - 1) (Z.of_nat (length L))); [done|]. by destruct Hroom.
  - intros [? ?] Ho. destruct Ht as (l & P & Hr & Hh & _ & _ & Hout & _ & Hs).
    unfold log_write. run1. rewrite (rp_lg _ _ _ _ _ _ _ _ _ Hr), (lh_n _ _ _ _ Hh), Hs, Hout.
    rewrite !(proj2 (Z.leb_gt _ _)), (proj2 (Z.ltb_lt _ _)) by lia. done.
Qed.
End txn.

(** ** A booted log *)

(** A log at block 2 of device 1 on an empty disk. *)
Lemma area2 : 0 <= 2 /\ 2 + LOGSIZE + 1 < 2 ^ 31.
Proof. unfold LOGSIZE, MAXOPBLOCKS. lia. Qed.

Lemma boot_rep : exists b, brep 1 b (fun _ => zero_block) ∅ ∅ ∅.
Proof.
  destruct (binit_spec 1 ∅ ltac:(discriminate)) as (b & _ & Hb & _). exists b.
  exact Hb.
Qed.

Lemma zero_header : zero_block = hdr_enc [] zero_block.
Proof. vm_compute. reflexivity. Qed.


Lemma boot_txn : exists s V t, txn 1 2 s V ∅ [] ∅ V t 0 30 /\ hb_n (V 2) <= 0.
Proof.
  destruct boot_rep as [b Hb].
  destruct (initlog_spec 1 2 area2 b (fun _ => zero_block) 30 [] zero_block Hb)
    as (s & _ & Ht); [reflexivity|lia|apply log_ok_nil|reflexivity|apply zero_header|].
  eexists s, _, _. split; [exact Ht|]. vm_compute. discriminate.
Qed.

(** One system call that has read block 50. *)
Lemma reading_txn : exists s V t i, txn 1 2 s V {[i := 50]} [] ∅ V t 1 30 /\ hb_n (V 2) <= 0.
Proof.
  destruct boot_txn as (s & V & t & Ht & Hn).
  apply (txn_outstanding 1 2 _ _ _ _ _ _ _ _ _ 1) in Ht.
  destruct (txn_bread 1 2 _ _ _ _ _ _ _ _ _ 50 Ht) as (i & s' & _ & _ & Ht').
  { intros i. by rewrite lookup_empty. }
  { rewrite map_size_empty. simpl. unfold NBUF. lia. }
  rewrite insert_empty in Ht'. by exists s', V, t, i.
Qed.

Lemma not_in_log2 : ~ in_log 2 50.
Proof. unfold in_log, LOGSIZE, MAXOPBLOCKS. lia. Qed.

Lemma log_write_absorbs_witness : exists s i s', log_write i s = Ok tt s'.
Proof.
  destruct reading_txn as (s & V & t & i & Ht & _).
  destruct (log_write_absorbs 1 2 area2 s V _ [] ∅ V t 1 30 i 50 Ht (lookup_singleton_eq _ _)
    ltac:(lia) not_in_log2) as [H _].
  destruct H as (s' & E & _); [split; reflexivity|lia|]. exists s, i, s'. exact E.
Defined.

(** The same system call after writing the block: ready for [end_op]. *)
Lemma written_txn : exists s V Dk t, txn 1 2 s V ∅ [50] ∅ Dk t 1 30 /\ hb_n (Dk 2) <= 0.
Proof.
  destruct reading_txn as (s & V & t & i & Ht & Hn).
  destruct (txn_bset 1 2 area2 _ _ _ _ _ _ _ _ _ i 50 (replicate 1024 x01) Ht) as (s1 & _ & Ht1);
    [apply lookup_singleton_eq|by rewrite length_replicate|].
  destruct (log_write_spec 1 2 area2 _ _ _ _ _ _ _ _ _ i 50 Ht1) as (s2 & _ & Ht2);
    [apply lookup_singleton_eq|lia|apply not_in_log2|lia|reflexivity|reflexivity|].
  destruct (txn_brelse 1 2 area2 _ _ _ _ _ _ _ _ _ i 50 Ht2) as (s3 & _ & Ht3);
    [apply lookup_singleton_eq|set_solver|].
  rewrite delete_singleton_eq in Ht3. eexists s3, _, V, t. split; [|done].
  replace (({[50]} ∪ ∅) ∖ {[50]}) with (∅ : gset Z) in Ht3 by set_solver. exact Ht3.
Qed.


(** ** The reservation of [begin_op] against the limit of [log_write]

    [begin_op] admits three system calls of [MAXOPBLOCKS] blocks each, 30 blocks
    in all, while [log_write] panics on a log area of 30 blocks (the size that
    [mkfs] gives it) as soon as 29 blocks are logged. *)

Definition log_one (n : nat) : M lst unit :=
  b <- lbio (bread 1 (Z.of_nat n));;
  log_write b;;;
  lbio (brelse b).

Definition three_calls (blocks : nat) : M lst unit :=
  lbio binit;;;
  initlog 1 2 LOGSIZE;;;
  begin_op;;; begin_op;;; begin_op;;;
  for_each (seq 100 blocks) log_one.

