(* ===== verification/FsLayout.v ===== *)
(** * On-disk format ([kernel/fs.h])

    The structures of the file system as the bytes of a block: the super block,
    the inodes of an inode block, the words of an indirect block, the bits of a
    free-map block, and directory entries, each with its reading and writing
    and what a write changes. *)

From S2P Require Import Prelude Bio.

Definition ROOTINO : Z := 1.
Definition FSMAGIC : Z := 0x10203040.
Definition NDIRECT : Z := 11.
Definition NINDIRECT : Z := BSIZE / 4.
Definition ND_INDIRECT : Z := NINDIRECT * NINDIRECT.
Definition MAXFILE : Z := NDIRECT + NINDIRECT + ND_INDIRECT.
Definition DIRSIZ : nat := 14.

Definition bsize : nat := Z.to_nat BSIZE.

(** ** Super block *)

Record superblock := mkSb {
  sb_magic : Z; sb_size : Z; sb_nblocks : Z; sb_ninodes : Z;
  sb_nlog : Z; sb_logstart : Z; sb_inodestart : Z; sb_bmapstart : Z
}.

Definition sb_get (d : block) : superblock :=
  mkSb (rd 4 0 d) (rd 4 4 d) (rd 4 8 d) (rd 4 12 d)
       (rd 4 16 d) (rd 4 20 d) (rd 4 24 d) (rd 4 28 d).

Definition IPB : Z := BSIZE / 64.
Definition IBLOCK (i : Z) (sb : superblock) : Z := u32 (i / IPB + sb_inodestart sb).
Definition BPB : Z := BSIZE * 8.
Definition BBLOCK (b : Z) (sb : superblock) : Z := u32 (b / BPB + sb_bmapstart sb).

(** ** Inodes *)

Record dinode := mkDinode {
  dn_type : Z; dn_major : Z; dn_minor : Z; dn_nlink : Z; dn_size : Z; dn_addrs : list Z
}.

Definition naddrs : nat := 13.
Definition dbase (k : nat) : nat := 64 * k.

Definition words_get (n off : nat) (d : block) : list Z := (fun j => rd 4 (off + 4 * j) d) <$> seq 0 n.
Definition words_put (l : list Z) (off : nat) (d : block) : block :=
  splice d off (concat (le_enc 4 <$> l)).

(** Inode [k] of an inode block. *)
Definition dinode_get (k : nat) (d : block) : dinode :=
  mkDinode (i16 (rd 2 (dbase k) d)) (i16 (rd 2 (dbase k + 2) d)) (i16 (rd 2 (dbase k + 4) d))
           (i16 (rd 2 (dbase k + 6) d)) (rd 4 (dbase k + 8) d)
           (words_get naddrs (dbase k + 12) d).

(** The stores of [iupdate], field by field. *)
Definition dinode_put (k : nat) (x : dinode) (d : block) : block :=
  let d := wr 2 (dbase k) (dn_type x) d in
  let d := wr 2 (dbase k + 2) (dn_major x) d in
  let d := wr 2 (dbase k + 4) (dn_minor x) d in
  let d := wr 2 (dbase k + 6) (dn_nlink x) d in
  let d := wr 4 (dbase k + 8) (dn_size x) d in
  words_put (dn_addrs x) (dbase k + 12) d.

(** The stores of [ialloc]: [memset] to zero, then the type. *)
Definition dinode_init (k : nat) (type : Z) (d : block) : block :=
  wr 2 (dbase k) type (splice d (dbase k) (replicate 64 x00)).

Record dinode_ok (x : dinode) : Prop := {
  do_type : - 2 ^ 15 <= dn_type x < 2 ^ 15;
  do_major : - 2 ^ 15 <= dn_major x < 2 ^ 15;
  do_minor : - 2 ^ 15 <= dn_minor x < 2 ^ 15;
  do_nlink : - 2 ^ 15 <= dn_nlink x < 2 ^ 15;
  do_size : 0 <= dn_size x < 2 ^ 32;
  do_len : length (dn_addrs x) = naddrs;
  do_addrs : Forall (fun a => 0 <= a < 2 ^ 32) (dn_addrs x)
}.

Lemma length_words l : length (concat (le_enc 4 <$> l)) = (4 * length l)%nat.
Proof.
  induction l as [|a l IH]; [done|]. cbn [fmap list_fmap concat].
  rewrite length_app, length_le_enc, IH. simpl. lia.
Qed.

Lemma slice_words l j a :
  l !! j = Some a -> slice (4 * j) 4 (concat (le_enc 4 <$> l)) = le_enc 4 a.
Proof.
  revert j. induction l as [|x l IH]; intros j Hj; [done|]. cbn [fmap list_fmap concat].
  unfold slice. destruct j as [|j]; simpl in Hj.
  - injection Hj as ->. rewrite Nat.mul_0_r, drop_0. rewrite take_app_le by by rewrite length_le_enc.
    apply take_ge. by rewrite length_le_enc.
  - rewrite drop_app_ge by (rewrite length_le_enc; lia). rewrite length_le_enc.
    replace (4 * S j - 4)%nat with (4 * j)%nat by lia. by apply IH.
Qed.

(** A write elsewhere does not change a field. *)
Lemma rd_splice_other n off d off' l :
  (off' + length l <= length d)%nat -> (off + n <= off' \/ off' + length l <= off)%nat ->
  rd n off (splice d off' l) = rd n off d.
Proof. intros. unfold rd. f_equal. by apply slice_splice_disj. Qed.

Lemma rd_words l off d j a :
  (off + 4 * length l <= length d)%nat -> l !! j = Some a -> 0 <= a < 2 ^ 32 ->
  rd 4 (off + 4 * j) (words_put l off d) = a.
Proof.
  intros Hd Hj Ha. pose proof (lookup_lt_Some _ _ _ Hj). unfold rd, words_put.
  assert (slice (off + 4 * j) 4 (splice d off (concat (le_enc 4 <$> l))) =
          slice (4 * j) 4 (concat (le_enc 4 <$> l))) as ->.
  { apply list_eq. intros i. destruct (decide (i < 4)%nat) as [Hi|Hi].
    - rewrite !lookup_slice by done. rewrite lookup_splice_in by (rewrite length_words; lia).
      f_equal. lia.
    - rewrite !lookup_ge_None_2; [done|unfold slice; rewrite length_take; lia..]. }
  rewrite (slice_words l j a Hj). by apply le_dec_enc_small.
Qed.

(** ** Blocks *)

Definition blk (d : block) : Prop := length d = bsize.

Lemma bsize_eq : bsize = 1024%nat.
Proof. reflexivity. Qed.

Lemma blk_wr n off v d : blk d -> (off + n <= 1024)%nat -> blk (wr n off v d).
Proof. unfold blk. intros Hd Ho. rewrite length_wr; [done|]. by rewrite Hd, bsize_eq. Qed.

Lemma blk_words l off d : blk d -> (off + 4 * length l <= 1024)%nat -> blk (words_put l off d).
Proof.
  unfold blk. intros Hd Ho. unfold words_put. rewrite length_splice; [done|].
  by rewrite length_words, Hd, bsize_eq.
Qed.

Lemma blk_splice d off l : blk d -> (off + length l <= 1024)%nat -> blk (splice d off l).
Proof. unfold blk. intros Hd Ho. rewrite length_splice; [done|]. by rewrite Hd, bsize_eq. Qed.

Lemma rd_same n off v d :
  blk d -> (off + n <= 1024)%nat -> rd n off (wr n off v d) = v mod 256 ^ Z.of_nat n.
Proof. intros Hd Ho. apply rd_wr_same. by rewrite Hd, bsize_eq. Qed.

Lemma rd_other n off v d n' off' :
  blk d -> (off + n <= 1024)%nat -> (off' + n' <= off \/ off + n <= off')%nat ->
  rd n' off' (wr n off v d) = rd n' off' d.
Proof. intros Hd Ho Hn. apply rd_wr_other; [|done]. by rewrite Hd, bsize_eq. Qed.

Lemma rd_words_other l off d n' off' :
  blk d -> (off + 4 * length l <= 1024)%nat -> (off' + n' <= off \/ off + 4 * length l <= off')%nat ->
  rd n' off' (words_put l off d) = rd n' off' d.
Proof.
  intros Hd Ho Hn. apply rd_splice_other; rewrite length_words; [|done]. by rewrite Hd, bsize_eq.
Qed.

#[export] Hint Resolve blk_wr blk_words blk_splice : xv6.

(** Discharge the side conditions: nested writes keep the size of the block. *)
Ltac blks := unfold dbase, naddrs in *;
  repeat first [assumption | apply blk_wr | apply blk_words | apply blk_splice];
  rewrite ?length_replicate; lia.
Ltac flds := repeat first [rewrite rd_same by blks | rewrite rd_other by blks].

Lemma blk_dinode_put k x d :
  blk d -> (k < 16)%nat -> length (dn_addrs x) = naddrs -> blk (dinode_put k x d).
Proof. intros Hd Hk Ha. unfold dinode_put. cbv zeta. apply blk_words; [blks|rewrite Ha; blks]. Qed.

Lemma dinode_get_put k x d :
  blk d -> (k < 16)%nat -> dinode_ok x -> dinode_get k (dinode_put k x d) = x.
Proof.
  intros Hd Hk [H1 H2 H3 H4 H5 H6 H7]. unfold dinode_get, dinode_put. cbv zeta.
  set (d1 := wr 4 (dbase k + 8) _ _).
  assert (Hd1 : blk d1) by (unfold d1; blks).
  rewrite !(rd_words_other (dn_addrs x) (dbase k + 12) d1) by (done || rewrite H6; blks).
  assert (words_get naddrs (dbase k + 12) (words_put (dn_addrs x) (dbase k + 12) d1) = dn_addrs x) as ->.
  { apply list_eq. intros j. unfold words_get. rewrite list_lookup_fmap.
    destruct (dn_addrs x !! j) as [a|] eqn:Ej.
    - pose proof (lookup_lt_Some _ _ _ Ej). rewrite lookup_seq_lt by lia. simpl. f_equal.
      apply rd_words; [rewrite H6, Hd1, bsize_eq; blks|done|]. rewrite Forall_lookup in H7. eauto.
    - apply lookup_ge_None in Ej. by rewrite lookup_seq_ge by lia. }
  unfold d1. flds.
  change (256 ^ Z.of_nat 2) with (2 ^ 16). change (256 ^ Z.of_nat 4) with (2 ^ 32).
  rewrite !i16_mod, !i16_small, (Z.mod_small (dn_size x)) by done. by destruct x.
Qed.

(** The other inodes of the block keep their fields. *)
Lemma dinode_ext k d d' :
  (forall n off, (dbase k <= off)%nat -> (off + n <= dbase k + 64)%nat -> rd n off d' = rd n off d) ->
  dinode_get k d' = dinode_get k d.
Proof.
  intros H. unfold dinode_get. rewrite !H by lia. f_equal. apply list_fmap_ext.
  intros i j [-> Hj]%lookup_seq. apply H; unfold naddrs in *; lia.
Qed.

Lemma dinode_get_put_other k k' x d :
  blk d -> (k < 16)%nat -> (k' < 16)%nat -> k <> k' -> length (dn_addrs x) = naddrs ->
  dinode_get k' (dinode_put k x d) = dinode_get k' d.
Proof.
  intros Hd Hk Hk' Hn Ha. apply dinode_ext. intros n off H1 H2. unfold dinode_put. cbv zeta.
  rewrite rd_words_other by (blks || rewrite Ha; blks). by flds.
Qed.

Lemma dinode_get_init_other k k' ty d :
  blk d -> (k < 16)%nat -> (k' < 16)%nat -> k <> k' ->
  dinode_get k' (dinode_init k ty d) = dinode_get k' d.
Proof.
  intros Hd Hk Hk' Hn. apply dinode_ext. intros n off H1 H2. unfold dinode_init.
  rewrite rd_other by blks. apply rd_splice_other; rewrite length_replicate, ?Hd, ?bsize_eq; blks.
Qed.

(** ** Words of an indirect block *)

Definition word (j : Z) (d : block) : Z := rd 4 (Z.to_nat (4 * j)) d.
Definition set_word (j a : Z) (d : block) : block := wr 4 (Z.to_nat (4 * j)) a d.

Lemma blk_set_word j a d : blk d -> 0 <= j < 256 -> blk (set_word j a d).
Proof. intros Hd Hj. unfold set_word. blks. Qed.

Lemma word_set_same j a d : blk d -> 0 <= j < 256 -> 0 <= a < 2 ^ 32 -> word j (set_word j a d) = a.
Proof. intros Hd Hj Ha. unfold word, set_word. rewrite rd_same by blks. by apply Z.mod_small. Qed.

Lemma word_set_other j j' a d :
  blk d -> 0 <= j < 256 -> 0 <= j' < 256 -> j <> j' -> word j' (set_word j a d) = word j' d.
Proof. intros Hd Hj Hj' Hn. unfold word, set_word. by rewrite rd_other by blks. Qed.

Lemma word_range j d : blk d -> 0 <= j < 256 -> 0 <= word j d < 2 ^ 32.
Proof.
  intros Hd Hj. unfold word. change (2 ^ 32) with (256 ^ Z.of_nat 4). apply rd_range.
  rewrite Hd, bsize_eq. lia.
Qed.

Lemma word_zero j : 0 <= j < 256 -> word j zero_block = 0.
Proof.
  intros Hj. unfold word, rd, zero_block. unfold slice. rewrite drop_replicate, take_replicate.
  change (Z.to_nat BSIZE) with 1024%nat.
  replace (4 `min` (1024 - Z.to_nat (4 * j)))%nat with 4%nat by lia. reflexivity.
Qed.

(** ** Bits of a free-map block *)

Definition bm_byte (bi : Z) (d : block) : Z := rd 1 (Z.to_nat (bi / 8)) d.
Definition bm_mask (bi : Z) : Z := Z.shiftl 1 (bi mod 8).
(** [(bp->data[bi/8] & m) == 0] *)
Definition bm_free (bi : Z) (d : block) : bool := Z.land (bm_byte bi d) (bm_mask bi) =? 0.
Definition bm_set (bi : Z) (d : block) : block :=
  wr 1 (Z.to_nat (bi / 8)) (Z.lor (bm_byte bi d) (bm_mask bi)) d.
Definition bm_clear (bi : Z) (d : block) : block :=
  wr 1 (Z.to_nat (bi / 8)) (Z.land (bm_byte bi d) (Z.lnot (bm_mask bi))) d.

Lemma land_mask x k : 0 <= k -> (Z.land x (Z.shiftl 1 k) =? 0) = negb (Z.testbit x k).
Proof.
  intros Hk. rewrite Z.shiftl_1_l. destruct (Z.testbit x k) eqn:E; simpl.
  - apply Z.eqb_neq. intros H. apply (f_equal (fun z => Z.testbit z k)) in H.
    rewrite Z.land_spec, E, Z.pow2_bits_true, Z.bits_0 in H by done. done.
  - apply Z.eqb_eq. apply Z.bits_inj'. intros n Hn. rewrite Z.land_spec, Z.bits_0.
    destruct (Z.eq_dec n k) as [->|]; [by rewrite E|].
    rewrite Z.pow2_bits_false by lia. apply andb_false_r.
Qed.

Lemma bm_free_spec bi d : bm_free bi d = negb (Z.testbit (bm_byte bi d) (bi mod 8)).
Proof. unfold bm_free, bm_mask. apply land_mask. apply Z.mod_pos_bound. lia. Qed.

Lemma bm_byte_wr bi bi' v d :
  blk d -> 0 <= bi < 8192 -> 0 <= bi' < 8192 ->
  bm_byte bi' (wr 1 (Z.to_nat (bi / 8)) v d) =
    if decide (bi' / 8 = bi / 8) then v mod 256 else bm_byte bi' d.
Proof.
  intros Hd Hb Hb'. unfold bm_byte. case_decide as E.
  - rewrite E. rewrite rd_same by (done || dlia). done.
  - apply rd_other; [done|dlia|]. destruct (decide (bi' / 8 < bi / 8)); [left|right]; dlia.
Qed.

Lemma blk_bm_set bi d : blk d -> 0 <= bi < 8192 -> blk (bm_set bi d).
Proof. intros Hd Hb. unfold bm_set. apply blk_wr; [done|dlia]. Qed.
Lemma blk_bm_clear bi d : blk d -> 0 <= bi < 8192 -> blk (bm_clear bi d).
Proof. intros Hd Hb. unfold bm_clear. apply blk_wr; [done|dlia]. Qed.

Lemma testbit_mod256 x k : 0 <= k < 8 -> Z.testbit (x mod 256) k = Z.testbit x k.
Proof. intros. change 256 with (2 ^ 8). by rewrite Z.mod_pow2_bits_low by lia. Qed.

Lemma bm_free_set bi bi' d :
  blk d -> 0 <= bi < 8192 -> 0 <= bi' < 8192 ->
  bm_free bi' (bm_set bi d) = if decide (bi' = bi) then false else bm_free bi' d.
Proof.
  intros Hd Hb Hb'. rewrite !bm_free_spec. unfold bm_set. rewrite bm_byte_wr by done.
  pose proof (Z.mod_pos_bound bi' 8 ltac:(lia)). pose proof (Z.mod_pos_bound bi 8 ltac:(lia)).
  destruct (decide (bi' / 8 = bi / 8)) as [E|E].
  - rewrite testbit_mod256, Z.lor_spec by done. unfold bm_mask. rewrite Z.shiftl_1_l.
    case_decide as Hn; [subst; rewrite Z.pow2_bits_true by lia; by rewrite orb_true_r|].
    rewrite Z.pow2_bits_false, orb_false_r by dlia. unfold bm_byte. by rewrite E.
  - rewrite decide_False by congruence. done.
Qed.

Lemma bm_free_clear bi bi' d :
  blk d -> 0 <= bi < 8192 -> 0 <= bi' < 8192 ->
  bm_free bi' (bm_clear bi d) = if decide (bi' = bi) then true else bm_free bi' d.
Proof.
  intros Hd Hb Hb'. rewrite !bm_free_spec. unfold bm_clear. rewrite bm_byte_wr by done.
  pose proof (Z.mod_pos_bound bi' 8 ltac:(lia)). pose proof (Z.mod_pos_bound bi 8 ltac:(lia)).
  destruct (decide (bi' / 8 = bi / 8)) as [E|E].
  - rewrite testbit_mod256, Z.land_spec, Z.lnot_spec by (done || lia). unfold bm_mask. rewrite Z.shiftl_1_l.
    case_decide as Hn; [subst; rewrite Z.pow2_bits_true by lia; by rewrite andb_false_r|].
    rewrite Z.pow2_bits_false, andb_true_r by dlia. unfold bm_byte. by rewrite E.
  - rewrite decide_False by congruence. done.
Qed.

(** ** Directory entries *)

Record dirent := mkDirent { de_inum : Z; de_name : list byte }.

Definition dirent_get (bs : list byte) : dirent := mkDirent (rd 2 0 bs) (slice 2 DIRSIZ bs).
Definition dirent_bytes (e : dirent) : list byte := le_enc 2 (de_inum e) ++ de_name e.

Lemma dirent_round e :
  0 <= de_inum e < 2 ^ 16 -> length (de_name e) = DIRSIZ -> dirent_get (dirent_bytes e) = e.
Proof.
  intros Hi Hn. destruct e as [i n]. cbn [de_inum de_name] in *.
  unfold dirent_get, dirent_bytes, rd, slice. cbn [de_inum de_name].
  pose proof (length_le_enc 2 i) as Hl. f_equal.
  - rewrite drop_0, take_app_le, take_ge by lia. by apply le_dec_enc_small.
  - rewrite drop_app_ge by lia. rewrite Hl, Nat.sub_diag, drop_0. apply take_ge. lia.
Qed.
