(* ===== verification/TxnLayer.v ===== *)
(** * The interface between the file system and the log

    What [kernel/fs.c] uses of [kernel/bio.c] and [kernel/log.c]: [bread], the
    data of a buffer, [log_write] and [brelse].  [TxnOps] are the operations,
    [TxnLaws] what the file system may rely on inside a transaction; the file system is written
    and verified against these, and the instance at the end shows that the
    cache and the log of the other files keep the promises. *)

From S2P Require Import Prelude Bio Log LogSpec LogTxn.

Class TxnOps (S : Type) := {
  t_bread : Z -> Z -> M S nat;
  t_data : nat -> M S block;
  t_set : nat -> block -> M S unit;
  t_log : nat -> M S unit;
  t_brelse : nat -> M S unit
}.

(** [t_rep s V H L M]: the current contents are [V]; the buffers in [H] are
    held; the blocks in [L] are in the log; the blocks in [M] are modified and not
    logged yet. *)
Class TxnLaws (S : Type) {O : TxnOps S} := {
  t_dev : Z;
  t_may_log : Z -> Prop;
  t_cap : nat;
  t_cap_min : (28 <= t_cap)%nat;
  t_rep : S -> view -> gmap nat Z -> gset Z -> gset Z -> Prop;
  t_len s V H L M n : t_rep s V H L M -> length (V n) = Z.to_nat BSIZE;
  t_ext s V V' H L M : t_rep s V H L M -> (forall n, V' n = V n) -> t_rep s V' H L M;
  t_bread_ok s V H L M n :
    t_rep s V H L M -> (forall i, H !! i <> Some n) -> (size H + size L < NBUF)%nat ->
    exists i s', t_bread t_dev n s = Ok i s' /\ H !! i = None /\ t_rep s' V (<[i := n]> H) L M;
  t_data_ok s V H L M i n :
    t_rep s V H L M -> H !! i = Some n -> t_data i s = Ok (V n) s;
  t_set_ok s V H L M i n d :
    t_rep s V H L M -> H !! i = Some n -> length d = Z.to_nat BSIZE ->
    exists s', t_set i d s = Ok tt s' /\ t_rep s' (<[n := d]> V) H L ({[n]} ∪ M);
  t_log_ok s V H L M i n :
    t_rep s V H L M -> H !! i = Some n -> t_may_log n -> (size L < t_cap)%nat ->
    exists s', t_log i s = Ok tt s' /\ t_rep s' V H ({[n]} ∪ L) (M ∖ {[n]});
  t_brelse_ok s V H L M i n :
    t_rep s V H L M -> H !! i = Some n -> n ∉ M ->
    exists s', t_brelse i s = Ok tt s' /\ t_rep s' V (delete i H) L M
}.

(** ** The cache and the log keep the promises *)

#[export] Instance lst_ops : TxnOps lst := {
  t_bread dev n := lbio (bread dev n);
  t_data := bdata;
  t_set := bset_data;
  t_log := log_write;
  t_brelse b := lbio (brelse b)
}.

Section lst_laws.
Variables dev start sz : Z.
Hypothesis start_range : 0 <= start /\ start + LOGSIZE + 1 < 2 ^ 31.
Hypothesis sz_range : LOGSIZE <= sz.

Definition lst_rep (s : lst) (V : view) (H : gmap nat Z) (L M : gset Z) : Prop :=
  exists l Dk t o, txn dev start s V H l M Dk t o sz /\ 1 <= o /\ L = list_to_set l /\ size L = length l.

#[local] Obligation Tactic := idtac.

#[export] Program Instance lst_laws : TxnLaws lst := {
  t_dev := dev;
  t_may_log n := 0 <= n < 2 ^ 31 /\ ~ in_log start n;
  t_cap := 29;
  t_rep := lst_rep
}.
Next Obligation. lia. Qed.
Next Obligation.
  intros s V H L M n (l & Dk & t & o & (lg & P & Hr & _) & _). apply (rp_len _ _ _ _ _ _ _ _ _ Hr).
Qed.
Next Obligation.
  intros s V V' H L M (l & Dk & t & o & Ht & Hrest) HV. exists l, Dk, t, o. split; [|done].
  by eapply txn_ext.
Qed.
Next Obligation.
  intros s V H L M n (l & Dk & t & o & Ht & Ho & -> & Hsz) Hn Hcap.
  destruct (txn_bread dev start s V H l M Dk t o sz n Ht Hn) as (i & s' & E & Hi & Ht'); [lia|].
  exists i, s'. split; [done|]. split; [done|]. by exists l, Dk, t, o.
Qed.
Next Obligation.
  intros s V H L M i n (l & Dk & t & o & Ht & _) Hi. by eapply txn_bdata.
Qed.
Next Obligation.
  intros s V H L M i n d (l & Dk & t & o & Ht & Hrest) Hi Hd.
  destruct (txn_bset dev start start_range s V H l M Dk t o sz i n d Ht Hi Hd) as (s' & E & Ht').
  exists s'. split; [done|]. by exists l, Dk, t, o.
Qed.
Next Obligation.
  intros s V H L M i n (l & Dk & t & o & Ht & Ho & -> & Hsz) Hi [Hn Hlog] Hcap.
  destruct (log_write_spec dev start start_range s V H l M Dk t o sz i n Ht Hi Hn Hlog Ho) as (s' & E & Ht').
  { unfold LOGSIZE, MAXOPBLOCKS. lia. }
  { unfold LOGSIZE, MAXOPBLOCKS in sz_range. lia. }
  exists s'. split; [done|]. exists (if decide (n ∈ l) then l else l ++ [n]), Dk, t, o.
  split; [done|]. split; [done|]. case_decide as Hin.
  - assert ({[n]} ∪ list_to_set l = (list_to_set l : gset Z)) as Hs by set_solver. by rewrite Hs.
  - split; [rewrite list_to_set_app_L; set_solver|].
    rewrite length_app, size_union, size_singleton by set_solver. simpl. lia.
Qed.
Next Obligation.
  intros s V H L M i n (l & Dk & t & o & Ht & Hrest) Hi HM.
  destruct (txn_brelse dev start start_range s V H l M Dk t o sz i n Ht Hi HM) as (s' & E & Ht').
  exists s'. split; [done|]. by exists l, Dk, t, o.
Qed.
End lst_laws.
