(* ===== verification/Fs.v ===== *)
(** * File system ([kernel/fs.c])

    Block allocation, inodes and their table, the block map of a file, reading
    and writing a file, directories and path names, over the transaction
    interface of [TxnLayer].  A pointer to a table entry is its index, the null
    pointer is [None].  [itable.lock] sections are atomic; the sleep lock of an
    inode is the flag [i_lock], and waiting for it is the outcome [Blocked].
    The messages that [balloc] and [ialloc] print have no effect here. *)

From S2P Require Import Prelude CString Bio FsLayout TxnLayer.

Definition NINODE : nat := 50.
Definition ROOTDEV : Z := 1.
Definition T_DIR : Z := 1.
Definition T_FILE : Z := 2.
Definition T_DEVICE : Z := 3.

(** ** State *)

Record inode := mkInode {
  i_dev : Z; i_inum : Z; i_ref : Z; i_lock : bool; i_valid : bool;
  i_type : Z; i_major : Z; i_minor : Z; i_nlink : Z; i_size : Z; i_addrs : list Z
}.

Definition inode0 : inode := mkInode 0 0 0 false false 0 0 0 0 0 (replicate naddrs 0).

Record fsst (T : Type) := mkFs { fs_t : T; fs_sb : superblock; fs_it : list inode }.
Arguments mkFs {T}.
Arguments fs_t {T}.
Arguments fs_sb {T}.
Arguments fs_it {T}.

Definition i_set_ref (r : Z) (x : inode) : inode :=
  mkInode (i_dev x) (i_inum x) r (i_lock x) (i_valid x) (i_type x) (i_major x) (i_minor x)
          (i_nlink x) (i_size x) (i_addrs x).
Definition i_set_lock (l : bool) (x : inode) : inode :=
  mkInode (i_dev x) (i_inum x) (i_ref x) l (i_valid x) (i_type x) (i_major x) (i_minor x)
          (i_nlink x) (i_size x) (i_addrs x).
Definition i_set_valid (v : bool) (x : inode) : inode :=
  mkInode (i_dev x) (i_inum x) (i_ref x) (i_lock x) v (i_type x) (i_major x) (i_minor x)
          (i_nlink x) (i_size x) (i_addrs x).
Definition i_set_type (t : Z) (x : inode) : inode :=
  mkInode (i_dev x) (i_inum x) (i_ref x) (i_lock x) (i_valid x) t (i_major x) (i_minor x)
          (i_nlink x) (i_size x) (i_addrs x).
Definition i_set_size (n : Z) (x : inode) : inode :=
  mkInode (i_dev x) (i_inum x) (i_ref x) (i_lock x) (i_valid x) (i_type x) (i_major x) (i_minor x)
          (i_nlink x) n (i_addrs x).
Definition i_set_addr (j a : Z) (x : inode) : inode :=
  mkInode (i_dev x) (i_inum x) (i_ref x) (i_lock x) (i_valid x) (i_type x) (i_major x) (i_minor x)
          (i_nlink x) (i_size x) (<[Z.to_nat j := a]> (i_addrs x)).
(** The copies between the in-memory and the on-disk inode. *)
Definition i_to_disk (x : inode) : dinode :=
  mkDinode (i_type x) (i_major x) (i_minor x) (i_nlink x) (i_size x) (i_addrs x).
Definition i_from_disk (d : dinode) (x : inode) : inode :=
  mkInode (i_dev x) (i_inum x) (i_ref x) (i_lock x) (i_valid x) (dn_type d) (dn_major d) (dn_minor d)
          (dn_nlink d) (dn_size d) (dn_addrs d).
(** A table entry taken for inode [inum]. *)
Definition i_recycle (dev inum : Z) (x : inode) : inode :=
  mkInode dev inum 1 (i_lock x) false (i_type x) (i_major x) (i_minor x)
          (i_nlink x) (i_size x) (i_addrs x).

(** ** The other end of a copy *)

Class CopyOps (W : Type) := {
  either_copyout : bool -> Z -> list byte -> M W Z;
  either_copyin : bool -> Z -> Z -> M W (list byte * Z)
}.

(** A variable on the kernel stack; addresses count from its start. *)
Definition local := list byte.

#[export] Instance local_copy : CopyOps local := {
  either_copyout user dst bs w :=
    if negb user && (0 <=? dst) && (Z.to_nat dst + length bs <=? length w)%nat then Ok 0 (splice w (Z.to_nat dst) bs)
    else Undef;
  either_copyin user src n w :=
    if negb user && (0 <=? src) && (Z.to_nat src + Z.to_nat n <=? length w)%nat then Ok (slice (Z.to_nat src) (Z.to_nat n) w, 0) w
    else Undef
}.

Section fs.
Context {T : Type} {TO : TxnOps T}.

Definition set_t (t : T) (s : fsst T) : fsst T := mkFs t (fs_sb s) (fs_it s).
Definition set_sb (b : superblock) (s : fsst T) : fsst T := mkFs (fs_t s) b (fs_it s).
Definition upd_i (ip : nat) (f : inode -> inode) (s : fsst T) : fsst T :=
  mkFs (fs_t s) (fs_sb s) (alter f ip (fs_it s)).
Definition iat (s : fsst T) (ip : nat) : inode := default inode0 (fs_it s !! ip).

Definition tx {A} (m : M T A) : M (fsst T) A := zoom fs_t set_t m.
Definition inode_of (ip : nat) : M (fsst T) inode := gets (fun s => iat s ip).
Definition addr_of (ip : nat) (j : Z) : M (fsst T) Z :=
  x <- inode_of ip;; from_opt (i_addrs x !! Z.to_nat j).

(** ** Super block *)

Definition readsb (dev : Z) : M (fsst T) unit :=
  bp <- tx (t_bread dev 1);;
  d <- tx (t_data bp);;
  modify (set_sb (sb_get d));;;
  tx (t_brelse bp).

(** [initlog] belongs to the layer below. *)
Definition fsinit (dev : Z) (initlog : Z -> superblock -> M T unit) : M (fsst T) unit :=
  readsb dev;;;
  sb <- gets fs_sb;;
  if negb (sb_magic sb =? FSMAGIC) then panic "invalid file system"
  else tx (initlog dev sb).

(** ** Blocks *)

Definition bzero (dev bno : Z) : M (fsst T) unit :=
  bp <- tx (t_bread dev bno);;
  tx (t_set bp zero_block);;;
  tx (t_log bp);;;
  tx (t_brelse bp).

(** The first free bit among the [n] bits from [bi] on. *)
Fixpoint first_free (n : nat) (bi : Z) (d : block) : option Z :=
  match n with
  | O => None
  | S n => if bm_free bi d then Some bi else first_free n (bi + 1) d
  end.

(** One round of the outer loop of [balloc], for the blocks from [b] on. *)
Definition balloc_map (dev b : Z) : M (fsst T) (option Z) :=
  sb <- gets fs_sb;;
  bp <- tx (t_bread dev (BBLOCK b sb));;
  d <- tx (t_data bp);;
  match first_free (Z.to_nat (Z.min BPB (sb_size sb - b))) 0 d with
  | Some bi =>
      tx (t_set bp (bm_set bi d));;;
      tx (t_log bp);;;
      tx (t_brelse bp);;;
      bzero dev (b + bi);;;
      ret (Some (b + bi))
  | None => tx (t_brelse bp);;; ret None
  end.

Definition balloc (dev : Z) : M (fsst T) Z :=
  sb <- gets fs_sb;;
  r <- for_until ((fun i => Z.of_nat i * BPB) <$> seq 0 (Z.to_nat ((sb_size sb + BPB - 1) / BPB)))
                 (balloc_map dev);;
  match r with
  | Some b => ret b
  | None => ret 0
  end.

Definition bfree (dev b : Z) : M (fsst T) unit :=
  sb <- gets fs_sb;;
  bp <- tx (t_bread dev (BBLOCK b sb));;
  let bi := b mod BPB in
  d <- tx (t_data bp);;
  if bm_free bi d then panic "freeing free block"
  else
    tx (t_set bp (bm_clear bi d));;;
    tx (t_log bp);;;
    tx (t_brelse bp).

(** ** Inodes *)

Definition iinit : M (fsst T) unit :=
  for_each (seq 0 NINODE) (fun i => modify (upd_i i (i_set_lock false))).

(** The scan of the table by [iget]: the entry for the inode, else the first
    empty slot. *)
Fixpoint iscan (l : list inode) (dev inum : Z) (i : nat) (empty : option nat) : option nat + option nat :=
  match l with
  | [] => inr empty
  | x :: l =>
      if (0 <? i_ref x) && (i_dev x =? dev) && (i_inum x =? inum) then inl (Some i)
      else iscan l dev inum (S i)
             (match empty with
              | None => if i_ref x =? 0 then Some i else None
              | _ => empty
              end)
  end.

Definition iget (dev inum : Z) : M (fsst T) nat :=
  l <- gets fs_it;;
  match iscan l dev inum 0 None with
  | inl (Some ip) =>
      modify (upd_i ip (fun x => i_set_ref (i_ref x + 1) x));;; ret ip
  | inr (Some ip) => modify (upd_i ip (i_recycle dev inum));;; ret ip
  | _ => panic "iget: no inodes"
  end.

Definition ialloc_one (dev type : Z) (inum : Z) : M (fsst T) (option nat) :=
  sb <- gets fs_sb;;
  bp <- tx (t_bread dev (IBLOCK inum sb));;
  d <- tx (t_data bp);;
  let k := Z.to_nat (inum mod IPB) in
  if dn_type (dinode_get k d) =? 0 then
    tx (t_set bp (dinode_init k type d));;;
    tx (t_log bp);;;
    tx (t_brelse bp);;;
    ip <- iget dev inum;;
    ret (Some ip)
  else tx (t_brelse bp);;; ret None.

Definition ialloc (dev type : Z) : M (fsst T) (option nat) :=
  sb <- gets fs_sb;;
  for_until ((fun i => Z.of_nat i) <$> seq 1 (Z.to_nat (sb_ninodes sb - 1))) (ialloc_one dev type).

Definition iupdate (ip : nat) : M (fsst T) unit :=
  x <- inode_of ip;;
  sb <- gets fs_sb;;
  bp <- tx (t_bread (i_dev x) (IBLOCK (i_inum x) sb));;
  d <- tx (t_data bp);;
  tx (t_set bp (dinode_put (Z.to_nat (i_inum x mod IPB)) (i_to_disk x) d));;;
  tx (t_log bp);;;
  tx (t_brelse bp).

Definition idup (ip : nat) : M (fsst T) nat :=
  modify (upd_i ip (fun x => i_set_ref (i_ref x + 1) x));;; ret ip.

Definition iacquiresleep (ip : nat) : M (fsst T) unit :=
  x <- inode_of ip;;
  if i_lock x then blocked else modify (upd_i ip (i_set_lock true)).

Definition ilock (p : option nat) : M (fsst T) unit :=
  match p with
  | None => panic "ilock"
  | Some ip =>
      x <- inode_of ip;;
      if i_ref x <? 1 then panic "ilock"
      else
        iacquiresleep ip;;;
        if negb (i_valid x) then
          sb <- gets fs_sb;;
          bp <- tx (t_bread (i_dev x) (IBLOCK (i_inum x) sb));;
          d <- tx (t_data bp);;
          modify (upd_i ip (i_from_disk (dinode_get (Z.to_nat (i_inum x mod IPB)) d)));;;
          tx (t_brelse bp);;;
          modify (upd_i ip (i_set_valid true));;;
          y <- inode_of ip;;
          if i_type y =? 0 then panic "ilock: no type" else ret tt
        else ret tt
  end.

Definition iunlock (p : option nat) : M (fsst T) unit :=
  match p with
  | None => panic "iunlock"
  | Some ip =>
      x <- inode_of ip;;
      if negb (i_lock x) || (i_ref x <? 1) then panic "iunlock"
      else modify (upd_i ip (i_set_lock false))
  end.

(** ** Block map *)

Definition bmap_direct (ip : nat) (dev bn : Z) : M (fsst T) Z :=
  addr <- addr_of ip bn;;
  if addr =? 0 then
    addr <- balloc dev;;
    if addr =? 0 then ret 0
    else modify (upd_i ip (i_set_addr bn addr));;; ret addr
  else ret addr.

(** Entry [j] of the indirect block [bp]: [bmap] stores a new block only if it
    got one in the single-indirect case ([checked]), and in any case in the
    double-indirect one. *)
Definition bmap_entry (dev : Z) (bp : nat) (j : Z) (checked : bool) : M (fsst T) Z :=
  d <- tx (t_data bp);;
  let addr := word j d in
  if addr =? 0 then
    addr <- balloc dev;;
    (if checked && (addr =? 0) then ret tt
     else
       d <- tx (t_data bp);;
       tx (t_set bp (set_word j addr d));;;
       tx (t_log bp));;;
    ret addr
  else ret addr.

Definition bmap_single (ip : nat) (dev bn : Z) : M (fsst T) Z :=
  addr <- bmap_direct ip dev NDIRECT;;
  if addr =? 0 then ret 0
  else
    bp <- tx (t_bread dev addr);;
    addr <- bmap_entry dev bp bn true;;
    tx (t_brelse bp);;;
    ret addr.

Definition bmap_double (ip : nat) (dev bn : Z) : M (fsst T) Z :=
  addr <- addr_of ip (NDIRECT + 1);;
  addr <- (if addr =? 0 then
             addr <- balloc dev;;
             modify (upd_i ip (i_set_addr (NDIRECT + 1) addr));;;
             ret addr
           else ret addr);;
  bp <- tx (t_bread dev addr);;
  addr <- bmap_entry dev bp (bn / NINDIRECT) false;;
  tx (t_brelse bp);;;
  bp <- tx (t_bread dev addr);;
  addr <- bmap_entry dev bp (bn mod NINDIRECT) false;;
  tx (t_brelse bp);;;
  ret addr.

Definition bmap (ip : nat) (bn : Z) : M (fsst T) Z :=
  x <- inode_of ip;;
  let dev := i_dev x in
  if bn <? NDIRECT then bmap_direct ip dev bn
  else
    let bn := bn - NDIRECT in
    if bn <? NINDIRECT then bmap_single ip dev bn
    else
      let bn := bn - NINDIRECT in
      if bn <? ND_INDIRECT then bmap_double ip dev bn
      else panic "bmap: out of range".

(** ** Truncation *)

(** Free the blocks listed in the indirect block [bp]. *)
Definition free_entries (bp : nat) (body : Z -> M (fsst T) unit) : M (fsst T) unit :=
  for_each (seq 0 (Z.to_nat NINDIRECT)) (fun j =>
    d <- tx (t_data bp);;
    let a := word (Z.of_nat j) d in
    if negb (a =? 0) then body a else ret tt).

Definition itrunc_direct (ip : nat) (dev : Z) : M (fsst T) unit :=
  for_each (seq 0 (Z.to_nat NDIRECT)) (fun i =>
    a <- addr_of ip (Z.of_nat i);;
    if negb (a =? 0) then
      bfree dev a;;; modify (upd_i ip (i_set_addr (Z.of_nat i) 0))
    else ret tt).

Definition itrunc_single (ip : nat) (dev : Z) : M (fsst T) unit :=
  a <- addr_of ip NDIRECT;;
  if negb (a =? 0) then
    bp <- tx (t_bread dev a);;
    free_entries bp (bfree dev);;;
    tx (t_brelse bp);;;
    bfree dev a;;;
    modify (upd_i ip (i_set_addr NDIRECT 0))
  else ret tt.

Definition itrunc_double (ip : nat) (dev : Z) : M (fsst T) unit :=
  a <- addr_of ip (NDIRECT + 1);;
  if negb (a =? 0) then
    bp <- tx (t_bread dev a);;
    free_entries bp (fun a1 =>
      bp2 <- tx (t_bread dev a1);;
      free_entries bp2 (bfree dev);;;
      tx (t_brelse bp2);;;
      bfree dev a1);;;
    tx (t_brelse bp);;;
    bfree dev a;;;
    modify (upd_i ip (i_set_addr (NDIRECT + 1) 0))
  else ret tt.

Definition itrunc (ip : nat) : M (fsst T) unit :=
  x <- inode_of ip;;
  itrunc_direct ip (i_dev x);;;
  itrunc_single ip (i_dev x);;;
  itrunc_double ip (i_dev x);;;
  modify (upd_i ip (i_set_size 0));;;
  iupdate ip.

Definition iput (ip : nat) : M (fsst T) unit :=
  x <- inode_of ip;;
  (if (i_ref x =? 1) && i_valid x && (i_nlink x =? 0) then
     iacquiresleep ip;;;
     itrunc ip;;;
     modify (upd_i ip (i_set_type 0));;;
     iupdate ip;;;
     modify (upd_i ip (i_set_valid false));;;
     modify (upd_i ip (i_set_lock false))
   else ret tt);;;
  modify (upd_i ip (fun x => i_set_ref (i_ref x - 1) x)).

Definition iunlockput (ip : nat) : M (fsst T) unit := iunlock (Some ip);;; iput ip.
Record stat := mkStat { st_dev : Z; st_ino : Z; st_type : Z; st_nlink : Z; st_size : Z }.

Definition stati (ip : nat) : M (fsst T) stat :=
  x <- inode_of ip;;
  ret (mkStat (i_dev x) (i_inum x) (i_type x) (i_nlink x) (i_size x)).

(** ** Reading and writing a file

    The other end of a copy is a memory [W], whose operations are the
    [either_copyout] and [either_copyin] of [kernel/proc.c].  A copy into the
    kernel that fails may have stored a prefix of the bytes: [either_copyin]
    gives the bytes stored and the result. *)

Section rw.
Context {W : Type} {C : CopyOps W}.

Definition fs {A} (m : M (fsst T) A) : M (fsst T * W) A := zoom fst (fun t s => (t, snd s)) m.
Definition mem {A} (m : M W A) : M (fsst T * W) A := zoom snd (fun w s => (fst s, w)) m.

Fixpoint readi_loop (fuel : nat) (ip : nat) (user_dst : bool) (dst off n tot : Z) : M (fsst T * W) Z :=
  if tot <? n then
    match fuel with
    | O => nofuel
    | S fuel =>
        addr <- fs (bmap ip (off / BSIZE));;
        if addr =? 0 then ret tot
        else
          x <- fs (inode_of ip);;
          bp <- fs (tx (t_bread (i_dev x) addr));;
          let m := Z.min (n - tot) (BSIZE - off mod BSIZE) in
          d <- fs (tx (t_data bp));;
          r <- mem (either_copyout user_dst dst (slice (Z.to_nat (off mod BSIZE)) (Z.to_nat m) d));;
          if r =? -1 then
            fs (tx (t_brelse bp));;; ret (u32 (-1))
          else
            fs (tx (t_brelse bp));;;
            readi_loop fuel ip user_dst (u64 (dst + m)) (u32 (off + m)) n (tot + m)
    end
  else ret tot.

Definition readi (ip : nat) (user_dst : bool) (dst off n : Z) : M (fsst T * W) Z :=
  x <- fs (inode_of ip);;
  if (i_size x <? off) || (u32 (off + n) <? off) then ret 0
  else
    let n := if i_size x <? u32 (off + n) then i_size x - off else n in
    tot <- readi_loop (Z.to_nat n) ip user_dst dst off n 0;;
    ret (i32 tot).

(** The result is [tot] and the last value of [off]. *)
Fixpoint writei_loop (fuel : nat) (ip : nat) (user_src : bool) (src off n tot : Z)
    : M (fsst T * W) (Z * Z) :=
  if tot <? n then
    match fuel with
    | O => nofuel
    | S fuel =>
        addr <- fs (bmap ip (off / BSIZE));;
        if addr =? 0 then ret (tot, off)
        else
          x <- fs (inode_of ip);;
          bp <- fs (tx (t_bread (i_dev x) addr));;
          let m := Z.min (n - tot) (BSIZE - off mod BSIZE) in
          c <- mem (either_copyin user_src src m);;
          d <- fs (tx (t_data bp));;
          fs (tx (t_set bp (splice d (Z.to_nat (off mod BSIZE)) c.1)));;;
          if c.2 =? -1 then
            fs (tx (t_brelse bp));;; ret (tot, off)
          else
            fs (tx (t_log bp));;;
            fs (tx (t_brelse bp));;;
            writei_loop fuel ip user_src (u64 (src + m)) (u32 (off + m)) n (tot + m)
    end
  else ret (tot, off).

Definition writei (ip : nat) (user_src : bool) (src off n : Z) : M (fsst T * W) Z :=
  x <- fs (inode_of ip);;
  if (i_size x <? off) || (u32 (off + n) <? off) then ret (-1)
  else if MAXFILE * BSIZE <? u32 (off + n) then ret (-1)
  else
    r <- writei_loop (Z.to_nat n) ip user_src src off n 0;;
    x <- fs (inode_of ip);;
    (if i_size x <? r.2 then fs (modify (upd_i ip (i_set_size r.2))) else ret tt);;;
    fs (iupdate ip);;;
    ret (i32 r.1).
End rw.

(** ** Directories *)

Definition namecmp (s t : list byte) : option Z := KString.strncmp s t DIRSIZ.

(** A call with a local variable [w] of the caller as its memory. *)
Definition with_local {W A} (w : W) (m : M (fsst T * W) A) : M (fsst T) (A * W) := fun s =>
  match m (s, w) with
  | Ok a (s, w) => Ok (a, w) s
  | Panic e => Panic e
  | Blocked (s, _) => Blocked s
  | Undef => Undef
  | NoFuel => NoFuel
  end.

Definition de_size : Z := 16.
Definition de0 : local := replicate (Z.to_nat de_size) x00.

(** The result of the search is the offset and the inode. *)
Fixpoint dirlookup_loop (fuel : nat) (dp : nat) (name : list byte) (off : Z) : M (fsst T) (option (Z * nat)) :=
  x <- inode_of dp;;
  if off <? i_size x then
    match fuel with
    | O => nofuel
    | S fuel =>
        r <- with_local de0 (readi dp false 0 off de_size);;
        if negb (r.1 =? de_size) then panic "dirlookup read"
        else
          let de := dirent_get r.2 in
          if de_inum de =? 0 then dirlookup_loop fuel dp name (u32 (off + de_size))
          else
            c <- from_opt (namecmp name (de_name de));;
            if c =? 0 then
              ip <- iget (i_dev x) (de_inum de);;
              ret (Some (off, ip))
            else dirlookup_loop fuel dp name (u32 (off + de_size))
    end
  else ret None.

(** Rounds of a loop over the entries of a directory of the given size. *)
Definition dir_rounds (size : Z) : nat := Z.to_nat ((size + de_size - 1) / de_size).

Definition dirlookup (dp : nat) (name : list byte) : M (fsst T) (option (Z * nat)) :=
  x <- inode_of dp;;
  if negb (i_type x =? T_DIR) then panic "dirlookup not DIR"
  else dirlookup_loop (dir_rounds (i_size x)) dp name 0.

(** The offset of the first empty entry, or the end of the directory. *)
Fixpoint dirlink_loop (fuel : nat) (dp : nat) (off : Z) : M (fsst T) Z :=
  x <- inode_of dp;;
  if off <? i_size x then
    match fuel with
    | O => nofuel
    | S fuel =>
        r <- with_local de0 (readi dp false 0 off de_size);;
        if negb (r.1 =? de_size) then panic "dirlink read"
        else if de_inum (dirent_get r.2) =? 0 then ret off
        else dirlink_loop fuel dp (u32 (off + de_size))
    end
  else ret off.

Definition dirlink (dp : nat) (name : list byte) (inum : Z) : M (fsst T) Z :=
  r <- dirlookup dp name;;
  match r with
  | Some (_, ip) => iput ip;;; ret (-1)
  | None =>
      x <- inode_of dp;;
      off <- dirlink_loop (dir_rounds (i_size x)) dp 0;;
      nm <- from_opt (KString.strncpy (replicate DIRSIZ x00) name DIRSIZ);;
      r <- with_local (dirent_bytes (mkDirent (u16 inum) nm)) (writei dp false 0 off de_size);;
      if negb (r.1 =? de_size) then ret (-1) else ret 0
  end.

End fs.

(** ** Paths *)

Definition slash : byte := x2f.

Fixpoint skip_slashes (p : list byte) : list byte :=
  match p with
  | c :: p' => if bool_decide (c = slash) then skip_slashes p' else p
  | [] => []
  end.

(** The bytes before the next slash or NUL, and the rest. *)
Fixpoint elem_of_path (p : list byte) : list byte * list byte :=
  match p with
  | c :: p' =>
      if bool_decide (c <> slash) && bool_decide (c <> x00)
      then let r := elem_of_path p' in (c :: r.1, r.2)
      else ([], p)
  | [] => ([], [])
  end.

(** [path] is a NUL-terminated string; [name] has room for [DIRSIZ] bytes, and
    keeps the bytes that are not overwritten.  The result is the rest of the
    path and the new [name]. *)
Definition skipelem (path name : list byte) : option (list byte * list byte) :=
  match skip_slashes path with
  | [] => None
  | (c :: _) as p =>
      if bool_decide (c = x00) then None
      else
        let (s, rest) := elem_of_path p in
        let len := length s in
        Some (skip_slashes rest,
              if (DIRSIZ <=? len)%nat then splice name 0 (take DIRSIZ s)
              else <[len := x00]> (splice name 0 s))
  end.

Section namex.
Context {T : Type} {TO : TxnOps T}.
Variable cwd : nat.

Fixpoint namex_loop (fuel : nat) (ip : nat) (path : list byte) (parent : bool) (name : list byte)
    : M (fsst T) (option nat * list byte) :=
  match skipelem path name with
  | None => if parent then iput ip;;; ret (None, name) else ret (Some ip, name)
  | Some (path, name) =>
      match fuel with
      | O => nofuel
      | S fuel =>
          ilock (Some ip);;;
          x <- inode_of ip;;
          if negb (i_type x =? T_DIR) then iunlockput ip;;; ret (None, name)
          else if parent && bool_decide (path !! 0%nat = Some x00) then
            iunlock (Some ip);;; ret (Some ip, name)
          else
            r <- dirlookup ip name;;
            match r with
            | None => iunlockput ip;;; ret (None, name)
            | Some (_, next) => iunlockput ip;;; namex_loop fuel next path parent name
            end
      end
  end.

Definition namex (path : list byte) (parent : bool) (name : list byte) : M (fsst T) (option nat * list byte) :=
  ip <- (if bool_decide (path !! 0%nat = Some slash) then iget ROOTDEV ROOTINO else idup cwd);;
  namex_loop (length path) ip path parent name.

Definition namei (path : list byte) : M (fsst T) (option nat) :=
  r <- namex path false (replicate DIRSIZ x00);; ret r.1.

Definition nameiparent (path name : list byte) : M (fsst T) (option nat * list byte) :=
  namex path true name.
End namex.
