(* ===== verification/FsAlloc.v ===== *)
(** * The block allocator: [bzero], [balloc], [bfree]

    [frep] describes the file system's state inside a transaction; the lemmas
    that follow lift the interface [TxnLaws] to it.  [used] reads the allocation
    bitmap: [balloc] takes the first free block, marks it and zeroes it, and
    [bfree] clears the one bit. *)

From S2P Require Import Prelude Bio LogSpec FsLayout TxnLayer Fs.

(** ** The bitmap *)

Definition used (sb : superblock) (V : view) (b : Z) : bool :=
  negb (bm_free (b mod BPB) (V (BBLOCK b sb))).

(** The layout [mkfs] gives a disk: after the log the inodes, then the bitmap,
    then the data, which starts at [dstart]. *)
Definition dstart (sb : superblock) : Z := sb_bmapstart sb + (sb_size sb + BPB - 1) / BPB.

Record geom (sb : superblock) : Prop := {
  g_size : 0 < sb_size sb < 2 ^ 31;
  g_ninodes : 0 <= sb_ninodes sb <= 2 ^ 16;
  g_inodes : 1 < sb_inodestart sb;
  g_bmap : sb_inodestart sb + sb_ninodes sb / IPB + 1 <= sb_bmapstart sb;
  g_data : dstart sb <= sb_size sb
}.

(** Every block before the data is marked used. *)
Definition meta_used (sb : superblock) (V : view) : Prop :=
  forall b, 0 <= b < dstart sb -> used sb V b = true.

Definition alloc_view (sb : superblock) (b : Z) (V : view) : view :=
  <[b := zero_block]> (<[BBLOCK b sb := bm_set (b mod BPB) (V (BBLOCK b sb))]> V).
Definition free_view (sb : superblock) (b : Z) (V : view) : view :=
  <[BBLOCK b sb := bm_clear (b mod BPB) (V (BBLOCK b sb))]> V.

Ltac geo := change IPB with 16 in *; change BPB with 8192 in *; change BSIZE with 1024 in *;
  change NINDIRECT with 256 in *.

Lemma dstart_pos sb : geom sb -> 1 < dstart sb.
Proof. intros [Hs Hn Hi Hb Hd]. unfold dstart. geo. dlia. Qed.

Lemma BBLOCK_eq sb b :
  geom sb -> 0 <= b < sb_size sb ->
  BBLOCK b sb = b / BPB + sb_bmapstart sb /\ sb_bmapstart sb <= BBLOCK b sb < dstart sb.
Proof.
  intros [Hs Hn Hi Hb Hd] Hr. unfold BBLOCK, dstart in *. geo.
  rewrite u32_small; [split; [done|]|]; dlia.
Qed.

Lemma used_set sb b n V :
  geom sb -> (forall m, blk (V m)) -> 0 <= b < sb_size sb -> 0 <= n < sb_size sb ->
  used sb (<[BBLOCK b sb := bm_set (b mod BPB) (V (BBLOCK b sb))]> V) n = bool_decide (n = b) || used sb V n.
Proof.
  intros G HV Hb Hn. unfold used.
  destruct (BBLOCK_eq sb b G Hb) as [Eb _], (BBLOCK_eq sb n G Hn) as [En _].
  destruct (decide (BBLOCK n sb = BBLOCK b sb)) as [E|E].
  - rewrite E, fn_lookup_insert, bm_free_set; [|apply HV|geo; dlia..].
    case_decide as E2; case_bool_decide as E3; try done.
    + exfalso. apply E3. geo. dlia.
    + by subst.
  - rewrite fn_lookup_insert_ne by done. rewrite bool_decide_false by congruence. done.
Qed.

Lemma used_clear sb b n V :
  geom sb -> (forall m, blk (V m)) -> 0 <= b < sb_size sb -> 0 <= n < sb_size sb ->
  used sb (free_view sb b V) n = negb (bool_decide (n = b)) && used sb V n.
Proof.
  intros G HV Hb Hn. unfold used, free_view.
  destruct (BBLOCK_eq sb b G Hb) as [Eb _], (BBLOCK_eq sb n G Hn) as [En _].
  destruct (decide (BBLOCK n sb = BBLOCK b sb)) as [E|E].
  - rewrite E, fn_lookup_insert, bm_free_clear; [|apply HV|geo; dlia..].
    case_decide as E2; case_bool_decide as E3; try done.
    + exfalso. apply E3. geo. dlia.
    + by subst.
  - rewrite fn_lookup_insert_ne by done. rewrite bool_decide_false by congruence. done.
Qed.

Lemma used_other sb n m d V :
  geom sb -> 0 <= n < sb_size sb -> dstart sb <= m -> used sb (<[m := d]> V) n = used sb V n.
Proof.
  intros G Hn Hm. unfold used. destruct (BBLOCK_eq sb n G Hn) as [_ ?].
  by rewrite fn_lookup_insert_ne by lia.
Qed.

Lemma used_alloc sb b n V :
  geom sb -> (forall m, blk (V m)) -> dstart sb <= b < sb_size sb -> 0 <= n < sb_size sb ->
  used sb (alloc_view sb b V) n = bool_decide (n = b) || used sb V n.
Proof.
  intros G HV Hb Hn. unfold alloc_view. rewrite used_other by (done || lia).
  apply used_set; try done. pose proof (dstart_pos sb G). lia.
Qed.

(** ** The first free block *)

Lemma first_free_some n bi d b :
  first_free n bi d = Some b ->
  bi <= b < bi + Z.of_nat n /\ bm_free b d = true /\ forall c, bi <= c < b -> bm_free c d = false.
Proof.
  revert bi. induction n as [|n IH]; intros bi; simpl; [done|].
  destruct (bm_free bi d) eqn:E.
  - intros [= ->]. split_and!; [lia|lia|done|]. intros c Hc. lia.
  - intros (Hr & Hf & Hl)%IH. split_and!; [lia|lia|done|]. intros c Hc.
    destruct (decide (c = bi)) as [->|]; [done|]. apply Hl. lia.
Qed.

Lemma first_free_none n bi d :
  first_free n bi d = None -> forall c, bi <= c < bi + Z.of_nat n -> bm_free c d = false.
Proof.
  revert bi. induction n as [|n IH]; intros bi; simpl; [lia|].
  destruct (bm_free bi d) eqn:E; [done|]. intros H c Hc.
  destruct (decide (c = bi)) as [->|]; [done|]. apply (IH (bi + 1)); [done|lia].
Qed.

(** ** The state inside a transaction *)

Section alloc.
Context {T : Type} {TO : TxnOps T} {TL : TxnLaws T}.
Abbreviation dev := (t_dev (S := T)).

(** [X] are the blocks for which the transaction has room in the log, [k] the
    number of further blocks it has room for. *)
Record frep (s : fsst T) (sb : superblock) (it : list inode) (V : view) (H : gmap nat Z)
    (M X : gset Z) (k : nat) : Prop := {
  fr_sb : fs_sb s = sb;
  fr_it : fs_it s = it;
  fr_t : exists L, t_rep (fs_t s) V H L M /\ (size (L ∪ X) + k <= 27)%nat;
  fr_log : forall n, n ∈ X -> t_may_log n
}.

Lemma frep_blk s sb it V H M X k n : frep s sb it V H M X k -> blk (V n).
Proof. intros [_ _ (L & Hr & _) _]. exact (t_len _ _ _ _ _ _ Hr). Qed.

Lemma frep_ext s sb it V V' H M X k :
  frep s sb it V H M X k -> (forall n, V' n = V n) -> frep s sb it V' H M X k.
Proof. intros [Hs Hi (L & Hr & Hk) Hl] HV. split; [done..| |done]. exists L. split; [|done]. by eapply t_ext. Qed.

Lemma frep_reserve s sb it V H M X k n :
  frep s sb it V H M X (S k) -> t_may_log n -> frep s sb it V H M ({[n]} ∪ X) k.
Proof.
  intros [Hs Hi (L & Hr & Hk) Hl] Hn. split; [done..| |set_solver].
  exists L. split; [done|].
  replace (L ∪ ({[n]} ∪ X)) with ({[n]} ∪ (L ∪ X)) by set_solver.
  rewrite size_union_alt, size_singleton.
  pose proof (subseteq_size ((L ∪ X) ∖ {[n]}) (L ∪ X) ltac:(set_solver)). lia.
Qed.

Lemma frep_weaken s sb it V H M X k X' k' :
  frep s sb it V H M X k -> X' ⊆ X -> (k' <= k)%nat -> frep s sb it V H M X' k'.
Proof.
  intros [Hs Hi (L & Hr & Hk) Hl] HX Hk'. split; [done..| |set_solver].
  exists L. split; [done|]. pose proof (subseteq_size (L ∪ X') (L ∪ X) ltac:(set_solver)). lia.
Qed.

Lemma frep_it s sb it V H M X k ip f :
  frep s sb it V H M X k ->
  frep (upd_i ip f s) sb (alter f ip it) V H M X k.
Proof. intros [Hs Hi Ht Hl]. split; [done| |done|done]. simpl. by rewrite Hi. Qed.

Lemma upd_i_ok ip (f : inode -> inode) (s : fsst T) : modify (upd_i ip f) s = Ok tt (upd_i ip f s).
Proof. done. Qed.

Lemma frep_iat s sb it V H M X k ip : frep s sb it V H M X k -> iat s ip = default inode0 (it !! ip).
Proof. intros [_ <- _ _]. done. Qed.

Lemma sb_ok s sb it V H M X k : frep s sb it V H M X k -> gets fs_sb s = Ok sb s.
Proof. by intros [<- _ _ _]. Qed.

Lemma inode_ok s sb it V H M X k ip x :
  frep s sb it V H M X k -> it !! ip = Some x -> inode_of ip s = Ok x s.
Proof. intros [_ <- _ _] Hx. unfold inode_of, gets, iat. by rewrite Hx. Qed.

Lemma bread_ok s sb it V H M X k n :
  frep s sb it V H M X k -> (forall i, H !! i <> Some n) -> (size H <= 2)%nat ->
  exists i s', tx (t_bread dev n) s = Ok i s' /\ H !! i = None /\ frep s' sb it V (<[i := n]> H) M X k.
Proof.
  intros [Hs Hi (L & Hr & Hk) Hl] Hn HH.
  pose proof (subseteq_size L (L ∪ X) ltac:(set_solver)).
  destruct (t_bread_ok _ _ _ _ _ n Hr Hn) as (i & t & E & Hfresh & Hr'); [unfold NBUF; lia|].
  exists i, (set_t t s). split; [by apply zoom_ok|]. split; [done|]. split; eauto.
Qed.

Lemma data_ok s sb it V H M X k i n :
  frep s sb it V H M X k -> H !! i = Some n -> tx (t_data i) s = Ok (V n) s.
Proof.
  intros [Hs Hi (L & Hr & Hk) Hl] Hn. pose proof (t_data_ok _ _ _ _ _ _ _ Hr Hn) as E.
  etrans; [by apply zoom_ok|]. by destruct s.
Qed.

Lemma set_ok s sb it V H M X k i n d :
  frep s sb it V H M X k -> H !! i = Some n -> blk d ->
  exists s', tx (t_set i d) s = Ok tt s' /\ frep s' sb it (<[n := d]> V) H ({[n]} ∪ M) X k.
Proof.
  intros [Hs Hi (L & Hr & Hk) Hl] Hn Hd. destruct (t_set_ok _ _ _ _ _ _ _ d Hr Hn Hd) as (t & E & Hr').
  exists (set_t t s). split; [by apply zoom_ok|]. split; eauto.
Qed.

Lemma log_ok s sb it V H M X k i n :
  frep s sb it V H M X k -> H !! i = Some n -> n ∈ X ->
  exists s', tx (t_log i) s = Ok tt s' /\ frep s' sb it V H (M ∖ {[n]}) X k.
Proof.
  intros [Hs Hi (L & Hr & Hk) Hl] Hn HX. pose proof t_cap_min.
  pose proof (subseteq_size L (L ∪ X) ltac:(set_solver)).
  destruct (t_log_ok _ _ _ _ _ _ _ Hr Hn (Hl n HX)) as (t & E & Hr'); [lia|].
  exists (set_t t s). split; [by apply zoom_ok|]. split; [done..| |done].
  exists ({[n]} ∪ L). split; [done|]. by replace ({[n]} ∪ L ∪ X) with (L ∪ X) by set_solver.
Qed.

Lemma brelse_ok s sb it V H M X k i n :
  frep s sb it V H M X k -> H !! i = Some n -> n ∉ M ->
  exists s', tx (t_brelse i) s = Ok tt s' /\ frep s' sb it V (delete i H) M X k.
Proof.
  intros [Hs Hi (L & Hr & Hk) Hl] Hn HM. destruct (t_brelse_ok _ _ _ _ _ _ _ Hr Hn HM) as (t & E & Hr').
  exists (set_t t s). split; [by apply zoom_ok|]. split; eauto.
Qed.

(** The data of a held buffer is changed and logged. *)
Lemma set_log_ok s sb it V H M X k i n d :
  frep s sb it V H M X k -> H !! i = Some n -> blk d -> n ∈ X -> n ∉ M ->
  exists s1 s2, tx (t_set i d) s = Ok tt s1 /\ tx (t_log i) s1 = Ok tt s2 /\
  frep s2 sb it (<[n := d]> V) H M X k.
Proof.
  intros Hr Hn Hd HX HM. destruct (set_ok _ _ _ _ _ _ _ _ _ _ d Hr Hn Hd) as (s1 & E1 & Hr1).
  destruct (log_ok _ _ _ _ _ _ _ _ _ _ Hr1 Hn HX) as (s2 & E2 & Hr2).
  exists s1, s2. split; [done|]. split; [done|].
  by replace (({[n]} ∪ M) ∖ {[n]}) with M in Hr2 by set_solver.
Qed.

(** A buffer just read is released. *)
Lemma release_ok s sb it V H M X k i n :
  frep s sb it V (<[i := n]> H) M X k -> H !! i = None -> n ∉ M ->
  exists s', tx (t_brelse i) s = Ok tt s' /\ frep s' sb it V H M X k.
Proof.
  intros Hr Hi HM. destruct (brelse_ok _ _ _ _ _ _ _ _ i n Hr) as (s' & E & Hr'); [by simplify_map_eq|done|].
  rewrite delete_insert_id in Hr' by done. eauto.
Qed.

Lemma bzero_ok s sb it V H X k n :
  frep s sb it V H ∅ X k -> (forall i, H !! i <> Some n) -> (size H <= 2)%nat -> n ∈ X ->
  exists s', bzero dev n s = Ok tt s' /\ frep s' sb it (<[n := zero_block]> V) H ∅ X k.
Proof.
  intros Hr Hn HH HX. unfold bzero.
  destruct (bread_ok _ _ _ _ _ _ _ _ n Hr Hn HH) as (i & s1 & E1 & Hi & Hr1). run E1.
  destruct (set_log_ok _ _ _ _ _ _ _ _ i n zero_block Hr1) as (s2 & s3 & E2 & E3 & Hr3);
    [by simplify_map_eq|done|done|set_solver|]. run E2. run E3.
  destruct (release_ok _ _ _ _ _ _ _ _ _ _ Hr3 Hi) as (s4 & E4 & Hr4); [set_solver|]. eauto.
Qed.

(** What the allocator relies on: the layout, that data blocks may be logged, and
    that the transaction has room for the bitmap. *)
Record fsok (sb : superblock) (X : gset Z) : Prop := {
  ok_geom : geom sb;
  ok_data : forall n, dstart sb <= n < sb_size sb -> t_may_log n;
  ok_bmap : forall n, sb_bmapstart sb <= n < dstart sb -> n ∈ X
}.

Lemma fsok_mono sb X X' : fsok sb X -> X ⊆ X' -> fsok sb X'.
Proof. intros [? ? ?] HX. split; [done..|]. set_solver. Qed.

(** The buffers held are of data blocks in use. *)
Definition held_ok (sb : superblock) (V : view) (H : gmap nat Z) : Prop :=
  forall i n, H !! i = Some n -> dstart sb <= n < sb_size sb /\ used sb V n = true.

(** A scan of one bitmap block. *)
Lemma balloc_map_ok s sb it V H X k b :
  frep s sb it V H ∅ X (S k) -> fsok sb X -> meta_used sb V -> held_ok sb V H -> (size H <= 2)%nat ->
  0 <= b < sb_size sb -> b mod BPB = 0 ->
  exists r s', balloc_map dev b s = Ok r s' /\
  match r with
  | None => frep s' sb it V H ∅ X (S k) /\ (forall c, b <= c < Z.min (b + BPB) (sb_size sb) -> used sb V c = true)
  | Some a => frep s' sb it (alloc_view sb a V) H ∅ ({[a]} ∪ X) k /\
      b <= a < sb_size sb /\ used sb V a = false /\ (forall c, b <= c < a -> used sb V c = true)
  end.
Proof.
  intros Hr [G Hlog HX] Hm HH Hsz Hb Hmod. unfold balloc_map.
  run (sb_ok _ _ _ _ _ _ _ _ Hr).
  destruct (BBLOCK_eq sb b G Hb) as [EB RB].
  assert (forall c, b <= c < Z.min (b + BPB) (sb_size sb) -> used sb V c = negb (bm_free (c - b) (V (BBLOCK b sb)))) as Hu.
  { intros c Hc. unfold used. pose proof (BBLOCK_eq sb c G ltac:(lia)) as [EC _]. geo.
    replace (c mod 8192) with (c - b) by dlia. do 3 f_equal. rewrite EB, EC. f_equal. dlia. }
  destruct (bread_ok _ _ _ _ _ _ _ _ (BBLOCK b sb) Hr) as (i & s1 & E1 & Hi & Hr1);
    [intros i Hi; apply HH in Hi; lia|done|]. run E1.
  erewrite bind_ok by (eapply data_ok; [done|by simplify_map_eq]). cbv beta.
  destruct (first_free _ 0 _) as [bi|] eqn:Eff.
  - apply first_free_some in Eff as (Hbi & Hf & Hl).
    assert (0 <= bi < BPB /\ b + bi < sb_size sb) as [Hbi1 Hbi2] by lia.
    assert (used sb V (b + bi) = false) as Hfree.
    { rewrite Hu by lia. replace (b + bi - b) with bi by lia. by rewrite Hf. }
    assert (dstart sb <= b + bi) as Hd.
    { destruct (decide (dstart sb <= b + bi)); [done|]. rewrite Hm in Hfree by lia. done. }
    destruct (set_log_ok _ _ _ _ _ _ _ _ i (BBLOCK b sb) (bm_set bi (V (BBLOCK b sb))) Hr1)
      as (s2 & s3 & E2 & E3 & Hr3); [by simplify_map_eq| |auto|set_solver|].
    { apply blk_bm_set; [by eapply frep_blk|done]. }
    run E2. run E3.
    destruct (release_ok _ _ _ _ _ _ _ _ _ _ Hr3 Hi) as (s4 & E4 & Hr4); [set_solver|]. run E4.
    pose proof (frep_reserve _ _ _ _ _ _ _ _ (b + bi) Hr4 ltac:(apply Hlog; lia)) as Hr5.
    destruct (bzero_ok _ _ _ _ _ _ _ (b + bi) Hr5) as (s5 & E5 & Hr6);
      [intros j [_ Hj]%HH; congruence|done|set_solver|]. run E5.
    exists (Some (b + bi)), s5. split; [done|]. split_and!; [|lia|lia|done|].
    + unfold alloc_view. pose proof (BBLOCK_eq sb (b + bi) G ltac:(lia)) as [EC _]. geo.
      replace ((b + bi) mod 8192) with bi by dlia.
      replace (BBLOCK (b + bi) sb) with (BBLOCK b sb) by (rewrite EB, EC; f_equal; dlia). done.
    + intros c Hc. rewrite Hu by lia. rewrite Hl by lia. done.
  - destruct (release_ok _ _ _ _ _ _ _ _ _ _ Hr1 Hi) as (s2 & E2 & Hr2); [set_solver|]. run E2.
    exists None, s2. split; [done|]. split; [done|]. intros c Hc. rewrite Hu by lia.
    rewrite (first_free_none _ _ _ Eff) by lia. done.
Qed.
Lemma balloc_loop_ok s sb it V H X k (n : nat) : forall j : nat,
  frep s sb it V H ∅ X (S k) -> fsok sb X -> meta_used sb V -> held_ok sb V H -> (size H <= 2)%nat ->
  Z.of_nat (j + n) = (sb_size sb + BPB - 1) / BPB ->
  (forall c, 0 <= c < Z.min (Z.of_nat j * BPB) (sb_size sb) -> used sb V c = true) ->
  exists r s', for_until ((fun i => Z.of_nat i * BPB) <$> seq j n) (balloc_map dev) s = Ok r s' /\
  match r with
  | None => frep s' sb it V H ∅ X (S k) /\ (forall c, 0 <= c < sb_size sb -> used sb V c = true)
  | Some a => frep s' sb it (alloc_view sb a V) H ∅ ({[a]} ∪ X) k /\
      dstart sb <= a < sb_size sb /\ used sb V a = false /\ (forall c, 0 <= c < a -> used sb V c = true)
  end.
Proof.
  revert s. induction n as [|n IH]; intros s j Hr Hok Hm HH Hsz Hj Hall; cbn [seq fmap list_fmap for_until].
  - exists None, s. split; [done|]. split; [done|]. intros c Hc. apply Hall. geo. dlia.
  - pose proof (ok_geom _ _ Hok) as G. pose proof (g_size _ G).
    destruct (balloc_map_ok s sb it V H X k (Z.of_nat j * BPB) Hr Hok Hm HH Hsz) as (r & s1 & E1 & Hpost).
    { geo. dlia. }
    { apply Z.mod_mul. done. }
    run E1. destruct r as [a|].
    + exists (Some a), s1. split; [done|]. destruct Hpost as (Hr1 & Ha & Hf & Hl).
      split; [done|]. split.
      { split; [|lia]. destruct (decide (dstart sb <= a)); [done|]. rewrite Hm in Hf by (geo; lia). done. }
      split; [done|]. intros c Hc. destruct (decide (c < Z.of_nat j * BPB)); [apply Hall|apply Hl]; lia.
    + destruct Hpost as [Hr1 Hl]. apply IH; [done..|lia|].
      intros c Hc. destruct (decide (c < Z.of_nat j * BPB)); [apply Hall; lia|]. apply Hl. lia.
Qed.
Lemma balloc_ok s sb it V H X k :
  frep s sb it V H ∅ X (S k) -> fsok sb X -> meta_used sb V -> held_ok sb V H -> (size H <= 2)%nat ->
  exists r s', balloc dev s = Ok r s' /\
  (r = 0 /\ frep s' sb it V H ∅ X (S k) /\ (forall c, 0 <= c < sb_size sb -> used sb V c = true) \/
   dstart sb <= r < sb_size sb /\ frep s' sb it (alloc_view sb r V) H ∅ ({[r]} ∪ X) k /\
   used sb V r = false /\ (forall c, 0 <= c < r -> used sb V c = true)).
Proof.
  intros Hr Hok Hm HH Hsz. unfold balloc. run (sb_ok _ _ _ _ _ _ _ _ Hr).
  pose proof (g_size _ (ok_geom _ _ Hok)).
  destruct (balloc_loop_ok s sb it V H X k (Z.to_nat ((sb_size sb + BPB - 1) / BPB)) 0) as (r & s1 & E1 & Hpost);
    [done..|geo; dlia|intros; lia|].
  run E1. destruct r as [a|].
  - exists a, s1. split; [done|]. right. tauto.
  - exists 0, s1. split; [done|]. left. tauto.
Qed.

Lemma bfree_ok s sb it V H X k b :
  frep s sb it V H ∅ X k -> fsok sb X -> held_ok sb V H -> (size H <= 2)%nat ->
  0 <= b < sb_size sb -> used sb V b = true ->
  exists s', bfree dev b s = Ok tt s' /\ frep s' sb it (free_view sb b V) H ∅ X k.
Proof.
  intros Hr [G Hlog HX] HH Hsz Hb Hu. unfold bfree. run (sb_ok _ _ _ _ _ _ _ _ Hr).
  destruct (BBLOCK_eq sb b G Hb) as [EB RB].
  destruct (bread_ok _ _ _ _ _ _ _ _ (BBLOCK b sb) Hr) as (i & s1 & E1 & Hi & Hr1);
    [intros i Hi; apply HH in Hi; lia|done|]. run E1.
  erewrite bind_ok by (eapply data_ok; [done|by simplify_map_eq]). cbv beta.
  unfold used in Hu. apply negb_true_iff in Hu. rewrite Hu.
  destruct (set_log_ok _ _ _ _ _ _ _ _ i (BBLOCK b sb) (bm_clear (b mod BPB) (V (BBLOCK b sb))) Hr1)
    as (s2 & s3 & E2 & E3 & Hr3); [by simplify_map_eq| |auto|set_solver|].
  { apply blk_bm_clear; [by eapply frep_blk|geo; dlia]. }
  run E2. run E3.
  destruct (release_ok _ _ _ _ _ _ _ _ _ _ Hr3 Hi) as (s4 & E4 & Hr4); [set_solver|]. eauto.
Qed.

Lemma bfree_panics s sb it V H X k b :
  frep s sb it V H ∅ X k -> fsok sb X -> held_ok sb V H -> (size H <= 2)%nat ->
  0 <= b < sb_size sb -> used sb V b = false ->
  bfree dev b s = Panic "freeing free block".
Proof.
  intros Hr [G Hlog HX] HH Hsz Hb Hu. unfold bfree. run (sb_ok _ _ _ _ _ _ _ _ Hr).
  destruct (BBLOCK_eq sb b G Hb) as [EB RB].
  destruct (bread_ok _ _ _ _ _ _ _ _ (BBLOCK b sb) Hr) as (i & s1 & E1 & Hi & Hr1);
    [intros i Hi; apply HH in Hi; lia|done|]. run E1.
  erewrite bind_ok by (eapply data_ok; [done|by simplify_map_eq]). cbv beta.
  unfold used in Hu. apply negb_false_iff in Hu. by rewrite Hu.
Qed.
End alloc.
