(* ===== verification/FsMap.v ===== *)
(** * The block map of a file: [bmap]

    A file is a tree of blocks: direct blocks, blocks listed in the indirect
    block, blocks listed in the blocks that the double-indirect block lists.  A
    position [pos] names a place in the tree and [at_pos] reads the address
    stored there.  [finv] is the invariant (distinct blocks, all in use); [bmap]
    returns the address at the position of a file block, and if there is none
    adds a zeroed block to the tree and nothing else. *)

From S2P Require Import Prelude Bio LogSpec FsLayout TxnLayer Fs FsAlloc.

Inductive pos := PDir (i : Z) | PInd | PIndE (j : Z) | PDbl | PDblI (i : Z) | PDblE (i j : Z).

#[export] Instance pos_eq_dec : EqDecision pos.
Proof. solve_decision. Defined.

Definition pos_ok (p : pos) : Prop :=
  match p with
  | PDir i => 0 <= i < NDIRECT
  | PIndE j | PDblI j => 0 <= j < NINDIRECT
  | PDblE i j => 0 <= i < NINDIRECT /\ 0 <= j < NINDIRECT
  | _ => True
  end.

Definition is_index (p : pos) : bool := match p with PInd | PDbl | PDblI _ => true | _ => false end.

Definition pos_of (bn : Z) : pos :=
  if bn <? NDIRECT then PDir bn
  else if bn - NDIRECT <? NINDIRECT then PIndE (bn - NDIRECT)
  else PDblE ((bn - NDIRECT - NINDIRECT) / NINDIRECT) ((bn - NDIRECT - NINDIRECT) mod NINDIRECT).

Definition slot (x : inode) (j : Z) : Z := default 0 (i_addrs x !! Z.to_nat j).
Definition entry (V : view) (a j : Z) : Z := if a =? 0 then 0 else word j (V a).

Definition at_pos (V : view) (x : inode) (p : pos) : Z :=
  match p with
  | PDir i => slot x i
  | PInd => slot x NDIRECT
  | PIndE j => entry V (slot x NDIRECT) j
  | PDbl => slot x (NDIRECT + 1)
  | PDblI i => entry V (slot x (NDIRECT + 1)) i
  | PDblE i j => entry V (entry V (slot x (NDIRECT + 1)) i) j
  end.

(** Where the address of a position is stored: in the inode, or in the block at
    another position. *)
Definition home (p : pos) : Z + pos * Z :=
  match p with
  | PDir i => inl i
  | PInd => inl NDIRECT
  | PDbl => inl (NDIRECT + 1)
  | PIndE j => inr (PInd, j)
  | PDblI i => inr (PDbl, i)
  | PDblE i j => inr (PDblI i, j)
  end.

Lemma at_home V x p q0 j : home p = inr (q0, j) -> at_pos V x p = entry V (at_pos V x q0) j.
Proof. destruct p; cbn; intros; simplify_eq; done. Qed.

Lemma entry_word V a j : a <> 0 -> entry V a j = word j (V a).
Proof. intros. unfold entry. by destruct (Z.eqb_spec a 0). Qed.

Record finv (sb : superblock) (V : view) (x : inode) : Prop := {
  fi_len : length (i_addrs x) = naddrs;
  fi_used p : pos_ok p -> at_pos V x p <> 0 ->
    dstart sb <= at_pos V x p < sb_size sb /\ used sb V (at_pos V x p) = true;
  fi_inj p q : pos_ok p -> pos_ok q -> at_pos V x p <> 0 -> at_pos V x p = at_pos V x q -> p = q
}.

(** How a file and the disk change when blocks are added to the file. *)
Record bgrow (sb : superblock) (V : view) (x : inode) (V' : view) (x' : inode) : Prop := {
  bg_at p : pos_ok p -> at_pos V x p <> 0 -> at_pos V' x' p = at_pos V x p;
  bg_new p : pos_ok p -> at_pos V x p = 0 -> at_pos V' x' p <> 0 ->
    dstart sb <= at_pos V' x' p < sb_size sb /\
    used sb V (at_pos V' x' p) = false /\ (is_index p = false -> V' (at_pos V' x' p) = zero_block);
  bg_frame n : 0 <= n < sb_size sb -> used sb V n = true -> ~ (sb_bmapstart sb <= n < dstart sb) ->
    (forall p, pos_ok p -> is_index p = true -> at_pos V x p <> 0 -> at_pos V x p <> n) -> V' n = V n;
  bg_used n : 0 <= n < sb_size sb -> used sb V n = true -> used sb V' n = true;
  bg_leak n : 0 <= n < sb_size sb -> used sb V' n = true ->
    used sb V n = true \/ n <> 0 /\ exists p, pos_ok p /\ at_pos V' x' p = n;
  bg_rest : forall l, mkInode (i_dev x') (i_inum x') (i_ref x') (i_lock x') (i_valid x') (i_type x')
      (i_major x') (i_minor x') (i_nlink x') (i_size x') l =
    mkInode (i_dev x) (i_inum x) (i_ref x) (i_lock x) (i_valid x) (i_type x)
      (i_major x) (i_minor x) (i_nlink x) (i_size x) l
}.


Lemma bgrow_refl sb V x : bgrow sb V x V x.
Proof. split; try done; auto. Qed.

Lemma bgrow_trans sb V x V1 x1 V2 x2 :
  geom sb -> finv sb V x -> finv sb V1 x1 -> bgrow sb V x V1 x1 -> bgrow sb V1 x1 V2 x2 -> bgrow sb V x V2 x2.
Proof.
  intros G F F1 G1 G2. pose proof (dstart_pos sb G) as Hd. split.
  - intros p Hp Hz. rewrite (bg_at _ _ _ _ _ G2 p Hp); rewrite (bg_at _ _ _ _ _ G1 p Hp) by done; done.
  - intros p Hp Hz Hz2. destruct (decide (at_pos V1 x1 p = 0)) as [E|E].
    + destruct (bg_new _ _ _ _ _ G2 p Hp E Hz2) as (Hr & Hu & Hzero). split; [done|]. split; [|done].
      destruct (used sb V (at_pos V2 x2 p)) eqn:Hu'; [|done].
      rewrite (bg_used _ _ _ _ _ G1) in Hu by (done || lia). done.
    + rewrite (bg_at _ _ _ _ _ G2 p Hp E) in *.
      destruct (bg_new _ _ _ _ _ G1 p Hp Hz E) as (Hr & Hu & Hzero).
      split; [done|]. split; [done|]. intros Hi. rewrite <- (Hzero Hi).
      destruct (fi_used _ _ _ F1 p Hp E) as [_ Hu1].
      apply (bg_frame _ _ _ _ _ G2); [lia|done|lia|].
      intros q Hq Hqi _ Hqe. rewrite (fi_inj _ _ _ F1 p q) in Hi by done. congruence.
  - intros n Hn Hu Hb Hi. rewrite (bg_frame _ _ _ _ _ G2 n Hn); [by apply (bg_frame _ _ _ _ _ G1)|..|done|].
    + by apply (bg_used _ _ _ _ _ G1).
    + intros p Hp Hpi Hpz Hpe. destruct (decide (at_pos V x p = 0)) as [E|E].
      * destruct (bg_new _ _ _ _ _ G1 p Hp E Hpz) as (_ & Hu' & _). congruence.
      * rewrite (bg_at _ _ _ _ _ G1 p Hp E) in Hpe. by apply (Hi p).
  - intros n Hn Hu. apply (bg_used _ _ _ _ _ G2); [done|]. by apply (bg_used _ _ _ _ _ G1).
  - intros n Hn Hu. destruct (bg_leak _ _ _ _ _ G2 n Hn Hu) as [Hu1|?]; [|by right].
    destruct (bg_leak _ _ _ _ _ G1 n Hn Hu1) as [?|(Hn0 & p & Hp & Hpe)]; [by left|].
    right. split; [done|]. exists p. split; [done|]. rewrite (bg_at _ _ _ _ _ G2 p Hp) by congruence. done.
  - intros l. rewrite (bg_rest _ _ _ _ _ G2). apply (bg_rest _ _ _ _ _ G1).
Qed.

(** ** Adding a block at a position *)

Lemma slot_set j j' b x :
  length (i_addrs x) = naddrs -> 0 <= j <= 12 -> 0 <= j' <= 12 ->
  slot (i_set_addr j b x) j' = if decide (j' = j) then b else slot x j'.
Proof.
  intros Hl Hj Hj'. unfold slot. cbn [i_set_addr i_addrs]. case_decide as E.
  - subst. rewrite list_lookup_insert_eq by (unfold naddrs in *; lia). done.
  - rewrite list_lookup_insert_ne by lia. done.
Qed.

Lemma entry_same V V' a j : (a <> 0 -> V' a = V a) -> entry V' a j = entry V a j.
Proof. intros H. unfold entry. destruct (Z.eqb_spec a 0); [done|]. by rewrite H. Qed.

Lemma entry_zero V b j : V b = zero_block -> 0 <= j < NINDIRECT -> entry V b j = 0.
Proof. intros H Hj. unfold entry. rewrite H, word_zero by done. by destruct (b =? 0). Qed.

Lemma entry_0 V j : entry V 0 j = 0.
Proof. done. Qed.

Ltac side := cbn in *; first [done | tauto | congruence | intuition congruence].

Section add.
Variables (sb : superblock) (V V' : view) (x : inode) (b : Z).
Hypothesis F : finv sb V x.
Hypothesis b_pos : b <> 0.
Hypothesis b_zero : V' b = zero_block.

Lemma add_top p j :
  home p = inl j -> pos_ok p -> at_pos V x p = 0 ->
  (forall q, pos_ok q -> at_pos V x q <> 0 -> V' (at_pos V x q) = V (at_pos V x q)) ->
  forall q, pos_ok q -> at_pos V' (i_set_addr j b x) q = if decide (q = p) then b else at_pos V x q.
Proof.
  intros Hh Hp Hz Hsame q Hq. pose proof (fi_len _ _ _ F) as Hl.
  assert (0 <= j <= 12) by (destruct p; cbn in *; simplify_eq; unfold NDIRECT in *; lia).
  assert (forall i, entry V' (slot x NDIRECT) i = entry V (slot x NDIRECT) i) as E1
    by (intros; apply entry_same, (Hsame PInd); done).
  assert (forall i, entry V' (slot x (NDIRECT + 1)) i = entry V (slot x (NDIRECT + 1)) i) as E2
    by (intros; apply entry_same, (Hsame PDbl); done).
  assert (forall i k, 0 <= i < NINDIRECT -> entry V' (entry V (slot x (NDIRECT + 1)) i) k =
      entry V (entry V (slot x (NDIRECT + 1)) i) k) as E3
    by (intros i k Hi; apply entry_same, (Hsame (PDblI i)); done).
  destruct p; cbn in Hh, Hz; simplify_eq;
    (destruct q; cbn [at_pos pos_ok] in *; rewrite slot_set by (done || (unfold NDIRECT in *; lia));
     repeat case_decide; simplify_eq; try (unfold NDIRECT in *; lia); try done;
     rewrite ?Hz, ?entry_0, ?(entry_zero V' b), ?E1, ?E2, ?E3 by tauto; try done; by rewrite ?E3 by tauto).
Qed.

Lemma add_entry p q0 j :
  home p = inr (q0, j) -> pos_ok p -> at_pos V x p = 0 -> at_pos V x q0 <> 0 -> 0 <= b < 2 ^ 32 ->
  blk (V (at_pos V x q0)) ->
  V' (at_pos V x q0) = set_word j b (V (at_pos V x q0)) ->
  (forall q, pos_ok q -> at_pos V x q <> 0 -> q <> q0 -> V' (at_pos V x q) = V (at_pos V x q)) ->
  forall q, pos_ok q -> at_pos V' x q = if decide (q = p) then b else at_pos V x q.
Proof.
  intros Hh Hp Hz Hq0 Hb Hblk Hset Hsame q Hq.
  assert (0 <= j < 256) as Hj by (destruct p; cbn in *; simplify_eq; cbn in *; tauto || lia).
  assert (forall i, 0 <= i < 256 ->
    entry V' (at_pos V x q0) i = if decide (i = j) then b else entry V (at_pos V x q0) i) as Eq0.
  { intros i Hi. unfold entry. destruct (Z.eqb_spec (at_pos V x q0) 0); [done|]. rewrite Hset.
    case_decide as E; [subst; by rewrite word_set_same|by rewrite word_set_other]. }
  assert (forall r i, pos_ok r -> r <> q0 -> entry V' (at_pos V x r) i = entry V (at_pos V x r) i) as Er
    by (intros; apply entry_same; auto).
  assert (forall i k, 0 <= i < 256 -> 0 <= k < 256 -> V' b = zero_block -> entry V' b k = 0) as Eb
    by (intros; by apply entry_zero).
  destruct p as [| |pj| |pi|pi pj]; cbn in Hh; simplify_eq.
  - (* entry of the indirect block *)
    destruct q as [| |qj| |qi|qi qj]; cbn [at_pos pos_ok] in *; try (rewrite decide_False by done); try done.
    + rewrite Eq0 by done. repeat case_decide; simplify_eq; done.
    + by rewrite (Er PDbl).
    + rewrite (Er PDbl) by done. by rewrite (Er (PDblI qi)) by side.
  - (* entry of the double-indirect block *)
    destruct q as [| |qj| |qi|qi qj]; cbn [at_pos pos_ok] in *; try (rewrite decide_False by done); try done.
    + by rewrite (Er PInd).
    + rewrite Eq0 by done. repeat case_decide; simplify_eq; done.
    + rewrite Eq0 by tauto. case_decide; simplify_eq.
      * rewrite Hz, entry_0. apply entry_zero; tauto.
      * by rewrite (Er (PDblI qi)) by side.
  - (* entry of a block the double-indirect block lists *)
    destruct q as [| |qj| |qi|qi qj]; cbn [at_pos pos_ok] in *; try (rewrite decide_False by done); try done.
    + by rewrite (Er PInd).
    + by rewrite (Er PDbl).
    + rewrite (Er PDbl) by done. destruct (decide (qi = pi)) as [->|].
      * rewrite Eq0 by tauto. repeat case_decide; simplify_eq; done.
      * rewrite decide_False by congruence. by rewrite (Er (PDblI qi)) by side.
Qed.
End add.

Lemma grow_one sb V x V' x' p b :
  geom sb -> finv sb V x -> pos_ok p -> at_pos V x p = 0 ->
  dstart sb <= b < sb_size sb -> used sb V b = false -> V' b = zero_block ->
  (forall q, pos_ok q -> at_pos V' x' q = if decide (q = p) then b else at_pos V x q) ->
  (forall n, 0 <= n < sb_size sb -> used sb V' n = bool_decide (n = b) || used sb V n) ->
  (forall n, n <> b -> ~ (sb_bmapstart sb <= n < dstart sb) ->
    (forall q, pos_ok q -> is_index q = true -> at_pos V x q <> 0 -> at_pos V x q <> n) -> V' n = V n) ->
  length (i_addrs x') = naddrs ->
  (forall l, mkInode (i_dev x') (i_inum x') (i_ref x') (i_lock x') (i_valid x') (i_type x')
      (i_major x') (i_minor x') (i_nlink x') (i_size x') l =
    mkInode (i_dev x) (i_inum x) (i_ref x) (i_lock x) (i_valid x) (i_type x)
      (i_major x) (i_minor x) (i_nlink x) (i_size x) l) ->
  finv sb V' x' /\ bgrow sb V x V' x'.
Proof.
  intros G F Hp Hz Hb Hu Hzero Hat Hused Hframe Hl Hrest. pose proof (dstart_pos sb G) as Hd.
  split; split; [done|..|done].
  - intros q Hq. rewrite (Hat q Hq). case_decide as E; intros Hnz.
    + split; [done|]. rewrite Hused by lia. by rewrite bool_decide_true.
    + destruct (fi_used _ _ _ F q Hq Hnz) as [Hr Hu']. split; [done|].
      rewrite Hused by lia. rewrite Hu'. apply orb_true_r.
  - intros q r Hq Hr. rewrite (Hat q Hq), (Hat r Hr). repeat case_decide; subst; try done.
    + intros _ E. destruct (fi_used _ _ _ F r Hr) as [_ Hu']; [lia|]. congruence.
    + intros Hnz E. destruct (fi_used _ _ _ F q Hq) as [_ Hu']; [lia|]. congruence.
    + by apply (fi_inj _ _ _ F).
  - intros q Hq Hnz. rewrite (Hat q Hq), decide_False by congruence. done.
  - intros q Hq Hqz. rewrite (Hat q Hq). case_decide; [|done]. intros _. done.
  - intros n Hn Hun Hbm Hidx. apply Hframe; [congruence|done|done].
  - intros n Hn Hun. rewrite Hused by done. rewrite Hun. apply orb_true_r.
  - intros n Hn. rewrite Hused by done. case_bool_decide as E; [|by left].
    intros _. right. split; [lia|]. exists p. rewrite (Hat p Hp), decide_True by done. done.
Qed.

(** The blocks added are in [X]. *)
Definition new_in (V : view) (x : inode) (V' : view) (x' : inode) (X : gset Z) : Prop :=
  forall p, pos_ok p -> at_pos V x p = 0 -> at_pos V' x' p <> 0 -> at_pos V' x' p ∈ X.

Lemma new_in_refl V x X : new_in V x V x X.
Proof. by intros p Hp Hz Hnz. Qed.

Lemma new_in_sub V x V' x' X X' : new_in V x V' x' X -> X ⊆ X' -> new_in V x V' x' X'.
Proof. intros H HX p Hp Hz Hnz. by apply HX, H. Qed.

Lemma new_in_one V x V' x' p b :
  (forall q, pos_ok q -> at_pos V' x' q = if decide (q = p) then b else at_pos V x q) ->
  new_in V x V' x' {[b]}.
Proof. intros Hat q Hq Hz. rewrite (Hat q Hq). case_decide; [set_solver|done]. Qed.

Lemma new_in_trans sb V x V1 x1 X1 V2 x2 X2 :
  bgrow sb V1 x1 V2 x2 -> new_in V x V1 x1 X1 -> new_in V1 x1 V2 x2 X2 -> X1 ⊆ X2 -> new_in V x V2 x2 X2.
Proof.
  intros HG H1 H2 HX p Hp Hz Hnz. destruct (decide (at_pos V1 x1 p = 0)) as [E|E]; [by apply H2|].
  rewrite (bg_at _ _ _ _ _ HG p Hp E). by apply HX, H1.
Qed.

(** At least [n] blocks are free. *)
Definition free_atleast (sb : superblock) (V : view) (n : nat) : Prop :=
  exists F : gset Z, (n <= size F)%nat /\ forall b, b ∈ F -> 0 <= b < sb_size sb /\ used sb V b = false.

Lemma free_alloc sb V n V' b :
  free_atleast sb V (S n) ->
  (forall c, 0 <= c < sb_size sb -> used sb V' c = bool_decide (c = b) || used sb V c) ->
  free_atleast sb V' n.
Proof.
  intros (F & HF & Hf) Hu. exists (F ∖ {[b]}). split.
  - pose proof (size_union_alt {[b]} F) as E. rewrite size_singleton in E.
    pose proof (subseteq_size F ({[b]} ∪ F) ltac:(set_solver)). lia.
  - intros c [Hc Hcb]%elem_of_difference. destruct (Hf c Hc) as [Hr Hfr]. split; [done|].
    rewrite Hu by done. rewrite bool_decide_false by set_solver. done.
Qed.

Lemma free_le sb V n m : free_atleast sb V n -> (m <= n)%nat -> free_atleast sb V m.
Proof. intros (F & HF & Hf) ?. exists F. split; [lia|done]. Qed.

Lemma free_not_full sb V n : free_atleast sb V (S n) -> ~ (forall c, 0 <= c < sb_size sb -> used sb V c = true).
Proof.
  intros (F & HF & Hf) Hall. destruct (set_choose_or_empty F) as [(b & Hb)|HE].
  - destruct (Hf b Hb) as [Hr Hu]. rewrite Hall in Hu by done. done.
  - apply leibniz_equiv in HE. subst F. rewrite size_empty in HF. lia.
Qed.

(** ** The operation *)

Section bmap.
Context {T : Type} {TO : TxnOps T} {TL : TxnLaws T}.
Abbreviation dev := (t_dev (S := T)).

Record fok (s : fsst T) (sb : superblock) (it : list inode) (ip : nat) (V : view) (x : inode)
    (H : gmap nat Z) (X : gset Z) (k : nat) : Prop := {
  fo_rep : frep s sb it V H ∅ X k;
  fo_ip : it !! ip = Some x;
  fo_dev : i_dev x = dev;
  fo_inv : finv sb V x;
  fo_ok : fsok sb X;
  fo_meta : meta_used sb V
}.

Lemma meta_used_mono sb V V' :
  geom sb -> meta_used sb V -> (forall n, 0 <= n < sb_size sb -> used sb V n = true -> used sb V' n = true) ->
  meta_used sb V'.
Proof. intros G Hm H b Hb. pose proof (g_data _ G). apply H; [lia|]. by apply Hm. Qed.

Lemma addr_of_ok s sb it ip V x H X k p j :
  fok s sb it ip V x H X k -> home p = inl j -> pos_ok p -> addr_of ip j s = Ok (at_pos V x p) s.
Proof.
  intros Hf Hh Hp. unfold addr_of. run (inode_ok _ _ _ _ _ _ _ _ _ _ (fo_rep _ _ _ _ _ _ _ _ _ Hf) (fo_ip _ _ _ _ _ _ _ _ _ Hf)).
  assert (at_pos V x p = slot x j) as -> by (destruct p; cbn in Hh; simplify_eq; done).
  unfold slot. destruct (lookup_lt_is_Some_2 (i_addrs x) (Z.to_nat j)) as [a ->]; [|done].
  rewrite (fi_len _ _ _ (fo_inv _ _ _ _ _ _ _ _ _ Hf)). unfold naddrs.
  destruct p; cbn in *; simplify_eq; unfold NDIRECT in *; lia.
Qed.

Lemma alloc_view_other sb b V n :
  geom sb -> dstart sb <= b < sb_size sb -> n <> b -> ~ (sb_bmapstart sb <= n < dstart sb) ->
  alloc_view sb b V n = V n.
Proof.
  intros G Hb Hn Hbm. unfold alloc_view. pose proof (dstart_pos sb G).
  destruct (BBLOCK_eq sb b G ltac:(lia)) as [_ ?]. rewrite !fn_lookup_insert_ne by lia. done.
Qed.

(** A block for a position whose address is in the inode. *)
Lemma add_top_ok s sb it ip V x H X X' k p j r :
  fok s sb it ip V x H X k -> home p = inl j -> pos_ok p -> at_pos V x p = 0 ->
  dstart sb <= r < sb_size sb -> used sb V r = false -> X ⊆ X' ->
  forall s' k', frep s' sb it (alloc_view sb r V) H ∅ X' k' ->
  let x' := i_set_addr j r x in
  fok (upd_i ip (i_set_addr j r) s') sb (<[ip := x']> it) ip (alloc_view sb r V) x' H X' k' /\
  bgrow sb V x (alloc_view sb r V) x' /\ at_pos (alloc_view sb r V) x' p = r /\
  new_in V x (alloc_view sb r V) x' {[r]} /\
  (forall n, free_atleast sb V (S n) -> free_atleast sb (alloc_view sb r V) n).
Proof.
  intros [Hr Hip Hdev F Hok Hm] Hh Hp Hz Hb Hu HX s' k' Hr' x'. pose proof (ok_geom _ _ Hok) as G.
  pose proof (dstart_pos sb G). assert (forall n, blk (V n)) as HV by (intros; by eapply frep_blk).
  assert (alloc_view sb r V r = zero_block) as Hzero by (unfold alloc_view; by rewrite fn_lookup_insert).
  assert (forall q, pos_ok q -> at_pos (alloc_view sb r V) x' q = if decide (q = p) then r else at_pos V x q) as Hat.
  { apply (add_top sb); try done; [lia|]. intros q Hq Hnz.
    destruct (fi_used _ _ _ F q Hq Hnz) as [? ?]. apply alloc_view_other; [done..|congruence|lia]. }
  destruct (grow_one sb V x (alloc_view sb r V) x' p r) as [F' G']; try done.
  { intros n Hn. by apply used_alloc. }
  { intros n Hn Hbm _. by apply alloc_view_other. }
  { unfold x'. cbn. rewrite length_insert. apply F. }
  split; [|split; [done|]].
  - split; [|by rewrite list_lookup_insert_eq by (by eapply lookup_lt_Some)|done|done|by eapply fsok_mono|].
    + unfold x'. rewrite <- (alter_insert (i_set_addr j r) _ _ _ Hip). by apply frep_it.
    + eapply meta_used_mono; [done..|]. apply G'.
  - split; [by rewrite Hat, decide_True|]. split; [by eapply new_in_one|].
    intros n Hn. eapply free_alloc; [done|]. intros c Hc. by apply used_alloc.
Qed.

Definition full (sb : superblock) (V : view) : Prop := forall c, 0 <= c < sb_size sb -> used sb V c = true.

Lemma bmap_direct_ok s sb it ip V x H X k p j :
  fok s sb it ip V x H X (S k) -> held_ok sb V H -> (size H <= 2)%nat -> home p = inl j -> pos_ok p ->
  exists r s' V' x' X', bmap_direct ip dev j s = Ok r s' /\
    fok s' sb (<[ip := x']> it) ip V' x' H X' k /\ bgrow sb V x V' x' /\ X ⊆ X' /\
    r = at_pos V' x' p /\ (r = 0 -> full sb V) /\ new_in V x V' x' X' /\
    (forall n, free_atleast sb V (S n) -> free_atleast sb V' n).
Proof.
  intros Hf HH Hsz Hh Hp. pose proof Hf as [Hr Hip Hdev F Hok Hm]. unfold bmap_direct.
  run (addr_of_ok _ _ _ _ _ _ _ _ _ _ _ Hf Hh Hp).
  assert (fok s sb (<[ip := x]> it) ip V x H X k) as Hf'.
  { rewrite list_insert_id by done. split; try done. by apply (frep_weaken _ _ _ _ _ _ _ _ X k Hr); [|lia]. }
  destruct (Z.eqb_spec (at_pos V x p) 0) as [Hz|Hz].
  - destruct (balloc_ok s sb it V H X k Hr Hok Hm HH Hsz) as (r & s1 & E1 & [(-> & Hr1 & Hfull)|(Hb & Hr1 & Hu & _)]).
    + run E1. cbn [Z.eqb]. exists 0, s1, V, x, X. split; [done|]. split_and!; try done.
      * destruct Hf'. split; try done. rewrite list_insert_id by done. by apply (frep_weaken _ _ _ _ _ _ _ _ X k Hr1); [|lia].
      * apply bgrow_refl.
      * apply new_in_refl.
      * intros n Hn. apply (free_le _ _ _ _ Hn); lia.
    + pose proof (dstart_pos sb (ok_geom _ _ Hok)). run E1. destruct (Z.eqb_spec r 0); [lia|]. run1.
      destruct (add_top_ok s sb it ip V x H X ({[r]} ∪ X) (S k) p j r Hf Hh Hp Hz Hb Hu ltac:(set_solver) s1 k Hr1)
        as (Hf2 & HG & Hat & Hnew & Hfree).
      exists r. do 4 eexists. split; [done|]. split; [exact Hf2|]. split; [exact HG|].
      split; [set_solver|]. rewrite Hat. split_and!; [done|lia|by eapply new_in_sub; [exact Hnew|set_solver]|done].
  - exists (at_pos V x p), s, V, x, X. split; [done|]. split_and!; try done.
    + apply bgrow_refl.
    + apply new_in_refl.
    + intros n Hn. apply (free_le _ _ _ _ Hn); lia.
Qed.
Definition fill_view (sb : superblock) (a j r : Z) (V : view) : view :=
  let V1 := alloc_view sb r V in <[a := set_word j r (V1 a)]> V1.

(** A block for a position whose address is in an index block. *)
Lemma add_entry_ok s sb it ip V x H X X' k p q0 j r :
  fok s sb it ip V x H X k -> home p = inr (q0, j) -> pos_ok p -> at_pos V x p = 0 -> at_pos V x q0 <> 0 ->
  dstart sb <= r < sb_size sb -> used sb V r = false -> X ⊆ X' ->
  let V' := fill_view sb (at_pos V x q0) j r V in
  forall s' k', frep s' sb it V' H ∅ X' k' ->
  fok s' sb it ip V' x H X' k' /\
  bgrow sb V x V' x /\ at_pos V' x p = r /\ new_in V x V' x {[r]} /\
  (forall n, free_atleast sb V (S n) -> free_atleast sb V' n).
Proof.
  intros [Hr Hip Hdev F Hok Hm] Hh Hp Hz Hq0 Hb Hu HX V' s' k' Hr'. pose proof (ok_geom _ _ Hok) as G.
  pose proof (dstart_pos sb G). pose proof (g_size _ G).
  assert (forall n, blk (V n)) as HV by (intros; by eapply frep_blk).
  assert (pos_ok q0 /\ is_index q0 = true) as [Hq0p Hq0i] by (destruct p; cbn in Hh; simplify_eq; cbn in *; tauto).
  set (a := at_pos V x q0) in *.
  destruct (fi_used _ _ _ F q0 Hq0p Hq0) as [Ha Hua]. fold a in Ha, Hua.
  assert (a <> r) by congruence.
  assert (V' r = zero_block) as Hzero.
  { unfold V', fill_view. rewrite fn_lookup_insert_ne by done. unfold alloc_view. by rewrite fn_lookup_insert. }
  assert (alloc_view sb r V a = V a) as HVa by (apply alloc_view_other; [done..|lia]).
  assert (forall n, n <> r -> n <> a -> ~ (sb_bmapstart sb <= n < dstart sb) -> V' n = V n) as Hother.
  { intros n Hnr Hna Hbm. unfold V', fill_view. rewrite fn_lookup_insert_ne by done. by apply alloc_view_other. }
  assert (forall c, 0 <= c < sb_size sb -> used sb V' c = bool_decide (c = r) || used sb V c) as Hused.
  { intros c Hc. unfold V', fill_view. rewrite used_other by (done || lia). by apply used_alloc. }
  assert (forall q, pos_ok q -> at_pos V' x q = if decide (q = p) then r else at_pos V x q) as Hat.
  { apply add_entry with (q0 := q0) (j := j); try done; [lia| |].
    - fold a. unfold V', fill_view. rewrite fn_lookup_insert. by rewrite HVa.
    - intros q Hq Hnz Hne. destruct (fi_used _ _ _ F q Hq Hnz) as [Hqr Hqu].
      apply Hother; [congruence| |lia]. intros E. apply Hne. by apply (fi_inj _ _ _ F). }
  destruct (grow_one sb V x V' x p r) as [F' G']; try done.
  { intros n Hn Hbm Hidx. apply Hother; [done| |done]. intros ->. by apply (Hidx q0). }
  { apply F. }
  split; [|split; [done|]].
  - split; try done; [by eapply fsok_mono|]. eapply meta_used_mono; [done..|]. apply G'.
  - split; [by rewrite Hat, decide_True|]. split; [by eapply new_in_one|].
    intros n Hn. by eapply free_alloc.
Qed.

Lemma bmap_entry_ok s sb it ip V x H X k bp p q0 j chk :
  fok s sb it ip V x H X (S k) -> held_ok sb V H -> (size H <= 2)%nat ->
  home p = inr (q0, j) -> pos_ok p -> at_pos V x q0 <> 0 -> H !! bp = Some (at_pos V x q0) -> at_pos V x q0 ∈ X ->
  chk = true \/ ~ full sb V ->
  exists r s' V' X', bmap_entry dev bp j chk s = Ok r s' /\
    fok s' sb it ip V' x H X' k /\ bgrow sb V x V' x /\ X ⊆ X' /\
    r = at_pos V' x p /\ (r = 0 -> full sb V) /\ new_in V x V' x X' /\
    (forall n, free_atleast sb V (S n) -> free_atleast sb V' n).
Proof.
  intros Hf HH Hsz Hh Hp Hq0 Hbp HaX Hchk. pose proof Hf as [Hr Hip Hdev F Hok Hm]. unfold bmap_entry.
  run (data_ok _ _ _ _ _ _ _ _ _ _ Hr Hbp).
  assert (word j (V (at_pos V x q0)) = at_pos V x p) as Hw.
  { by rewrite (at_home _ _ _ _ _ Hh), entry_word. }
  assert (pos_ok q0 /\ 0 <= j < 256) as [Hq0p Hj] by (destruct p; cbn in Hh; simplify_eq; cbn in *; tauto || lia).
  rewrite Hw. assert (forall s1 V1, frep s1 sb it V1 H ∅ X (S k) -> V1 = V -> fok s1 sb it ip V x H X k) as Hf'.
  { intros s1 V1 Hr1 ->. split; try done. by apply (frep_weaken _ _ _ _ _ _ _ _ X k Hr1); [|lia]. }
  destruct (Z.eqb_spec (at_pos V x p) 0) as [Hz|Hz].
  - destruct (balloc_ok s sb it V H X k Hr Hok Hm HH Hsz) as (r & s1 & E1 & [(-> & Hr1 & Hfull)|(Hb & Hr1 & Hu & _)]).
    + destruct Hchk as [->|?]; [|done]. run E1. cbn [Z.eqb andb]. run1. exists 0, s1, V, X. split; [done|].
      split_and!; try done; [by eapply Hf'|apply bgrow_refl|apply new_in_refl|].
      intros n Hn. apply (free_le _ _ _ _ Hn); lia.
    + pose proof (dstart_pos sb (ok_geom _ _ Hok)). run E1. destruct (Z.eqb_spec r 0); [lia|]. rewrite andb_false_r.
      destruct (set_log_ok _ _ _ _ _ _ _ _ bp (at_pos V x q0)
        (set_word j r (alloc_view sb r V (at_pos V x q0))) Hr1 Hbp) as (s2 & s3 & E2 & E3 & Hr3);
        [by apply blk_set_word; [eapply frep_blk|]|set_solver|set_solver|].
      erewrite bind_ok by (run (data_ok _ _ _ _ _ _ _ _ _ _ Hr1 Hbp); run E2; exact E3). cbv beta.
      destruct (add_entry_ok s sb it ip V x H X ({[r]} ∪ X) (S k) p q0 j r Hf Hh Hp Hz Hq0 Hb Hu ltac:(set_solver) s3 k Hr3)
        as (Hf2 & HG & Hat & Hnew & Hfree).
      exists r. do 3 eexists. split; [done|]. split; [exact Hf2|]. split; [exact HG|].
      split; [set_solver|]. rewrite Hat. split_and!; [done|lia|by eapply new_in_sub; [exact Hnew|set_solver]|done].
  - exists (at_pos V x p), s, V, X. split; [done|]. split_and!; try done; [by eapply Hf'|apply bgrow_refl|apply new_in_refl|].
    intros n Hn. apply (free_le _ _ _ _ Hn); lia.
Qed.
(** ** A block that is present *)

Lemma direct_present s sb it ip V x H X k p j :
  fok s sb it ip V x H X k -> home p = inl j -> pos_ok p -> at_pos V x p <> 0 ->
  bmap_direct ip dev j s = Ok (at_pos V x p) s.
Proof.
  intros Hf Hh Hp Hz. unfold bmap_direct. run (addr_of_ok _ _ _ _ _ _ _ _ _ _ _ Hf Hh Hp).
  by destruct (Z.eqb_spec (at_pos V x p) 0).
Qed.

Lemma entry_present s sb it ip V x H X k bp p q0 j chk :
  fok s sb it ip V x H X k -> home p = inr (q0, j) -> at_pos V x p <> 0 -> H !! bp = Some (at_pos V x q0) ->
  bmap_entry dev bp j chk s = Ok (at_pos V x p) s.
Proof.
  intros Hf Hh Hz Hbp. unfold bmap_entry. run (data_ok _ _ _ _ _ _ _ _ _ _ (fo_rep _ _ _ _ _ _ _ _ _ Hf) Hbp).
  pose proof (at_home V x _ _ _ Hh) as E.
  rewrite E in *. unfold entry in *. destruct (Z.eqb_spec (at_pos V x q0) 0); [done|].
  by destruct (Z.eqb_spec (word j (V (at_pos V x q0))) 0).
Qed.

Lemma parent_present V x p q0 j : home p = inr (q0, j) -> at_pos V x p <> 0 -> at_pos V x q0 <> 0.
Proof.
  intros Hh Hz E. apply Hz. by rewrite (at_home _ _ _ _ _ Hh), E.
Qed.

(** [fok] with another state, buffers or log room. *)
Lemma fok_rep s sb it ip V x H X k s' H' X' k' :
  fok s sb it ip V x H X k -> frep s' sb it V H' ∅ X' k' -> X ⊆ X' -> fok s' sb it ip V x H' X' k'.
Proof. intros [Hr Hip Hdev F Hok Hm] Hr' HX. split; try done. by eapply fsok_mono. Qed.

Lemma fok_bread s sb it ip V x H X k n :
  fok s sb it ip V x H X k -> (forall i, H !! i <> Some n) -> (size H <= 2)%nat ->
  exists i s', tx (t_bread dev n) s = Ok i s' /\ H !! i = None /\ fok s' sb it ip V x (<[i := n]> H) X k.
Proof.
  intros Hf Hn Hsz. destruct (bread_ok _ _ _ _ _ _ _ _ n (fo_rep _ _ _ _ _ _ _ _ _ Hf) Hn Hsz) as (i & s' & E & Hi & Hr).
  exists i, s'. split; [done|]. split; [done|]. by eapply fok_rep.
Qed.

Lemma fok_release s sb it ip V x H X k i n :
  fok s sb it ip V x (<[i := n]> H) X k -> H !! i = None ->
  exists s', tx (t_brelse i) s = Ok tt s' /\ fok s' sb it ip V x H X k.
Proof.
  intros Hf Hi. destruct (release_ok _ _ _ _ _ _ _ _ _ _ (fo_rep _ _ _ _ _ _ _ _ _ Hf) Hi) as (s' & E & Hr); [set_solver|].
  exists s'. split; [done|]. by eapply fok_rep.
Qed.

Lemma pos_of_ok bn : 0 <= bn < MAXFILE -> pos_ok (pos_of bn).
Proof.
  unfold MAXFILE, ND_INDIRECT, pos_of. intros Hb. geo. change NDIRECT with 11 in *.
  repeat case_if; cbn; geo; change NDIRECT with 11 in *; bprop; dlia.
Qed.

Lemma bmap_present s sb it ip V x X k bn :
  fok s sb it ip V x ∅ X k -> 0 <= bn < MAXFILE -> at_pos V x (pos_of bn) <> 0 ->
  exists s', bmap ip bn s = Ok (at_pos V x (pos_of bn)) s' /\ fok s' sb it ip V x ∅ X k.
Proof.
  intros Hf Hbn Hz. pose proof (pos_of_ok bn Hbn) as Hp. unfold bmap.
  run (inode_ok _ _ _ _ _ _ _ _ _ _ (fo_rep _ _ _ _ _ _ _ _ _ Hf) (fo_ip _ _ _ _ _ _ _ _ _ Hf)).
  rewrite (fo_dev _ _ _ _ _ _ _ _ _ Hf). unfold pos_of in *. case_if.
  { exists s. split; [|done]. by eapply direct_present. }
  case_if.
  - assert (at_pos V x PInd <> 0) as Hz1 by (eapply parent_present; [|exact Hz]; done).
    unfold bmap_single. run (direct_present _ _ _ _ _ _ _ _ _ PInd NDIRECT Hf eq_refl I Hz1).
    destruct (Z.eqb_spec (at_pos V x PInd) 0); [done|].
    destruct (fok_bread _ _ _ _ _ _ _ _ _ (at_pos V x PInd) Hf) as (i & s1 & E1 & Hi & Hf1); [done|rewrite map_size_empty; lia|].
    run E1. erewrite bind_ok by (eapply (entry_present _ _ _ _ _ _ _ _ _ i (PIndE (bn - NDIRECT))); [done|reflexivity|done|by simplify_map_eq]). cbv beta.
    destruct (fok_release _ _ _ _ _ _ _ _ _ _ _ Hf1 Hi) as (s2 & E2 & Hf2). run E2. eauto.
  - case_if; [|unfold MAXFILE in Hbn; bprop; lia].
    set (i := (bn - NDIRECT - NINDIRECT) / NINDIRECT) in *. set (j := (bn - NDIRECT - NINDIRECT) mod NINDIRECT) in *.
    assert (at_pos V x (PDblI i) <> 0) as Hz2 by (eapply parent_present; [|exact Hz]; done).
    assert (at_pos V x PDbl <> 0) as Hz1 by (eapply parent_present; [|exact Hz2]; done).
    unfold bmap_double. run (addr_of_ok _ _ _ _ _ _ _ _ _ PDbl (NDIRECT + 1) Hf eq_refl I).
    destruct (Z.eqb_spec (at_pos V x PDbl) 0); [done|]. run1.
    destruct (fok_bread _ _ _ _ _ _ _ _ _ (at_pos V x PDbl) Hf) as (b1 & s1 & F1 & Hi1 & Hf1); [done|rewrite map_size_empty; lia|].
    run F1. erewrite bind_ok by (eapply (entry_present _ _ _ _ _ _ _ _ _ b1 (PDblI i)); [done|reflexivity|done|by simplify_map_eq]). cbv beta.
    destruct (fok_release _ _ _ _ _ _ _ _ _ _ _ Hf1 Hi1) as (s2 & F2 & Hf2). run F2.
    destruct (fok_bread _ _ _ _ _ _ _ _ _ (at_pos V x (PDblI i)) Hf2) as (b2 & s3 & F3 & Hi2 & Hf3); [done|rewrite map_size_empty; lia|].
    run F3. erewrite bind_ok by (eapply (entry_present _ _ _ _ _ _ _ _ _ b2 (PDblE i j)); [done|reflexivity|done|by simplify_map_eq]). cbv beta.
    destruct (fok_release _ _ _ _ _ _ _ _ _ _ _ Hf3 Hi2) as (s4 & F4 & Hf4). run F4. eauto.
Qed.
(** ** A block that may have to be added *)

Definition ancestors (p : pos) : list pos :=
  match p with
  | PIndE _ => [PInd]
  | PDblE i _ => [PDbl; PDblI i]
  | _ => []
  end.

(** The index blocks above [p] that exist may be logged. *)
Definition anc_in (V : view) (x : inode) (p : pos) (X : gset Z) : Prop :=
  forall q, q ∈ ancestors p -> at_pos V x q <> 0 -> at_pos V x q ∈ X.

(** The outcome of an operation that adds blocks to file [ip]. *)
Definition grown (s' : fsst T) sb it ip V x H X k V' x' X' : Prop :=
  fok s' sb (<[ip := x']> it) ip V' x' H X' k /\ bgrow sb V x V' x' /\ X ⊆ X' /\ new_in V x V' x' X'.

Lemma grown_trans s1 s2 sb it ip V x H X k1 V1 x1 X1 H2 k2 V2 x2 X2 s H0 k0 :
  fok s sb it ip V x H0 X k0 ->
  grown s1 sb it ip V x H X k1 V1 x1 X1 -> grown s2 sb (<[ip := x1]> it) ip V1 x1 H2 X1 k2 V2 x2 X2 ->
  grown s2 sb it ip V x H2 X k2 V2 x2 X2.
Proof.
  intros Hf (Hf1 & HG1 & HX1 & HN1) (Hf2 & HG2 & HX2 & HN2). rewrite list_insert_insert in Hf2.
  case_decide; [|done]. split; [done|]. split; [|split; [set_solver|by eapply new_in_trans]].
  eapply bgrow_trans; [apply Hf|apply Hf|apply Hf1|done..].
Qed.

Lemma size_single i (n : Z) : (size (<[i := n]> (∅ : gmap nat Z)) <= 2)%nat.
Proof. rewrite map_size_insert_None, map_size_empty by done. lia. Qed.

Lemma held_single sb V x p i :
  finv sb V x -> pos_ok p -> at_pos V x p <> 0 -> held_ok sb V (<[i := at_pos V x p]> ∅).
Proof. intros F Hp Hz i' n Hn. apply lookup_insert_Some in Hn as [[_ <-]|[_ ?]]; [|done]. by apply F. Qed.

(** Read the index block at [q0], find or add its entry [p], and release it. *)
Lemma bmap_level_ok s sb it ip V x X k p q0 j chk :
  fok s sb it ip V x ∅ X (S k) -> home p = inr (q0, j) -> pos_ok p -> at_pos V x q0 <> 0 -> at_pos V x q0 ∈ X ->
  chk = true \/ ~ full sb V ->
  exists r s' V' x' X',
    (bp <- tx (t_bread dev (at_pos V x q0));; addr <- bmap_entry dev bp j chk;; tx (t_brelse bp);;; ret addr) s = Ok r s' /\
    grown s' sb it ip V x ∅ X k V' x' X' /\
    r = at_pos V' x' p /\ (r = 0 -> full sb V) /\
    (forall n, free_atleast sb V (S n) -> free_atleast sb V' n).
Proof.
  intros Hf Hh Hp Hz HX Hchk.
  assert (pos_ok q0) as Hq0p by (destruct p; cbn in Hh; simplify_eq; cbn in *; tauto).
  destruct (fok_bread _ _ _ _ _ _ _ _ _ (at_pos V x q0) Hf) as (i & s1 & E1 & Hi & Hf1); [done|rewrite map_size_empty; lia|].
  run E1.
  destruct (bmap_entry_ok s1 sb it ip V x _ X k i p q0 j chk Hf1) as (r & s2 & V' & X' & E2 & Hf2 & HG & HX' & Hr & Hfull & Hin & Hfree);
    [apply held_single; [apply Hf|done..]|apply size_single|done..|by simplify_map_eq|done|done|].
  run E2. destruct (fok_release _ _ _ _ _ _ _ _ _ _ _ Hf2 Hi) as (s3 & E3 & Hf3). run E3.
  exists r, s3, V', x, X'. split; [done|]. split_and!; try done.
  split; [|done]. by rewrite list_insert_id by apply Hf.
Qed.

Lemma full_bgrow sb V x V' x' : full sb V -> bgrow sb V x V' x' -> full sb V'.
Proof. intros Hf HG c Hc. apply (bg_used _ _ _ _ _ HG); [done|]. by apply Hf. Qed.

Lemma direct_alloc s ip j r s' :
  bmap_direct ip dev j s = Ok r s' -> r <> 0 ->
  (addr <- addr_of ip j;;
   (if addr =? 0 then addr <- balloc dev;; modify (upd_i ip (i_set_addr j addr));;; ret addr else ret addr)) s = Ok r s'.
Proof.
  unfold bmap_direct, bind. destruct (addr_of ip j s) as [a s1| | | |]; [|done..].
  destruct (a =? 0); [|done]. destruct (balloc dev s1) as [b s2| | | |]; [|done..].
  destruct (b =? 0); [|done]. by intros [= <- <-].
Qed.
Lemma level_bind {A B C} (m : M (fsst T) A) (f : A -> M (fsst T) B) (g : A -> M (fsst T) unit) (K : B -> M (fsst T) C) s r s' :
  (bp <- m;; a <- f bp;; g bp;;; ret a) s = Ok r s' -> (bp <- m;; a <- f bp;; g bp;;; K a) s = K r s'.
Proof.
  unfold bind. destruct (m s) as [bp s1| | | |]; [|done..]. destruct (f bp s1) as [a s2| | | |]; [|done..].
  destruct (g bp s2) as [u s3| | | |]; [|done..]. by intros [= -> ->].
Qed.

Lemma bmap_single_ok s sb it ip V x X k j :
  fok s sb it ip V x ∅ X (2 + k) -> 0 <= j < NINDIRECT -> anc_in V x (PIndE j) X ->
  exists r s' V' x' X', bmap_single ip dev j s = Ok r s' /\ grown s' sb it ip V x ∅ X k V' x' X' /\
    r = at_pos V' x' (PIndE j) /\ (r = 0 -> full sb V') /\
    (forall n, free_atleast sb V (2 + n) -> free_atleast sb V' n).
Proof.
  intros Hf Hj HX. unfold bmap_single.
  destruct (bmap_direct_ok s sb it ip V x ∅ X (1 + k) PInd NDIRECT Hf)
    as (r1 & s1 & V1 & x1 & X1 & E1 & Hf1 & HG1 & HX1 & Hr1 & Hfull1 & Hin1 & Hfree1);
    [done|rewrite map_size_empty; lia|done|done|]. run E1.
  assert (grown s1 sb it ip V x ∅ X (1 + k) V1 x1 X1) as Hg1 by done.
  destruct (Z.eqb_spec r1 0) as [->|Hr1z].
  - exists 0, s1, V1, x1, X1. split; [done|]. split_and!; try done.
    + split; [|done]. eapply fok_rep; [exact Hf1| |done]. eapply frep_weaken; [apply Hf1|done|lia].
    + cbn [at_pos]. cbn [at_pos] in Hr1. by rewrite <- Hr1.
    + intros _. eapply full_bgrow; [by apply Hfull1|done].
    + intros n Hn. apply Hfree1. by eapply free_le; [exact Hn|lia].
  - subst r1. assert (at_pos V1 x1 PInd ∈ X1) as Hin.
    { destruct (decide (at_pos V x PInd = 0)) as [E|E]; [by apply Hin1; [| |done]|].
      rewrite (bg_at _ _ _ _ _ HG1 PInd I E). apply HX1, HX; [set_solver|done]. }
    destruct (bmap_level_ok s1 sb (<[ip := x1]> it) ip V1 x1 X1 k (PIndE j) PInd j true Hf1)
      as (r & s2 & V2 & x2 & X2 & E2 & Hg2 & Hr & Hfull & Hfree); [done..|by left|].
    exists r, s2, V2, x2, X2. split; [exact E2|]. split; [by eapply grown_trans|]. split_and!; try done.
    + intros Hz. eapply full_bgrow; [by apply Hfull|apply Hg2].
    + intros n Hn. by apply Hfree, Hfree1.
Qed.
Lemma anc_grown sb V x V' x' X' q X :
  bgrow sb V x V' x' -> new_in V x V' x' X' -> X ⊆ X' -> pos_ok q ->
  (at_pos V x q <> 0 -> at_pos V x q ∈ X) -> at_pos V' x' q <> 0 -> at_pos V' x' q ∈ X'.
Proof.
  intros HG HN HX Hq Hin Hz. destruct (decide (at_pos V x q = 0)) as [E|E]; [by apply HN|].
  rewrite (bg_at _ _ _ _ _ HG q Hq E). by apply HX, Hin.
Qed.

Lemma bmap_double_ok s sb it ip V x X k n :
  fok s sb it ip V x ∅ X (3 + k) -> 0 <= n < ND_INDIRECT ->
  anc_in V x (PDblE (n / NINDIRECT) (n mod NINDIRECT)) X -> free_atleast sb V 3 ->
  exists r s' V' x' X', bmap_double ip dev n s = Ok r s' /\ grown s' sb it ip V x ∅ X k V' x' X' /\
    r = at_pos V' x' (PDblE (n / NINDIRECT) (n mod NINDIRECT)) /\ r <> 0 /\
    (forall n, free_atleast sb V (3 + n) -> free_atleast sb V' n).
Proof.
  intros Hf Hn HX Hfree. set (i := n / NINDIRECT) in *. set (j := n mod NINDIRECT) in *.
  assert (0 <= i < NINDIRECT /\ 0 <= j < NINDIRECT) as [Hi Hj].
  { unfold i, j, ND_INDIRECT in *. geo. dlia. }
  unfold bmap_double.
  destruct (bmap_direct_ok s sb it ip V x ∅ X (2 + k) PDbl (NDIRECT + 1) Hf)
    as (r1 & s1 & V1 & x1 & X1 & E1 & Hf1 & HG1 & HX1 & Hr1 & Hfull1 & HN1 & Hfree1);
    [done|rewrite map_size_empty; lia|done|done|].
  assert (grown s1 sb it ip V x ∅ X (2 + k) V1 x1 X1) as Hg1 by done.
  assert (r1 <> 0) as Hr1z by (intros E; by apply (free_not_full _ _ _ Hfree), Hfull1).
  pose proof (direct_alloc _ _ _ _ _ E1 Hr1z) as E1'. apply bind_ok_inv in E1' as (a & sa & Ea & E1').
  run Ea. run E1'. subst r1. clear Ea E1' E1.
  destruct (bmap_level_ok s1 sb (<[ip := x1]> it) ip V1 x1 X1 (1 + k) (PDblI i) PDbl i false Hf1)
    as (r2 & s2 & V2 & x2 & X2 & E2 & Hg2 & Hr2 & Hfull2 & Hfree2); [done..| |right; eapply free_not_full, (Hfree1 2%nat), Hfree|].
  { eapply anc_grown; try done. apply HX. set_solver. }
  rewrite (level_bind _ _ _ _ _ _ _ E2). clear E2.
  assert (r2 <> 0) as Hr2z by (intros E; eapply (free_not_full sb V1), Hfull2; [by apply (Hfree1 2%nat)|done]).
  pose proof (grown_trans _ _ _ _ _ _ _ _ _ _ _ _ _ _ _ _ _ _ _ _ _ Hf Hg1 Hg2) as Hg12.
  pose proof Hg12 as (Hf2 & HG2 & HX2 & HN2). subst r2.
  destruct (bmap_level_ok s2 sb (<[ip := x2]> it) ip V2 x2 X2 k (PDblE i j) (PDblI i) j false Hf2)
    as (r3 & s3 & V3 & x3 & X3 & E3 & Hg3 & Hr3 & Hfull3 & Hfree3);
    [done..| |right; by apply (free_not_full sb V2 0), Hfree2, Hfree1|].
  { eapply anc_grown; try done. apply HX. set_solver. }
  exists r3, s3, V3, x3, X3. split; [exact E3|]. split; [by eapply grown_trans|]. split; [done|]. split.
  - intros E. apply (free_not_full sb V2 0); [by apply Hfree2, Hfree1|by apply Hfull3].
  - intros m Hm. by apply Hfree3, Hfree2, Hfree1.
Qed.
(** The blocks at or above [p] that exist may be logged. *)
Definition path_in (V : view) (x : inode) (p : pos) (X : gset Z) : Prop :=
  anc_in V x p X /\ (at_pos V x p <> 0 -> at_pos V x p ∈ X).

Lemma bmap_ok s sb it ip V x X k bn :
  fok s sb it ip V x ∅ X (3 + k) -> 0 <= bn < MAXFILE -> anc_in V x (pos_of bn) X ->
  bn < NDIRECT + NINDIRECT \/ free_atleast sb V 3 ->
  exists r s' V' x' X', bmap ip bn s = Ok r s' /\ grown s' sb it ip V x ∅ X k V' x' X' /\
    r = at_pos V' x' (pos_of bn) /\ (r = 0 -> full sb V') /\
    (forall n, free_atleast sb V (3 + n) -> free_atleast sb V' n).
Proof.
  intros Hf Hbn HX Hfree. pose proof (pos_of_ok bn Hbn) as Hp. unfold bmap.
  run (inode_ok _ _ _ _ _ _ _ _ _ _ (fo_rep _ _ _ _ _ _ _ _ _ Hf) (fo_ip _ _ _ _ _ _ _ _ _ Hf)).
  rewrite (fo_dev _ _ _ _ _ _ _ _ _ Hf). unfold pos_of in *. case_if; [|case_if].
  - destruct (bmap_direct_ok s sb it ip V x ∅ X (2 + k) (PDir bn) bn Hf)
      as (r1 & s1 & V1 & x1 & X1 & E1 & Hf1 & HG1 & HX1 & Hr1 & Hfull1 & HN1 & Hfree1);
      [done|rewrite map_size_empty; lia|done|done|].
    exists r1, s1, V1, x1, X1. split; [done|]. split_and!; try done.
    + split; [|done]. eapply fok_rep; [exact Hf1| |done]. eapply frep_weaken; [apply Hf1|done|lia].
    + intros Hz. eapply full_bgrow; [by apply Hfull1|done].
    + intros n Hn. apply Hfree1. by eapply free_le; [exact Hn|lia].
  - destruct (bmap_single_ok s sb it ip V x X (1 + k) (bn - NDIRECT) Hf) as (r & s1 & V1 & x1 & X1 & E1 & Hg & Hr & Hfull & Hfr);
      [done|done|].
    exists r, s1, V1, x1, X1. split; [done|]. destruct Hg as (Hf1 & Hg). split_and!; try done.
    + split; [|done]. eapply fok_rep; [exact Hf1| |done]. eapply frep_weaken; [apply Hf1|done|lia].
    + intros n Hn. apply Hfr. by eapply free_le; [exact Hn|lia].
  - case_if; [|unfold MAXFILE in Hbn; bprop; lia]. destruct Hfree as [?|Hfree]; [lia|].
    destruct (bmap_double_ok s sb it ip V x X k (bn - NDIRECT - NINDIRECT) Hf) as (r & s1 & V1 & x1 & X1 & F1 & Hg & Hr & Hnz & Hfr);
      [lia|done|done|].
    exists r, s1, V1, x1, X1. done.
Qed.

(** ** A full disk

    In the double-indirect case the result of [balloc] is not checked: with the
    disk full, block 0 is read as if it were the double-indirect block, and the
    block that it happens to name is returned as a block of the file. *)
Lemma read_entry_ok {A} (K : Z -> M (fsst T) A) s sb it V X k b j chk :
  frep s sb it V ∅ ∅ X k -> word j (V b) <> 0 ->
  exists s', frep s' sb it V ∅ ∅ X k /\
    (bp <- tx (t_bread dev b);; addr <- bmap_entry dev bp j chk;; tx (t_brelse bp);;; K addr) s =
    K (word j (V b)) s'.
Proof.
  intros Hr Hz. destruct (bread_ok _ _ _ _ _ _ _ _ b Hr) as (i & s1 & E1 & Hi & Hr1); [done|rewrite map_size_empty; lia|].
  run E1. assert (bmap_entry dev i j chk s1 = Ok (word j (V b)) s1) as E.
  { unfold bmap_entry. run (data_ok _ _ _ _ _ _ _ _ i b Hr1 ltac:(by simplify_map_eq)).
    destruct (Z.eqb_spec (word j (V b)) 0); done. }
  run E. destruct (release_ok _ _ _ _ _ _ _ _ i b Hr1 Hi) as (s2 & E2 & Hr2); [set_solver|]. run E2. eauto.
Qed.

Lemma bmap_double_full s sb it ip V x X k n :
  fok s sb it ip V x ∅ X (S k) -> full sb V -> at_pos V x PDbl = 0 ->
  let a := word (n / NINDIRECT) (V 0) in a <> 0 -> word (n mod NINDIRECT) (V a) <> 0 ->
  exists s', bmap_double ip dev n s = Ok (word (n mod NINDIRECT) (V a)) s'.
Proof.
  intros Hf Hfull Hz a Ha Hb. pose proof Hf as [Hr Hip Hdev F Hok Hm]. unfold bmap_double.
  run (addr_of_ok _ _ _ _ _ _ _ _ _ PDbl (NDIRECT + 1) Hf eq_refl I). rewrite Hz. cbn [Z.eqb].
  destruct (balloc_ok s sb it V ∅ X k Hr Hok Hm) as (r & s1 & E1 & [(-> & Hr1 & _)|(Hrb & _ & Hu & _)]);
    [done|rewrite map_size_empty; lia| |].
  2:{ pose proof (dstart_pos sb (ok_geom _ _ Hok)). rewrite Hfull in Hu; [done|lia]. }
  erewrite bind_ok by (run E1; run1; reflexivity).
  destruct (read_entry_ok (fun addr => bp <- tx (t_bread dev addr);;
      addr <- bmap_entry dev bp (n mod NINDIRECT) false;; tx (t_brelse bp);;; ret addr)
      _ _ _ _ _ _ 0 (n / NINDIRECT) false (frep_it _ _ _ _ _ _ _ _ ip (i_set_addr (NDIRECT + 1) 0) Hr1) Ha)
    as (s2 & Hr2 & E2).
  rewrite E2. clear E2.
  destruct (read_entry_ok ret _ _ _ _ _ _ a (n mod NINDIRECT) false Hr2 Hb) as (s3 & Hr3 & E3). eauto.
Qed.
End bmap.
