(* ===== verification/FsInode.v ===== *)
(** * Inodes: the table and the disk

    [inode_at] is the inode of a number on the disk, [put_inode] the disk after
    [iupdate].  [itable_ok] is the invariant of the table: at most one entry in
    use for an inode. *)

From S2P Require Import Prelude Bio LogSpec FsLayout TxnLayer Fs FsAlloc FsMap.

Definition inode_at (sb : superblock) (V : view) (inum : Z) : dinode :=
  dinode_get (Z.to_nat (inum mod IPB)) (V (IBLOCK inum sb)).

Definition put_inode (sb : superblock) (inum : Z) (d : dinode) (V : view) : view :=
  <[IBLOCK inum sb := dinode_put (Z.to_nat (inum mod IPB)) d (V (IBLOCK inum sb))]> V.

Definition init_inode (sb : superblock) (inum type : Z) (V : view) : view :=
  <[IBLOCK inum sb := dinode_init (Z.to_nat (inum mod IPB)) type (V (IBLOCK inum sb))]> V.

Lemma IBLOCK_eq sb inum :
  geom sb -> 0 <= inum < sb_ninodes sb ->
  IBLOCK inum sb = inum / IPB + sb_inodestart sb /\ sb_inodestart sb <= IBLOCK inum sb < sb_bmapstart sb.
Proof.
  intros [Hs Hn Hi Hb Hd] Hr. unfold IBLOCK, dstart in *. geo.
  rewrite u32_small; [split; [done|]|]; dlia.
Qed.

Lemma inode_at_put sb V inum inum' d :
  geom sb -> (forall n, blk (V n)) -> 0 <= inum < sb_ninodes sb -> 0 <= inum' < sb_ninodes sb -> dinode_ok d ->
  inode_at sb (put_inode sb inum d V) inum' = if decide (inum' = inum) then d else inode_at sb V inum'.
Proof.
  intros G HV Hi Hi' Hd. unfold inode_at, put_inode.
  destruct (IBLOCK_eq sb inum G Hi) as [E1 _], (IBLOCK_eq sb inum' G Hi') as [E2 _].
  destruct (decide (IBLOCK inum' sb = IBLOCK inum sb)) as [E|E].
  - rewrite E, fn_lookup_insert. case_decide as Hne.
    + subst. apply dinode_get_put; [apply HV|geo; dlia|done].
    + apply dinode_get_put_other; [apply HV|geo; dlia..|apply Hd].
  - rewrite fn_lookup_insert_ne by done. rewrite decide_False by congruence. done.
Qed.

Lemma inode_at_other sb V inum n b :
  geom sb -> 0 <= inum < sb_ninodes sb -> sb_bmapstart sb <= n -> inode_at sb (<[n := b]> V) inum = inode_at sb V inum.
Proof.
  intros G Hi Hn. unfold inode_at. destruct (IBLOCK_eq sb inum G Hi) as [_ ?].
  by rewrite fn_lookup_insert_ne by lia.
Qed.

(** ** The table *)

Record itable_ok (it : list inode) : Prop := {
  it_len : length it = NINODE;
  it_ref : forall i x, it !! i = Some x -> 0 <= i_ref x;
  it_uniq : forall i j x y, it !! i = Some x -> it !! j = Some y -> 0 < i_ref x -> 0 < i_ref y ->
    i_dev x = i_dev y -> i_inum x = i_inum y -> i = j
}.

Definition is_inode (dev inum : Z) (x : inode) : Prop := 0 < i_ref x /\ i_dev x = dev /\ i_inum x = inum.

Lemma iscan_found l dev inum : forall i e j,
  iscan l dev inum i e = inl j -> exists k x, j = Some (i + k)%nat /\ l !! k = Some x /\ is_inode dev inum x.
Proof.
  induction l as [|x l IH]; intros i e j; cbn [iscan]; [done|]. case_if.
  - intros [= <-]. exists 0%nat, x. rewrite Nat.add_0_r. unfold is_inode. cbn. split_and!; try done; lia.
  - intros (k & y & -> & Hy & Hd)%IH. exists (S k), y. split; [f_equal; lia|done].
Qed.

Lemma iscan_absent l dev inum : forall i e r,
  iscan l dev inum i e = inr r ->
  (forall k x, l !! k = Some x -> ~ is_inode dev inum x) /\
  match r with
  | Some j => e = Some j \/ e = None /\ exists k x, j = (i + k)%nat /\ l !! k = Some x /\ i_ref x = 0
  | None => e = None /\ forall k x, l !! k = Some x -> i_ref x <> 0
  end.
Proof.
  induction l as [|x l IH]; intros i e r; cbn [iscan].
  { intros [= <-]. split; [done|]. destruct e; [by left|done]. }
  case_if; [done|]. intros Hs. apply IH in Hs as [Hno Hr]. split.
  - intros [|k] y; [|apply Hno]. intros [= <-] (H1 & H2 & H3). subst. bprop. lia.
  - destruct r as [j|].
    + destruct e as [e|]; [destruct Hr as [?|[? _]]; [by left|done]|].
      destruct (Z.eqb_spec (i_ref x) 0) as [E0|E0].
      * right. split; [done|]. destruct Hr as [[= <-]|[? _]]; [|done]. exists 0%nat, x. by rewrite Nat.add_0_r.
      * destruct Hr as [?|(_ & k & y & -> & Hy & Hz)]; [done|].
        right. split; [done|]. exists (S k), y. by rewrite Nat.add_succ_r.
    + destruct e as [e|]; [by destruct Hr|].
      destruct (Z.eqb_spec (i_ref x) 0) as [E0|E0]; [by destruct Hr|]. destruct Hr as [_ Hr].
      split; [done|]. intros [|k] y; [by intros [= <-]|apply Hr].
Qed.

Lemma itable_upd it ip x y :
  itable_ok it -> it !! ip = Some x -> 0 <= i_ref y ->
  (0 < i_ref y -> forall j z, j <> ip -> it !! j = Some z -> ~ is_inode (i_dev y) (i_inum y) z) ->
  itable_ok (<[ip := y]> it).
Proof.
  intros [Hl Hr Hu] Hx Hy Hno. split; [by rewrite length_insert| |].
  - intros i z [(_ & <- & _)|[_ Hz]]%list_lookup_insert_Some; [done|by eapply Hr].
  - intros i j z w Hi Hj. unfold is_inode in Hno.
    apply list_lookup_insert_Some in Hi as [(<- & <- & _)|[Hi1 Hi]];
      apply list_lookup_insert_Some in Hj as [(<- & <- & _)|[Hj1 Hj]]; intros Hp Hq Hd Hn; try done.
    + exfalso. apply (Hno Hp j w); [congruence|done|done].
    + exfalso. apply (Hno Hq i z); [congruence|done|done].
    + by eapply Hu.
Qed.

Section inodes.
Context {T : Type} {TO : TxnOps T} {TL : TxnLaws T}.
Abbreviation dev := (t_dev (S := T)).

(** What [iget] does to the table: one more reference to the entry of the
    inode, or an entry without references is taken for it. *)
Definition igot (it it' : list inode) (dev inum : Z) (ip : nat) : Prop :=
  exists x, it !! ip = Some x /\
  ((is_inode dev inum x /\ it' = <[ip := i_set_ref (i_ref x + 1) x]> it) \/
   (i_ref x = 0 /\ (forall j y, it !! j = Some y -> ~ is_inode dev inum y) /\ it' = <[ip := i_recycle dev inum x]> it)).

Lemma igot_ok it it' d inum ip :
  itable_ok it -> igot it it' d inum ip ->
  itable_ok it' /\ exists y, it' !! ip = Some y /\ is_inode d inum y.
Proof.
  intros Hok (x & Hx & [(Hd & ->)|(Hz & Hno & ->)]).
  - destruct Hd as (H1 & H2 & H3). split.
    + eapply itable_upd; [done..|cbn; lia|]. cbn. intros _ j z Hj Hz Hd. apply Hj.
      destruct Hd as (? & ? & ?). by eapply (it_uniq _ Hok j ip z x).
    + eexists. rewrite list_lookup_insert_eq by (by eapply lookup_lt_Some). split; [done|].
      unfold is_inode. cbn. split_and!; [lia|done..].
  - split.
    + eapply itable_upd; [done..|]. cbn. intros _ j z Hj Hjz. by eapply Hno.
    + eexists. rewrite list_lookup_insert_eq by (by eapply lookup_lt_Some). done.
Qed.

Lemma iget_ok s sb it V H M X k d inum :
  frep s sb it V H M X k ->
  (exists ip s' it', iget d inum s = Ok ip s' /\ igot it it' d inum ip /\ frep s' sb it' V H M X k) \/
  (iget d inum s = Panic "iget: no inodes" /\
   forall j y, it !! j = Some y -> i_ref y <> 0 /\ ~ is_inode d inum y).
Proof.
  intros Hr. unfold iget. erewrite bind_ok by (unfold gets; by rewrite (fr_it _ _ _ _ _ _ _ _ Hr)). cbv beta.
  assert (forall ip f x, it !! ip = Some x -> frep (upd_i ip f s) sb (<[ip := f x]> it) V H M X k) as Hupd.
  { intros ip f x Hx. rewrite <- (alter_insert f _ _ _ Hx). by apply frep_it. }
  destruct (iscan it d inum 0 None) as [j|[ip|]] eqn:Es.
  - apply iscan_found in Es as (ip & x & -> & Hx & Hd). left. cbn [Nat.add]. run1.
    exists ip. do 2 eexists. split; [done|]. split; [|by apply Hupd]. exists x. split; [done|]. by left.
  - apply iscan_absent in Es as [Hno [?|(_ & k' & x & -> & Hx & Hz)]]; [done|]. left. cbn [Nat.add]. run1.
    exists k'. do 2 eexists. split; [done|]. split; [|by apply Hupd]. exists x. split; [done|]. right. done.
  - apply iscan_absent in Es as [Hno [_ Hz]]. right. split; [done|]. intros j y Hy. eauto.
Qed.

(** ** The inode on the disk *)

Lemma iupdate_ok s sb it V H X k ip x :
  frep s sb it V H ∅ X k -> geom sb -> it !! ip = Some x -> i_dev x = dev -> 0 <= i_inum x < sb_ninodes sb ->
  length (i_addrs x) = naddrs -> IBLOCK (i_inum x) sb ∈ X -> (forall i, H !! i <> Some (IBLOCK (i_inum x) sb)) ->
  (size H <= 2)%nat ->
  exists s', iupdate ip s = Ok tt s' /\ frep s' sb it (put_inode sb (i_inum x) (i_to_disk x) V) H ∅ X k.
Proof.
  intros Hr G Hx Hd Hi Hl HX HH Hsz. unfold iupdate. run (inode_ok _ _ _ _ _ _ _ _ _ _ Hr Hx).
  run (sb_ok _ _ _ _ _ _ _ _ Hr). rewrite Hd.
  destruct (bread_ok _ _ _ _ _ _ _ _ _ Hr HH Hsz) as (i & s1 & E1 & Hfr & Hr1). run E1.
  erewrite bind_ok by (eapply data_ok; [done|by simplify_map_eq]). cbv beta.
  destruct (set_log_ok _ _ _ _ _ _ _ _ i (IBLOCK (i_inum x) sb)
    (dinode_put (Z.to_nat (i_inum x mod IPB)) (i_to_disk x) (V (IBLOCK (i_inum x) sb))) Hr1)
    as (s2 & s3 & E2 & E3 & Hr3); [by simplify_map_eq| |done|set_solver|].
  { apply blk_dinode_put; [by eapply frep_blk|geo; dlia|done]. }
  run E2. run E3. destruct (release_ok _ _ _ _ _ _ _ _ _ _ Hr3 Hfr) as (s4 & E4 & Hr4); [set_solver|]. eauto.
Qed.

(** [ilock] on an entry that is not locked: the entry is locked, and read from
    the disk if it has not been. *)
Lemma ilock_ok s sb it V H X k ip x :
  frep s sb it V H ∅ X k -> it !! ip = Some x -> i_dev x = dev -> 0 < i_ref x -> i_lock x = false ->
  (forall i, H !! i <> Some (IBLOCK (i_inum x) sb)) -> (size H <= 2)%nat ->
  (i_valid x = false -> dn_type (inode_at sb V (i_inum x)) <> 0) ->
  exists s', ilock (Some ip) s = Ok tt s' /\
  frep s' sb (<[ip := if i_valid x then i_set_lock true x
      else i_set_valid true (i_from_disk (inode_at sb V (i_inum x)) (i_set_lock true x))]> it) V H ∅ X k.
Proof.
  intros Hr Hx Hd Href Hlk HH Hsz Hty. unfold ilock. run (inode_ok _ _ _ _ _ _ _ _ _ _ Hr Hx).
  destruct (Z.ltb_spec (i_ref x) 1); [lia|]. unfold iacquiresleep.
  erewrite bind_ok. 2:{ run (inode_ok _ _ _ _ _ _ _ _ _ _ Hr Hx). rewrite Hlk. reflexivity. } cbv beta.
  pose proof (frep_it _ _ _ _ _ _ _ _ ip (i_set_lock true) Hr) as Hr1. rewrite (alter_insert _ _ _ _ Hx) in Hr1.
  set (s1 := upd_i ip (i_set_lock true) s) in *. destruct (i_valid x) eqn:Ev; cbn [negb]; [by exists s1|].
  run (sb_ok _ _ _ _ _ _ _ _ Hr1). rewrite Hd.
  destruct (bread_ok _ _ _ _ _ _ _ _ _ Hr1 HH Hsz) as (i & s2 & E2 & Hfr & Hr2). run E2.
  erewrite bind_ok by (eapply data_ok; [done|by simplify_map_eq]). cbv beta. run1.
  assert (forall f (y : inode), <[ip := y]> it !! ip = Some y /\ alter f ip (<[ip := y]> it) = <[ip := f y]> it) as Halt.
  { intros f y. assert (<[ip := y]> it !! ip = Some y) as Hy
      by (rewrite list_lookup_insert_eq by (by eapply lookup_lt_Some); done).
    split; [done|]. rewrite (alter_insert _ _ _ _ Hy), list_insert_insert. by rewrite decide_True. }
  pose proof (frep_it _ _ _ _ _ _ _ _ ip
    (i_from_disk (dinode_get (Z.to_nat (i_inum x mod IPB)) (V (IBLOCK (i_inum x) sb)))) Hr2) as Hr3.
  rewrite (proj2 (Halt _ _)) in Hr3.
  destruct (release_ok _ _ _ _ _ _ _ _ _ _ Hr3 Hfr) as (s4 & E4 & Hr4); [set_solver|]. run E4. run1.
  pose proof (frep_it _ _ _ _ _ _ _ _ ip (i_set_valid true) Hr4) as Hr5. rewrite (proj2 (Halt _ _)) in Hr5.
  run (inode_ok _ _ _ _ _ _ _ _ _ _ Hr5 (proj1 (Halt id _))).
  cbn [i_type i_set_valid i_from_disk]. destruct (Z.eqb_spec (dn_type (dinode_get (Z.to_nat (i_inum x mod IPB)) (V (IBLOCK (i_inum x) sb)))) 0) as [E0|E0].
  - exfalso. by apply Hty.
  - eexists. split; [done|]. exact Hr5.
Qed.
End inodes.
