(* ===== verification/FsRw.v ===== *)
(** * Reading and writing a file: [readi], [writei]

    [fbyte V x o] is byte [o] of the file, found through the block map.  A read
    copies out exactly these bytes, clipped at the size of the file; a write
    replaces exactly the bytes of its range and keeps the rest of the file, the
    other files and the free blocks. *)

From S2P Require Import Prelude Bio LogSpec FsLayout TxnLayer Fs FsAlloc FsMap FsInode.

Definition fbyte (V : view) (x : inode) (o : Z) : byte :=
  default x00 (V (at_pos V x (pos_of (o / BSIZE))) !! Z.to_nat (o mod BSIZE)).

Definition fdata (V : view) (x : inode) (off : Z) (n : nat) : list byte :=
  (fun i => fbyte V x (off + Z.of_nat i)) <$> seq 0 n.

(** The blocks up to the size of the file are present. *)
Definition no_holes (V : view) (x : inode) : Prop :=
  forall bn, 0 <= bn -> bn * BSIZE < i_size x -> at_pos V x (pos_of bn) <> 0.

Lemma length_fdata V x off n : length (fdata V x off n) = n.
Proof. unfold fdata. by rewrite length_fmap, length_seq. Qed.

Lemma fdata_chunk V x off m :
  0 <= off -> blk (V (at_pos V x (pos_of (off / BSIZE)))) -> (Z.to_nat (off mod BSIZE) + m <= 1024)%nat ->
  slice (Z.to_nat (off mod BSIZE)) m (V (at_pos V x (pos_of (off / BSIZE)))) = fdata V x off m.
Proof.
  intros Ho Hb Hm. apply list_eq. intros i. unfold fdata. rewrite list_lookup_fmap.
  destruct (decide (i < m)%nat) as [Hi|Hi].
  - rewrite lookup_slice, lookup_seq_lt by done. cbn [fmap option_fmap option_map]. unfold fbyte. rewrite Nat.add_0_l.
    geo. replace ((off + Z.of_nat i) / 1024) with (off / 1024) by dlia.
    replace ((off + Z.of_nat i) mod 1024) with (off mod 1024 + Z.of_nat i) by dlia.
    replace (Z.to_nat (off mod 1024 + Z.of_nat i)) with (Z.to_nat (off mod 1024) + i)%nat by dlia.
    destruct (lookup_lt_is_Some_2 (V (at_pos V x (pos_of (off / 1024)))) (Z.to_nat (off mod 1024) + i)) as [b ->]; [|done].
    rewrite Hb, bsize_eq. lia.
  - rewrite lookup_seq_ge by lia. apply lookup_ge_None. unfold slice. rewrite length_take. lia.
Qed.

(** ** How a write changes a file *)

Record wgrow (sb : superblock) (V : view) (x : inode) (V' : view) (x' : inode) : Prop := {
  wg_at p : pos_ok p -> at_pos V x p <> 0 -> at_pos V' x' p = at_pos V x p;
  wg_new p : pos_ok p -> at_pos V x p = 0 -> at_pos V' x' p <> 0 -> used sb V (at_pos V' x' p) = false;
  wg_frame n : 0 <= n < sb_size sb -> used sb V n = true -> ~ (sb_bmapstart sb <= n < dstart sb) ->
    (forall p, pos_ok p -> at_pos V x p <> 0 -> at_pos V x p <> n) -> V' n = V n;
  wg_used n : 0 <= n < sb_size sb -> used sb V n = true -> used sb V' n = true;
  wg_leak n : 0 <= n < sb_size sb -> used sb V' n = true ->
    used sb V n = true \/ n <> 0 /\ exists p, pos_ok p /\ at_pos V' x' p = n;
  wg_rest : forall l, mkInode (i_dev x') (i_inum x') (i_ref x') (i_lock x') (i_valid x') (i_type x')
      (i_major x') (i_minor x') (i_nlink x') (i_size x') l =
    mkInode (i_dev x) (i_inum x) (i_ref x) (i_lock x) (i_valid x) (i_type x)
      (i_major x) (i_minor x) (i_nlink x) (i_size x) l
}.

Lemma bgrow_wgrow sb V x V' x' : bgrow sb V x V' x' -> wgrow sb V x V' x'.
Proof.
  intros [Ha Hn Hf Hu Hl Hr]. split; try done.
  - intros p Hp Hz Hz'. by apply Hn.
  - intros n Hn' Hu' Hb Hp. apply Hf; auto.
Qed.

Lemma wgrow_refl sb V x : wgrow sb V x V x.
Proof. apply bgrow_wgrow, bgrow_refl. Qed.

Lemma wgrow_trans sb V x V1 x1 V2 x2 :
  geom sb -> finv sb V2 x2 -> wgrow sb V x V1 x1 -> wgrow sb V1 x1 V2 x2 -> wgrow sb V x V2 x2.
Proof.
  intros G F2 G1 G2. pose proof (dstart_pos sb G) as Hd. split.
  - intros p Hp Hz. rewrite (wg_at _ _ _ _ _ G2 p Hp); rewrite (wg_at _ _ _ _ _ G1 p Hp) by done; done.
  - intros p Hp Hz Hz2. destruct (decide (at_pos V1 x1 p = 0)) as [E|E].
    + pose proof (wg_new _ _ _ _ _ G2 p Hp E Hz2) as Hu.
      destruct (used sb V (at_pos V2 x2 p)) eqn:Hu'; [|done].
      destruct (fi_used _ _ _ F2 p Hp Hz2) as [Hr _].
      rewrite (wg_used _ _ _ _ _ G1) in Hu by (done || lia). done.
    + rewrite (wg_at _ _ _ _ _ G2 p Hp E) in *. by apply (wg_new _ _ _ _ _ G1).
  - intros n Hn Hu Hb Hi. rewrite (wg_frame _ _ _ _ _ G2 n Hn); [by apply (wg_frame _ _ _ _ _ G1)|..|done|].
    + by apply (wg_used _ _ _ _ _ G1).
    + intros p Hp Hpz Hpe. destruct (decide (at_pos V x p = 0)) as [E|E].
      * pose proof (wg_new _ _ _ _ _ G1 p Hp E Hpz) as Hu'. congruence.
      * rewrite (wg_at _ _ _ _ _ G1 p Hp E) in Hpe. by apply (Hi p).
  - intros n Hn Hu. apply (wg_used _ _ _ _ _ G2); [done|]. by apply (wg_used _ _ _ _ _ G1).
  - intros n Hn Hu. destruct (wg_leak _ _ _ _ _ G2 n Hn Hu) as [Hu1|?]; [|by right].
    destruct (wg_leak _ _ _ _ _ G1 n Hn Hu1) as [?|(Hn0 & p & Hp & Hpe)]; [by left|].
    right. split; [done|]. exists p. split; [done|]. rewrite (wg_at _ _ _ _ _ G2 p Hp) by congruence. done.
  - intros l. rewrite (wg_rest _ _ _ _ _ G2). apply (wg_rest _ _ _ _ _ G1).
Qed.

(** Storing in a data block of the file. *)
Lemma data_write sb V x p d :
  geom sb -> finv sb V x -> pos_ok p -> is_index p = false -> at_pos V x p <> 0 ->
  let V' := <[at_pos V x p := d]> V in
  (forall q, pos_ok q -> at_pos V' x q = at_pos V x q) /\ finv sb V' x /\ wgrow sb V x V' x.
Proof.
  intros G F Hp Hd Hz V'. pose proof (dstart_pos sb G) as Hpos.
  destruct (fi_used _ _ _ F p Hp Hz) as [Hr Hu].
  assert (forall q, pos_ok q -> is_index q = true -> at_pos V x q <> 0 -> V' (at_pos V x q) = V (at_pos V x q)) as Hidx.
  { intros q Hq Hqi Hqz. unfold V'. apply fn_lookup_insert_ne. intros E.
    rewrite (fi_inj _ _ _ F p q) in Hd by done. congruence. }
  assert (forall q, pos_ok q -> at_pos V' x q = at_pos V x q) as Hat.
  { intros q Hq. pose proof (fun j => entry_same V V' (slot x NDIRECT) j (Hidx PInd I eq_refl)) as E1.
    pose proof (fun j => entry_same V V' (slot x (NDIRECT + 1)) j (Hidx PDbl I eq_refl)) as E2.
    destruct q as [| |j| |i|i j]; cbn [at_pos]; try done.
    rewrite E2. apply entry_same. destruct Hq. by apply (Hidx (PDblI i)). }
  assert (forall n, 0 <= n < sb_size sb -> used sb V' n = used sb V n) as Hused
    by (intros n Hn; apply used_other; [done..|lia]).
  split; [done|]. split.
  - destruct F as [Fl Fu Fi]. split; [done|..].
    + intros q Hq. rewrite (Hat q Hq). intros Hqz. destruct (Fu q Hq Hqz) as [? ?]. split; [done|]. rewrite Hused by lia. done.
    + intros q r Hq Hr'. rewrite (Hat q Hq), (Hat r Hr'). by apply Fi.
  - split; try done; auto.
    + intros q Hq Hqz. rewrite (Hat q Hq). done.
    + intros n Hn Hun Hb Hno. unfold V'. apply fn_lookup_insert_ne. by apply Hno.
    + intros n Hn. by rewrite Hused.
    + intros n Hn. rewrite Hused by done. by left.
Qed.

Lemma pos_of_inj a b : 0 <= a < MAXFILE -> 0 <= b < MAXFILE -> pos_of a = pos_of b -> a = b.
Proof.
  unfold MAXFILE, ND_INDIRECT, pos_of. geo. change NDIRECT with 11 in *. intros Ha Hb.
  repeat case_if; intros [=]; try lia; dlia.
Qed.

Lemma pos_of_data bn : is_index (pos_of bn) = false.
Proof. unfold pos_of. by repeat case_if. Qed.

Lemma fbyte_bgrow sb V x V' x' o :
  geom sb -> finv sb V x -> bgrow sb V x V' x' -> 0 <= o < MAXFILE * BSIZE -> at_pos V x (pos_of (o / BSIZE)) <> 0 ->
  fbyte V' x' o = fbyte V x o.
Proof.
  intros G F HG Ho Hz. assert (pos_ok (pos_of (o / BSIZE))) as Hp by (apply pos_of_ok; geo; dlia).
  pose proof (dstart_pos sb G). unfold fbyte. rewrite (bg_at _ _ _ _ _ HG _ Hp Hz).
  destruct (fi_used _ _ _ F _ Hp Hz) as [Hr Hu]. rewrite (bg_frame _ _ _ _ _ HG); [done|lia|done|lia|].
  intros q Hq Hqi Hqz E. pose proof (fi_inj _ _ _ F q _ Hq Hp Hqz E) as ->. by rewrite pos_of_data in Hqi.
Qed.

(** The bytes of the file after a store of [bs] at offset [off], within a block. *)
Lemma fbyte_write sb V x off bs o :
  geom sb -> finv sb V x -> (forall n, blk (V n)) -> 0 <= off -> off + Z.of_nat (length bs) <= MAXFILE * BSIZE ->
  off mod BSIZE + Z.of_nat (length bs) <= BSIZE -> (0 < length bs)%nat ->
  let a := at_pos V x (pos_of (off / BSIZE)) in a <> 0 ->
  let V' := <[a := splice (V a) (Z.to_nat (off mod BSIZE)) bs]> V in
  0 <= o < MAXFILE * BSIZE -> at_pos V x (pos_of (o / BSIZE)) <> 0 ->
  fbyte V' x o = if decide (off <= o < off + Z.of_nat (length bs)) then default x00 (bs !! Z.to_nat (o - off)) else fbyte V x o.
Proof.
  intros G F HV Hoff Hmax Hin Hbs a Ha V' Ho Hz.
  assert (pos_ok (pos_of (off / BSIZE))) as Hp by (apply pos_of_ok; geo; dlia).
  assert (pos_ok (pos_of (o / BSIZE))) as Hpo by (apply pos_of_ok; geo; dlia).
  destruct (data_write sb V x (pos_of (off / BSIZE)) (splice (V a) (Z.to_nat (off mod BSIZE)) bs))
    as (Hat & _ & _); [done..|apply pos_of_data|done|]. fold a V' in Hat.
  unfold fbyte. rewrite Hat by done. destruct (decide (o / BSIZE = off / BSIZE)) as [E|E].
  - rewrite E. fold a. unfold V'. rewrite fn_lookup_insert. geo.
    pose proof (HV a) as Hl. unfold blk in Hl. rewrite bsize_eq in Hl.
    case_decide as Hr.
    + rewrite lookup_splice_in by dlia. do 2 f_equal. dlia.
    + rewrite lookup_splice_out by dlia. done.
  - rewrite decide_False by (geo; dlia). unfold V'. rewrite fn_lookup_insert_ne; [done|].
    intros E'. apply E. symmetry. apply pos_of_inj; [geo; dlia..|]. by apply (fi_inj _ _ _ F).
Qed.

(** Storing in a block before the bitmap: the inodes. *)
Lemma meta_write sb V x n d :
  geom sb -> finv sb V x -> n < sb_bmapstart sb ->
  let V' := <[n := d]> V in
  (forall q, pos_ok q -> at_pos V' x q = at_pos V x q) /\ finv sb V' x /\
  (forall c, 0 <= c < sb_size sb -> used sb V' c = used sb V c) /\
  (forall o, 0 <= o < MAXFILE * BSIZE -> at_pos V x (pos_of (o / BSIZE)) <> 0 -> fbyte V' x o = fbyte V x o).
Proof.
  intros G F Hn V'. pose proof (dstart_pos sb G) as Hpos.
  assert (sb_bmapstart sb <= dstart sb) as Hbd by (unfold dstart; pose proof (g_size _ G); geo; dlia).
  assert (forall q, pos_ok q -> at_pos V x q <> 0 -> V' (at_pos V x q) = V (at_pos V x q)) as Hidx.
  { intros q Hq Hz. destruct (fi_used _ _ _ F q Hq Hz). unfold V'. apply fn_lookup_insert_ne. lia. }
  assert (forall q, pos_ok q -> at_pos V' x q = at_pos V x q) as Hat.
  { intros q Hq. pose proof (fun j => entry_same V V' (slot x NDIRECT) j (Hidx PInd I)) as E1.
    pose proof (fun j => entry_same V V' (slot x (NDIRECT + 1)) j (Hidx PDbl I)) as E2.
    destruct q as [| |j| |i|i j]; cbn [at_pos]; try done.
    rewrite E2. apply entry_same. destruct Hq. by apply (Hidx (PDblI i)). }
  assert (forall c, 0 <= c < sb_size sb -> used sb V' c = used sb V c) as Hused.
  { intros c Hc. unfold used, V'. destruct (BBLOCK_eq sb c G Hc). by rewrite fn_lookup_insert_ne by lia. }
  split; [done|]. split; [|split; [done|]].
  - destruct F as [Fl Fu Fi]. split; [done|..].
    + intros q Hq. rewrite (Hat q Hq). intros Hqz. destruct (Fu q Hq Hqz) as [? ?]. split; [done|]. rewrite Hused by lia. done.
    + intros q r Hq Hr'. rewrite (Hat q Hq), (Hat r Hr'). by apply Fi.
  - intros o Ho Hz. assert (pos_ok (pos_of (o / BSIZE))) as Hp by (apply pos_of_ok; geo; dlia).
    unfold fbyte. rewrite Hat by done. by rewrite Hidx.
Qed.

Lemma at_size V x z p : at_pos V (i_set_size z x) p = at_pos V x p.
Proof. by destruct p. Qed.

Lemma finv_size sb V x z : finv sb V x -> finv sb V (i_set_size z x).
Proof.
  intros [Fl Fu Fi]. split; [done|..].
  - intros p Hp. rewrite at_size. by apply Fu.
  - intros p q Hp Hq. rewrite !at_size. by apply Fi.
Qed.

Lemma fbyte_size V x z o : fbyte V (i_set_size z x) o = fbyte V x o.
Proof. unfold fbyte. by rewrite at_size. Qed.

Lemma finv_addrs sb V x : geom sb -> finv sb V x -> Forall (fun a => 0 <= a < 2 ^ 32) (i_addrs x).
Proof.
  intros G F. apply Forall_lookup. intros j a Ha. pose proof (lookup_lt_Some _ _ _ Ha) as Hj.
  rewrite (fi_len _ _ _ F) in Hj. unfold naddrs in Hj.
  assert (exists p, pos_ok p /\ at_pos V x p = a) as (p & Hp & <-).
  { assert (slot x (Z.of_nat j) = a) as Hs by (unfold slot; rewrite Nat2Z.id, Ha; done).
    destruct (decide (j < 11)%nat); [exists (PDir (Z.of_nat j)); split; [cbn; unfold NDIRECT; lia|done]|].
    destruct (decide (j = 11)%nat) as [->|]; [by exists PInd|].
    assert (j = 12)%nat as -> by lia. by exists PDbl. }
  pose proof (dstart_pos sb G). pose proof (g_size _ G).
  destruct (decide (at_pos V x p = 0)) as [->|Hz]; [lia|]. destruct (fi_used _ _ _ F p Hp Hz). lia.
Qed.

Section rw.
Context {T : Type} {TO : TxnOps T} {TL : TxnLaws T} {W : Type} {C : CopyOps W}.
Abbreviation dev := (t_dev (S := T)).

Lemma fs_ok {A} (m : M (fsst T) A) s w a s' : m s = Ok a s' -> fs (W := W) m (s, w) = Ok a (s', w).
Proof. intros E. unfold fs, zoom. cbn. by rewrite E. Qed.

Lemma mem_ok {A} (m : M W A) (s : fsst T) w a w' : m w = Ok a w' -> mem m (s, w) = Ok a (s, w').
Proof. intros E. unfold mem, zoom. cbn. by rewrite E. Qed.

(** The copies of a read succeed, and lead [I] from one amount to the next, or
    one of them fails and leads to [J]. *)
Definition copies_out (I : Z -> W -> Prop) (J : W -> Prop) (user : bool) (dst n : Z) (bytes : Z -> nat -> list byte) : Prop :=
  forall tot m w, 0 <= tot -> 0 < m <= BSIZE -> tot + m <= n -> I tot w ->
  exists c w', either_copyout user (u64 (dst + tot)) (bytes tot (Z.to_nat m)) w = Ok c w' /\
  (c = 0 /\ I (tot + m) w' \/ c = -1 /\ J w').

Lemma readi_loop_ok sb it ip V x X k I J user dst off n :
  no_holes V x -> 0 <= off -> off + n <= i_size x -> i_size x <= MAXFILE * BSIZE ->
  copies_out I J user dst n (fun tot m => fdata V x (off + tot) m) ->
  forall fuel tot s w, n - tot <= Z.of_nat fuel -> 0 <= tot <= n -> fok s sb it ip V x ∅ X k -> I tot w ->
  exists r s' w', readi_loop fuel ip user (u64 (dst + tot)) (off + tot) n tot (s, w) = Ok r (s', w') /\
  fok s' sb it ip V x ∅ X k /\ (r = n /\ I n w' \/ r = u32 (-1) /\ J w').
Proof.
  intros Hh Ho Hn Hsize Hcp. unfold MAXFILE, ND_INDIRECT in Hsize.
  induction fuel as [|fuel IH]; intros tot s w Hfuel Htot Hf HI; cbn [readi_loop].
  { destruct (Z.ltb_spec tot n); [lia|]. assert (tot = n) as -> by lia. exists n, s, w. eauto. }
  destruct (Z.ltb_spec tot n) as [Hlt|]; [|assert (tot = n) as -> by lia; exists n, s, w; eauto].
  assert (0 <= (off + tot) / BSIZE < MAXFILE) as Hbn
    by (unfold MAXFILE, ND_INDIRECT; geo; change NDIRECT with 11 in *; dlia).
  assert (at_pos V x (pos_of ((off + tot) / BSIZE)) <> 0) as Hnz by (apply Hh; geo; dlia).
  destruct (bmap_present _ _ _ _ _ _ _ _ _ Hf Hbn Hnz) as (s1 & E1 & Hf1).
  run (fs_ok _ _ w _ _ E1). destruct (Z.eqb_spec (at_pos V x (pos_of ((off + tot) / BSIZE))) 0); [done|].
  run (fs_ok _ _ w _ _ (inode_ok _ _ _ _ _ _ _ _ _ _ (fo_rep _ _ _ _ _ _ _ _ _ Hf1) (fo_ip _ _ _ _ _ _ _ _ _ Hf1))).
  rewrite (fo_dev _ _ _ _ _ _ _ _ _ Hf1).
  destruct (fok_bread _ _ _ _ _ _ _ _ _ (at_pos V x (pos_of ((off + tot) / BSIZE))) Hf1)
    as (i & s2 & E2 & Hi & Hf2); [done|rewrite map_size_empty; lia|].
  run (fs_ok _ _ w _ _ E2). set (m := Z.min (n - tot) (BSIZE - (off + tot) mod BSIZE)).
  assert (0 < m <= BSIZE /\ tot + m <= n /\ (off + tot) mod BSIZE + m <= 1024) as (Hm1 & Hm2 & Hm3) by (unfold m; geo; dlia).
  erewrite bind_ok by (apply fs_ok; eapply data_ok; [apply Hf2|by simplify_map_eq]). cbv beta.
  rewrite fdata_chunk by (lia || (eapply frep_blk; apply Hf2) || (geo; dlia)).
  destruct (Hcp tot m w) as (c & w1 & E3 & Hc); [lia|done|done|done|]. run (mem_ok _ s2 _ _ _ E3).
  destruct (fok_release _ _ _ _ _ _ _ _ _ _ _ Hf2 Hi) as (s3 & E4 & Hf3).
  destruct Hc as [(-> & HI')|(-> & HJ)]; cbn [Z.eqb Pos.eqb]; run (fs_ok _ _ w1 _ _ E4).
  - rewrite (u32_small (off + tot + m)) by (geo; change NDIRECT with 11 in *; lia).
    replace (u64 (u64 (dst + tot) + m)) with (u64 (dst + (tot + m))).
    2:{ unfold u64. rewrite Zplus_mod_idemp_l. f_equal. lia. }
    replace (off + tot + m) with (off + (tot + m)) by lia.
    apply IH; [lia|lia|done|done].
  - exists (u32 (-1)), s3, w1. eauto.
Qed.

(** The number of bytes a read gets. *)
Definition read_len (x : inode) (off n : Z) : Z :=
  if (i_size x <? off) || (2 ^ 32 <=? off + n) then 0 else Z.min n (i_size x - off).

Lemma readi_ok s sb it ip V x X k I J user dst off n w :
  fok s sb it ip V x ∅ X k -> no_holes V x -> 0 <= i_size x <= MAXFILE * BSIZE ->
  0 <= off < 2 ^ 32 -> 0 <= n < 2 ^ 32 -> 0 <= dst < 2 ^ 64 ->
  copies_out I J user dst (read_len x off n) (fun tot m => fdata V x (off + tot) m) -> I 0 w ->
  exists r s' w', readi ip user dst off n (s, w) = Ok r (s', w') /\ fok s' sb it ip V x ∅ X k /\
  (r = read_len x off n /\ I r w' \/ r = -1 /\ J w').
Proof.
  intros Hf Hh Hsz Ho Hn Hd Hcp HI. unfold readi, read_len in *.
  run (fs_ok _ _ w _ _ (inode_ok _ _ _ _ _ _ _ _ _ _ (fo_rep _ _ _ _ _ _ _ _ _ Hf) (fo_ip _ _ _ _ _ _ _ _ _ Hf))).
  assert ((u32 (off + n) <? off) = (2 ^ 32 <=? off + n)) as ->.
  { unfold u32. destruct (Z.leb_spec (2 ^ 32) (off + n)); [apply Z.ltb_lt|apply Z.ltb_ge]; dlia. }
  destruct ((i_size x <? off) || (2 ^ 32 <=? off + n)) eqn:Ec.
  { exists 0, s, w. split; [done|]. split; [done|]. by left. }
  bprop. rewrite (u32_small (off + n)) by lia.
  replace (if i_size x <? off + n then i_size x - off else n) with (Z.min n (i_size x - off))
    by (destruct (Z.ltb_spec (i_size x) (off + n)); lia).
  set (n' := Z.min n (i_size x - off)) in *.
  destruct (readi_loop_ok sb it ip V x X k I J user dst off n' Hh) with (fuel := Z.to_nat n') (tot := 0) (s := s) (w := w)
    as (r & s' & w' & E & Hf' & Hr); [lia|lia|lia|done|lia|lia|done|done|].
  rewrite !Z.add_0_r in E. rewrite (u64_small dst) in E by done. run E.
  exists (i32 r), s', w'. split; [done|]. split; [done|].
  destruct Hr as [(-> & Hr)|(-> & Hr)]; [left|by right].
  unfold MAXFILE, ND_INDIRECT in Hsz. geo. change NDIRECT with 11 in *.
  by rewrite i32_small by (unfold n'; lia).
Qed.
(** ** Writing *)

Definition piece (D : Z -> byte) (tot : Z) (m : nat) : list byte := (fun i => D (tot + Z.of_nat i)) <$> seq 0 m.

Lemma length_piece D tot m : length (piece D tot m) = m.
Proof. unfold piece. by rewrite length_fmap, length_seq. Qed.

Lemma lookup_piece D tot m i : (i < m)%nat -> piece D tot m !! i = Some (D (tot + Z.of_nat i)).
Proof. intros. unfold piece. rewrite list_lookup_fmap, lookup_seq_lt by done. done. Qed.

(** The copies of a write succeed and give the bytes [D]. *)
Definition copies_in (I : Z -> W -> Prop) (user : bool) (src n : Z) (D : Z -> byte) : Prop :=
  forall tot m w, 0 <= tot -> 0 < m <= BSIZE -> tot + m <= n -> I tot w ->
  exists w', either_copyin user (u64 (src + tot)) m w = Ok (piece D tot (Z.to_nat m), 0) w' /\ I (tot + m) w'.

(** The file after [tot] bytes have been written at [off]. *)
Record written (sb : superblock) (D : Z -> byte) (off tot : Z) (V : view) (x : inode) (V' : view) (x' : inode) : Prop := {
  wr_grow : wgrow sb V x V' x';
  wr_in o : off <= o < off + tot -> at_pos V' x' (pos_of (o / BSIZE)) <> 0 /\ fbyte V' x' o = D (o - off);
  wr_out o : 0 <= o < MAXFILE * BSIZE -> ~ (off <= o < off + tot) -> at_pos V x (pos_of (o / BSIZE)) <> 0 ->
    fbyte V' x' o = fbyte V x o
}.

Lemma written_0 sb D off V x : written sb D off 0 V x V x.
Proof. split; [apply wgrow_refl|lia|done]. Qed.

(** One more chunk: [bmap] has grown the file, and the bytes are stored. *)
Lemma written_step sb D off tot m V x V1 x1 V2 x2 :
  geom sb -> (forall n, blk (V2 n)) -> finv sb V1 x1 -> finv sb V2 x2 ->
  0 <= off -> 0 <= tot -> 0 < m -> off + tot + m <= MAXFILE * BSIZE -> (off + tot) mod BSIZE + m <= BSIZE ->
  written sb D off tot V x V1 x1 -> bgrow sb V1 x1 V2 x2 ->
  let a := at_pos V2 x2 (pos_of ((off + tot) / BSIZE)) in a <> 0 ->
  let V3 := <[a := splice (V2 a) (Z.to_nat ((off + tot) mod BSIZE)) (piece D tot (Z.to_nat m))]> V2 in
  finv sb V3 x2 /\ written sb D off (tot + m) V x V3 x2 /\ (forall q, pos_ok q -> at_pos V3 x2 q = at_pos V2 x2 q).
Proof.
  intros G HV F1 F2 Ho Ht Hm Hmax Hin [Wg Wi Wo] HG a Ha V3.
  assert (forall o, 0 <= o < MAXFILE * BSIZE -> pos_ok (pos_of (o / BSIZE))) as Hpo by (intros o Hr; apply pos_of_ok; geo; dlia).
  destruct (data_write sb V2 x2 (pos_of ((off + tot) / BSIZE)) (splice (V2 a) (Z.to_nat ((off + tot) mod BSIZE)) (piece D tot (Z.to_nat m))))
    as (Hat & F3 & G3); [done..|apply Hpo; lia|apply pos_of_data|done|]. fold a V3 in Hat, F3, G3.
  split; [done|]. split; [|done].
  assert (forall o, 0 <= o < MAXFILE * BSIZE -> at_pos V2 x2 (pos_of (o / BSIZE)) <> 0 ->
    fbyte V3 x2 o = if decide (off + tot <= o < off + tot + m) then D (o - off) else fbyte V2 x2 o) as Hw.
  { intros o Hor Hoz. unfold V3, a.
    rewrite (fbyte_write sb); [|done|done|done|lia|rewrite length_piece; lia|rewrite length_piece; geo; lia|rewrite length_piece; lia|done..].
    rewrite length_piece. rewrite Z2Nat.id by lia. case_decide; [|done].
    rewrite lookup_piece by lia. cbn. f_equal. lia. }
  split.
  - eapply wgrow_trans; [done|done| |exact G3]. eapply wgrow_trans; [done|done|exact Wg|]. by apply bgrow_wgrow.
  - intros o Hor. assert (0 <= o < MAXFILE * BSIZE) as Hom by lia.
    rewrite Hat by auto.
    assert (at_pos V2 x2 (pos_of (o / BSIZE)) <> 0) as Hnz.
    { destruct (decide (o < off + tot)) as [Hlt|Hge].
      - destruct (Wi o) as [Hz1 _]; [lia|]. rewrite (bg_at _ _ _ _ _ HG); auto.
      - replace (o / BSIZE) with ((off + tot) / BSIZE) by (geo; dlia). done. }
    split; [done|]. rewrite Hw by done. case_decide; [done|].
    destruct (Wi o) as [Hz1 <-]; [lia|]. by apply (fbyte_bgrow sb).
  - intros o Hom Hout Hz. pose proof (wg_at _ _ _ _ _ Wg _ (Hpo o Hom) Hz) as E1.
    assert (at_pos V1 x1 (pos_of (o / BSIZE)) <> 0) as Hz1 by congruence.
    pose proof (bg_at _ _ _ _ _ HG _ (Hpo o Hom) Hz1) as E2.
    rewrite Hw by (done || congruence). rewrite decide_False by lia.
    rewrite (fbyte_bgrow sb V1 x1) by done. apply Wo; [done|lia|done].
Qed.
Lemma written_bgrow sb D off tot V x V1 x1 V2 x2 :
  geom sb -> finv sb V1 x1 -> finv sb V2 x2 -> 0 <= off -> off + tot <= MAXFILE * BSIZE ->
  written sb D off tot V x V1 x1 -> bgrow sb V1 x1 V2 x2 -> written sb D off tot V x V2 x2.
Proof.
  intros G F1 F2 Ho Hmax [Wg Wi Wo] HG.
  assert (forall o, 0 <= o < MAXFILE * BSIZE -> pos_ok (pos_of (o / BSIZE))) as Hpo by (intros o Hr; apply pos_of_ok; geo; dlia).
  split.
  - eapply wgrow_trans; [done|done|exact Wg|]. by apply bgrow_wgrow.
  - intros o Hor. destruct (Wi o Hor) as [Hz <-]. split.
    + rewrite (bg_at _ _ _ _ _ HG); [done|apply Hpo; lia|done].
    + apply (fbyte_bgrow sb); try done. lia.
  - intros o Hom Hout Hz. rewrite <- (Wo o) by done. apply (fbyte_bgrow sb); try done.
    rewrite (wg_at _ _ _ _ _ Wg); auto.
Qed.

(** The blocks of the range that exist, and those above them, may be logged. *)
Definition paths_in (V : view) (x : inode) (off n : Z) (X : gset Z) : Prop :=
  forall bn, off / BSIZE <= bn -> bn * BSIZE < off + n -> path_in V x (pos_of bn) X.

Lemma anc_ok p q : pos_ok p -> q ∈ ancestors p -> pos_ok q.
Proof. destruct p; cbn; set_unfold; intros; destruct_or?; subst; cbn; tauto. Qed.

Lemma paths_in_grown sb V x V' x' X X' off n :
  0 <= off -> off + n <= MAXFILE * BSIZE -> bgrow sb V x V' x' -> new_in V x V' x' X' -> X ⊆ X' ->
  paths_in V x off n X -> paths_in V' x' off n X'.
Proof.
  intros Ho Hmax HG HN HX H bn Hb1 Hb2. assert (pos_ok (pos_of bn)) as Hp by (apply pos_of_ok; geo; dlia).
  destruct (H bn Hb1 Hb2) as [Ha Hp']. split.
  - intros q Hq. eapply anc_grown; try done; [by eapply anc_ok|by apply Ha].
  - by eapply anc_grown.
Qed.

Lemma paths_in_ext V x V' x' X off n :
  0 <= off -> off + n <= MAXFILE * BSIZE -> (forall q, pos_ok q -> at_pos V' x' q = at_pos V x q) ->
  paths_in V x off n X -> paths_in V' x' off n X.
Proof.
  intros Ho Hmax Hat H bn Hb1 Hb2. assert (pos_ok (pos_of bn)) as Hp by (apply pos_of_ok; geo; dlia).
  destruct (H bn Hb1 Hb2) as [Ha Hp']. split.
  - intros q Hq. rewrite Hat by (by eapply anc_ok). by apply Ha.
  - rewrite Hat by done. done.
Qed.

Definition room_blocks (sb : superblock) (V : view) (off n : Z) (b : nat) : Prop :=
  off + n <= (NDIRECT + NINDIRECT) * BSIZE \/ free_atleast sb V (3 * b).

(** One chunk of a write, when [bmap] has found block [a]. *)
Lemma store_ok s sb it ip V x X k a p d :
  fok s sb it ip V x ∅ X k -> a = at_pos V x p -> pos_ok p -> is_index p = false -> a <> 0 -> a ∈ X -> blk d ->
  exists i s1 s2 s3 s4, tx (t_bread dev a) s = Ok i s1 /\ tx (t_data i) s1 = Ok (V a) s1 /\
    tx (t_set i d) s1 = Ok tt s2 /\ tx (t_log i) s2 = Ok tt s3 /\ tx (t_brelse i) s3 = Ok tt s4 /\
    fok s4 sb it ip (<[a := d]> V) x ∅ X k.
Proof.
  intros Hf -> Hp Hidx Ha HX Hd. pose proof (ok_geom _ _ (fo_ok _ _ _ _ _ _ _ _ _ Hf)) as G.
  pose proof (g_data _ G). pose proof (dstart_pos sb G).
  destruct (fok_bread _ _ _ _ _ _ _ _ _ (at_pos V x p) Hf) as (i & s1 & E1 & Hi & Hf1); [done|rewrite map_size_empty; lia|].
  pose proof (fo_rep _ _ _ _ _ _ _ _ _ Hf1) as Hr1.
  pose proof (data_ok _ _ _ _ _ _ _ _ i (at_pos V x p) Hr1 ltac:(by simplify_map_eq)) as E2.
  destruct (set_log_ok _ _ _ _ _ _ _ _ i (at_pos V x p) d Hr1) as (s2 & s3 & E3 & E4 & Hr3);
    [by simplify_map_eq|done|done|set_solver|].
  destruct (release_ok _ _ _ _ _ _ _ _ _ _ Hr3 Hi) as (s4 & E5 & Hr4); [set_solver|].
  exists i, s1, s2, s3, s4. split_and!; try done.
  destruct (data_write sb V x p d G (fo_inv _ _ _ _ _ _ _ _ _ Hf) Hp Hidx Ha) as (Hat & F' & _).
  destruct Hf as [_ Hip Hdev F Hok Hm]. split; try done.
  intros b Hb. destruct (fi_used _ _ _ F p Hp Ha). rewrite used_other by (done || lia). by apply Hm.
Qed.
Lemma free_ext sb V V' n :
  (forall c, 0 <= c < sb_size sb -> used sb V' c = used sb V c) -> free_atleast sb V n -> free_atleast sb V' n.
Proof.
  intros Hu (F & HF & Hf). exists F. split; [done|]. intros b Hb. destruct (Hf b Hb). split; [done|].
  by rewrite Hu.
Qed.

Lemma writei_loop_ok sb it ip V x X k I user src off n D :
  0 <= off -> off + n <= MAXFILE * BSIZE -> copies_in I user src n D ->
  forall fuel b tot s w V1 x1 X1, n - tot <= Z.of_nat fuel -> 0 <= tot <= n ->
  (tot < n -> (off + n - 1) / BSIZE - (off + tot) / BSIZE + 1 <= Z.of_nat b) ->
  fok s sb (<[ip := x1]> it) ip V1 x1 ∅ X1 (3 * b + k) -> X ⊆ X1 -> paths_in V1 x1 off n X1 ->
  room_blocks sb V1 off n b -> written sb D off tot V x V1 x1 -> I tot w ->
  exists r s' w' V' x' X', writei_loop fuel ip user (u64 (src + tot)) (off + tot) n tot (s, w) = Ok (r, off + r) (s', w') /\
    fok s' sb (<[ip := x']> it) ip V' x' ∅ X' k /\ X ⊆ X' /\ written sb D off r V x V' x' /\
    0 <= r <= n /\ I r w' /\ (r = n \/ full sb V').
Proof.
  intros Ho Hmax Hcp. induction fuel as [|fuel IH]; intros b tot s w V1 x1 X1 Hfuel Htot Hb Hf HX HP Hroom HW HI.
  all: assert (tot = n -> exists r s' w' V' x' X', Ok (tot, off + tot) (s, w) = Ok (r, off + r) (s', w') /\
    fok s' sb (<[ip := x']> it) ip V' x' ∅ X' k /\ X ⊆ X' /\ written sb D off r V x V' x' /\
    0 <= r <= n /\ I r w' /\ (r = n \/ full sb V')) as Hdone
    by (intros ->; exists n, s, w, V1, x1, X1; split; [done|]; split; [|split; [done|split; [done|split; [lia|split; [done|by left]]]]];
        eapply fok_rep; [exact Hf| |done]; eapply frep_weaken; [apply Hf|done|lia]).
  all: cbn [writei_loop]; destruct (Z.ltb_spec tot n) as [Hlt|]; [|solve [apply Hdone; lia]].
  { lia. }
  destruct b as [|b]; [specialize (Hb Hlt); geo; exfalso; dlia|].
  assert (0 <= (off + tot) / BSIZE < MAXFILE) as Hbn by (geo; dlia).
  destruct (HP ((off + tot) / BSIZE)) as [HPa HPp]; [geo; dlia..|].
  destruct (bmap_ok s sb (<[ip := x1]> it) ip V1 x1 X1 (3 * b + k) ((off + tot) / BSIZE))
    as (r & s1 & V2 & x2 & X2 & E1 & Hg & Hr & Hfull & Hfree); [eapply fok_rep; [exact Hf| |done]; eapply frep_weaken; [apply Hf|done|lia]|done|done| |].
  { destruct Hroom as [Hs|Hfr]; [left|right]; [geo; change NDIRECT with 11 in *; dlia|]. eapply free_le; [done|lia]. }
  run (fs_ok _ _ w _ _ E1). destruct Hg as (Hf2 & HG & HX2 & HN). rewrite list_insert_insert, decide_True in Hf2 by done.
  pose proof (ok_geom _ _ (fo_ok _ _ _ _ _ _ _ _ _ Hf)) as G.
  pose proof (fo_inv _ _ _ _ _ _ _ _ _ Hf) as F1. pose proof (fo_inv _ _ _ _ _ _ _ _ _ Hf2) as F2.
  destruct (Z.eqb_spec r 0) as [Hz|Hz].
  { exists tot, s1, w, V2, x2, X2. split_and!; try done; try lia; [|set_solver|apply (written_bgrow sb D off tot V x V1 x1); try done; lia|right; by apply Hfull].
    eapply fok_rep; [exact Hf2| |done]. eapply frep_weaken; [apply Hf2|done|lia]. }
  run (fs_ok _ _ w _ _ (inode_ok _ _ _ _ _ _ _ _ _ _ (fo_rep _ _ _ _ _ _ _ _ _ Hf2) (fo_ip _ _ _ _ _ _ _ _ _ Hf2))).
  rewrite (fo_dev _ _ _ _ _ _ _ _ _ Hf2). set (m := Z.min (n - tot) (BSIZE - (off + tot) mod BSIZE)).
  assert (0 < m <= BSIZE /\ tot + m <= n /\ (off + tot) mod BSIZE + m <= BSIZE) as (Hm1 & Hm2 & Hm3) by (unfold m; geo; dlia).
  destruct (Hcp tot m w) as (w1 & Ec & HI'); [lia|done|done|done|].
  assert (forall c, blk (V2 c)) as HV2 by (intros; eapply frep_blk; apply Hf2).
  destruct (store_ok s1 sb (<[ip := x2]> it) ip V2 x2 X2 (3 * b + k) r (pos_of ((off + tot) / BSIZE))
    (splice (V2 r) (Z.to_nat ((off + tot) mod BSIZE)) (piece D tot (Z.to_nat m))) Hf2)
    as (i & s2 & s3 & s4 & s5 & F1' & F2' & F3' & F4' & F5' & Hf5); [done|by apply pos_of_ok|apply pos_of_data|done| | |].
  { subst r. eapply anc_grown; try done. by apply pos_of_ok. }
  { apply blk_splice; [done|]. rewrite length_piece. geo. dlia. }
  run (fs_ok _ _ w _ _ F1'). run (mem_ok _ s2 _ _ _ Ec). run (fs_ok _ _ w1 _ _ F2'). cbn [fst snd].
  run (fs_ok _ _ w1 _ _ F3'). cbn [Z.eqb]. run (fs_ok _ _ w1 _ _ F4'). run (fs_ok _ _ w1 _ _ F5').
  destruct (written_step sb D off tot m V x V1 x1 V2 x2) as (F3 & HW3 & Hat3); try done; [lia..|by subst r|].
  rewrite <- Hr in F3, HW3, Hat3.
  rewrite (u32_small (off + tot + m)) by (unfold MAXFILE, ND_INDIRECT in *; geo; change NDIRECT with 11 in *; lia).
  replace (u64 (u64 (src + tot) + m)) with (u64 (src + (tot + m))) by (unfold u64; rewrite Zplus_mod_idemp_l; f_equal; lia).
  replace (off + tot + m) with (off + (tot + m)) by lia.
  eapply (IH b (tot + m) s5 w1 _ x2 X2);  [lia|lia| |exact Hf5|set_solver| | |exact HW3|done].
  - intros Hlt'. specialize (Hb Hlt). unfold m in *. geo. dlia.
  - eapply paths_in_ext; [done..|exact Hat3|]. by eapply paths_in_grown.
  - destruct Hroom as [?|Hfr]; [by left|right]. eapply (free_ext sb V2).
    + intros c Hc. apply used_other; [done..|]. destruct (fi_used _ _ _ F2 (pos_of ((off + tot) / BSIZE))); [by apply pos_of_ok|congruence|lia].
    + apply Hfree. eapply free_le; [done|lia].
Qed.
Record wrote (sb : superblock) (D : Z -> byte) (off r : Z) (V : view) (x : inode) (V' : view) (x' : inode) : Prop := {
  wt_size : i_size x' = Z.max (i_size x) (off + r);
  wt_in o : off <= o < off + r -> fbyte V' x' o = D (o - off);
  wt_out o : 0 <= o < i_size x -> ~ (off <= o < off + r) -> fbyte V' x' o = fbyte V x o;
  wt_holes : no_holes V' x';
  wt_disk : inode_at sb V' (i_inum x') = i_to_disk x';
  wt_frame n : 0 <= n < sb_size sb -> used sb V n = true -> ~ (sb_bmapstart sb <= n < dstart sb) ->
    n <> IBLOCK (i_inum x) sb -> (forall p, pos_ok p -> at_pos V x p <> 0 -> at_pos V x p <> n) -> V' n = V n;
  wt_used n : 0 <= n < sb_size sb -> used sb V n = true -> used sb V' n = true;
  wt_rest : i_inum x' = i_inum x /\ i_type x' = i_type x /\ i_nlink x' = i_nlink x
}.

(** After the loop of [writei]: the size and the inode on the disk. *)
Lemma writei_tail sb D off r V x V1 x1 z :
  geom sb -> (forall n, blk (V1 n)) -> finv sb V1 x1 -> written sb D off r V x V1 x1 ->
  no_holes V x -> 0 <= off <= i_size x -> 0 <= r -> off + r <= MAXFILE * BSIZE -> i_size x <= MAXFILE * BSIZE ->
  0 <= i_inum x < sb_ninodes sb -> dinode_ok (i_to_disk x) -> z = Z.max (i_size x) (off + r) ->
  let x' := i_set_size z x1 in
  wrote sb D off r V x (put_inode sb (i_inum x1) (i_to_disk x') V1) x'.
Proof.
  intros G HV F [Wg Wi Wo] Hh Ho Hr Hmax Hsz Hin Hdi Hz x'.
  assert (forall o, 0 <= o < MAXFILE * BSIZE -> pos_ok (pos_of (o / BSIZE))) as Hpo by (intros o ?; apply pos_of_ok; geo; dlia).
  pose proof (wg_rest _ _ _ _ _ Wg []) as Hrest. injection Hrest as R1 R2 R3 R4 R5 R6 R7 R8 R9 R10.
  assert (0 <= i_inum x1 < sb_ninodes sb) as Hin1 by congruence. destruct (IBLOCK_eq sb _ G Hin1) as [_ HIB].
  assert (finv sb V1 x') as F' by (by apply finv_size).
  assert (forall p, at_pos V1 x' p = at_pos V1 x1 p) as Hx' by (intros; apply at_size).
  destruct (meta_write sb V1 x' (IBLOCK (i_inum x1) sb)
    (dinode_put (Z.to_nat (i_inum x1 mod IPB)) (i_to_disk x') (V1 (IBLOCK (i_inum x1) sb))) G F') as (Hat & F2 & Hu & Hb); [lia|].
  fold (put_inode sb (i_inum x1) (i_to_disk x') V1) in *. set (V2 := put_inode _ _ _ _) in *.
  assert (forall o, 0 <= o < z -> at_pos V1 x1 (pos_of (o / BSIZE)) <> 0) as Hnz.
  { intros o Hoz. destruct (decide (off <= o < off + r)) as [Hi|Hi]; [by apply Wi|].
    rewrite (wg_at _ _ _ _ _ Wg); [|apply Hpo; lia|]; apply Hh; geo; dlia. }
  split.
  - done.
  - intros o Hoo. rewrite Hb; [|lia|rewrite Hx'; apply Hnz; lia]. unfold x'. rewrite fbyte_size. by apply Wi.
  - intros o Hoo Hout. rewrite Hb; [|lia|rewrite Hx'; apply Hnz; lia]. unfold x'. rewrite fbyte_size.
    apply Wo; [lia|done|]. apply Hh; geo; dlia.
  - intros bn Hbn1 Hbn2. cbn in Hbn2. pose proof (Hnz (bn * BSIZE) ltac:(geo; lia)) as Hnz'.
    replace (bn * BSIZE / BSIZE) with bn in Hnz' by (geo; dlia). rewrite Hat, Hx'; [done|].
    apply pos_of_ok. geo. lia.
  - unfold V2. cbn [i_inum x' i_set_size]. rewrite inode_at_put; [by rewrite decide_True|done..|].
    destruct Hdi. split; cbn in *; try congruence; try lia.
    + unfold MAXFILE, ND_INDIRECT in *. geo. change NDIRECT with 11 in *. lia.
    + apply F.
    + by eapply finv_addrs.
  - intros n Hn Hun Hbm HnI Hp. unfold V2, put_inode. rewrite fn_lookup_insert_ne by congruence.
    by apply (wg_frame _ _ _ _ _ Wg).
  - intros n Hn Hun. rewrite Hu by done. by apply (wg_used _ _ _ _ _ Wg).
  - done.
Qed.

Lemma writei_ok s sb it ip V x X k b I user src off n D w :
  fok s sb it ip V x ∅ X (3 * b + k) -> no_holes V x -> i_size x <= MAXFILE * BSIZE -> dinode_ok (i_to_disk x) ->
  0 <= i_inum x < sb_ninodes sb -> IBLOCK (i_inum x) sb ∈ X ->
  0 <= off <= i_size x -> 0 <= n -> off + n <= MAXFILE * BSIZE -> 0 <= src < 2 ^ 64 ->
  (off + n - 1) / BSIZE - off / BSIZE + 1 <= Z.of_nat b -> paths_in V x off n X -> room_blocks sb V off n b ->
  copies_in I user src n D -> I 0 w ->
  exists r s' w' V' x' X', writei ip user src off n (s, w) = Ok r (s', w') /\
    fok s' sb (<[ip := x']> it) ip V' x' ∅ X' k /\ X ⊆ X' /\ wrote sb D off r V x V' x' /\
    0 <= r <= n /\ I r w' /\ (r = n \/ full sb V').
Proof.
  intros Hf Hh Hsz Hdi Hin HIX Ho Hn Hmax Hsrc Hb HP Hroom Hcp HI. unfold writei.
  run (fs_ok _ _ w _ _ (inode_ok _ _ _ _ _ _ _ _ _ _ (fo_rep _ _ _ _ _ _ _ _ _ Hf) (fo_ip _ _ _ _ _ _ _ _ _ Hf))).
  assert (MAXFILE * BSIZE < 2 ^ 31) as Hlim by done.
  rewrite (u32_small (off + n)) by lia. destruct (Z.ltb_spec (i_size x) off); [lia|].
  destruct (Z.ltb_spec (off + n) off); [lia|]. cbn [orb].
  destruct (Z.ltb_spec (MAXFILE * BSIZE) (off + n)); [lia|].
  destruct (writei_loop_ok sb it ip V x X k I user src off n D ltac:(lia) Hmax Hcp (Z.to_nat n) b 0 s w V x X)
    as (r & s1 & w1 & V1 & x1 & X1 & E1 & Hf1 & HX1 & HW & Hr & HI1 & Hend); [lia|lia| | |done|done|done|apply written_0|done|].
  { intros _. by rewrite Z.add_0_r. }
  { by rewrite list_insert_id by apply Hf. }
  rewrite !Z.add_0_r, (u64_small src) in E1 by done. run E1. cbn [fst snd].
  run (fs_ok _ _ w1 _ _ (inode_ok _ _ _ _ _ _ _ _ _ _ (fo_rep _ _ _ _ _ _ _ _ _ Hf1) (fo_ip _ _ _ _ _ _ _ _ _ Hf1))).
  pose proof (wg_rest _ _ _ _ _ (wr_grow _ _ _ _ _ _ _ _ HW) []) as Hrest. injection Hrest as R1 R2 R3 R4 R5 R6 R7 R8 R9 R10.
  set (z := Z.max (i_size x) (off + r)). set (x' := i_set_size z x1).
  assert (exists s2, (if i_size x1 <? off + r then fs (modify (upd_i ip (i_set_size (off + r)))) else ret tt) (s1, w1)
    = Ok tt (s2, w1) /\ frep s2 sb (<[ip := x']> it) V1 ∅ ∅ X1 k) as (s2 & E2 & Hr2).
  { pose proof (fo_rep _ _ _ _ _ _ _ _ _ Hf1) as Hr1. destruct (Z.ltb_spec (i_size x1) (off + r)).
    - eexists. split; [by apply fs_ok|]. apply frep_it with (ip := ip) (f := i_set_size (off + r)) in Hr1.
      rewrite (alter_insert _ _ _ _ (fo_ip _ _ _ _ _ _ _ _ _ Hf1)), list_insert_insert, decide_True in Hr1 by done.
      unfold x', z. by replace (Z.max (i_size x) (off + r)) with (off + r) by lia.
    - exists s1. split; [done|]. unfold x', z. replace (Z.max (i_size x) (off + r)) with (i_size x1) by lia.
      by replace (i_set_size (i_size x1) x1) with x1 by (by destruct x1). }
  run E2. pose proof (ok_geom _ _ (fo_ok _ _ _ _ _ _ _ _ _ Hf)) as G.
  assert (<[ip := x']> it !! ip = Some x') as Hx'
    by (apply list_lookup_insert_eq; eapply lookup_lt_Some; apply Hf).
  destruct (iupdate_ok s2 sb _ V1 ∅ X1 k ip x' Hr2 G Hx') as (s3 & E3 & Hr3); cbn [i_dev i_inum i_addrs i_set_size x'].
  { by rewrite R1, (fo_dev _ _ _ _ _ _ _ _ _ Hf). }
  { by rewrite R2. }
  { apply Hf1. }
  { rewrite R2. set_solver. }
  { done. }
  { rewrite map_size_empty. lia. }
  run (fs_ok _ _ w1 _ _ E3).
  assert (wrote sb D off r V x (put_inode sb (i_inum x1) (i_to_disk x') V1) x') as HWt.
  { apply writei_tail; try done; try lia; [intros; eapply frep_blk; apply Hf1|apply Hf1]. }
  exists r, s3, w1, (put_inode sb (i_inum x1) (i_to_disk x') V1), x', X1.
  split; [unfold ret; by rewrite i32_small by lia|].
  assert (0 <= i_inum x1 < sb_ninodes sb) as Hin1 by congruence. destruct (IBLOCK_eq sb _ G Hin1) as [_ HIB].
  destruct (meta_write sb V1 x' (IBLOCK (i_inum x1) sb)
    (dinode_put (Z.to_nat (i_inum x1 mod IPB)) (i_to_disk x') (V1 (IBLOCK (i_inum x1) sb))) G) as (Hat & F2 & Hu & Hby);
    [apply finv_size, Hf1|lia|]. fold (put_inode sb (i_inum x1) (i_to_disk x') V1) in *.
  split_and!; try done; try lia.
  - destruct Hf1 as [Hr1 Hip1 Hdev1 F1 Hok1 Hm1]. split; try done.
    intros c Hc. pose proof (g_data _ G). rewrite Hu by lia. by apply Hm1.
  - destruct Hend as [?|Hfull]; [by left|right]. intros c Hc. rewrite Hu by done. by apply Hfull.
Qed.
End rw.

(** ** Copies to and from a kernel variable *)

Section local_rw.
Context {T : Type} {TO : TxnOps T} {TL : TxnLaws T}.

Lemma fdata_app V x off a b :
  0 <= off -> fdata V x off (a + b) = fdata V x off a ++ fdata V x (off + Z.of_nat a) b.
Proof.
  intros Ho. unfold fdata. rewrite seq_app, fmap_app. f_equal. apply list_eq. intros i.
  rewrite !list_lookup_fmap. destruct (decide (i < b)%nat).
  - rewrite !lookup_seq_lt by done. cbn. do 2 f_equal. lia.
  - by rewrite !lookup_seq_ge by lia.
Qed.

Lemma splice_app {A} (w a b : list A) :
  (length a + length b <= length w)%nat -> splice (splice w 0 a) (length a) b = splice w 0 (a ++ b).
Proof.
  intros Hl. unfold splice. rewrite !take_0. cbn [app Nat.add]. rewrite take_app_length, length_app, drop_app_ge by lia.
  rewrite drop_drop, <- app_assoc. do 3 f_equal. lia.
Qed.

Lemma local_out V x off n w0 :
  0 <= off -> 0 <= n <= Z.of_nat (length w0) -> n < 2 ^ 64 ->
  copies_out (W := local) (fun tot w => w = splice w0 0 (fdata V x off (Z.to_nat tot))) (fun _ => False)
    false 0 n (fun tot m => fdata V x (off + tot) m).
Proof.
  intros Ho Hn Hl tot m w Ht Hm Hmn ->. rewrite Z.add_0_l, u64_small by lia. cbn.
  rewrite length_fdata, length_splice by (rewrite length_fdata; lia).
  rewrite (proj2 (Z.leb_le 0 tot)) by lia. rewrite (proj2 (Nat.leb_le _ _)) by lia. cbn.
  eexists 0, _. split; [done|]. left. split; [done|].
  replace (Z.to_nat tot) with (length (fdata V x off (Z.to_nat tot))) at 2 by (by rewrite length_fdata).
  rewrite splice_app by (rewrite !length_fdata; lia).
  rewrite Z2Nat.inj_add, fdata_app by lia. by rewrite Z2Nat.id by lia.
Qed.

(** Reading into a variable that is large enough. *)
Lemma readi_local s sb it ip V x X k off n w :
  fok s sb it ip V x ∅ X k -> no_holes V x -> 0 <= i_size x <= MAXFILE * BSIZE ->
  0 <= off -> 0 <= n <= Z.of_nat (length w) -> off + n <= i_size x ->
  exists s', readi ip false 0 off n (s, w) = Ok n (s', splice w 0 (fdata V x off (Z.to_nat n))) /\ fok s' sb it ip V x ∅ X k.
Proof.
  intros Hf Hh Hsz Ho Hn Hle. assert (MAXFILE * BSIZE < 2 ^ 31) as Hlim by done.
  assert (read_len x off n = n) as Hrl.
  { unfold read_len. destruct (Z.ltb_spec (i_size x) off); [lia|]. destruct (Z.leb_spec (2 ^ 32) (off + n)); [lia|]. cbn. lia. }
  destruct (readi_ok s sb it ip V x X k (fun tot w' => w' = splice w 0 (fdata V x off (Z.to_nat tot))) (fun _ => False) false 0 off n w)
    as (r & s' & w' & E & Hf' & [(-> & ->)|[_ []]]); try done; try lia.
  - rewrite Hrl. apply local_out; lia.
  - rewrite Hrl in E. eauto.
Qed.

Definition list_fun (bs : list byte) (i : Z) : byte := default x00 (bs !! Z.to_nat i).

Lemma piece_list bs tot m :
  0 <= tot -> (Z.to_nat tot + m <= length bs)%nat -> piece (list_fun bs) tot m = slice (Z.to_nat tot) m bs.
Proof.
  intros Ht Hl. apply list_eq. intros i. destruct (decide (i < m)%nat) as [Hi|Hi].
  - rewrite lookup_piece, lookup_slice by done. unfold list_fun.
    replace (Z.to_nat (tot + Z.of_nat i)) with (Z.to_nat tot + i)%nat by lia.
    destruct (lookup_lt_is_Some_2 bs (Z.to_nat tot + i)) as [b ->]; [lia|done].
  - rewrite !lookup_ge_None_2; [done| |by rewrite length_piece; lia].
    unfold slice. rewrite length_take. lia.
Qed.

Lemma local_in bs n :
  0 <= n <= Z.of_nat (length bs) -> n < 2 ^ 64 ->
  copies_in (W := local) (fun _ w => w = bs) false 0 n (list_fun bs).
Proof.
  intros Hn Hl tot m w Ht Hm Hmn ->. rewrite Z.add_0_l, u64_small by lia. cbn.
  rewrite (proj2 (Z.leb_le 0 tot)) by lia. rewrite (proj2 (Nat.leb_le _ _)) by lia. cbn.
  exists bs. split; [|done]. by rewrite piece_list by lia.
Qed.
End local_rw.
