(* ===== verification/FsTrunc.v ===== *)
(** * Truncation: [itrunc]

    [itrunc] returns every block of the file to the allocator, each exactly once,
    and nothing else.  [freed V x V1 P] describes the disk while it works: the
    blocks at the positions in [P] have been freed, and only the bitmap has
    changed. *)

From S2P Require Import Prelude Bio LogSpec FsLayout TxnLayer Fs FsAlloc FsMap FsInode FsRw.

Record freed (sb : superblock) (V : view) (x : inode) (V1 : view) (P : pos -> Prop) : Prop := {
  fd_used n : 0 <= n < sb_size sb ->
    used sb V1 n = true <->
    used sb V n = true /\ (forall p, pos_ok p -> P p -> at_pos V x p <> 0 -> at_pos V x p <> n);
  fd_same n : ~ (sb_bmapstart sb <= n < dstart sb) -> V1 n = V n
}.

Lemma freed_iff sb V x V1 P Q :
  freed sb V x V1 P -> (forall p, pos_ok p -> at_pos V x p <> 0 -> (P p <-> Q p)) -> freed sb V x V1 Q.
Proof.
  intros [Hu Hs] HPQ. split; [|done]. intros n Hn. rewrite Hu by done.
  split; intros [? H]; (split; [done|]); intros p Hp HP Hz; apply H; try done; by apply (HPQ p Hp Hz).
Qed.

Lemma freed_refl sb V x : freed sb V x V (fun _ => False).
Proof. split; [|done]. intros n Hn. split; [|tauto]. intros Hu. split; [done|]. by intros. Qed.

Section trunc.
Context {T : Type} {TO : TxnOps T} {TL : TxnLaws T}.
Abbreviation dev := (t_dev (S := T)).
Variables (sb : superblock) (V : view) (x : inode) (X : gset Z) (k : nat).
Hypothesis F : finv sb V x.
Hypothesis OK : fsok sb X.

Lemma freed_live V1 P p :
  freed sb V x V1 P -> pos_ok p -> ~ P p -> at_pos V x p <> 0 ->
  dstart sb <= at_pos V x p < sb_size sb /\ used sb V1 (at_pos V x p) = true /\ V1 (at_pos V x p) = V (at_pos V x p).
Proof.
  intros [Hu Hs] Hp HP Hz. pose proof (dstart_pos sb (ok_geom _ _ OK)).
  destruct (fi_used _ _ _ F p Hp Hz) as [Hr Hused]. split; [done|]. split.
  - apply Hu; [lia|]. split; [done|]. intros q Hq HPq Hqz E. apply HP.
    by rewrite <- (fi_inj _ _ _ F q p Hq Hp Hqz E).
  - apply Hs. lia.
Qed.

(** The buffers held are of blocks not freed yet. *)
Definition holds (H : gmap nat Z) (P : pos -> Prop) : Prop :=
  forall i n, H !! i = Some n -> exists q, pos_ok q /\ n = at_pos V x q /\ n <> 0 /\ ~ P q.

Lemma holds_ok V1 H P : freed sb V x V1 P -> holds H P -> held_ok sb V1 H.
Proof.
  intros Hf Hh i n Hi. destruct (Hh i n Hi) as (q & Hq & -> & Hz & HP).
  destruct (freed_live V1 P q Hf Hq HP Hz) as (? & ? & _). done.
Qed.

Lemma free_step s it V1 H P p :
  frep s sb it V1 H ∅ X k -> freed sb V x V1 P -> holds H P -> (size H <= 2)%nat ->
  pos_ok p -> ~ P p -> at_pos V x p <> 0 ->
  exists s' V2, bfree dev (at_pos V x p) s = Ok tt s' /\ frep s' sb it V2 H ∅ X k /\
    freed sb V x V2 (fun q => P q \/ q = p).
Proof.
  intros Hr Hf Hh Hsz Hp HP Hz. pose proof (ok_geom _ _ OK) as G. pose proof (dstart_pos sb G).
  destruct (freed_live V1 P p Hf Hp HP Hz) as (Hrg & Hu & _).
  destruct (bfree_ok s sb it V1 H X k (at_pos V x p) Hr OK (holds_ok _ _ _ Hf Hh) Hsz) as (s' & E & Hr'); [lia|done|].
  exists s', (free_view sb (at_pos V x p) V1). split; [done|]. split; [done|].
  assert (forall n, blk (V1 n)) as HV by (intros; by eapply frep_blk). destruct Hf as [Hfu Hfs]. split.
  - intros n Hn. rewrite used_clear by (done || lia).
    rewrite andb_true_iff, Hfu, negb_true_iff, bool_decide_eq_false by done. split.
    + intros [Hne [Hun Hall]]. split; [done|]. intros q Hq [HPq | ->] Hqz; [by apply Hall|congruence].
    + intros [Hun Hall]. split; [|split; [done|]].
      * intros ->. apply (Hall p); auto.
      * intros q Hq HPq. apply Hall; auto.
  - intros n Hn. unfold free_view. rewrite fn_lookup_insert_ne; [by apply Hfs|].
    destruct (BBLOCK_eq sb (at_pos V x p) G ltac:(lia)) as [_ ?]. lia.
Qed.

(** The loop over the entries of the index block at [q0]. *)
Lemma free_entries_ok it H bp q0 (child : Z -> pos) (P : nat -> pos -> Prop) body :
  pos_ok q0 -> at_pos V x q0 <> 0 -> H !! bp = Some (at_pos V x q0) ->
  (forall j, home (child j) = inr (q0, j)) -> (forall j, ~ P j q0) ->
  (forall j s V1, (j < 256)%nat -> at_pos V x (child (Z.of_nat j)) <> 0 ->
    frep s sb it V1 H ∅ X k -> freed sb V x V1 (P j) ->
    exists s' V2, body (at_pos V x (child (Z.of_nat j))) s = Ok tt s' /\ frep s' sb it V2 H ∅ X k /\
      freed sb V x V2 (P (j + 1)%nat)) ->
  (forall j V1, (j < 256)%nat -> at_pos V x (child (Z.of_nat j)) = 0 -> freed sb V x V1 (P j) -> freed sb V x V1 (P (j + 1)%nat)) ->
  forall s V1, frep s sb it V1 H ∅ X k -> freed sb V x V1 (P 0%nat) ->
  exists s' V2, free_entries bp body s = Ok tt s' /\ frep s' sb it V2 H ∅ X k /\
    freed sb V x V2 (P 256%nat).
Proof.
  intros Hq Hz Hbp Hc HP Hbody Hskip s V1 Hr Hf. unfold free_entries. change (Z.to_nat NINDIRECT) with 256%nat.
  destruct (for_each_ok (fun j s => exists V1, frep s sb it V1 H ∅ X k /\ freed sb V x V1 (P j)))
    with (s := s) (n := 256%nat) (body := fun j => d <- tx (t_data bp);;
      let a := word (Z.of_nat j) d in if negb (a =? 0) then body a else ret tt)
    as (s' & E & V2 & Hr2 & Hf2); [|by exists V1|by exists s', V2].
  intros j s1 Hj (V2 & Hr2 & Hf2). run (data_ok _ _ _ _ _ _ _ _ _ _ Hr2 Hbp).  cbv zeta.
  destruct (freed_live V2 _ q0 Hf2 Hq (HP j) Hz) as (_ & _ & ->).
  rewrite <- (entry_word V) by done. rewrite <- (at_home V x _ _ _ (Hc (Z.of_nat j))).
  destruct (Z.eqb_spec (at_pos V x (child (Z.of_nat j))) 0) as [E0|E0]; cbn [negb].
  - exists s1. split; [done|]. exists V2. split; [done|]. by apply Hskip.
  - destruct (Hbody j s1 V2 Hj E0 Hr2 Hf2) as (s2 & V3 & E & Hr3 & Hf3). exists s2. split; [done|]. by exists V3.
Qed.
(** ** The inode in memory *)

(** The first [b] slots have been cleared. *)
Record cleared (y : inode) (b : Z) : Prop := {
  cl_len : length (i_addrs y) = naddrs;
  cl_slot j : 0 <= j <= 12 -> slot y j = if decide (j < b) then 0 else slot x j;
  cl_rest : forall l, mkInode (i_dev y) (i_inum y) (i_ref y) (i_lock y) (i_valid y) (i_type y)
      (i_major y) (i_minor y) (i_nlink y) (i_size y) l =
    mkInode (i_dev x) (i_inum x) (i_ref x) (i_lock x) (i_valid x) (i_type x)
      (i_major x) (i_minor x) (i_nlink x) (i_size x) l
}.

Lemma cleared_0 : cleared x 0.
Proof. split; [apply F| |done]. intros j Hj. by rewrite decide_False by lia. Qed.

Lemma cleared_set y b : 0 <= b <= 12 -> cleared y b -> cleared (i_set_addr b 0 y) (b + 1).
Proof.
  intros Hb [Hl Hs Hr]. split; [cbn; by rewrite length_insert| |done].
  intros j Hj. rewrite slot_set by done. case_decide; [by rewrite decide_True by lia|].
  rewrite Hs by done. destruct (decide (j < b)); [by rewrite decide_True by lia|by rewrite decide_False by lia].
Qed.

Lemma cleared_skip y b : 0 <= b <= 12 -> slot x b = 0 -> cleared y b -> cleared y (b + 1).
Proof.
  intros Hb Hz [Hl Hs Hr]. split; [done| |done]. intros j Hj. rewrite Hs by done.
  repeat case_decide; try lia; try done. by assert (j = b) as -> by lia.
Qed.

(** The state between the steps of [itrunc] on inode [ip]. *)
Definition trunc_at (it : list inode) (ip : nat) (P : pos -> Prop) (b : Z) (s : fsst T) : Prop :=
  exists V1 y, frep s sb (<[ip := y]> it) V1 ∅ ∅ X k /\ freed sb V x V1 P /\ cleared y b.

Lemma trunc_it (it : list inode) (ip : nat) (y : inode) : is_Some (it !! ip) -> <[ip := y]> it !! ip = Some y.
Proof. intros [z Hz]. apply list_lookup_insert_eq. by eapply lookup_lt_Some. Qed.

Lemma addr_slot s it ip y V1 j :
  frep s sb (<[ip := y]> it) V1 ∅ ∅ X k -> is_Some (it !! ip) -> length (i_addrs y) = naddrs -> 0 <= j <= 12 ->
  addr_of ip j s = Ok (slot y j) s.
Proof.
  intros Hr Hip Hl Hj. unfold addr_of. run (inode_ok _ _ _ _ _ _ _ _ _ _ Hr (trunc_it it ip y Hip)).
  unfold slot. destruct (lookup_lt_is_Some_2 (i_addrs y) (Z.to_nat j)) as [a ->]; [|done].
  rewrite Hl. unfold naddrs. lia.
Qed.

(** Clearing the slot of a position in the inode. *)
Lemma trunc_clear s it ip P b V1 y :
  frep s sb (<[ip := y]> it) V1 ∅ ∅ X k -> is_Some (it !! ip) -> freed sb V x V1 P -> cleared y b -> 0 <= b <= 12 ->
  trunc_at it ip P (b + 1) (upd_i ip (i_set_addr b 0) s).
Proof.
  intros Hr Hip Hf Hc Hb. exists V1, (i_set_addr b 0 y). split; [|split; [done|by apply cleared_set]].
  pose proof (frep_it _ _ _ _ _ _ _ _ ip (i_set_addr b 0) Hr) as Hr'.
  by rewrite (alter_insert _ _ _ _ (trunc_it it ip y Hip)), list_insert_insert, decide_True in Hr' by done.
Qed.

Definition direct_to (b : Z) (p : pos) : Prop := exists j, p = PDir j /\ j < b.

Lemma itrunc_direct_ok s it ip :
  trunc_at it ip (direct_to 0) 0 s -> is_Some (it !! ip) ->
  exists s', itrunc_direct ip dev s = Ok tt s' /\ trunc_at it ip (direct_to NDIRECT) NDIRECT s'.
Proof.
  intros H0 Hip. unfold itrunc_direct. change (Z.to_nat NDIRECT) with 11%nat.
  apply (for_each_ok (fun i => trunc_at it ip (direct_to (Z.of_nat i)) (Z.of_nat i))); [|done].
  intros i s1 Hi (V1 & y & Hr & Hf & Hc). set (b := Z.of_nat i) in *.
  run (addr_slot _ _ _ _ _ b Hr Hip (cl_len _ _ Hc) ltac:(lia)).
  rewrite (cl_slot _ _ Hc b) by lia. rewrite decide_False by lia.
  replace (Z.of_nat (i + 1)) with (b + 1) by lia.
  assert (forall P, (forall p, P p <-> direct_to b p \/ p = PDir b) -> forall p, P p <-> direct_to (b + 1) p) as HP.
  { intros P HP p. rewrite HP. unfold direct_to. split.
    - intros [(j & -> & ?)| ->]; eexists; (split; [done|lia]).
    - intros (j & -> & ?). destruct (decide (j = b)) as [->|]; [by right|left]. exists j. split; [done|lia]. }
  destruct (Z.eqb_spec (slot x b) 0) as [E|E]; cbn [negb].
  - exists s1. split; [done|]. exists V1, y. split; [done|]. split; [|by apply cleared_skip; [lia|..]].
    eapply freed_iff; [done|]. intros p Hp Hz. rewrite <- (HP (fun p => direct_to b p \/ p = PDir b)) by done.
    split; [by left|]. intros [?| ->]; [done|]. by destruct Hz.
  - destruct (free_step s1 _ V1 ∅ (direct_to b) (PDir b) Hr Hf) as (s2 & V2 & E2 & Hr2 & Hf2);
      [by intros ? ? ?|rewrite map_size_empty; lia|cbn; unfold NDIRECT; lia|intros (j & [= ->] & ?); lia|done|].
    cbn [at_pos] in E2. run E2. eexists. split; [done|].
    eapply trunc_clear; [done|done| |done|lia]. eapply freed_iff; [done|]. intros p _ _. by apply HP.
Qed.
(** ** Index blocks *)

Lemma home_ok p q0 j : home p = inr (q0, j) -> pos_ok q0 -> 0 <= j < NINDIRECT -> pos_ok p.
Proof. destruct p; cbn; intros; simplify_eq; done. Qed.

(** All the blocks that the index block at [q0] lists are freed. *)
Lemma free_leaf s it H V1 bp q0 (child : Z -> pos) P :
  pos_ok q0 -> at_pos V x q0 <> 0 -> H !! bp = Some (at_pos V x q0) -> (size H <= 2)%nat ->
  (forall j, home (child j) = inr (q0, j)) -> ~ P q0 -> (forall j, ~ P (child j)) ->
  (forall i n, H !! i = Some n -> exists q, pos_ok q /\ n = at_pos V x q /\ n <> 0 /\ ~ P q /\ forall j, q <> child j) ->
  frep s sb it V1 H ∅ X k -> freed sb V x V1 P ->
  exists s' V2, free_entries bp (bfree dev) s = Ok tt s' /\ frep s' sb it V2 H ∅ X k /\
    freed sb V x V2 (fun p => P p \/ exists j, p = child j).
Proof.
  intros Hq Hz Hbp Hsz Hc HPq HPc Hh Hr Hf.
  assert (forall i j, child i = child j -> i = j) as Hinj.
  { intros i j E. pose proof (Hc i) as E1. rewrite E, Hc in E1. by simplify_eq. }
  assert (forall j, child j <> q0) as Hne.
  { intros j E. pose proof (Hc j) as E1. rewrite E in E1. by destruct q0. }
  set (Pf := fun (j : nat) p => P p \/ exists i, p = child i /\ 0 <= i < Z.of_nat j).
  destruct (free_entries_ok it H bp q0 child Pf (bfree dev)) with (s := s) (V1 := V1)
    as (s' & V2 & E & Hr2 & Hf2); try done.
  - intros j [?|(i & E & _)]; [done|]. by destruct (Hne i).
  - intros j s1 V2 Hj E0 Hr2 Hf2.
    destruct (free_step s1 it V2 H (Pf j) (child (Z.of_nat j)) Hr2 Hf2) as (s2 & V3 & E2 & Hr3 & Hf3).
    + intros i n Hi. destruct (Hh i n Hi) as (q & Hq1 & Hq2 & Hq3 & Hq4 & Hq5).
      exists q. split_and!; try done. intros [?|(i' & -> & _)]; [done|]. by apply (Hq5 i').
    + done.
    + eapply home_ok; [apply Hc|done|geo; lia].
    + intros [?|(i & E & ?)]; [by apply (HPc (Z.of_nat j))|]. apply Hinj in E. lia.
    + done.
    + exists s2, V3. split; [done|]. split; [done|]. eapply freed_iff; [done|]. intros p _ _. unfold Pf. split.
      * intros [[?|(i & -> & ?)]| ->]; [by left|right; eexists; (split; [done|lia])..].
      * intros [?|(i & -> & ?)]; [by left; left|]. destruct (decide (i = Z.of_nat j)) as [->|]; [by right|].
        left. right. exists i. split; [done|lia].
  - intros j V2 Hj E0 Hf2. eapply freed_iff; [done|]. intros p _ Hpz. unfold Pf. split.
    + intros [?|(i & -> & ?)]; [by left|right]. exists i. split; [done|lia].
    + intros [?|(i & -> & ?)]; [by left|right]. exists i. split; [done|].
      destruct (decide (i = Z.of_nat j)) as [->|]; [done|lia].
  - eapply freed_iff; [done|]. intros p _ _. unfold Pf. split; [by left|]. intros [?|(i & _ & ?)]; [done|lia].
  - exists s', V2. split; [done|]. split; [done|]. eapply freed_iff; [done|]. intros p Hp _. unfold Pf. split.
    + intros [?|(i & -> & _)]; eauto.
    + intros [?|(j & ->)]; [by left|right]. exists j. split; [done|].
      specialize (Hc j). destruct (child j); cbn in Hc; simplify_eq; cbn in Hp; geo; lia.
Qed.

Definition upto_single (p : pos) : Prop := match p with PDir _ | PInd | PIndE _ => True | _ => False end.

Lemma itrunc_single_ok s it ip :
  trunc_at it ip (direct_to NDIRECT) NDIRECT s -> is_Some (it !! ip) ->
  exists s', itrunc_single ip dev s = Ok tt s' /\ trunc_at it ip upto_single (NDIRECT + 1) s'.
Proof.
  intros (V1 & y & Hr & Hf & Hc) Hip. unfold itrunc_single. assert (NDIRECT = 11) as Hn by done.
  run (addr_slot _ _ _ _ _ NDIRECT Hr Hip (cl_len _ _ Hc) ltac:(lia)).
  rewrite (cl_slot _ _ Hc NDIRECT) by lia. rewrite decide_False by lia.
  change (slot x NDIRECT) with (at_pos V x PInd).
  destruct (Z.eqb_spec (at_pos V x PInd) 0) as [E|E]; cbn [negb].
  - exists s. split; [done|]. exists V1, y. split; [done|]. split; [|by apply cleared_skip; [lia|..]].
    eapply freed_iff; [done|]. intros p Hp Hz. unfold direct_to. destruct p; cbn [upto_single].
    + split; [done|]. intros _. eexists. split; [done|]. cbn in Hp. lia.
    + by destruct Hz.
    + destruct Hz. cbn [at_pos] in *. by rewrite E.
    + split; [|done]. by intros (? & ? & _).
    + split; [|done]. by intros (? & ? & _).
    + split; [|done]. by intros (? & ? & _).
  - destruct (bread_ok _ _ _ _ _ _ _ _ (at_pos V x PInd) Hr) as (bp & s1 & E1 & Hi & Hr1);
      [done|rewrite map_size_empty; lia|]. run E1.
    destruct (free_leaf s1 (<[ip := y]> it) (<[bp := at_pos V x PInd]> ∅) V1 bp PInd PIndE (direct_to NDIRECT))
      as (s2 & V2 & E2 & Hr2 & Hf2); try done.
    { by simplify_map_eq. }
    { apply size_single. }
    { by intros (? & ? & _). }
    { by intros j (? & ? & _). }
    { intros i n Hn'. apply lookup_insert_Some in Hn' as [[_ <-]|[_ ?]]; [|done].
      exists PInd. split_and!; try done. by intros (? & ? & _). }
    run E2. destruct (release_ok _ _ _ _ _ _ _ _ _ _ Hr2 Hi) as (s3 & E3 & Hr3); [set_solver|]. run E3.
    destruct (free_step s3 _ V2 ∅ _ PInd Hr3 Hf2) as (s4 & V4 & E4 & Hr4 & Hf4);
      [by intros ? ? ?|rewrite map_size_empty; lia|done|by intros [(? & ? & _)|(? & ?)]|done|].
    run E4. eexists. split; [done|]. eapply trunc_clear; [done|done| |done|lia].
    eapply freed_iff; [done|]. intros p Hp _. unfold direct_to. destruct p; cbn [upto_single]; split; try done; intros; eauto.
    + left. left. eexists. split; [done|]. cbn in Hp. lia.
    + by destruct_or!; destruct_and?; simplify_eq; naive_solver.
    + by naive_solver.
    + by naive_solver.
Qed.
(** The blocks below entry [j] of the double-indirect block. *)
Definition below (j : Z) (p : pos) : Prop := match p with PDblI i | PDblE i _ => i = j | _ => False end.
Definition upto_dbl (i : nat) (p : pos) : Prop := upto_single p \/ exists j, below j p /\ 0 <= j < Z.of_nat i.

Lemma below_S i p : upto_dbl i p \/ below (Z.of_nat i) p <-> upto_dbl (i + 1) p.
Proof.
  unfold upto_dbl. split.
  - intros [[?|(j & ? & ?)]|?]; [by left|right; exists j; (split; [done|lia])|right; exists (Z.of_nat i); split; [done|lia]].
  - intros [?|(j & Hb & ?)]; [by left; left|]. destruct (decide (j = Z.of_nat i)) as [->|]; [by right|].
    left. right. exists j. split; [done|lia].
Qed.

Lemma below_fresh i p : below (Z.of_nat i) p -> ~ upto_dbl i p.
Proof. intros Hb [?|(j & Hj & ?)]; destruct p; cbn in *; try done; lia. Qed.

Lemma free_subtree s it V1 bp i :
  (i < 256)%nat -> at_pos V x PDbl <> 0 -> at_pos V x (PDblI (Z.of_nat i)) <> 0 ->
  let H := <[bp := at_pos V x PDbl]> ∅ in
  frep s sb it V1 H ∅ X k -> freed sb V x V1 (upto_dbl i) ->
  exists s' V2, (bp2 <- tx (t_bread dev (at_pos V x (PDblI (Z.of_nat i))));; free_entries bp2 (bfree dev);;;
      tx (t_brelse bp2);;; bfree dev (at_pos V x (PDblI (Z.of_nat i)))) s = Ok tt s' /\
    frep s' sb it V2 H ∅ X k /\ freed sb V x V2 (upto_dbl (i + 1)).
Proof.
  intros Hi Hz Hz1 H Hr Hf. set (q := PDblI (Z.of_nat i)) in *.
  assert (pos_ok q) as Hq by (cbn; geo; lia).
  assert (~ upto_dbl i PDbl) as HnD by (by intros [?|(? & ? & _)]).
  destruct (bread_ok _ _ _ _ _ _ _ _ (at_pos V x q) Hr) as (b2 & s1 & E1 & Hb2 & Hr1).
  { intros j Hj. apply lookup_insert_Some in Hj as [[_ E]|[_ ?]]; [|done].
    by pose proof (fi_inj _ _ _ F PDbl q I Hq Hz E). }
  { apply size_single. }
  run E1. destruct (free_leaf s1 it (<[b2 := at_pos V x q]> H) V1 b2 q (PDblE (Z.of_nat i)) (upto_dbl i))
    as (s2 & V2 & E2 & Hr2 & Hf2); try done.
  { by simplify_map_eq. }
  { unfold H in *. rewrite map_size_insert_None by done. rewrite map_size_insert_None, map_size_empty by done. lia. }
  { by apply below_fresh. }
  { intros j. by apply below_fresh. }
  { intros j n Hn. apply lookup_insert_Some in Hn as [[_ <-]|[_ Hn]].
    - exists q. split_and!; try done. by apply below_fresh.
    - apply lookup_insert_Some in Hn as [[_ <-]|[_ ?]]; [|done]. by exists PDbl. }
  run E2. destruct (release_ok _ _ _ _ _ _ _ _ _ _ Hr2 Hb2) as (s3 & E3 & Hr3); [set_solver|]. run E3.
  destruct (free_step s3 it V2 H _ q Hr3 Hf2) as (s4 & V4 & E4 & Hr4 & Hf4); try done.
  { intros j n Hn. apply lookup_insert_Some in Hn as [[_ <-]|[_ ?]]; [|done].
    exists PDbl. split_and!; try done. by intros [?|(? & ?)]. }
  { apply size_single. }
  { intros [?|(? & ?)]; [|done]. by eapply (below_fresh i q). }
  exists s4, V4. split; [done|]. split; [done|]. eapply freed_iff; [done|]. intros p Hp _. rewrite <- below_S. split.
  - intros [[?|(j & ->)]| ->]; [by left|by right..].
  - intros [?|Hb]; [by left; left|]. destruct p; cbn in Hb; try done; subst; [by right|left; right; eauto].
Qed.

Lemma itrunc_double_ok s it ip :
  trunc_at it ip upto_single (NDIRECT + 1) s -> is_Some (it !! ip) ->
  exists s', itrunc_double ip dev s = Ok tt s' /\ trunc_at it ip (fun _ => True) (NDIRECT + 2) s'.
Proof.
  intros (V1 & y & Hr & Hf & Hc) Hip. unfold itrunc_double. assert (NDIRECT = 11) as Hn by done.
  run (addr_slot _ _ _ _ _ (NDIRECT + 1) Hr Hip (cl_len _ _ Hc) ltac:(lia)).
  rewrite (cl_slot _ _ Hc (NDIRECT + 1)) by lia. rewrite decide_False by lia.
  change (slot x (NDIRECT + 1)) with (at_pos V x PDbl). replace (NDIRECT + 2) with (NDIRECT + 1 + 1) by lia.
  destruct (Z.eqb_spec (at_pos V x PDbl) 0) as [E|E]; cbn [negb].
  - exists s. split; [done|]. exists V1, y. split; [done|]. split; [|by apply cleared_skip; [lia|..]].
    eapply freed_iff; [done|]. intros p Hp Hz. split; [done|]. intros _.
    destruct p; cbn [upto_single]; try done; destruct Hz; cbn [at_pos] in *; by rewrite E.
  - destruct (bread_ok _ _ _ _ _ _ _ _ (at_pos V x PDbl) Hr) as (bp & s1 & E1 & Hi & Hr1);
      [done|rewrite map_size_empty; lia|]. run E1.
    destruct (free_entries_ok (<[ip := y]> it) (<[bp := at_pos V x PDbl]> ∅) bp PDbl PDblI upto_dbl
      (fun a1 => bp2 <- tx (t_bread dev a1);; free_entries bp2 (bfree dev);;; tx (t_brelse bp2);;; bfree dev a1))
      with (s := s1) (V1 := V1) as (s2 & V2 & E2 & Hr2 & Hf2); try done.
    { by simplify_map_eq. }
    { by intros j [?|(? & ? & _)]. }
    { intros j s0 V0 Hj Hz Hr0 Hf0. by apply (free_subtree s0 (<[ip := y]> it) V0 bp j). }
    { intros j V0 Hj Hz Hf0. eapply freed_iff; [done|]. intros p _ Hpz. rewrite <- below_S. split; [by left|].
      intros [?|Hb]; [done|]. destruct Hpz. destruct p; cbn in Hb; try done; subst; [done|].
      cbn [at_pos] in *. by rewrite Hz. }
    { eapply freed_iff; [done|]. intros p _ _. unfold upto_dbl. split; [by left|]. intros [?|(j & _ & ?)]; [done|lia]. }
    run E2. destruct (release_ok _ _ _ _ _ _ _ _ _ _ Hr2 Hi) as (s3 & E3 & Hr3); [set_solver|]. run E3.
    destruct (free_step s3 _ V2 ∅ _ PDbl Hr3 Hf2) as (s4 & V4 & E4 & Hr4 & Hf4);
      [by intros ? ? ?|rewrite map_size_empty; lia|done|by intros [?|(? & ? & _)]|done|].
    run E4. eexists. split; [done|]. eapply trunc_clear; [done|done| |done|lia].
    eapply freed_iff; [done|]. intros p Hp _. split; [done|]. intros _. unfold upto_dbl.
    destruct p; cbn [upto_single]; try (by left; left); [by right| |]; left; right; cbn [pos_ok] in Hp; geo; eexists; (split; [reflexivity|lia]).
Qed.

(** The inode after truncation. *)
Definition truncated (y : inode) : Prop :=
  i_size y = 0 /\ i_addrs y = replicate naddrs 0 /\ i_dev y = i_dev x /\ i_inum y = i_inum x /\ i_ref y = i_ref x /\
  i_lock y = i_lock x /\ i_valid y = i_valid x /\ i_type y = i_type x /\ i_major y = i_major x /\
  i_minor y = i_minor x /\ i_nlink y = i_nlink x.

Lemma truncated_ok y : truncated y -> dinode_ok (i_to_disk x) -> dinode_ok (i_to_disk y).
Proof.
  intros (Hs & Ha & _ & _ & _ & _ & _ & Ht & Hmj & Hmn & Hn) []. split; cbn [i_to_disk dn_type dn_major dn_minor dn_nlink dn_size dn_addrs] in *;
    rewrite ?Hs, ?Ha, ?Ht, ?Hmj, ?Hmn, ?Hn; try done. by apply Forall_replicate.
Qed.

Lemma cleared_all y : cleared y 13 -> i_addrs y = replicate naddrs 0.
Proof.
  intros [Hl Hs _]. apply list_eq. intros i. destruct (decide (i < naddrs)%nat) as [Hi|Hi].
  - rewrite lookup_replicate_2 by done. unfold naddrs in *. specialize (Hs (Z.of_nat i) ltac:(lia)).
    rewrite decide_True in Hs by lia. unfold slot in Hs. rewrite Nat2Z.id in Hs.
    destruct (lookup_lt_is_Some_2 (i_addrs y) i) as [a Ha]; [lia|]. rewrite Ha in *. cbn in Hs. by f_equal.
  - rewrite !lookup_ge_None_2; [done|rewrite length_replicate; lia|lia].
Qed.

Lemma itrunc_ok s it ip :
  fok s sb it ip V x ∅ X k -> dinode_ok (i_to_disk x) -> 0 <= i_inum x < sb_ninodes sb -> IBLOCK (i_inum x) sb ∈ X ->
  exists s' V' y, itrunc ip s = Ok tt s' /\ frep s' sb (<[ip := y]> it) V' ∅ ∅ X k /\ truncated y /\
    inode_at sb V' (i_inum x) = i_to_disk y /\
    (forall n, 0 <= n < sb_size sb ->
      used sb V' n = true <-> used sb V n = true /\ (forall p, pos_ok p -> at_pos V x p <> 0 -> at_pos V x p <> n)) /\
    (forall n, ~ (sb_bmapstart sb <= n < dstart sb) -> n <> IBLOCK (i_inum x) sb -> V' n = V n).
Proof.
  intros Hf Hdi Hin HIX. pose proof Hf as [Hr Hip Hdev _ _ Hm]. unfold itrunc.
  run (inode_ok _ _ _ _ _ _ _ _ _ _ Hr Hip). rewrite Hdev.
  assert (is_Some (it !! ip)) as His by eauto. pose proof (ok_geom _ _ OK) as G.
  destruct (itrunc_direct_ok s it ip) as (s1 & E1 & H1); [|done|].
  { exists V, x. rewrite list_insert_id by done. split; [done|]. split; [|apply cleared_0].
    eapply freed_iff; [apply freed_refl|]. intros p Hp _. split; [done|]. intros (j & -> & ?). cbn in Hp. lia. }
  run E1. destruct (itrunc_single_ok s1 it ip H1 His) as (s2 & E2 & H2). run E2.
  destruct (itrunc_double_ok s2 it ip H2 His) as (s3 & E3 & V3 & y & Hr3 & Hf3 & Hc3). run E3. run1.
  pose proof (frep_it _ _ _ _ _ _ _ _ ip (i_set_size 0) Hr3) as Hr4.
  rewrite (alter_insert _ _ _ _ (trunc_it it ip y His)), list_insert_insert, decide_True in Hr4 by done.
  set (y' := i_set_size 0 y) in *. pose proof (cl_rest _ _ Hc3 []) as R. injection R as R1 R2 R3 R4 R5 R6 R7 R8 R9 R10.
  destruct (iupdate_ok _ sb _ V3 ∅ X k ip y' Hr4 G (trunc_it it ip y' His)) as (s5 & E5 & Hr5); cbn [y' i_set_size i_dev i_inum i_addrs];
    rewrite ?R1, ?R2; try done; [apply Hc3|rewrite map_size_empty; lia|].
  exists s5, (put_inode sb (i_inum x) (i_to_disk y') V3), y'. cbn [y' i_set_size i_inum] in Hr5. rewrite R2 in Hr5.
  assert (i_addrs y = replicate naddrs 0) as HA by (by apply cleared_all).
  destruct (IBLOCK_eq sb _ G Hin) as [_ HIB]. split; [done|]. split; [done|]. split; [by unfold truncated|]. split; [|split].
  - rewrite inode_at_put; [by rewrite decide_True|done| |done..|].
    { intros n. by eapply frep_blk. }
    apply (truncated_ok y'); [by unfold truncated|done].
  - intros n Hn. unfold put_inode, used. destruct (BBLOCK_eq sb n G Hn) as [_ ?]. rewrite fn_lookup_insert_ne by lia.
    fold (used sb V3 n). rewrite (fd_used _ _ _ _ _ Hf3) by done. split; intros [? HH]; (split; [done|]); intros p Hp; auto.
  - intros n Hn HnI. unfold put_inode. rewrite fn_lookup_insert_ne by done. by apply (fd_same _ _ _ _ _ Hf3).
Qed.
End trunc.
