(* ===== verification/FsDir.v ===== *)
(** * Directories: [dirlookup], [dirlink]

    A directory is a file of 16-byte entries.  [dent V x i] is entry [i]; an entry
    whose inode number is 0 is free.  Names are compared as strings of at most
    [DIRSIZ] bytes. *)

From S2P Require Import Prelude CString Bio LogSpec FsLayout TxnLayer Fs FsAlloc FsMap FsInode FsRw.

Definition dent (V : view) (x : inode) (i : Z) : dirent := dirent_get (fdata V x (16 * i) 16).
Definition nents (x : inode) : Z := i_size x / 16.

(** The string in a name field, which has no NUL when it is full. *)
Definition key (name : list byte) : list byte := cstr (take DIRSIZ name).

Definition is_entry (V : view) (x : inode) (name : list byte) (i : Z) : Prop :=
  de_inum (dent V x i) <> 0 /\ key name = key (de_name (dent V x i)).

Record dir_ok (V : view) (x : inode) : Prop := {
  d_type : i_type x = T_DIR;
  d_holes : no_holes V x;
  d_mod : i_size x mod 16 = 0;
  d_size : 0 <= i_size x <= MAXFILE * BSIZE
}.

(** Entry [i] is the first one for [name]; there is none. *)
Definition first_entry (V : view) (x : inode) (name : list byte) (i : Z) : Prop :=
  0 <= i < nents x /\ is_entry V x name i /\ forall j, 0 <= j < i -> ~ is_entry V x name j.
Definition no_entry (V : view) (x : inode) (name : list byte) : Prop :=
  forall j, 0 <= j < nents x -> ~ is_entry V x name j.

Lemma length_de_name V x i : length (de_name (dent V x i)) = DIRSIZ.
Proof. unfold dent, dirent_get. cbn [de_name]. apply length_slice. rewrite length_fdata. unfold DIRSIZ. lia. Qed.

Lemma de_inum_range V x i : 0 <= de_inum (dent V x i) < 2 ^ 16.
Proof. unfold dent, dirent_get. cbn [de_inum]. apply (rd_range 2 0). rewrite length_fdata. lia. Qed.

Lemma namecmp_dent V x i name :
  readable name DIRSIZ ->
  exists c, namecmp name (de_name (dent V x i)) = Some c /\ (c = 0 <-> key name = key (de_name (dent V x i))).
Proof. intros Hr. apply strncmp_zero; [done|]. left. by rewrite length_de_name. Qed.

Section dirs.
Context {T : Type} {TO : TxnOps T} {TL : TxnLaws T}.
Abbreviation dev := (t_dev (S := T)).

Lemma with_local_ok {W A} (m : M (fsst T * W) A) s (w : W) a s' w' :
  m (s, w) = Ok a (s', w') -> with_local w m s = Ok (a, w') s'.
Proof. intros E. unfold with_local. by rewrite E. Qed.

(** Reading an entry. *)
Lemma read_entry s sb it ip V x X k i :
  fok s sb it ip V x ∅ X k -> dir_ok V x -> 0 <= i < nents x ->
  exists s', with_local de0 (readi ip false 0 (16 * i) de_size) s = Ok (de_size, fdata V x (16 * i) 16) s' /\
  fok s' sb it ip V x ∅ X k.
Proof.
  intros Hf [Hty Hh Hm Hsz] Hi. unfold nents in Hi.
  destruct (readi_local s sb it ip V x X k (16 * i) de_size de0) as (s' & E & Hf'); try done; [lia|unfold de_size; dlia|].
  exists s'. split; [|done]. apply with_local_ok. exact E.
Qed.

Definition table_room (it : list inode) : Prop := exists i x, it !! i = Some x /\ i_ref x = 0.

Lemma table_room_upd it ip x y : table_room it -> it !! ip = Some x -> 0 < i_ref x -> table_room (<[ip := y]> it).
Proof.
  intros (i & z & Hz & H0) Hx Hp. exists i, z. split; [|done]. rewrite list_lookup_insert_ne; [done|].
  intros ->. rewrite Hx in Hz. injection Hz as <-. lia.
Qed.

Lemma iget_room s sb it V H M X k d inum :
  frep s sb it V H M X k -> table_room it ->
  exists ip s' it', iget d inum s = Ok ip s' /\ igot it it' d inum ip /\ frep s' sb it' V H M X k.
Proof.
  intros Hr (i & x & Hx & Hz). destruct (iget_ok _ _ _ _ _ _ _ _ d inum Hr) as [?|[_ Hfull]]; [done|].
  by destruct (Hfull i x Hx).
Qed.

Lemma dirlookup_loop_ok sb it ip V x X k name :
  dir_ok V x -> readable name DIRSIZ -> table_room it ->
  forall fuel i s, fok s sb it ip V x ∅ X k -> 0 <= i <= nents x -> nents x - i <= Z.of_nat fuel ->
  (forall j, 0 <= j < i -> ~ is_entry V x name j) ->
  exists r s', dirlookup_loop fuel ip name (16 * i) s = Ok r s' /\
  match r with
  | None => fok s' sb it ip V x ∅ X k /\ no_entry V x name
  | Some (off, ip') => exists j it', off = 16 * j /\ first_entry V x name j /\
      igot it it' dev (de_inum (dent V x j)) ip' /\ frep s' sb it' V ∅ ∅ X k
  end.
Proof.
  intros Hd Hn Hroom. pose proof Hd as [Hty Hh Hm Hsz].
  assert (i_size x = 16 * nents x) as Hsize by (unfold nents; dlia).
  assert (MAXFILE * BSIZE < 2 ^ 31) as Hlim by done.
  induction fuel as [|fuel IH]; intros i s Hf Hi Hfuel Hno; cbn [dirlookup_loop];
    run (inode_ok _ _ _ _ _ _ _ _ _ _ (fo_rep _ _ _ _ _ _ _ _ _ Hf) (fo_ip _ _ _ _ _ _ _ _ _ Hf));
    (destruct (Z.ltb_spec (16 * i) (i_size x)) as [Hlt|Hge];
      [|exists None, s; split; [done|]; split; [done|]; intros j Hj; apply Hno; lia]).
  { lia. }
  destruct (read_entry s sb it ip V x X k i Hf Hd) as (s1 & E1 & Hf1); [lia|]. run E1. cbn [fst snd].
  rewrite Z.eqb_refl. cbn [negb].
  assert (u32 (16 * i + de_size) = 16 * (i + 1)) as Hnext by (unfold de_size; rewrite u32_small; lia).
  assert (forall c, ~ is_entry V x name i -> c = 16 * (i + 1) -> exists r s', dirlookup_loop fuel ip name c s1 = Ok r s' /\
    match r with
    | None => fok s' sb it ip V x ∅ X k /\ no_entry V x name
    | Some (off, ip') => exists j it', off = 16 * j /\ first_entry V x name j /\
        igot it it' dev (de_inum (dent V x j)) ip' /\ frep s' sb it' V ∅ ∅ X k
    end) as Hskip.
  { intros c Hni ->. apply IH; [done|lia|lia|]. intros j Hj. destruct (decide (j = i)) as [->|]; [done|]. apply Hno. lia. }
  change (dirent_get (fdata V x (16 * i) 16)) with (dent V x i).
  destruct (Z.eqb_spec (de_inum (dent V x i)) 0) as [Hz|Hz]; [apply Hskip; [by intros [? _]|done]|].
  destruct (namecmp_dent V x i name Hn) as (c & Ec & Hc). rewrite Ec. run1.
  destruct (Z.eqb_spec c 0) as [H0|H0]; [|apply Hskip; [intros [_ Hk]; tauto|done]].
  rewrite (fo_dev _ _ _ _ _ _ _ _ _ Hf1).
  destruct (iget_room _ _ _ _ _ _ _ _ dev (de_inum (dent V x i)) (fo_rep _ _ _ _ _ _ _ _ _ Hf1) Hroom) as (ip' & s2 & it' & E2 & Hg & Hr2).
  run E2. exists (Some (16 * i, ip')), s2. split; [done|]. exists i, it'. split; [done|]. split; [|done].
  split; [lia|]. split; [|done]. split; [done|tauto].
Qed.

Lemma dirlookup_ok s sb it ip V x X k name :
  fok s sb it ip V x ∅ X k -> dir_ok V x -> readable name DIRSIZ -> table_room it ->
  exists r s', dirlookup ip name s = Ok r s' /\
  match r with
  | None => fok s' sb it ip V x ∅ X k /\ no_entry V x name
  | Some (off, ip') => exists j it', off = 16 * j /\ first_entry V x name j /\
      igot it it' dev (de_inum (dent V x j)) ip' /\ frep s' sb it' V ∅ ∅ X k
  end.
Proof.
  intros Hf Hd Hn Hroom. unfold dirlookup.
  run (inode_ok _ _ _ _ _ _ _ _ _ _ (fo_rep _ _ _ _ _ _ _ _ _ Hf) (fo_ip _ _ _ _ _ _ _ _ _ Hf)).
  rewrite (d_type _ _ Hd). cbn [negb Z.eqb]. pose proof (d_size _ _ Hd).
  apply (dirlookup_loop_ok sb it ip V x X k name Hd Hn Hroom _ 0 s Hf);
    [unfold nents; dlia|unfold dir_rounds, nents, de_size; dlia|lia].
Qed.
(** ** Releasing a reference that is not the last one to a dead inode *)

Lemma iput_ref s sb it V H M X k ip x :
  frep s sb it V H M X k -> it !! ip = Some x -> (i_ref x =? 1) && i_valid x && (i_nlink x =? 0) = false ->
  exists s', iput ip s = Ok tt s' /\ frep s' sb (<[ip := i_set_ref (i_ref x - 1) x]> it) V H M X k.
Proof.
  intros Hr Hx Hc. unfold iput. run (inode_ok _ _ _ _ _ _ _ _ _ _ Hr Hx). rewrite Hc. run1.
  eexists. split; [done|]. pose proof (frep_it _ _ _ _ _ _ _ _ ip (fun x => i_set_ref (i_ref x - 1) x) Hr) as Hr'.
  by rewrite (alter_insert _ _ _ _ Hx) in Hr'.
Qed.

(** A reference from [iget] can be given back: it is not the last one, or the
    entry has not been read. *)
Lemma iput_igot s sb it it' V H M X k d inum ip :
  itable_ok it -> igot it it' d inum ip -> frep s sb it' V H M X k ->
  exists s' it'', iput ip s = Ok tt s' /\ frep s' sb it'' V H M X k /\
    (forall j, j <> ip -> it'' !! j = it !! j) /\
    (forall y, it !! ip = Some y -> 0 < i_ref y -> it'' !! ip = Some y).
Proof.
  intros Hok (x & Hx & [(Hd & ->)|(Hz & Hno & ->)]) Hr; pose proof (lookup_lt_Some _ _ _ Hx) as Hlt.
  - destruct (iput_ref s sb _ V H M X k ip _ Hr (list_lookup_insert_eq _ _ _ Hlt)) as (s' & E & Hr').
    { cbn. destruct Hd as [? _]. destruct (Z.eqb_spec (i_ref x + 1) 1); [lia|done]. }
    rewrite list_insert_insert, decide_True in Hr' by done.
    eexists s', _. split; [done|]. split; [exact Hr'|]. split; [intros; by rewrite list_lookup_insert_ne|].
    intros y Hy _. rewrite list_lookup_insert_eq by done. rewrite Hx in Hy. injection Hy as <-.
    f_equal. destruct x. cbn. unfold i_set_ref. cbn. f_equal. lia.
  - destruct (iput_ref s sb _ V H M X k ip _ Hr (list_lookup_insert_eq _ _ _ Hlt)) as (s' & E & Hr'); [done|].
    rewrite list_insert_insert, decide_True in Hr' by done.
    eexists s', _. split; [done|]. split; [exact Hr'|]. split; [intros; by rewrite list_lookup_insert_ne|].
    intros y Hy Hp. rewrite Hx in Hy. injection Hy as <-. lia.
Qed.

(** ** Adding an entry *)

(** The slot [dirlink] uses: the first free entry, or the end. *)
Definition free_entry (V : view) (x : inode) (e : Z) : Prop :=
  0 <= e <= nents x /\ (forall j, 0 <= j < e -> de_inum (dent V x j) <> 0) /\
  (e < nents x -> de_inum (dent V x e) = 0).

Lemma dirlink_loop_ok sb it ip V x X k :
  dir_ok V x ->
  forall fuel i s, fok s sb it ip V x ∅ X k -> 0 <= i <= nents x -> nents x - i <= Z.of_nat fuel ->
  (forall j, 0 <= j < i -> de_inum (dent V x j) <> 0) ->
  exists e s', dirlink_loop fuel ip (16 * i) s = Ok (16 * e) s' /\ fok s' sb it ip V x ∅ X k /\ free_entry V x e.
Proof.
  intros Hd. pose proof Hd as [Hty Hh Hm Hsz].
  assert (i_size x = 16 * nents x) as Hsize by (unfold nents; dlia).
  assert (MAXFILE * BSIZE < 2 ^ 31) as Hlim by done.
  induction fuel as [|fuel IH]; intros i s Hf Hi Hfuel Hno; cbn [dirlink_loop];
    run (inode_ok _ _ _ _ _ _ _ _ _ _ (fo_rep _ _ _ _ _ _ _ _ _ Hf) (fo_ip _ _ _ _ _ _ _ _ _ Hf));
    (destruct (Z.ltb_spec (16 * i) (i_size x)) as [Hlt|Hge];
      [|exists i, s; split; [done|]; split; [done|]; split; [lia|]; split; [done|lia]]).
  { lia. }
  destruct (read_entry s sb it ip V x X k i Hf Hd) as (s1 & E1 & Hf1); [lia|]. run E1. cbn [fst snd].
  rewrite Z.eqb_refl. cbn [negb]. change (dirent_get (fdata V x (16 * i) 16)) with (dent V x i).
  destruct (Z.eqb_spec (de_inum (dent V x i)) 0) as [Hz|Hz].
  { exists i, s1. split; [done|]. split; [done|]. split; [lia|]. done. }
  assert (u32 (16 * i + de_size) = 16 * (i + 1)) as -> by (unfold de_size; rewrite u32_small; lia).
  apply IH; [done|lia|lia|]. intros j Hj. destruct (decide (j = i)) as [->|]; [done|]. apply Hno. lia.
Qed.

Lemma fdata_ext V x V' x' off off' n :
  (forall i, 0 <= i < Z.of_nat n -> fbyte V' x' (off + i) = fbyte V x (off' + i)) -> fdata V' x' off n = fdata V x off' n.
Proof.
  intros H. unfold fdata. apply list_eq. intros i. rewrite !list_lookup_fmap.
  destruct (decide (i < n)%nat) as [Hi|Hi]; [|by rewrite !lookup_seq_ge by lia].
  rewrite !lookup_seq_lt by done. cbn. f_equal. apply H. lia.
Qed.

Lemma fdata_list V x off (bs : list byte) :
  (forall i, 0 <= i < Z.of_nat (length bs) -> fbyte V x (off + i) = list_fun bs i) -> fdata V x off (length bs) = bs.
Proof.
  intros H. unfold fdata. apply list_eq. intros i. rewrite !list_lookup_fmap.
  destruct (decide (i < length bs)%nat) as [Hi|Hi].
  - rewrite !lookup_seq_lt by done. cbn. rewrite H by lia. unfold list_fun. rewrite Nat2Z.id.
    by destruct (lookup_lt_is_Some_2 bs i) as [b ->].
  - rewrite !lookup_seq_ge by lia. symmetry. apply lookup_ge_None. lia.
Qed.

(** A directory after an entry has been stored in slot [e]. *)
Record linked (V : view) (x : inode) (V' : view) (x' : inode) (e : Z) (de : dirent) : Prop := {
  lk_dir : dir_ok V' x';
  lk_nents : nents x' = Z.max (nents x) (e + 1);
  lk_new : dent V' x' e = de;
  lk_old j : 0 <= j < nents x -> j <> e -> dent V' x' j = dent V x j
}.

Lemma wrote_linked sb V x V' x' e de :
  dir_ok V x -> 0 <= e <= nents x -> 16 * e + 16 <= MAXFILE * BSIZE -> 0 <= de_inum de < 2 ^ 16 -> length (de_name de) = DIRSIZ ->
  wrote sb (list_fun (dirent_bytes de)) (16 * e) 16 V x V' x' -> linked V x V' x' e de.
Proof.
  intros [Hty Hh Hm Hsz] He Hmax Hi Hl [Wz Wi Wo Wh Wd Wf Wu Wr].
  assert (length (dirent_bytes de) = 16%nat) as Hlen.
  { unfold dirent_bytes. rewrite length_app, length_le_enc, Hl. done. }
  unfold nents in *. split.
  - split; [|done|dlia|lia]. destruct Wr as (_ & -> & _). done.
  - unfold nents. rewrite Wz. replace (Z.max (i_size x) (16 * e + 16)) with (Z.max (i_size x / 16) (e + 1) * 16) by dlia.
    by apply Z.div_mul.
  - unfold dent. rewrite <- Hlen at 1. rewrite (fdata_list V' x' (16 * e) (dirent_bytes de)); [by apply dirent_round|].
    intros i Hir. rewrite Wi by lia. f_equal. lia.
  - intros j Hj Hne. unfold nents in Hj. unfold dent. f_equal. apply fdata_ext. intros i Hir. apply Wo; [dlia|lia].
Qed.
(** The entries of the directory after the store. *)
Lemma linked_entries V x V' x' e name inum :
  free_entry V x e -> linked V x V' x' e (mkDirent (u16 inum) (name_field name DIRSIZ)) -> 0 < inum < 2 ^ 16 ->
  (forall n j, 0 <= j < nents x' -> is_entry V' x' n j <->
     j = e /\ key n = key name \/ j <> e /\ 0 <= j < nents x /\ is_entry V x n j) /\
  (no_entry V x name -> first_entry V' x' name e).
Proof.
  intros (He & Hful & _) [Ld Ln Lnew Lold] Hi.
  assert (u16 inum <> 0) as Hnz by (unfold u16; rewrite Z.mod_small; lia).
  assert (key (name_field name DIRSIZ) = key name) as Hk.
  { unfold key. rewrite take_ge by (by rewrite length_name_field). apply cstr_name_field. }
  assert (forall n j, 0 <= j < nents x' -> is_entry V' x' n j <->
     j = e /\ key n = key name \/ j <> e /\ 0 <= j < nents x /\ is_entry V x n j) as Hent.
  { intros n j Hj. unfold is_entry. destruct (decide (j = e)) as [->|Hne].
    - rewrite Lnew. cbn [de_inum de_name]. rewrite Hk. split; [intros [_ ?]; by left|].
      intros [[_ ?]|[? _]]; [by split|done].
    - assert (0 <= j < nents x) as Hjx by lia. rewrite Lold by done. split; [intros; by right|].
      by intros [[? _]|(_ & _ & ?)]. }
  split; [done|]. intros Hno. split; [lia|]. split.
  - apply Hent; [lia|]. by left.
  - intros j Hj [[? _]|(_ & Hjx & Hje)]%Hent; [lia|by apply (Hno j)|lia].
Qed.

Lemma first_entry_fun V x name i j : first_entry V x name i -> first_entry V x name j -> i = j.
Proof.
  intros (Hi & Ei & Fi) (Hj & Ej & Fj). destruct (Z.lt_trichotomy i j) as [H|[H|H]]; [|done|].
  - by destruct (Fj i ltac:(lia)).
  - by destruct (Fi j ltac:(lia)).
Qed.

Lemma name_copy name : readable name DIRSIZ ->
  KString.strncpy (replicate DIRSIZ x00) name DIRSIZ = Some (name_field name DIRSIZ).
Proof.
  intros Hn. rewrite strncpy_eq by (done || by rewrite length_replicate).
  rewrite drop_ge by (by rewrite length_replicate). by rewrite app_nil_r.
Qed.

(** [dirlink] of a name that is there changes nothing and fails. *)
Lemma dirlink_present s sb it ip V x X k name inum i :
  fok s sb it ip V x ∅ X k -> itable_ok it -> dir_ok V x -> readable name DIRSIZ -> table_room it ->
  0 <= i < nents x -> is_entry V x name i ->
  exists s' it', dirlink ip name inum s = Ok (-1) s' /\ frep s' sb it' V ∅ ∅ X k /\
    (forall j y, it !! j = Some y -> 0 < i_ref y -> it' !! j = Some y).
Proof.
  intros Hf Hit Hd Hn Hroom Hi He. unfold dirlink.
  destruct (dirlookup_ok s sb it ip V x X k name Hf Hd Hn Hroom) as ([[off ip']|] & s1 & E1 & Hpost); run E1.
  - destruct Hpost as (j & it' & _ & _ & Hg & Hr1).
    destruct (iput_igot s1 sb it it' V ∅ ∅ X k _ _ ip' Hit Hg Hr1) as (s2 & it2 & E2 & Hr2 & Hsame & Hip). run E2.
    exists s2, it2. split; [done|]. split; [done|]. intros j' y Hy Hp.
    destruct (decide (j' = ip')) as [->|]; [by apply Hip|by rewrite Hsame].
  - destruct Hpost as [_ Hno]. by destruct (Hno i Hi).
Qed.

Lemma dirlink_absent s sb it ip V x X k name inum :
  fok s sb it ip V x ∅ X (3 + k) -> dir_ok V x -> readable name DIRSIZ -> table_room it -> no_entry V x name ->
  dinode_ok (i_to_disk x) -> 0 <= i_inum x < sb_ninodes sb -> IBLOCK (i_inum x) sb ∈ X ->
  (forall e, free_entry V x e -> 16 * e + 16 <= MAXFILE * BSIZE /\ paths_in V x (16 * e) 16 X /\ room_blocks sb V (16 * e) 16 1) ->
  exists e r s' V' x' X', free_entry V x e /\ dirlink ip name inum s = Ok r s' /\
    fok s' sb (<[ip := x']> it) ip V' x' ∅ X' k /\
    (r = 0 /\ linked V x V' x' e (mkDirent (u16 inum) (name_field name DIRSIZ)) \/ r = -1 /\ full sb V').
Proof.
  intros Hf Hd Hn Hroom Hno Hdi Hin HIX Hpre. unfold dirlink. pose proof Hd as [Hty Hh Hm Hsz].
  destruct (dirlookup_ok s sb it ip V x X (3 + k) name Hf Hd Hn Hroom) as ([[off ip']|] & s1 & E1 & Hpost); run E1.
  { destruct Hpost as (j & it' & _ & (Hj & Hje & _) & _). by destruct (Hno j Hj). }
  destruct Hpost as [Hf1 _].
  run (inode_ok _ _ _ _ _ _ _ _ _ _ (fo_rep _ _ _ _ _ _ _ _ _ Hf1) (fo_ip _ _ _ _ _ _ _ _ _ Hf1)).
  destruct (dirlink_loop_ok sb it ip V x X (3 + k) Hd (dir_rounds (i_size x)) 0 s1 Hf1) as (e & s2 & E2 & Hf2 & He);
    [unfold nents; dlia|unfold dir_rounds, nents, de_size; dlia|lia|]. run E2.
  destruct (Hpre e He) as (Hmax & HP & Hrb). rewrite name_copy by done. run1.
  set (de := mkDirent (u16 inum) (name_field name DIRSIZ)).
  assert (length (dirent_bytes de) = 16%nat) as Hlen.
  { unfold dirent_bytes. rewrite length_app, length_le_enc. cbn [de de_name]. by rewrite length_name_field. }
  assert (16 * e <= i_size x) as Hes by (destruct He as [He _]; unfold nents in He; dlia).
  destruct (writei_ok s2 sb it ip V x X k 1 (fun _ w => w = dirent_bytes de) false 0 (16 * e) de_size (list_fun (dirent_bytes de)) (dirent_bytes de))
    as (r & s3 & w' & V' & x' & X' & E3 & Hf3 & HX & HW & Hr & _ & Hend); try done; try (unfold de_size; geo; destruct He; dlia).
  { apply local_in; [rewrite Hlen; unfold de_size; lia|done]. }
  erewrite bind_ok by (apply with_local_ok; exact E3). cbn [fst snd].
  exists e. destruct (Z.eqb_spec r de_size) as [->|Hne]; cbn [negb].
  - exists 0, s3, V', x', X'. split; [done|]. split; [done|]. split; [done|]. left. split; [done|].
    eapply wrote_linked; [done|apply He|done| |apply length_name_field|done]. cbn. unfold u16. apply Z.mod_pos_bound. lia.
  - exists (-1), s3, V', x', X'. split; [done|]. split; [done|]. split; [done|]. right. split; [done|].
    by destruct Hend as [?|?].
Qed.
End dirs.
