(* ===== verification/FsPath.v ===== *)
(** * Path names: [skipelem], [namex]

    [elems] splits a path at its slashes; iterating [skipelem] enumerates these
    elements.  [walk] follows them from an inode number through the directories
    on the disk; [namei] and [nameiparent] return the inode that [walk] finds. *)

From S2P Require Import Prelude CString Bio LogSpec FsLayout TxnLayer Fs FsAlloc FsMap FsInode FsRw FsDir.

(** ** Elements of a path *)

Fixpoint splits (cur p : list byte) : list (list byte) :=
  match p with
  | [] => [cur]
  | c :: p =>
      if bool_decide (c = x00) then [cur]
      else if bool_decide (c = slash) then cur :: splits [] p
      else splits (cur ++ [c]) p
  end.

Definition elems (p : list byte) : list (list byte) := filter (fun e => e <> []) (splits [] p).

Lemma elems_slash p : elems (slash :: p) = elems p.
Proof. unfold elems. cbn [splits]. by rewrite bool_decide_false, bool_decide_true by done. Qed.

Lemma elems_skip p : elems (skip_slashes p) = elems p.
Proof.
  induction p as [|c p IH]; [done|]. cbn [skip_slashes]. case_bool_decide as E; [|done].
  subst. by rewrite elems_slash.
Qed.

Lemma skip_slashes_head p c r : skip_slashes p = c :: r -> c <> slash.
Proof. induction p as [|a p IH]; cbn [skip_slashes]; [done|]. case_bool_decide; [done|]. by intros [= -> ->]. Qed.

Lemma skip_slashes_nul p : x00 ∈ p -> x00 ∈ skip_slashes p.
Proof.
  induction p as [|c p IH]; [done|]. cbn [skip_slashes]. case_bool_decide as E; [|done].
  subst. rewrite elem_of_cons. intros [?|?]; [done|auto].
Qed.

Lemma skip_slashes_length p : (length (skip_slashes p) <= length p)%nat.
Proof. induction p as [|c p IH]; [done|]. cbn [skip_slashes]. case_bool_decide; cbn; lia. Qed.

Lemma elem_spec p : forall cur e rest,
  elem_of_path p = (e, rest) -> x00 ∈ p ->
  splits cur p = splits (cur ++ e) rest /\ ~ x00 ∈ e /\ ~ slash ∈ e /\ x00 ∈ rest /\ p = e ++ rest /\
  (exists r, rest = slash :: r \/ rest = x00 :: r).
Proof.
  induction p as [|c p IH]; intros cur e rest; cbn [elem_of_path]; [by intros _ ?%not_elem_of_nil|].
  destruct (decide (c = slash)) as [->|Hs].
  { cbn. intros [= <- <-] Hin. rewrite app_nil_r. split_and!; try done; try apply not_elem_of_nil. eauto. }
  destruct (decide (c = x00)) as [->|Hz].
  { cbn. intros [= <- <-] Hin. rewrite app_nil_r. split_and!; try done; try apply not_elem_of_nil. eauto. }
  rewrite (bool_decide_true (c <> slash)), (bool_decide_true (c <> x00)) by done. cbn [andb].
  intros [= <- <-] Hin. apply elem_of_cons in Hin as [?|Hin]; [done|].
  destruct (elem_of_path p) as [e' rest'] eqn:Ep. cbn [fst snd].
  destruct (IH (cur ++ [c]) e' rest' eq_refl Hin) as (H1 & H2 & H3 & H4 & H5 & H6).
  split_and!; [| | |done|by rewrite H5|done].
  - cbn [splits]. rewrite !bool_decide_false by done. rewrite H1, <- app_assoc. done.
  - rewrite elem_of_cons. intros [?|?]; congruence || done.
  - rewrite elem_of_cons. intros [?|?]; congruence || done.
Qed.

(** A path element as [skipelem] leaves it in [name]: cut to [DIRSIZ] bytes. *)
Lemma key_name name s :
  length name = DIRSIZ -> x00 ∉ s ->
  let n := if (DIRSIZ <=? length s)%nat then splice name 0 (take DIRSIZ s)
           else <[length s := x00]> (splice name 0 s) in
  length n = DIRSIZ /\ key n = take DIRSIZ s.
Proof.
  intros Hl Hs n. unfold n, key. destruct (Nat.leb_spec DIRSIZ (length s)) as [H|H].
  - assert (splice name 0 (take DIRSIZ s) = take DIRSIZ s) as ->.
    { unfold splice. rewrite take_0, length_take_le, drop_ge by lia. cbn. by rewrite app_nil_r. }
    rewrite length_take_le by lia. split; [done|]. rewrite take_take, Nat.min_id. apply cstr_clean.
    intros Hin%elem_of_take. destruct Hin as (i & Hi & _). apply Hs. by eapply list_elem_of_lookup_2.
  - rewrite length_insert, length_splice by lia. split; [done|].
    rewrite (take_ge s) by lia. rewrite take_ge by (rewrite length_insert, length_splice; lia).
    unfold splice. rewrite take_0. cbn [app Nat.add].
    rewrite insert_app_r_alt by lia. rewrite Nat.sub_diag.
    destruct (drop (length s) name) as [|b r] eqn:Ed; [apply (f_equal length) in Ed; rewrite length_drop in Ed; cbn in Ed; lia|].
    cbn [insert list_insert]. by apply cstr_app_nul.
Qed.

Lemma skipelem_ok path name :
  x00 ∈ path -> length name = DIRSIZ ->
  match skipelem path name with
  | None => elems path = []
  | Some (rest, name') => exists e, elems path = e :: elems rest /\ e <> [] /\ ~ x00 ∈ e /\ ~ slash ∈ e /\
      x00 ∈ rest /\ (length rest < length path)%nat /\ length name' = DIRSIZ /\ key name' = take DIRSIZ e /\
      (rest !! 0%nat = Some x00 <-> elems rest = [])
  end.
Proof.
  intros Hp Hl. unfold skipelem. pose proof (skip_slashes_nul path Hp) as Hn.
  pose proof (elems_skip path) as He. pose proof (skip_slashes_length path) as Hlen.
  destruct (skip_slashes path) as [|c p] eqn:Es; [by apply not_elem_of_nil in Hn|].
  pose proof (skip_slashes_head _ _ _ Es) as Hc. case_bool_decide as E0.
  { subst. rewrite <- He. unfold elems. cbn [splits]. by rewrite bool_decide_true. }
  destruct (elem_of_path (c :: p)) as [s rest] eqn:Ee.
  destruct (elem_spec (c :: p) [] s rest Ee Hn) as (H1 & H2 & H3 & H4 & H5 & r & Hr).
  assert (s <> []) as Hne.
  { intros ->. destruct Hr as [-> | ->]; cbn in H5; congruence. }
  exists s. rewrite <- He. assert (elems (c :: p) = s :: elems (skip_slashes rest)) as Hel.
  { rewrite elems_skip. unfold elems. rewrite H1, app_nil_l.
    destruct Hr as [-> | ->]; cbn [splits].
    - rewrite (bool_decide_false (slash = x00)), !(bool_decide_true (slash = slash)) by done.
      by rewrite !filter_cons_True, filter_cons_False by (done || tauto).
    - rewrite !(bool_decide_true (x00 = x00)) by done. by rewrite filter_cons_True. }
  destruct (key_name name s Hl H2) as [Hk1 Hk2].
  split_and!; try done.
  - by apply skip_slashes_nul.
  - pose proof (skip_slashes_length rest). rewrite H5, length_app in Hlen. destruct s; [done|]. cbn in Hlen. lia.
  - pose proof (skip_slashes_nul rest H4) as Hn'. pose proof (fun c r => skip_slashes_head rest c r) as Hh.
    destruct (skip_slashes rest) as [|d q] eqn:Eq; [by apply not_elem_of_nil in Hn'|].
    change ((d :: q) !! 0%nat) with (Some d). split.
    + intros [= ->]. unfold elems. cbn [splits]. by rewrite bool_decide_true.
    + intros Hnil. destruct (decide (d = x00)) as [->|Hd]; [done|]. exfalso.
      pose proof (Hh d q eq_refl) as Hds. destruct (elem_of_path (d :: q)) as [e2 r2] eqn:E2.
      destruct (elem_spec (d :: q) [] e2 r2 E2 Hn') as (G1 & _ & _ & _ & G5 & r' & Gr).
      unfold elems in Hnil. rewrite G1, app_nil_l in Hnil.
      assert (e2 <> []) by (intros ->; destruct Gr as [-> | ->]; cbn in G5; congruence).
      destruct Gr as [-> | ->]; cbn [splits] in Hnil.
      * rewrite bool_decide_false, bool_decide_true, filter_cons_True in Hnil by done. done.
      * rewrite bool_decide_true, filter_cons_True in Hnil by done. done.
Qed.
