(* ===== verification/FsNamex.v ===== *)
(** * Path resolution: [namex], [namei], [nameiparent]

    [resolves] follows the elements of a path from an inode number through the
    directories on the disk.  The loop of [namex] computes it with the inode
    table: it locks one directory at a time, keeps a reference to the inode it is
    at, and gives every other reference back. *)

From S2P Require Import Prelude CString Bio LogSpec FsLayout TxnLayer Fs FsAlloc FsMap FsInode FsRw FsDir FsPath.

(** ** Sums over the table *)

Definition tsum (w : inode -> Z) (it : list inode) : Z := foldr (fun x n => w x + n) 0 it.

Lemma tsum_insert w it ip x y : it !! ip = Some x -> tsum w (<[ip := y]> it) = tsum w it - w x + w y.
Proof.
  revert ip. induction it as [|z it IH]; intros [|ip] Hx; try done.
  - injection Hx as ->. cbn. lia.
  - change (<[S ip := y]> (z :: it)) with (z :: <[ip := y]> it). cbn [tsum foldr].
    change (foldr (fun x n => w x + n) 0 (<[ip := y]> it)) with (tsum w (<[ip := y]> it)).
    rewrite (IH ip Hx). unfold tsum. lia.
Qed.

(** References to an inode, and entries without references. *)
Definition w_ref (d i : Z) (x : inode) : Z := if (i_dev x =? d) && (i_inum x =? i) then i_ref x else 0.
Definition w_free (x : inode) : Z := if i_ref x =? 0 then 1 else 0.
Definition refs (it : list inode) (d i : Z) : Z := tsum (w_ref d i) it.
Definition nfree (it : list inode) : Z := tsum w_free it.

Lemma nfree_room it : 0 < nfree it -> table_room it.
Proof.
  induction it as [|x it IH]; cbn; [lia|]. unfold w_free at 1.
  destruct (Z.eqb_spec (i_ref x) 0) as [E|E]; [by exists 0%nat, x|].
  intros H. destruct IH as (i & y & Hy & Hz); [unfold nfree, tsum; lia|]. by exists (S i), y.
Qed.

(** ** The file system on the disk *)

(** An inode on the disk as an entry of the table. *)
Definition din (sb : superblock) (V : view) (i : Z) : inode := i_from_disk (inode_at sb V i) inode0.

Definition live (sb : superblock) (V : view) (i : Z) : Prop :=
  0 <= i < sb_ninodes sb /\ dn_type (inode_at sb V i) <> 0.

Record fs_good (sb : superblock) (V : view) : Prop := {
  fg_file i : live sb V i -> finv sb V (din sb V i);
  fg_dir i : live sb V i -> dn_type (inode_at sb V i) = T_DIR -> dir_ok V (din sb V i);
  fg_entry i j : live sb V i -> dn_type (inode_at sb V i) = T_DIR -> 0 <= j < nents (din sb V i) ->
    de_inum (dent V (din sb V i) j) <> 0 ->
    live sb V (de_inum (dent V (din sb V i) j)) /\ dn_nlink (inode_at sb V (de_inum (dent V (din sb V i) j))) <> 0
}.

Inductive resolves (sb : superblock) (V : view) (parent : bool) : Z -> list (list byte) -> option Z -> Prop :=
  | rs_end i : resolves sb V parent i [] (if parent then None else Some i)
  | rs_notdir i e es : dn_type (inode_at sb V i) <> T_DIR -> resolves sb V parent i (e :: es) None
  | rs_parent i e : parent = true -> dn_type (inode_at sb V i) = T_DIR -> resolves sb V parent i [e] (Some i)
  | rs_none i e es : dn_type (inode_at sb V i) = T_DIR -> parent && bool_decide (es = []) = false ->
      no_entry V (din sb V i) e -> resolves sb V parent i (e :: es) None
  | rs_step i e es j r : dn_type (inode_at sb V i) = T_DIR -> parent && bool_decide (es = []) = false ->
      first_entry V (din sb V i) e j -> resolves sb V parent (de_inum (dent V (din sb V i) j)) es r ->
      resolves sb V parent i (e :: es) r.

(** ** Facts that depend on some fields of an inode only *)

Lemma at_pos_addrs V x y p : i_addrs x = i_addrs y -> at_pos V x p = at_pos V y p.
Proof. intros E. destruct p; cbn [at_pos]; unfold slot; by rewrite E. Qed.

Lemma finv_addrs_eq sb V x y : i_addrs x = i_addrs y -> finv sb V x -> finv sb V y.
Proof.
  intros E [Hl Hu Hi]. split; [congruence|..].
  - intros p Hp. rewrite <- (at_pos_addrs V x y p E). by apply Hu.
  - intros p q Hp Hq. rewrite <- !(at_pos_addrs V x y) by done. by apply Hi.
Qed.

Lemma dent_addrs V x y j : i_addrs x = i_addrs y -> dent V x j = dent V y j.
Proof.
  intros E. unfold dent. f_equal. apply fdata_ext. intros i Hi. unfold fbyte. by rewrite (at_pos_addrs V x y).
Qed.

Record same_file (x y : inode) : Prop := {
  sf_addrs : i_addrs x = i_addrs y; sf_size : i_size x = i_size y; sf_type : i_type x = i_type y
}.

Lemma dir_ok_same V x y : same_file x y -> dir_ok V x -> dir_ok V y.
Proof.
  intros [Ea Es Et] [Ht Hh Hm Hs]. split; rewrite <- ?Es, <- ?Et; try done.
  intros bn H1 H2. rewrite <- (at_pos_addrs V x y _ Ea). apply Hh; [done|]. by rewrite Es.
Qed.

Lemma entry_same_file V x y name j : same_file x y -> is_entry V x name j <-> is_entry V y name j.
Proof. intros [Ea _ _]. unfold is_entry. by rewrite (dent_addrs V x y j Ea). Qed.

Lemma first_entry_same V x y n n' j :
  same_file x y -> key n = key n' -> first_entry V x n j -> first_entry V y n' j.
Proof.
  intros Hs Hk (Hj & He & Hno). unfold first_entry, nents in *. rewrite <- (sf_size _ _ Hs).
  split; [done|]. split.
  - apply (proj1 (entry_same_file V x y n' j Hs)). destruct He as [? ?]. split; [done|]. by rewrite <- Hk.
  - intros i Hi [H1 H2]. apply (Hno i Hi). apply (proj2 (entry_same_file V x y n i Hs)). split; [done|]. by rewrite Hk.
Qed.

Lemma no_entry_same V x y n n' : same_file x y -> key n = key n' -> no_entry V x n -> no_entry V y n'.
Proof.
  intros Hs Hk Hno j Hj [H1 H2]. unfold nents in *. rewrite <- (sf_size _ _ Hs) in Hj.
  apply (Hno j Hj). apply (proj2 (entry_same_file V x y n j Hs)). split; [done|]. by rewrite Hk.
Qed.

Section namex.
Context {T : Type} {TO : TxnOps T} {TL : TxnLaws T}.
Abbreviation dev := (t_dev (S := T)).
Variables (sb : superblock) (V : view) (X : gset Z) (k : nat).
Hypothesis OK : fsok sb X.
Hypothesis META : meta_used sb V.
Hypothesis GOOD : fs_good sb V.

(** The table between system calls: no entry is locked, and those in use agree
    with the disk. *)
Record tab_ok (it : list inode) : Prop := {
  tb_table : itable_ok it;
  tb_lock ip x : it !! ip = Some x -> i_lock x = false;
  tb_entry ip x : it !! ip = Some x -> 0 < i_ref x ->
    i_dev x = dev /\ live sb V (i_inum x) /\ (i_valid x = true -> i_to_disk x = inode_at sb V (i_inum x))
}.

(** An entry that [ilock] has locked and, if necessary, read. *)
Definition loaded (x : inode) : inode :=
  if i_valid x then i_set_lock true x
  else i_set_valid true (i_from_disk (inode_at sb V (i_inum x)) (i_set_lock true x)).

Lemma loaded_fields x :
  i_ref (loaded x) = i_ref x /\ i_dev (loaded x) = i_dev x /\ i_inum (loaded x) = i_inum x /\
  i_lock (loaded x) = true /\ i_valid (loaded x) = true.
Proof. unfold loaded. destruct (i_valid x) eqn:E; by destruct x. Qed.

Lemma loaded_disk it ip x :
  tab_ok it -> it !! ip = Some x -> 0 < i_ref x -> i_to_disk (loaded x) = inode_at sb V (i_inum x).
Proof.
  intros Ht Hx Hr. unfold loaded. destruct (i_valid x) eqn:E.
  - destruct (tb_entry _ Ht ip x Hx Hr) as (_ & _ & H). by rewrite <- H.
  - by destruct (inode_at sb V (i_inum x)) eqn:Ed.
Qed.

Lemma loaded_same x :
  i_to_disk (loaded x) = inode_at sb V (i_inum x) ->
  same_file (din sb V (i_inum x)) (loaded x) /\ i_nlink (loaded x) = dn_nlink (inode_at sb V (i_inum x)).
Proof. intros H. unfold din. rewrite <- H. by destruct (loaded x). Qed.

(** The entry when it has been unlocked and its reference given back. *)
Definition released (x : inode) (n : Z) : inode := i_set_ref n (i_set_lock false (loaded x)).

Lemma tab_ok_upd it ip x y :
  tab_ok it -> it !! ip = Some x -> 0 <= i_ref y -> i_lock y = false ->
  (0 < i_ref y -> i_dev y = dev /\ live sb V (i_inum y) /\ (i_valid y = true -> i_to_disk y = inode_at sb V (i_inum y)) /\
     forall j z, j <> ip -> it !! j = Some z -> ~ is_inode (i_dev y) (i_inum y) z) ->
  tab_ok (<[ip := y]> it).
Proof.
  intros [Ht Hl He] Hx Hr Hk Hy. split.
  - eapply itable_upd; [done..|]. intros Hp. by apply Hy.
  - intros j z [(_ & <- & _)|[_ Hz]]%list_lookup_insert_Some; [done|by eapply Hl].
  - intros j z [(_ & <- & _)|[_ Hz]]%list_lookup_insert_Some Hp; [|by eapply He].
    destruct (Hy Hp) as (? & ? & ? & _). done.
Qed.

Lemma tab_ok_uniq it ip x : tab_ok it -> it !! ip = Some x -> 0 < i_ref x ->
  forall j z, j <> ip -> it !! j = Some z -> ~ is_inode (i_dev x) (i_inum x) z.
Proof.
  intros Ht Hx Hp j z Hj Hz (H1 & H2 & H3). apply Hj. by apply (it_uniq _ (tb_table _ Ht) j ip z x).
Qed.

Lemma released_ok it ip x n :
  tab_ok it -> it !! ip = Some x -> 0 < i_ref x -> 0 <= n -> tab_ok (<[ip := released x n]> it).
Proof.
  intros Ht Hx Hp Hn. destruct (loaded_fields x) as (F1 & F2 & F3 & F4 & F5).
  pose proof (loaded_disk it ip x Ht Hx Hp) as Hd. destruct (tb_entry _ Ht ip x Hx Hp) as (E1 & E2 & E3).
  eapply tab_ok_upd; [done..|]. intros _. cbn [released i_set_ref i_set_lock i_dev i_inum]. rewrite F2, F3.
  split; [done|]. split; [done|]. split; [done|]. by eapply tab_ok_uniq.
Qed.

Lemma igot_tab it it' i ip :
  tab_ok it -> live sb V i -> igot it it' dev i ip ->
  tab_ok it' /\ exists y, it' !! ip = Some y /\ is_inode dev i y.
Proof.
  intros Ht Hi Hg. destruct (igot_ok _ _ _ _ _ (tb_table _ Ht) Hg) as [_ Hy]. split; [|done].
  destruct Hg as (x & Hx & [((Hp & Hd & Hn) & ->)|(Hz & Hno & ->)]).
  - destruct (tb_entry _ Ht ip x Hx Hp) as (E1 & E2 & E3). eapply tab_ok_upd; [done|done|cbn; lia|exact (tb_lock _ Ht ip x Hx)|].
    intros _. cbn [i_set_ref i_dev i_inum]. split; [done|]. split; [done|]. split; [done|]. by eapply tab_ok_uniq.
  - eapply tab_ok_upd; [done|done|done|exact (tb_lock _ Ht ip x Hx)|]. intros _. cbn [i_recycle i_dev i_inum i_valid].
    split; [done|]. split; [done|]. split; [done|]. intros j z _ Hz'. by eapply Hno.
Qed.

Lemma igot_refs it it' i ip d i' :
  itable_ok it -> igot it it' d i ip -> refs it' d i' = refs it d i' + (if decide (i' = i) then 1 else 0).
Proof.
  intros Hok (x & Hx & [((Hp & Hd & Hn) & ->)|(Hz & Hno & ->)]); unfold refs; rewrite (tsum_insert _ _ _ _ _ Hx); unfold w_ref; cbn.
  - rewrite Hd, Hn, Z.eqb_refl. cbn [andb]. destruct (Z.eqb_spec i i'); [rewrite decide_True by done|rewrite decide_False by done]; lia.
  - rewrite Z.eqb_refl. cbn [andb]. rewrite Hz.
    assert ((if (i_dev x =? d) && (i_inum x =? i') then 0 else 0) = 0) as -> by (by destruct ((i_dev x =? d) && (i_inum x =? i'))).
    destruct (Z.eqb_spec i i'); [rewrite decide_True by done|rewrite decide_False by done]; lia.
Qed.
(** ** One step of the loop *)

Lemma loaded_ready s it ip x :
  frep s sb it V ∅ ∅ X k -> tab_ok it -> it !! ip = Some x -> 0 < i_ref x ->
  exists s', ilock (Some ip) s = Ok tt s' /\ fok s' sb (<[ip := loaded x]> it) ip V (loaded x) ∅ X k.
Proof.
  intros Hr Ht Hx Hp. destruct (tb_entry _ Ht ip x Hx Hp) as (E1 & [E2 E2'] & E3).
  destruct (ilock_ok s sb it V ∅ X k ip x Hr Hx E1 Hp (tb_lock _ Ht ip x Hx)) as (s' & E & Hr'); [done|rewrite map_size_empty; lia|done|].
  exists s'. split; [done|]. pose proof (loaded_disk it ip x Ht Hx Hp) as Hd.
  destruct (loaded_same x Hd) as [Hs _]. destruct (loaded_fields x) as (F1 & F2 & F3 & F4 & F5). split; try done.
  - apply list_lookup_insert_eq. by eapply lookup_lt_Some.
  - by rewrite F2.
  - eapply finv_addrs_eq; [apply Hs|]. by apply (fg_file _ _ GOOD).
Qed.

(** Unlock an entry in the table and give back a reference to it. *)
Lemma iunlockput_ok s it ip y :
  frep s sb it V ∅ ∅ X k -> it !! ip = Some y -> i_lock y = true -> 0 < i_ref y -> i_nlink y <> 0 \/ 2 <= i_ref y ->
  exists s', iunlockput ip s = Ok tt s' /\
  frep s' sb (<[ip := i_set_ref (i_ref y - 1) (i_set_lock false y)]> it) V ∅ ∅ X k.
Proof.
  intros Hr Hy Hl Hp Hn. unfold iunlockput, iunlock.
  erewrite bind_ok. 2:{ run (inode_ok _ _ _ _ _ _ _ _ _ _ Hr Hy). rewrite Hl. destruct (Z.ltb_spec (i_ref y) 1); [lia|]. reflexivity. }
  cbv beta. pose proof (frep_it _ _ _ _ _ _ _ _ ip (i_set_lock false) Hr) as Hr1.
  rewrite (alter_insert _ _ _ _ Hy) in Hr1. pose proof (lookup_lt_Some _ _ _ Hy) as Hlt.
  destruct (iput_ref _ sb _ V ∅ ∅ X k ip _ Hr1 (list_lookup_insert_eq _ _ _ Hlt)) as (s' & E & Hr').
  { cbn. destruct (Z.eqb_spec (i_ref y) 1); [|done]. destruct (Z.eqb_spec (i_nlink y) 0); [lia|]. by rewrite andb_false_r. }
  rewrite list_insert_insert, decide_True in Hr' by done. eauto.
Qed.

Lemma released_refs it ip x d i n :
  it !! ip = Some x ->
  refs (<[ip := released x n]> it) d i = refs it d i + (if decide (i_dev x = d /\ i_inum x = i) then n - i_ref x else 0).
Proof.
  intros Hx. unfold refs. rewrite (tsum_insert _ _ _ _ _ Hx). destruct (loaded_fields x) as (F1 & F2 & F3 & _).
  unfold w_ref. cbn [released i_set_ref i_set_lock i_dev i_inum i_ref]. rewrite F2, F3.
  destruct (Z.eqb_spec (i_dev x) d), (Z.eqb_spec (i_inum x) i); cbn [andb]; case_decide; try tauto; lia.
Qed.

Lemma released_nfree it ip x n :
  it !! ip = Some x -> 0 < i_ref x ->
  nfree (<[ip := released x n]> it) = nfree it + (if decide (n = 0) then 1 else 0).
Proof.
  intros Hx Hp. unfold nfree. rewrite (tsum_insert _ _ _ _ _ Hx). unfold w_free. cbn [released i_set_ref i_ref].
  destruct (Z.eqb_spec (i_ref x) 0); [lia|]. destruct (Z.eqb_spec n 0); case_decide; try done; lia.
Qed.

(** The reference to the current inode can be given back. *)
Definition droppable (x : inode) : Prop := dn_nlink (inode_at sb V (i_inum x)) <> 0 \/ 2 <= i_ref x.

Lemma drop_ok s it ip x :
  frep s sb (<[ip := loaded x]> it) V ∅ ∅ X k -> tab_ok it -> it !! ip = Some x -> 0 < i_ref x -> droppable x ->
  exists s', iunlockput ip s = Ok tt s' /\
    frep s' sb (<[ip := released x (i_ref x - 1)]> it) V ∅ ∅ X k.
Proof.
  intros Hr Ht Hx Hp Hd. destruct (loaded_fields x) as (F1 & F2 & F3 & F4 & F5).
  destruct (loaded_same x (loaded_disk it ip x Ht Hx Hp)) as [_ Hn].
  destruct (iunlockput_ok s _ ip (loaded x) Hr) as (s' & E & Hr'); try done.
  { apply list_lookup_insert_eq. by eapply lookup_lt_Some. }
  { by rewrite F1. }
  { rewrite Hn, F1. exact Hd. }
  rewrite list_insert_insert, decide_True, F1 in Hr' by done. eauto.
Qed.
Lemma loaded_ref r x : loaded (i_set_ref r x) = i_set_ref r (loaded x).
Proof. unfold loaded. cbn [i_set_ref i_valid i_inum]. generalize (inode_at sb V (i_inum x)). intros d. by destruct (i_valid x). Qed.

Lemma released_ref r x n : released (i_set_ref r x) n = released x n.
Proof. unfold released. by rewrite loaded_ref. Qed.

Lemma is_inode_loaded d i x : is_inode d i (loaded x) <-> is_inode d i x.
Proof. destruct (loaded_fields x) as (F1 & F2 & F3 & _). unfold is_inode. by rewrite F1, F2, F3. Qed.

(** [iget] on a table with a locked entry does what it does without the lock. *)
Lemma igot_loaded it ip x it2 d i next :
  it !! ip = Some x -> 0 < i_ref x -> igot (<[ip := loaded x]> it) it2 d i next ->
  exists itg x', igot it itg d i next /\ itg !! ip = Some x' /\ it2 = <[ip := loaded x']> itg /\
    (next <> ip /\ x' = x \/ next = ip /\ x' = i_set_ref (i_ref x + 1) x /\ is_inode d i x).
Proof.
  intros Hx Hp (y & Hy & Hcase). destruct (loaded_fields x) as (F1 & F2 & F3 & _). pose proof (lookup_lt_Some _ _ _ Hx) as Hlt.
  apply list_lookup_insert_Some in Hy as [(<- & <- & _)|[Hne Hy]].
  - destruct Hcase as [(Hd & ->)|(Hz & _)]; [|lia]. rewrite is_inode_loaded in Hd.
    exists (<[ip := i_set_ref (i_ref x + 1) x]> it), (i_set_ref (i_ref x + 1) x). split_and!.
    + exists x. split; [done|]. by left.
    + by apply list_lookup_insert_eq.
    + rewrite !list_insert_insert_eq. by rewrite loaded_ref, F1.
    + by right.
  - assert (exists y', it2 = <[next := y']> (<[ip := loaded x]> it) /\
      igot it (<[next := y']> it) d i next) as (y' & -> & Hg).
    { destruct Hcase as [(Hd & ->)|(Hz & Hno & ->)]; eexists; (split; [done|]); exists y; (split; [done|]); [by left|right].
      split; [done|]. split; [|done]. intros j z Hz' Hdz. destruct (decide (j = ip)) as [->|Hj].
      - rewrite Hx in Hz'. injection Hz' as <-. apply (Hno ip (loaded x)); [by apply list_lookup_insert_eq|by rewrite is_inode_loaded].
      - apply (Hno j z); [by rewrite list_lookup_insert_ne|done]. }
    exists (<[next := y']> it), x. split; [done|]. split; [by rewrite list_lookup_insert_ne|].
    split; [by apply list_insert_insert_ne|]. left. done.
Qed.

Lemma igot_nfree it it' d i next :
  itable_ok it -> igot it it' d i next ->
  exists y, it' !! next = Some y /\ (nfree it' = nfree it /\ 2 <= i_ref y \/ nfree it' = nfree it - 1 /\ i_ref y = 1).
Proof.
  intros Hok (x & Hx & [((Hp & _) & ->)|(Hz & _ & ->)]); pose proof (lookup_lt_Some _ _ _ Hx) as Hlt;
    eexists; (split; [by apply list_lookup_insert_eq|]); unfold nfree; rewrite (tsum_insert _ _ _ _ _ Hx);
    unfold w_free; cbn [i_set_ref i_recycle i_ref].
  - left. destruct (Z.eqb_spec (i_ref x) 0); [lia|]. destruct (Z.eqb_spec (i_ref x + 1) 0); lia.
  - right. rewrite Hz. cbn. lia.
Qed.

Definition one (b : bool) : Z := if b then 1 else 0.

Lemma enter_ok s it ip x it2 i next :
  tab_ok it -> it !! ip = Some x -> 0 < i_ref x -> droppable x -> live sb V i ->
  igot (<[ip := loaded x]> it) it2 dev i next -> frep s sb it2 V ∅ ∅ X k ->
  exists s' it3 y, iunlockput ip s = Ok tt s' /\ frep s' sb it3 V ∅ ∅ X k /\ tab_ok it3 /\
    it3 !! next = Some y /\ is_inode dev i y /\
    (forall n, refs it3 dev n = refs it dev n + one (bool_decide (n = i)) - one (bool_decide (n = i_inum x))) /\
    nfree it + one (i_ref x =? 1) <= nfree it3 + one (i_ref y =? 1).
Proof.
  intros Ht Hx Hp Hd Hi Hg Hr.
  destruct (igot_loaded it ip x it2 dev i next Hx Hp Hg) as (itg & x' & Hg' & Hx' & -> & Hcase).
  destruct (igot_tab it itg i next Ht Hi Hg') as (Htg & y & Hy & Hyi).
  destruct (igot_nfree it itg dev i next (tb_table _ Ht) Hg') as (y2 & Hy2 & Hnf). rewrite Hy in Hy2. injection Hy2 as <-.
  destruct (tb_entry _ Ht ip x Hx Hp) as (E1 & _).
  assert (i_inum x' = i_inum x /\ i_dev x' = i_dev x /\ 0 < i_ref x' /\ droppable x') as (G1 & G2 & G3 & G4).
  { destruct Hcase as [(_ & ->)|(_ & -> & _)]; [done|]. cbn. split_and!; try done; [lia|]. right. cbn. lia. }
  destruct (drop_ok s itg ip x' Hr Htg Hx' G3 G4) as (s' & E & Hr'). pose proof (lookup_lt_Some _ _ _ Hx') as Hlt.
  exists s', (<[ip := released x' (i_ref x' - 1)]> itg).
  assert (forall n, refs (<[ip := released x' (i_ref x' - 1)]> itg) dev n =
    refs it dev n + one (bool_decide (n = i)) - one (bool_decide (n = i_inum x))) as Hrefs.
  { intros n. rewrite (released_refs _ _ _ _ _ _ Hx'), (igot_refs _ _ _ _ _ n (tb_table _ Ht) Hg'), G1, G2, E1. unfold one.
    clear E Hr Hr' Htg Ht Hg Hg' Hcase Hnf.
    destruct (bool_decide_reflect (n = i)) as [Ea|Ea]; [rewrite (decide_True _ _ Ea)|rewrite (decide_False _ _ Ea)];
      (destruct (bool_decide_reflect (n = i_inum x)) as [Eb|Eb];
        [rewrite decide_True by (split; [done|by rewrite Eb])|rewrite decide_False by (intros [_ ?]; congruence)]; lia). }
  pose proof (released_nfree itg ip x' (i_ref x' - 1) Hx' G3) as Hnf3.
  pose proof (released_ok itg ip x' (i_ref x' - 1) Htg Hx' G3 ltac:(lia)) as Ht3.
  unfold one in *. destruct Hcase as [(Hne & ->)|(-> & -> & Hin)].
  - exists y. rewrite list_lookup_insert_ne by done. split_and!; try done. rewrite Hnf3.
    destruct (Z.eqb_spec (i_ref x) 1), (Z.eqb_spec (i_ref y) 1); case_decide; lia.
  - exists (released (i_set_ref (i_ref x + 1) x) (i_ref (i_set_ref (i_ref x + 1) x) - 1)).
    rewrite list_lookup_insert_eq by done. rewrite Hx' in Hy. injection Hy as <-. cbn [i_set_ref i_ref] in *.
    split_and!; try done.
    + unfold is_inode. cbn [released i_set_ref i_set_lock i_ref i_dev i_inum].
      destruct (loaded_fields (i_set_ref (i_ref x + 1) x)) as (_ & F2 & F3 & _). rewrite F2, F3. cbn.
      destruct Hin as (_ & ? & ?). split_and!; try done; lia.
    + rewrite Hnf3. cbn [released i_set_ref i_ref]. replace (i_ref x + 1 - 1) with (i_ref x) by lia.
      rewrite decide_False by lia. lia.
Qed.
(** ** The loop *)

(** What a run of [namex] from inode number [i] leaves behind. *)
Definition resolved (parent : bool) (i : Z) (it : list inode) (path : list byte)
    (r : option nat) (name' : list byte) (it' : list inode) : Prop :=
  exists ri, resolves sb V parent i (elems path) ri /\
  match r, ri with
  | Some ip', Some i' => exists y, it' !! ip' = Some y /\ is_inode dev i' y
  | None, None => True
  | _, _ => False
  end /\
  (forall n, refs it' dev n = refs it dev n - one (bool_decide (n = i)) + one (bool_decide (ri = Some n))) /\
  (parent = true -> r <> None -> exists e, last (elems path) = Some e /\ key name' = take DIRSIZ e).

Lemma iunlock_ok s it ip x :
  frep s sb (<[ip := loaded x]> it) V ∅ ∅ X k -> it !! ip = Some x -> 0 < i_ref x ->
  exists s', iunlock (Some ip) s = Ok tt s' /\ frep s' sb (<[ip := released x (i_ref x)]> it) V ∅ ∅ X k.
Proof.
  intros Hr Hx Hp. destruct (loaded_fields x) as (F1 & _ & _ & F4 & _). pose proof (lookup_lt_Some _ _ _ Hx) as Hlt.
  unfold iunlock. run (inode_ok _ _ _ _ _ _ _ _ _ _ Hr (list_lookup_insert_eq _ _ _ Hlt)). rewrite F4, F1.
  destruct (Z.ltb_spec (i_ref x) 1); [lia|]. eexists. split; [done|].
  pose proof (frep_it _ _ _ _ _ _ _ _ ip (i_set_lock false) Hr) as Hr'.
  rewrite (alter_insert _ _ _ _ (list_lookup_insert_eq _ _ _ Hlt)), list_insert_insert_eq in Hr'.
  unfold released. replace (i_set_ref (i_ref x) (i_set_lock false (loaded x))) with (i_set_lock false (loaded x)); [done|].
  rewrite <- F1. by destruct (loaded x).
Qed.

Lemma refs_id it ip x : it !! ip = Some x -> i_dev x = dev ->
  forall n, refs (<[ip := released x (i_ref x)]> it) dev n = refs it dev n - one (bool_decide (n = i_inum x)) + one (bool_decide (Some (i_inum x) = Some n)).
Proof.
  intros Hx Hd n. rewrite (released_refs _ _ _ _ _ _ Hx). unfold one.
  replace (bool_decide (Some (i_inum x) = Some n)) with (bool_decide (n = i_inum x)) by (apply bool_decide_ext; naive_solver).
  destruct (decide _); lia.
Qed.

Lemma refs_drop it ip x : it !! ip = Some x -> i_dev x = dev ->
  forall n, refs (<[ip := released x (i_ref x - 1)]> it) dev n = refs it dev n - one (bool_decide (n = i_inum x)) + 0.
Proof.
  intros Hx Hd n. rewrite (released_refs _ _ _ _ _ _ Hx). unfold one.
  destruct (bool_decide_reflect (n = i_inum x)) as [->|Hn]; [rewrite decide_True by done|rewrite decide_False by naive_solver]; lia.
Qed.

Lemma put_ok s it ip x :
  frep s sb it V ∅ ∅ X k -> tab_ok it -> it !! ip = Some x -> 0 < i_ref x -> droppable x ->
  exists s' it', iput ip s = Ok tt s' /\ frep s' sb it' V ∅ ∅ X k /\ tab_ok it' /\
    forall n, refs it' dev n = refs it dev n - one (bool_decide (n = i_inum x)) + 0.
Proof.
  intros Hr Ht Hx Hp Hd. destruct (tb_entry _ Ht ip x Hx Hp) as (E1 & E2 & E3).
  destruct (iput_ref s sb it V ∅ ∅ X k ip x Hr Hx) as (s' & E & Hr').
  { destruct (Z.eqb_spec (i_ref x) 1); [|done]. destruct (i_valid x) eqn:Ev; [|done].
    destruct (Z.eqb_spec (i_nlink x) 0) as [Ez|]; [|done]. destruct Hd as [Hd|Hd]; [|lia].
    destruct Hd. by rewrite <- (E3 eq_refl). }
  exists s', (<[ip := i_set_ref (i_ref x - 1) x]> it). split; [done|]. split; [done|]. split.
  - eapply tab_ok_upd; [done|done|cbn; lia|exact (tb_lock _ Ht ip x Hx)|]. intros _. cbn [i_set_ref i_dev i_inum].
    split; [done|]. split; [done|]. split; [done|]. by eapply tab_ok_uniq.
  - intros n. unfold refs. rewrite (tsum_insert _ _ _ _ _ Hx). unfold w_ref, one. cbn [i_set_ref i_dev i_inum i_ref].
    rewrite E1, Z.eqb_refl. cbn [andb]. destruct (bool_decide_reflect (n = i_inum x)) as [->|Hn].
    + rewrite Z.eqb_refl. lia.
    + destruct (Z.eqb_spec (i_inum x) n); [congruence|lia].
Qed.

Lemma namex_loop_ok parent : forall fuel ip path name s it x,
  (length path <= fuel)%nat -> x00 ∈ path -> length name = DIRSIZ ->
  frep s sb it V ∅ ∅ X k -> tab_ok it -> it !! ip = Some x -> 0 < i_ref x -> droppable x ->
  2 <= nfree it + one (i_ref x =? 1) ->
  exists r name' s' it', namex_loop fuel ip path parent name s = Ok (r, name') s' /\
    frep s' sb it' V ∅ ∅ X k /\ tab_ok it' /\ resolved parent (i_inum x) it path r name' it'.
Proof.
  induction fuel as [|fuel IH]; intros ip path name s it x Hfuel Hnul Hname Hr Ht Hx Hp Hd Hfree.
  { destruct path; [by apply not_elem_of_nil in Hnul|cbn in Hfuel; lia]. }
  destruct (tb_entry _ Ht ip x Hx Hp) as (E1 & Hlive & _). pose proof (skipelem_ok path name Hnul Hname) as Hsk.
  cbn [namex_loop]. destruct (skipelem path name) as [[rest name1]|].
  2:{ pose proof (rs_end sb V parent (i_inum x)) as Hend. destruct parent.
      - destruct (put_ok s it ip x Hr Ht Hx Hp Hd) as (s1 & it1 & F1 & Hr1 & Ht1 & Hrf). run F1.
        exists None, name, s1, it1. split; [done|]. split; [done|]. split; [done|].
        exists None. rewrite Hsk. done.
      - exists (Some ip), name, s, it. split; [done|]. split; [done|]. split; [done|].
        exists (Some (i_inum x)). rewrite Hsk. split; [done|]. split; [by exists x|]. split; [|done].
        intros n. replace (bool_decide (Some (i_inum x) = Some n)) with (bool_decide (n = i_inum x)) by (apply bool_decide_ext; naive_solver). lia. }
  destruct Hsk as (e & He & Hne & Hz & Hs & Hnul' & Hlen & Hname1 & Hkey & Hlast).
  destruct (loaded_ready s it ip x Hr Ht Hx Hp) as (s1 & F1 & Hf1). run F1.
  pose proof Hf1 as [Hr1 Hip1 _ _ _ _]. run (inode_ok _ _ _ _ _ _ _ _ _ _ Hr1 Hip1).
  destruct (loaded_same x (loaded_disk it ip x Ht Hx Hp)) as [Hsame Hnl].
  assert (i_type (loaded x) = dn_type (inode_at sb V (i_inum x))) as Hty by (rewrite <- (sf_type _ _ Hsame); done).
  rewrite Hty. destruct (Z.eqb_spec (dn_type (inode_at sb V (i_inum x))) T_DIR) as [Hdir|Hdir]; cbn [negb].
  2:{ destruct (drop_ok s1 it ip x Hr1 Ht Hx Hp Hd) as (s2 & F2 & Hr2). run F2.
      exists None, name1, s2, (<[ip := released x (i_ref x - 1)]> it). split; [done|]. split; [done|].
      split; [apply released_ok; try done; lia|]. exists None. rewrite He. split; [by apply rs_notdir|].
      split; [done|]. split; [by apply refs_drop|done]. }
  assert (bool_decide (rest !! 0%nat = Some x00) = bool_decide (elems rest = [])) as -> by (by apply bool_decide_ext).
  destruct (parent && bool_decide (elems rest = [])) eqn:Epar.
  { apply andb_true_iff in Epar as [-> Hnil]. apply bool_decide_eq_true in Hnil.
    destruct (iunlock_ok s1 it ip x Hr1 Hx Hp) as (s2 & F2 & Hr2). run F2.
    exists (Some ip), name1, s2, (<[ip := released x (i_ref x)]> it). split; [done|]. split; [done|].
    split; [apply released_ok; try done; lia|]. exists (Some (i_inum x)). rewrite He, Hnil. split; [by apply rs_parent|].
    split; [|split; [by apply refs_id|by exists e]].
    exists (released x (i_ref x)). split; [apply list_lookup_insert_eq; by eapply lookup_lt_Some|].
    destruct (loaded_fields x) as (_ & G2 & G3 & _). unfold is_inode. cbn [released i_set_ref i_set_lock i_ref i_dev i_inum].
    by rewrite G2, G3. }
  assert (key e = key name1) as Hk.
  { rewrite Hkey. unfold key. apply cstr_clean. intros (j & Hj & _)%elem_of_take. apply Hz. by eapply list_elem_of_lookup_2. }
  destruct (dirlookup_ok s1 sb _ ip V (loaded x) X k name1 Hf1) as (r & s2 & F2 & Hpost).
  { eapply dir_ok_same; [done|]. by apply (fg_dir _ _ GOOD). }
  { left. rewrite Hname1. done. }
  { apply nfree_room. destruct (loaded_fields x) as (G1 & _). unfold nfree. rewrite (tsum_insert _ _ _ _ _ Hx).
    unfold w_free at 2 3. rewrite G1. unfold nfree, one in Hfree. destruct (i_ref x =? 1); lia. }
  run F2. destruct r as [[off next]|].
  - destruct Hpost as (j & it2 & _ & Hfe & Hg & Hr2).
    apply (first_entry_same V _ (din sb V (i_inum x)) name1 e) in Hfe; [|by destruct Hsame|done].
    assert (dent V (loaded x) j = dent V (din sb V (i_inum x)) j) as Hde by (apply dent_addrs; by destruct Hsame).
    rewrite Hde in Hg. destruct Hfe as (Hj & [Hnz Hkj] & Hfirst).
    destruct (fg_entry _ _ GOOD (i_inum x) j Hlive Hdir Hj Hnz) as [Hlv Hnlk].
    set (i' := de_inum (dent V (din sb V (i_inum x)) j)) in *.
    destruct (enter_ok s2 it ip x it2 i' next Ht Hx Hp Hd Hlv Hg Hr2) as (s3 & it3 & y & F3 & Hr3 & Ht3 & Hy & (Hyp & Hyd & Hyi) & Hrefs & Hnf).
    run F3. destruct (IH next rest name1 s3 it3 y) as (r & name' & s4 & it4 & F4 & Hr4 & Ht4 & ri & Hres & Hm & Hrf & Hpar); try done.
    + lia.
    + left. by rewrite Hyi.
    + lia.
    + exists r, name', s4, it4. split; [done|]. split; [done|]. split; [done|]. exists ri. rewrite He. rewrite Hyi in Hres.
      split; [eapply rs_step; try done|]. split; [done|]. split.
      * intros n. rewrite Hrf, Hrefs, Hyi. lia.
      * intros -> Hrn. destruct (Hpar eq_refl Hrn) as (e' & Hl & Hk'). exists e'. split; [|done].
        rewrite last_cons, Hl. done.
  - destruct Hpost as [Hf2 Hno]. destruct (drop_ok s2 it ip x (fo_rep _ _ _ _ _ _ _ _ _ Hf2) Ht Hx Hp Hd) as (s3 & F3 & Hr3). run F3.
    exists None, name1, s3, (<[ip := released x (i_ref x - 1)]> it). split; [done|]. split; [done|].
    split; [apply released_ok; try done; lia|]. exists None. rewrite He. split.
    { apply rs_none; [done|done|]. eapply no_entry_same; [|by symmetry|done]. by destruct Hsame. }
    split; [done|]. split; [by apply refs_drop|done].
Qed.
(** Where a path starts: the root, or the current directory. *)
Definition start_inum (path : list byte) (c : inode) : Z :=
  if bool_decide (path !! 0%nat = Some slash) then ROOTINO else i_inum c.

Lemma namex_ok parent s it cwd c path name :
  dev = ROOTDEV -> live sb V ROOTINO -> dn_nlink (inode_at sb V ROOTINO) <> 0 ->
  frep s sb it V ∅ ∅ X k -> tab_ok it -> it !! cwd = Some c -> 0 < i_ref c -> 2 <= nfree it ->
  x00 ∈ path -> length name = DIRSIZ ->
  exists r name' s' it', namex cwd path parent name s = Ok (r, name') s' /\
    frep s' sb it' V ∅ ∅ X k /\ tab_ok it' /\
    exists ri, resolves sb V parent (start_inum path c) (elems path) ri /\
    match r, ri with
    | Some ip', Some i' => exists y, it' !! ip' = Some y /\ is_inode dev i' y
    | None, None => True
    | _, _ => False
    end /\
    (forall n, refs it' dev n = refs it dev n + one (bool_decide (ri = Some n))) /\
    (parent = true -> r <> None -> exists e, last (elems path) = Some e /\ key name' = take DIRSIZ e).
Proof.
  intros Hdev Hroot Hrl Hr Ht Hc Hcp Hfree Hnul Hname. unfold namex, start_inum.
  assert (exists ip s1 it1 y, (if bool_decide (path !! 0%nat = Some slash) then iget ROOTDEV ROOTINO else idup cwd) s = Ok ip s1 /\
    frep s1 sb it1 V ∅ ∅ X k /\ tab_ok it1 /\ it1 !! ip = Some y /\ 0 < i_ref y /\ droppable y /\
    2 <= nfree it1 + one (i_ref y =? 1) /\
    i_inum y = (if bool_decide (path !! 0%nat = Some slash) then ROOTINO else i_inum c) /\
    forall n, refs it1 dev n = refs it dev n + one (bool_decide (n = i_inum y)))
    as (ip & s1 & it1 & y & E1 & Hr1 & Ht1 & Hy & Hyp & Hyd & Hnf & Hyi & Hrf).
  { case_bool_decide as Habs.
    - destruct (iget_room s sb it V ∅ ∅ X k ROOTDEV ROOTINO Hr) as (ip & s1 & it1 & E1 & Hg & Hr1); [apply nfree_room; lia|].
      rewrite <- Hdev in Hg. destruct (igot_tab it it1 ROOTINO ip Ht Hroot Hg) as (Ht1 & y & Hy & Hyp & Hyd & Hyi).
      destruct (igot_nfree it it1 dev ROOTINO ip (tb_table _ Ht) Hg) as (y2 & Hy2 & Hnf). rewrite Hy in Hy2. injection Hy2 as <-.
      exists ip, s1, it1, y. split; [done|]. split; [done|]. split; [done|]. split; [done|]. split; [done|].
      split; [left; by rewrite Hyi|]. split; [unfold one; destruct (Z.eqb_spec (i_ref y) 1); lia|]. split; [done|].
      intros n. rewrite (igot_refs _ _ _ _ _ n (tb_table _ Ht) Hg), Hyi. unfold one.
      destruct (bool_decide_reflect (n = ROOTINO)) as [Hn|Hn]; [by rewrite decide_True|by rewrite decide_False].
    - destruct (tb_entry _ Ht cwd c Hc Hcp) as (D1 & D2 & D3).
      exists cwd, (upd_i cwd (fun x => i_set_ref (i_ref x + 1) x) s), (<[cwd := i_set_ref (i_ref c + 1) c]> it), (i_set_ref (i_ref c + 1) c).
      assert (igot it (<[cwd := i_set_ref (i_ref c + 1) c]> it) dev (i_inum c) cwd) as Hg.
      { exists c. split; [done|]. left. done. }
      destruct (igot_tab _ _ _ _ Ht D2 Hg) as [Ht1 _]. split; [done|]. split.
      { pose proof (frep_it _ _ _ _ _ _ _ _ cwd (fun x => i_set_ref (i_ref x + 1) x) Hr) as Hr'.
        by rewrite (alter_insert _ _ _ _ Hc) in Hr'. }
      split; [done|]. split; [apply list_lookup_insert_eq; by eapply lookup_lt_Some|]. cbn [i_set_ref i_ref i_inum].
      split; [lia|]. split; [right; cbn; lia|].
      destruct (igot_nfree _ _ _ _ _ (tb_table _ Ht) Hg) as (y2 & Hy2 & Hnf).
      rewrite list_lookup_insert_eq in Hy2 by (by eapply lookup_lt_Some). injection Hy2 as <-. cbn [i_set_ref i_ref] in Hnf.
      split; [unfold one; destruct (Z.eqb_spec (i_ref c + 1) 1); lia|]. split; [done|].
      intros n. rewrite (igot_refs _ _ _ _ _ n (tb_table _ Ht) Hg). unfold one.
      destruct (bool_decide_reflect (n = i_inum c)) as [Hn|Hn]; [by rewrite decide_True|by rewrite decide_False]. }
  run E1. destruct (namex_loop_ok parent (length path) ip path name s1 it1 y) as (r & name' & s' & it' & E & Hr' & Ht' & ri & Hres & Hm & Hrf' & Hpar); try done.
  exists r, name', s', it'. split; [done|]. split; [done|]. split; [done|]. exists ri. rewrite <- Hyi.
  split; [done|]. split; [done|]. split; [|done]. intros n. rewrite Hrf', Hrf. lia.
Qed.
End namex.
