(* ===== verification/FsBoot.v ===== *)
(** * A small file system

    A concrete disk of 100 blocks with the layout of [mkfs], on the cache and the
    log of the other files: the super block, a log at block 2, one block of
    inodes at 33, the bitmap at 35, and a root directory with the entries "." and
    ".." in block 36.  It is where the theorems on the file system are applied. *)

From S2P Require Import Prelude CString Bio Log LogSpec LogTxn FsLayout TxnLayer Fs FsAlloc FsMap FsInode FsRw FsDir FsPath FsNamex.

Definition sb0 : superblock := mkSb FSMAGIC 100 64 16 31 2 33 35.

Definition pad (l : list byte) : block := l ++ replicate (1024 - length l) x00.
Definition bmap0 : block := pad [xff; xff; xff; xff; x1f].
Definition root0 : dinode := mkDinode T_DIR 0 0 1 32 (36 :: replicate 12 0).
Definition inodes0 : block := dinode_put 1 root0 zero_block.
Definition dot0 : block :=
  pad (dirent_bytes (mkDirent 1 (name_field (bytes ".") 14)) ++ dirent_bytes (mkDirent 1 (name_field (bytes "..") 14))).

Definition disk0 : gmap (Z * Z) block := {[ (1, 33) := inodes0; (1, 35) := bmap0; (1, 36) := dot0 ]}.
Definition V0 : view := fun n => default zero_block (disk0 !! (1, n)).

Lemma V0_eq n : V0 n = if decide (n = 33) then inodes0 else if decide (n = 35) then bmap0 else if decide (n = 36) then dot0 else zero_block.
Proof.
  unfold V0, disk0. repeat case_decide; subst; try (vm_compute; reflexivity).
  rewrite !lookup_insert_ne by congruence. rewrite lookup_singleton_ne by congruence. done.
Qed.

Lemma blk_pad l : (length l <= 1024)%nat -> blk (pad l).
Proof. intros H. unfold blk, pad. rewrite length_app, length_replicate, bsize_eq. lia. Qed.

Lemma V0_blk n : blk (V0 n).
Proof.
  rewrite V0_eq. repeat case_decide; [|by apply blk_pad; vm_compute; lia..|done].
  apply blk_dinode_put; done || lia.
Qed.

Lemma area_size : LOGSIZE <= 30.
Proof. done. Qed.

#[export] Instance lst0 : TxnLaws lst := lst_laws 1 2 30 area2 area_size.

Lemma may_log0 n : 33 <= n < 100 -> t_may_log (S := lst) n.
Proof. intros H. split; [lia|]. unfold in_log, LOGSIZE, MAXOPBLOCKS. lia. Qed.

(** A transaction that has just begun, with the inode table [it]. *)
Lemma fs0_rep it X k :
  (size X + k <= 27)%nat -> (forall n, n ∈ X -> 33 <= n < 100) ->
  exists s : fsst lst, frep s sb0 it V0 ∅ ∅ X k.
Proof.
  intros Hsz HX. destruct (binit_spec 1 disk0 ltac:(discriminate)) as (b & _ & Hb & _).
  destruct (initlog_spec 1 2 area2 b V0 30 [] zero_block Hb) as (s & _ & Ht);
    [exact V0_blk|lia|apply log_ok_nil|reflexivity|rewrite V0_eq; apply zero_header|].
  apply (txn_outstanding 1 2 _ _ _ _ _ _ _ _ _ 1) in Ht.
  apply (txn_ext 1 2 _ _ V0) in Ht.
  2:{ intros n. assert (V0 2 = zero_block) as E2 by (by rewrite V0_eq).
      change (recovery_writes 2 [] V0) with [(2, hdr_enc [] (V0 2))]. rewrite E2, <- zero_header.
      change (aw V0 [(2, zero_block)] n) with (<[2 := zero_block]> V0 n).
      destruct (decide (n = 2)) as [->|Hn]; [by rewrite fn_lookup_insert|by rewrite fn_lookup_insert_ne]. }
  eexists (mkFs _ sb0 it). split; [done|done| |intros n Hn; by apply may_log0, HX].
  exists ∅. rewrite union_empty_l_L. split; [|done]. do 4 eexists. split; [exact Ht|]. done.
Qed.

Lemma geom0 : geom sb0.
Proof. split; unfold dstart; geo; cbn [sb0 sb_size sb_ninodes sb_inodestart sb_bmapstart]; dlia. Qed.

Lemma dstart0 : dstart sb0 = 36.
Proof. done. Qed.

Lemma fsok0 X : 35 ∈ X -> fsok (T := lst) sb0 X.
Proof.
  intros HX. split; [apply geom0| |].
  - intros n Hn. rewrite dstart0 in Hn. apply may_log0. cbn in Hn. lia.
  - intros n Hn. rewrite dstart0 in Hn. cbn in Hn. by assert (n = 35) as -> by lia.
Qed.

(** The blocks in use are those before 37. *)
Lemma used0 n : 0 <= n < 100 -> used sb0 V0 n = bool_decide (n < 37).
Proof.
  intros Hn. assert (forallb (fun n => Bool.eqb (used sb0 V0 n) (bool_decide (n < 37))) (seqZ 0 100) = true) as H
    by (vm_compute; reflexivity).
  rewrite forallb_forall in H. apply Bool.eqb_prop, H. apply list_elem_of_In, elem_of_seqZ. lia.
Qed.

Lemma meta0 : meta_used sb0 V0.
Proof. intros b Hb. rewrite dstart0 in Hb. rewrite used0 by lia. apply bool_decide_true. lia. Qed.

Lemma free0 : free_atleast sb0 V0 3.
Proof.
  exists {[37; 38; 39]}. split; [vm_compute; lia|]. intros b Hb.
  assert (37 <= b <= 39) by (rewrite !elem_of_union, !elem_of_singleton in Hb; lia). split; [cbn; lia|]. rewrite used0 by lia. apply bool_decide_false. lia.
Qed.

(** ** The root directory *)

Definition ip0 : inode := mkInode 1 1 1 false true T_DIR 0 0 1 32 (36 :: replicate 12 0).
Definition it0 : list inode := ip0 :: replicate 49 inode0.

Lemma slot0 j : 0 <= j <= 12 -> slot ip0 j = if decide (j = 0) then 36 else 0.
Proof.
  intros Hj. unfold slot. case_decide; [by subst|]. cbn [ip0 i_addrs].
  destruct (Z.to_nat j) as [|n] eqn:E; [lia|]. change ((36 :: replicate 12 0) !! S n) with (replicate 12 0 !! n).
  by rewrite lookup_replicate_2 by lia.
Qed.

Lemma at0 p : pos_ok p -> at_pos V0 ip0 p = if decide (p = PDir 0) then 36 else 0.
Proof.
  intros Hp. destruct p; cbn [at_pos]; rewrite slot0 by (cbn in *; unfold NDIRECT in *; lia); try done.
  repeat case_decide; simplify_eq; done.
Qed.

Lemma finv0 : finv sb0 V0 ip0.
Proof.
  split; [done|..].
  - intros p Hp. rewrite at0 by done. case_decide; [|done]. intros _. split; [rewrite dstart0; cbn; lia|]. by rewrite used0.
  - intros p q Hp Hq. rewrite !at0 by done. repeat case_decide; congruence || done.
Qed.

Lemma holes0 : no_holes V0 ip0.
Proof.
  intros bn H1 H2. cbn in H2. geo. assert (bn = 0) as -> by lia. by rewrite at0.
Qed.

Lemma dir0 : dir_ok V0 ip0.
Proof. split; [done|apply holes0|done|]. split; vm_compute; discriminate. Qed.

Lemma dents0 : dent V0 ip0 0 = mkDirent 1 (name_field (bytes ".") 14) /\
  dent V0 ip0 1 = mkDirent 1 (name_field (bytes "..") 14).
Proof. split; vm_compute; reflexivity. Qed.

Lemma live0 i : live sb0 V0 i <-> i = 1.
Proof.
  split; [|intros ->; split; [cbn; lia|vm_compute; discriminate]]. intros [Hr Ht].
  assert (forallb (fun i => (dn_type (inode_at sb0 V0 i) =? 0) || (i =? 1)) (seqZ 0 16) = true) as H by (vm_compute; reflexivity).
  rewrite forallb_forall in H. specialize (H i).
  destruct (Z.eqb_spec (dn_type (inode_at sb0 V0 i)) 0); [done|]. apply Z.eqb_eq, H, list_elem_of_In, elem_of_seqZ.
  cbn in Hr. lia.
Qed.

Lemma root_at0 : inode_at sb0 V0 1 = root0.
Proof. vm_compute. reflexivity. Qed.

Lemma din0 : same_file ip0 (din sb0 V0 1).
Proof. unfold din. rewrite root_at0. done. Qed.

Lemma good0 : fs_good sb0 V0.
Proof.
  pose proof din0 as Hs. split.
  - intros i ->%live0. eapply finv_addrs_eq; [apply Hs|apply finv0].
  - intros i ->%live0 _. eapply dir_ok_same; [exact Hs|apply dir0].
  - intros i j ->%live0 _ Hj _. rewrite <- (dent_addrs V0 ip0) by apply Hs.
    unfold nents in Hj. rewrite <- (sf_size _ _ Hs) in Hj. change (i_size ip0 / 16) with 2 in Hj.
    assert (de_inum (dent V0 ip0 j) = 1) as ->.
    { destruct dents0 as [D0 D1]. assert (j = 0 \/ j = 1) as [-> | ->] by lia; [by rewrite D0|by rewrite D1]. }
    split; [by apply live0|]. by rewrite root_at0.
Qed.

Lemma it0_lookup j x : it0 !! j = Some x -> j = 0%nat /\ x = ip0 \/ (j < 50)%nat /\ j <> 0%nat /\ x = inode0.
Proof.
  destruct j as [|j]; [intros [= <-]; by left|].
  change (it0 !! S j) with (replicate 49 inode0 !! j). intros [-> Hj]%lookup_replicate. right. split_and!; [lia|done..].
Qed.

Lemma tab0 : tab_ok sb0 V0 it0.
Proof.
  split; [split|..].
  - done.
  - intros i x [[-> ->]|(_ & _ & ->)]%it0_lookup; cbn; lia.
  - intros i j x y [[-> ->]|(_ & _ & ->)]%it0_lookup [[-> ->]|(_ & _ & ->)]%it0_lookup; cbn; lia || done.
  - by intros i x [[-> ->]|(_ & _ & ->)]%it0_lookup.
  - intros i x [[-> ->]|(_ & _ & ->)]%it0_lookup; cbn [ip0 inode0 i_ref]; [|lia].
    intros _. split; [done|]. split; [by apply live0|]. intros _. cbn [ip0 i_inum]. by rewrite root_at0.
Qed.

Lemma dinode_ok0 : dinode_ok (i_to_disk ip0).
Proof. split; cbn; try lia; try done. repeat constructor; lia. Qed.

(** Room in the log for the blocks that the examples touch. *)
Definition X0 : gset Z := {[33; 35; 36]}.

Lemma fok0 k : (k <= 20)%nat -> exists s : fsst lst, fok s sb0 it0 0 V0 ip0 ∅ X0 k.
Proof.
  intros Hk. destruct (fs0_rep it0 X0 k) as (s & Hs).
  { change (size X0) with 3%nat. lia. }
  { intros n Hn. unfold X0 in Hn. rewrite !elem_of_union, !elem_of_singleton in Hn. lia. }
  exists s. split; [done|done|done|apply finv0|apply fsok0; set_solver|apply meta0].
Qed.
