(* ===== verification/FsSpec.v ===== *)
(** * What the file system guarantees

    The theorems on [kernel/fs.c], each with an application to the small file
    system of [FsBoot].  All of them are stated for any cache and log that keep
    the promises of [TxnLaws]. *)

From S2P Require Import Prelude CString Bio Log LogSpec LogTxn FsLayout TxnLayer Fs FsAlloc FsMap FsInode FsRw FsTrunc FsDir FsPath FsNamex FsBoot.

Section spec.
Context {T : Type} {TO : TxnOps T} {TL : TxnLaws T}.
Abbreviation dev := (t_dev (S := T)).

(** C37: the block allocator.  [balloc] returns the lowest free block, marks it,
    zeroes it, and changes no other block and no other bit; it returns 0, and
    changes nothing, exactly when every block is in use.  [bfree] of a block in
    use clears its bit alone, and of a free block panics. *)
Theorem block_allocator s sb it V H X k :
  frep s sb it V H ∅ X (S k) -> fsok sb X -> meta_used sb V -> held_ok sb V H -> (size H <= 2)%nat ->
  (exists r s', balloc dev s = Ok r s' /\
    (r = 0 /\ frep s' sb it V H ∅ X (S k) /\ (forall c, 0 <= c < sb_size sb -> used sb V c = true) \/
     dstart sb <= r < sb_size sb /\ used sb V r = false /\ (forall c, 0 <= c < r -> used sb V c = true) /\
     exists V', frep s' sb it V' H ∅ ({[r]} ∪ X) k /\ V' r = zero_block /\
       (forall n, 0 <= n < sb_size sb -> used sb V' n = bool_decide (n = r) || used sb V n) /\
       (forall n, n <> r -> ~ (sb_bmapstart sb <= n < dstart sb) -> V' n = V n))) /\
  (forall b, 0 <= b < sb_size sb -> used sb V b = true ->
    exists s' V', bfree dev b s = Ok tt s' /\ frep s' sb it V' H ∅ X (S k) /\
      (forall n, 0 <= n < sb_size sb -> used sb V' n = negb (bool_decide (n = b)) && used sb V n) /\
      (forall n, ~ (sb_bmapstart sb <= n < dstart sb) -> V' n = V n)) /\
  (forall b, 0 <= b < sb_size sb -> used sb V b = false -> bfree dev b s = Panic "freeing free block").
Proof.
  intros Hr Hok Hm Hh Hsz. pose proof (ok_geom _ _ Hok) as G. pose proof (dstart_pos sb G).
  assert (forall n, blk (V n)) as HV by (intros; by eapply frep_blk). split; [|split].
  - destruct (balloc_ok s sb it V H X k Hr Hok Hm Hh Hsz) as (r & s' & E & [?|(Hd & Hr' & Hu & Hl)]); exists r, s'; (split; [done|]).
    + by left.
    + right. split; [done|]. split; [done|]. split; [done|]. exists (alloc_view sb r V). split; [done|]. split; [|split].
      * unfold alloc_view. by rewrite fn_lookup_insert.
      * intros n Hn. by apply used_alloc.
      * intros n Hn Hb. by apply alloc_view_other.
  - intros b Hb Hu. destruct (bfree_ok s sb it V H X (S k) b Hr Hok Hh Hsz Hb Hu) as (s' & E & Hr').
    exists s', (free_view sb b V). split; [done|]. split; [done|]. split.
    + intros n Hn. by apply used_clear.
    + intros n Hn. unfold free_view. destruct (BBLOCK_eq sb b G Hb) as [_ ?]. by rewrite fn_lookup_insert_ne by lia.
  - intros b Hb Hu. by eapply bfree_panics.
Qed.

(** C24: the block map.  [bmap] returns the address of block [bn] of the file: the
    one that is there, or, if there is none, that of a new zeroed block, which
    with the index blocks it needs is taken from the free blocks and added to the
    file and logged.  No other block changes, nothing is leaked, the invariant of
    the file is kept, and 0 is returned only with the disk full.  Beyond the
    single-indirect blocks the guarantee needs three free blocks. *)
Theorem bmap_correct s sb it ip V x X k bn :
  fok s sb it ip V x ∅ X (3 + k) -> 0 <= bn < MAXFILE -> anc_in V x (pos_of bn) X ->
  bn < NDIRECT + NINDIRECT \/ free_atleast sb V 3 ->
  exists r s' V' x' X', bmap ip bn s = Ok r s' /\
    fok s' sb (<[ip := x']> it) ip V' x' ∅ X' k /\ bgrow sb V x V' x' /\ new_in V x V' x' X' /\
    r = at_pos V' x' (pos_of bn) /\ (r = 0 -> full sb V').
Proof.
  intros Hf Hbn HX Hfree.
  destruct (bmap_ok s sb it ip V x X k bn Hf Hbn HX Hfree) as (r & s' & V' & x' & X' & E & (Hf' & HG & _ & HN) & Hr & Hfl & _).
  exists r, s', V', x', X'. done.
Qed.

(** C25: writing a file.  [writei] at [off], at most the size of the file, with a
    source that can be read, stores the bytes of the source at [off] and keeps
    every other byte of the file; the size grows to the end of the write; the
    inode on the disk is brought up to date; blocks of other files, and the
    inodes of other blocks, do not change.  It writes fewer bytes than asked only
    when the disk is full. *)
Theorem writei_exact {W} {C : CopyOps W} s sb it ip V x X k b I user src off n D (w : W) :
  fok s sb it ip V x ∅ X (3 * b + k) -> no_holes V x -> i_size x <= MAXFILE * BSIZE -> dinode_ok (i_to_disk x) ->
  0 <= i_inum x < sb_ninodes sb -> IBLOCK (i_inum x) sb ∈ X ->
  0 <= off <= i_size x -> 0 <= n -> off + n <= MAXFILE * BSIZE -> 0 <= src < 2 ^ 64 ->
  (off + n - 1) / BSIZE - off / BSIZE + 1 <= Z.of_nat b -> paths_in V x off n X -> room_blocks sb V off n b ->
  copies_in I user src n D -> I 0 w ->
  exists r s' w' V' x' X', writei ip user src off n (s, w) = Ok r (s', w') /\
    fok s' sb (<[ip := x']> it) ip V' x' ∅ X' k /\ wrote sb D off r V x V' x' /\
    0 <= r <= n /\ I r w' /\ (r = n \/ full sb V').
Proof.
  intros Hf Hh Hsz Hdi Hin HIX Ho Hn Hmax Hsrc Hb HP Hroom Hcp HI.
  destruct (writei_ok s sb it ip V x X k b I user src off n D w) as (r & s' & w' & V' & x' & X' & E & Hf' & _ & HW & Hr & HI' & He); try done.
  exists r, s', w', V', x', X'. done.
Qed.

(** C26: reading a file copies out exactly its bytes from [off] on, clipped at its
    end, in order and to consecutive addresses; a copy that fails makes it return
    -1; and the disk, the bitmap and the inode do not change. *)
Theorem readi_exact {W} {C : CopyOps W} s sb it ip V x X k I J user dst off n (w : W) :
  fok s sb it ip V x ∅ X k -> no_holes V x -> 0 <= i_size x <= MAXFILE * BSIZE ->
  0 <= off < 2 ^ 32 -> 0 <= n < 2 ^ 32 -> 0 <= dst < 2 ^ 64 ->
  copies_out I J user dst (read_len x off n) (fun tot m => fdata V x (off + tot) m) -> I 0 w ->
  exists r s' w', readi ip user dst off n (s, w) = Ok r (s', w') /\ fok s' sb it ip V x ∅ X k /\
  (r = read_len x off n /\ I r w' \/ r = -1 /\ J w').
Proof. intros. by apply readi_ok. Qed.

(** C8: what is written is what is read.  After [writei] of a kernel buffer has
    stored [r] bytes, [readi] of these [r] bytes into another buffer gives the
    first [r] bytes of the first. *)
Theorem write_then_read s sb it ip V x X k b off bs (w : local) :
  fok s sb it ip V x ∅ X (3 * b + k) -> no_holes V x -> i_size x <= MAXFILE * BSIZE -> dinode_ok (i_to_disk x) ->
  0 <= i_inum x < sb_ninodes sb -> IBLOCK (i_inum x) sb ∈ X ->
  0 <= off <= i_size x -> off + Z.of_nat (length bs) <= MAXFILE * BSIZE ->
  (off + Z.of_nat (length bs) - 1) / BSIZE - off / BSIZE + 1 <= Z.of_nat b ->
  paths_in V x off (Z.of_nat (length bs)) X -> room_blocks sb V off (Z.of_nat (length bs)) b ->
  length w = length bs ->
  exists r s1 s2, writei ip false 0 off (Z.of_nat (length bs)) (s, bs : local) = Ok r (s1, bs) /\
    0 <= r <= Z.of_nat (length bs) /\
    readi ip false 0 off r (s1, w) = Ok r (s2, splice w 0 (take (Z.to_nat r) bs)).
Proof.
  intros Hf Hh Hsz Hdi Hin HIX Ho Hmax Hb HP Hroom Hw. set (n := Z.of_nat (length bs)) in *.
  assert (MAXFILE * BSIZE < 2 ^ 31) as Hlim by done.
  destruct (writei_ok (W := local) s sb it ip V x X k b (fun _ w => w = bs) false 0 off n (list_fun bs) bs)
    as (r & s1 & w1 & V' & x' & X' & E & Hf1 & _ & HW & Hr & -> & He); try done; try lia.
  { apply local_in; lia. }
  assert (r <= i_size x' - off /\ i_size x' <= MAXFILE * BSIZE) as [Hle Hsz'] by (rewrite (wt_size _ _ _ _ _ _ _ _ HW); lia).
  destruct (readi_local s1 sb (<[ip := x']> it) ip V' x' X' k off r w Hf1 (wt_holes _ _ _ _ _ _ _ _ HW)) as (s2 & E2 & _); try lia.
  exists r, s1, s2. split; [done|]. split; [done|]. etrans; [exact E2|]. do 3 f_equal.
  rewrite <- (fdata_list V' x' off (take (Z.to_nat r) bs)).
  - by rewrite length_take_le by lia.
  - intros i Hi. rewrite length_take_le in Hi by lia. rewrite (wt_in _ _ _ _ _ _ _ _ HW) by lia.
    unfold list_fun. replace (off + i - off) with i by lia. by rewrite lookup_take_lt by lia.
Qed.
(** C27: truncating a file.  [itrunc] frees every block of the file, data and index
    blocks alike, each once (so it never panics), and no other block; it leaves an
    empty file, in memory and on the disk, and changes no other block. *)
Theorem itrunc_frees s sb it ip V x X k :
  fok s sb it ip V x ∅ X k -> dinode_ok (i_to_disk x) -> 0 <= i_inum x < sb_ninodes sb -> IBLOCK (i_inum x) sb ∈ X ->
  exists s' V' y, itrunc ip s = Ok tt s' /\ frep s' sb (<[ip := y]> it) V' ∅ ∅ X k /\
    i_size y = 0 /\ i_addrs y = replicate naddrs 0 /\ i_inum y = i_inum x /\ i_type y = i_type x /\ i_nlink y = i_nlink x /\
    inode_at sb V' (i_inum x) = i_to_disk y /\
    (forall n, 0 <= n < sb_size sb ->
      used sb V' n = true <-> used sb V n = true /\ (forall p, pos_ok p -> at_pos V x p <> 0 -> at_pos V x p <> n)) /\
    (forall n, ~ (sb_bmapstart sb <= n < dstart sb) -> n <> IBLOCK (i_inum x) sb -> V' n = V n).
Proof.
  intros Hf Hdi Hin HIX. pose proof Hf as [_ _ _ F Hok _].
  destruct (itrunc_ok sb V x X k F Hok s it ip Hf Hdi Hin HIX) as (s' & V' & y & E & Hr & (Y1 & Y2 & _ & Y3 & _ & _ & _ & Y4 & _ & _ & Y5) & Hd & Hu & Hs).
  exists s', V', y. done.
Qed.

(** C38: inodes go to the disk and come back.  After [iupdate] the inode on the
    disk is the one in memory and the inodes of all other numbers are as they
    were; and [ilock] of an entry for that number that has not been read gives the
    same fields. *)
Theorem iupdate_ilock_roundtrip s sb it V H X k ip x ip2 y :
  frep s sb it V H ∅ X k -> geom sb -> it !! ip = Some x -> i_dev x = dev -> 0 <= i_inum x < sb_ninodes sb ->
  dinode_ok (i_to_disk x) -> IBLOCK (i_inum x) sb ∈ X -> (forall i, H !! i <> Some (IBLOCK (i_inum x) sb)) -> (size H <= 2)%nat ->
  it !! ip2 = Some y -> i_dev y = dev -> i_inum y = i_inum x -> 0 < i_ref y -> i_lock y = false -> i_valid y = false -> i_type x <> 0 ->
  exists s1 s2 V' z, iupdate ip s = Ok tt s1 /\ frep s1 sb it V' H ∅ X k /\
    (forall i, 0 <= i < sb_ninodes sb -> inode_at sb V' i = if decide (i = i_inum x) then i_to_disk x else inode_at sb V i) /\
    ilock (Some ip2) s1 = Ok tt s2 /\ frep s2 sb (<[ip2 := z]> it) V' H ∅ X k /\
    i_to_disk z = i_to_disk x /\ i_valid z = true /\ i_lock z = true.
Proof.
  intros Hr G Hx Hdev Hin Hdi HX HH Hsz Hy Hyd Hyi Hyr Hyl Hyv Hty.
  destruct (iupdate_ok s sb it V H X k ip x Hr G Hx Hdev Hin (do_len _ Hdi) HX HH Hsz) as (s1 & E1 & Hr1).
  set (V' := put_inode sb (i_inum x) (i_to_disk x) V) in *.
  assert (forall i, 0 <= i < sb_ninodes sb -> inode_at sb V' i = if decide (i = i_inum x) then i_to_disk x else inode_at sb V i) as Hat.
  { intros i Hi. apply inode_at_put; try done. intros n. by eapply frep_blk. }
  assert (inode_at sb V' (i_inum y) = i_to_disk x) as Hiy by (rewrite Hyi, Hat, decide_True by done; done).
  destruct (ilock_ok s1 sb it V' H X k ip2 y Hr1 Hy Hyd Hyr Hyl) as (s2 & E2 & Hr2); [by rewrite Hyi|done|by rewrite Hiy|].
  rewrite Hyv, Hiy in Hr2. eexists s1, s2, V', _. split; [done|]. split; [done|]. split; [done|]. split; [done|].
  split; [exact Hr2|]. done.
Qed.

(** C28: the inode table has at most one entry for an inode.  [iget] returns the
    entry of the inode with one more reference, or takes an entry without
    references for it, and keeps that invariant; the other entries keep their
    content; it panics only when every entry is referenced. *)
Theorem iget_unique s sb it V H M X k d inum :
  frep s sb it V H M X k -> itable_ok it ->
  (exists ip s' it' y, iget d inum s = Ok ip s' /\ frep s' sb it' V H M X k /\ itable_ok it' /\
     it' !! ip = Some y /\ is_inode d inum y /\ (forall j, j <> ip -> it' !! j = it !! j) /\
     (forall j z, it' !! j = Some z -> is_inode d inum z -> j = ip) /\
     (forall x, it !! ip = Some x -> 0 < i_ref x -> y = i_set_ref (i_ref x + 1) x)) \/
  (iget d inum s = Panic "iget: no inodes" /\ forall j y, it !! j = Some y -> 0 < i_ref y).
Proof.
  intros Hr Hok. destruct (iget_ok s sb it V H M X k d inum Hr) as [(ip & s' & it' & E & Hg & Hr')|(E & Hf)].
  - left. destruct (igot_ok it it' d inum ip Hok Hg) as (Hok' & y & Hy & Hd).
    exists ip, s', it', y. split; [done|]. split; [done|]. split; [done|]. split; [done|]. split; [done|].
    assert (exists x y', it !! ip = Some x /\ it' = <[ip := y']> it /\ (0 < i_ref x -> y' = i_set_ref (i_ref x + 1) x))
      as (x & y' & Hx & -> & Hinc).
    { destruct Hg as (x & Hx & [(_ & ->)|(Hz & _ & ->)]); eexists x, _; (split; [done|]); (split; [done|]); [done|lia]. }
    rewrite list_lookup_insert_eq in Hy by (by eapply lookup_lt_Some). injection Hy as ->.
    split; [intros j Hj; by rewrite list_lookup_insert_ne|]. split.
    + intros j z Hz (Hz1 & Hz2 & Hz3). destruct Hd as (Hd1 & Hd2 & Hd3).
      eapply (it_uniq _ Hok' j ip z y); try done; [|congruence..]. by rewrite list_lookup_insert_eq by (by eapply lookup_lt_Some).
    + intros x' Hx' Hp. rewrite Hx in Hx'. injection Hx' as <-. by apply Hinc.
  - right. split; [done|]. intros j y Hy. destruct (Hf j y Hy). pose proof (it_ref _ Hok j y Hy). lia.
Qed.

(** C29: directories.  [dirlink] of a name that is present fails and changes
    nothing.  Of a name that is absent it stores the entry in the first free slot,
    or at the end: afterwards [dirlookup] finds that slot and the inode number
    under the name, and every other name has the entry, or none, that it had.  It
    fails only when the disk is full. *)
Theorem dirlink_dirlookup s sb it ip V x X k name inum :
  fok s sb it ip V x ∅ X (3 + k) -> itable_ok it -> dir_ok V x -> readable name DIRSIZ -> table_room it -> 0 < i_ref x ->
  dinode_ok (i_to_disk x) -> 0 <= i_inum x < sb_ninodes sb -> IBLOCK (i_inum x) sb ∈ X -> 0 < inum < 2 ^ 16 ->
  (forall e, free_entry V x e -> 16 * e + 16 <= MAXFILE * BSIZE /\ paths_in V x (16 * e) 16 X /\ room_blocks sb V (16 * e) 16 1) ->
  (forall i, 0 <= i < nents x -> is_entry V x name i ->
     exists s' it', dirlink ip name inum s = Ok (-1) s' /\ frep s' sb it' V ∅ ∅ X (3 + k) /\
       (forall j y, it !! j = Some y -> 0 < i_ref y -> it' !! j = Some y)) /\
  (no_entry V x name ->
     exists e r s1 V' x' X', free_entry V x e /\ dirlink ip name inum s = Ok r s1 /\
       fok s1 sb (<[ip := x']> it) ip V' x' ∅ X' k /\
       (r = 0 /\ (forall n j, 0 <= j < nents x' -> is_entry V' x' n j <->
                    j = e /\ key n = key name \/ j <> e /\ 0 <= j < nents x /\ is_entry V x n j) /\
          (exists s2 it' ip', dirlookup ip name s1 = Ok (Some (16 * e, ip')) s2 /\ igot (<[ip := x']> it) it' dev inum ip') \/
        r = -1 /\ full sb V')).
Proof.
  intros Hf Hit Hd Hn Hroom Href Hdi Hin HIX Hi Hpre. split; [intros i Hir He; by eapply dirlink_present|]. intros Hno.
  destruct (dirlink_absent s sb it ip V x X k name inum Hf Hd Hn Hroom Hno Hdi Hin HIX Hpre)
    as (e & r & s1 & V' & x' & X' & He & E & Hf1 & Hpost). exists e, r, s1, V', x', X'.
  split; [done|]. split; [done|]. split; [done|]. destruct Hpost as [(-> & HL)|?]; [left|by right]. split; [done|].
  destruct (linked_entries V x V' x' e name inum He HL Hi) as (Hent & Hfirst). split; [done|].
  destruct (dirlookup_ok s1 sb _ ip V' x' X' k name Hf1 (lk_dir _ _ _ _ _ _ HL) Hn) as (q & s2 & E2 & Hq).
  { by eapply table_room_upd; [|apply Hf|]. }
  specialize (Hfirst Hno). destruct q as [[off ip']|].
  - destruct Hq as (j & it' & -> & Hfe & Hg & _). assert (j = e) as -> by (by eapply first_entry_fun).
    exists s2, it', ip'. split; [done|]. rewrite (lk_new _ _ _ _ _ _ HL) in Hg. cbn [de_inum] in Hg.
    unfold u16 in Hg. by rewrite Z.mod_small in Hg by lia.
  - destruct Hq as [_ Hno']. destruct Hfirst as (Hr & Hie & _). by destruct (Hno' e Hr).
Qed.
(** C10: path resolution.  [namei] returns the inode that the elements of the path
    lead to from the root or the current directory, through the directories on
    the disk, with one reference to it; it returns 0 when an element is missing or
    its parent is not a directory.  [nameiparent] does the same for all elements
    but the last, which it leaves in [name].  Every reference taken on the way has
    been given back, no lock is held, and the disk has not changed. *)
Theorem namei_resolves sb V X k s it cwd c path name :
  fsok sb X -> meta_used sb V -> fs_good sb V ->
  dev = ROOTDEV -> live sb V ROOTINO -> dn_nlink (inode_at sb V ROOTINO) <> 0 ->
  frep s sb it V ∅ ∅ X k -> tab_ok sb V it -> it !! cwd = Some c -> 0 < i_ref c -> 2 <= nfree it ->
  x00 ∈ path -> length name = DIRSIZ ->
  (exists r ri s' it', namei cwd path s = Ok r s' /\ resolves sb V false (start_inum path c) (elems path) ri /\
     match r, ri with
     | Some ip', Some i' => exists y, it' !! ip' = Some y /\ is_inode dev i' y
     | None, None => True
     | _, _ => False
     end /\ frep s' sb it' V ∅ ∅ X k /\ tab_ok sb V it' /\
     forall n, refs it' dev n = refs it dev n + one (bool_decide (ri = Some n))) /\
  (exists r ri name' s' it', nameiparent cwd path name s = Ok (r, name') s' /\
     resolves sb V true (start_inum path c) (elems path) ri /\
     match r, ri with
     | Some ip', Some i' => (exists y, it' !! ip' = Some y /\ is_inode dev i' y) /\
         exists e, last (elems path) = Some e /\ key name' = take DIRSIZ e
     | None, None => True
     | _, _ => False
     end /\ frep s' sb it' V ∅ ∅ X k /\ tab_ok sb V it' /\
     forall n, refs it' dev n = refs it dev n + one (bool_decide (ri = Some n))).
Proof.
  intros Hok Hm Hg Hdev Hl Hn Hr Ht Hc Hcp Hfree Hnul Hname. split.
  - destruct (namex_ok sb V X k Hok Hm Hg false s it cwd c path (replicate DIRSIZ x00)) as (r & n' & s' & it' & E & Hr' & Ht' & ri & Hres & Hmt & Hrf & _); try done.
    exists r, ri, s', it'. unfold namei. run E. done.
  - destruct (namex_ok sb V X k Hok Hm Hg true s it cwd c path name) as (r & n' & s' & it' & E & Hr' & Ht' & ri & Hres & Hmt & Hrf & Hpar); try done.
    exists r, ri, n', s', it'. split; [exact E|]. split; [done|]. split; [|done].
    destruct r, ri; try done. split; [done|]. by apply Hpar.
Qed.
End spec.

(** path elements.  On a NUL-terminated path [skipelem] answers 0 exactly when
    no element is left; otherwise it copies the next element, cut to [DIRSIZ]
    bytes, and returns the rest of the path, whose elements are the remaining
    ones, and which is empty exactly when there is none. *)
Theorem skipelem_enumerates path name :
  x00 ∈ path -> length name = DIRSIZ ->
  match skipelem path name with
  | None => elems path = []
  | Some (rest, name') => exists e, elems path = e :: elems rest /\ x00 ∈ rest /\ (length rest < length path)%nat /\
      length name' = DIRSIZ /\ key name' = take DIRSIZ e /\ (rest !! 0%nat = Some x00 <-> elems rest = [])
  end.
Proof.
  intros Hn Hl. pose proof (skipelem_ok path name Hn Hl) as H. destruct (skipelem path name) as [[rest name']|]; [|done].
  destruct H as (e & H1 & _ & _ & _ & H2 & H3 & H4 & H5 & H6). by exists e.
Qed.

(** ** Applications *)

Lemma skipelem_enumerates_witness :
  exists rest name' e, skipelem (bytes "///a//bb" ++ [x00]) (replicate 14 x2e) = Some (rest, name') /\ rest = bytes "bb" ++ [x00] /\
    elems (bytes "///a//bb" ++ [x00]) = e :: elems rest /\ key name' = take DIRSIZ e.
Proof.
  assert (skipelem (bytes "///a//bb" ++ [x00]) (replicate 14 x2e) = Some (bytes "bb" ++ [x00], x61 :: x00 :: replicate 12 x2e)) as E
    by (vm_compute; reflexivity).
  pose proof (skipelem_enumerates (bytes "///a//bb" ++ [x00]) (replicate 14 x2e) ltac:(apply elem_of_app; right; apply list_elem_of_singleton; reflexivity) eq_refl) as H.
  rewrite E in H. destruct H as (e & H1 & _ & _ & _ & H2 & _). do 3 eexists. split; [exact E|].
  split; [reflexivity|]. split; [exact H1|exact H2].
Defined.

Lemma block_allocator_witness : exists (s : fsst lst) r s', balloc 1 s = Ok r s' /\ r = 37.
Proof.
  destruct (fok0 1 ltac:(lia)) as (s & [Hr _ _ _ Hok Hm]).
  destruct (block_allocator s sb0 it0 V0 ∅ X0 0 Hr Hok Hm) as ((r & s' & E & H) & _).
  { intros i n Hn. by rewrite lookup_empty in Hn. }
  { rewrite map_size_empty. lia. }
  exists s, r, s'. split; [exact E|]. destruct H as [(_ & _ & H)|(Hr37 & Hu & Hl & _)].
  - specialize (H 37 ltac:(cbn; lia)). rewrite used0 in H by lia. discriminate.
  - rewrite dstart0 in Hr37. cbn in Hr37. rewrite used0 in Hu by lia. apply bool_decide_eq_false in Hu.
    destruct (Z.lt_trichotomy r 37) as [?|[?|?]]; [lia|done|].
    specialize (Hl 37 ltac:(lia)). rewrite used0 in Hl by lia. discriminate.
Defined.

Lemma bmap_correct_witness : exists (s : fsst lst) r s', bmap 0 (MAXFILE - 1) s = Ok r s'.
Proof.
  destruct (fok0 3 ltac:(lia)) as (s & Hf).
  destruct (bmap_correct s sb0 it0 0 V0 ip0 X0 0 (MAXFILE - 1) Hf) as (r & s' & _ & _ & _ & E & _).
  - vm_compute. split; [discriminate|reflexivity].
  - assert (pos_of (MAXFILE - 1) = PDblE 255 255) as -> by (vm_compute; reflexivity).
    intros q Hq Hz. assert (pos_ok q /\ q <> PDir 0) as [Hok Hne].
    { apply list_elem_of_In in Hq. cbn in Hq. destruct Hq as [<- |[<- |[]]]; (split; [cbn; geo; lia|discriminate]). }
    rewrite at0, decide_False in Hz by done. done.
  - right. apply free0.
  - exists s, r, s'. exact E.
Defined.

(** A write of four bytes in the root directory's block, and of the same bytes read back. *)
Lemma paths0 off n : 0 <= off -> off + n <= 1024 -> paths_in V0 ip0 off n X0.
Proof.
  intros Ho Hn bn H1 H2. geo. assert (0 <= bn) by dlia. assert (bn = 0) as -> by lia. split.
  - intros q Hq. by apply not_elem_of_nil in Hq.
  - intros _. change (pos_of 0) with (PDir 0). rewrite at0 by (cbn; unfold NDIRECT; lia). change (36 ∈ X0). unfold X0. set_solver.
Qed.

Lemma small0 : MAXFILE * BSIZE = 67382272.
Proof. reflexivity. Qed.

Lemma iblock0 : IBLOCK (i_inum ip0) sb0 ∈ X0.
Proof. change (IBLOCK (i_inum ip0) sb0) with 33. unfold X0. set_solver. Qed.

Lemma room0 off n b : off + n <= 1024 -> room_blocks sb0 V0 off n b.
Proof. intros H. left. change NDIRECT with 11. geo. lia. Qed.

(** The side conditions of the theorems on this file system. *)
Ltac fs0 := first [apply holes0 | apply dinode_ok0 | apply iblock0 | apply paths0; lia | apply room0; lia
  | apply local_in; cbn; lia | cbn [ip0 i_size i_inum sb0 sb_ninodes]; lia | geo; cbn; lia | reflexivity].

Lemma writei_exact_witness :
  exists (s : fsst lst) r s' w', writei (W := local) 0 false 0 30 4 (s, bytes "abcd") = Ok r (s', w').
Proof.
  destruct (fok0 3 ltac:(lia)) as (s & Hf).
  destruct (writei_exact (W := local) s sb0 it0 0 V0 ip0 X0 0 1 (fun _ w => w = bytes "abcd") false 0 30 4 (list_fun (bytes "abcd")) (bytes "abcd") Hf)
    as (r & s' & w' & _ & _ & _ & E & _); rewrite ?small0; [fs0..|].
  exists s, r, s', w'. exact E.
Defined.

Lemma readi_exact_witness :
  exists (s : fsst lst) r s' w', readi (W := local) 0 false 0 0 16 (s, replicate 16 x00) = Ok r (s', w').
Proof.
  destruct (fok0 0 ltac:(lia)) as (s & Hf).
  destruct (readi_exact (W := local) s sb0 it0 0 V0 ip0 X0 0 (fun tot w => w = splice (replicate 16 x00) 0 (fdata V0 ip0 0 (Z.to_nat tot)))
    (fun _ => False) false 0 0 16 (replicate 16 x00) Hf holes0) as (r & s' & w' & E & _);
    rewrite ?small0; cbn [ip0 i_size]; try lia; try reflexivity.
  - change (read_len ip0 0 16) with 16. apply local_out; rewrite ?length_replicate; lia.
  - exists s, r, s', w'. exact E.
Defined.

Lemma write_then_read_witness :
  exists (s : fsst lst) r s1 s2, writei (W := local) 0 false 0 30 4 (s, bytes "abcd") = Ok r (s1, bytes "abcd") /\
    readi (W := local) 0 false 0 30 r (s1, replicate 4 x00) = Ok r (s2, splice (replicate 4 x00) 0 (take (Z.to_nat r) (bytes "abcd"))).
Proof.
  destruct (fok0 3 ltac:(lia)) as (s & Hf).
  destruct (write_then_read s sb0 it0 0 V0 ip0 X0 0 1 30 (bytes "abcd") (replicate 4 x00) Hf holes0) as (r & s1 & s2 & E1 & _ & E2);
    change (Z.of_nat (length (bytes "abcd"))) with 4; rewrite ?small0; [fs0..|].
  exists s, r, s1, s2. split; [exact E1|exact E2].
Defined.

Lemma itrunc_frees_witness : exists (s : fsst lst) s', itrunc 0 s = Ok tt s'.
Proof.
  destruct (fok0 0 ltac:(lia)) as (s & Hf).
  destruct (itrunc_frees s sb0 it0 0 V0 ip0 X0 0 Hf dinode_ok0 ltac:(cbn; lia) iblock0) as (s' & _ & _ & E & _).
  exists s, s'. exact E.
Defined.

Lemma iupdate_ilock_roundtrip_witness :
  exists (s : fsst lst) s1 s2, iupdate 0 s = Ok tt s1 /\ ilock (Some 0%nat) s1 = Ok tt s2.
Proof.
  pose (x := i_set_valid false ip0). destruct (fs0_rep [x] X0 0) as (s & Hr).
  { change (size X0) with 3%nat. lia. }
  { intros n Hn. unfold X0 in Hn. rewrite !elem_of_union, !elem_of_singleton in Hn. lia. }
  destruct (iupdate_ilock_roundtrip s sb0 [x] V0 ∅ X0 0 0 x 0 x Hr geom0) as (s1 & s2 & _ & _ & E1 & _ & _ & E2 & _);
    try reflexivity; try exact dinode_ok0; try exact iblock0; try (cbn; lia).
  - intros i. by rewrite lookup_empty.
  - rewrite map_size_empty. lia.
  - discriminate.
  - exists s, s1, s2. split; [exact E1|exact E2].
Defined.

Lemma iget_unique_witness : exists (s : fsst lst) ip s', iget 1 5 s = Ok ip s'.
Proof.
  destruct (fok0 0 ltac:(lia)) as (s & [Hr _ _ _ _ _]).
  destruct (iget_unique s sb0 it0 V0 ∅ ∅ X0 0 1 5 Hr (tb_table _ _ _ tab0)) as [(ip & s' & _ & _ & E & _)|(_ & H)].
  - exists s, ip, s'. exact E.
  - specialize (H 1%nat inode0 eq_refl). cbn in H. lia.
Defined.

Lemma free_entry0 e : free_entry V0 ip0 e -> e = 2.
Proof.
  intros (H1 & H2 & H3). change (nents ip0) with 2 in *. destruct dents0 as [D0 D1].
  assert (e = 0 \/ e = 1 \/ e = 2) as [-> |[-> | ->]] by lia; [rewrite D0 in H3|rewrite D1 in H3|done]; cbn in H3; lia.
Qed.

Lemma no_entry0 : no_entry V0 ip0 (bytes "a" ++ [x00]).
Proof.
  intros j Hj [_ Hk]. change (nents ip0) with 2 in Hj. destruct dents0 as [D0 D1].
  assert (j = 0 \/ j = 1) as [-> | ->] by lia; [rewrite D0 in Hk|rewrite D1 in Hk]; vm_compute in Hk; discriminate.
Qed.

Lemma nul_end l : x00 ∈ l ++ [x00].
Proof. apply elem_of_app. right. apply list_elem_of_here. Qed.

Lemma dirlink_dirlookup_witness :
  exists (s : fsst lst) r s1, dirlink 0 (bytes "a" ++ [x00]) 5 s = Ok r s1.
Proof.
  destruct (fok0 3 ltac:(lia)) as (s & Hf).
  destruct (dirlink_dirlookup s sb0 it0 0 V0 ip0 X0 0 (bytes "a" ++ [x00]) 5 Hf (tb_table _ _ _ tab0) dir0) as [_ H].
  - right. apply nul_end.
  - exists 1%nat, inode0. split; reflexivity.
  - cbn. lia.
  - exact dinode_ok0.
  - cbn. lia.
  - exact iblock0.
  - lia.
  - intros e ->%free_entry0. rewrite small0. split; [lia|]. split; [apply paths0; lia|apply room0; lia].
  - destruct (H no_entry0) as (e & r & s1 & _ & _ & _ & _ & E & _). exists s, r, s1. exact E.
Defined.

Lemma namei_resolves_witness :
  exists (s : fsst lst) r s', namei 0 (bytes "/./.." ++ [x00]) s = Ok r s'.
Proof.
  destruct (fok0 0 ltac:(lia)) as (s & [Hr _ _ _ Hok Hm]).
  destruct (namei_resolves sb0 V0 X0 0 s it0 0 ip0 (bytes "/./.." ++ [x00]) (replicate 14 x00) Hok Hm good0)
    as [(r & _ & s' & _ & E & _) _].
  - reflexivity.
  - apply live0. reflexivity.
  - change ROOTINO with 1. rewrite root_at0. discriminate.
  - exact Hr.
  - exact tab0.
  - reflexivity.
  - reflexivity.
  - vm_compute. discriminate.
  - apply nul_end.
  - reflexivity.
  - exists s, r, s'. exact E.
Defined.
