(* ===== verification/Ring.v ===== *)
(** * Ring buffers

    A ring of [size] entries whose positions are counters that only grow and wrap at
    [W], a multiple of [size]: the console's input, the transmit buffer of the
    UART, the rings of the disk's queue. *)

From S2P Require Import Prelude.

Section ring.
Context {A : Type} {A_inh : Inhabited A} (size W : Z).
Hypothesis size_pos : 0 < size.
Hypothesis size_W : (size | W).
Implicit Types (d : list A) (r : Z) (n : nat).

Definition at_ring (d : list A) (z : Z) : A := d !!! Z.to_nat (z mod size).

(** The [n] entries from the counter [r] on. *)
Definition window (d : list A) (r : Z) (n : nat) : list A := (fun k => at_ring d (r + Z.of_nat k)) <$> seq 0 n.

Lemma length_window d r n : length (window d r n) = n.
Proof. unfold window. by rewrite length_fmap, length_seq. Qed.

Lemma wrap_size z : (z mod W) mod size = z mod size.
Proof using size_W. by apply Z.mod_mod_divide. Qed.

Lemma at_ring_wrap d z : at_ring d (z mod W) = at_ring d z.
Proof using size_W. unfold at_ring. by rewrite wrap_size. Qed.

Lemma at_ring_add_wrap d z k : at_ring d (z mod W + k) = at_ring d (z + k).
Proof using size_W. rewrite <- at_ring_wrap, Zplus_mod_idemp_l. apply at_ring_wrap. Qed.

Lemma window_wrap d r n : window d (r mod W) n = window d r n.
Proof using size_W. unfold window. apply list_fmap_ext. intros _ k _. apply at_ring_add_wrap. Qed.

Lemma window_app d r n m : window d r (n + m) = window d r n ++ window d (r + Z.of_nat n) m.
Proof.
  unfold window. rewrite seq_app, fmap_app. f_equal. rewrite Nat.add_0_l, <- (Nat.add_0_r n), <- fmap_add_seq, Nat.add_0_r, <- list_fmap_compose.
  apply list_fmap_ext. intros _ k _. cbn. f_equal. lia.
Qed.

Lemma window_S d r n : window d r (S n) = at_ring d r :: window d (r + 1) n.
Proof. change (S n) with (1 + n)%nat. rewrite window_app. cbn. by rewrite Z.add_0_r. Qed.

Lemma window_snoc d r n : window d r (S n) = window d r n ++ [at_ring d (r + Z.of_nat n)].
Proof. rewrite <- Nat.add_1_r, window_app. cbn. by rewrite Z.add_0_r. Qed.

Definition ring_put (d : list A) (z : Z) (b : A) : list A := <[Z.to_nat (z mod size) := b]> d.

Lemma window_put d r n z b :
  length d = Z.to_nat size -> (forall k, (k < n)%nat -> (r + Z.of_nat k) mod size <> z mod size) -> window (ring_put d z b) r n = window d r n.
Proof using size_pos.
  intros Hd Hz. unfold window. apply list_fmap_ext. intros k ? [-> Hk]%lookup_seq. unfold at_ring, ring_put. apply list_lookup_total_insert_ne.
  specialize (Hz _ Hk). cbn in Hz |- *. pose proof (Z.mod_pos_bound z size size_pos). pose proof (Z.mod_pos_bound (r + Z.of_nat k) size size_pos). lia.
Qed.

Lemma at_ring_put d z b : length d = Z.to_nat size -> at_ring (ring_put d z b) z = b.
Proof using size_pos. intros Hd. apply list_lookup_total_insert_eq. rewrite Hd. pose proof (Z.mod_pos_bound z size size_pos). lia. Qed.

Lemma ring_distinct r k : 0 < k < size -> (r + k) mod size <> r mod size.
Proof using size_pos. intros Hk E. assert ((r + k - r) mod size = 0) as H by (rewrite Zminus_mod, E, Z.sub_diag; apply Z.mod_0_l; lia). replace (r + k - r) with k in H by lia. rewrite Z.mod_small in H; lia. Qed.

(** An entry stored behind the last one. *)
Lemma window_push d r n b :
  length d = Z.to_nat size -> Z.of_nat n < size -> window (ring_put d (r + Z.of_nat n) b) r (S n) = window d r n ++ [b].
Proof using size_pos.
  intros Hd Hn. rewrite window_snoc, at_ring_put by done. f_equal. apply window_put; [done|]. intros k Hk E.
  apply (ring_distinct (r + Z.of_nat k) (Z.of_nat n - Z.of_nat k)); [lia|]. rewrite E. f_equal. lia.
Qed.

Lemma at_ring_lookup d z : length d = Z.to_nat size -> d !! Z.to_nat (z mod size) = Some (at_ring d z).
Proof using size_pos. intros Hd. apply list_lookup_lookup_total_lt. rewrite Hd. pose proof (Z.mod_pos_bound z size size_pos). lia. Qed.
End ring.
