(* ===== verification/Pipe.v ===== *)
(** * Pipes (kernel/pipe.c)

    [struct pipe] and the bodies of [pipewrite], [piperead] and [pipeclose].
    [pi->lock] makes everything between two calls of [sleep] atomic, so a system
    call on a pipe is a sequence of segments: a segment runs from the acquisition
    of the lock to the return or to the next [sleep], and says which.  The calls
    of [wakeup] are recorded in the order in which they are made. *)

From S2P Require Import Prelude CString Bio FsLayout TxnLayer Fs.

Definition PIPESIZE : Z := 512.

Record pipe := mkPipe {
  p_data : list byte; p_nread : Z; p_nwrite : Z; p_readopen : bool; p_writeopen : bool
}.

(** The channels that are slept on: the addresses of the two counters. *)
Inductive chan := ch_nread | ch_nwrite.

(** How a segment ends: the call returns, or sleeps on a channel with the given
    value of its counter [i]. *)
Inductive segment := Return (r : Z) | Sleep (c : chan) (i : Z).

(** The calling process: its memory, and its [killed] flag, which other
    processes may set at any time. *)
Class ProcOps (W : Type) := {
  proc_copy :: CopyOps W;
  killed : M W bool
}.

Record pst (W : Type) := mkPst { ps_pipe : pipe; ps_w : W; ps_woken : list chan }.
Arguments mkPst {W}. Arguments ps_pipe {W}. Arguments ps_w {W}. Arguments ps_woken {W}.

Section pipe.
Context {W : Type} {P : ProcOps W}.

Definition upd_p (f : pipe -> pipe) (s : pst W) : pst W := mkPst (f (ps_pipe s)) (ps_w s) (ps_woken s).
Definition in_w {A} (m : M W A) : M (pst W) A := zoom ps_w (fun w s => mkPst (ps_pipe s) w (ps_woken s)) m.
Definition wakeup (c : chan) : M (pst W) unit := modify (fun s => mkPst (ps_pipe s) (ps_w s) (ps_woken s ++ [c])).

Definition p_push (ch : byte) (p : pipe) : pipe :=
  mkPipe (<[Z.to_nat (p_nwrite p mod PIPESIZE) := ch]> (p_data p)) (p_nread p) (u32 (p_nwrite p + 1))
         (p_readopen p) (p_writeopen p).
Definition p_pop (p : pipe) : pipe :=
  mkPipe (p_data p) (u32 (p_nread p + 1)) (p_nwrite p) (p_readopen p) (p_writeopen p).

(** A pipe as [pipealloc] fills it in; the data is what the page held. *)
Definition pipe_init (junk : list byte) : pipe := mkPipe junk 0 0 true true.

Definition pipeclose (writable : bool) : M (pst W) bool :=
  (if writable then
     modify (upd_p (fun p => mkPipe (p_data p) (p_nread p) (p_nwrite p) (p_readopen p) false));;;
     wakeup ch_nread
   else
     modify (upd_p (fun p => mkPipe (p_data p) (p_nread p) (p_nwrite p) false (p_writeopen p)));;;
     wakeup ch_nwrite);;;
  p <- gets ps_pipe;;
  (* the caller frees the page when this is true *)
  ret (negb (p_readopen p) && negb (p_writeopen p)).

Fixpoint pipewrite_loop (fuel : nat) (addr n i : Z) : M (pst W) segment :=
  match fuel with
  | O => nofuel
  | S fuel =>
    if i <? n then
      p <- gets ps_pipe;;
      k <- (if negb (p_readopen p) then ret true else in_w killed);;
      if k then ret (Return (-1))
      else if p_nwrite p =? u32 (p_nread p + PIPESIZE) then
        wakeup ch_nread;;;
        ret (Sleep ch_nwrite i)
      else
        c <- in_w (either_copyin true (u64 (addr + i)) 1);;
        if snd c =? -1 then wakeup ch_nread;;; ret (Return i)
        else
          ch <- from_opt (fst c !! 0%nat);;
          modify (upd_p (p_push ch));;;
          pipewrite_loop fuel addr n (i + 1)
    else wakeup ch_nread;;; ret (Return i)
  end.

(** From the start ([i = 0]) or from a [sleep] in the loop. *)
Definition pipewrite (addr n i : Z) : M (pst W) segment :=
  pipewrite_loop (S (Z.to_nat (n - i))) addr n i.

Fixpoint piperead_loop (fuel : nat) (addr n i : Z) : M (pst W) Z :=
  match fuel with
  | O => nofuel
  | S fuel =>
    if i <? n then
      p <- gets ps_pipe;;
      if p_nread p =? p_nwrite p then ret i
      else
        ch <- from_opt (p_data p !! Z.to_nat (p_nread p mod PIPESIZE));;
        modify (upd_p p_pop);;;
        r <- in_w (either_copyout true (u64 (addr + i)) [ch]);;
        if r =? -1 then ret i
        else piperead_loop fuel addr n (i + 1)
    else ret i
  end.

(** From the start or from the [sleep], which is before any byte is read. *)
Definition piperead (addr n : Z) : M (pst W) segment :=
  p <- gets ps_pipe;;
  if (p_nread p =? p_nwrite p) && p_writeopen p then
    k <- in_w killed;;
    if k then ret (Return (-1)) else ret (Sleep ch_nread 0)
  else
    i <- piperead_loop (S (Z.to_nat n)) addr n 0;;
    wakeup ch_nwrite;;;
    ret (Return i).
End pipe.
