(* ===== verification/PipeSpec.v ===== *)
(** * Pipes: a pipe is a bounded queue of bytes

    The contents of the ring, the effect of every segment on them, and the
    machine in which any number of readers and writers run segments in any order. *)

From S2P Require Import Prelude CString Bio FsLayout TxnLayer Fs Pipe.

(** What the pipe relies on in a process: one byte is copied in and out at an
    address of its memory, or not at all. *)
Class ProcLaws (W : Type) {P : ProcOps W} := {
  u_get : W -> Z -> option byte;
  copyin_ok : forall w a, 0 <= a < 2 ^ 64 ->
    match u_get w a with
    | Some b => either_copyin true a 1 w = Ok ([b], 0) w
    | None => exists x, either_copyin true a 1 w = Ok (x, -1) w
    end;
  copyout_ok : forall w a b, 0 <= a < 2 ^ 64 ->
    exists r w', either_copyout true a [b] w = Ok r w' /\
      (r = -1 /\ (forall a', u_get w' a' = u_get w a') \/
       r = 0 /\ forall a', u_get w' a' = if a' =? a then Some b else u_get w a');
  killed_ok : forall w, exists k w', killed w = Ok k w' /\ forall a, u_get w' a = u_get w a
}.

(** ** The ring *)

Definition p_len (p : pipe) : Z := u32 (p_nwrite p - p_nread p).
Definition ring (p : pipe) (k : nat) : byte := p_data p !!! Z.to_nat ((p_nread p + Z.of_nat k) mod PIPESIZE).
Definition contents (p : pipe) : list byte := ring p <$> seq 0 (Z.to_nat (p_len p)).

Record pinv (p : pipe) : Prop := {
  pi_data : length (p_data p) = Z.to_nat PIPESIZE;
  pi_nread : 0 <= p_nread p < 2 ^ 32;
  pi_nwrite : 0 <= p_nwrite p < 2 ^ 32;
  pi_len : p_len p <= PIPESIZE
}.

Lemma length_contents p : length (contents p) = Z.to_nat (p_len p).
Proof. unfold contents. by rewrite length_fmap, length_seq. Qed.

Lemma p_len_range p : 0 <= p_len p < 2 ^ 32.
Proof. apply u32_range. Qed.

(** The tests of the code. *)
Lemma p_empty p : pinv p -> (p_nread p =? p_nwrite p) = true <-> contents p = [].
Proof.
  intros [Hd Hr Hw Hl]. rewrite Z.eqb_eq, <- length_zero_iff_nil, length_contents.
  pose proof (p_len_range p). unfold p_len, u32 in *. split; intros; dlia.
Qed.

Lemma p_full p : pinv p -> (p_nwrite p =? u32 (p_nread p + PIPESIZE)) = true <-> Z.of_nat (length (contents p)) = PIPESIZE.
Proof.
  intros [Hd Hr Hw Hl]. rewrite Z.eqb_eq, length_contents. pose proof (p_len_range p).
  unfold p_len, u32, PIPESIZE in *. split; intros; dlia.
Qed.

(** The counters wrap around, which does not move positions in the ring. *)
Lemma wrap_pos z : u32 z mod PIPESIZE = z mod PIPESIZE.
Proof. unfold u32, PIPESIZE. dlia. Qed.

Lemma p_push_ok p b :
  pinv p -> Z.of_nat (length (contents p)) < PIPESIZE ->
  pinv (p_push b p) /\ contents (p_push b p) = contents p ++ [b] /\ p_len (p_push b p) = p_len p + 1.
Proof.
  intros [Hd Hr Hw Hl] Hn. rewrite length_contents in Hn. pose proof (p_len_range p) as Hp.
  assert (p_len (p_push b p) = p_len p + 1) as E.
  { unfold p_len, p_push, u32, PIPESIZE in *. cbn. dlia. }
  split; [|split; [|done]].
  - split; [cbn; by rewrite length_insert|done|apply u32_range|rewrite E; lia].
  - unfold contents. rewrite E. replace (Z.to_nat (p_len p + 1)) with (S (Z.to_nat (p_len p))) by lia.
    rewrite seq_S, fmap_app. cbn [fmap list_fmap]. f_equal.
    + apply list_fmap_ext. intros j k [-> Hk]%lookup_seq. unfold ring, p_push. cbn [p_data p_nread].
      rewrite list_lookup_total_insert_ne; [done|].
      unfold p_len, u32, PIPESIZE in *. dlia.
    + unfold ring, p_push. cbn [p_data p_nread]. f_equal.
      replace (Z.to_nat ((p_nread p + Z.of_nat (0 + Z.to_nat (p_len p))) mod PIPESIZE))
        with (Z.to_nat (p_nwrite p mod PIPESIZE)) by (unfold p_len, u32, PIPESIZE in *; dlia).
      apply list_lookup_total_insert_eq. rewrite Hd. unfold PIPESIZE. dlia.
Qed.

Lemma p_pop_ok p :
  pinv p -> contents p <> [] ->
  exists b, p_data p !! Z.to_nat (p_nread p mod PIPESIZE) = Some b /\
    pinv (p_pop p) /\ contents p = b :: contents (p_pop p) /\ p_len p = p_len (p_pop p) + 1.
Proof.
  intros [Hd Hr Hw Hl] Hn. pose proof (p_len_range p) as Hp.
  assert (0 < p_len p) as Hpos.
  { destruct (decide (0 < p_len p)); [done|]. destruct Hn. apply length_zero_iff_nil. rewrite length_contents. lia. }
  assert (p_len p = p_len (p_pop p) + 1) as E.
  { unfold p_len, p_pop, u32, PIPESIZE in *. cbn. dlia. }
  exists (ring p 0). split; [|split; [|split; [|done]]].
  - unfold ring. rewrite Z.add_0_r. apply list_lookup_lookup_total_lt. rewrite Hd. unfold PIPESIZE. dlia.
  - split; [done|apply u32_range|done|lia].
  - unfold contents. rewrite E. pose proof (p_len_range (p_pop p)).
    replace (Z.to_nat (p_len (p_pop p) + 1)) with (S (Z.to_nat (p_len (p_pop p)))) by lia.
    cbn [seq fmap list_fmap]. f_equal. rewrite <- fmap_S_seq, <- list_fmap_compose.
    apply list_fmap_ext. intros _ k _. cbn. unfold ring. cbn [p_data p_nread p_pop]. f_equal. f_equal.
    unfold u32, PIPESIZE. dlia.
Qed.

(** ** The segments *)

Section segments.
Context {W : Type} {P : ProcOps W} {L : ProcLaws W}.
Implicit Types (s : pst W) (w : W).

Definition same_mem (w w' : W) : Prop := forall a, u_get w' a = u_get w a.
Definition same_ends (p p' : pipe) : Prop := p_readopen p' = p_readopen p /\ p_writeopen p' = p_writeopen p.

(** How a segment of [pipewrite] ends after it has put [bs] into the pipe. *)
Definition write_end (s : pst W) (addr n i : Z) (bs : list byte) (sg : segment) (s' : pst W) : Prop :=
  match sg with
  | Return r =>
      r = -1 /\ ps_woken s' = ps_woken s /\
        (bs = [] -> p_readopen (ps_pipe s) = false \/ exists w, killed (ps_w s) = Ok true w) /\
        (bs <> [] -> exists w0 w1 w2, killed w0 = Ok false w1 /\ killed w1 = Ok true w2) \/
      r = i + Z.of_nat (length bs) /\ ps_woken s' = ps_woken s ++ [ch_nread] /\
        (r < n -> u_get (ps_w s) (u64 (addr + r)) = None)
  | Sleep c i' =>
      c = ch_nwrite /\ i' = i + Z.of_nat (length bs) /\ i' < n /\ ps_woken s' = ps_woken s ++ [ch_nread] /\
      Z.of_nat (length (contents (ps_pipe s'))) = PIPESIZE /\ p_readopen (ps_pipe s') = true
  end.

Lemma in_w_ok {A} (m : M W A) s a w' :
  m (ps_w s) = Ok a w' -> in_w m s = Ok a (mkPst (ps_pipe s) w' (ps_woken s)).
Proof. intros E. unfold in_w, zoom. by rewrite E. Qed.

(** The [killed] test of a writer: the process's memory is left alone. *)
Lemma write_test s :
  exists k w, (if negb (p_readopen (ps_pipe s)) then ret true else in_w killed) s =
      Ok k (mkPst (ps_pipe s) w (ps_woken s)) /\ same_mem (ps_w s) w /\
    (if k then p_readopen (ps_pipe s) = false \/ killed (ps_w s) = Ok true w
     else p_readopen (ps_pipe s) = true /\ killed (ps_w s) = Ok false w).
Proof.
  destruct s as [p w ws]. cbn. destruct (p_readopen p) eqn:Ep; cbn.
  - destruct (killed_ok w) as (k & w' & E & Hm). exists k, w'. split; [by apply (in_w_ok _ (mkPst p w ws))|].
    split; [done|]. destruct k; auto.
  - exists true, w. split; [done|]. split; [done|auto].
Qed.

Definition wrote_from (w : W) (addr i : Z) (bs : list byte) : Prop :=
  forall j b, bs !! j = Some b -> u_get w (u64 (addr + i + Z.of_nat j)) = Some b.

Record wrote_ok (s : pst W) (addr n i : Z) (bs : list byte) (sg : segment) (s' : pst W) : Prop := {
  wo_inv : pinv (ps_pipe s');
  wo_contents : contents (ps_pipe s') = contents (ps_pipe s) ++ bs;
  wo_nread : p_nread (ps_pipe s') = p_nread (ps_pipe s);
  wo_bytes : wrote_from (ps_w s) addr i bs;
  wo_ends : same_ends (ps_pipe s) (ps_pipe s');
  wo_mem : same_mem (ps_w s) (ps_w s');
  wo_end : write_end s addr n i bs sg s'
}.

Lemma wrote_nil s addr n i sg w ws :
  pinv (ps_pipe s) -> same_mem (ps_w s) w -> write_end s addr n i [] sg (mkPst (ps_pipe s) w ws) ->
  wrote_ok s addr n i [] sg (mkPst (ps_pipe s) w ws).
Proof. intros. split; try done. cbn. by rewrite app_nil_r. Qed.

Lemma wrote_cons s addr n i b bs sg w s' :
  contents (p_push b (ps_pipe s)) = contents (ps_pipe s) ++ [b] -> p_readopen (ps_pipe s) = true ->
  killed (ps_w s) = Ok false w -> same_mem (ps_w s) w -> u_get (ps_w s) (u64 (addr + i)) = Some b ->
  wrote_ok (mkPst (p_push b (ps_pipe s)) w (ps_woken s)) addr n (i + 1) bs sg s' ->
  wrote_ok s addr n i (b :: bs) sg s'.
Proof.
  intros Hc Ho Hk Hm Hb [Wi Wc Wr Wb We Wm Wend]. cbn in *. split; try done.
  - by rewrite Wc, Hc, <- app_assoc.
  - intros [|j] c Hj; cbn in Hj.
    + simplify_eq. by rewrite Z.add_0_r.
    + apply Wb in Hj. rewrite Hm in Hj. rewrite <- Hj. f_equal. f_equal. lia.
  - intros a. by rewrite Wm, Hm.
  - unfold write_end in *. cbn in *. destruct sg as [r|c i'].
    + destruct Wend as [(-> & Hw & H0 & H1)|(-> & Hw & Hn)]; [left|right].
      * split; [done|]. split; [done|]. split; [done|]. intros _. destruct bs as [|c bs]; [|by apply H1].
        destruct (H0 eq_refl) as [?|[w2 ?]]; [congruence|eauto].
      * split; [lia|]. split; [done|]. rewrite <- Hm. intros. rewrite <- Hn by lia. f_equal.
    + destruct Wend as (-> & -> & ? & ? & ? & ?). split_and!; try done. lia.
Qed.

Lemma pipewrite_loop_ok fuel s addr n i :
  pinv (ps_pipe s) -> 0 <= i -> (Z.to_nat (n - i) < fuel)%nat ->
  exists sg s' bs, pipewrite_loop fuel addr n i s = Ok sg s' /\ wrote_ok s addr n i bs sg s'.
Proof.
  revert s i. induction fuel as [|fuel IH]; intros s i Hp Hi Hf; [lia|]. cbn [pipewrite_loop].
  destruct (Z.ltb_spec i n) as [Hlt|Hge].
  2:{ do 2 eexists. exists []. split; [done|]. apply (wrote_nil s); [done|done|]. right. cbn. split_and!; [lia|done|lia]. }
  run1. destruct (write_test s) as (k & w & E & Hm & Hk). run E. destruct k.
  { do 2 eexists. exists []. split; [done|]. apply (wrote_nil s); [done|done|]. left. split_and!; try done. naive_solver. }
  destruct Hk as [Ho Hk]. destruct (p_nwrite (ps_pipe s) =? u32 (p_nread (ps_pipe s) + PIPESIZE)) eqn:Ef.
  { do 2 eexists. exists []. split; [done|]. apply (wrote_nil s); [done|done|]. cbn. apply p_full in Ef; [|done]. split_and!; [done|lia|lia|done..]. }
  pose proof (copyin_ok w (u64 (addr + i)) (u64_range _)) as Hc. rewrite Hm in Hc.
  destruct (u_get (ps_w s) (u64 (addr + i))) as [b|] eqn:Eb.
  2:{ destruct Hc as [x Hc]. erewrite bind_ok by (by apply (in_w_ok _ (mkPst _ w _))). cbn.
      do 2 eexists. exists []. split; [done|]. apply (wrote_nil s); [done|done|]. right. cbn.
      split_and!; [lia|done|done]. }
  erewrite bind_ok by (by apply (in_w_ok _ (mkPst _ w _))). cbn [snd fst Z.eqb].
  erewrite bind_ok by (cbn; reflexivity). run1.
  destruct (p_push_ok (ps_pipe s) b Hp) as (Hp' & Hc' & _).
  { assert (Z.of_nat (length (contents (ps_pipe s))) <> PIPESIZE).
    { intros H. apply p_full in H; [|done]. by rewrite Ef in H. }
    pose proof (pi_len _ Hp). rewrite length_contents in *. pose proof (p_len_range (ps_pipe s)). lia. }
  destruct (IH (mkPst (p_push b (ps_pipe s)) w (ps_woken s)) (i + 1)) as (sg & s' & bs & E' & Hw); [done|lia|lia|].
  exists sg, s', (b :: bs). split; [exact E'|]. by eapply wrote_cons.
Qed.

(** The bytes [bs] are in memory from [addr + i] on, and nothing else changed. *)
Definition stored (w : W) (addr i : Z) (bs : list byte) (w' : W) : Prop :=
  (forall j b, bs !! j = Some b -> u_get w' (u64 (addr + i + Z.of_nat j)) = Some b) /\
  (forall a, (forall j, (j < length bs)%nat -> a <> u64 (addr + i + Z.of_nat j)) -> u_get w' a = u_get w a).

(** The result of the loop: [bs] has been taken out of the pipe, the first
    [r - i] bytes of it are in memory, which are all unless a copy failed. *)
Record read_loop_ok (s : pst W) (addr n i : Z) (bs : list byte) (r : Z) (s' : pst W) : Prop := {
  ro_inv : pinv (ps_pipe s');
  ro_contents : contents (ps_pipe s) = bs ++ contents (ps_pipe s');
  ro_nwrite : p_nwrite (ps_pipe s') = p_nwrite (ps_pipe s);
  ro_ends : same_ends (ps_pipe s) (ps_pipe s');
  ro_woken : ps_woken s' = ps_woken s;
  ro_r : i <= r <= Z.max i n;
  ro_mem : stored (ps_w s) addr i (take (Z.to_nat (r - i)) bs) (ps_w s');
  ro_len : Z.of_nat (length bs) = r - i /\ (n <= r \/ contents (ps_pipe s') = []) \/
           Z.of_nat (length bs) = r - i + 1 /\ r < n
}.

Lemma u64_inj_near a b c : u64 (a + b) = u64 (a + c) -> Z.abs (b - c) < 2 ^ 64 -> b = c.
Proof. unfold u64. intros H Hb. dlia. Qed.

Lemma stored_nil w addr i : stored w addr i [] w.
Proof. split; [done|]. by intros. Qed.

Lemma stored_cons w w1 addr i b bs w' :
  (forall a, u_get w1 a = if a =? u64 (addr + i) then Some b else u_get w a) ->
  Z.of_nat (length bs) < 2 ^ 32 ->
  stored w1 addr (i + 1) bs w' -> stored w addr i (b :: bs) w'.
Proof.
  intros H1 Hl [Hb Ho]. split.
  - intros [|j] c Hj; cbn in Hj; simplify_eq.
    + rewrite Z.add_0_r, Ho, H1, Z.eqb_refl; [done|]. intros j Hj E.
      rewrite <- Z.add_assoc in E. replace (addr + i) with (addr + (i + 0)) in E by lia.
      rewrite <- !Z.add_assoc in E. apply u64_inj_near in E; lia.
    + rewrite <- (Hb _ _ Hj). f_equal. f_equal. lia.
  - intros a Ha. rewrite Ho, H1.
    + destruct (Z.eqb_spec a (u64 (addr + i))) as [->|]; [|done]. destruct (Ha 0%nat); cbn; [lia|]. f_equal. lia.
    + intros j Hj E. apply (Ha (S j)); [cbn; lia|]. rewrite E. f_equal. lia.
Qed.

Lemma read_stop s addr n i : pinv (ps_pipe s) -> n <= i \/ contents (ps_pipe s) = [] -> read_loop_ok s addr n i [] i s.
Proof. intros. split; try done; [lia|rewrite Z.sub_diag; apply stored_nil|left; cbn; split; [lia|done]]. Qed.

Lemma piperead_loop_ok fuel s addr n i :
  pinv (ps_pipe s) -> 0 <= i -> n < 2 ^ 31 -> (Z.to_nat (n - i) < fuel)%nat ->
  exists r s' bs, piperead_loop fuel addr n i s = Ok r s' /\ read_loop_ok s addr n i bs r s'.
Proof.
  revert s i. induction fuel as [|fuel IH]; intros s i Hp Hi Hn Hf; [lia|]. cbn [piperead_loop].
  destruct (Z.ltb_spec i n) as [Hlt|Hge].
  2:{ exists i, s, []. split; [done|]. apply read_stop; auto. }
  run1. destruct (p_nread (ps_pipe s) =? p_nwrite (ps_pipe s)) eqn:Ee.
  { exists i, s, []. split; [done|]. apply read_stop; [done|]. right. by apply p_empty. }
  destruct (p_pop_ok (ps_pipe s) Hp) as (b & Eb & Hp' & Ec & _).
  { intros E. apply p_empty in E; [|done]. congruence. }
  rewrite Eb. cbn [from_opt]. run1. run1. set (s1 := upd_p p_pop s).
  destruct (copyout_ok (ps_w s) (u64 (addr + i)) b (u64_range _)) as (r & w & Eo & Hm).
  erewrite bind_ok by (by apply (in_w_ok _ s1)). destruct Hm as [[-> Hm]|[-> Hm]]; cbn [Z.eqb].
  - do 2 eexists. exists [b]. split; [done|]. split; try done; [lia| |right; cbn; lia].
    rewrite Z.sub_diag. split; [done|]. intros. apply Hm.
  - destruct (IH (mkPst (p_pop (ps_pipe s)) w (ps_woken s)) (i + 1)) as (r & s' & bs & E' & [Ri Rc Rn Re Rw Rr Rm Rl]);
      [done|lia|lia|lia|].
    exists r, s', (b :: bs). split; [exact E'|]. cbn in *. split; try done; [by rewrite Ec, Rc|lia| |].
    + replace (Z.to_nat (r - i)) with (S (Z.to_nat (r - (i + 1)))) by lia. cbn [take].
      eapply stored_cons; [exact Hm| |exact Rm]. rewrite length_take. lia.
    + cbn. destruct Rl as [[? ?]|[? ?]]; [left|right]; (split; [lia|]); [|lia]. done.
Qed.

(** How a segment of [piperead] ends. *)
Definition read_end (s : pst W) (addr n : Z) (bs : list byte) (sg : segment) (s' : pst W) : Prop :=
  match sg with
  | Return r =>
      r = -1 /\ bs = [] /\ contents (ps_pipe s) = [] /\ ps_woken s' = ps_woken s /\
        (exists w, killed (ps_w s) = Ok true w) \/
      0 <= r <= Z.max 0 n /\ ps_woken s' = ps_woken s ++ [ch_nwrite] /\
        stored (ps_w s) addr 0 (take (Z.to_nat r) bs) (ps_w s') /\
        (Z.of_nat (length bs) = r /\ (n <= r \/ contents (ps_pipe s') = []) \/ Z.of_nat (length bs) = r + 1 /\ r < n)
  | Sleep c _ =>
      c = ch_nread /\ bs = [] /\ contents (ps_pipe s) = [] /\ p_writeopen (ps_pipe s) = true /\
      ps_woken s' = ps_woken s /\ same_mem (ps_w s) (ps_w s')
  end.

Record read_ok (s : pst W) (addr n : Z) (bs : list byte) (sg : segment) (s' : pst W) : Prop := {
  rd_inv : pinv (ps_pipe s');
  rd_contents : contents (ps_pipe s) = bs ++ contents (ps_pipe s');
  rd_nwrite : p_nwrite (ps_pipe s') = p_nwrite (ps_pipe s);
  rd_ends : same_ends (ps_pipe s) (ps_pipe s');
  rd_end : read_end s addr n bs sg s'
}.

Lemma piperead_ok s addr n :
  pinv (ps_pipe s) -> n < 2 ^ 31 ->
  exists sg s' bs, piperead addr n s = Ok sg s' /\ read_ok s addr n bs sg s'.
Proof.
  intros Hp Hn. unfold piperead. run1.
  destruct ((p_nread (ps_pipe s) =? p_nwrite (ps_pipe s)) && p_writeopen (ps_pipe s)) eqn:E.
  - apply andb_true_iff in E as [Ee Eo]. apply p_empty in Ee; [|done].
    destruct (killed_ok (ps_w s)) as (k & w & Ek & Hm). erewrite bind_ok by (by apply in_w_ok).
    destruct k; do 2 eexists; exists []; (split; [done|]); split; try done; cbn.
    left. eauto 6.
  - destruct (piperead_loop_ok (S (Z.to_nat n)) s addr n 0) as (r & s1 & bs & E1 & [Ri Rc Rn Re Rw Rr Rm Rl]); [done|lia|lia|lia|].
    run E1. do 2 eexists. exists bs. split; [done|]. split; try done. cbn. rewrite Z.sub_0_r in *. right. rewrite Rw. done.
Qed.

Lemma pipewrite_ok s addr n i :
  pinv (ps_pipe s) -> 0 <= i -> exists sg s' bs, pipewrite addr n i s = Ok sg s' /\ wrote_ok s addr n i bs sg s'.
Proof. intros. apply pipewrite_loop_ok; [done|done|lia]. Qed.

(** The counters tell how many bytes went in or out. *)
Lemma pushed_count s addr n i bs sg s' :
  pinv (ps_pipe s) -> wrote_ok s addr n i bs sg s' ->
  Z.to_nat (u32 (p_nwrite (ps_pipe s') - p_nwrite (ps_pipe s))) = length bs.
Proof.
  intros Hp [Wi Wc Wr _ _ _ _]. apply (f_equal length) in Wc. rewrite length_app, !length_contents in Wc.
  destruct Hp as [_ ? ? ?], Wi as [_ ? ? ?]. unfold p_len, u32, PIPESIZE in *. rewrite Wr in *. dlia.
Qed.

Lemma popped_count s addr n bs sg s' :
  pinv (ps_pipe s) -> read_ok s addr n bs sg s' ->
  Z.to_nat (u32 (p_nread (ps_pipe s') - p_nread (ps_pipe s))) = length bs.
Proof.
  intros Hp [Wi Wc Wr _ _]. apply (f_equal length) in Wc. rewrite length_app, !length_contents in Wc.
  destruct Hp as [_ ? ? ?], Wi as [_ ? ? ?]. unfold p_len, u32, PIPESIZE in *. rewrite Wr in *. dlia.
Qed.
End segments.
