(* ===== verification/PipeMachine.v ===== *)
(** * Pipes: many readers and writers

    A pipe with the processes that use it.  A step is a segment of one of their
    system calls, with the wakeups it makes, a [kill], the start of a new call, or
    the close of an end by its last user.  Steps are labelled with the bytes that
    enter and leave the pipe, as seen in the memory of the processes. *)

From S2P Require Import Prelude CString Bio FsLayout TxnLayer Fs Pipe PipeSpec.

#[global] Instance chan_eq_dec : EqDecision chan.
Proof. solve_decision. Defined.

Inductive pop := OWrite (addr n i : Z) | ORead (addr n : Z).
Inductive tstat := TRun (o : pop) | TSleep (c : chan) (o : pop) | TDone (r : Z).

Definition is_write (o : pop) : bool := match o with OWrite _ _ _ => true | ORead _ _ => false end.
Definition pop_ok (o : pop) : Prop :=
  match o with OWrite _ n i => 0 <= i /\ n < 2 ^ 31 | ORead _ n => n < 2 ^ 31 end.
Definition resume (o : pop) (i : Z) : pop := match o with OWrite addr n _ => OWrite addr n i | ORead _ _ => o end.
Definition after (o : pop) (sg : segment) : tstat :=
  match sg with Return r => TDone r | Sleep c i => TSleep c (resume o i) end.
Definition first_call (o : pop) : bool := match o with OWrite _ _ i => i =? 0 | ORead _ _ => true end.

Definition active (st : tstat) : option pop := match st with TRun o | TSleep _ o => Some o | TDone _ => None end.

(** [wakeup] makes the processes that sleep on the channel run again. *)
Definition wake (cs : list chan) (st : tstat) : tstat :=
  match st with TSleep c o => if decide (c ∈ cs) then TRun o else st | _ => st end.

Inductive ev := EIn (bs : list (option byte)) | EOut (bs : list (option byte)) | ETau.

Section machine.
Context {W : Type} {P : ProcOps W} {L : ProcLaws W}.

Record thr := mkThr { t_w : W; t_st : tstat }.
Record pcfg := mkCfg { c_p : pipe; c_ts : list thr }.

Definition run_op (o : pop) : M (pst W) segment :=
  match o with OWrite addr n i => pipewrite addr n i | ORead addr n => piperead addr n end.

(** The bytes a segment moved: for a writer those of its memory, for a reader
    those now in its memory, and one more if the last copy failed. *)
Definition label (o : pop) (p : pipe) (w : W) (sg : segment) (p' : pipe) (w' : W) : ev :=
  match o with
  | OWrite addr _ i =>
      EIn ((fun j => u_get w (u64 (addr + i + Z.of_nat j))) <$> seq 0 (Z.to_nat (u32 (p_nwrite p' - p_nwrite p))))
  | ORead addr _ =>
      let r := match sg with Return r => r | Sleep _ _ => 0 end in
      EOut ((fun j => if Z.of_nat j <? r then u_get w' (u64 (addr + Z.of_nat j)) else Some (ring p j))
              <$> seq 0 (Z.to_nat (u32 (p_nread p' - p_nread p))))
  end.

Definition wake_all (cs : list chan) (ts : list thr) : list thr := (fun t => mkThr (t_w t) (wake cs (t_st t))) <$> ts.

Inductive pstep : pcfg -> ev -> pcfg -> Prop :=
| ps_seg p ts k t o sg s' :
    ts !! k = Some t -> t_st t = TRun o -> run_op o (mkPst p (t_w t) []) = Ok sg s' ->
    pstep (mkCfg p ts) (label o p (t_w t) sg (ps_pipe s') (ps_w s'))
          (mkCfg (ps_pipe s') (<[k := mkThr (ps_w s') (after o sg)]> (wake_all (ps_woken s') ts)))
| ps_kill p ts k t w' :
    ts !! k = Some t -> same_mem (t_w t) w' ->
    pstep (mkCfg p ts) ETau
          (mkCfg p (<[k := mkThr w' (match t_st t with TSleep _ o => TRun o | st => st end)]> ts))
| ps_call p ts k t r o w' :
    ts !! k = Some t -> t_st t = TDone r -> pop_ok o -> first_call o = true ->
    (if is_write o then p_writeopen p else p_readopen p) = true ->
    pstep (mkCfg p ts) ETau (mkCfg p (<[k := mkThr w' (TRun o)]> ts))
| ps_close p ts k t writable b s' :
    ts !! k = Some t ->
    (forall t' o, t' ∈ ts -> active (t_st t') = Some o -> is_write o <> writable) ->
    (if writable then p_writeopen p else p_readopen p) = true ->
    pipeclose writable (mkPst p (t_w t) []) = Ok b s' ->
    pstep (mkCfg p ts) ETau (mkCfg (ps_pipe s') (wake_all (ps_woken s') ts)).

Inductive psteps : pcfg -> list ev -> pcfg -> Prop :=
| pss_nil c : psteps c [] c
| pss_snoc c1 tr c2 e c3 : psteps c1 tr c2 -> pstep c2 e c3 -> psteps c1 (tr ++ [e]) c3.

(** A pipe that was just made, with processes that are not using it yet. *)
Definition pstart (c : pcfg) : Prop :=
  (exists junk, length junk = Z.to_nat PIPESIZE /\ c_p c = pipe_init junk) /\
  forall t, t ∈ c_ts c -> active (t_st t) = None.

Definition ins (tr : list ev) : list (option byte) := tr ≫= fun e => match e with EIn bs => bs | _ => [] end.
Definition outs (tr : list ev) : list (option byte) := tr ≫= fun e => match e with EOut bs => bs | _ => [] end.

Definition thr_ok (t : thr) : Prop := forall o, active (t_st t) = Some o -> pop_ok o.

Record minv (c : pcfg) : Prop := {
  mi_p : pinv (c_p c);
  mi_ts : Forall thr_ok (c_ts c)
}.

Lemma ring_lookup p bs cs j b : contents p = bs ++ cs -> bs !! j = Some b -> ring p j = b.
Proof.
  intros E Hb. assert (contents p !! j = Some b) as H by (rewrite E; by apply lookup_app_l_Some).
  unfold contents in H. apply list_lookup_fmap_Some in H as (j' & -> & Hj). apply lookup_seq in Hj as [-> _]. done.
Qed.

Lemma fmap_seq_bytes (f : nat -> option byte) (bs : list byte) :
  (forall j b, bs !! j = Some b -> f j = Some b) -> f <$> seq 0 (length bs) = Some <$> bs.
Proof.
  intros H. apply list_eq. intros j. rewrite !list_lookup_fmap. destruct (bs !! j) as [b|] eqn:E.
  - rewrite (lookup_seq_lt _ _ _ (lookup_lt_Some _ _ _ E)). cbn. f_equal. by apply H.
  - apply lookup_ge_None in E. by rewrite lookup_seq_ge.
Qed.

(** What a segment does to the queue, as its label says. *)
Definition moved (p : pipe) (e : ev) (p' : pipe) : Prop :=
  match e with
  | EIn bs => Some <$> contents p' = (Some <$> contents p) ++ bs
  | EOut bs => Some <$> contents p = bs ++ (Some <$> contents p')
  | ETau => contents p' = contents p
  end.

Lemma write_moved s addr n i bs sg s' :
  pinv (ps_pipe s) -> wrote_ok s addr n i bs sg s' ->
  moved (ps_pipe s) (label (OWrite addr n i) (ps_pipe s) (ps_w s) sg (ps_pipe s') (ps_w s')) (ps_pipe s').
Proof.
  intros Hp Hw. cbn. rewrite (pushed_count _ _ _ _ _ _ _ Hp Hw), fmap_seq_bytes by apply Hw.
  by rewrite (wo_contents _ _ _ _ _ _ _ Hw), fmap_app.
Qed.

Lemma read_moved s addr n bs sg s' :
  pinv (ps_pipe s) -> read_ok s addr n bs sg s' ->
  moved (ps_pipe s) (label (ORead addr n) (ps_pipe s) (ps_w s) sg (ps_pipe s') (ps_w s')) (ps_pipe s').
Proof.
  intros Hp Hr. cbn. rewrite (popped_count _ _ _ _ _ _ Hp Hr), fmap_seq_bytes.
  - by rewrite (rd_contents _ _ _ _ _ _ Hr), fmap_app.
  - intros j b Hj. pose proof (ring_lookup _ _ _ _ _ (rd_contents _ _ _ _ _ _ Hr) Hj) as Hb.
    case_if; [|by rewrite Hb]. pose proof (rd_end _ _ _ _ _ _ Hr) as He.
    destruct sg as [r|c i]; [|cbn in He; destruct He as (_ & -> & _); done].
    cbn in He. destruct He as [(-> & -> & _)|(_ & _ & [Hm _] & _)]; [done|].
    specialize (Hm j b). rewrite Z.add_0_r in Hm. apply Hm. rewrite lookup_take_lt by lia. done.
Qed.

Lemma run_op_ok o s :
  pinv (ps_pipe s) -> pop_ok o ->
  exists sg s', run_op o s = Ok sg s' /\ pinv (ps_pipe s') /\
    moved (ps_pipe s) (label o (ps_pipe s) (ps_w s) sg (ps_pipe s') (ps_w s')) (ps_pipe s') /\
    (forall o', active (after o sg) = Some o' -> pop_ok o').
Proof.
  intros Hp Ho. destruct o as [addr n i|addr n]; cbn in Ho.
  - destruct (pipewrite_ok s addr n i Hp) as (sg & s' & bs & E & Hw); [lia|].
    exists sg, s'. split; [done|]. split; [apply Hw|]. split; [by apply (write_moved _ _ _ _ bs)|].
    destruct sg as [r|c i']; cbn; [done|]. intros o' [= <-]. destruct (wo_end _ _ _ _ _ _ _ Hw) as (_ & -> & _). cbn. lia.
  - destruct (piperead_ok s addr n Hp) as (sg & s' & bs & E & Hr); [lia|].
    exists sg, s'. split; [done|]. split; [apply Hr|]. split; [by apply (read_moved _ _ _ bs)|].
    destruct sg as [r|c i']; cbn; [done|]. by intros o' [= <-].
Qed.

Lemma wake_active cs st : active (wake cs st) = active st.
Proof. destruct st; cbn; [done| |done]. by case_decide. Qed.

Lemma wake_all_ok cs ts : Forall thr_ok ts -> Forall thr_ok (wake_all cs ts).
Proof.
  intros H. apply Forall_fmap. eapply Forall_impl; [exact H|]. intros t Ht o Ho. apply Ht. cbn in Ho. by rewrite wake_active in Ho.
Qed.

(** The two ways [pipeclose] ends. *)
Lemma pipeclose_eq b p (w : W) ws :
  exists r, pipeclose b (mkPst p w ws) =
    Ok r (mkPst (mkPipe (p_data p) (p_nread p) (p_nwrite p) (b && p_readopen p) (negb b && p_writeopen p)) w
                (ws ++ [if b then ch_nread else ch_nwrite])) /\
    (r = true <-> (if b then p_readopen p else p_writeopen p) = false).
Proof.
  destruct b; eexists; (split; [reflexivity|]); cbn; [rewrite andb_true_r|]; by rewrite negb_true_iff.
Qed.

Lemma pstep_ok c e c' : minv c -> pstep c e c' -> minv c' /\ moved (c_p c) e (c_p c').
Proof.
  intros [Hp Ht] Hs. destruct Hs as [p ts k t o sg s' Hk Ho E|p ts k t w' Hk Hm|p ts k t r o w' Hk Hr Ho|p ts k t b r s' Hk Ha Hb E];
    cbn [c_p c_ts] in *.
  - pose proof (proj1 (Forall_lookup _ _) Ht _ _ Hk) as Htk.
    destruct (run_op_ok o (mkPst p (t_w t) []) Hp) as (sg' & s1 & E' & Hp' & Hm & Hn); [apply Htk; by rewrite Ho|].
    rewrite E in E'. simplify_eq. split; [|done]. split; [done|]. apply Forall_insert; [by apply wake_all_ok|done].
  - split; [|done]. split; [done|]. apply Forall_insert; [done|]. intros o Ho.
    apply (proj1 (Forall_lookup _ _) Ht _ _ Hk). cbn in Ho. by destruct (t_st t).
  - split; [|done]. split; [done|]. apply Forall_insert; [done|]. by intros o' [= <-].
  - destruct (pipeclose_eq b p (t_w t) []) as (r' & E' & _). rewrite E in E'. simplify_eq. split; [|done].
    split; [destruct Hp; split; done|]. by apply wake_all_ok.
Qed.

Lemma pstart_ok c : pstart c -> minv c /\ contents (c_p c) = [].
Proof.
  intros [(junk & Hj & Hc) Ht]. rewrite Hc. split; [|done]. split; [rewrite Hc; split; cbn; [done|lia|lia|done]|].
  apply Forall_forall. intros t Hin o Ho. by rewrite Ht in Ho.
Qed.

Lemma psteps_fifo c0 tr c :
  pstart c0 -> psteps c0 tr c -> minv c /\ ins tr = outs tr ++ (Some <$> contents (c_p c)).
Proof.
  intros H0. induction 1 as [c|c1 tr c2 e c3 H12 IH H23].
  - destruct (pstart_ok _ H0) as [? ->]. done.
  - destruct (IH H0) as [Hi Hq]. destruct (pstep_ok _ _ _ Hi H23) as [Hi' Hm]. split; [done|].
    unfold ins, outs in *. rewrite !bind_app. rewrite Hq. destruct e as [bs|bs|]; cbn in *; rewrite ?app_nil_r.
    + by rewrite Hm, app_assoc.
    + by rewrite Hm, <- !app_assoc.
    + by rewrite Hm.
Qed.

(** ** No lost wakeups *)

Definition sleep_ok (p : pipe) (st : tstat) : Prop :=
  match st with
  | TSleep ch_nread o => is_write o = false /\ contents p = [] /\ p_writeopen p = true
  | TSleep ch_nwrite o => is_write o = true /\ Z.of_nat (length (contents p)) = PIPESIZE /\ p_readopen p = true
  | _ => True
  end.

(** A [kill] does not take effect between two tests of one segment. *)
Definition kill_stable : Prop :=
  forall w w1 k w2, killed w = Ok false w1 -> killed w1 = Ok k w2 -> k = false.

Definition all_asleep_ok (c : pcfg) : Prop := Forall (fun t => sleep_ok (c_p c) (t_st t)) (c_ts c).

(** Sleepers that are not woken by a segment still have to wait after it. *)
Lemma seg_sleepers o s sg s' st :
  kill_stable -> pinv (ps_pipe s) -> pop_ok o -> ps_woken s = [] -> run_op o s = Ok sg s' ->
  sleep_ok (ps_pipe s) st -> sleep_ok (ps_pipe s') (wake (ps_woken s') st).
Proof.
  intros Hk Hp Ho Hw0 E Hs. destruct o as [addr n i|addr n]; cbn [run_op pop_ok] in Ho, E.
  - destruct (pipewrite_ok s addr n i Hp) as (sg1 & s1 & bs & E1 & [Wi Wc _ _ [Wr Ww] _ Wend]); [lia|].
    rewrite E in E1. symmetry in E1. simplify_eq. destruct st as [|[] o|]; cbn in Hs; try done.
    + assert (ps_woken s' = [ch_nread] \/ bs = []) as [->| ->]; [|done|].
      { destruct sg as [r|c i']; cbn in Wend; rewrite Hw0 in Wend; [|naive_solver].
        destruct Wend as [(_ & _ & _ & H1)|]; [|naive_solver]. right. destruct bs; [done|].
        destruct (H1 ltac:(done)) as (w0 & w1 & w2 & K1 & K2). by specialize (Hk _ _ _ _ K1 K2). }
      cbn. case_decide; [done|]. rewrite app_nil_r in Wc. cbn. rewrite Wc, Ww. done.
    + destruct Hs as (? & Hl & Hr). cbn. case_decide; [done|]. cbn. rewrite Wr. split_and!; try done.
      apply (f_equal length) in Wc. rewrite length_app in Wc.
      pose proof (pi_len _ Wi). pose proof (p_len_range (ps_pipe s')). rewrite !length_contents in *. lia.
  - destruct (piperead_ok s addr n Hp) as (sg1 & s1 & bs & E1 & [Wi Wc _ [Wr Ww] Wend]); [lia|].
    rewrite E in E1. symmetry in E1. simplify_eq. destruct st as [|[] o|]; cbn in Hs; try done.
    + destruct Hs as (? & Hl & Hr). rewrite Hl in Wc. symmetry in Wc. apply app_eq_nil in Wc as [-> Wc].
      cbn. case_decide; [done|]. cbn. by rewrite Wc, Ww.
    + assert (ps_woken s' = [ch_nwrite] \/ bs = []) as [->| ->]; [|done|].
      { destruct sg as [r|c i']; cbn in Wend; rewrite Hw0 in Wend; naive_solver. }
      cbn. case_decide; [done|]. cbn. cbn in Wc. rewrite <- Wc, Wr. done.
Qed.

(** A segment that goes to sleep has to wait. *)
Lemma seg_sleep o s sg s' :
  pinv (ps_pipe s) -> pop_ok o -> run_op o s = Ok sg s' -> sleep_ok (ps_pipe s') (after o sg).
Proof.
  intros Hp Ho E. destruct o as [addr n i|addr n]; cbn [run_op pop_ok] in Ho, E.
  - destruct (pipewrite_ok s addr n i Hp) as (sg1 & s1 & bs & E1 & [_ _ _ _ _ _ Wend]); [lia|].
    rewrite E in E1. symmetry in E1. simplify_eq. destruct sg as [r|c i']; cbn in *; [done|].
    destruct Wend as (-> & -> & _ & _ & ? & ?). done.
  - destruct (piperead_ok s addr n Hp) as (sg1 & s1 & bs & E1 & [_ Wc _ [_ Ww] Wend]); [lia|].
    rewrite E in E1. symmetry in E1. simplify_eq. destruct sg as [r|c i']; cbn in *; [done|].
    destruct Wend as (-> & -> & Hc & ? & _). cbn in *. rewrite <- Wc, Ww. done.
Qed.

Lemma close_sleepers b p st :
  (forall o, active st = Some o -> is_write o <> b) ->
  sleep_ok p st -> sleep_ok (mkPipe (p_data p) (p_nread p) (p_nwrite p) (b && p_readopen p) (negb b && p_writeopen p))
                            (wake [if b then ch_nread else ch_nwrite] st).
Proof.
  intros Ha Hs. destruct st as [|c o|]; [done| |done]. specialize (Ha o eq_refl).
  destruct b, c; cbn in *; try done; destruct Hs as (E & ? & ?); rewrite E in Ha; done.
Qed.

Lemma pstep_sleepers c e c' : kill_stable -> minv c -> all_asleep_ok c -> pstep c e c' -> all_asleep_ok c'.
Proof.
  unfold all_asleep_ok. intros Hks [Hp Ht] Ha Hs.
  destruct Hs as [p ts k t o sg s' Hk Ho E|p ts k t w' Hk Hm|p ts k t r o w' Hk Hr Ho|p ts k t b r s' Hk Hact Hb E];
    cbn [c_p c_ts] in *.
  - assert (pop_ok o) as Hok by (apply (proj1 (Forall_lookup _ _) Ht _ _ Hk); by rewrite Ho).
    apply Forall_insert.
    + apply Forall_fmap. eapply Forall_impl; [exact Ha|]. intros t' Ht'. cbn. by eapply (seg_sleepers o (mkPst p (t_w t) [])).
    + by apply (seg_sleep o (mkPst p (t_w t) []) sg s').
  - apply Forall_insert; [done|]. cbn. by destruct (t_st t).
  - by apply Forall_insert.
  - destruct (pipeclose_eq b p (t_w t) []) as (r' & E' & _). rewrite E in E'. simplify_eq.
    apply Forall_fmap, Forall_forall. intros t' Ht'. apply close_sleepers.
    + intros o' Ho'. by apply (Hact t').
    + by apply (proj1 (Forall_forall _ _) Ha).
Qed.

Lemma psteps_sleepers c0 tr c : kill_stable -> pstart c0 -> psteps c0 tr c -> minv c /\ all_asleep_ok c.
Proof.
  intros Hks H0 H. split; [by eapply psteps_fifo|]. induction H as [c|c1 tr c2 e c3 H12 IH H23].
  - apply Forall_forall. intros t Ht. destruct H0 as [_ H0]. specialize (H0 t Ht). by destruct (t_st t) as [|[]|].
  - eapply pstep_sleepers; [done|by eapply psteps_fifo|by apply IH|done].
Qed.

(** ** Running the machine *)

Inductive pcmd := CSeg (k : nat) | CCall (k : nat) (o : pop).

#[global] Instance pop_ok_dec o : Decision (pop_ok o).
Proof. destruct o; cbn; apply _. Defined.

Definition pexec1 (c : pcfg) (m : pcmd) : option (ev * pcfg) :=
  let '(mkCfg p ts) := c in
  match m with
  | CSeg k =>
      t ← ts !! k;
      match t_st t with
      | TRun o =>
          match run_op o (mkPst p (t_w t) []) with
          | Ok sg s' => Some (label o p (t_w t) sg (ps_pipe s') (ps_w s'),
                              mkCfg (ps_pipe s') (<[k := mkThr (ps_w s') (after o sg)]> (wake_all (ps_woken s') ts)))
          | _ => None
          end
      | _ => None
      end
  | CCall k o =>
      t ← ts !! k;
      match t_st t with
      | TDone _ =>
          if decide (pop_ok o) then
            if first_call o && (if is_write o then p_writeopen p else p_readopen p) then
              Some (ETau, mkCfg p (<[k := mkThr (t_w t) (TRun o)]> ts))
            else None
          else None
      | _ => None
      end
  end.

Fixpoint pexec (c : pcfg) (ms : list pcmd) : option (list ev * pcfg) :=
  match ms with
  | [] => Some ([], c)
  | m :: ms => '(e, c) ← pexec1 c m; '(tr, c) ← pexec c ms; Some (e :: tr, c)
  end.

Lemma pexec1_sound c m e c' : pexec1 c m = Some (e, c') -> pstep c e c'.
Proof.
  destruct c as [p ts], m as [k|k o]; cbn; destruct (ts !! k) as [t|] eqn:Ek; try done; cbn; destruct (t_st t) as [o'| |r] eqn:Eo; try done.
  - destruct (run_op o' (mkPst p (t_w t) [])) as [sg s'| | | |] eqn:E; try done. intros [= <- <-]. by eapply ps_seg.
  - case_decide; [|done]. destruct (first_call o) eqn:Ef; [|done]. cbn.
    destruct (if is_write o then p_writeopen p else p_readopen p) eqn:Ew; [|done]. intros [= <- <-]. by eapply ps_call.
Qed.

Lemma pss_cons c1 e c2 tr c3 : pstep c1 e c2 -> psteps c2 tr c3 -> psteps c1 (e :: tr) c3.
Proof.
  intros H. induction 1 as [c|c2 tr c4 e' c5 H1 IH H2].
  - apply (pss_snoc _ [] _ _ _ (pss_nil _) H).
  - rewrite app_comm_cons. by eapply pss_snoc; [apply IH|].
Qed.

Lemma pexec_sound ms c tr c' : pexec c ms = Some (tr, c') -> psteps c tr c'.
Proof.
  revert c tr. induction ms as [|m ms IH]; cbn; intros c tr H; [simplify_eq; apply pss_nil|].
  destruct (pexec1 c m) as [[e c1]|] eqn:E1; [|done]. cbn in H.
  destruct (pexec c1 ms) as [[tr1 c2]|] eqn:E2; [|done]. simplify_eq/=.
  eapply pss_cons; [by eapply pexec1_sound|by apply IH].
Qed.
End machine.
Arguments thr : clear implicits. Arguments pcfg : clear implicits.
