(* ===== verification/PipeClaims.v ===== *)
(** * Pipes: the claims

    The queue and the wakeups of a pipe with any number of users, and a run in
    which a killed writer leaves a reader asleep. *)

From S2P Require Import Prelude CString Bio FsLayout TxnLayer Fs Pipe PipeSpec PipeMachine.

(** ** A process, for the examples

    Its memory is a function; [killed] answers what the source of kills says. *)

Class KillSrc (K : Type) := next_kill : K -> bool * K.
Record uproc (K : Type) := mkUproc { u_mem : Z -> option byte; u_kill : K }.
Arguments mkUproc {K}. Arguments u_mem {K}. Arguments u_kill {K}.

Section uproc.
Context {K : Type} {KS : KillSrc K}.

#[export] Instance uproc_copy : CopyOps (uproc K) := {
  either_copyout user dst bs w :=
    match bs, u_mem w dst with
    | [b], Some _ => Ok 0 (mkUproc (fun a => if a =? dst then Some b else u_mem w a) (u_kill w))
    | _, _ => Ok (-1) w
    end;
  either_copyin user src n w :=
    match u_mem w src with Some b => Ok ([b], 0) w | None => Ok ([], -1) w end
}.
#[export] Instance uproc_ops : ProcOps (uproc K) := {
  killed w := let '(k, s) := next_kill (u_kill w) in Ok k (mkUproc (u_mem w) s)
}.
#[export] Program Instance uproc_laws : ProcLaws (uproc K) := { u_get := u_mem }.
Next Obligation. intros w a _. cbn. destruct (u_mem w a); eauto. Qed.
Next Obligation. intros w a b _. cbn. destruct (u_mem w a) eqn:E; eauto 10. Qed.
Next Obligation. intros w. cbn. destruct (next_kill (u_kill w)). eauto. Qed.
End uproc.

#[export] Instance kill_flag : KillSrc bool := fun k => (k, k).
#[export] Instance kill_list : KillSrc (list bool) := fun l => match l with [] => (false, []) | k :: l => (k, l) end.

Definition hello (a : Z) : option byte := if (0 <=? a) && (a <? 4096) then Some (byte_of_Z (a + 65)) else None.
Definition idle {K} (k : K) : thr (uproc K) := mkThr (mkUproc hello k) (TDone 0).
Definition fresh_pipe : pipe := pipe_init (replicate (Z.to_nat PIPESIZE) x00).
Definition cfg0 {K} (ks : list K) : pcfg (uproc K) := mkCfg fresh_pipe (idle <$> ks).

Lemma cfg0_start {K} {KS : KillSrc K} (ks : list K) : pstart (cfg0 ks).
Proof.
  split; [exists (replicate (Z.to_nat PIPESIZE) x00); by rewrite length_replicate|].
  intros t Ht. apply list_elem_of_fmap in Ht as (k & -> & _). done.
Qed.

(** A reader finds the pipe empty and sleeps; a writer writes two bytes; then the
    reader, if it was woken, reads. *)
Definition script (reads : bool) : list pcmd :=
  [CCall 0 (ORead 100 2); CSeg 0; CCall 1 (OWrite 0 2 0); CSeg 1] ++ (if reads then [CSeg 0] else []).
Definition result {K} {KS : KillSrc K} (ks : list K) (ms : list pcmd) : list ev * pcfg (uproc K) :=
  default ([], cfg0 ks) (pexec (cfg0 ks) ms).

(** The writer is killed after its first byte and returns without a [wakeup]: the
    reader sleeps on although there is a byte for it. *)
Lemma killed_writer_lost_wakeup :
  let c := snd (result [[]; [false; true]] (script false)) in
  psteps (cfg0 [[]; [false; true]]) (fst (result [[]; [false; true]] (script false))) c /\
  t_st <$> c_ts c = [TSleep ch_nread (ORead 100 2); TDone (-1)] /\
  contents (c_p c) = [byte_of_Z 65] /\ p_writeopen (c_p c) = true.
Proof.
  split; [|by vm_compute]. apply (pexec_sound (script false)).
  unfold result. destruct (pexec _ _) as [[tr c]|] eqn:E; [done|]. vm_compute in E. done.
Qed.



(** C32: no wakeup is lost.  If a kill does not arrive between two tests of one
    segment, a process sleeps in [piperead] only while the pipe is empty with its
    write end open, and in [pipewrite] only while it is full with its read end
    open; so readers and writers never wait for each other, and every process that
    does not sleep can finish its segment. *)
Theorem pipe_no_lost_wakeup {W} {P : ProcOps W} {L : ProcLaws W} (c0 : pcfg W) tr c :
  kill_stable (W := W) -> pstart c0 -> psteps c0 tr c ->
  (forall t o, t ∈ c_ts c -> t_st t = TSleep ch_nread o -> contents (c_p c) = [] /\ p_writeopen (c_p c) = true) /\
  (forall t o, t ∈ c_ts c -> t_st t = TSleep ch_nwrite o ->
     Z.of_nat (length (contents (c_p c))) = PIPESIZE /\ p_readopen (c_p c) = true) /\
  ~ (exists t o t' o', t ∈ c_ts c /\ t' ∈ c_ts c /\ t_st t = TSleep ch_nread o /\ t_st t' = TSleep ch_nwrite o') /\
  (forall k t o, c_ts c !! k = Some t -> t_st t = TRun o -> exists e c', pstep c e c').
Proof.
  intros Hk H0 H. destruct (psteps_sleepers _ _ _ Hk H0 H) as [[Hp Ht] Ha].
  assert (forall t, t ∈ c_ts c -> sleep_ok (c_p c) (t_st t)) as Hs by (by apply Forall_forall).
  split_and!.
  - intros t o Hin E. specialize (Hs t Hin). rewrite E in Hs. apply Hs.
  - intros t o Hin E. specialize (Hs t Hin). rewrite E in Hs. apply Hs.
  - intros (t & o & t' & o' & Hin & Hin' & E & E'). pose proof (Hs t Hin) as H1. pose proof (Hs t' Hin') as H2.
    rewrite E in H1. rewrite E' in H2. destruct H1 as (_ & H1 & _), H2 as (_ & H2 & _). by rewrite H1 in H2.
  - intros k t o Hkt Ho. destruct c as [p ts]. cbn in *.
    destruct (run_op_ok o (mkPst p (t_w t) []) Hp) as (sg & s' & E & _).
    { apply (proj1 (Forall_lookup _ _) Ht _ _ Hkt). by rewrite Ho. }
    do 2 eexists. by eapply ps_seg.
Qed.

Lemma pipe_no_lost_wakeup_witness :
  let c := snd (result [false; false] [CCall 0 (ORead 100 2); CSeg 0]) in
  (exists t o, t ∈ c_ts c /\ t_st t = TSleep ch_nread o) /\
  forall t o, t ∈ c_ts c -> t_st t = TSleep ch_nread o -> contents (c_p c) = [] /\ p_writeopen (c_p c) = true.
Proof.
  split; [vm_compute; do 2 eexists; split; [apply list_elem_of_here|reflexivity]|].
  refine (proj1 (pipe_no_lost_wakeup (cfg0 [false; false]) (fst (result [false; false] [CCall 0 (ORead 100 2); CSeg 0])) _ _ (cfg0_start _) _)).
  - intros w w1 k w2 E1 E2. cbn in E1, E2. injection E1 as E1 <-. cbn in E2. congruence.
  - apply (pexec_sound [CCall 0 (ORead 100 2); CSeg 0]).
    unfold result. destruct (pexec _ _) as [[tr c]|] eqn:E; [done|]. vm_compute in E. done.
Defined.
