(* ===== verification/User.v ===== *)
(** * User programs: their environment

    A program run by the shell: the files it can open, its descriptors, what it
    has written, and its end.  A [read] may return fewer bytes than asked for, or
    fail, and a [write] may fail, as the schedules in the state say. *)

From S2P Require Import Prelude CString.

(** What is left to read, and how the next reads behave: [Some k] returns at most
    [k + 1] bytes, [None] fails. *)
Record stream := mkStream { s_data : list byte; s_sched : list (option nat) }.

Record uenv := mkUenv {
  ue_files : list (list byte * stream);
  ue_fds : gmap Z stream;
  ue_out : gmap Z (list byte);
  ue_wfail : list bool
}.

(** The ways a piece of a program ends: with a value, in [exit], in behaviour C
    leaves undefined, or cut off by the bound of the model. *)
Inductive ures (A : Type) :=
| UVal (a : A) (e : uenv)
| UExit (code : Z) (e : uenv)
| UUndef
| UFuel.
Arguments UVal {A}. Arguments UExit {A}. Arguments UUndef {A}. Arguments UFuel {A}.

Definition U (A : Type) := uenv -> ures A.
Definition uret {A} (a : A) : U A := fun e => UVal a e.
Definition ubind {A B} (m : U A) (k : A -> U B) : U B := fun e =>
  match m e with
  | UVal a e => k a e
  | UExit c e => UExit c e
  | UUndef => UUndef
  | UFuel => UFuel
  end.
Definition uopt {A} (o : option A) : U A := fun e => match o with Some a => UVal a e | None => UUndef end.
Definition ufuel {A} : U A := fun _ => UFuel.

Declare Scope umon_scope.
Delimit Scope umon_scope with umon.
Notation "x <~ m ;; k" := (ubind m (fun x => k)) (at level 100, m at next level, right associativity) : umon_scope.
Notation "m ;~ k" := (ubind m (fun _ => k)) (at level 100, k at level 200, right associativity) : umon_scope.
#[global] Open Scope umon_scope.

(** The system calls the programs make. *)
Definition exit {A} (code : Z) : U A := fun e => UExit code e.

(** The bytes read, [None] for -1, and what is left. *)
Definition stream_read (n : nat) (s : stream) : option (list byte) * stream :=
  match s_sched s with
  | [] => (Some (take n (s_data s)), mkStream (drop n (s_data s)) [])
  | None :: l => (None, mkStream (s_data s) l)
  | Some k :: l => let n := Nat.min n (S k) in (Some (take n (s_data s)), mkStream (drop n (s_data s)) l)
  end.

Definition read (fd : Z) (n : nat) : U (option (list byte)) := fun e =>
  match ue_fds e !! fd with
  | Some s =>
      let '(r, s) := stream_read n s in
      UVal r (mkUenv (ue_files e) (<[fd := s]> (ue_fds e)) (ue_out e) (ue_wfail e))
  | None => UVal None e
  end.

(** The result is the number of bytes written, or -1. *)
Definition write (fd : Z) (bs : list byte) : U Z := fun e =>
  match ue_out e !! fd with
  | None => UVal (-1) e
  | Some old =>
      match ue_wfail e with
      | true :: l => UVal (-1) (mkUenv (ue_files e) (ue_fds e) (ue_out e) l)
      | l => UVal (Z.of_nat (length bs)) (mkUenv (ue_files e) (ue_fds e) (<[fd := old ++ bs]> (ue_out e)) (tail l))
      end
  end.

Definition NOFILE : nat := 16.

Definition uopen (path : list byte) : U Z := fun e =>
  match list_find (fun f => f.1 = path) (ue_files e), list_find (fun fd => ue_fds e !! fd = None /\ ue_out e !! fd = None) (seqZ 0 (Z.of_nat NOFILE)) with
  | Some (_, (_, s)), Some (_, fd) => UVal fd (mkUenv (ue_files e) (<[fd := s]> (ue_fds e)) (ue_out e) (ue_wfail e))
  | _, _ => UVal (-1) e
  end.

Definition uclose (fd : Z) : U unit := fun e =>
  UVal tt (mkUenv (ue_files e) (delete fd (ue_fds e)) (ue_out e) (ue_wfail e)).

Lemma ubind_val {A B} (m : U A) (k : A -> U B) e a e' : m e = UVal a e' -> ubind m k e = k a e'.
Proof. intros E. unfold ubind. by rewrite E. Qed.

Lemma ubind_exit {A B} (m : U A) (k : A -> U B) e c e' : m e = UExit c e' -> ubind m k e = UExit c e'.
Proof. intros E. unfold ubind. by rewrite E. Qed.

Ltac urun E := rewrite (ubind_val _ _ _ _ _ E); cbv beta.

(** A stream that never fails. *)
Definition healthy (s : stream) : Prop := None ∉ s_sched s.

Lemma stream_read_ok n s :
  healthy s -> (0 < n)%nat ->
  exists bs s', stream_read n s = (Some bs, s') /\ s_data s = bs ++ s_data s' /\ healthy s' /\
    (length bs <= n)%nat /\ (bs = [] <-> s_data s = []).
Proof.
  intros Hh Hn. destruct s as [d [|[k|] l]]; unfold stream_read; cbn [s_sched s_data].
  - do 2 eexists. split; [done|]. cbn. rewrite take_drop. split_and!; [done|done|rewrite length_take; lia|].
    rewrite <- !length_zero_iff_nil, length_take. lia.
  - do 2 eexists. split; [done|]. cbn -[Nat.min]. rewrite take_drop. split_and!; [done| |rewrite length_take; lia|].
    + intros H. apply Hh. cbn. by apply list_elem_of_further.
    + rewrite <- !length_zero_iff_nil, length_take. lia.
  - destruct Hh. cbn. apply list_elem_of_here.
Qed.
