(* ===== verification/Printf.v ===== *)
(** * Formatted output (kernel/printf.c, user/printf.c)

    Both [printf]s with their [printint] and [printptr].  The kernel's characters
    go to the console, the user's to a descriptor, one [write] for each. *)

From S2P Require Import Prelude CString User.

(** An argument as [va_arg] finds it: a register, or a string (or null). *)
Inductive varg := VInt (z : Z) | VStr (s : option (list byte)).

Definition va_int (l : list varg) : option (Z * list varg) :=
  match l with VInt z :: l => Some (i32 z, l) | _ => None end.
Definition va_uint64 (l : list varg) : option (Z * list varg) :=
  match l with VInt z :: l => Some (u64 z, l) | _ => None end.
Definition va_str (l : list varg) : option (option (list byte) * list varg) :=
  match l with VStr s :: l => Some (s, l) | _ => None end.

(** [do { buf[i++] = digits[x % base]; } while((x /= base) != 0)] on [buf], an
    array of 16; the digits come out lowest first. *)
Fixpoint digit_loop (fuel : nat) (digits : list byte) (x base : Z) (buf : list byte) : option (list byte) :=
  match fuel with
  | O => None
  | S fuel =>
    if (length buf <? 16)%nat then
      d ← digits !! Z.to_nat (x mod base);
      let buf := buf ++ [d] in
      if x / base =? 0 then Some buf else digit_loop fuel digits (x / base) base buf
    else None
  end.

(** The characters [printint] emits.  The negation of the least [int] overflows,
    which C leaves undefined. *)
Definition int_chars (digits : list byte) (xx base : Z) (sign : bool) : option (list byte) :=
  let neg := sign && (xx <? 0) in
  x ← (if neg then (if xx =? - 2 ^ 31 then None else Some (- xx)) else Some (u32 xx));
  buf ← digit_loop 16 digits x base [];
  buf ← (if neg then if (length buf <? 16)%nat then Some (buf ++ bytes "-") else None else Some buf);
  Some (rev buf).

(** The loop of [printptr]. *)
Fixpoint ptr_loop (n : nat) (digits : list byte) (x : Z) : option (list byte) :=
  match n with
  | O => Some []
  | S n =>
    d ← digits !! Z.to_nat (Z.shiftr x 60);
    r ← ptr_loop n digits (u64 (Z.shiftl x 4));
    Some (d :: r)
  end.
Definition ptr_chars (digits : list byte) (x : Z) : option (list byte) :=
  r ← ptr_loop 16 digits x;
  Some (bytes "0x" ++ r).

Definition str_chars (s : option (list byte)) : option (list byte) :=
  match s with
  | None => Some (bytes "(null)")
  | Some s => if bool_decide (x00 ∈ s) then Some (cstr s) else None
  end.

Module Kernel.
Definition digits : list byte := bytes "0123456789abcdef".

(** The console's output, [pr.locking] and [panicked]. *)
Record kout := mkKout { ko_chars : list byte; ko_locking : bool; ko_panicked : bool }.

Definition consputs (l : list byte) : M kout unit :=
  modify (fun k => mkKout (ko_chars k ++ l) (ko_locking k) (ko_panicked k)).

Definition printint (xx base : Z) (sign : bool) : M kout unit :=
  l <- from_opt (int_chars digits xx base sign);; consputs l.
Definition printptr (x : Z) : M kout unit := l <- from_opt (ptr_chars digits x);; consputs l.

Fixpoint printf_loop (fmt : list byte) (ap : list varg) : M kout unit :=
  match fmt with
  | [] => undef
  | c :: fmt =>
    if bool_decide (c = x00) then ret tt
    else if bool_decide (c <> chr "%") then consputs [c];;; printf_loop fmt ap
    else
      match fmt with
      | [] => undef
      | c :: fmt =>
        if bool_decide (c = x00) then ret tt
        else if bool_decide (c = chr "d") then
          a <- from_opt (va_int ap);; printint (fst a) 10 true;;; printf_loop fmt (snd a)
        else if bool_decide (c = chr "x") then
          a <- from_opt (va_int ap);; printint (fst a) 16 true;;; printf_loop fmt (snd a)
        else if bool_decide (c = chr "p") then
          a <- from_opt (va_uint64 ap);; printptr (fst a);;; printf_loop fmt (snd a)
        else if bool_decide (c = chr "s") then
          a <- from_opt (va_str ap);;
          l <- from_opt (str_chars (fst a));;
          consputs l;;; printf_loop fmt (snd a)
        else if bool_decide (c = chr "%") then consputs (bytes "%");;; printf_loop fmt ap
        else consputs (bytes "%");;; consputs [c];;; printf_loop fmt ap
      end
  end.

(** [fmt] is null or a string.  The lock only serializes the output. *)
Definition printf (fmt : option (list byte)) (ap : list varg) : M kout unit :=
  match fmt with
  | None => panic "null fmt"
  | Some fmt => printf_loop fmt ap
  end.

(** What [panic] prints before it stops the machine. *)
Definition panic (s : list byte) : M kout unit :=
  modify (fun k => mkKout (ko_chars k) false (ko_panicked k));;;
  printf (Some (bytes "panic: " ++ [x00])) [];;;
  printf (Some s) [];;;
  printf (Some [x0a; x00]) [];;;
  modify (fun k => mkKout (ko_chars k) (ko_locking k) true).

Definition printfinit : M kout unit := modify (fun k => mkKout (ko_chars k) true (ko_panicked k)).
End Kernel.

Module User.
Definition digits : list byte := bytes "0123456789ABCDEF".

Definition putc (fd : Z) (c : byte) : U unit := write fd [c];~ uret tt.
Fixpoint puts (fd : Z) (l : list byte) : U unit :=
  match l with [] => uret tt | c :: l => putc fd c;~ puts fd l end.

Definition printint (fd xx base : Z) (sgn : bool) : U unit :=
  l <~ uopt (int_chars digits xx base sgn);; puts fd l.
Definition printptr (fd x : Z) : U unit := l <~ uopt (ptr_chars digits x);; puts fd l.

(** [state] is true after a percent sign. *)
Fixpoint vprintf_loop (fd : Z) (fmt : list byte) (state : bool) (ap : list varg) : U unit :=
  match fmt with
  | [] => fun _ => UUndef
  | c :: fmt =>
    if bool_decide (c = x00) then uret tt
    else if negb state then
      if bool_decide (c = chr "%") then vprintf_loop fd fmt true ap
      else putc fd c;~ vprintf_loop fd fmt false ap
    else if bool_decide (c = chr "d") then
      a <~ uopt (va_int ap);; printint fd (fst a) 10 true;~ vprintf_loop fd fmt false (snd a)
    else if bool_decide (c = chr "l") then
      a <~ uopt (va_uint64 ap);; printint fd (i32 (fst a)) 10 false;~ vprintf_loop fd fmt false (snd a)
    else if bool_decide (c = chr "x") then
      a <~ uopt (va_int ap);; printint fd (fst a) 16 false;~ vprintf_loop fd fmt false (snd a)
    else if bool_decide (c = chr "p") then
      a <~ uopt (va_uint64 ap);; printptr fd (fst a);~ vprintf_loop fd fmt false (snd a)
    else if bool_decide (c = chr "s") then
      a <~ uopt (va_str ap);; l <~ uopt (str_chars (fst a));; puts fd l;~ vprintf_loop fd fmt false (snd a)
    else if bool_decide (c = chr "c") then
      a <~ uopt (va_int ap);; putc fd (byte_of_Z (fst a));~ vprintf_loop fd fmt false (snd a)
    else if bool_decide (c = chr "%") then putc fd c;~ vprintf_loop fd fmt false ap
    else putc fd (chr "%");~ putc fd c;~ vprintf_loop fd fmt false ap
  end.

Definition vprintf (fd : Z) (fmt : list byte) (ap : list varg) : U unit := vprintf_loop fd fmt false ap.
Definition fprintf (fd : Z) (fmt : String.string) (ap : list varg) : U unit := vprintf fd (bytes fmt ++ [x00]) ap.
Definition printf (fmt : String.string) (ap : list varg) : U unit := vprintf 1 (bytes fmt ++ [x00]) ap.
End User.

(** ** Numbers *)

(** The value of a string of digits, highest first. *)
Definition digit_val (digits : list byte) (c : byte) : Z :=
  match list_find (eq c) digits with Some (k, _) => Z.of_nat k | None => 0 end.
Definition value (digits : list byte) (base : Z) (l : list byte) : Z :=
  foldl (fun v c => v * base + digit_val digits c) 0 l.

(** Sixteen different digits. *)
Record good_digits (digits : list byte) : Prop := {
  gd_digit : forall k, 0 <= k < 16 ->
    exists d, digits !! Z.to_nat k = Some d /\ digit_val digits d = k;
  gd_zero : digit_val digits (chr "0") = 0
}.

Lemma good_of (D : list byte) :
  forallb (fun k => match D !! k with
                    | Some d => digit_val D d =? Z.of_nat k
                    | None => false end) (seq 0 16) && (digit_val D (chr "0") =? 0) = true -> good_digits D.
Proof.
  rewrite andb_true_iff, forallb_forall, Z.eqb_eq. intros [H H0]. split; [|done]. intros k Hk. specialize (H (Z.to_nat k)).
  rewrite in_seq in H. specialize (H ltac:(lia)). destruct (D !! Z.to_nat k) as [d|]; [|done]. exists d. split; [done|].
  apply Z.eqb_eq in H. lia.
Qed.

Lemma kernel_digits : good_digits Kernel.digits.
Proof. apply good_of. by vm_compute. Qed.
Lemma user_digits : good_digits User.digits.
Proof. apply good_of. by vm_compute. Qed.

Section numbers.
Context (D : list byte) (HD : good_digits D) (base : Z) (Hb : 2 <= base <= 16).

Lemma value_snoc l c : value D base (l ++ [c]) = value D base l * base + digit_val D c.
Proof. unfold value. by rewrite foldl_app. Qed.

(** [l] is [x] in base [base]: highest digit first, without leading zeros. *)
Definition is_digit (c : byte) : Prop := c ∈ D /\ 0 <= digit_val D c < base.
Definition numeral (x : Z) (l : list byte) : Prop :=
  value D base l = x /\ l <> [] /\ (forall r, l = chr "0" :: r -> r = []) /\ Forall is_digit l.

Lemma numeral_one x d : digit_val D d = x -> is_digit d -> numeral x [d].
Proof. intros <- Hd. split; [done|]. split; [done|]. split; [naive_solver|]. by apply Forall_singleton. Qed.

Lemma numeral_snoc x l d :
  numeral x l -> x <> 0 -> is_digit d -> numeral (x * base + digit_val D d) (l ++ [d]).
Proof.
  intros (<- & Hnil & Hlead & Hmin) Hx Hd. split; [apply value_snoc|]. split; [by destruct l|]. split.
  - intros r Hr. destruct l as [|c l]; [done|]. injection Hr as -> <-. rewrite (Hlead l eq_refl) in Hx.
    destruct Hx. unfold value. cbn. apply (gd_zero _ HD).
  - apply Forall_app. split; [done|]. by apply Forall_singleton.
Qed.

Lemma digit_loop_ok n : forall fuel x buf,
  0 <= x < base ^ Z.of_nat (S n) -> (n < fuel)%nat -> (length buf + n < 16)%nat ->
  exists l, digit_loop fuel D x base buf = Some (buf ++ rev l) /\ numeral x l /\ (length l <= S n)%nat.
Proof.
  induction n as [|n IH]; intros fuel x buf Hx Hf Hl; (destruct fuel as [|fuel]; [lia|]); cbn [digit_loop];
    assert (0 <= x mod base < base) as Hm by (apply Z.mod_pos_bound; lia);
    destruct (gd_digit _ HD (x mod base) ltac:(lia)) as (d & Ed & Hv);
    assert (is_digit d) as Hdig by (split; [by eapply list_elem_of_lookup_2|lia]);
    (destruct (Nat.ltb_spec (length buf) 16); [|lia]); rewrite Ed; cbn [mbind option_bind];
    pose proof (Z.div_mod x base ltac:(lia)) as Hdm;
    (destruct (Z.eqb_spec (x / base) 0) as [E|E];
      [exists [d]; split; [done|]; split; [apply numeral_one; [nia|done]|cbn; lia]|]).
  - destruct E. apply Z.div_small. rewrite Z.pow_1_r in Hx. lia.
  - destruct (IH fuel (x / base) (buf ++ [d])) as (l & El & Hn & Hlen).
    { split; [apply Z.div_pos; lia|]. apply Z.div_lt_upper_bound; [lia|].
      rewrite (Nat2Z.inj_succ (S n)), Z.pow_succ_r in Hx by lia. lia. }
    { lia. }
    { rewrite length_app. cbn. lia. }
    exists (l ++ [d]). rewrite El, rev_app_distr, <- app_assoc. split; [done|].
    split; [|rewrite length_app; cbn; lia].
    replace x with (x / base * base + digit_val D d) by lia. by apply numeral_snoc.
Qed.

(** The text of a number: its digits, after a minus sign if it is negative. *)
Definition int_text (x : Z) (l : list byte) : Prop :=
  if x <? 0 then exists r, l = chr "-" :: r /\ numeral (- x) r else numeral x l.

Lemma int_chars_ok xx sign :
  8 <= base -> - 2 ^ 31 < xx < 2 ^ 31 ->
  exists l, int_chars D xx base sign = Some l /\ int_text (if sign then xx else u32 xx) l /\ (length l <= 12)%nat.
Proof.
  intros H8 Hx. unfold int_chars.
  assert (forall y, 0 <= y < 2 ^ 32 -> exists l, digit_loop 16 D y base [] = Some (rev l) /\ numeral y l /\ (length l <= 11)%nat) as Hloop.
  { intros y Hy. destruct (digit_loop_ok 10 16 y []) as (l & E & Hn & Hl); [|lia|cbn; lia|by exists l].
    split; [lia|]. pose proof (Z.pow_le_mono_l 8 base 11 ltac:(lia)). change (Z.of_nat 11) with 11. lia. }
  destruct (sign && (xx <? 0)) eqn:Es.
  - bprop. subst sign. destruct (Z.eqb_spec xx (- 2 ^ 31)); [lia|]. cbn [mbind option_bind].
    destruct (Hloop (- xx)) as (l & E & Hn & Hl); [lia|]. rewrite E. cbn [mbind option_bind].
    rewrite length_rev. destruct (Nat.ltb_spec (length l) 16); [|lia]. cbn [mbind option_bind].
    rewrite rev_app_distr, rev_involutive. eexists. split; [done|]. split; [|cbn; lia].
    unfold int_text. destruct (Z.ltb_spec xx 0); [|lia]. by eexists.
  - cbn [mbind option_bind]. destruct (Hloop (u32 xx)) as (l & E & Hn & Hl); [apply u32_range|]. rewrite E. cbn [mbind option_bind].
    rewrite rev_involutive. eexists. split; [done|]. split; [|lia].
    pose proof (u32_range xx). unfold int_text. destruct sign; [|by destruct (Z.ltb_spec (u32 xx) 0); [lia|]].
    cbn in Es. bprop. destruct (Z.ltb_spec xx 0); [lia|]. rewrite u32_small in Hn by lia. done.
Qed.
End numbers.

Lemma value_cons D base c l : value D base (c :: l) = digit_val D c * base ^ Z.of_nat (length l) + value D base l.
Proof.
  unfold value. cbn [foldl]. rewrite Z.mul_0_l, Z.add_0_l. generalize (digit_val D c) as v.
  induction l as [|d l IH] using rev_ind; intros v; cbn; [lia|]. rewrite !foldl_app, IH, length_app. cbn [foldl length].
  rewrite Nat2Z.inj_add, Z.pow_add_r by lia. change (Z.of_nat 1) with 1. rewrite Z.pow_1_r. lia.
Qed.

Lemma ptr_loop_ok D (HD : good_digits D) n : forall x,
  0 <= x < 2 ^ 64 -> (n <= 16)%nat ->
  exists l, ptr_loop n D x = Some l /\ length l = n /\ value D 16 l = x / 16 ^ Z.of_nat (16 - n).
Proof.
  induction n as [|n IH]; intros x Hx Hn; cbn [ptr_loop].
  - exists []. split; [done|]. split; [done|]. rewrite Z.div_small; [done|]. change (16 ^ Z.of_nat (16 - 0)) with (2 ^ 64). lia.
  - rewrite Z.shiftr_div_pow2, Z.shiftl_mul_pow2 by lia. change (2 ^ 4) with 16.
    assert (0 <= x / 2 ^ 60 < 16) as Hd by (split; [apply Z.div_pos; lia|apply Z.div_lt_upper_bound; lia]).
    destruct (gd_digit _ HD (x / 2 ^ 60) Hd) as (d & -> & Hv). cbn [mbind option_bind].
    destruct (IH (u64 (x * 16)) (u64_range _) ltac:(lia)) as (l & -> & Hl & Hval). cbn [mbind option_bind].
    exists (d :: l). split; [done|]. split; [cbn; lia|]. rewrite value_cons, Hv, Hl, Hval.
    assert (u64 (x * 16) = 16 * x - x / 2 ^ 60 * 2 ^ 64) as -> by (unfold u64; dlia).
    set (q := x / 2 ^ 60) in *. replace (Z.of_nat (16 - n)) with (Z.of_nat (16 - S n) + 1) by lia.
    rewrite Z.pow_add_r, Z.pow_1_r by lia.
    assert (2 ^ 64 = 16 ^ Z.of_nat n * (16 ^ Z.of_nat (16 - S n) * 16)) as ->.
    { rewrite <- (Z.pow_1_r 16) at 3. rewrite <- !Z.pow_add_r by lia. replace (_ + _) with 16 by lia. done. }
    assert (0 < 16 ^ Z.of_nat (16 - S n)) by (apply Z.pow_pos_nonneg; lia).
    replace (16 * x - q * (16 ^ Z.of_nat n * (16 ^ Z.of_nat (16 - S n) * 16)))
      with (16 * x + (- (q * 16 ^ Z.of_nat n)) * (16 ^ Z.of_nat (16 - S n) * 16)) by lia.
    rewrite Z.div_add by lia. rewrite (Z.mul_comm 16 x), Z.div_mul_cancel_r by lia. lia.
Qed.

Lemma ptr_chars_ok D x : good_digits D -> 0 <= x < 2 ^ 64 ->
  exists l, ptr_chars D x = Some (bytes "0x" ++ l) /\ length l = 16%nat /\ value D 16 l = x.
Proof.
  intros HD Hx. destruct (ptr_loop_ok D HD 16 x Hx) as (l & E & Hl & Hv); [lia|]. exists l.
  unfold ptr_chars. rewrite E. split; [done|]. split; [done|]. by rewrite Hv, Z.div_1_r.
Qed.

(** [atoi] reads what [printint] prints. *)
Definition is_dec (c : byte) : Prop := 48 <= byte_to_Z c <= 57 /\ digit_val User.digits c = byte_to_Z c - 48.

Lemma dec_digit c : digit_val User.digits c < 10 -> c ∈ User.digits -> is_dec c.
Proof.
  intros Hv Hin. assert (forallb (fun c => negb (digit_val User.digits c <? 10) || ((48 <=? byte_to_Z c) && (byte_to_Z c <=? 57) && (digit_val User.digits c =? byte_to_Z c - 48))) User.digits = true) as H by (by vm_compute).
  rewrite forallb_forall in H. apply list_elem_of_In, H in Hin. destruct (Z.ltb_spec (digit_val User.digits c) 10); [|lia].
  cbn in Hin. bprop. by split.
Qed.

Lemma foldl_ge l : forall v, 0 <= v -> Forall is_dec l -> v <= foldl (fun v c => v * 10 + digit_val User.digits c) v l.
Proof.
  induction l as [|c l IH]; intros v Hv Hl; cbn [foldl]; [lia|]. inversion Hl as [|? ? [Hc Hd] Hl']; subst.
  etrans; [|apply IH; [lia|done]]. lia.
Qed.

Lemma atoi_loop_ok l r : forall v, 0 <= v -> Forall is_dec l ->
  foldl (fun v c => v * 10 + digit_val User.digits c) v l < 2 ^ 31 ->
  Ulib.atoi_loop (l ++ x00 :: r) v = Some (foldl (fun v c => v * 10 + digit_val User.digits c) v l).
Proof.
  induction l as [|c l IH]; intros v Hv Hl Hlt; cbn [foldl app Ulib.atoi_loop] in *; [done|].
  inversion Hl as [|? ? [Hc Hd] Hl']; subst. pose proof (foldl_ge l (v * 10 + digit_val User.digits c) ltac:(lia) Hl').
  destruct (Z.leb_spec 48 (byte_to_Z c)); [|lia]. destruct (Z.leb_spec (byte_to_Z c) 57); [|lia]. cbn [andb].
  replace (v * 10 + byte_to_Z c - 48) with (v * 10 + digit_val User.digits c) by lia.
  destruct (Z.ltb_spec (v * 10 + digit_val User.digits c) (2 ^ 31)); [|lia]. apply IH; [lia|done|done].
Qed.

Lemma atoi_numeral x l r : numeral User.digits 10 x l -> x < 2 ^ 31 -> Ulib.atoi (l ++ x00 :: r) = Some x.
Proof.
  intros (<- & _ & _ & Hd) Hx. apply atoi_loop_ok; [lia| |done]. eapply Forall_impl; [exact Hd|].
  intros c [Hin Hv]. apply dec_digit; [lia|done].
Qed.
