(* ===== verification/PrintfSpec.v ===== *)
(** * Formatted output: the claims

    A format is a list of directives; both [printf]s emit its rendering. *)

From S2P Require Import Prelude CString User Printf.

Inductive dir := DText (l : list byte) | DInt (base : Z) (sign : bool) | DLong | DPtr | DStr | DChar.

(** The conversions each of them knows. *)
Definition kconv (c : byte) : option dir :=
  if bool_decide (c = chr "d") then Some (DInt 10 true)
  else if bool_decide (c = chr "x") then Some (DInt 16 true)
  else if bool_decide (c = chr "p") then Some DPtr
  else if bool_decide (c = chr "s") then Some DStr
  else None.
Definition uconv (c : byte) : option dir :=
  if bool_decide (c = chr "d") then Some (DInt 10 true)
  else if bool_decide (c = chr "l") then Some DLong
  else if bool_decide (c = chr "x") then Some (DInt 16 false)
  else if bool_decide (c = chr "p") then Some DPtr
  else if bool_decide (c = chr "s") then Some DStr
  else if bool_decide (c = chr "c") then Some DChar
  else None.

(** A percent sign doubled is one; an unknown conversion stands for itself; one
    at the end of the format is nothing. *)
Definition directive (conv : byte -> option dir) (c : byte) : dir :=
  match conv c with
  | Some d => d
  | None => DText (if bool_decide (c = chr "%") then bytes "%" else chr "%" :: [c])
  end.

Fixpoint parse_fmt (conv : byte -> option dir) (fmt : list byte) : list dir :=
  match fmt with
  | [] => []
  | c :: fmt =>
    if bool_decide (c = chr "%") then
      match fmt with [] => [] | c :: fmt => directive conv c :: parse_fmt conv fmt end
    else DText [c] :: parse_fmt conv fmt
  end.

Definition render1 (D : list byte) (d : dir) (ap : list varg) : option (list byte * list varg) :=
  match d with
  | DText l => Some (l, ap)
  | DInt base sign => a ← va_int ap; l ← int_chars D (fst a) base sign; Some (l, snd a)
  | DLong => a ← va_uint64 ap; l ← int_chars D (i32 (fst a)) 10 false; Some (l, snd a)
  | DPtr => a ← va_uint64 ap; l ← ptr_chars D (fst a); Some (l, snd a)
  | DStr => a ← va_str ap; l ← str_chars (fst a); Some (l, snd a)
  | DChar => a ← va_int ap; Some ([byte_of_Z (fst a)], snd a)
  end.

Fixpoint render (D : list byte) (ds : list dir) (ap : list varg) : option (list byte) :=
  match ds with
  | [] => Some []
  | d :: ds => r ← render1 D d ap; l ← render D ds (snd r); Some (fst r ++ l)
  end.

Definition emit (l : list byte) (k : Kernel.kout) : Kernel.kout :=
  Kernel.mkKout (Kernel.ko_chars k ++ l) (Kernel.ko_locking k) (Kernel.ko_panicked k).

Lemma emit_app l1 l2 k : emit l2 (emit l1 k) = emit (l1 ++ l2) k.
Proof. unfold emit. cbn. by rewrite <- app_assoc. Qed.

Lemma emit_nil k : emit [] k = k.
Proof. unfold emit. rewrite app_nil_r. by destruct k. Qed.

Definition krender (fmt : list byte) (ap : list varg) (k : Kernel.kout) : outcome Kernel.kout unit :=
  match render Kernel.digits (parse_fmt kconv fmt) ap with Some t => Ok tt (emit t k) | None => Undef end.

Lemma kernel_step fmt ap k (m : M Kernel.kout unit) (f : list varg -> M Kernel.kout unit) d :
  (forall ap k, f ap k = krender fmt ap k) ->
  m k = match render1 Kernel.digits d ap with
        | Some (l, ap') => (Kernel.consputs l;;; f ap') k
        | None => Undef
        end ->
  m k = match render Kernel.digits (d :: parse_fmt kconv fmt) ap with Some t => Ok tt (emit t k) | None => Undef end.
Proof.
  intros Hf ->. cbn [render]. destruct (render1 _ _ _) as [[l ap']|]; [|done]. cbn [mbind option_bind fst snd].
  erewrite bind_ok by reflexivity. rewrite Hf. unfold krender. destruct (render _ _ _); [|done]. cbn [mbind option_bind].
  by rewrite <- emit_app.
Qed.

Ltac opt_red := cbn [render1 mbind option_bind from_opt fst snd ret undef uopt].
Ltac opt_cases :=
  opt_red;
  repeat (match goal with
  | |- context [va_int ?l] => destruct (va_int l) as [[? ?]|]; [|done]
  | |- context [va_uint64 ?l] => destruct (va_uint64 l) as [[? ?]|]; [|done]
  | |- context [va_str ?l] => destruct (va_str l) as [[? ?]|]; [|done]
  | |- context [int_chars ?d ?x ?b ?g] => destruct (int_chars d x b g); [|done]
  | |- context [ptr_chars ?d ?x] => destruct (ptr_chars d x); [|done]
  | |- context [str_chars ?x] => destruct (str_chars x); [|done]
  end; opt_red).

Lemma kernel_printf_ok fmt r ap k : x00 ∉ fmt -> Kernel.printf_loop (fmt ++ x00 :: r) ap k = krender fmt ap k.
Proof.
  remember (length fmt) as n eqn:Hn. revert fmt ap k Hn. induction (lt_wf n) as [n _ IH]. intros fmt ap k -> Hz.
  destruct fmt as [|c fmt]; [cbn; unfold krender; cbn; by rewrite emit_nil|].
  apply not_elem_of_cons in Hz as [Hc Hz]. cbn [Kernel.printf_loop app]. rewrite bool_decide_false by congruence.
  unfold krender. cbn [parse_fmt]. destruct (decide (c = chr "%")) as [->|Hp].
  2:{ rewrite (bool_decide_true (c <> _)), (bool_decide_false (c = _)) by done.
      apply (kernel_step fmt ap k _ (Kernel.printf_loop (fmt ++ x00 :: r))); [|done]. intros. apply (IH (length fmt)); [cbn; lia|done|done]. }
  rewrite (bool_decide_false (chr "%" <> _)), (bool_decide_true (chr "%" = _)) by naive_solver.
  destruct fmt as [|d fmt]; [cbn; by rewrite emit_nil|]. apply not_elem_of_cons in Hz as [Hd Hz]. cbn [app].
  rewrite bool_decide_false by congruence.
  apply (kernel_step fmt ap k _ (Kernel.printf_loop (fmt ++ x00 :: r))); [intros; apply (IH (length fmt)); [cbn; lia|done|done]|].
  unfold directive, kconv.
  repeat (case_bool_decide; [unfold Kernel.printint, Kernel.printptr, bind; opt_cases; done|]).
  unfold bind. opt_red. unfold Kernel.consputs, modify. cbn. by rewrite <- app_assoc.
Qed.

(** ** The user's *)

Definition uemit (fd : Z) (l : list byte) (e : uenv) : uenv :=
  mkUenv (ue_files e) (ue_fds e) (partial_alter (fmap (fun o => o ++ l)) fd (ue_out e)) (ue_wfail e).

(** A descriptor that accepts what is written. *)
Definition writable (fd : Z) (e : uenv) : Prop := is_Some (ue_out e !! fd) /\ ue_wfail e = [].

Lemma uemit_writable fd l e : writable fd e -> writable fd (uemit fd l e).
Proof. intros [[o Ho] Hw]. split; [|done]. cbn. rewrite lookup_partial_alter_eq, Ho. by eexists. Qed.

Lemma uemit_app fd l1 l2 e : uemit fd l2 (uemit fd l1 e) = uemit fd (l1 ++ l2) e.
Proof.
  unfold uemit. cbn. f_equal. apply map_eq. intros i. destruct (decide (i = fd)) as [->|].
  - rewrite !lookup_partial_alter_eq. destruct (ue_out e !! fd); cbn; [by rewrite <- app_assoc|done].
  - by rewrite !lookup_partial_alter_ne.
Qed.

Lemma uemit_nil fd e : uemit fd [] e = e.
Proof.
  destruct e as [f d o w]. unfold uemit. cbn. f_equal. apply map_eq. intros i. destruct (decide (i = fd)) as [->|].
  - rewrite lookup_partial_alter_eq. destruct (o !! fd); cbn; [by rewrite app_nil_r|done].
  - by rewrite lookup_partial_alter_ne.
Qed.

Lemma write_ok fd l e : writable fd e -> write fd l e = UVal (Z.of_nat (length l)) (uemit fd l e).
Proof.
  intros [[o Ho] Hw]. unfold write. rewrite Ho, Hw. f_equal. unfold uemit. rewrite Hw. cbn. f_equal.
  apply map_eq. intros i. destruct (decide (i = fd)) as [->|].
  - by rewrite lookup_insert_eq, lookup_partial_alter_eq, Ho.
  - by rewrite lookup_insert_ne, lookup_partial_alter_ne.
Qed.

Lemma puts_ok fd l e : writable fd e -> User.puts fd l e = UVal tt (uemit fd l e).
Proof.
  revert e. induction l as [|c l IH]; intros e He; cbn [User.puts]; [by rewrite uemit_nil|].
  erewrite ubind_val by (unfold User.putc; urun (write_ok fd [c] e He); done).
  rewrite IH by (by apply uemit_writable). by rewrite uemit_app.
Qed.

Definition urender (fd : Z) (fmt : list byte) (ap : list varg) (e : uenv) : ures unit :=
  match render User.digits (parse_fmt uconv fmt) ap with Some t => UVal tt (uemit fd t e) | None => UUndef end.

Lemma user_step fd fmt ap e (m : U unit) (f : list varg -> U unit) d :
  writable fd e ->
  (forall ap e, writable fd e -> f ap e = urender fd fmt ap e) ->
  m e = match render1 User.digits d ap with
        | Some (l, ap') => (User.puts fd l;~ f ap') e
        | None => UUndef
        end ->
  m e = match render User.digits (d :: parse_fmt uconv fmt) ap with Some t => UVal tt (uemit fd t e) | None => UUndef end.
Proof.
  intros He Hf ->. cbn [render]. destruct (render1 _ _ _) as [[l ap']|]; [|done]. cbn [mbind option_bind fst snd].
  urun (puts_ok fd l e He). rewrite Hf by (by apply uemit_writable). unfold urender. destruct (render _ _ _); [|done].
  cbn [mbind option_bind]. by rewrite <- uemit_app.
Qed.

Lemma putc_puts {A} fd c (k : U A) e : writable fd e -> (User.putc fd c;~ k) e = (User.puts fd [c];~ k) e.
Proof.
  intros He. urun (puts_ok fd [c] e He). erewrite ubind_val by (unfold User.putc; urun (write_ok fd [c] e He); done). done.
Qed.

Lemma user_printf_ok fd fmt r ap e :
  x00 ∉ fmt -> writable fd e -> User.vprintf fd (fmt ++ x00 :: r) ap e = urender fd fmt ap e.
Proof.
  unfold User.vprintf. remember (length fmt) as n eqn:Hn. revert fmt ap e Hn. induction (lt_wf n) as [n _ IH]. intros fmt ap e -> Hz He.
  destruct fmt as [|c fmt]; [cbn; unfold urender; cbn; by rewrite uemit_nil|].
  apply not_elem_of_cons in Hz as [Hc Hz]. cbn [User.vprintf_loop app]. rewrite bool_decide_false by congruence.
  unfold urender. cbn [parse_fmt negb]. destruct (decide (c = chr "%")) as [->|Hp].
  2:{ rewrite !(bool_decide_false (c = _)) by done.
      apply (user_step fd fmt ap e _ (User.vprintf_loop fd (fmt ++ x00 :: r) false)); [done| |by rewrite putc_puts].
      intros. apply (IH (length fmt)); [cbn; lia|done..]. }
  rewrite !(bool_decide_true (chr "%" = _)) by done.
  destruct fmt as [|d fmt]; [cbn; by rewrite uemit_nil|]. apply not_elem_of_cons in Hz as [Hd Hz]. cbn [app User.vprintf_loop negb].
  rewrite bool_decide_false by congruence.
  apply (user_step fd fmt ap e _ (User.vprintf_loop fd (fmt ++ x00 :: r) false)); [done|intros; apply (IH (length fmt)); [cbn; lia|done..]|].
  unfold directive, uconv.
  repeat (case_bool_decide;
    [unfold User.printint, User.printptr;
     first [by rewrite putc_puts by done; subst | unfold uopt; unfold ubind at 1; opt_cases; try (rewrite putc_puts by done); done]|]).
  rewrite putc_puts by done. opt_red. urun (puts_ok fd [chr "%"] e He).
  rewrite putc_puts by (by apply uemit_writable). erewrite ubind_val by (apply puts_ok; by apply uemit_writable).
  urun (puts_ok fd [chr "%"; d] e He). by rewrite uemit_app.
Qed.

(** ** The claims *)

(** numbers.  For every [int] but the least, both [printint]s print it in the
    base asked for, its sign first, without leading zeros and within their buffer
    of 16; [%x] of the user's is unsigned.  [atoi] of a number that is not
    negative gives it back, and [printptr] prints all 16 digits. *)
Theorem printed_numbers xx base sign p k e fd r :
  - 2 ^ 31 < xx < 2 ^ 31 -> base = 10 \/ base = 16 -> 0 <= p < 2 ^ 64 -> writable fd e ->
  (exists l, Kernel.printint xx base sign k = Ok tt (emit l k) /\
     int_text Kernel.digits base (if sign then xx else u32 xx) l /\ (length l <= 12)%nat) /\
  (exists l, User.printint fd xx base sign e = UVal tt (uemit fd l e) /\
     int_text User.digits base (if sign then xx else u32 xx) l /\ (length l <= 12)%nat /\
     (base = 10 -> 0 <= xx -> Ulib.atoi (l ++ x00 :: r) = Some xx)) /\
  (exists l, User.printptr fd p e = UVal tt (uemit fd (bytes "0x" ++ l) e) /\
     length l = 16%nat /\ value User.digits 16 l = p).
Proof.
  intros Hx Hb Hp He. assert (2 <= base <= 16 /\ 8 <= base) as [Hb1 Hb2] by lia. split_and!.
  - destruct (int_chars_ok _ kernel_digits base Hb1 xx sign Hb2 Hx) as (l & E & Ht & Hl). exists l.
    unfold Kernel.printint. rewrite E. done.
  - destruct (int_chars_ok _ user_digits base Hb1 xx sign Hb2 Hx) as (l & E & Ht & Hl). exists l.
    unfold User.printint. rewrite E. split; [by apply puts_ok|]. split; [done|]. split; [done|]. intros -> Hpos.
    apply atoi_numeral; [|lia]. assert ((if sign then xx else u32 xx) = xx) as Ex by (destruct sign; [done|apply u32_small; lia]).
    rewrite Ex in Ht. unfold int_text in Ht. by destruct (Z.ltb_spec xx 0); [lia|].
  - destruct (ptr_chars_ok _ p user_digits Hp) as (l & E & Hl & Hv). exists l. unfold User.printptr. rewrite E.
    split; [by apply puts_ok|done].
Qed.

Definition env0 : uenv := mkUenv [] ∅ {[ 1 := [] ]} [].

Lemma printed_numbers_witness :
  exists l, User.printint 1 (-2026) 10 true env0 = UVal tt (uemit 1 l env0) /\ int_text User.digits 10 (-2026) l.
Proof.
  destruct (proj1 (proj2 (printed_numbers (-2026) 10 true 0 (Kernel.mkKout [] true false) env0 1 []
    ltac:(lia) ltac:(lia) ltac:(lia) ltac:(split; [by eexists|done])))) as (l & E & Ht & _).
  by exists l.
Defined.



(** [%l] takes a 64-bit argument and prints its low 32 bits. *)
Lemma long_truncated fd e :
  writable fd e -> User.vprintf fd (bytes "%l" ++ [x00]) [VInt (2 ^ 32 + 7)] e = UVal tt (uemit fd (bytes "7") e).
Proof.
  intros He. rewrite (user_printf_ok fd (bytes "%l") []); [by vm_compute|apply (bool_decide_unpack _); by vm_compute|done].
Qed.
