(* ===== verification/Grep.v ===== *)
(** * grep (user/grep.c)

    The matcher, the filter of lines with its buffer, and [main].  Pointers into a
    string are the rest of the array that starts there; [None] is a read beyond
    its end. *)

From S2P Require Import Prelude CString User Printf.

Section matchstar.
Variable matchhere : list byte -> option bool.

(** The loop of [matchstar], for the rest [re] of the expression. *)
Fixpoint matchstar (c : byte) (text : list byte) : option bool :=
  r ← matchhere text;
  if (r : bool) then Some true
  else
    match text with
    | [] => None
    | t :: text =>
      if bool_decide (t <> x00) && (bool_decide (t = c) || bool_decide (c = chr ".")) then matchstar c text
      else Some false
    end.
End matchstar.

Fixpoint matchhere (re text : list byte) {struct re} : option bool :=
  match re with
  | [] => None
  | c :: re1 =>
    if bool_decide (c = x00) then Some true
    else
      match re1 with
      | [] => None
      | d :: re2 =>
        if bool_decide (d = chr "*") then matchstar (matchhere re2) c text
        else
          match text with
          | [] => None
          | t :: text1 =>
            if bool_decide (c = chr "$") && bool_decide (d = x00) then Some (bool_decide (t = x00))
            else if bool_decide (t <> x00) && (bool_decide (c = chr ".") || bool_decide (c = t)) then matchhere re1 text1
            else Some false
          end
      end
  end.

(** The loop of [match]; it looks at the empty rest of the text too. *)
Fixpoint match_loop (re text : list byte) : option bool :=
  r ← matchhere re text;
  if (r : bool) then Some true
  else
    match text with
    | [] => None
    | t :: text => if bool_decide (t <> x00) then match_loop re text else Some false
    end.

Definition re_match (re text : list byte) : option bool :=
  match re with
  | [] => None
  | c :: re' => if bool_decide (c = chr "^") then matchhere re' text else match_loop re text
  end.

(** ** The filter *)

Definition BUF : nat := 1024.

(** The inner loop: [p] is the offset of the line to look at next.  It gives the
    buffer and the offset of the rest. *)
Fixpoint grep_lines (fuel : nat) (pattern buf : list byte) (p : nat) : U (list byte * nat) :=
  match fuel with
  | O => ufuel
  | S fuel =>
    q <~ uopt (Ulib.strchr (drop p buf) x0a);;
    match q with
    | None => uret (buf, p)
    | Some rest =>
      let q := (length buf - length rest)%nat in
      let buf := <[q := x00]> buf in
      b <~ uopt (re_match pattern (drop p buf));;
      if (b : bool) then
        let buf := <[q := x0a]> buf in
        write 1 (slice p (q + 1 - p) buf);~
        grep_lines fuel pattern buf (q + 1)
      else grep_lines fuel pattern buf (q + 1)
    end
  end.

(** The outer loop: the first [m] bytes of [buf] are the start of a line. *)
Fixpoint grep_loop (fuel : nat) (pattern : list byte) (fd : Z) (buf : list byte) (m : nat) : U (list byte) :=
  match fuel with
  | O => ufuel
  | S fuel =>
    r <~ read fd (BUF - m - 1);;
    match r with
    | None | Some [] => uret buf
    | Some bs =>
      let buf := splice buf m bs in
      let m := (m + length bs)%nat in
      let buf := <[m := x00]> buf in
      r <~ grep_lines (S m) pattern buf 0;;
      let '(buf, p) := r in
      let m := (m - p)%nat in
      buf <~ uopt (Ulib.memmove buf 0 p (Z.of_nat m));;
      grep_loop fuel pattern fd buf m
    end
  end.

(** Each round but the last reads at least one byte. *)
Definition grep (pattern : list byte) (fd : Z) (buf : list byte) : U (list byte) := fun e =>
  grep_loop (S (match ue_fds e !! fd with Some s => length (s_data s) | None => 0 end)) pattern fd buf 0 e.

Fixpoint grep_files (pattern : list byte) (files : list (list byte)) (buf : list byte) : U unit :=
  match files with
  | [] => exit 0
  | f :: files =>
    fd <~ uopen f;;
    if fd <? 0 then
      User.printf "grep: cannot open %s
" [VStr (Some (f ++ [x00]))];~ exit 1
    else
      buf <~ grep pattern fd buf;;
      uclose fd;~
      grep_files pattern files buf
  end.

Definition grep_main (argv : list (list byte)) : U unit :=
  let buf := replicate BUF x00 in
  match argv with
  | [] | [_] =>
    User.fprintf 2 "usage: grep pattern [file ...]
" [];~ exit 1
  | [_; pattern] => grep (pattern ++ [x00]) 0 buf;~ exit 0
  | _ :: pattern :: files => grep_files (pattern ++ [x00]) files buf
  end.
