(* ===== verification/GrepSpec.v ===== *)
(** * grep: the claims

    The language an expression stands for, the matcher decides it, and the filter
    prints the matching lines however the input arrives. *)

From S2P Require Import Prelude CString User Printf PrintfSpec Grep.

(** ** Expressions *)

Inductive item := One (c : byte) | Star (c : byte).

Definition accepts (c t : byte) : Prop := c = chr "." \/ t = c.

(** The items of an expression, and whether it ends in a dollar sign. *)
Fixpoint parse_here (re : list byte) : list item * bool :=
  match re with
  | [] => ([], false)
  | c :: re1 =>
    match re1 with
    | [] => if bool_decide (c = chr "$") then ([], true) else ([One c], false)
    | d :: re2 =>
      if bool_decide (d = chr "*") then (Star c :: (parse_here re2).1, (parse_here re2).2)
      else (One c :: (parse_here re1).1, (parse_here re1).2)
    end
  end.

Fixpoint den (its : list item) (s : list byte) : Prop :=
  match its with
  | [] => s = []
  | One c :: its => exists t s', s = t :: s' /\ accepts c t /\ den its s'
  | Star c :: its => exists s1 s2, s = s1 ++ s2 /\ Forall (accepts c) s1 /\ den its s2
  end.

(** The expression matches a prefix of the text. *)
Definition prefix_match (re text : list byte) : Prop :=
  exists mid post, text = mid ++ post /\ den (parse_here re).1 mid /\ ((parse_here re).2 = true -> post = []).

(** The expression matches somewhere in the text. *)
Definition matches (re text : list byte) : Prop :=
  match re with
  | c :: re' => if bool_decide (c = chr "^") then prefix_match re' text
                else exists pre rest, text = pre ++ rest /\ prefix_match re rest
  | [] => exists pre rest, text = pre ++ rest /\ prefix_match re rest
  end.

(** A test that answers whether [P] holds. *)
Definition decides (o : option bool) (P : Prop) : Prop := exists b, o = Some b /\ (b = true <-> P).

Lemma decides_iff o P Q : decides o P -> (P <-> Q) -> decides o Q.
Proof. intros (b & -> & Hb) HPQ. exists b. split; [done|]. tauto. Qed.

Lemma decides_true (P : Prop) : P -> decides (Some true) P.
Proof. intros. by exists true. Qed.

Lemma decides_false (P : Prop) : ~ P -> decides (Some false) P.
Proof. intros. exists false. by split. Qed.

Section text.
Variable r : list byte.
Implicit Types text : list byte.

Lemma matchstar_ok (here : list byte -> option bool) (P : list byte -> Prop) c text :
  (forall text, x00 ∉ text -> decides (here (text ++ x00 :: r)) (P text)) -> x00 ∉ text ->
  decides (matchstar here c (text ++ x00 :: r))
          (exists s1 s2, text = s1 ++ s2 /\ Forall (accepts c) s1 /\ P s2).
Proof.
  intros Hh. induction text as [|t text IH]; intros Hz; destruct (Hh _ Hz) as (b & Eb & Hb).
  - cbn [matchstar app] in *. rewrite Eb. cbn. destruct b.
    + apply decides_true. exists [], []. naive_solver.
    + rewrite bool_decide_false by naive_solver. apply decides_false. intros (s1 & s2 & E & _ & Hp).
      symmetry in E. apply app_eq_nil in E as [-> ->]. by apply Hb in Hp.
  - cbn [matchstar app] in *. rewrite Eb. cbn [mbind option_bind]. apply not_elem_of_cons in Hz as [Ht Hz].
    destruct b; [apply decides_true; exists [], (t :: text); naive_solver|].
    rewrite bool_decide_true by congruence. cbn [andb]. destruct (bool_decide (t = c) || bool_decide (c = chr ".")) eqn:Ec.
    + eapply decides_iff; [by apply IH|]. split.
      * intros (s1 & s2 & -> & Hs & Hp). exists (t :: s1), s2. split_and!; [done| |done]. constructor; [|done].
        apply orb_true_iff in Ec as [Ec|Ec]; apply bool_decide_eq_true in Ec; [by right|by left].
      * intros (s1 & s2 & E & Hs & Hp). destruct s1 as [|t' s1]; cbn in E; simplify_eq.
        -- by apply Hb in Hp.
        -- inversion Hs; subst. eauto.
    + apply decides_false. intros (s1 & s2 & E & Hs & Hp). apply orb_false_iff in Ec as [E1 E2].
      apply bool_decide_eq_false in E1, E2. destruct s1 as [|t' s1]; cbn in E; simplify_eq.
      * by apply Hb in Hp.
      * inversion Hs as [|? ? [?|?]]; congruence.
Qed.

Lemma prefix_match_star c re text :
  prefix_match (c :: chr "*" :: re) text <-> exists s1 s2, text = s1 ++ s2 /\ Forall (accepts c) s1 /\ prefix_match re s2.
Proof.
  unfold prefix_match. cbn [parse_here]. rewrite bool_decide_true by done. cbn [fst snd den]. split.
  - intros (mid & post & -> & (s1 & s2 & -> & Hs & Hd) & He). exists s1, (s2 ++ post). rewrite app_assoc. eauto 10.
  - intros (s1 & s2 & -> & Hs & mid & post & -> & Hd & He). exists (s1 ++ mid), post. rewrite app_assoc. eauto 10.
Qed.

Lemma prefix_match_one c d re text :
  d <> chr "*" -> prefix_match (c :: d :: re) text <-> exists t s, text = t :: s /\ accepts c t /\ prefix_match (d :: re) s.
Proof.
  intros Hd. unfold prefix_match. cbn [parse_here]. fold parse_here. rewrite bool_decide_false by done. cbn [fst snd den]. split.
  - intros (mid & post & -> & (t & s & -> & Ha & Hs) & He). exists t, (s ++ post). split; [done|]. eauto 10.
  - intros (t & s & -> & Ha & mid & post & -> & Hs & He). exists (t :: mid), post. eauto 10.
Qed.

Lemma prefix_match_end text : prefix_match [chr "$"] text <-> text = [].
Proof.
  unfold prefix_match. cbn [parse_here]. rewrite bool_decide_true by done. cbn [fst snd den]. split.
  - intros (mid & post & -> & -> & He). by apply He.
  - intros ->. by exists [], [].
Qed.

Lemma prefix_match_last c text : c <> chr "$" -> prefix_match [c] text <-> exists t s, text = t :: s /\ accepts c t.
Proof.
  intros Hc. unfold prefix_match. cbn [parse_here]. rewrite bool_decide_false by done. cbn. split.
  - intros (mid & post & -> & (t & s & -> & Ha & ->) & _). by exists t, post.
  - intros (t & s & -> & Ha). exists [t], s. split; [done|]. split; [|done]. exists t, []. done.
Qed.

Lemma char_test_ok c re1 re2 text :
  c <> x00 ->
  (forall text, x00 ∉ text -> decides (matchhere re1 (text ++ x00 :: r)) (prefix_match re2 text)) -> x00 ∉ text ->
  decides (match text ++ x00 :: r with
           | [] => None
           | t :: text1 =>
             if bool_decide (t <> x00) && (bool_decide (c = chr ".") || bool_decide (c = t)) then matchhere re1 text1
             else Some false
           end)
          (exists t s, text = t :: s /\ accepts c t /\ prefix_match re2 s).
Proof.
  intros Hc Hh Hz. destruct text as [|t text]; cbn [app].
  - rewrite bool_decide_false by naive_solver. apply decides_false. naive_solver.
  - apply not_elem_of_cons in Hz as [Ht Hz]. rewrite bool_decide_true by congruence. cbn [andb].
    destruct (bool_decide (c = chr ".") || bool_decide (c = t)) eqn:Ec.
    + eapply decides_iff; [by apply Hh|]. split; [|naive_solver]. intros Hp. exists t, text. split_and!; [done| |done].
      apply orb_true_iff in Ec as [Ec|Ec]; apply bool_decide_eq_true in Ec; [by left|by right].
    + apply decides_false. apply orb_false_iff in Ec as [E1 E2]. apply bool_decide_eq_false in E1, E2.
      intros (t' & s & [= <- <-] & [?|?] & _); congruence.
Qed.

Lemma matchhere_ok r' re text :
  x00 ∉ re -> x00 ∉ text -> decides (matchhere (re ++ x00 :: r') (text ++ x00 :: r)) (prefix_match re text).
Proof.
  remember (length re) as n eqn:Hn. revert re text Hn. induction (lt_wf n) as [n _ IH]. intros re text -> Hz Ht.
  destruct re as [|c re].
  { apply decides_true. by exists [], text. }
  apply not_elem_of_cons in Hz as [Hc Hz]. cbn [app matchhere]. rewrite bool_decide_false by congruence.
  destruct re as [|d re]; cbn [app].
  - rewrite (bool_decide_false (x00 = _)) by done. rewrite (bool_decide_true (x00 = x00)) by done.
    destruct (decide (c = chr "$")) as [->|Hd].
    + eapply decides_iff; [|symmetry; apply prefix_match_end]. rewrite bool_decide_true by done.
      destruct text as [|t text]; cbn; [by apply decides_true|]. apply not_elem_of_cons in Ht as [Ht _].
      rewrite bool_decide_false by congruence. by apply decides_false.
    + rewrite bool_decide_false by done. cbn [andb]. eapply decides_iff.
      * apply (char_test_ok c (x00 :: r') []); [congruence| |done]. intros s Hs. by apply (IH 0%nat ltac:(cbn; lia) [] s).
      * rewrite prefix_match_last by done. split; [naive_solver|]. intros (t & s & -> & Ha). exists t, s.
        split_and!; try done. by exists [], s.
  - apply not_elem_of_cons in Hz as [Hd Hz]. destruct (decide (d = chr "*")) as [->|Hst].
    + rewrite bool_decide_true by done. eapply decides_iff; [|symmetry; apply prefix_match_star].
      apply matchstar_ok; [|done]. intros s Hs. apply (IH (length re)); [cbn; lia|done..].
    + rewrite (bool_decide_false (d = chr "*")) by done. rewrite (bool_decide_false (d = x00)) by congruence. rewrite andb_false_r.
      eapply decides_iff; [|symmetry; by apply prefix_match_one].
      apply (char_test_ok c (d :: re ++ x00 :: r') (d :: re)); [congruence| |done].
      intros s Hs. apply (IH (length (d :: re)) ltac:(cbn; lia) (d :: re) s); [done| |done]. by apply not_elem_of_cons.
Qed.

Lemma match_loop_ok r' re text :
  x00 ∉ re -> x00 ∉ text ->
  decides (match_loop (re ++ x00 :: r') (text ++ x00 :: r)) (exists pre rest, text = pre ++ rest /\ prefix_match re rest).
Proof.
  intros Hz. induction text as [|t text IH]; intros Ht; destruct (matchhere_ok r' re _ Hz Ht) as (b & Eb & Hb);
    cbn [app match_loop] in *; rewrite Eb; cbn [mbind option_bind].
  - destruct b; [apply decides_true; exists [], []; naive_solver|]. rewrite bool_decide_false by naive_solver.
    apply decides_false. intros (pre & rest & E & Hp). symmetry in E. apply app_eq_nil in E as [-> ->]. by apply Hb in Hp.
  - destruct b; [apply decides_true; exists [], (t :: text); naive_solver|].
    apply not_elem_of_cons in Ht as [Ht Hts]. rewrite bool_decide_true by congruence.
    eapply decides_iff; [by apply IH|]. split.
    + intros (pre & rest & -> & Hp). by exists (t :: pre), rest.
    + intros (pre & rest & E & Hp). destruct pre as [|t' pre]; cbn in E; simplify_eq; [by apply Hb in Hp|eauto].
Qed.

Lemma re_match_ok r' re text :
  x00 ∉ re -> x00 ∉ text -> decides (re_match (re ++ x00 :: r') (text ++ x00 :: r)) (matches re text).
Proof.
  intros Hz Ht. unfold re_match, matches. destruct re as [|c re].
  - cbn [app]. rewrite bool_decide_false by done. by apply (match_loop_ok r' []).
  - cbn [app]. case_bool_decide; [|by apply (match_loop_ok r' (c :: re))].
    apply not_elem_of_cons in Hz as [_ Hz]. by apply matchhere_ok.
Qed.
End text.

(** ** The filter *)

Definition line_end (l : list byte) : list byte := l ++ [x0a].
Definition unlines (ls : list (list byte)) : list byte := mjoin (line_end <$> ls).
Definition is_line (l : list byte) : Prop := ~ x00 ∈ l /\ ~ x0a ∈ l.

(** The lines that are chosen, each with its newline. *)
Fixpoint chosen (ls : list (list byte)) (sel : list bool) : list byte :=
  match ls, sel with
  | l :: ls, b :: sel => (if b : bool then line_end l else []) ++ chosen ls sel
  | _, _ => []
  end.

(** One answer for each line, which says whether it matches. *)
Definition selects (re : list byte) (ls : list (list byte)) (sel : list bool) : Prop :=
  Forall2 (fun l b => b = true <-> matches re l) ls sel.

Lemma chosen_app ls1 sel1 ls2 sel2 :
  length ls1 = length sel1 -> chosen (ls1 ++ ls2) (sel1 ++ sel2) = chosen ls1 sel1 ++ chosen ls2 sel2.
Proof.
  revert sel1. induction ls1 as [|l ls1 IH]; intros [|b sel1]; try done. intros [= H]. cbn. rewrite IH by done. by rewrite app_assoc.
Qed.

Lemma unlines_cons l ls : unlines (l :: ls) = l ++ x0a :: unlines ls.
Proof. unfold unlines, line_end. cbn. by rewrite <- app_assoc. Qed.

Lemma strchr_newline l r : is_line l -> Ulib.strchr (l ++ x0a :: r) x0a = Some (Some (x0a :: r)).
Proof.
  intros [Hz Hn]. induction l as [|c l IH]; cbn; [done|]. apply not_elem_of_cons in Hz as [? ?], Hn as [? ?].
  rewrite !bool_decide_false by congruence. by apply IH.
Qed.

Lemma strchr_none l r : is_line l -> Ulib.strchr (l ++ x00 :: r) x0a = Some None.
Proof.
  intros [Hz Hn]. induction l as [|c l IH]; cbn; [done|]. apply not_elem_of_cons in Hz as [? ?], Hn as [? ?].
  rewrite !bool_decide_false by congruence. by apply IH.
Qed.

Lemma insert_mid {A} (l1 l2 : list A) (x y : A) n : n = length l1 -> <[n := y]> (l1 ++ x :: l2) = l1 ++ y :: l2.
Proof. intros ->. rewrite insert_app_r_alt by lia. by rewrite Nat.sub_diag. Qed.

Lemma slice_mid {A} (l1 l2 l3 : list A) p n : p = length l1 -> n = length l2 -> slice p n (l1 ++ l2 ++ l3) = l2.
Proof. intros -> ->. unfold slice. by rewrite drop_app_length, take_app_length. Qed.

Section filter.
Variable re : list byte.
Hypothesis Hre : x00 ∉ re.

(** The inner loop, on a buffer with the text from [pre] on. *)
Lemma grep_lines_ok fuel : forall ls pre rest post e,
  Forall is_line ls -> is_line rest -> (length ls < fuel)%nat -> writable 1 e ->
  exists pre' sel,
    grep_lines fuel (re ++ [x00]) (pre ++ unlines ls ++ rest ++ x00 :: post) (length pre) e =
      UVal (pre' ++ rest ++ x00 :: post, length pre') (uemit 1 (chosen ls sel) e) /\
    length pre' = length (pre ++ unlines ls) /\ selects re ls sel.
Proof.
  induction fuel as [|fuel IH]; intros ls pre rest post e Hls Hrest Hf He; [lia|]. cbn [grep_lines].
  rewrite drop_app_length. destruct ls as [|l ls].
  - cbn [unlines mjoin list_join fmap list_fmap app]. rewrite strchr_none by done.
    exists pre, []. split; [cbn; by rewrite uemit_nil|]. split; [by rewrite app_nil_r|constructor].
  - inversion Hls as [|? ? Hl Hls']; subst. rewrite unlines_cons, <- !app_assoc. cbn [app].
    rewrite strchr_newline by done. erewrite ubind_val by reflexivity.
    set (tl := unlines ls ++ rest ++ x00 :: post). cbv iota.
    assert (length (pre ++ l ++ x0a :: tl) - length (x0a :: tl) = length (pre ++ l))%nat as ->
      by (rewrite !length_app; cbn; lia).
    rewrite (app_assoc pre l), insert_mid by done. rewrite <- (app_assoc pre l), drop_app_length.
    destruct (re_match_ok tl [] re l Hre) as (b & -> & Hb); [apply Hl|]. erewrite ubind_val by reflexivity.
    cbn [length] in Hf. destruct b.
    + rewrite (app_assoc pre l), insert_mid by done.
      replace (length (pre ++ l) + 1 - length pre)%nat with (length (line_end l)) by (unfold line_end; rewrite !length_app; cbn; lia).
      replace ((pre ++ l) ++ x0a :: tl) with (pre ++ line_end l ++ tl) by (unfold line_end; by rewrite <- !app_assoc).
      rewrite slice_mid by done. urun (write_ok 1 (line_end l) e He).
      destruct (IH ls (pre ++ line_end l) rest post (uemit 1 (line_end l) e)) as (pre' & sel & E & Hlen & Hs);
        [done..|lia|by apply uemit_writable|].
      replace (length (pre ++ l) + 1)%nat with (length (pre ++ line_end l)) by (unfold line_end; rewrite !length_app; cbn; lia).
      unfold tl. rewrite app_assoc, E. exists pre', (true :: sel). split; [by rewrite uemit_app|]. split; [|by constructor].
      rewrite Hlen. unfold line_end. rewrite !length_app. cbn. rewrite ?length_app. cbn. lia.
    + destruct (IH ls (pre ++ l ++ [x00]) rest post e) as (pre' & sel & E & Hlen & Hs); [done..|lia|done|].
      replace (length (pre ++ l) + 1)%nat with (length (pre ++ l ++ [x00])) by (rewrite !length_app; cbn; lia).
      replace (pre ++ l ++ x00 :: tl) with ((pre ++ l ++ [x00]) ++ tl) by (by rewrite <- !app_assoc).
      unfold tl. rewrite E. exists pre', (false :: sel). split; [done|]. split; [|by constructor].
      rewrite Hlen. rewrite !length_app. cbn. rewrite ?length_app. cbn. lia.
Qed.

(** Where the text read so far ends within the lines. *)
Lemma split_lines ls : forall T d last,
  T ++ d = unlines ls ++ last -> Forall is_line ls -> is_line last ->
  exists ls1 ls2 rest, ls = ls1 ++ ls2 /\ T = unlines ls1 ++ rest /\ rest ++ d = unlines ls2 ++ last /\ is_line rest /\
    (forall l ls', ls2 = l :: ls' -> (length rest <= length l)%nat).
Proof.
  induction ls as [|l ls IH]; intros T d last E Hls Hlast.
  - exists [], [], T. cbn in *. split_and!; try done. subst last. destruct Hlast as [Hz Hn].
    split; [contradict Hz|contradict Hn]; apply elem_of_app; by left.
  - inversion Hls as [|? ? Hl Hls']; subst. rewrite unlines_cons, <- app_assoc in E. cbn [app] in E.
    apply app_eq_inv in E as [(k & HT & Hd)|(k & Hl' & Hd)].
    + destruct k as [|c k].
      * exists [], (l :: ls), l. rewrite app_nil_r in HT. cbn in Hd. subst T. split_and!; try done.
        -- rewrite unlines_cons, <- app_assoc. cbn. by rewrite Hd.
        -- by intros ? ? [= <- <-].
      * injection Hd as <- Hd. destruct (IH k d last (eq_sym Hd) Hls' Hlast) as (ls1 & ls2 & rest & -> & -> & Er & Hr & Hlen).
        exists (l :: ls1), ls2, rest. split_and!; try done. rewrite unlines_cons, <- app_assoc. cbn. done.
    + exists [], (l :: ls), T. split_and!; try done.
      * rewrite unlines_cons, Hl', <- !app_assoc. cbn. by rewrite Hd.
      * subst l. destruct Hl as [Hz Hn]. split; [contradict Hz|contradict Hn]; apply elem_of_app; by left.
      * intros ? ? [= <- <-]. rewrite Hl', length_app. lia.
Qed.

Definition set_fd (fd : Z) (s : stream) (e : uenv) : uenv :=
  mkUenv (ue_files e) (<[fd := s]> (ue_fds e)) (ue_out e) (ue_wfail e).

Lemma read_eq fd n e s : ue_fds e !! fd = Some s ->
  read fd n e = UVal (stream_read n s).1 (set_fd fd (stream_read n s).2 e).
Proof. intros E. unfold read. rewrite E. by destruct (stream_read n s). Qed.

Lemma set_fd_emit fd s l e : uemit 1 l (set_fd fd s e) = set_fd fd s (uemit 1 l e).
Proof. done. Qed.

Lemma set_fd_twice fd s s' e : set_fd fd s (set_fd fd s' e) = set_fd fd s e.
Proof. unfold set_fd. cbn. by rewrite insert_insert_eq. Qed.

Lemma set_fd_lookup fd s e : ue_fds (set_fd fd s e) !! fd = Some s.
Proof. cbn. by rewrite lookup_insert_eq. Qed.

Lemma stream_read_zero s : healthy s -> (stream_read 0 s).1 = Some [].
Proof. destruct s as [d [|[k|] l]]; [done..|]. intros []. apply list_elem_of_here. Qed.

(** The buffer after a read: the text, its end, and the rest. *)
Lemma buffer_read buf cur bs :
  length buf = BUF -> take (length cur) buf = cur -> (length (cur ++ bs) < BUF)%nat ->
  exists post, <[length (cur ++ bs) := x00]> (splice buf (length cur) bs) = (cur ++ bs) ++ x00 :: post /\
    length ((cur ++ bs) ++ x00 :: post) = BUF.
Proof.
  intros Hb Ht Hl. unfold splice. rewrite Ht, <- length_app. rewrite (app_assoc cur).
  destruct (drop (length (cur ++ bs)) buf) as [|x post] eqn:E.
  - apply (f_equal length) in E. rewrite length_drop in E. cbn in E. lia.
  - exists post. rewrite insert_mid by done. split; [done|].
    apply (f_equal length) in E. rewrite length_drop in E. rewrite length_app. cbn in *. lia.
Qed.

Lemma unlines_nonempty ls T : T = unlines ls -> is_line T -> ls = [].
Proof.
  intros -> [_ Hn]. destruct ls as [|l ls]; [done|]. destruct Hn. rewrite unlines_cons. set_solver.
Qed.

Lemma length_unlines ls : (length ls <= length (unlines ls))%nat.
Proof. induction ls as [|l ls IH]; [done|]. rewrite unlines_cons, length_app. cbn. lia. Qed.

Lemma memmove_front (pre rest tl : list byte) :
  exists tl', Ulib.memmove (pre ++ rest ++ tl) 0 (length pre) (Z.of_nat (length rest)) = Some (rest ++ tl') /\
    length (rest ++ tl') = length (pre ++ rest ++ tl).
Proof.
  rewrite umemmove_splice; [|lia|rewrite !length_app; lia|rewrite !length_app; lia].
  rewrite Nat2Z.id, slice_mid by done. eexists. split; [reflexivity|].
  change (rest ++ drop (0 + length rest) (pre ++ rest ++ tl)) with (splice (pre ++ rest ++ tl) 0 rest).
  apply length_splice. rewrite !length_app. lia.
Qed.

Lemma grep_loop_ok fuel : forall fd buf cur s ls last e,
  length buf = BUF -> take (length cur) buf = cur -> (length cur < BUF)%nat -> is_line cur ->
  ue_fds e !! fd = Some s -> healthy s -> (length (s_data s) < fuel)%nat -> writable 1 e ->
  cur ++ s_data s = unlines ls ++ last -> Forall is_line ls -> is_line last ->
  Forall (fun l => length l < BUF - 1)%nat ls -> (ls <> [] -> length cur < BUF - 1)%nat ->
  exists buf' s' sel, length buf' = BUF /\
    grep_loop fuel (re ++ [x00]) fd buf (length cur) e = UVal buf' (set_fd fd s' (uemit 1 (chosen ls sel) e)) /\
    selects re ls sel.
Proof.
  induction fuel as [|fuel IH]; intros fd buf cur s ls last e Hb Ht Hc Hcl Hfd Hh Hf Hw Hd Hls Hlast Hlen Hcur; [lia|].
  cbn [grep_loop]. urun (read_eq fd (BUF - length cur - 1) e s Hfd).
  assert (ls = [] -> exists buf' s' sel, length buf' = BUF /\
    uret buf (set_fd fd (stream_read (BUF - length cur - 1) s).2 e) =
      UVal buf' (set_fd fd s' (uemit 1 (chosen ls sel) e)) /\ selects re ls sel) as Hstop.
  { intros ->. exists buf, (stream_read (BUF - length cur - 1) s).2, []. rewrite uemit_nil. by split_and!; [..|constructor]. }
  destruct (decide (length cur = BUF - 1)%nat) as [Em|Em].
  { rewrite Em, Nat.sub_diag in *. replace (BUF - (BUF - 1) - 1)%nat with 0%nat in * by (unfold BUF; lia).
    rewrite stream_read_zero by done. apply Hstop. destruct ls; [done|]. exfalso. assert (BUF - 1 < BUF - 1)%nat; [by apply Hcur|lia]. }
  destruct (stream_read_ok (BUF - length cur - 1) s Hh) as (bs & s' & Er & Es & Hh' & Hn & Hnil); [unfold BUF in *; lia|].
  rewrite Er in *. cbn [fst snd] in *. destruct bs as [|b bs].
  { apply Hstop. rewrite (proj1 Hnil eq_refl), app_nil_r in Hd.
    destruct ls as [|l ls]; [done|]. destruct Hcl as [_ Hcl]. destruct Hcl. rewrite Hd, unlines_cons. set_solver. }
  set (bs' := b :: bs) in *. assert (length (cur ++ bs') < BUF)%nat as HT by (rewrite length_app; lia).
  rewrite Es, app_assoc in Hd.
  destruct (split_lines ls (cur ++ bs') (s_data s') last Hd Hls Hlast) as (ls1 & ls2 & rest & -> & Ecut & Er2 & Hrl & Hr2).
  apply Forall_app in Hls as [Hls1 Hls2], Hlen as [Hlen1 Hlen2].
  cbv iota zeta. rewrite <- !length_app.
  destruct (buffer_read buf cur bs' Hb Ht HT) as (post & -> & Hlb). rewrite Ecut in *.
  rewrite <- app_assoc. destruct (grep_lines_ok (S (length (unlines ls1 ++ rest))) ls1 [] rest post (set_fd fd s' e))
    as (pre & sel1 & E1 & Hp1 & Hs1); [done|done|rewrite length_app; pose proof (length_unlines ls1); lia|done|].
  urun E1. cbn [app] in Hp1. clear E1 Hstop.
  replace (length (unlines ls1 ++ rest) - length pre)%nat with (length rest) by (rewrite length_app; lia).
  destruct (memmove_front pre rest (x00 :: post)) as (tl & Em2 & Htl). rewrite Em2. erewrite ubind_val by reflexivity.
  destruct (IH fd (rest ++ tl) rest s' ls2 last (uemit 1 (chosen ls1 sel1) (set_fd fd s' e))) as (buf' & s2 & sel2 & Hb' & E2 & Hs2);
    try done.
  - rewrite Htl, !length_app. rewrite !length_app in Hlb. rewrite Hp1. cbn in *. lia.
  - by rewrite take_app_length.
  - rewrite length_app in HT. lia.
  - rewrite set_fd_emit. apply set_fd_lookup.
  - apply (f_equal length) in Es. rewrite length_app in Es. unfold bs' in Es. cbn in Es. lia.
  - by apply uemit_writable.
  - intros Hne. destruct ls2 as [|l ls2]; [done|]. inversion Hlen2; subst. specialize (Hr2 _ _ eq_refl). lia.
  - exists buf', s2, (sel1 ++ sel2). split; [done|]. split; [|by apply Forall2_app].
    rewrite E2. rewrite chosen_app by (by eapply Forall2_length). by rewrite <- uemit_app, !set_fd_emit, set_fd_twice.
Qed.
End filter.

(** ** The claims *)

(** C33: the matcher is right.  On every expression and every text [match]
    returns, without reading beyond their ends, and answers whether some part of
    the text is in the language of the expression: literals, dots, stars, and the
    anchors at its ends. *)
Theorem match_decides re text r r' :
  x00 ∉ re -> x00 ∉ text ->
  exists b, re_match (re ++ x00 :: r') (text ++ x00 :: r) = Some b /\ (b = true <-> matches re text).
Proof. intros. by apply re_match_ok. Qed.

Lemma match_decides_witness :
  exists b, re_match (bytes "^a.*c$" ++ [x00]) (bytes "abbc" ++ [x00]) = Some b /\
    (b = true <-> matches (bytes "^a.*c$") (bytes "abbc")).
Proof.
  apply (match_decides (bytes "^a.*c$") (bytes "abbc") [] []); apply (bool_decide_unpack _); by vm_compute.
Defined.

(** C34: [grep] prints the matching lines.  If the lines of the input, without NUL,
    have at most 1022 bytes, and reads do not fail, then, however many bytes each
    read returns, [grep] ends and has written exactly the lines that match, in
    order, each with its newline; what follows the last newline is not looked at. *)
Theorem grep_filters re fd buf s ls last e :
  x00 ∉ re -> length buf = BUF -> ue_fds e !! fd = Some s -> healthy s -> writable 1 e ->
  s_data s = unlines ls ++ last -> Forall is_line ls -> is_line last -> Forall (fun l => length l <= 1022)%nat ls ->
  exists buf' s' sel, grep (re ++ [x00]) fd buf e = UVal buf' (set_fd fd s' (uemit 1 (chosen ls sel) e)) /\
    Forall2 (fun l b => b = true <-> matches re l) ls sel.
Proof.
  intros Hre Hb Hfd Hh Hw Hd Hls Hlast Hlen. unfold grep. rewrite Hfd.
  destruct (grep_loop_ok re Hre (S (length (s_data s))) fd buf [] s ls last e) as (buf' & s' & sel & _ & E & Hs); try done.
  - unfold BUF. cbn. lia.
  - split; apply not_elem_of_nil.
  - lia.
  - eapply Forall_impl; [exact Hlen|]. unfold BUF. cbn. lia.
  - unfold BUF. cbn. lia.
  - by exists buf', s', sel.
Qed.

Definition grep_env (d : list byte) (sched : list (option nat)) : uenv :=
  mkUenv [] {[ 0 := mkStream d sched ]} {[ 1 := [] ]} [].
Definition two_lines : list (list byte) := [bytes "hello"; bytes "xyz"].

Lemma grep_filters_witness :
  exists buf' s' sel,
    grep (bytes "l" ++ [x00]) 0 (replicate BUF x00) (grep_env (unlines two_lines ++ []) [Some 2%nat; Some 0%nat]) =
      UVal buf' (set_fd 0 s' (uemit 1 (chosen two_lines sel) (grep_env (unlines two_lines ++ []) [Some 2%nat; Some 0%nat]))) /\
    Forall2 (fun l b => b = true <-> matches (bytes "l") l) two_lines sel.
Proof.
  apply (grep_filters (bytes "l") 0 (replicate BUF x00) (mkStream (unlines two_lines ++ []) [Some 2%nat; Some 0%nat]) two_lines []).
  - apply (bool_decide_unpack _). by vm_compute.
  - apply length_replicate.
  - done.
  - apply (bool_decide_unpack _). by vm_compute.
  - split; [by eexists|done].
  - done.
  - repeat constructor; apply (bool_decide_unpack _); by vm_compute.
  - split; apply not_elem_of_nil.
  - repeat constructor; cbn; lia.
Defined.

(** A line that does not fit the buffer ends the search: the second line matches
    and is not printed. *)
Lemma grep_long_line :
  let d := replicate 1023 (chr "a") ++ x0a :: bytes "b" ++ [x0a] in
  match grep (bytes "b" ++ [x00]) 0 (replicate BUF x00) (grep_env d []) with
  | UVal _ e => ue_out e !! 1 = Some []
  | _ => False
  end.
Proof. by vm_compute. Qed.
