(* ===== verification/Umalloc.v ===== *)
(** * The user-level allocator (user/umalloc.c)

    [free], [morecore], [malloc] and [malloc_usable_size] on the headers in
    memory.  A header is 16 bytes; [h_hdr] gives the two fields stored at an
    address.  [sbrk] is the system call; whether the kernel can give more memory is
    a parameter. *)

From S2P Require Import Prelude.

Definition HDR : Z := 16.

Record header := mkHdr { h_ptr : Z; h_size : Z }.
#[export] Instance header_eq_dec : EqDecision header.
Proof. solve_decision. Defined.

Record ust := mkUst { h_hdr : Z -> header; freep : Z; h_brk : Z }.

Section umalloc.
(** The address of [base], in the data segment, and whether a process of size [b]
    can grow by [n]. *)
Context (base : Z) (grow_ok : Z -> Z -> bool).

Definition ptr (a : Z) : M ust Z := gets (fun s => h_ptr (h_hdr s a)).
Definition hsize (a : Z) : M ust Z := gets (fun s => h_size (h_hdr s a)).
Definition set_ptr (a q : Z) : M ust unit :=
  modify (fun s => mkUst (<[a := mkHdr q (h_size (h_hdr s a))]> (h_hdr s)) (freep s) (h_brk s)).
Definition set_size (a n : Z) : M ust unit :=
  modify (fun s => mkUst (<[a := mkHdr (h_ptr (h_hdr s a)) (u32 n)]> (h_hdr s)) (freep s) (h_brk s)).
Definition set_freep (p : Z) : M ust unit := modify (fun s => mkUst (h_hdr s) p (h_brk s)).

(** [sbrk] returns the old size; a decrease below zero changes nothing. *)
Definition sbrk (n : Z) : M ust (option Z) := fun s =>
  let b := h_brk s in
  if 0 <? n then
    if grow_ok b n then Ok (Some b) (mkUst (h_hdr s) (freep s) (b + n)) else Ok None s
  else
    let b' := u64 (b + n) in
    Ok (Some b) (mkUst (h_hdr s) (freep s) (if b' <? b then b' else b)).

(** The search for the place of [bp] in the list. *)
Fixpoint free_find (fuel : nat) (bp p : Z) : M ust Z :=
  match fuel with
  | O => nofuel
  | S fuel =>
    next <- ptr p;;
    if (p <? bp) && (bp <? next) then ret p
    else if (next <=? p) && ((p <? bp) || (bp <? next)) then ret p
    else free_find fuel bp next
  end.

Definition free (fuel : nat) (ap : Z) : M ust unit :=
  let bp := ap - HDR in
  start <- gets freep;;
  p <- free_find fuel bp start;;
  next <- ptr p;;
  n <- hsize bp;;
  (if bp + HDR * n =? next then
     m <- hsize next;;
     set_size bp (n + m);;;
     q <- ptr next;;
     set_ptr bp q
   else set_ptr bp next);;;
  m <- hsize p;;
  (if p + HDR * m =? bp then
     n <- hsize bp;;
     set_size p (m + n);;;
     q <- ptr bp;;
     set_ptr p q
   else set_ptr p bp);;;
  set_freep p.

Definition morecore (fuel : nat) (nu : Z) : M ust Z :=
  let nu := if nu <? 4096 then 4096 else nu in
  p <- sbrk (i32 (nu * HDR));;
  match p with
  | None => ret 0
  | Some hp =>
    set_size hp nu;;;
    free fuel (hp + HDR);;;
    gets freep
  end.

Fixpoint malloc_loop (fuel : nat) (nunits prevp p : Z) : M ust Z :=
  match fuel with
  | O => nofuel
  | S fuel =>
    n <- hsize p;;
    if nunits <=? n then
      a <- (if n =? nunits then
              q <- ptr p;;
              set_ptr prevp q;;;
              ret p
            else
              set_size p (n - nunits);;;
              n <- hsize p;;
              set_size (p + HDR * n) nunits;;;
              ret (p + HDR * n));;
      set_freep prevp;;;
      ret (a + HDR)
    else
      f <- gets freep;;
      if p =? f then
        p <- morecore fuel nunits;;
        if p =? 0 then ret 0
        else
          next <- ptr p;;
          malloc_loop fuel nunits p next
      else
        next <- ptr p;;
        malloc_loop fuel nunits p next
  end.

Definition malloc_units (nbytes : Z) : Z := (nbytes + HDR - 1) / HDR + 1.

Definition malloc (fuel : nat) (nbytes : Z) : M ust Z :=
  let nunits := malloc_units nbytes in
  f <- gets freep;;
  (if f =? 0 then
     set_ptr base base;;;
     set_freep base;;;
     set_size base 0
   else ret tt);;;
  prevp <- gets freep;;
  p <- ptr prevp;;
  malloc_loop fuel nunits prevp p.

Definition malloc_usable_size (p : Z) : M ust Z :=
  if p =? 0 then ret 0 else n <- hsize (p - HDR);; ret (u32 (n * HDR)).
End umalloc.
