(* ===== verification/UmallocSpec.v ===== *)
(** * The user-level allocator: invariant and operations

    The free list is a ring through [base] in the order of addresses, with a gap
    between any two blocks; the blocks given out and the free ones are disjoint. *)

From S2P Require Import Prelude Umalloc.

(** A block: its address and its size in units. *)
Abbreviation blk_t := (Z * Z)%type.
Definition bend (b : blk_t) : Z := b.1 + HDR * b.2.
Definition apart (x y : blk_t) : Prop := bend x <= y.1 \/ bend y <= x.1.

Fixpoint all_apart (A : list blk_t) : Prop :=
  match A with [] => True | b :: A => (forall y, y ∈ A -> apart b y) /\ all_apart A end.

Definition units (A : list blk_t) : Z := foldr (fun b n => b.2 + n) 0 A.

Lemma units_app A B : units (A ++ B) = units A + units B.
Proof. unfold units. induction A as [|b A IH]; cbn; lia. Qed.

#[global] Instance units_perm : Proper (Permutation ==> eq) units.
Proof. unfold units. intros A B. induction 1; cbn; lia. Qed.

#[global] Instance all_apart_perm : Proper (Permutation ==> iff) all_apart.
Proof.
  assert (forall A B, Permutation A B -> all_apart A -> all_apart B) as H.
  { induction 1 as [|b A B Hp IH|b c A|A B C H1 IH1 H2 IH2]; cbn; [done| | |auto].
    - intros [Hb HA]. split; [|auto]. intros y Hy. apply Hb. by rewrite Hp.
    - intros [Hb [Hc HA]]. split_and!; [|intros y Hy; apply Hb; by right|done].
      intros y [->|Hy]%elem_of_cons; [|by apply Hc]. specialize (Hb b ltac:(by left)). unfold apart in *. tauto. }
  intros A B HAB. split; apply H; [done|by symmetry].
Qed.

Section spec.
(** The address of [base], and the end of the program's data, where the heap
    begins. *)
Context (base lo : Z) (grow_ok : Z -> Z -> bool).
Hypothesis base_pos : 0 < base.
Hypothesis base_lo : base < lo.
(** Memory is far smaller than what a header can describe. *)
Hypothesis grow_bound : forall b n, grow_ok b n = true -> b + n < 2 ^ 31.

Implicit Types (h : Z -> header) (ns L A : list blk_t) (s : ust).

Definition first_of ns (last : Z) : Z := match ns with b :: _ => b.1 | [] => last end.

(** The headers of [ns] are linked in this order, the last one to [last]. *)
Fixpoint links h ns (last : Z) : Prop :=
  match ns with
  | [] => True
  | b :: ns => h b.1 = mkHdr (first_of ns last) b.2 /\ links h ns last
  end.

(** The blocks [ns] come in order, after [lo] and with gaps, and end by [hi]. *)
Fixpoint in_order (lo : Z) ns (hi : Z) : Prop :=
  match ns with
  | [] => lo <= hi
  | b :: ns => lo < b.1 /\ 0 < b.2 /\ in_order (bend b) ns hi
  end.

Definition nodes L : list blk_t := (base, 0) :: L.

Record heap (s : ust) (L A : list blk_t) : Prop := {
  hp_links : links (h_hdr s) (nodes L) base;
  hp_order : in_order base L (h_brk s);
  hp_freep : freep s ∈ (nodes L).*1;
  hp_brk : lo <= h_brk s < 2 ^ 31;
  hp_alloc : forall b, b ∈ A -> h_size (h_hdr s b.1) = b.2 /\ 0 < b.2 /\ base < b.1 /\ bend b <= h_brk s;
  hp_apart : forall x y, x ∈ L -> y ∈ A -> apart x y;
  hp_disj : all_apart A;
  hp_total : HDR * (units L + units A) = h_brk s - lo
}.

Lemma links_ext h h' ns last : (forall b, b ∈ ns -> h' b.1 = h b.1) -> links h ns last -> links h' ns last.
Proof.
  induction ns as [|b ns IH]; [done|]. intros H [Hb Hl]. split; [rewrite H; [done|by left]|].
  apply IH; [|done]. intros c Hc. apply H. by right.
Qed.

Lemma first_of_app n1 n2 last : first_of (n1 ++ n2) last = first_of n1 (first_of n2 last).
Proof. by destruct n1. Qed.

Lemma links_app h n1 n2 last : links h (n1 ++ n2) last <-> links h n1 (first_of n2 last) /\ links h n2 last.
Proof. induction n1 as [|b n1 IH]; cbn; [tauto|]. rewrite IH, first_of_app. tauto. Qed.

Lemma in_order_le ns : forall l hi, in_order l ns hi -> l <= hi.
Proof. induction ns as [|b ns IH]; cbn; [done|]. intros l hi (? & ? & H). apply IH in H. unfold bend, HDR in *. lia. Qed.

Lemma in_order_bound ns : forall l hi b, in_order l ns hi -> b ∈ ns -> l < b.1 /\ 0 < b.2 /\ bend b <= hi.
Proof.
  induction ns as [|c ns IH]; cbn; intros l hi b H Hb; [by apply not_elem_of_nil in Hb|].
  destruct H as (H1 & H2 & H3). apply elem_of_cons in Hb as [->|Hb].
  - split_and!; [done|done|by eapply in_order_le].
  - destruct (IH _ _ _ H3 Hb) as (? & ? & ?). split_and!; [unfold bend, HDR in *; lia|done|done].
Qed.

Lemma in_order_mid n1 x n2 l hi :
  in_order l (n1 ++ x :: n2) hi <-> in_order l n1 (x.1 - 1) /\ 0 < x.2 /\ in_order (bend x) n2 hi.
Proof.
  revert l. induction n1 as [|c n1 IH]; intros l; cbn; [|rewrite IH; tauto].
  split; intros (? & ? & ?); split_and!; try done; lia.
Qed.

Lemma in_order_weaken ns l hi hi' : in_order l ns hi -> hi <= hi' -> in_order l ns hi'.
Proof. revert l. induction ns as [|b ns IH]; cbn; intros l H Hh; [lia|]. naive_solver. Qed.

(** ** The search in [free] *)

Definition place h (bp x : Z) : bool :=
  let next := h_ptr (h x) in
  ((x <? bp) && (bp <? next)) || ((next <=? x) && ((x <? bp) || (bp <? next))).

Lemma free_find_step fuel bp p s :
  free_find (S fuel) bp p s = if place (h_hdr s) bp p then Ok p s else free_find fuel bp (h_ptr (h_hdr s p)) s.
Proof.
  cbn [free_find]. unfold ptr. run1. unfold place. set (next := h_ptr (h_hdr s p)).
  destruct ((p <? bp) && (bp <? next)); [done|]. by destruct ((next <=? p) && ((p <? bp) || (bp <? next))).
Qed.

(** From [x] on, the nodes up to the place are passed over. *)
Lemma find_walk ns bp x s fuel last :
  links (h_hdr s) (x :: ns) last -> (length (x :: ns) <= fuel)%nat ->
  (forall y, y ∈ x :: ns -> place (h_hdr s) bp y.1 = false) ->
  free_find fuel bp x.1 s = free_find (fuel - length (x :: ns)) bp last s.
Proof.
  revert x fuel. induction ns as [|y ns IH]; intros x fuel [Hx Hl] Hf Hp; (destruct fuel as [|fuel]; [cbn in Hf; lia|]);
    rewrite free_find_step, Hp, Hx by (by left); cbn [h_ptr first_of].
  - cbn. by rewrite Nat.sub_0_r.
  - rewrite IH; [done|done|cbn in *; lia|]. intros z Hz. apply Hp. by right.
Qed.

Lemma find_from ns1 p ns2 bp s fuel last :
  links (h_hdr s) (ns1 ++ p :: ns2) last -> (length ns1 < fuel)%nat ->
  (forall y, y ∈ ns1 -> place (h_hdr s) bp y.1 = false) -> place (h_hdr s) bp p.1 = true ->
  free_find fuel bp (first_of (ns1 ++ p :: ns2) last) s = Ok p.1 s.
Proof.
  intros Hl Hf Hn Hp. destruct ns1 as [|x ns1].
  - cbn. destruct fuel as [|fuel]; [cbn in Hf; lia|]. by rewrite free_find_step, Hp.
  - apply links_app in Hl as [Hl _]. cbn [app first_of] in *. rewrite (find_walk ns1 bp x s fuel p.1); [|done|lia|done].
    destruct (fuel - length (x :: ns1))%nat eqn:E; [lia|]. by rewrite free_find_step, Hp.
Qed.

(** The ring is searched from any of its nodes. *)
Lemma find_ring N1 p N2 bp s fuel :
  links (h_hdr s) (N1 ++ p :: N2) base -> first_of (N1 ++ p :: N2) base = base ->
  freep s ∈ (N1 ++ p :: N2).*1 -> (2 * length (N1 ++ p :: N2) <= fuel)%nat ->
  (forall y, y ∈ N1 ++ N2 -> place (h_hdr s) bp y.1 = false) -> place (h_hdr s) bp p.1 = true ->
  free_find fuel bp (freep s) s = Ok p.1 s.
Proof.
  intros Hl Hb Hin Hf Hn Hp. apply list_elem_of_fmap in Hin as (x & -> & Hx).
  apply elem_of_app in Hx as [Hx|Hx%elem_of_cons].
  - apply list_elem_of_split in Hx as (M1 & M2 & ->). rewrite <- app_assoc in Hl. apply links_app in Hl as [_ Hl].
    apply (find_from (x :: M2) p N2 bp s fuel base); [done|rewrite !length_app in Hf; cbn in *; lia| |done].
    intros y Hy. apply Hn. set_solver.
  - destruct Hx as [->|Hx].
    + destruct fuel as [|fuel]; [rewrite length_app in Hf; cbn in Hf; lia|]. by rewrite free_find_step, Hp.
    + apply list_elem_of_split in Hx as (M1 & M2 & ->).
      assert (links (h_hdr s) (x :: M2) base) as Hx.
      { rewrite (app_comm_cons M1), app_assoc in Hl. by apply links_app in Hl as [_ Hl]. }
      rewrite (find_walk M2 bp x s fuel base Hx); [|rewrite !length_app in Hf; cbn in *; rewrite length_app in Hf; cbn in Hf; lia|].
      * rewrite <- Hb. apply find_from; [done| |set_solver|done].
        rewrite length_app in Hf. cbn in *. rewrite length_app in Hf. cbn in Hf. lia.
      * intros y Hy. apply Hn. set_solver.
Qed.

(** ** The effect of [free] on the headers *)

Definition hdr_right h (bp next : Z) : header :=
  if bp + HDR * h_size (h bp) =? next then mkHdr (h_ptr (h next)) (u32 (h_size (h bp) + h_size (h next)))
  else mkHdr next (h_size (h bp)).
Definition hdr_left h (p bp : Z) (d : header) : header :=
  if p + HDR * h_size (h p) =? bp then mkHdr (h_ptr d) (u32 (h_size (h p) + h_size d)) else mkHdr bp (h_size (h p)).

Lemma free_run fuel bp p s :
  free_find fuel bp (freep s) s = Ok p s -> p <> bp -> h_ptr (h_hdr s p) <> bp ->
  let d := hdr_right (h_hdr s) bp (h_ptr (h_hdr s p)) in
  exists h', free fuel (bp + HDR) s = Ok tt (mkUst h' p (h_brk s)) /\
    h' bp = d /\ h' p = hdr_left (h_hdr s) p bp d /\ (forall a, a <> bp -> a <> p -> h' a = h_hdr s a).
Proof.
  intros E Hp Hn d. unfold free. replace (bp + HDR - HDR) with bp by lia. run1. run E. unfold ptr, hsize. run1. run1.
  unfold d, hdr_right. set (next := h_ptr (h_hdr s p)) in *. set (h := h_hdr s) in *. clearbody next.
  assert (exists h1, (if bp + HDR * h_size (h bp) =? next
      then m <- gets (fun s => h_size (h_hdr s next));; set_size bp (h_size (h bp) + m);;;
           q <- gets (fun s => h_ptr (h_hdr s next));; set_ptr bp q
      else set_ptr bp next) s = Ok tt (mkUst h1 (freep s) (h_brk s)) /\
      h1 bp = (if bp + HDR * h_size (h bp) =? next then mkHdr (h_ptr (h next)) (u32 (h_size (h bp) + h_size (h next)))
               else mkHdr next (h_size (h bp))) /\ (forall a, a <> bp -> h1 a = h a)) as (h1 & E1 & Hbp & Ho1).
  { case_if.
    - eexists. split; [reflexivity|]. cbn. split.
      + rewrite !fn_lookup_insert. cbn. by rewrite fn_lookup_insert_ne by done.
      + intros a Ha. by rewrite !fn_lookup_insert_ne by done.
    - eexists. split; [reflexivity|]. split; [by rewrite fn_lookup_insert|]. intros a Ha. by rewrite fn_lookup_insert_ne by done. }
  fold h. run E1. run1. cbn [h_hdr]. rewrite (Ho1 p) by done.
  unfold hdr_left. rewrite <- Hbp. destruct (p + HDR * h_size (h p) =? bp).
  - eexists. split; [reflexivity|]. cbn. rewrite !(fn_lookup_insert_ne _ p bp) by done. split; [done|]. split.
    + by rewrite !fn_lookup_insert.
    + intros a Ha Ha'. rewrite !fn_lookup_insert_ne by done. by apply Ho1.
  - eexists. split; [reflexivity|]. cbn. rewrite !(fn_lookup_insert_ne _ p bp) by done. split; [done|]. split.
    + rewrite fn_lookup_insert. by rewrite Ho1.
    + intros a Ha Ha'. rewrite !fn_lookup_insert_ne by done. by apply Ho1.
Qed.

(** The lists after each of the two steps. *)
Definition join_right (b : blk_t) ns : list blk_t :=
  match ns with
  | q :: ns' => if bend b =? q.1 then (b.1, b.2 + q.2) :: ns' else b :: ns
  | [] => [b]
  end.
Definition join_left (p : blk_t) ns : list blk_t :=
  match ns with
  | r :: ns' => if bend p =? r.1 then (p.1, p.2 + r.2) :: ns' else p :: ns
  | [] => [p]
  end.

(** Where a block belongs in the list. *)
Lemma split_at L b : forall l hi,
  in_order l L hi -> (forall x, x ∈ L -> apart x b) -> 0 < b.2 ->
  exists L1 L2, L = L1 ++ L2 /\ (forall x, x ∈ L1 -> bend x <= b.1) /\ (forall x, x ∈ L2 -> bend b <= x.1).
Proof.
  induction L as [|x L IH]; intros l hi H Ha Hb; [exists [], []; set_solver|]. destruct H as (H1 & H2 & H3).
  destruct (Ha x ltac:(by left)) as [Hx|Hx].
  - destruct (IH _ _ H3) as (L1 & L2 & -> & HL1 & HL2); [set_solver|done|]. exists (x :: L1), L2. split; [done|]. set_solver.
  - exists [], (x :: L). split; [done|]. split; [set_solver|]. intros y [->|Hy]%elem_of_cons; [done|].
    destruct (in_order_bound _ _ _ _ H3 Hy) as (? & _ & _). unfold bend, HDR in *. lia.
Qed.

Lemma nodes_lt L hi M1 y M2 z M3 : in_order base L hi -> nodes L = M1 ++ y :: M2 ++ z :: M3 -> y.1 < z.1 /\ base <= y.1.
Proof.
  intros H E. destruct M1 as [|c M1]; injection E as E1 E2.
  - subst. destruct (in_order_bound _ _ _ z H); [set_solver|]. cbn. lia.
  - subst. apply in_order_mid in H as (H1 & ? & H2). apply in_order_le in H1. apply in_order_mid in H2 as (H2 & _).
    apply in_order_le in H2. unfold bend, HDR in *. lia.
Qed.

Lemma nodes_base L hi y : in_order base L hi -> y ∈ nodes L -> base <= y.1.
Proof.
  intros H Hy. apply elem_of_cons in Hy as [->|Hy]; [done|]. destruct (in_order_bound _ _ _ _ H Hy). lia.
Qed.

Lemma first_of_join b ns last : first_of (join_right b ns) last = b.1.
Proof. destruct ns as [|q ns]; cbn; [done|]. by case_if. Qed.

(** ** The place of a block *)

Record placed (L : list blk_t) (b : blk_t) (N1 : list blk_t) (p : blk_t) (L2 : list blk_t) (hi : Z) : Prop := {
  pl_nodes : nodes L = N1 ++ p :: L2;
  pl_before : bend p <= b.1 /\ p.1 < b.1;
  pl_after : forall x, x ∈ L2 -> bend b <= x.1;
  pl_size : 0 < b.2;
  pl_end : bend b <= hi
}.

Lemma placed_ok L b hi :
  in_order base L hi -> (forall x, x ∈ L -> apart x b) -> base < b.1 -> 0 < b.2 -> bend b <= hi ->
  exists N1 p L2, placed L b N1 p L2 hi.
Proof.
  intros H Ha Hb1 Hb2 He. destruct (split_at L b base hi H Ha Hb2) as (L1 & L2 & -> & HL1 & HL2).
  destruct (exists_last (l := nodes L1)) as (N1 & p & E); [done|]. exists N1, p, L2.
  split; try done.
  - unfold nodes in *. by rewrite app_comm_cons, E, <- app_assoc.
  - assert (p ∈ nodes L1) as Hp by (rewrite E; set_solver). apply elem_of_cons in Hp as [->|Hp].
    + unfold bend. cbn. lia.
    + destruct (in_order_bound _ _ _ p H) as (_ & ? & _); [set_solver|]. specialize (HL1 p Hp). unfold bend, HDR in *. lia.
Qed.

Section placed.
Context (L : list blk_t) (b : blk_t) (N1 : list blk_t) (p : blk_t) (L2 : list blk_t) (hi : Z).
Hypothesis (HL : in_order base L hi) (HP : placed L b N1 p L2 hi).

Lemma place_here h : links h (nodes L) base -> place h b.1 p.1 = true.
Proof.
  destruct HP as [Hn [Hp1 Hp2] Ha _ _]. rewrite Hn. intros Hl. apply links_app in Hl as [_ [Hp _]].
  unfold place. rewrite Hp. cbn [h_ptr]. destruct L2 as [|q L2']; cbn [first_of].
  - pose proof (nodes_base L hi p HL ltac:(rewrite Hn; set_solver)). apply orb_true_iff. right.
    apply andb_true_iff. split; [lia|]. apply orb_true_iff. left. lia.
  - specialize (Ha q ltac:(by left)). apply orb_true_iff. left. apply andb_true_iff. destruct HP. unfold bend, HDR in *. lia.
Qed.

Lemma place_elsewhere h y : links h (nodes L) base -> y ∈ N1 ++ L2 -> place h b.1 y.1 = false.
Proof.
  destruct HP as [Hn [Hp1 Hp2] Ha Hs _]. intros Hl [Hy|Hy]%elem_of_app; apply list_elem_of_split in Hy as (M1 & M2 & E).
  - assert (exists z, h_ptr (h y.1) = z /\ y.1 < z <= p.1) as (z & Hz & Hyz).
    { rewrite Hn, E, <- app_assoc in Hl. cbn in Hl. apply links_app in Hl as [_ [Hy _]]. rewrite Hy. eexists. split; [reflexivity|].
      destruct M2 as [|z M2]; cbn [app first_of h_ptr].
      - destruct (nodes_lt L hi M1 y [] p L2 HL); [by rewrite Hn, E, <- app_assoc|]. lia.
      - destruct (nodes_lt L hi M1 y [] z (M2 ++ p :: L2) HL) as [? _]; [by rewrite Hn, E, <- app_assoc|].
        destruct (nodes_lt L hi (M1 ++ [y]) z M2 p L2 HL) as [? _]; [by rewrite Hn, E, <- !app_assoc|]. lia. }
    unfold place. rewrite Hz. apply orb_false_iff. split; apply andb_false_iff; [right; lia|left; lia].
  - assert (b.1 < y.1) as Hby by (specialize (Ha y ltac:(rewrite E; set_solver)); unfold bend, HDR in *; lia).
    pose proof (nodes_base L hi y HL ltac:(rewrite Hn, E; set_solver)).
    unfold place. rewrite Hn, E, (app_comm_cons M1), app_assoc in Hl. apply links_app in Hl as [_ [Hy _]]. rewrite Hy. cbn [h_ptr].
    apply orb_false_iff. split; apply andb_false_iff; [left; lia|]. destruct M2 as [|z M2]; cbn [first_of].
    + right. apply orb_false_iff. pose proof (nodes_base L hi p HL ltac:(rewrite Hn; set_solver)). lia.
    + left. destruct (nodes_lt L hi (N1 ++ p :: M1) y [] z M2 HL); [by rewrite Hn, E, <- app_assoc|]. lia.
Qed.

End placed.

Definition joined (b p : blk_t) (L2 : list blk_t) : list blk_t := join_left p (join_right b L2).

Lemma join_right_order b p L2 l hi :
  l < b.1 -> 0 < b.2 -> bend b <= hi -> (forall x, x ∈ L2 -> bend b <= x.1) -> in_order (bend p) L2 hi ->
  in_order l (join_right b L2) hi.
Proof.
  intros Hl Hs He Ha H. destruct L2 as [|q L2]; cbn; [done|]. destruct H as (H1 & H2 & H3).
  pose proof (Ha q ltac:(by left)). case_if; cbn; (split; [done|]).
  - split; [lia|]. by replace (bend (b.1, b.2 + q.2)) with (bend q) by (unfold bend, HDR in *; cbn; lia).
  - split_and!; try done. lia.
Qed.

(** The list after the block is put in, as the nodes of a list in order. *)
Lemma joined_nodes L b N1 p L2 hi :
  in_order base L hi -> placed L b N1 p L2 hi ->
  exists L', N1 ++ joined b p L2 = nodes L' /\ in_order base L' hi.
Proof.
  intros HL [Hn [Hp1 Hp2] Ha Hs He]. destruct N1 as [|c N1].
  - injection Hn as Ep EL. exists (join_right b L2). unfold joined, join_left. split.
    + pose proof (first_of_join b L2 0). destruct (join_right b L2) as [|r R]; [by rewrite <- Ep|]. cbn in *.
      destruct (Z.eqb_spec (bend p) r.1); [|by rewrite <- Ep]. rewrite <- Ep in *. unfold bend in *. cbn in *. lia.
    + apply (join_right_order b p); try done; [by rewrite <- Ep in Hp2|]. rewrite <- Ep. unfold bend. cbn. by rewrite Z.add_0_r, <- EL.
  - injection Hn as <- EL. exists (N1 ++ joined b p L2). split; [done|]. rewrite EL in HL. apply in_order_mid in HL as (H1 & H2 & H3).
    pose proof (join_right_order b p L2 (b.1 - 1) hi ltac:(lia) Hs He Ha H3) as HR. unfold joined, join_left.
    pose proof (first_of_join b L2 0) as Hf. destruct (join_right b L2) as [|r R]; cbn in Hf.
    { apply in_order_mid. cbn. split_and!; try done. unfold bend, HDR in *; lia. }
    destruct HR as (R1 & R2 & R3). destruct (Z.eqb_spec (bend p) r.1) as [E|E]; apply in_order_mid; cbn [fst snd].
    + split_and!; [done|lia|]. by replace (bend (p.1, p.2 + r.2)) with (bend r) by (unfold bend, HDR in *; cbn; lia).
    + split_and!; [done|done|]. cbn. split_and!; [lia|done|done].
Qed.

Lemma placed_after L b N1 p L2 hi x :
  in_order base L hi -> placed L b N1 p L2 hi -> x ∈ L2 -> 0 < x.2 /\ bend x <= hi /\ x.1 <> p.1.
Proof.
  intros HL [Hn [Hp1 Hp2] Ha Hs He] Hx. apply list_elem_of_split in Hx as (M1 & M2 & E).
  destruct (nodes_lt L hi N1 p M1 x M2 HL) as [? ?]; [by rewrite Hn, E|].
  destruct (in_order_bound L base hi x HL) as (_ & ? & ?); [|split_and!; [done|done|lia]].
  assert (x ∈ nodes L) as [->|?]%elem_of_cons; [rewrite Hn, E; set_solver|cbn in *; lia|done].
Qed.

Lemma placed_before L b N1 p L2 hi x :
  in_order base L hi -> placed L b N1 p L2 hi -> x ∈ N1 -> x.1 <> p.1.
Proof.
  intros HL [Hn _ _ _ _] Hx. apply list_elem_of_split in Hx as (M1 & M2 & E).
  destruct (nodes_lt L hi M1 x M2 p L2 HL); [by rewrite Hn, E, <- app_assoc|]. lia.
Qed.

Lemma placed_fresh L b N1 p L2 hi y : in_order base L hi -> placed L b N1 p L2 hi -> y ∈ nodes L -> y.1 <> b.1.
Proof.
  intros HL HP Hy. pose proof HP as [Hn [Hp1 Hp2] Ha Hs He]. rewrite Hn in Hy. apply elem_of_app in Hy as [Hy|[->|Hy]%elem_of_cons].
  - apply list_elem_of_split in Hy as (M1 & M2 & E). destruct (nodes_lt L hi M1 y M2 p L2 HL); [by rewrite Hn, E, <- app_assoc|]. lia.
  - lia.
  - specialize (Ha y Hy). unfold bend, HDR in *. lia.
Qed.

Lemma join_right_links h h' L b N1 p L2 hi :
  in_order base L hi -> placed L b N1 p L2 hi -> links h L2 base -> h_size (h b.1) = b.2 -> hi < 2 ^ 31 ->
  h' b.1 = hdr_right h b.1 (first_of L2 base) -> (forall a, a <> b.1 -> a <> p.1 -> h' a = h a) ->
  links h' (join_right b L2) base.
Proof.
  intros HL HP Hl2 Hsz Hhi Hb Ho. pose proof HP as [Hn [Hp1 Hp2] Ha Hs He].
  pose proof (nodes_base L hi p HL ltac:(rewrite Hn; set_solver)) as Hpb.
  assert (forall x, x ∈ L2 -> h' x.1 = h x.1) as Hsame.
  { intros x Hx. apply Ho; [|by apply (placed_after L b N1 p L2 hi)].
    apply (placed_fresh L b N1 p L2 hi); [done..|]. rewrite Hn. set_solver. }
  unfold hdr_right in Hb. rewrite Hsz in Hb. fold (bend b) in Hb. destruct L2 as [|q L2]; cbn [join_right first_of] in *.
  - destruct (Z.eqb_spec (bend b) base); [unfold bend, HDR in *; lia|]. by split.
  - destruct Hl2 as [Hq Hl2]. destruct (placed_after L b N1 p (q :: L2) hi q HL HP) as (? & ? & _); [by left|].
    assert (links h' L2 base) as Hl2' by (eapply links_ext; [|exact Hl2]; intros; apply Hsame; by right).
    destruct (Z.eqb_spec (bend b) q.1) as [E|E]; cbn.
    + split; [|done]. rewrite Hb, Hq. cbn. rewrite u32_small; [done|]. unfold bend, HDR in *. lia.
    + split; [done|]. split; [|done]. rewrite Hsame; [done|by left].
Qed.

Lemma joined_links h h' L b N1 p L2 hi :
  in_order base L hi -> placed L b N1 p L2 hi -> links h (nodes L) base -> h_size (h b.1) = b.2 -> hi < 2 ^ 31 ->
  h' b.1 = hdr_right h b.1 (first_of L2 base) -> h' p.1 = hdr_left h p.1 b.1 (h' b.1) ->
  (forall a, a <> b.1 -> a <> p.1 -> h' a = h a) -> links h' (N1 ++ joined b p L2) base.
Proof.
  intros HL HP Hl Hsz Hhi Hb Hp Ho. pose proof HP as [Hn [Hp1 Hp2] Ha Hs He].
  pose proof (nodes_base L hi p HL ltac:(rewrite Hn; set_solver)) as Hpb.
  rewrite Hn in Hl. apply links_app in Hl as [Hl1 [Hlp Hl2]].
  pose proof (join_right_links h h' L b N1 p L2 hi HL HP Hl2 Hsz Hhi Hb Ho) as HR.
  assert (0 < b.1 /\ 0 <= p.2) as [? ?].
  { split; [lia|]. assert (p ∈ nodes L) as Hin by (rewrite Hn; apply elem_of_app; right; by left).
    apply elem_of_cons in Hin as [->|Hin]; [done|].
    destruct (in_order_bound _ _ _ _ HL Hin). lia. }
  assert (links h' N1 p.1) as HN1.
  { eapply links_ext; [|exact Hl1]. intros x Hin. apply Ho; [|by apply (placed_before L b N1 p L2 hi)].
    apply (placed_fresh L b N1 p L2 hi); [done..|]. rewrite Hn. apply elem_of_app. by left. }
  pose proof (join_right_order b p L2 (b.1 - 1) hi ltac:(lia) Hs He Ha) as HO.
  apply links_app. unfold joined, join_left. pose proof (first_of_join b L2 base) as Hf.
  destruct (join_right b L2) as [|r R] eqn:ER; [unfold join_right in ER; destruct L2 as [|q ?]; [done|by destruct (bend b =? q.1)]|].
  destruct HR as [Hr HR]. cbn [first_of] in Hf. rewrite Hf in Hr.
  unfold hdr_left in Hp. rewrite Hlp in Hp. cbn [h_size] in Hp. fold (bend p) in Hp. rewrite Hr in Hp. cbn [h_ptr h_size] in Hp.
  rewrite Hf. destruct (Z.eqb_spec (bend p) b.1) as [E|E]; cbn [first_of fst]; (split; [done|]); cbn [links fst snd].
  - split; [|done]. rewrite Hp. rewrite u32_small; [done|].
    assert (0 < r.2 /\ bend r <= hi) as [? ?].
    { unfold join_right in ER. destruct L2 as [|q L2]; [by injection ER as <- <-|]. destruct (placed_after L b N1 p (q :: L2) hi q HL HP) as (? & ? & _); [by left|].
      destruct (Z.eqb_spec (bend b) q.1); injection ER as <- <-; cbn; [|done]. split; [lia|]. unfold bend, HDR in *. cbn. lia. }
    unfold bend, HDR in *. rewrite <- Hf in *. lia.
  - rewrite Hp. cbn [first_of]. rewrite Hf. split; [done|]. split; [done|done].
Qed.

Lemma apart_join x z y : bend x = z.1 -> 0 < y.2 -> 0 <= z.2 -> apart x y -> apart z y -> apart (x.1, x.2 + z.2) y.
Proof. unfold apart, bend, HDR. cbn. intros E Hy Hz [?|?] [?|?]; lia. Qed.

(** The blocks of the joined list: as large as [b] one of them, and apart from
    everything the old ones were apart from. *)
Lemma join_right_apart b L2 y :
  0 < y.2 -> (forall x, x ∈ L2 -> 0 < x.2 /\ apart x y) -> apart b y -> forall x, x ∈ join_right b L2 -> apart x y.
Proof.
  intros Hy Ha Hb x. destruct L2 as [|q L2]; cbn; [by intros ->%list_elem_of_singleton|].
  destruct (Ha q ltac:(by left)). destruct (Z.eqb_spec (bend b) q.1); intros Hx.
  - apply elem_of_cons in Hx as [->|Hx]; [apply apart_join; (done || lia)|]. apply Ha. by right.
  - apply elem_of_cons in Hx as [->|Hx]; [done|]. by apply Ha.
Qed.

Lemma join_left_apart p R y :
  0 < y.2 -> (forall x, x ∈ R -> 0 < x.2 /\ apart x y) -> apart p y -> forall x, x ∈ join_left p R -> apart x y.
Proof.
  intros Hy Ha Hb x. destruct R as [|r R]; cbn; [by intros ->%list_elem_of_singleton|].
  destruct (Ha r ltac:(by left)). destruct (Z.eqb_spec (bend p) r.1); intros Hx.
  - apply elem_of_cons in Hx as [->|Hx]; [apply apart_join; (done || lia)|]. apply Ha. by right.
  - apply elem_of_cons in Hx as [->|Hx]; [done|]. by apply Ha.
Qed.

Lemma join_right_pos b L2 : 0 < b.2 -> (forall x, x ∈ L2 -> 0 < x.2) -> forall x, x ∈ join_right b L2 -> 0 < x.2.
Proof.
  intros Hb Ha x. destruct L2 as [|q L2]; cbn; [by intros ->%list_elem_of_singleton|].
  pose proof (Ha q ltac:(by left)). case_if; intros [->|Hx]%elem_of_cons; cbn; try lia; apply Ha; [by right|done].
Qed.

Lemma units_joined b p L2 : units (joined b p L2) = p.2 + b.2 + units L2.
Proof.
  unfold joined, join_left, join_right, units. destruct L2 as [|q L2]; cbn [foldr fst snd].
  - case_if; cbn; lia.
  - destruct (bend b =? q.1); cbn [foldr fst snd]; case_if; cbn [foldr fst snd]; lia.
Qed.

Lemma joined_large b p L2 :
  0 <= p.2 -> 0 < b.2 -> (forall x, x ∈ L2 -> 0 < x.2) -> exists x, x ∈ joined b p L2 /\ b.2 <= x.2.
Proof.
  intros Hp Hb Ha. assert (exists r R, join_right b L2 = r :: R /\ b.2 <= r.2) as (r & R & E & Hr).
  { destruct L2 as [|q L2]; [by exists b, []|]. pose proof (Ha q ltac:(by left)). cbn. destruct (bend b =? q.1).
    - do 2 eexists. split; [done|]. cbn. lia.
    - do 2 eexists. split; [done|]. lia. }
  unfold joined. rewrite E. cbn. destruct (bend p =? r.1).
  - eexists. split; [by left|]. cbn. lia.
  - exists r. split; [right; by left|done].
Qed.

Lemma length_joined b p L2 : (length (joined b p L2) <= 2 + length L2)%nat.
Proof.
  unfold joined, join_left, join_right. destruct L2 as [|q L2]; [case_if; cbn; lia|].
  destruct (bend b =? q.1); case_if; cbn; lia.
Qed.

Lemma joined_first b p L2 : p.1 ∈ (joined b p L2).*1.
Proof.
  unfold joined, join_left. destruct (join_right b L2) as [|r R]; [by left|]. case_if; by left.
Qed.

Lemma free_ok s L A b fuel :
  heap s L (b :: A) -> (2 * S (length L) <= fuel)%nat ->
  exists s' L', free fuel (b.1 + HDR) s = Ok tt s' /\ heap s' L' A /\ h_brk s' = h_brk s /\
    (length L' <= S (length L))%nat /\ exists x, x ∈ L' /\ b.2 <= x.2.
Proof.
  intros [Hl Ho Hfp Hbr Hal Hap Hd Ht] Hf. destruct (Hal b ltac:(by left)) as (Hsz & Hb2 & Hb1 & Hbe).
  destruct (placed_ok L b (h_brk s) Ho) as (N1 & p & L2 & HP); [intros x Hx; apply Hap; [done|by left]|done..|].
  pose proof HP as [Hn [Hp1 Hp2] Ha Hs He]. pose proof (nodes_base L _ p Ho ltac:(rewrite Hn; apply elem_of_app; right; by left)) as Hpb.
  assert (free_find fuel b.1 (freep s) s = Ok p.1 s) as E.
  { apply (find_ring N1 p L2); rewrite <- ?Hn; [done|done|done|cbn in *; lia| |].
    - intros y Hy. by apply (place_elsewhere L b N1 p L2 (h_brk s)).
    - by apply (place_here L b N1 p L2 (h_brk s)). }
  assert (h_hdr s p.1 = mkHdr (first_of L2 base) p.2) as Ep by (rewrite Hn in Hl; by apply links_app in Hl as [_ [? _]]).
  destruct (free_run fuel b.1 p.1 s E) as (h' & E' & Hhb & Hhp & Hho); [lia| |].
  { rewrite Ep. cbn. destruct L2 as [|q L2]; cbn; [lia|]. specialize (Ha q ltac:(by left)). unfold bend, HDR in *. lia. }
  rewrite Ep in Hhb, Hhp. cbn [h_ptr] in *.
  destruct (joined_nodes L b N1 p L2 (h_brk s) Ho HP) as (L' & EN & HO').
  assert (forall x, x ∈ L2 -> 0 < x.2) as Hpos by (intros x Hx; by apply (placed_after L b N1 p L2 (h_brk s))).
  assert (0 <= p.2) as Hpp.
  { assert (p ∈ nodes L) as Hin by (rewrite Hn; apply elem_of_app; right; by left).
    apply elem_of_cons in Hin as [->|Hin]; [done|]. destruct (in_order_bound _ _ _ _ Ho Hin). lia. }
  eexists. exists L'. split; [exact E'|]. split; [|split; [done|split]].
  - split; cbn [h_hdr freep h_brk]; try done.
    + rewrite <- EN. apply (joined_links (h_hdr s) h' L b N1 p L2 (h_brk s)); try done; [lia|]. by rewrite Hhp, Hhb.
    + rewrite <- EN, fmap_app. apply elem_of_app. right. apply joined_first.
    + intros y Hy. destruct (Hal y ltac:(by right)) as (? & ? & ? & ?). rewrite Hho; [done| |].
      * destruct Hd as [Hd _]. destruct (Hd y Hy); unfold bend, HDR in *; lia.
      * assert (p ∈ nodes L) as Hin by (rewrite Hn; apply elem_of_app; right; by left).
        apply elem_of_cons in Hin as [->|Hin]; [cbn; lia|]. destruct (in_order_bound _ _ _ _ Ho Hin) as (_ & ? & _).
        destruct (Hap p y Hin ltac:(by right)); unfold bend, HDR in *; lia.
    + intros x y Hx Hy. destruct (Hal y ltac:(by right)) as (_ & Hy2 & Hyb & _). destruct Hd as [Hd _].
      assert (x ∈ N1 ++ joined b p L2) as Hx' by (rewrite EN; by right).
      assert (forall z, z ∈ nodes L -> apart z y) as HLy.
      { intros z [->|Hz]%elem_of_cons; [left; unfold bend; cbn; lia|]. apply Hap; [done|by right]. }
      rewrite Hn in HLy. apply elem_of_app in Hx' as [Hx'|Hx']; [apply HLy, elem_of_app; by left|].
      clear Hx. revert x Hx'. apply join_left_apart; [done| |apply HLy, elem_of_app; right; by left].
      intros x Hx. split; [by apply (join_right_pos b L2 Hb2 Hpos)|]. revert x Hx. apply join_right_apart; [done| |by apply Hd].
      intros x Hx. split; [by apply Hpos|]. apply HLy, elem_of_app. right. by right.
    + by destruct Hd.
    + apply (f_equal units) in EN. rewrite units_app, units_joined in EN. apply (f_equal units) in Hn.
      rewrite units_app in Hn. unfold units, nodes in *. cbn in *. lia.
  - apply (f_equal length) in EN, Hn. rewrite length_app in EN, Hn. pose proof (length_joined b p L2). cbn in *. lia.
  - destruct (joined_large b p L2 Hpp Hb2 Hpos) as (x & Hx & Hx2). exists x. split; [|done].
    assert (x ∈ nodes L') as Hin by (rewrite <- EN; apply elem_of_app; by right).
    apply elem_of_cons in Hin as [->|?]; [cbn in Hx2; lia|done].
Qed.

(** ** [morecore] *)

Lemma heap_nodes s L A y : heap s L A -> y ∈ nodes L -> base <= y.1 /\ 0 <= y.2 /\ y.1 < h_brk s.
Proof.
  intros H Hy. apply elem_of_cons in Hy as [->|Hy]; [pose proof (hp_brk _ _ _ H); cbn; lia|].
  destruct (in_order_bound _ _ _ _ (hp_order _ _ _ H) Hy) as (? & ? & ?). unfold bend, HDR in *. lia.
Qed.

(** New memory above the heap is a block that nobody has. *)
Lemma heap_grow s L A h' nu :
  heap s L A -> 0 < nu -> h_brk s + HDR * nu < 2 ^ 31 -> h_size (h' (h_brk s)) = nu ->
  (forall a, a <> h_brk s -> h' a = h_hdr s a) ->
  heap (mkUst h' (freep s) (h_brk s + HDR * nu)) L ((h_brk s, nu) :: A).
Proof.
  intros HH Hnu Hb Hs Ho. pose proof HH as [Hl Hor Hfp Hbr Hal Hap Hd Ht]. split; cbn [h_hdr freep h_brk]; try done.
  - eapply links_ext; [|exact Hl]. intros y Hy. apply Ho. destruct (heap_nodes s L A y HH Hy). lia.
  - eapply in_order_weaken; [exact Hor|]. unfold HDR. lia.
  - unfold HDR in *. lia.
  - intros y [->|Hy]%elem_of_cons; [unfold bend; cbn; split_and!; [done|done|lia|lia]|].
    destruct (Hal y Hy) as (? & ? & ? & ?). rewrite Ho by (unfold bend, HDR in *; lia). unfold HDR in *. split_and!; (done || lia).
  - intros x y Hx [->|Hy]%elem_of_cons; [|by apply Hap]. left. cbn. by destruct (in_order_bound _ _ _ _ Hor Hx) as (_ & _ & ?).
  - cbn. split; [|done]. intros y Hy. right. cbn. by destruct (Hal y Hy) as (_ & _ & _ & ?).
  - unfold units in *. cbn. lia.
Qed.

Lemma morecore_ok s L A nunits fuel :
  heap s L A -> 0 < nunits -> nunits * HDR < 2 ^ 31 -> (2 * S (length L) <= fuel)%nat ->
  exists r s', morecore grow_ok fuel nunits s = Ok r s' /\
    (r = 0 /\ s' = s \/
     exists L', r = freep s' /\ r <> 0 /\ heap s' L' A /\ (length L' <= S (length L))%nat /\ exists x, x ∈ L' /\ nunits <= x.2).
Proof.
  intros HH Hn Hlim Hf. unfold morecore. set (nu := if nunits <? 4096 then 4096 else nunits).
  assert (nunits <= nu /\ 0 < nu /\ nu * HDR < 2 ^ 31) as (H1 & H2 & H3) by (unfold nu, HDR in *; case_if; lia).
  rewrite i32_small by (unfold HDR in *; lia). unfold sbrk, bind at 1. destruct (Z.ltb_spec 0 (nu * HDR)); [|unfold HDR in *; lia].
  destruct (grow_ok (h_brk s) (nu * HDR)) eqn:Eg; [|exists 0, s; split; [done|by left]]. apply grow_bound in Eg.
  unfold set_size. run1. cbn [h_hdr freep h_brk]. rewrite (u32_small nu) by (unfold HDR in *; lia). rewrite (Z.mul_comm nu) in *.
  set (s1 := mkUst _ _ _). assert (heap s1 L ((h_brk s, nu) :: A)) as HH1.
  { apply heap_grow; try done; [by rewrite fn_lookup_insert|]. intros a Ha. by rewrite fn_lookup_insert_ne. }
  destruct (free_ok s1 L A (h_brk s, nu) fuel HH1 Hf) as (s2 & L' & E2 & HH2 & _ & Hl & x & Hx & Hx2). cbn [fst] in E2. run E2.
  do 2 eexists. split; [reflexivity|]. right. exists L'. split; [done|]. split; [|split; [done|split; [done|]]].
  - pose proof (hp_freep _ _ _ HH2) as Hfp. apply list_elem_of_fmap in Hfp as (y & -> & Hy). destruct (heap_nodes s2 L' A y HH2 Hy). lia.
  - exists x. cbn in Hx2. split; [done|lia].
Qed.

(** ** The search in [malloc] *)

Definition lastaddr (prev : Z) ns : Z := match last ns with Some y => y.1 | None => prev end.

Lemma lastaddr_cons prev x ns : lastaddr prev (x :: ns) = lastaddr x.1 ns.
Proof.
  unfold lastaddr. destruct ns as [|y ns]; [done|]. change (last (x :: y :: ns)) with (last (y :: ns)).
  destruct (last (y :: ns)) eqn:E; [done|]. by apply last_None in E.
Qed.

Lemma lastaddr_snoc prev ns y : lastaddr prev (ns ++ [y]) = y.1.
Proof. unfold lastaddr. by rewrite last_snoc. Qed.

Lemma scan_walk nunits ns : forall prev s fuel lst,
  links (h_hdr s) ns lst -> (length ns <= fuel)%nat -> (forall z, z ∈ ns -> z.2 < nunits /\ z.1 <> freep s) ->
  malloc_loop grow_ok fuel nunits prev (first_of ns lst) s =
  malloc_loop grow_ok (fuel - length ns) nunits (lastaddr prev ns) lst s.
Proof.
  induction ns as [|x ns IH]; intros prev s fuel lst Hl Hf Hz; [cbn [first_of length]; by rewrite Nat.sub_0_r|].
  destruct Hl as [Hx Hl]. destruct fuel as [|fuel]; [cbn in Hf; lia|]. destruct (Hz x ltac:(by left)) as [Hx2 Hx1].
  cbn [first_of malloc_loop length]. unfold hsize. run1. rewrite Hx. cbn [h_size].
  destruct (Z.leb_spec nunits x.2); [lia|]. run1. destruct (Z.eqb_spec x.1 (freep s)); [done|].
  unfold ptr. run1. rewrite Hx. cbn [h_ptr]. rewrite lastaddr_cons, IH; [done|done|cbn in Hf; lia|]. intros z Hin. apply Hz. by right.
Qed.

Lemma first_large (l : list blk_t) n :
  (exists x, x ∈ l /\ n <= x.2) -> exists V1 x V2, l = V1 ++ x :: V2 /\ n <= x.2 /\ forall z, z ∈ V1 -> z.2 < n.
Proof.
  induction l as [|y l IH]; intros (x & Hx & Hn); [by apply not_elem_of_nil in Hx|].
  destruct (decide (n <= y.2)) as [Hy|Hy]; [exists [], y, l; split_and!; [done|done|]; intros z Hz; by apply not_elem_of_nil in Hz|].
  apply elem_of_cons in Hx as [->|Hx]; [done|]. destruct IH as (V1 & x' & V2 & -> & Hx' & HV); [eauto|].
  exists (y :: V1), x', V2. split_and!; [done|done|]. intros z [->|Hz]%elem_of_cons; [lia|auto].
Qed.

(** ** Taking a block *)

Lemma in_order_lower ns l l' hi : in_order l ns hi -> l' <= l -> in_order l' ns hi.
Proof. destruct ns as [|b ns]; cbn; [lia|]. intros (? & ? & ?) ?. split_and!; (done || lia). Qed.

Lemma nodes_cut L N1 y x N2 hi :
  in_order base L hi -> nodes L = N1 ++ y :: x :: N2 ->
  exists M1, L = M1 ++ x :: N2 /\ (forall ns, N1 ++ y :: ns = nodes (M1 ++ ns)) /\
    0 < x.2 /\ base < x.1 /\ bend x <= hi /\ (forall z, z ∈ M1 ++ N2 -> apart z x) /\
    (forall z, z ∈ N1 ++ y :: N2 -> z.1 < x.1 \/ bend x < z.1).
Proof.
  intros HL E. assert (exists M1, N1 ++ [y] = nodes M1 /\ L = M1 ++ x :: N2) as (M1 & EN & EL).
  { destruct N1 as [|c N1]; injection E as <- E; [by exists []|]. exists (N1 ++ [y]). split; [done|]. by rewrite <- app_assoc. }
  exists M1. split; [done|]. assert (forall ns, N1 ++ y :: ns = nodes (M1 ++ ns)) as Hall.
  { intros ns. change (y :: ns) with ([y] ++ ns). by rewrite app_assoc, EN. }
  split; [done|]. pose proof (in_order_bound L base hi x HL ltac:(rewrite EL; apply elem_of_app; right; by left)) as (? & ? & ?).
  split_and!; try done.
  - intros z Hz. rewrite EL in HL. apply in_order_mid in HL as (O1 & O2 & O3). apply elem_of_app in Hz as [Hz|Hz].
    + left. destruct (in_order_bound _ _ _ _ O1 Hz) as (_ & _ & ?). lia.
    + right. destruct (in_order_bound _ _ _ _ O3 Hz) as (? & _ & _). lia.
  - intros z Hz. rewrite Hall in Hz. apply elem_of_cons in Hz as [->|Hz]; [left; cbn; lia|].
    rewrite EL in HL. apply in_order_mid in HL as (O1 & O2 & O3). apply elem_of_app in Hz as [Hz|Hz].
    + left. destruct (in_order_bound _ _ _ _ O1 Hz) as (? & ? & ?). unfold bend, HDR in *. lia.
    + right. by destruct (in_order_bound _ _ _ _ O3 Hz) as (? & _ & _).
Qed.

(** The whole block. *)
Lemma heap_unlink s L A N1 y x N2 h' :
  heap s L A -> nodes L = N1 ++ y :: x :: N2 ->
  h' y.1 = mkHdr (first_of N2 base) y.2 -> (forall a, a <> y.1 -> h' a = h_hdr s a) ->
  exists L', heap (mkUst h' y.1 (h_brk s)) L' (x :: A) /\ (length L' <= length L)%nat.
Proof.
  intros HH E Hy Ho. pose proof HH as [Hl Hor Hfp Hbr Hal Hap Hd Ht].
  destruct (nodes_cut L N1 y x N2 _ Hor E) as (M1 & EL & Hall & Hx2 & Hx1 & Hxe & Hxa & Hxn).
  assert (h_hdr s x.1 = mkHdr (first_of N2 base) x.2 /\ y.1 <> x.1) as [Hx Hyx].
  { rewrite E in Hl. apply links_app in Hl as [_ (_ & ? & _)]. split; [done|].
    destruct (nodes_lt L _ N1 y [] x N2 Hor E). lia. }
  assert (x ∈ L) as HxL by (rewrite EL; apply elem_of_app; right; by left).
  exists (M1 ++ N2). split; [|rewrite EL, !length_app; cbn; lia]. split; cbn [h_hdr freep h_brk]; try done.
  - rewrite <- Hall. rewrite E in Hl. apply links_app in Hl as [Hl1 (_ & _ & Hl2)]. apply links_app. split.
    + eapply links_ext; [|exact Hl1]. intros z Hz. apply Ho. apply list_elem_of_split in Hz as (Z1 & Z2 & ->).
      destruct (nodes_lt L _ Z1 z Z2 y (x :: N2) Hor); [by rewrite E, <- app_assoc|]. lia.
    + split; [done|]. eapply links_ext; [|exact Hl2]. intros z Hz. apply Ho. apply list_elem_of_split in Hz as (Z1 & Z2 & ->).
      destruct (nodes_lt L _ N1 y (x :: Z1) z Z2 Hor); [by rewrite E|]. lia.
  - rewrite EL in Hor. apply in_order_mid in Hor as (H1 & H2 & H3).
    destruct N2 as [|q N2]; [rewrite app_nil_r; eapply in_order_weaken; [exact H1|unfold bend, HDR in *; lia]|].
    apply in_order_mid. destruct H3 as (? & ? & ?). split_and!; try done. eapply in_order_weaken; [exact H1|]. unfold bend, HDR in *. lia.
  - rewrite <- Hall, fmap_app. apply elem_of_app. right. by left.
  - intros z [->|Hz]%elem_of_cons; [rewrite Ho, Hx by done; done|]. destruct (Hal z Hz) as (? & ? & ? & ?).
    rewrite Ho; [done|]. assert (y ∈ nodes L) as Hin by (rewrite E; apply elem_of_app; right; by left).
    apply elem_of_cons in Hin as [->|Hin]; [cbn; lia|]. destruct (in_order_bound _ _ _ _ Hor Hin) as (_ & ? & _).
    destruct (Hap y z Hin Hz); unfold bend, HDR in *; lia.
  - intros z w Hz [->|Hw]%elem_of_cons; [by apply Hxa|]. apply Hap; [|done]. rewrite EL.
    apply elem_of_app in Hz as [?|?]; apply elem_of_app; [by left|right; by right].
  - split; [|done]. intros w Hw. by apply Hap.
  - rewrite EL in Ht. rewrite units_app in *. unfold units in *. cbn in *. lia.
Qed.

(** The end of a larger block. *)
Lemma heap_split s L A N1 y x N2 h' n :
  heap s L A -> nodes L = N1 ++ y :: x :: N2 -> 0 < n < x.2 ->
  h' x.1 = mkHdr (first_of N2 base) (x.2 - n) -> h_size (h' (x.1 + HDR * (x.2 - n))) = n ->
  (forall a, a <> x.1 -> a <> x.1 + HDR * (x.2 - n) -> h' a = h_hdr s a) ->
  exists L', heap (mkUst h' y.1 (h_brk s)) L' ((x.1 + HDR * (x.2 - n), n) :: A) /\ (length L' <= length L)%nat.
Proof.
  intros HH E Hn Hx Hnew Ho. pose proof HH as [Hl Hor Hfp Hbr Hal Hap Hd Ht].
  destruct (nodes_cut L N1 y x N2 _ Hor E) as (M1 & EL & Hall & Hx2 & Hx1 & Hxe & Hxa & Hxn).
  assert (x ∈ L) as HxL by (rewrite EL; apply elem_of_app; right; by left).
  set (x' := (x.1, x.2 - n)). set (b := (x.1 + HDR * (x.2 - n), n)).
  assert (bend b = bend x /\ bend x' = b.1 /\ x.1 < b.1 < bend x) as (Hb1 & Hb2 & Hb3) by (unfold b, x', bend, HDR in *; cbn; lia).
  assert (forall z, z ∈ N1 ++ y :: N2 -> h' z.1 = h_hdr s z.1) as Hsame.
  { intros z Hz. destruct (Hxn z Hz); apply Ho; unfold b in *; cbn in *; lia. }
  exists (M1 ++ x' :: N2). split; [|rewrite EL, !length_app; cbn; lia]. split; cbn [h_hdr freep h_brk]; try done.
  - rewrite <- Hall. rewrite E in Hl. apply links_app in Hl as [Hl1 (Hly & _ & Hl2)]. apply links_app. split; [|split; [|split]].
    + eapply links_ext; [|exact Hl1]. intros z Hz. apply Hsame, elem_of_app. by left.
    + rewrite Hsame; [done|apply elem_of_app; right; by left].
    + done.
    + eapply links_ext; [|exact Hl2]. intros z Hz. apply Hsame, elem_of_app. right. by right.
  - rewrite EL in Hor. apply in_order_mid in Hor as (H1 & H2 & H3). apply in_order_mid. split_and!; [done|cbn; lia|].
    eapply in_order_lower; [exact H3|]. lia.
  - rewrite <- Hall, fmap_app. apply elem_of_app. right. by left.
  - intros z [->|Hz]%elem_of_cons; [split_and!; [done|cbn; lia|lia|lia]|]. destruct (Hal z Hz) as (? & ? & ? & ?).
    rewrite Ho; [done| |]; destruct (Hap x z HxL Hz); unfold b, bend, HDR in *; cbn in *; lia.
  - intros z w Hz Hw. assert (z = x' \/ z ∈ M1 ++ N2) as [->|Hz'].
    { apply elem_of_app in Hz as [?|[->|?]%elem_of_cons]; [right; apply elem_of_app; by left|by left|right; apply elem_of_app; by right]. }
    + apply elem_of_cons in Hw as [->|Hw]; [left; lia|]. destruct (Hap x w HxL Hw) as [?|?]; [left; lia|right; done].
    + apply elem_of_cons in Hw as [->|Hw]; [destruct (Hxa z Hz'); [left|right]; lia|]. apply Hap; [|done]. rewrite EL.
      apply elem_of_app in Hz' as [?|?]; apply elem_of_app; [by left|right; by right].
  - split; [|done]. intros w Hw. destruct (Hap x w HxL Hw); [left|right]; lia.
  - rewrite EL in Ht. rewrite units_app in *. unfold units in *. cbn in *. lia.
Qed.

(** What [malloc] returns when it succeeds: a new block of [nunits] units. *)
Definition gave (A : list blk_t) (nunits r : Z) (s' : ust) : Prop :=
  exists a L', r = a + HDR /\ heap s' L' ((a, nunits) :: A).

Lemma take_ok s L A N1 y x N2 nunits fuel :
  heap s L A -> nodes L = N1 ++ y :: x :: N2 -> 0 < nunits <= x.2 ->
  exists r s', malloc_loop grow_ok (S fuel) nunits y.1 x.1 s = Ok r s' /\ gave A nunits r s'.
Proof.
  intros HH E Hn. pose proof (hp_order _ _ _ HH) as Hor. pose proof (hp_brk _ _ _ HH) as Hbr.
  destruct (nodes_cut L N1 y x N2 _ Hor E) as (M1 & EL & _ & Hx2 & Hx1 & Hxe & _ & _).
  assert (h_hdr s y.1 = mkHdr x.1 y.2 /\ h_hdr s x.1 = mkHdr (first_of N2 base) x.2 /\ y.1 <> x.1) as (Hy & Hx & Hyx).
  { pose proof (hp_links _ _ _ HH) as Hl. rewrite E in Hl. apply links_app in Hl as [_ (? & ? & _)]. split_and!; [done|done|].
    destruct (nodes_lt L _ N1 y [] x N2 Hor E). lia. }
  cbn [malloc_loop]. unfold hsize. run1. rewrite Hx. cbn [h_size]. destruct (Z.leb_spec nunits x.2); [|lia].
  destruct (Z.eqb_spec x.2 nunits) as [En|En].
  - do 2 eexists. split; [reflexivity|]. cbn. rewrite Hx, Hy. cbn.
    destruct (heap_unlink s L A N1 y x N2 (<[y.1 := mkHdr (first_of N2 base) y.2]> (h_hdr s)) HH E) as (L' & HH' & HL').
    { by rewrite fn_lookup_insert. }
    { intros a Ha. by rewrite fn_lookup_insert_ne. }
    exists x.1, L'. split; [done|]. rewrite <- En. by destruct x.
  - do 2 eexists. split; [reflexivity|]. cbn. rewrite Hx. cbn. rewrite !fn_lookup_insert. cbn.
    rewrite (u32_small (x.2 - nunits)), (u32_small nunits) by (unfold bend, HDR in *; lia).
    match goal with |- gave _ _ _ (mkUst ?h _ _) =>
      destruct (heap_split s L A N1 y x N2 h nunits HH E) as (L' & HH' & HL'); [lia| | | |] end.
    4:{ by exists (x.1 + HDR * (x.2 - nunits)), L'. }
    + rewrite fn_lookup_insert_ne by (unfold HDR; lia). by rewrite fn_lookup_insert.
    + by rewrite fn_lookup_insert.
    + intros a Ha1 Ha2. by rewrite !fn_lookup_insert_ne.
Qed.

Lemma snoc_split (prev : blk_t) ns : exists M y, prev :: ns = M ++ [y] /\ y.1 = lastaddr prev.1 ns.
Proof.
  destruct (exists_last (l := prev :: ns)) as (M & y & E); [done|]. exists M, y. split; [done|].
  destruct ns as [|x ns' _] using rev_ind; [destruct M; [by injection E as ->|injection E as _ E; by destruct M]|].
  rewrite lastaddr_snoc. rewrite app_comm_cons in E. apply app_inj_tail in E as [_ ->]. done.
Qed.

(** A block that is large enough is found, from wherever the search begins. *)
Lemma scan_find s L A nunits fuel :
  heap s L A -> 0 < nunits -> (exists x, x ∈ nodes L /\ nunits <= x.2) -> (S (length (nodes L)) <= fuel)%nat ->
  exists r s', malloc_loop grow_ok fuel nunits (freep s) (h_ptr (h_hdr s (freep s))) s = Ok r s' /\ gave A nunits r s'.
Proof.
  intros HH Hn Hex Hf. pose proof (hp_order _ _ _ HH) as Hor. pose proof (hp_links _ _ _ HH) as Hl.
  pose proof (hp_freep _ _ _ HH) as Hfp. apply list_elem_of_fmap in Hfp as (f & Ef & Hfin).
  apply list_elem_of_split in Hfin as (R1 & R2 & ER). rewrite ER in Hl, Hf. pose proof Hl as Hl0. apply links_app in Hl as [Hl1 [Hlf Hl2]].
  rewrite Ef, Hlf. cbn [h_ptr]. rewrite length_app in Hf. cbn [length] in Hf.
  assert (forall z, z ∈ R1 ++ R2 -> z.1 <> freep s) as Hnf.
  { rewrite Ef. intros z [Hz|Hz]%elem_of_app; apply list_elem_of_split in Hz as (Z1 & Z2 & ->).
    - destruct (nodes_lt L _ Z1 z Z2 f R2 Hor); [by rewrite ER, <- app_assoc|]. lia.
    - destruct (nodes_lt L _ R1 f Z1 z Z2 Hor); [by rewrite ER|]. lia. }
  destruct (decide (Exists (fun z => nunits <= z.2) R2)) as [HE|HE].
  - apply Exists_exists in HE. destruct (first_large R2 nunits HE) as (V1 & x & V2 & EV & Hx & HV).
    rewrite EV, first_of_app. cbn [first_of].
    rewrite scan_walk; [|rewrite EV in Hl2; by apply links_app in Hl2 as [? _]|rewrite EV, length_app in Hf; lia|].
    2:{ intros z Hz. split; [by apply HV|]. apply Hnf. rewrite EV. apply elem_of_app. right. apply elem_of_app. by left. }
    destruct (snoc_split f V1) as (M & y & EM & Ey). rewrite <- Ey.
    destruct (fuel - length V1)%nat as [|fuel'] eqn:Efu; [rewrite EV, length_app in Hf; cbn in Hf; lia|].
    apply (take_ok s L A (R1 ++ M) y x V2); [done| |lia].
    rewrite ER, EV, app_comm_cons, EM, <- !app_assoc. done.
  - assert (forall z, z ∈ R2 -> z.2 < nunits) as Hsmall.
    { intros z Hz. destruct (decide (nunits <= z.2)); [|lia]. destruct HE. apply Exists_exists. eauto. }
    rewrite scan_walk; [|done|lia|].
    2:{ intros z Hz. split; [by apply Hsmall|]. apply Hnf, elem_of_app. by right. }
    destruct (first_large (R1 ++ [f]) nunits) as (V1 & x & V2 & EV & Hx & HV).
    { destruct Hex as (x & Hx & Hx2). exists x. split; [|done]. rewrite ER in Hx. apply elem_of_app in Hx as [Hx|[->|Hx]%elem_of_cons].
      - apply elem_of_app. by left.
      - apply elem_of_app. right. by left.
      - specialize (Hsmall x Hx). lia. }
    assert (nodes L = V1 ++ x :: V2 ++ R2) as EN.
    { rewrite ER. change (f :: R2) with ([f] ++ R2). by rewrite app_assoc, EV, <- app_assoc. }
    destruct V1 as [|v V1].
    { injection EN as <- _. cbn in Hx. lia. }
    assert (base = first_of (v :: V1) x.1) as Eb by (by injection EN as <- _).
    replace (malloc_loop grow_ok (fuel - length R2) nunits (lastaddr f.1 R2) base s)
      with (malloc_loop grow_ok (fuel - length R2) nunits (lastaddr f.1 R2) (first_of (v :: V1) x.1) s) by (by rewrite <- Eb).
    rewrite scan_walk.
    2:{ rewrite <- ER, EN in Hl0. by apply links_app in Hl0 as [? _]. }
    2:{ apply (f_equal length) in EV. rewrite !length_app in EV. cbn in *. lia. }
    2:{ intros z Hz. split; [by apply HV|]. apply Hnf, elem_of_app. left.
        destruct V2 as [|w V2 _] using rev_ind; [apply app_inj_tail in EV as [-> _]; done|].
        rewrite app_comm_cons, app_assoc in EV. apply app_inj_tail in EV as [-> _]. apply elem_of_app. by left. }
    rewrite lastaddr_cons. destruct (snoc_split v V1) as (M & y & EM & Ey). rewrite <- Ey.
    destruct (fuel - length R2 - length (v :: V1))%nat as [|fuel'] eqn:Efu.
    { apply (f_equal length) in EV. rewrite !length_app in EV. cbn in *. lia. }
    apply (take_ok s L A M y x (V2 ++ R2)); [done| |lia]. by rewrite EN, EM, <- app_assoc.
Qed.

(** ** [malloc] *)

(** The allocator before its first call. *)
Definition unused (s : ust) : Prop := freep s = 0 /\ h_brk s = lo /\ lo < 2 ^ 31.

(** No block is large enough: the search comes back to where it began. *)
Lemma scan_none s L A nunits fuel :
  heap s L A -> (forall x, x ∈ nodes L -> x.2 < nunits) -> (S (length (nodes L)) <= fuel)%nat ->
  exists k, (fuel = k + length (nodes L))%nat /\
    malloc_loop grow_ok fuel nunits (freep s) (h_ptr (h_hdr s (freep s))) s =
    (p <- morecore grow_ok k nunits;;
     if p =? 0 then ret 0 else next <- ptr p;; malloc_loop grow_ok k nunits p next) s.
Proof.
  intros HH Hsm Hf. pose proof (hp_order _ _ _ HH) as Hor. pose proof (hp_links _ _ _ HH) as Hl.
  pose proof (hp_freep _ _ _ HH) as Hfp. apply list_elem_of_fmap in Hfp as (f & Ef & Hfin).
  apply list_elem_of_split in Hfin as (R1 & R2 & ER). rewrite ER in Hl. pose proof Hl as Hl0. apply links_app in Hl as [Hl1 [Hlf Hl2]].
  assert (forall z, z ∈ R1 ++ R2 -> z.2 < nunits /\ z.1 <> freep s) as Hz.
  { rewrite Ef. intros z Hz. split; [apply Hsm; rewrite ER; set_solver|].
    apply elem_of_app in Hz as [Hz|Hz]; apply list_elem_of_split in Hz as (Z1 & Z2 & ->).
    - destruct (nodes_lt L _ Z1 z Z2 f R2 Hor); [by rewrite ER, <- app_assoc|]. lia.
    - destruct (nodes_lt L _ R1 f Z1 z Z2 Hor); [by rewrite ER|]. lia. }
  exists (fuel - length (nodes L))%nat. split; [lia|]. rewrite ER in *. rewrite length_app in *. cbn [length] in *.
  rewrite Ef, Hlf. cbn [h_ptr]. rewrite scan_walk; [|done|lia|intros z Hin; apply Hz, elem_of_app; by right].
  assert (base = first_of R1 f.1) as Eb by (destruct R1; by injection ER as <- _).
  replace (malloc_loop grow_ok (fuel - length R2) nunits (lastaddr f.1 R2) base s)
    with (malloc_loop grow_ok (fuel - length R2) nunits (lastaddr f.1 R2) (first_of R1 f.1) s) by (by rewrite <- Eb).
  rewrite scan_walk; [|done|lia|intros z Hin; apply Hz, elem_of_app; by left].
  destruct (fuel - length R2 - length R1)%nat as [|k] eqn:Ek; [lia|].
  replace (fuel - (length R1 + S (length R2)))%nat with k by lia.
  cbn [malloc_loop]. unfold hsize. run1. rewrite Hlf. cbn [h_size].
  destruct (Z.leb_spec nunits f.2); [specialize (Hsm f ltac:(set_solver)); lia|].
  run1. rewrite Ef, Z.eqb_refl. done.
Qed.

Lemma malloc_heap_ok s L A nunits fuel :
  heap s L A -> 0 < nunits -> nunits * HDR < 2 ^ 31 -> (4 * (3 + length L) <= fuel)%nat ->
  exists r s', malloc_loop grow_ok fuel nunits (freep s) (h_ptr (h_hdr s (freep s))) s = Ok r s' /\
    (r = 0 /\ heap s' L A \/ r <> 0 /\ gave A nunits r s').
Proof.
  intros HH Hn Hlim Hf.
  assert (forall r s', gave A nunits r s' -> r <> 0) as Hr.
  { intros r s' (a & L' & -> & HH'). destruct (hp_alloc _ _ _ HH' (a, nunits)) as (_ & _ & ? & _); [by left|]. cbn in *. unfold HDR. lia. }
  destruct (decide (Exists (fun z => nunits <= z.2) (nodes L))) as [HE|HE].
  - apply Exists_exists in HE. destruct (scan_find s L A nunits fuel HH Hn HE) as (r & s' & E & Hg); [cbn; lia|].
    exists r, s'. split; [done|]. right. split; [by eapply Hr|done].
  - destruct (scan_none s L A nunits fuel HH) as (k & Hk & E); [|cbn; lia|].
    { intros x Hx. destruct (decide (nunits <= x.2)); [|lia]. destruct HE. apply Exists_exists. eauto. }
    rewrite E. clear E. cbn [nodes length] in Hk.
    destruct (morecore_ok s L A nunits k HH Hn Hlim) as (r & s1 & E1 & [[-> ->]|(L1 & -> & Hnz & HH1 & HL1 & x & Hx & Hx2)]); [lia| |].
    + run E1. cbn [Z.eqb]. do 2 eexists. split; [done|]. by left.
    + run E1. destruct (Z.eqb_spec (freep s1) 0); [done|]. unfold ptr. run1.
      destruct (scan_find s1 L1 A nunits k HH1 Hn) as (r & s' & E & Hg); [exists x; split; [by right|done]|cbn; lia|].
      exists r, s'. split; [exact E|]. right. split; [by eapply Hr|done].
Qed.

(** The heap, or the allocator before its first call. *)
Definition ready (s : ust) (L A : list blk_t) : Prop := heap s L A \/ unused s /\ L = [] /\ A = [].

Lemma heap_perm s L A B : A ≡ₚ B -> heap s L A -> heap s L B.
Proof. intros Hp [Hl Hor Hfp Hbr Hal Hap Hd Ht]. split; try done; rewrite <- ?Hp; try done; intros; rewrite <- Hp in *; auto. Qed.

Lemma heap_empty h : h base = mkHdr base 0 -> lo < 2 ^ 31 -> heap (mkUst h base lo) [] [].
Proof.
  intros Hh Hlo. split; cbn; try done; try lia.
  - by left.
  - intros b Hb. by apply not_elem_of_nil in Hb.
  - intros x y Hx. by apply not_elem_of_nil in Hx.
Qed.

Lemma malloc_ok s L A nbytes fuel :
  ready s L A -> 0 <= nbytes -> malloc_units nbytes * HDR < 2 ^ 31 -> (4 * (3 + length L) <= fuel)%nat ->
  exists r s', malloc base grow_ok fuel nbytes s = Ok r s' /\
    (r = 0 /\ heap s' L A \/ r <> 0 /\ gave A (malloc_units nbytes) r s').
Proof.
  intros Hr Hn Hlim Hf. assert (0 < malloc_units nbytes) as Hpos by (unfold malloc_units, HDR; dlia).
  unfold malloc. run1. destruct Hr as [HH|((Hf0 & Hb & Hlo) & -> & ->)].
  - assert (freep s <> 0) as Hnz.
    { pose proof (hp_freep _ _ _ HH) as Hfp. apply list_elem_of_fmap in Hfp as (y & -> & Hy). destruct (heap_nodes s L A y HH Hy). lia. }
    destruct (Z.eqb_spec (freep s) 0); [done|]. run1. run1. unfold ptr. run1. by apply malloc_heap_ok.
  - rewrite Hf0. cbn [Z.eqb]. erewrite bind_ok by reflexivity. run1. unfold ptr. run1.
    match goal with |- context [malloc_loop _ _ _ _ _ ?s1] => set (s1' := s1) end.
    assert (heap s1' [] []) as HH.
    { unfold s1'. cbn. rewrite Hb. apply heap_empty; [|done]. rewrite !fn_lookup_insert. done. }
    exact (malloc_heap_ok s1' [] [] (malloc_units nbytes) fuel HH Hpos Hlim Hf).
Qed.
End spec.
