(* ===== verification/UmallocClaims.v ===== *)
(** * The user-level allocator: the claims

    A program that calls [malloc] and [free] and writes to its blocks, in any
    order. *)

From S2P Require Import Prelude Umalloc UmallocSpec.

Section client.
Context (base lo : Z) (grow_ok : Z -> Z -> bool).

(** The steps of a program, with the blocks that it has.  Memory is looked at in
    units of a header; a program changes what is inside its blocks, after their
    headers. *)
Inductive cstep : ust * list (Z * Z) -> ust * list (Z * Z) -> Prop :=
| cs_malloc s A fuel nbytes r s' :
    0 <= nbytes -> malloc_units nbytes * HDR < 2 ^ 31 -> malloc base grow_ok fuel nbytes s = Ok r s' ->
    cstep (s, A) (s', if r =? 0 then A else (r - HDR, malloc_units nbytes) :: A)
| cs_free s A1 b A2 fuel s' :
    free fuel (b.1 + HDR) s = Ok tt s' -> cstep (s, A1 ++ b :: A2) (s', A1 ++ A2)
| cs_write s A h' :
    (forall a, h' a <> h_hdr s a -> exists b, b ∈ A /\ b.1 < a < bend b) ->
    cstep (s, A) (mkUst h' (freep s) (h_brk s), A).

Inductive creach (s0 : ust) : ust * list (Z * Z) -> Prop :=
| cr_start : creach s0 (s0, [])
| cr_step c c' : creach s0 c -> cstep c c' -> creach s0 c'.

Hypothesis base_pos : 0 < base.
Hypothesis base_lo : base < lo.
Hypothesis grow_bound : forall b n, grow_ok b n = true -> b + n < 2 ^ 31.

(** More fuel changes nothing. *)
Lemma find_more fuel k bp p s r s' :
  free_find fuel bp p s = Ok r s' -> free_find (fuel + k) bp p s = Ok r s'.
Proof.
  revert p. induction fuel as [|fuel IH]; intros p; [done|]. cbn [Nat.add]. rewrite !free_find_step.
  destruct (place (h_hdr s) bp p); [done|apply IH].
Qed.

Lemma free_more fuel k ap s u s' : free fuel ap s = Ok u s' -> free (fuel + k) ap s = Ok u s'.
Proof.
  unfold free. intros (f & s1 & E1 & (p & s2 & E2 & E)%bind_ok_inv)%bind_ok_inv. run E1. injection E1 as <- <-.
  by run (find_more _ k _ _ _ _ _ E2).
Qed.

Lemma morecore_more fuel k nu s r s' : morecore grow_ok fuel nu s = Ok r s' -> morecore grow_ok (fuel + k) nu s = Ok r s'.
Proof.
  unfold morecore. intros ([hp|] & s1 & E1 & E)%bind_ok_inv; run E1; [|done].
  apply bind_ok_inv in E as (u & s2 & E2 & (u' & s3 & E3 & E)%bind_ok_inv). run E2. by run (free_more _ k _ _ _ _ E3).
Qed.

Lemma malloc_loop_more fuel k nunits prevp p s r s' :
  malloc_loop grow_ok fuel nunits prevp p s = Ok r s' -> malloc_loop grow_ok (fuel + k) nunits prevp p s = Ok r s'.
Proof.
  revert prevp p s. induction fuel as [|fuel IH]; intros prevp p s; [done|]. cbn [Nat.add malloc_loop].
  intros (n & s1 & E1 & E)%bind_ok_inv. run E1. destruct (nunits <=? n); [done|].
  apply bind_ok_inv in E as (f & s2 & E2 & E). run E2. destruct (p =? f).
  - apply bind_ok_inv in E as (q & s3 & E3 & E). run (morecore_more _ k _ _ _ _ E3). destruct (q =? 0); [done|].
    apply bind_ok_inv in E as (next & s4 & E4 & E). run E4. by apply IH.
  - apply bind_ok_inv in E as (next & s4 & E4 & E). run E4. by apply IH.
Qed.

Lemma malloc_more fuel k nbytes s r s' :
  malloc base grow_ok fuel nbytes s = Ok r s' -> malloc base grow_ok (fuel + k) nbytes s = Ok r s'.
Proof.
  unfold malloc. intros (f & s1 & E1 & (u & s2 & E2 & (prevp & s3 & E3 & (p & s4 & E4 & E)%bind_ok_inv)%bind_ok_inv)%bind_ok_inv)%bind_ok_inv.
  run E1. run E2. run E3. run E4. by apply malloc_loop_more.
Qed.

Lemma ready_write s L A h' :
  ready base lo s L A -> (forall a, h' a <> h_hdr s a -> exists b, b ∈ A /\ b.1 < a < bend b) ->
  ready base lo (mkUst h' (freep s) (h_brk s)) L A.
Proof.
  intros [HH|(Hu & -> & ->)] Hw; [left|right; done].
  assert (forall x : Z * Z, (forall y, y ∈ A -> x.1 <= y.1 \/ bend y <= x.1) -> h' x.1 = h_hdr s x.1) as Hsame.
  { intros x Hx. destruct (decide (h' x.1 = h_hdr s x.1)) as [|Hne]; [done|]. destruct (Hw _ Hne) as (b & Hb & ?). specialize (Hx b Hb). lia. }
  pose proof HH as [Hl Hor Hfp Hbr Hal Hap Hd Ht]. split; cbn [h_hdr freep h_brk]; try done.
  - eapply links_ext; [|exact Hl]. intros x Hx. apply Hsame. intros y Hy. destruct (Hal y Hy) as (_ & ? & ? & _).
    apply elem_of_cons in Hx as [->|Hx]; [cbn; lia|]. destruct (in_order_bound _ _ _ _ Hor Hx) as (_ & ? & _).
    destruct (Hap x y Hx Hy); unfold bend, HDR in *; lia.
  - intros b Hb. rewrite Hsame; [by apply Hal|]. intros y Hy. destruct (Hal b Hb) as (_ & ? & _).
    apply list_elem_of_split in Hb as (B1 & B2 & ->). assert (b :: B1 ++ B2 ≡ₚ B1 ++ b :: B2) as Hp by apply Permutation_middle.
    rewrite <- Hp in Hd, Hy. destruct Hd as [Hd _]. apply elem_of_cons in Hy as [->|Hy]; [lia|].
    destruct (Hd y Hy); unfold bend, HDR in *; lia.
Qed.

Lemma cstep_ready s A s' A' L :
  ready base lo s L A -> cstep (s, A) (s', A') -> exists L', ready base lo s' L' A'.
Proof.
  intros Hr Hs. inversion Hs as [? ? fuel n r ? Hn Hlim E|? A1 b A2 fuel ? E|? ? h' Hw]; subst.
  - destruct (malloc_ok base lo grow_ok base_pos base_lo grow_bound s L A n (fuel + 4 * (3 + length L)) Hr Hn Hlim) as (r' & s1 & E' & Hres); [lia|].
    rewrite (malloc_more _ _ _ _ _ _ E) in E'. injection E' as <- <-.
    destruct Hres as [(-> & HH)|(Hnz & a & L' & -> & HH)]; [exists L; by left|]. destruct (Z.eqb_spec (a + HDR) 0); [done|].
    exists L'. left. by replace (a + HDR - HDR) with a by lia.
  - destruct Hr as [HH|(_ & _ & HA)]; [|by destruct A1]. 
    apply (heap_perm _ _ _ _ _ _ (symmetry (Permutation_middle A1 A2 b))) in HH.
    destruct (free_ok base lo grow_ok base_pos base_lo grow_bound s L (A1 ++ A2) b (fuel + 2 * S (length L)) HH) as (s1 & L' & E' & HH1 & _); [lia|].
    rewrite (free_more _ _ _ _ _ _ E) in E'. injection E' as <-. exists L'. by left.
  - exists L. by apply ready_write.
Qed.

Lemma creach_ready s0 c : unused lo s0 -> creach s0 c -> exists L, ready base lo c.1 L c.2.
Proof.
  intros Hu. induction 1 as [|[s A] [s' A'] _ [L Hr] Hs]; [exists []; by right|]. by eapply cstep_ready.
Qed.
End client.

(** C20: the allocator.  Whatever a program does with [malloc], [free] and its own
    blocks, and however much memory the kernel gives, (1) the blocks it has are
    disjoint, lie in its memory, and account with the free ones for all the memory
    obtained; (2) [malloc] of less than 2 GB ends: with null, or with a new block of at
    least the size asked for; (3) [free] of any block it has ends. *)
Theorem umalloc_safe base lo grow_ok s0 s A :
  0 < base -> base < lo -> (forall b n, grow_ok b n = true -> b + n < 2 ^ 31) ->
  unused lo s0 -> creach base grow_ok s0 (s, A) ->
  (all_apart A /\ (forall b, b ∈ A -> base < b.1 /\ bend b <= h_brk s) /\
   exists L, ready base lo s L A /\ HDR * (units L + units A) = h_brk s - lo) /\
  (forall nbytes, 0 <= nbytes -> malloc_units nbytes * HDR < 2 ^ 31 ->
     exists fuel r s', malloc base grow_ok fuel nbytes s = Ok r s' /\
       (r = 0 \/ h_size (h_hdr s' (r - HDR)) = malloc_units nbytes /\ nbytes <= HDR * (malloc_units nbytes - 1) /\
                 forall b, b ∈ A -> apart (r - HDR, malloc_units nbytes) b)) /\
  (forall b, b ∈ A -> exists fuel s', free fuel (b.1 + HDR) s = Ok tt s').
Proof.
  intros Hb Hlo Hg Hu Hc. destruct (creach_ready base lo grow_ok Hb Hlo Hg s0 _ Hu Hc) as [L Hr]. cbn in Hr. split_and!.
  - destruct Hr as [HH|(Hu' & -> & ->)]; [apply HH|done].
  - intros b Hin. destruct Hr as [HH|(_ & _ & ->)]; [|by apply not_elem_of_nil in Hin].
    by destruct (hp_alloc _ _ _ _ _ HH b Hin) as (_ & _ & ? & ?).
  - exists L. split; [done|]. destruct Hr as [HH|((_ & -> & _) & -> & ->)]; [apply HH|cbn; lia].
  - intros n Hn Hlim. destruct (malloc_ok base lo grow_ok Hb Hlo Hg s L A n (4 * (3 + length L)) Hr Hn Hlim) as (r & s' & E & Hres); [lia|].
    do 3 eexists. split; [exact E|]. destruct Hres as [(-> & _)|(_ & a & L' & -> & HH)]; [by left|]. right.
    replace (a + HDR - HDR) with a by lia. destruct (hp_alloc _ _ _ _ _ HH (a, malloc_units n)) as (? & _); [by left|].
    split_and!; [done|unfold malloc_units, HDR; dlia|]. by destruct (hp_disj _ _ _ _ _ HH).
  - intros b Hin. destruct Hr as [HH|(_ & _ & ->)]; [|by apply not_elem_of_nil in Hin].
    apply list_elem_of_split in Hin as (A1 & A2 & ->).
    apply (heap_perm _ _ _ _ _ _ (symmetry (Permutation_middle A1 A2 b))) in HH.
    destruct (free_ok base lo grow_ok Hb Hlo Hg s L (A1 ++ A2) b (2 * S (length L)) HH) as (s' & L' & E & _); [lia|]. eauto.
Qed.

(** A program at 4096 with 128 MB of memory. *)
Definition fresh : ust := mkUst (fun _ => mkHdr 0 0) 0 4096.
Definition small_machine (b n : Z) : bool := b + n <? 2 ^ 27.
Definition first_malloc : Z * ust :=
  match malloc 16 small_machine 100 100 fresh with Ok r s => (r, s) | _ => (0, fresh) end.

Lemma umalloc_safe_witness :
  exists fuel s', free fuel ((69520 - HDR) + HDR) (snd first_malloc) = Ok tt s'.
Proof.
  refine (proj2 (proj2 (umalloc_safe 16 4096 small_machine fresh (snd first_malloc) [(69520 - HDR, malloc_units 100)] _ _ _ _ _))
    (69520 - HDR, malloc_units 100) _).
  - lia.
  - lia.
  - unfold small_machine. intros b n H. bprop. lia.
  - done.
  - eapply cr_step; [apply cr_start|].
    change [(69520 - HDR, malloc_units 100)] with (if 69520 =? 0 then [] else [(69520 - HDR, malloc_units 100)]).
    apply (cs_malloc 16 small_machine fresh [] 100 100 69520); [lia|done|]. unfold first_malloc.
    assert (exists s, malloc 16 small_machine 100 100 fresh = Ok 69520 s) as [s E] by (eexists; vm_compute; reflexivity).
    by rewrite E.
  - by left.
Defined.

(** A request whose size in bytes does not fit an [int] makes [sbrk] get a
    negative number: it returns a pointer although there is no memory there. *)
Lemma malloc_wraps :
  exists s', malloc 16 small_machine 100 (2 ^ 31 - 16) fresh = Ok (4096 + HDR) s' /\ h_brk s' = 4096.
Proof. eexists. split; [vm_compute; reflexivity|reflexivity]. Qed.

(** The usable size includes the header, which is not the caller's. *)
Lemma usable_size_counts_header :
  exists r s', malloc 16 small_machine 100 16 fresh = Ok r s' /\ malloc_usable_size r s' = Ok 32 s' /\
    r - HDR + HDR * h_size (h_hdr s' (r - HDR)) = r + 16.
Proof. do 2 eexists. split; [vm_compute; reflexivity|]. split; vm_compute; reflexivity. Qed.
