(* ===== verification/Spinlock.v ===== *)
(** * Spin locks (kernel/spinlock.c)

    [push_off], [pop_off], [holding], [acquire] and [release], and a machine of
    several CPUs on which every access to shared memory is a step of its own.  A
    CPU takes and gives back any number of locks, in any order. *)

From S2P Require Import Prelude.

(** [struct spinlock] and the part of [struct cpu] that the locks use; [c_intr] is
    the interrupt-enable bit of the CPU.  A null [cpu] pointer is [None]. *)
Record spinlock := mkLock { lk_locked : bool; lk_cpu : option nat }.
Record cpu := mkCpu { c_noff : Z; c_intena : bool; c_intr : bool }.

Definition initlock : spinlock := mkLock false None.

(** Whether CPU [me] holds the lock. *)
Definition holding (lk : spinlock) (me : nat) : bool := lk_locked lk && bool_decide (lk_cpu lk = Some me).

Definition push_off (c : cpu) : cpu :=
  let old := c_intr c in
  let c := mkCpu (c_noff c) (c_intena c) false in
  let c := if c_noff c =? 0 then mkCpu (c_noff c) old (c_intr c) else c in
  mkCpu (c_noff c + 1) (c_intena c) (c_intr c).

(** The message is that of the panic. *)
Definition pop_off (c : cpu) : String.string + cpu :=
  if c_intr c then inl "pop_off - interruptible"
  else if c_noff c <? 1 then inl "pop_off"
  else
    let c := mkCpu (c_noff c - 1) (c_intena c) (c_intr c) in
    inr (if (c_noff c =? 0) && c_intena c then mkCpu (c_noff c) (c_intena c) true else c).

(** The atomic swap of [acquire]: the old value, and the lock after it. *)
Definition test_and_set (lk : spinlock) : bool * spinlock := (lk_locked lk, mkLock true (lk_cpu lk)).

(** Where a CPU is: outside of the lock routines; in [acquire] after [push_off],
    in its loop, and with the lock but not yet recorded; in [release] after its
    test, after clearing [cpu], and after giving the lock up; or stopped. *)
Inductive lpc :=
| Run
| AcqCheck (l : nat) | AcqSpin (l : nat) | AcqSet (l : nat)
| RelClear (l : nat) | RelUnlock (l : nat) | RelPop (l : nat)
| Panicked (msg : String.string).

(** A CPU with the locks its code has taken and not given back, and the state in
    which that code last left interrupts. *)
Record core := mkCore { co_cpu : cpu; co_pc : lpc; co_held : list nat; co_outer : bool }.
Record mach := mkMach { m_locks : nat -> spinlock; m_cores : list core }.

(** One step of CPU [i]; [co_held] follows [acquire]'s return and [release]'s call. *)
Inductive lstep (i : nat) : (nat -> spinlock) * core -> (nat -> spinlock) * core -> Prop :=
| l_intr lk c held o b : c_noff c = 0 ->
    lstep i (lk, mkCore c Run held o) (lk, mkCore (mkCpu (c_noff c) (c_intena c) b) Run held b)
| l_acquire lk c held o l : ~ l ∈ held ->
    lstep i (lk, mkCore c Run held o) (lk, mkCore (push_off c) (AcqCheck l) held o)
| l_check lk c held o l :
    lstep i (lk, mkCore c (AcqCheck l) held o)
            (lk, mkCore c (if holding (lk l) i then Panicked "acquire" else AcqSpin l) held o)
| l_spin lk c held o l :
    lstep i (lk, mkCore c (AcqSpin l) held o)
            (<[l := snd (test_and_set (lk l))]> lk, mkCore c (if fst (test_and_set (lk l)) then AcqSpin l else AcqSet l) held o)
| l_set lk c held o l :
    lstep i (lk, mkCore c (AcqSet l) held o)
            (<[l := mkLock (lk_locked (lk l)) (Some i)]> lk, mkCore c Run (l :: held) o)
| l_release lk c held1 held2 o l :
    lstep i (lk, mkCore c Run (held1 ++ l :: held2) o)
            (lk, mkCore c (if holding (lk l) i then RelClear l else Panicked "release") (held1 ++ held2) o)
| l_clear lk c held o l :
    lstep i (lk, mkCore c (RelClear l) held o)
            (<[l := mkLock (lk_locked (lk l)) None]> lk, mkCore c (RelUnlock l) held o)
| l_unlock lk c held o l :
    lstep i (lk, mkCore c (RelUnlock l) held o)
            (<[l := mkLock false (lk_cpu (lk l))]> lk, mkCore c (RelPop l) held o)
| l_pop lk c held o l :
    lstep i (lk, mkCore c (RelPop l) held o)
            (lk, match pop_off c with inl e => mkCore c (Panicked e) held o | inr c => mkCore c Run held o end).

Inductive mstep : mach -> mach -> Prop :=
| m_step i lk cs co lk' co' :
    cs !! i = Some co -> lstep i (lk, co) (lk', co') -> mstep (mkMach lk cs) (mkMach lk' (<[i := co']> cs)).

(** All locks are free, and no CPU is in a lock routine. *)
Definition mstart (m : mach) : Prop :=
  (forall l, m_locks m l = initlock) /\
  forall co, co ∈ m_cores m -> co_pc co = Run /\ co_held co = [] /\ c_noff (co_cpu co) = 0 /\ c_intr (co_cpu co) = co_outer co.

Inductive mreach (m0 : mach) : mach -> Prop :=
| mr_start : mreach m0 m0
| mr_step m m' : mreach m0 m -> mstep m m' -> mreach m0 m'.

(** ** The invariant *)

(** The locks a CPU has in memory, and those with its name in them. *)
Definition owned (co : core) : list nat :=
  match co_pc co with AcqSet l | RelClear l | RelUnlock l => l :: co_held co | _ => co_held co end.
Definition named (co : core) : list nat :=
  match co_pc co with RelClear l => l :: co_held co | _ => co_held co end.

Definition depth (co : core) : Z :=
  Z.of_nat (length (co_held co)) + match co_pc co with Run => 0 | _ => 1 end.

Record core_ok (co : core) : Prop := {
  ck_pc : forall e, co_pc co <> Panicked e;
  ck_nodup : NoDup (owned co);
  ck_acq : forall l, co_pc co = AcqCheck l \/ co_pc co = AcqSpin l -> l ∉ co_held co;
  ck_noff : c_noff (co_cpu co) = depth co;
  ck_intr : 0 < depth co -> c_intr (co_cpu co) = false /\ c_intena (co_cpu co) = co_outer co;
  ck_outer : depth co = 0 -> c_intr (co_cpu co) = co_outer co
}.

(** The lock says who has it. *)
Record lock_ok (m : mach) (l : nat) : Prop := {
  lo_locked : lk_locked (m_locks m l) = true <-> exists i co, m_cores m !! i = Some co /\ l ∈ owned co;
  lo_cpu : forall i, lk_cpu (m_locks m l) = Some i <-> exists co, m_cores m !! i = Some co /\ l ∈ named co;
  lo_one : forall i j ci cj, m_cores m !! i = Some ci -> m_cores m !! j = Some cj -> l ∈ owned ci -> l ∈ owned cj -> i = j
}.

Record linv (m : mach) : Prop := {
  li_cores : Forall core_ok (m_cores m);
  li_locks : forall l, lock_ok m l
}.

Lemma push_off_eq c :
  push_off c = mkCpu (c_noff c + 1) (if c_noff c =? 0 then c_intr c else c_intena c) false.
Proof. unfold push_off. cbn. by destruct (c_noff c =? 0). Qed.

Lemma pop_off_eq c : c_intr c = false -> 1 <= c_noff c ->
  pop_off c = inr (mkCpu (c_noff c - 1) (c_intena c) ((c_noff c =? 1) && c_intena c)).
Proof.
  intros Hi Hn. unfold pop_off. rewrite Hi. destruct (Z.ltb_spec (c_noff c) 1); [lia|]. cbn.
  destruct (Z.eqb_spec (c_noff c - 1) 0), (Z.eqb_spec (c_noff c) 1); try lia; cbn; by destruct (c_intena c).
Qed.

Lemma named_owned co l : l ∈ named co -> l ∈ owned co.
Proof. unfold named, owned. destruct (co_pc co); auto; intros H; by right. Qed.

(** A step of CPU [i] that does not concern lock [l]. *)
Lemma lock_keep lk cs i co lk' co' l :
  cs !! i = Some co -> lock_ok (mkMach lk cs) l -> lk' l = lk l ->
  (l ∈ owned co' <-> l ∈ owned co) -> (l ∈ named co' <-> l ∈ named co) -> lock_ok (mkMach lk' (<[i := co']> cs)) l.
Proof.
  intros Hi [H1 H2 H3] Hl Ho Hn. pose proof (lookup_lt_Some _ _ _ Hi) as Hlt.
  assert (forall j cj', <[i := co']> cs !! j = Some cj' ->
    exists cj, cs !! j = Some cj /\ (l ∈ owned cj' <-> l ∈ owned cj) /\ (l ∈ named cj' <-> l ∈ named cj)) as Hback.
  { intros j cj' Hj. destruct (decide (i = j)) as [<-|Hne].
    - rewrite list_lookup_insert_eq in Hj by done. injection Hj as <-. eauto.
    - rewrite list_lookup_insert_ne in Hj by done. eauto. }
  assert (forall j cj, cs !! j = Some cj ->
    exists cj', <[i := co']> cs !! j = Some cj' /\ (l ∈ owned cj' <-> l ∈ owned cj) /\ (l ∈ named cj' <-> l ∈ named cj)) as Hfwd.
  { intros j cj Hj. destruct (decide (i = j)) as [<-|Hne].
    - exists co'. rewrite list_lookup_insert_eq by done. replace cj with co by congruence. done.
    - exists cj. by rewrite list_lookup_insert_ne. }
  cbn in *. split; cbn; rewrite ?Hl.
  - rewrite H1. split; intros (j & cj & Hj & Hin).
    + destruct (Hfwd j cj Hj) as (cj' & ? & ? & _). exists j, cj'. tauto.
    + destruct (Hback j cj Hj) as (cj' & ? & ? & _). exists j, cj'. tauto.
  - intros j. rewrite H2. split; intros (cj & Hj & Hin).
    + destruct (Hfwd j cj Hj) as (cj' & ? & _ & ?). exists cj'. tauto.
    + destruct (Hback j cj Hj) as (cj' & ? & _ & ?). exists cj'. tauto.
  - intros j k cj ck Hj Hk Hoj Hok. destruct (Hback j cj Hj) as (cj' & ? & ? & _), (Hback k ck Hk) as (ck' & ? & ? & _).
    eapply (H3 j k); [done..|tauto|tauto].
Qed.

(** A step of CPU [i] on lock [l], which no other CPU has. *)
Lemma lock_change cs i co lk' co' l :
  cs !! i = Some co -> (forall j cj, j <> i -> cs !! j = Some cj -> l ∉ owned cj) ->
  (lk_locked (lk' l) = true <-> l ∈ owned co') ->
  (l ∈ named co' /\ lk_cpu (lk' l) = Some i \/ ~ l ∈ named co' /\ lk_cpu (lk' l) = None) ->
  lock_ok (mkMach lk' (<[i := co']> cs)) l.
Proof.
  intros Hi Hoth Hlk Hcpu. pose proof (lookup_lt_Some _ _ _ Hi) as Hlt.
  assert (forall j cj, <[i := co']> cs !! j = Some cj -> l ∈ owned cj -> j = i /\ cj = co') as Hown.
  { intros j cj Hj Hin. destruct (decide (i = j)) as [<-|Hne].
    - rewrite list_lookup_insert_eq in Hj by done. by injection Hj as <-.
    - rewrite list_lookup_insert_ne in Hj by done. by destruct (Hoth j cj). }
  split; cbn.
  - rewrite Hlk. split.
    + intros Hin. exists i, co'. by rewrite list_lookup_insert_eq.
    + intros (j & cj & Hj & Hin). by destruct (Hown j cj Hj Hin) as [-> ->].
  - intros j. split.
    + intros E. destruct Hcpu as [[Hin E']|[_ E']]; [|congruence]. assert (j = i) as -> by congruence.
      exists co'. by rewrite list_lookup_insert_eq.
    + intros (cj & Hj & Hin). destruct (Hown j cj Hj (named_owned _ _ Hin)) as [-> ->].
      destruct Hcpu as [[_ E]|[Hn _]]; [done|by destruct Hn].
  - intros j k cj ck Hj Hk Hoj Hok. destruct (Hown j cj Hj Hoj) as [-> _], (Hown k ck Hk Hok) as [-> _]. done.
Qed.

Lemma lock_others lk cs i co l :
  lock_ok (mkMach lk cs) l -> cs !! i = Some co -> l ∈ owned co -> forall j cj, j <> i -> cs !! j = Some cj -> l ∉ owned cj.
Proof. intros [_ _ H3] Hi Hl j cj Hne Hj Hin. apply Hne. by eapply (H3 j i). Qed.

(** A lock that the CPU's code has taken has the CPU's name. *)
Lemma held_holding lk cs i co l :
  lock_ok (mkMach lk cs) l -> cs !! i = Some co -> l ∈ named co -> holding (lk l) i = true.
Proof.
  intros [H1 H2 _] Hi Hl. unfold holding. apply andb_true_iff. split.
  - apply H1. exists i, co. split; [done|]. by apply named_owned.
  - apply bool_decide_eq_true. apply H2. eauto.
Qed.

Lemma free_not_holding lk cs i co l :
  lock_ok (mkMach lk cs) l -> cs !! i = Some co -> l ∉ named co -> holding (lk l) i = false.
Proof.
  intros [_ H2 _] Hi Hl. unfold holding. apply andb_false_iff. right. apply bool_decide_eq_false. intros E. apply Hl.
  apply H2 in E as (co' & Hi' & Hin). cbn in *. congruence.
Qed.

Lemma push_core c o held p l :
  core_ok (mkCore c Run held o) -> ~ l ∈ held -> p = AcqCheck l -> core_ok (mkCore (push_off c) p held o).
Proof.
  intros [H1 H2 H3 H4 H5 H6] Hl ->. rewrite push_off_eq. unfold depth in *. cbn in *.
  split; unfold depth; cbn; try done.
  - by intros l' [[= ->]|].
  - lia.
  - intros _. split; [done|]. destruct (Z.eqb_spec (c_noff c) 0); [apply H6; lia|apply H5; lia].
  - lia.
Qed.

Lemma pop_core c o held l :
  core_ok (mkCore c (RelPop l) held o) ->
  exists c', pop_off c = inr c' /\ core_ok (mkCore c' Run held o).
Proof.
  intros [H1 H2 H3 H4 H5 H6]. unfold depth in *. cbn in *. destruct H5 as [Hi He]; [lia|].
  rewrite pop_off_eq by (done || lia). eexists. split; [reflexivity|]. split; unfold depth; cbn; try done.
  - by intros l' [|].
  - lia.
  - intros Hd. split; [|done]. destruct (Z.eqb_spec (c_noff c) 1); [lia|done].
  - intros Hd. destruct (Z.eqb_spec (c_noff c) 1); [|lia]. done.
Qed.

Ltac core_split H5 :=
  split; unfold depth; cbn; rewrite ?length_app; try done;
  solve [by intros ? [|] | lia | intros; apply H5; lia | intros; lia | idtac] || idtac.

(** Every step keeps the CPU's own part of the invariant. *)
Lemma lstep_core lk cs i co lk' co' :
  (forall l, lock_ok (mkMach lk cs) l) -> cs !! i = Some co -> core_ok co -> lstep i (lk, co) (lk', co') -> core_ok co'.
Proof.
  intros HL Hi Hc Hs. inversion Hs as [? c held o b Hn|? c held o l Hl|? c held o l|? c held o l|? c held o l|? c h1 h2 o l|? c held o l|? c held o l|? c held o l];
    subst; pose proof Hc as [H1 H2 H3 H4 H5 H6]; unfold depth in *; cbn in *.
  - core_split H5.
  - by eapply push_core.
  - rewrite (free_not_holding lk' cs i _ l (HL l) Hi) by (cbn; apply H3; by left). core_split H5.
    intros l' [|[= ->]]; [done|]. apply H3. by left.
  - destruct (lk_locked (lk l)) eqn:El; [core_split H5|]. core_split H5. constructor; [|done]. apply H3. by right.
  - core_split H5.
  - assert (NoDup (l :: h1 ++ h2)) as Hnd by (by rewrite Permutation_middle).
    rewrite (held_holding lk' cs i _ l (HL l) Hi) by (cbn; apply elem_of_app; right; by left).
    rewrite length_app in *. cbn in *. core_split H5.
  - core_split H5.
  - core_split H5. by inversion H2.
  - destruct (pop_core c o held l Hc) as (c' & -> & Hc'). done.
Qed.

(** A step that leaves a lock's record alone leaves alone who has it. *)
Lemma lstep_locks lk cs i co lk' co' l' :
  (forall l, lock_ok (mkMach lk cs) l) -> cs !! i = Some co -> core_ok co -> lstep i (lk, co) (lk', co') ->
  lock_ok (mkMach lk' (<[i := co']> cs)) l'.
Proof.
  intros HL Hi Hc Hs. inversion Hs as [? c held o b Hn|? c held o l Hl|? c held o l|? c held o l|? c held o l|? c h1 h2 o l|? c held o l|? c held o l|? c held o l];
    subst; pose proof Hc as [H1 H2 H3 _ _ _]; unfold owned in H2; cbn in H2.
  - by eapply lock_keep.
  - by eapply lock_keep.
  - eapply lock_keep; try done; by destruct (holding (lk' l) i).
  - destruct (lk_locked (lk l)) eqn:El; cbn.
    + eapply lock_keep; try done. destruct (decide (l = l')) as [->|]; [|by rewrite fn_lookup_insert_ne].
      rewrite fn_lookup_insert. destruct (lk l'); cbn in *; by subst.
    + destruct (decide (l = l')) as [->|Hne].
      * assert (forall j cj, cs !! j = Some cj -> l' ∉ owned cj) as Hfree.
        { intros j cj Hj Hin. assert (lk_locked (lk l') = true); [|congruence]. apply (HL l'). eauto. }
        eapply lock_change; [done|by intros; eapply Hfree| |]; rewrite fn_lookup_insert; cbn.
        -- split; [intros _; by left|done].
        -- right. split; [apply H3; by right|]. destruct (lk_cpu (lk l')) as [j|] eqn:Ej; [|done].
           apply (HL l') in Ej as (cj & Hj & Hin). by destruct (Hfree j cj Hj (named_owned _ _ Hin)).
      * eapply lock_keep; try done; [by rewrite fn_lookup_insert_ne|]. cbn. rewrite elem_of_cons. naive_solver.
  - destruct (decide (l = l')) as [->|Hne].
    + eapply lock_change; [done|eapply lock_others; [apply HL|done|by left]| |]; rewrite fn_lookup_insert; cbn.
      * split; [intros _; by left|]. intros _. apply (HL l'). exists i. eexists. split; [done|]. by left.
      * left. split; [by left|done].
    + eapply lock_keep; try done; [by rewrite fn_lookup_insert_ne|]. cbn. rewrite elem_of_cons. naive_solver.
  - rewrite (held_holding lk' cs i _ l (HL l) Hi) by (cbn; apply elem_of_app; right; by left).
    eapply lock_keep; try done; cbn; rewrite elem_of_cons, !elem_of_app, elem_of_cons; tauto.
  - destruct (decide (l = l')) as [->|Hne].
    + eapply lock_change; [done|eapply lock_others; [apply HL|done|by left]| |]; rewrite fn_lookup_insert; cbn.
      * split; [intros _; by left|]. intros _. apply (HL l'). exists i. eexists. split; [done|]. by left.
      * right. split; [|done]. by inversion H2.
    + eapply lock_keep; try done; [by rewrite fn_lookup_insert_ne|]. cbn. rewrite elem_of_cons. naive_solver.
  - destruct (decide (l = l')) as [->|Hne].
    + inversion H2 as [|? ? Hnin Hnd]; subst.
      eapply lock_change; [done|eapply lock_others; [apply HL|done|by left]| |]; rewrite fn_lookup_insert; cbn; [done|].
      right. split; [done|]. destruct (lk_cpu (lk l')) as [j|] eqn:Ej; [|done]. apply (HL l') in Ej as (cj & Hj & Hin).
      assert (j = i) as -> by (eapply (lo_one _ _ (HL l') j i); [done|done|by apply named_owned|by left]).
      cbn in Hj. rewrite Hi in Hj. by injection Hj as <-.
    + eapply lock_keep; try done; [by rewrite fn_lookup_insert_ne|]. cbn. rewrite elem_of_cons. naive_solver.
  - destruct (pop_core c o held l Hc) as (c' & -> & Hc'). by eapply lock_keep.
Qed.

Lemma mstep_linv m m' : linv m -> mstep m m' -> linv m'.
Proof.
  intros [HC HL] Hs. destruct Hs as [i lk cs co lk' co' Hi Hs]. cbn in *.
  assert (core_ok co) as Hc by (by eapply Forall_lookup_1 in HC).
  split; cbn; [apply Forall_insert; [done|]; by eapply lstep_core|]. intros l. by eapply lstep_locks.
Qed.

Lemma mstart_linv m : mstart m -> linv m.
Proof.
  intros [HL HC]. split.
  - apply Forall_forall. intros co Hin. destruct (HC co Hin) as (Hp & Hh & Hn & Hi).
    split; unfold depth, owned; rewrite ?Hp, ?Hh; cbn; try done; [constructor|by intros ? [|]].
  - assert (forall co, co ∈ m_cores m -> owned co = []) as Ho.
    { intros co Hin. destruct (HC co Hin) as (Hp & Hh & _). unfold owned. by rewrite Hp, Hh. }
    intros l. split; rewrite ?HL; cbn.
    + split; [done|]. intros (i & co & Hi & Hin). rewrite Ho in Hin by (by eapply list_elem_of_lookup_2). by apply not_elem_of_nil in Hin.
    + intros i. split; [done|]. intros (co & Hi & Hin%named_owned). rewrite Ho in Hin by (by eapply list_elem_of_lookup_2). by apply not_elem_of_nil in Hin.
    + intros i j ci cj Hi _ Hin. rewrite Ho in Hin by (by eapply list_elem_of_lookup_2). by apply not_elem_of_nil in Hin.
Qed.

Lemma mreach_linv m0 m : mstart m0 -> mreach m0 m -> linv m.
Proof. intros H0. induction 1; [by apply mstart_linv|by eapply mstep_linv]. Qed.

(** ** The claim *)

(** C21: spin locks exclude.  On any number of CPUs that take and give back locks
    in any order, at every interleaving of the steps of [acquire] and [release]:
    no lock is with two CPUs; [holding] is true exactly of the locks a CPU's code
    has; none of the panics of spinlock.c is reached; interrupts are off on a CPU
    that has or waits for a lock, and when it has none they are as its code left
    them. *)
Theorem spinlock_excludes m0 m :
  mstart m0 -> mreach m0 m ->
  (forall i j ci cj l, m_cores m !! i = Some ci -> m_cores m !! j = Some cj -> l ∈ co_held ci -> l ∈ co_held cj -> i = j) /\
  (forall i co l, m_cores m !! i = Some co -> co_pc co = Run -> holding (m_locks m l) i = true <-> l ∈ co_held co) /\
  (forall co e, co ∈ m_cores m -> co_pc co <> Panicked e) /\
  (forall co, co ∈ m_cores m -> (co_pc co <> Run \/ co_held co <> [] -> c_intr (co_cpu co) = false) /\
     (co_pc co = Run -> co_held co = [] -> c_intr (co_cpu co) = co_outer co)).
Proof.
  intros H0 Hr. destruct (mreach_linv _ _ H0 Hr) as [HC HL]. destruct m as [lk cs]. cbn in *. rewrite Forall_forall in HC. split_and!.
  - assert (forall co l, l ∈ co_held co -> l ∈ owned co) as Ho.
    { intros co l Hin. apply named_owned. unfold named. destruct (co_pc co); try done. by right. }
    intros i j ci cj l Hi Hj Hli Hlj. eapply (lo_one _ _ (HL l)); [done|done|by apply Ho..].
  - intros i co l Hi Hp. assert (named co = co_held co) as <- by (unfold named; by rewrite Hp). split.
    + intros Hh. destruct (decide (l ∈ named co)) as [|Hn]; [done|].
      by rewrite (free_not_holding lk cs i co l (HL l) Hi Hn) in Hh.
    + by apply (held_holding lk cs i co l (HL l) Hi).
  - intros co e Hin. by apply (ck_pc _ (HC co Hin)).
  - intros co Hin. destruct (HC co Hin) as [H1 H2 H3 H4 H5 H6]. unfold depth in *. split.
    + intros Hd. apply H5. destruct Hd as [Hd|Hd]; [destruct (co_pc co); (done || lia)|].
      destruct (co_held co); [done|]. cbn. destruct (co_pc co); lia.
    + intros Hp Hh. apply H6. by rewrite Hp, Hh.
Qed.

Definition idle_core : core := mkCore (mkCpu 0 false true) Run [] true.
Definition two_cores : mach := mkMach (fun _ => initlock) [idle_core; idle_core].

(** CPU 0 takes lock 3. *)
Definition core_at (pc : lpc) (held : list nat) : core := mkCore (mkCpu 1 true false) pc held true.
Definition free_locks : nat -> spinlock := fun _ => initlock.
Definition locked_3 : nat -> spinlock := <[3%nat := mkLock true None]> free_locks.
Definition one_lock : mach :=
  mkMach (<[3%nat := mkLock true (Some 0%nat)]> locked_3) [core_at Run [3%nat]; idle_core].

Lemma spinlock_excludes_witness :
  holding (m_locks one_lock 3%nat) 0 = true /\ c_intr (co_cpu (core_at Run [3%nat])) = false.
Proof.
  refine (match spinlock_excludes two_cores one_lock _ _ with
    conj _ (conj H (conj _ Hi)) =>
      conj (proj2 (H 0%nat _ 3%nat eq_refl eq_refl) (list_elem_of_here _ _))
        (proj1 (Hi _ (list_elem_of_here _ _)) (or_intror _)) end); last done.
  - split; [done|]. intros co Hin. apply elem_of_cons in Hin as [->|Hin]; [done|]. apply list_elem_of_singleton in Hin as ->. done.
  - apply (mr_step _ (mkMach locked_3 [core_at (AcqSet 3) []; idle_core]));
      [apply (mr_step _ (mkMach free_locks [core_at (AcqSpin 3) []; idle_core]));
        [apply (mr_step _ (mkMach free_locks [core_at (AcqCheck 3) []; idle_core])); [apply (mr_step _ two_cores); [apply mr_start|]|]|]|].
    + exact (m_step 0 free_locks [idle_core; idle_core] idle_core _ _ eq_refl (l_acquire 0 _ _ _ _ 3 (not_elem_of_nil 3%nat))).
    + exact (m_step 0 free_locks [core_at (AcqCheck 3) []; idle_core] _ _ _ eq_refl (l_check 0 _ _ _ _ 3)).
    + exact (m_step 0 free_locks [core_at (AcqSpin 3) []; idle_core] _ _ _ eq_refl (l_spin 0 _ _ _ _ 3)).
    + exact (m_step 0 locked_3 [core_at (AcqSet 3) []; idle_core] _ _ _ eq_refl (l_set 0 _ _ _ _ 3)).
Defined.
