(* ===== verification/Proc.v ===== *)
(** * Processes (kernel/proc.c, kernel/proc.h)

    The process table and the functions on it.  The critical sections under
    [wait_lock] and the [p->lock]s are atomic steps; [sched] gives the CPU up, so
    the functions that call it end there, and the machine of ProcMachine resumes
    them.  Memory is the allocator's and the page tables' of Vm; open files and
    current directories belong to the file layer, an interface here. *)

From S2P Require Import Prelude CString Mem Kalloc Vm.

Definition NPROC : nat := 64.
Definition NOFILE : nat := 16.

Inductive procstate := UNUSED | USED | SLEEPING | RUNNABLE | RUNNING | ZOMBIE.

#[export] Instance procstate_eq_dec : EqDecision procstate.
Proof. solve_decision. Defined.

(** What is slept on: the address of an entry of the process table, or another. *)
Inductive channel := CProc (i : nat) | CAddr (a : Z).

#[export] Instance channel_eq_dec : EqDecision channel.
Proof. solve_decision. Defined.

Record proc := mkProc {
  p_state : procstate; p_chan : option channel; p_killed : bool; p_xstate : Z; p_pid : Z;
  p_parent : option nat;
  p_kstack : Z; p_sz : Z; p_pagetable : Z; p_trapframe : Z; p_context : Z * Z;
  p_ofile : list (option nat); p_cwd : option nat; p_name : list byte
}.

(** What the process layer calls in the file layer, which also allocates and
    frees pages. *)
Class FileOps (F : Type) := {
  f_dup : nat -> M (kst * F) nat;
  f_close : nat -> M (kst * F) unit;
  i_dup : nat -> M (kst * F) nat;
  i_put : nat -> M (kst * F) unit;
  i_root : M (kst * F) nat
}.

Record pstate (F : Type) := mkPs {
  ps_procs : list proc; ps_nextpid : Z; ps_init : option nat; ps_mem : kst; ps_files : F
}.
Arguments mkPs {F}. Arguments ps_procs {F}. Arguments ps_nextpid {F}. Arguments ps_init {F}.
Arguments ps_mem {F}. Arguments ps_files {F}.

(** The assignments to fields. *)
Definition w_state (s : procstate) (p : proc) : proc :=
  mkProc s (p_chan p) (p_killed p) (p_xstate p) (p_pid p) (p_parent p) (p_kstack p) (p_sz p) (p_pagetable p)
         (p_trapframe p) (p_context p) (p_ofile p) (p_cwd p) (p_name p).
Definition w_chan (c : option channel) (p : proc) : proc :=
  mkProc (p_state p) c (p_killed p) (p_xstate p) (p_pid p) (p_parent p) (p_kstack p) (p_sz p) (p_pagetable p)
         (p_trapframe p) (p_context p) (p_ofile p) (p_cwd p) (p_name p).
Definition w_killed (k : bool) (p : proc) : proc :=
  mkProc (p_state p) (p_chan p) k (p_xstate p) (p_pid p) (p_parent p) (p_kstack p) (p_sz p) (p_pagetable p)
         (p_trapframe p) (p_context p) (p_ofile p) (p_cwd p) (p_name p).
Definition w_xstate (x : Z) (p : proc) : proc :=
  mkProc (p_state p) (p_chan p) (p_killed p) x (p_pid p) (p_parent p) (p_kstack p) (p_sz p) (p_pagetable p)
         (p_trapframe p) (p_context p) (p_ofile p) (p_cwd p) (p_name p).
Definition w_pid (x : Z) (p : proc) : proc :=
  mkProc (p_state p) (p_chan p) (p_killed p) (p_xstate p) x (p_parent p) (p_kstack p) (p_sz p) (p_pagetable p)
         (p_trapframe p) (p_context p) (p_ofile p) (p_cwd p) (p_name p).
Definition w_parent (x : option nat) (p : proc) : proc :=
  mkProc (p_state p) (p_chan p) (p_killed p) (p_xstate p) (p_pid p) x (p_kstack p) (p_sz p) (p_pagetable p)
         (p_trapframe p) (p_context p) (p_ofile p) (p_cwd p) (p_name p).
Definition w_kstack (x : Z) (p : proc) : proc :=
  mkProc (p_state p) (p_chan p) (p_killed p) (p_xstate p) (p_pid p) (p_parent p) x (p_sz p) (p_pagetable p)
         (p_trapframe p) (p_context p) (p_ofile p) (p_cwd p) (p_name p).
Definition w_sz (x : Z) (p : proc) : proc :=
  mkProc (p_state p) (p_chan p) (p_killed p) (p_xstate p) (p_pid p) (p_parent p) (p_kstack p) x (p_pagetable p)
         (p_trapframe p) (p_context p) (p_ofile p) (p_cwd p) (p_name p).
Definition w_pagetable (x : Z) (p : proc) : proc :=
  mkProc (p_state p) (p_chan p) (p_killed p) (p_xstate p) (p_pid p) (p_parent p) (p_kstack p) (p_sz p) x
         (p_trapframe p) (p_context p) (p_ofile p) (p_cwd p) (p_name p).
Definition w_trapframe (x : Z) (p : proc) : proc :=
  mkProc (p_state p) (p_chan p) (p_killed p) (p_xstate p) (p_pid p) (p_parent p) (p_kstack p) (p_sz p) (p_pagetable p)
         x (p_context p) (p_ofile p) (p_cwd p) (p_name p).
Definition w_context (x : Z * Z) (p : proc) : proc :=
  mkProc (p_state p) (p_chan p) (p_killed p) (p_xstate p) (p_pid p) (p_parent p) (p_kstack p) (p_sz p) (p_pagetable p)
         (p_trapframe p) x (p_ofile p) (p_cwd p) (p_name p).
Definition w_ofile (fd : nat) (x : option nat) (p : proc) : proc :=
  mkProc (p_state p) (p_chan p) (p_killed p) (p_xstate p) (p_pid p) (p_parent p) (p_kstack p) (p_sz p) (p_pagetable p)
         (p_trapframe p) (p_context p) (<[fd := x]> (p_ofile p)) (p_cwd p) (p_name p).
Definition w_cwd (x : option nat) (p : proc) : proc :=
  mkProc (p_state p) (p_chan p) (p_killed p) (p_xstate p) (p_pid p) (p_parent p) (p_kstack p) (p_sz p) (p_pagetable p)
         (p_trapframe p) (p_context p) (p_ofile p) x (p_name p).
Definition w_name (x : list byte) (p : proc) : proc :=
  mkProc (p_state p) (p_chan p) (p_killed p) (p_xstate p) (p_pid p) (p_parent p) (p_kstack p) (p_sz p) (p_pagetable p)
         (p_trapframe p) (p_context p) (p_ofile p) (p_cwd p) x.

(** How a call that may wait ends. *)
Inductive wait_end := WReturn (r : Z) | WSleep.

Section proc.
Context {F : Type} {FO : FileOps F}.
(** The end of the kernel, and the addresses of [trampoline] and [forkret]. *)
Context (kend trampoline forkret : Z).

Definition upd (i : nat) (f : proc -> proc) : M (pstate F) unit :=
  modify (fun s => mkPs (alter f i (ps_procs s)) (ps_nextpid s) (ps_init s) (ps_mem s) (ps_files s)).
Definition at_proc (i : nat) : M (pstate F) proc := fun s =>
  match ps_procs s !! i with Some p => Ok p s | None => Undef end.
Definition in_mem {A} (m : M kst A) : M (pstate F) A :=
  zoom ps_mem (fun k s => mkPs (ps_procs s) (ps_nextpid s) (ps_init s) k (ps_files s)) m.
Definition in_files {A} (m : M (kst * F) A) : M (pstate F) A :=
  zoom (fun s => (ps_mem s, ps_files s)) (fun kf s => mkPs (ps_procs s) (ps_nextpid s) (ps_init s) (fst kf) (snd kf)) m.

(** The table is all zero before. *)
Definition procinit : M (pstate F) unit :=
  for_each (seq 0 NPROC) (fun i => upd i (w_state UNUSED);;; upd i (w_kstack (KSTACK (Z.of_nat i)))).

(** [nextpid] is an [int], whose overflow is undefined. *)
Definition allocpid : M (pstate F) Z :=
  pid <- gets ps_nextpid;;
  if pid + 1 <? 2 ^ 31 then
    modify (fun s => mkPs (ps_procs s) (pid + 1) (ps_init s) (ps_mem s) (ps_files s));;;
    ret pid
  else undef.

Definition proc_pagetable (trapframe : Z) : M kst Z :=
  pagetable <- uvmcreate;;
  if pagetable =? 0 then ret 0
  else
    r <- mappages pagetable TRAMPOLINE PGSIZE trampoline (Z.lor PTE_R PTE_X);;
    if r <? 0 then uvmfree kend pagetable 0;;; ret 0
    else
      r <- mappages pagetable TRAPFRAME PGSIZE trapframe (Z.lor PTE_R PTE_W);;
      if r <? 0 then
        uvmunmap kend pagetable TRAMPOLINE 1 false;;;
        uvmfree kend pagetable 0;;;
        ret 0
      else ret pagetable.

Definition proc_freepagetable (pagetable sz : Z) : M kst unit :=
  uvmunmap kend pagetable TRAMPOLINE 1 false;;;
  uvmunmap kend pagetable TRAPFRAME 1 false;;;
  uvmfree kend pagetable sz.

Definition freeproc (i : nat) : M (pstate F) unit :=
  p <- at_proc i;;
  (if negb (p_trapframe p =? 0) then in_mem (kfree kend (p_trapframe p)) else ret tt);;;
  upd i (w_trapframe 0);;;
  (if negb (p_pagetable p =? 0) then in_mem (proc_freepagetable (p_pagetable p) (p_sz p)) else ret tt);;;
  upd i (w_pagetable 0);;;
  upd i (w_sz 0);;;
  upd i (w_pid 0);;;
  upd i (w_parent None);;;
  upd i (fun p => w_name (<[0%nat := x00]> (p_name p)) p);;;
  upd i (w_chan None);;;
  upd i (w_killed false);;;
  upd i (w_xstate 0);;;
  upd i (w_state UNUSED).

(** The first entry that is free. *)
Definition find_unused (l : list proc) : option nat := fst <$> list_find (fun p => p_state p = UNUSED) l.

(** The index of the new process; [None] is the null pointer. *)
Definition allocproc : M (pstate F) (option nat) :=
  l <- gets ps_procs;;
  match find_unused l with
  | None => ret None
  | Some i =>
    pid <- allocpid;;
    upd i (w_pid pid);;;
    upd i (w_state USED);;;
    trapframe <- in_mem kalloc;;
    upd i (w_trapframe trapframe);;;
    if trapframe =? 0 then freeproc i;;; ret None
    else
      pagetable <- in_mem (proc_pagetable trapframe);;
      upd i (w_pagetable pagetable);;;
      if pagetable =? 0 then freeproc i;;; ret None
      else
        p <- at_proc i;;
        upd i (w_context (forkret, p_kstack p + PGSIZE));;;
        ret (Some i)
  end.

(** The first user program, [initcode] in the source. *)
Definition initcode : list byte :=
  [x17; x05; x00; x00; x13; x05; x45; x02; x97; x05; x00; x00; x93; x85; x35; x02; x93; x08; x70; x00; x73; x00; x00; x00;
   x93; x08; x20; x00; x73; x00; x00; x00; xef; xf0; x9f; xff; x2f; x69; x6e; x69; x74; x00; x00; x24; x00; x00; x00; x00;
   x00; x00; x00; x00].

(** Fields of the trapframe, by their offset. *)
Definition tf_set (i : nat) (off v : Z) : M (pstate F) unit :=
  p <- at_proc i;; in_mem (modify (set_mem (fun m => store64 m (p_trapframe p + off) v))).
Definition TF_epc : Z := 24.
Definition TF_sp : Z := 48.
Definition TF_a0 : Z := 112.
Definition TF_size : Z := 288.

Definition userinit : M (pstate F) unit :=
  o <- allocproc;;
  modify (fun s => mkPs (ps_procs s) (ps_nextpid s) o (ps_mem s) (ps_files s));;;
  match o with
  | None => undef
  | Some i =>
    p <- at_proc i;;
    in_mem (uvmfirst (p_pagetable p) initcode (Z.of_nat (length initcode)));;;
    upd i (w_sz PGSIZE);;;
    tf_set i TF_epc 0;;;
    tf_set i TF_sp PGSIZE;;;
    name <- from_opt (KString.safestrcpy (p_name p) (bytes "initcode" ++ [x00]) 16);;
    upd i (w_name name);;;
    d <- in_files i_root;;
    upd i (w_cwd (Some d));;;
    upd i (w_state RUNNABLE)
  end.

(** [me] is the running process. *)
Definition growproc (me : nat) (n : Z) : M (pstate F) Z :=
  p <- at_proc me;;
  if 0 <? n then
    sz <- in_mem (uvmalloc kend (p_pagetable p) (p_sz p) (u64 (p_sz p + n)) PTE_W);;
    if sz =? 0 then ret (-1) else upd me (w_sz sz);;; ret 0
  else if n <? 0 then
    sz <- in_mem (uvmdealloc kend (p_pagetable p) (p_sz p) (u64 (p_sz p + n)));;
    upd me (w_sz sz);;; ret 0
  else upd me (w_sz (p_sz p));;; ret 0.

Definition fork (me : nat) : M (pstate F) Z :=
  o <- allocproc;;
  match o with
  | None => ret (-1)
  | Some np =>
    p <- at_proc me;;
    q <- at_proc np;;
    r <- in_mem (uvmcopy kend (p_pagetable p) (p_pagetable q) (p_sz p));;
    if r <? 0 then freeproc np;;; ret (-1)
    else
      upd np (w_sz (p_sz p));;;
      in_mem (modify (set_mem (fun m => mem_copy m (p_trapframe q) (p_trapframe p) TF_size)));;;
      tf_set np TF_a0 0;;;
      for_each (seq 0 NOFILE) (fun i =>
        match p_ofile p !! i with
        | Some (Some f) => f <- in_files (f_dup f);; upd np (w_ofile i (Some f))
        | _ => ret tt
        end);;;
      d <- from_opt (p_cwd p);;
      d <- in_files (i_dup d);;
      upd np (w_cwd (Some d));;;
      name <- from_opt (KString.safestrcpy (p_name q) (p_name p) 16);;
      upd np (w_name name);;;
      q <- at_proc np;;
      upd np (w_parent (Some me));;;
      upd np (w_state RUNNABLE);;;
      ret (p_pid q)
  end.

(** [me] is null in an interrupt handler on an idle CPU. *)
Definition wakeup (me : option nat) (c : channel) : M (pstate F) unit :=
  for_each (seq 0 NPROC) (fun i =>
    if bool_decide (Some i = me) then ret tt
    else
      p <- at_proc i;;
      if bool_decide (p_state p = SLEEPING) && bool_decide (p_chan p = Some c) then upd i (w_state RUNNABLE) else ret tt).

Definition reparent (me : nat) : M (pstate F) unit :=
  for_each (seq 0 NPROC) (fun i =>
    p <- at_proc i;;
    if bool_decide (p_parent p = Some me) then
      init <- gets ps_init;;
      upd i (w_parent init);;;
      init <- from_opt init;;
      wakeup (Some me) (CProc init)
    else ret tt).

(** The process is in the state in which it gives the CPU up. *)
Definition sched (me : nat) : M (pstate F) unit :=
  p <- at_proc me;;
  if bool_decide (p_state p = RUNNING) then panic "sched running" else ret tt.

(** Up to the switch to the scheduler, from which it does not return. *)
Definition exit (me : nat) (status : Z) : M (pstate F) unit :=
  init <- gets ps_init;;
  if bool_decide (Some me = init) then panic "init exiting"
  else
    for_each (seq 0 NOFILE) (fun fd =>
      p <- at_proc me;;
      match p_ofile p !! fd with
      | Some (Some f) => in_files (f_close f);;; upd me (w_ofile fd None)
      | _ => ret tt
      end);;;
    p <- at_proc me;;
    d <- from_opt (p_cwd p);;
    in_files (i_put d);;;
    upd me (w_cwd None);;;
    reparent me;;;
    p <- at_proc me;;
    parent <- from_opt (p_parent p);;
    wakeup (Some me) (CProc parent);;;
    upd me (w_xstate status);;;
    upd me (w_state ZOMBIE);;;
    sched me.

(** Before and after the switch. *)
Definition sleep (me : nat) (c : channel) : M (pstate F) unit :=
  upd me (w_chan (Some c));;;
  upd me (w_state SLEEPING);;;
  sched me.
Definition sleep_return (me : nat) : M (pstate F) unit := upd me (w_chan None).

(** The scan of [wait]: a result, or whether there are children. *)
Fixpoint wait_scan (me : nat) (addr : Z) (l : list nat) (havekids : bool) : M (pstate F) (Z + bool) :=
  match l with
  | [] => ret (inr havekids)
  | i :: l =>
    pp <- at_proc i;;
    if bool_decide (p_parent pp = Some me) then
      if bool_decide (p_state pp = ZOMBIE) then
        p <- at_proc me;;
        r <- (if addr =? 0 then ret 0
              else in_mem (copyout (p_pagetable p) addr (le_enc 4 (p_xstate pp))));;
        if r <? 0 then ret (inl (-1))
        else freeproc i;;; ret (inl (p_pid pp))
      else wait_scan me addr l true
    else wait_scan me addr l havekids
  end.

(** One round of the loop, which begins with [wait_lock] held: it returns, or
    sleeps on the process's own address. *)
Definition wait (me : nat) (addr : Z) : M (pstate F) wait_end :=
  r <- wait_scan me addr (seq 0 NPROC) false;;
  match r with
  | inl r => ret (WReturn r)
  | inr havekids =>
    p <- at_proc me;;
    if negb havekids || p_killed p then ret (WReturn (-1))
    else sleep me (CProc me);;; ret WSleep
  end.

Definition yield (me : nat) : M (pstate F) unit := upd me (w_state RUNNABLE);;; sched me.

(** The scheduler's look at entry [i]: whether it switches to it. *)
Definition scheduler_try (i : nat) : M (pstate F) bool :=
  p <- at_proc i;;
  if bool_decide (p_state p = RUNNABLE) then upd i (w_state RUNNING);;; ret true else ret false.

Definition kill (pid : Z) : M (pstate F) Z :=
  r <- for_until (seq 0 NPROC) (fun i =>
    p <- at_proc i;;
    if p_pid p =? pid then
      upd i (w_killed true);;;
      (if bool_decide (p_state p = SLEEPING) then upd i (w_state RUNNABLE) else ret tt);;;
      ret (Some 0)
    else ret None);;
  ret (default (-1) r).

Definition setkilled (i : nat) : M (pstate F) unit := upd i (w_killed true).
Definition killed (i : nat) : M (pstate F) bool := p <- at_proc i;; ret (p_killed p).
End proc.
