(* ===== verification/ProcSpec.v ===== *)
(** * Processes: what the functions do to the table

    Each function that returns has changed the table in a known way; memory and
    files are whatever the layers below made of them. *)

From S2P Require Import Prelude CString Mem Kalloc Vm Proc.

Section tables.
Context {F : Type} {FO : FileOps F}.
Context (kend trampoline forkret : Z).
Implicit Types (s : pstate F) (l : list proc).

(** [s'] has the table [l] and otherwise the process state of [s]. *)
Definition same_but (s : pstate F) (l : list proc) (s' : pstate F) : Prop :=
  ps_procs s' = l /\ ps_nextpid s' = ps_nextpid s /\ ps_init s' = ps_init s.

Lemma in_mem_inv {A} (m : M kst A) s a s' : in_mem m s = Ok a s' -> same_but s (ps_procs s) s'.
Proof. unfold in_mem, zoom. destruct (m (ps_mem s)); intros [=]; subst; done. Qed.

Lemma in_files_inv {A} (m : M (kst * F) A) s a s' : in_files m s = Ok a s' -> same_but s (ps_procs s) s'.
Proof. unfold in_files, zoom. destruct (m _); intros [=]; subst; done. Qed.

Lemma upd_inv i f s u s' : upd i f s = Ok u s' -> same_but s (alter f i (ps_procs s)) s'.
Proof. intros [= <- <-]. done. Qed.

Lemma at_proc_inv i s p s' : at_proc i s = Ok p s' -> ps_procs s !! i = Some p /\ s' = s.
Proof. unfold at_proc. destruct (ps_procs s !! i); by intros [= <- <-]. Qed.

Lemma ret_inv {S A} (a b : A) (s s' : S) : ret a s = Ok b s' -> b = a /\ s' = s.
Proof. by intros [= <- <-]. Qed.

Lemma gets_inv {S A} (f : S -> A) (b : A) (s s' : S) : gets f s = Ok b s' -> b = f s /\ s' = s.
Proof. by intros [= <- <-]. Qed.

Lemma from_opt_inv {S A} (o : option A) (b : A) (s s' : S) : from_opt o s = Ok b s' -> o = Some b /\ s' = s.
Proof. destruct o; by intros [= <- <-]. Qed.

Lemma same_trans s l s1 l1 s2 : same_but s l s1 -> same_but s1 l1 s2 -> same_but s l1 s2.
Proof. unfold same_but. intuition congruence. Qed.

Lemma same_refl s : same_but s (ps_procs s) s.
Proof. done. Qed.
End tables.

(** Break a run that returned into those of its statements. *)
Ltac minv :=
  repeat match goal with
  | H : bind _ _ _ = Ok _ _ |- _ => apply bind_ok_inv in H as (? & ? & ? & ?)
  | H : ret _ _ = Ok _ _ |- _ => apply ret_inv in H as [? ?]; subst
  | H : gets _ _ = Ok _ _ |- _ => apply gets_inv in H as [? ?]; subst
  | H : at_proc _ _ = Ok _ _ |- _ => apply at_proc_inv in H as [? ?]; subst
  | H : from_opt _ _ = Ok _ _ |- _ => apply from_opt_inv in H as [? ?]; subst
  | H : in_mem _ _ = Ok _ _ |- _ => apply in_mem_inv in H
  | H : in_files _ _ = Ok _ _ |- _ => apply in_files_inv in H
  | H : upd _ _ _ = Ok _ _ |- _ => apply upd_inv in H
  | H : undef _ = Ok _ _ |- _ => discriminate H
  | H : panic _ _ = Ok _ _ |- _ => discriminate H
  end.

(** Put the changes of the table together. *)
Ltac mtab :=
  unfold same_but in *;
  repeat match goal with
  | H : _ /\ _ |- _ => destruct H
  | H : ps_procs ?s = _ |- _ => is_var s; rewrite H in *
  | H : ps_nextpid ?s = _ |- _ => is_var s; rewrite H in *
  | H : ps_init ?s = _ |- _ => is_var s; rewrite H in *
  end.

Section specs.
Context {F : Type} {FO : FileOps F}.
Context (kend trampoline forkret : Z).
Implicit Types (s : pstate F) (l : list proc).

Definition freed (p : proc) : proc :=
  mkProc UNUSED None false 0 0 None (p_kstack p) 0 0 0 (p_context p) (p_ofile p) (p_cwd p) (<[0%nat := x00]> (p_name p)).

Lemma alter_alter_list {A} (f g : A -> A) i (l : list A) : alter f i (alter g i l) = alter (f ∘ g) i l.
Proof. revert i. induction l as [|x l IH]; intros [|i]; cbn; [done..|]. f_equal. apply IH. Qed.

Lemma if_mem_inv b (m : M kst unit) s u s' : (if b : bool then in_mem m else ret tt) s = Ok u s' -> same_but s (ps_procs s) s'.
Proof. destruct b; [apply in_mem_inv|]. by intros [= <- <-]. Qed.

Lemma freeproc_tab i s u s' : freeproc kend i s = Ok u s' -> same_but s (alter freed i (ps_procs s)) s'.
Proof.
  unfold freeproc. intros H. minv.
  repeat match goal with H : (if _ then in_mem _ else ret tt) _ = Ok _ _ |- _ => apply if_mem_inv in H end.
  mtab. by rewrite !alter_alter_list.
Qed.

(** A new process: what [allocproc] leaves in its entry. *)
Definition born (pid : Z) (p p' : proc) : Prop :=
  p_state p = UNUSED /\ p_state p' = USED /\ p_pid p' = pid /\ p_parent p' = p_parent p /\ p_chan p' = p_chan p /\
  p_killed p' = p_killed p /\ p_xstate p' = p_xstate p /\ p_ofile p' = p_ofile p /\ p_cwd p' = p_cwd p /\
  p_context p' = (forkret, p_kstack p + PGSIZE) /\ p_trapframe p' <> 0 /\ p_pagetable p' <> 0.

Lemma find_unused_Some l i : find_unused l = Some i <->
  exists p, l !! i = Some p /\ p_state p = UNUSED /\ forall j q, (j < i)%nat -> l !! j = Some q -> p_state q <> UNUSED.
Proof.
  unfold find_unused. rewrite fmap_Some. split.
  - intros ([j p] & H & ->). apply list_find_Some in H as (? & ? & ?). cbn. eauto.
  - intros (p & H1 & H2 & H3). exists (i, p). split; [|done]. apply list_find_Some. eauto.
Qed.

Lemma allocproc_tab s r s' :
  allocproc kend trampoline forkret s = Ok r s' ->
  ps_init s' = ps_init s /\
  (r = None /\ ps_procs s' = ps_procs s /\ ps_nextpid s' = ps_nextpid s /\ find_unused (ps_procs s) = None \/
   exists i p, find_unused (ps_procs s) = Some i /\ ps_procs s !! i = Some p /\ ps_nextpid s' = ps_nextpid s + 1 /\ ps_nextpid s' < 2 ^ 31 /\
     (r = None /\ ps_procs s' = alter freed i (ps_procs s) \/
      r = Some i /\ exists p', ps_procs s' = <[i := p']> (ps_procs s) /\ born (ps_nextpid s) p p')).
Proof.
  unfold allocproc, allocpid. intros H. minv. destruct (find_unused (ps_procs s)) as [i|] eqn:Ef.
  2:{ minv. split; [done|]. left. done. }
  pose proof (proj1 (find_unused_Some _ _) Ef) as (p & Hi & Hp & _).
  minv. destruct (Z.ltb_spec (ps_nextpid s + 1) (2 ^ 31)); [|done]. minv.
  match goal with H : modify _ _ = Ok _ _ |- _ => injection H as <- <- end. cbn in *.
  assert (forall f g : proc -> proc, (f ∘ g) p = f (g p)) as Hcomp by done.
  match goal with H : (if ?z =? 0 then _ else _) _ = Ok _ _ |- _ => destruct (Z.eqb_spec z 0) end.
  - minv. match goal with H : freeproc _ _ _ = Ok _ _ |- _ => apply freeproc_tab in H end. mtab. cbn in *. split; [done|].
    right. exists i, p. split_and!; try done. left. split; [done|]. by rewrite !alter_alter_list.
  - minv. match goal with H : (if ?z =? 0 then _ else _) _ = Ok _ _ |- _ => destruct (Z.eqb_spec z 0) end.
    + minv. match goal with H : freeproc _ _ _ = Ok _ _ |- _ => apply freeproc_tab in H end. mtab. cbn in *. split; [done|].
      right. exists i, p. split_and!; try done. left. split; [done|]. by rewrite !alter_alter_list.
    + minv. mtab. cbn in *. rewrite !alter_alter_list in *. split; [done|]. right. exists i, p. split_and!; try done. right. split; [done|].
      match goal with H : alter _ _ _ !! i = Some _ |- _ => rewrite list_lookup_alter_eq, Hi in H; injection H as <- end.
      eexists. split; [by apply alter_insert|]. done.
Qed.

(** ** [wakeup], [reparent] and [exit] *)

Definition woken (me : option nat) (c : channel) (i : nat) (p : proc) : proc :=
  if bool_decide (Some i <> me) && bool_decide (p_state p = SLEEPING) && bool_decide (p_chan p = Some c)
  then w_state RUNNABLE p else p.

(** A table that differs entry by entry. *)
Definition each (f : nat -> proc -> proc) l l' : Prop := forall i, l' !! i = f i <$> l !! i.

Lemma each_length f l l' : each f l l' -> length l' = length l.
Proof.
  intros H. apply Nat.le_antisymm; apply Nat.nlt_ge; intros Hlt.
  - destruct (lookup_lt_is_Some_2 l' (length l) Hlt) as [x Hx]. rewrite H, lookup_ge_None_2 in Hx by lia. done.
  - destruct (lookup_lt_is_Some_2 l (length l') Hlt) as [x Hx]. specialize (H (length l')). by rewrite Hx, lookup_ge_None_2 in H by lia.
Qed.

Lemma wakeup_tab me c s u s' :
  length (ps_procs s) = NPROC -> wakeup me c s = Ok u s' ->
  each (woken me c) (ps_procs s) (ps_procs s') /\ ps_nextpid s' = ps_nextpid s /\ ps_init s' = ps_init s.
Proof.
  intros Hlen H. apply (for_each_inv (fun k t => each (fun i => if (i <? k)%nat then woken me c i else id) (ps_procs s) (ps_procs t) /\
    ps_nextpid t = ps_nextpid s /\ ps_init t = ps_init s)) in H as (H & ? & ?).
  - split; [|done]. intros i. rewrite H. destruct (Nat.ltb_spec i NPROC); [done|]. by rewrite lookup_ge_None_2 by lia.
  - clear H. intros k t t' Hk E (He & Hn & Hi).
    assert (each (fun i => if (i <? S k)%nat then woken me c i else id) (ps_procs s) (alter (woken me c k) k (ps_procs t))) as Hnext.
    { intros j. destruct (decide (j = k)) as [->|Hne].
      - rewrite list_lookup_alter_eq, He. destruct (Nat.ltb_spec k k); [lia|]. destruct (Nat.ltb_spec k (S k)); [|lia]. by destruct (ps_procs s !! k).
      - rewrite list_lookup_alter_ne, He by done. destruct (Nat.ltb_spec j k), (Nat.ltb_spec j (S k)); (done || lia). }
    assert (forall p, ps_procs t !! k = Some p -> woken me c k p = p -> alter (woken me c k) k (ps_procs t) = ps_procs t) as Hid.
    { intros p Hp Ew. rewrite (alter_insert _ _ _ _ Hp), Ew. by apply list_insert_id. }
    case_bool_decide as Em.
    + minv. split; [|done]. destruct (lookup_lt_is_Some_2 (ps_procs t) k) as [p Hp]; [rewrite (each_length _ _ _ He); lia|].
      rewrite <- (Hid p Hp); [done|]. unfold woken. by rewrite bool_decide_false by naive_solver.
    + minv. match goal with H : ps_procs t !! k = Some ?q |- _ => rename H into Hp; rename q into p end.
      destruct (bool_decide (p_state p = SLEEPING) && bool_decide (p_chan p = Some c)) eqn:Eb.
      * minv. mtab. split; [|split; congruence].
        replace (alter (w_state RUNNABLE) k (ps_procs t)) with (alter (woken me c k) k (ps_procs t)); [done|].
        rewrite !(alter_insert _ _ _ _ Hp). unfold woken. rewrite bool_decide_true by done. cbn. by rewrite Eb.
      * minv. split; [|done]. rewrite <- (Hid p Hp); [done|]. unfold woken. rewrite bool_decide_true by done. cbn. by rewrite Eb.
  - split; [|done]. intros i. by destruct (ps_procs s !! i).
Qed.

(** Whether one of the first [k] entries is a child of [me]. *)
Definition has_child (me : nat) l (k : nat) : bool := existsb (fun p => bool_decide (p_parent p = Some me)) (take k l).

Definition reparented (me : nat) (init : option nat) (k i : nat) (p : proc) : proc :=
  if (i <? k)%nat && bool_decide (p_parent p = Some me) then w_parent init p else p.
Definition woken_if (b : bool) (me init i : nat) (p : proc) : proc :=
  if b then woken (Some me) (CProc init) i p else p.

Lemma woken_twice me c i p : woken me c i (woken me c i p) = woken me c i p.
Proof. unfold woken at 2 3. destruct (_ && _) eqn:E; [|unfold woken; by rewrite E]. unfold woken. cbn. by rewrite andb_false_r. Qed.

Lemma woken_w_parent me c i x p : woken me c i (w_parent x p) = w_parent x (woken me c i p).
Proof. unfold woken. cbn. by destruct (_ && _). Qed.

Lemma woken_parent me c i p : p_parent (woken me c i p) = p_parent p.
Proof. unfold woken. by destruct (_ && _). Qed.

Lemma woken_if_parent b me init i p : p_parent (woken_if b me init i p) = p_parent p.
Proof. unfold woken_if. destruct b; [apply woken_parent|done]. Qed.

Lemma has_child_S me l k p :
  l !! k = Some p -> has_child me l (S k) = has_child me l k || bool_decide (p_parent p = Some me).
Proof. intros H. unfold has_child. rewrite (take_S_r _ _ _ H), existsb_app. cbn. by rewrite orb_false_r. Qed.

Lemma reparented_S me init k i p :
  reparented me init (S k) i p = if decide (i = k) then (if bool_decide (p_parent p = Some me) then w_parent init p else p) else reparented me init k i p.
Proof.
  unfold reparented. case_decide as E; [subst; by destruct (Nat.ltb_spec k (S k)); [|lia]|].
  destruct (Nat.ltb_spec i (S k)), (Nat.ltb_spec i k); (done || lia).
Qed.

Lemma reparent_tab me init s u s' :
  length (ps_procs s) = NPROC -> ps_init s = Some init -> reparent me s = Ok u s' ->
  each (fun i p => woken_if (has_child me (ps_procs s) NPROC) me init i (reparented me (Some init) NPROC i p)) (ps_procs s) (ps_procs s') /\
  ps_nextpid s' = ps_nextpid s /\ ps_init s' = ps_init s.
Proof.
  intros Hlen Hin H. set (l := ps_procs s) in *.
  apply (for_each_inv (fun k t => each (fun i p => woken_if (has_child me l k) me init i (reparented me (Some init) k i p)) l (ps_procs t) /\
    ps_nextpid t = ps_nextpid s /\ ps_init t = ps_init s)) in H; [done| |].
  - clear H. intros k t t' Hk E (He & Hn & Hi). minv. match goal with H : ps_procs t !! k = Some ?q |- _ => rename H into Hp; rename q into p end.
    destruct (lookup_lt_is_Some_2 l k) as [p0 Hp0]; [lia|].
    assert (p = woken_if (has_child me l k) me init k p0) as ->.
    { rewrite He, Hp0 in Hp. cbn in Hp. unfold reparented in Hp. destruct (Nat.ltb_spec k k); [lia|]. by injection Hp. }
    assert (p_parent (woken_if (has_child me l k) me init k p0) = p_parent p0) as Epar.
    { apply woken_if_parent. }
    rewrite Epar in *. rewrite (has_child_S me l k p0 Hp0).
    destruct (bool_decide (p_parent p0 = Some me)) eqn:Eb.
    + rewrite orb_true_r. minv.
      match goal with H : wakeup _ _ ?x = Ok _ _ |- _ =>
        apply wakeup_tab in H as (Hw & Hwn & Hwi); [|mtab; by rewrite length_alter, (each_length _ _ _ He)] end.
      mtab. rewrite Hin in *. simplify_eq. split; [|split; congruence].
      intros i. rewrite Hw. destruct (decide (i = k)) as [->|Hne].
      * rewrite list_lookup_alter_eq, He, Hp0. cbn. f_equal. rewrite reparented_S, decide_True, Eb by done.
        unfold reparented. destruct (Nat.ltb_spec k k); [lia|]. cbn. rewrite !woken_w_parent. f_equal. unfold woken_if.
        destruct (has_child me l k); [apply woken_twice|done].
      * rewrite list_lookup_alter_ne, He by done. destruct (l !! i); [|done]. cbn. f_equal. rewrite reparented_S, decide_False by done.
        unfold woken_if. destruct (has_child me l k); [apply woken_twice|done].
    + rewrite orb_false_r. minv. split; [|done]. intros i. rewrite He. destruct (l !! i) as [q|] eqn:Ei; [|done]. cbn. f_equal. f_equal.
      rewrite reparented_S. destruct (decide (i = k)) as [->|]; [|done]. rewrite Hp0 in Ei. injection Ei as <-. rewrite Eb. unfold reparented. by rewrite Eb, andb_false_r.
  - split; [|done]. intros i. fold l. unfold has_child, reparented. cbn. by destruct (l !! i).
Qed.

(** The fields the table's invariant is about. *)
Definition same_core (p p' : proc) : Prop :=
  p_state p' = p_state p /\ p_chan p' = p_chan p /\ p_killed p' = p_killed p /\ p_xstate p' = p_xstate p /\
  p_pid p' = p_pid p /\ p_parent p' = p_parent p.

Lemma close_all_tab me s u s' pm :
  ps_procs s !! me = Some pm ->
  for_each (seq 0 NOFILE) (fun fd =>
      p <- at_proc me;;
      match p_ofile p !! fd with
      | Some (Some f) => in_files (f_close f);;; upd me (w_ofile fd None)
      | _ => ret tt
      end) s = Ok u s' ->
  exists pm', same_but s (<[me := pm']> (ps_procs s)) s' /\ same_core pm pm'.
Proof.
  intros Hm H. apply (for_each_inv (fun _ t => exists pm', same_but s (<[me := pm']> (ps_procs s)) t /\ same_core pm pm')) in H; [done| |].
  - clear H. intros k t t' _ E (pm' & Ht & Hc). minv. match goal with H : ps_procs t !! me = Some ?q |- _ => rename H into Hp; rename q into p end.
    pose proof (lookup_lt_Some _ _ _ Hm) as Hlt. assert (p = pm') as ->.
    { destruct Ht as (Ht & _ & _). rewrite Ht, list_lookup_insert_eq in Hp by done. by injection Hp. }
    destruct (p_ofile pm' !! k) as [[f|]|]; [|minv; by exists pm'..]. minv. mtab.
    exists (w_ofile k None pm'). split; [|done]. split_and!; [|done..].
    rewrite (alter_insert _ _ _ pm') by (by apply list_lookup_insert_eq). apply list_insert_insert_eq.
  - exists pm. split; [|done]. split; [|done]. by rewrite list_insert_id.
Qed.

Lemma exit_tab me status s u s' pm init :
  length (ps_procs s) = NPROC -> ps_init s = Some init -> ps_procs s !! me = Some pm -> p_parent pm <> Some me ->
  exit me status s = Ok u s' ->
  exists pm' parent, same_core pm pm' /\ p_parent pm = Some parent /\ init <> me /\
    let l := <[me := pm']> (ps_procs s) in
    (forall i, ps_procs s' !! i = (if decide (i = me) then (w_state ZOMBIE ∘ w_xstate status) else id) <$>
       (woken (Some me) (CProc parent) i <$>
         ((fun p => woken_if (has_child me l NPROC) me init i (reparented me (Some init) NPROC i p)) <$> l !! i))) /\
    ps_nextpid s' = ps_nextpid s /\ ps_init s' = ps_init s.
Proof.
  intros Hlen Hin Hm Hself H. unfold exit in H. apply bind_ok_inv in H as (? & ? & [-> ->]%gets_inv & H). rewrite Hin in H.
  case_bool_decide as Ei; [done|]. pose proof (lookup_lt_Some _ _ _ Hm) as Hlt.
  apply bind_ok_inv in H as (? & s1 & E1 & H). apply (close_all_tab _ _ _ _ pm Hm) in E1 as (pm1 & T1 & C1).
  apply bind_ok_inv in H as (p1 & ? & [Hp1 ->]%at_proc_inv & H).
  apply bind_ok_inv in H as (d & ? & [_ ->]%from_opt_inv & H).
  apply bind_ok_inv in H as (? & s2 & T2%in_files_inv & H).
  apply bind_ok_inv in H as (? & s3 & T3%upd_inv & H).
  apply bind_ok_inv in H as (? & s4 & E4 & H).
  assert (p1 = pm1) as -> by (destruct T1 as (T1 & _); rewrite T1, list_lookup_insert_eq in Hp1 by done; by injection Hp1).
  set (pm' := w_cwd None pm1). assert (same_but s (<[me := pm']> (ps_procs s)) s3) as T03.
  { mtab. split_and!; [|done..]. rewrite (alter_insert _ _ _ pm1) by (by apply list_lookup_insert_eq). apply list_insert_insert_eq. }
  clear T2 T3 Hp1. destruct T03 as (T3 & N3 & I3).
  apply (reparent_tab me init) in E4 as (E4 & N4 & I4); [|by rewrite T3, length_insert|by rewrite I3]. rewrite T3 in E4.
  apply bind_ok_inv in H as (p4 & ? & [Hp4 ->]%at_proc_inv & H).
  apply bind_ok_inv in H as (parent & ? & [Hpar ->]%from_opt_inv & H).
  apply bind_ok_inv in H as (? & s5 & E5 & H).
  apply wakeup_tab in E5 as (E5 & N5 & I5); [|by rewrite (each_length _ _ _ E4), length_insert].
  apply bind_ok_inv in H as (? & s6 & T6%upd_inv & H). apply bind_ok_inv in H as (? & s7 & T7%upd_inv & H).
  unfold sched in H. apply bind_ok_inv in H as (p7 & ? & [Hp7 ->]%at_proc_inv & H).
  assert (s' = s7) as -> by (case_bool_decide; [done|by injection H as _ <-]).
  exists pm', parent. split; [done|]. assert (p_parent pm = Some parent) as Hparent.
  { rewrite E4, list_lookup_insert_eq in Hp4 by done. cbn in Hp4. injection Hp4 as <-. destruct C1 as (_ & _ & _ & _ & _ & C1). rewrite <- C1.
    rewrite woken_if_parent in Hpar. rename Hpar into Hr. unfold reparented in Hr. rewrite (bool_decide_false (p_parent pm' = Some me)) in Hr by (cbn; by rewrite C1).
    by rewrite andb_false_r in Hr. }
  split; [done|]. split; [congruence|]. split; [|mtab; split; congruence].
  intros i. destruct T7 as (-> & _), T6 as (-> & _). rewrite alter_alter_list. destruct (decide (i = me)) as [->|Ed].
  - rewrite list_lookup_alter_eq, E5, E4. done.
  - rewrite list_lookup_alter_ne, E5, E4 by done. by destruct (<[me := pm']> (ps_procs s) !! i).
Qed.

(** ** [fork] *)

Lemma dup_all_tab np (ofile : list (option nat)) s u s' q :
  ps_procs s !! np = Some q ->
  for_each (seq 0 NOFILE) (fun i =>
      match ofile !! i with
      | Some (Some f) => f <- in_files (f_dup f);; upd np (w_ofile i (Some f))
      | _ => ret tt
      end) s = Ok u s' ->
  exists q', same_but s (<[np := q']> (ps_procs s)) s' /\ same_core q q'.
Proof.
  intros Hq H. apply (for_each_inv (fun _ t => exists q', same_but s (<[np := q']> (ps_procs s)) t /\ same_core q q')) in H; [done| |].
  - clear H. intros k t t' _ E (q' & Ht & Hc). pose proof (lookup_lt_Some _ _ _ Hq) as Hlt.
    destruct (ofile !! k) as [[f|]|]; [|minv; by exists q'..]. minv. mtab.
    eexists. split; [split_and!; [|done..]; rewrite (alter_insert _ _ _ q') by (by apply list_lookup_insert_eq); apply list_insert_insert_eq|done].
  - exists q. split; [|done]. split; [|done]. by rewrite list_insert_id.
Qed.

Lemma fork_tab me s r s' :
  fork kend trampoline forkret me s = Ok r s' ->
  ps_init s' = ps_init s /\
  (r = -1 /\ ps_procs s' = ps_procs s /\ ps_nextpid s' = ps_nextpid s \/
   exists i p p', find_unused (ps_procs s) = Some i /\ ps_procs s !! i = Some p /\ ps_procs s' = <[i := p']> (ps_procs s) /\
     ps_nextpid s' = ps_nextpid s + 1 /\
     (r = -1 /\ p_state p' = UNUSED /\ p_pid p' = 0 /\ p_parent p' = None \/
      r = ps_nextpid s /\ p_state p' = RUNNABLE /\ p_pid p' = r /\ p_parent p' = Some me /\ p_chan p' = p_chan p /\ p_killed p' = p_killed p)).
Proof.
  unfold fork. intros H. apply bind_ok_inv in H as (o & s1 & E1%allocproc_tab & H).
  destruct E1 as (I1 & [(-> & P1 & N1 & _)|(i & p & Hf & Hi & N1 & _ & [(-> & P1)|(-> & p' & P1 & B)])]).
  - minv. split; [done|]. by left.
  - minv. split; [done|]. right. exists i, p, (freed p). split_and!; try done; [by rewrite <- (alter_insert freed _ _ _ Hi)|]. by left.
  - pose proof (lookup_lt_Some _ _ _ Hi) as Hlt. apply bind_ok_inv in H as (pm & ? & [Hm ->]%at_proc_inv & H).
    apply bind_ok_inv in H as (q & ? & [Hq ->]%at_proc_inv & H). rewrite P1, list_lookup_insert_eq in Hq by done. injection Hq as <-.
    apply bind_ok_inv in H as (c & s2 & T2%in_mem_inv & H). destruct (c <? 0).
    + minv. match goal with H : freeproc _ _ _ = Ok _ _ |- _ => apply freeproc_tab in H end. mtab. split; [congruence|]. right.
      exists i, p, (freed p'). split_and!; try done; [|by left].
      rewrite (alter_insert _ _ _ p') by (by apply list_lookup_insert_eq). by rewrite list_insert_insert_eq.
    + apply bind_ok_inv in H as (? & s3 & T3%upd_inv & H). apply bind_ok_inv in H as (? & s4 & T4%in_mem_inv & H).
      apply bind_ok_inv in H as (? & s5 & E5 & H). unfold tf_set in E5. apply bind_ok_inv in E5 as (? & ? & [_ ->]%at_proc_inv & T5%in_mem_inv).
      apply bind_ok_inv in H as (? & s6 & E6 & H).
      assert (same_but s1 (<[i := w_sz (p_sz pm) p']> (ps_procs s)) s5) as T15.
      { mtab. split_and!; try done. rewrite (alter_insert _ _ _ p') by (by apply list_lookup_insert_eq). by rewrite list_insert_insert_eq. }
      apply (dup_all_tab i _ _ _ _ (w_sz (p_sz pm) p')) in E6 as (q6 & T6 & C6); [|destruct T15 as (-> & _); by apply list_lookup_insert_eq].
      minv. destruct T15 as (P5 & N5 & I5). rewrite P5, list_insert_insert_eq in T6. destruct T6 as (P6 & N6 & I6). clear P5 T3 T4 T5 T2. mtab.
      rewrite !alter_alter_list in *.
      match goal with H : alter _ i _ !! i = Some _ |- _ => rewrite list_lookup_alter_eq, list_lookup_insert_eq in H by done; injection H as <- end.
      split; [congruence|]. right. destruct B as (_ & _ & Bp & _ & Bc & Bk & _). destruct C6 as (_ & Cc & Ck & _ & Cp & _). cbn in *.
      eexists i, p, _. split; [done|]. split; [done|]. split.
      { rewrite (alter_insert _ _ _ q6) by (by apply list_lookup_insert_eq). by rewrite list_insert_insert_eq. }
      split; [congruence|]. right. cbn. split_and!; congruence.
Qed.

(** ** [wait], [kill] and the rest *)

Lemma if_copy_inv (b : bool) (m : M kst Z) s r s' : (if b then ret 0 else in_mem m) s = Ok r s' -> same_but s (ps_procs s) s'.
Proof. destruct b; [|apply in_mem_inv]. by intros [= <- <-]. Qed.

(** A pass of [wait] over the entries [ks]: it stops at the first child that
    has exited, and frees its entry if the status could be stored. *)
Lemma wait_scan_tab me addr ks hk s r s' :
  wait_scan kend me addr ks hk s = Ok r s' ->
  match r with
  | inl r => exists i p, i ∈ ks /\ ps_procs s !! i = Some p /\ p_parent p = Some me /\ p_state p = ZOMBIE /\
      (r = -1 /\ addr <> 0 /\ same_but s (ps_procs s) s' \/ r = p_pid p /\ same_but s (<[i := freed p]> (ps_procs s)) s')
  | inr hk' => same_but s (ps_procs s) s' /\
      (forall i p, i ∈ ks -> ps_procs s !! i = Some p -> p_parent p = Some me -> p_state p <> ZOMBIE) /\
      (hk' = true <-> hk = true \/ exists i p, i ∈ ks /\ ps_procs s !! i = Some p /\ p_parent p = Some me)
  end.
Proof.
  revert hk s. induction ks as [|k ks IH]; intros hk s H; cbn [wait_scan] in H.
  { minv. split; [done|]. split; [by intros ? ? ?%elem_of_nil|]. split; [by left|]. by intros [|(? & ? & ?%elem_of_nil & _)]. }
  apply bind_ok_inv in H as (p & ? & [Hk ->]%at_proc_inv & H). case_bool_decide as Ep.
  - case_bool_decide as Ez.
    + apply bind_ok_inv in H as (pm & ? & [_ ->]%at_proc_inv & H). apply bind_ok_inv in H as (c & s1 & E1 & H).
      pose proof (if_copy_inv _ _ _ _ _ E1) as T1.
      destruct (Z.ltb_spec c 0); minv; exists k, p; (split; [by left|]); split_and!; try done; [left|right].
      { split_and!; try done. intros ->. apply ret_inv in E1. lia. }
      match goal with H : freeproc _ _ _ = Ok _ _ |- _ => apply freeproc_tab in H end. mtab. split_and!; try done. by apply alter_insert.
    + apply IH in H. destruct r as [r|hk'].
      * destruct H as (i & q & Hi & H). exists i, q. split; [by right|done].
      * destruct H as (T & Hno & Hex). split; [done|]. split.
        -- intros i q [->|Hi]%elem_of_cons Hq Hp; [congruence|eauto].
        -- split; [|by intros _; apply Hex; left]. intros _. right. exists k, p. split; [by left|done].
  - apply IH in H. destruct r as [r|hk'].
    + destruct H as (i & q & Hi & H). exists i, q. split; [by right|done].
    + destruct H as (T & Hno & Hex). split; [done|]. split.
      * intros i q [->|Hi]%elem_of_cons Hq Hp; [congruence|eauto].
      * rewrite Hex. split; (intros [|(i & q & Hi & Hq & Hp)]; [by left|right]); [exists i, q; split; [by right|done]|].
        apply elem_of_cons in Hi as [->|Hi]; [congruence|eauto].
Qed.

Lemma sched_inv me s u s' : sched me s = Ok u s' -> s' = s.
Proof. unfold sched. intros H. minv. case_bool_decide; [done|]. by injection H0 as _ <-. Qed.

Lemma in_table l i p : length l = NPROC -> l !! i = Some p -> i ∈ seq 0 NPROC.
Proof. intros Hlen Hi%lookup_lt_Some. rewrite Hlen in Hi. apply elem_of_seq. split; [apply Nat.le_0_l|exact Hi]. Qed.

Lemma sleep_tab me c s u s' pm :
  ps_procs s !! me = Some pm -> sleep me c s = Ok u s' -> same_but s (<[me := w_state SLEEPING (w_chan (Some c) pm)]> (ps_procs s)) s'.
Proof.
  intros Hm. unfold sleep. intros H. apply bind_ok_inv in H as (? & s2 & T2%upd_inv & H).
  apply bind_ok_inv in H as (? & s3 & T3%upd_inv & ->%sched_inv). mtab. split_and!; try done.
  rewrite alter_alter_list. by rewrite (alter_insert _ _ _ _ Hm).
Qed.

(** [wait] returns [-1] for want of children, when killed or when the status
    cannot be stored; it reaps a child; or it goes to sleep, with children none
    of which has exited. *)
Lemma wait_tab me addr s r s' pm :
  length (ps_procs s) = NPROC -> ps_procs s !! me = Some pm -> wait kend me addr s = Ok r s' ->
  (r = WReturn (-1) /\ same_but s (ps_procs s) s' /\
     (addr <> 0 \/
      (forall i p, ps_procs s !! i = Some p -> p_parent p = Some me -> p_state p <> ZOMBIE) /\
      (p_killed pm = true \/ forall i p, ps_procs s !! i = Some p -> p_parent p <> Some me)) \/
   exists i p, ps_procs s !! i = Some p /\ p_parent p = Some me /\ p_state p = ZOMBIE /\
     r = WReturn (p_pid p) /\ same_but s (<[i := freed p]> (ps_procs s)) s') \/
  r = WSleep /\ same_but s (<[me := w_state SLEEPING (w_chan (Some (CProc me)) pm)]> (ps_procs s)) s' /\
    (exists i p, ps_procs s !! i = Some p /\ p_parent p = Some me) /\
    (forall i p, ps_procs s !! i = Some p -> p_parent p = Some me -> p_state p <> ZOMBIE).
Proof.
  intros Hlen Hm. unfold wait. intros H. apply bind_ok_inv in H as (x & s1 & E%wait_scan_tab & H). destruct x as [x|hk].
  - destruct E as (i & p & _ & Hi & Hp & Hz & E). minv. left. destruct E as [(-> & ? & E)|[-> E]]; [left|right; eauto 10].
    split_and!; [done..|by left].
  - destruct E as (T & Hno & Hex). apply bind_ok_inv in H as (p & ? & [Hp ->]%at_proc_inv & H).
    assert (p = pm) as -> by (destruct T as (T & _); rewrite T, Hm in Hp; by injection Hp).
    assert (forall i p, ps_procs s !! i = Some p -> p_parent p = Some me -> p_state p <> ZOMBIE) as Hno'.
    { intros j qj Hj. apply (Hno j); [by apply (in_table _ _ _ Hlen Hj)|done]. }
    destruct (negb hk || p_killed pm) eqn:Eb.
    { minv. do 2 left. split_and!; [done..|]. right. split; [done|]. apply orb_true_iff in Eb as [Eh%negb_true_iff|]; [right|by left].
      intros i q Hi Hq. apply not_true_iff_false in Eh. apply Eh, Hex. right. exists i, q. split; [by apply (in_table _ _ _ Hlen Hi)|done]. }
    apply orb_false_iff in Eb as [Eh%negb_false_iff _]. right.
    apply Hex in Eh as [|(i & q & _ & Hq & Hqp)]; [done|]. apply bind_ok_inv in H as (? & s2 & E2 & H).
    destruct T as (T & N & I). apply (sleep_tab _ _ _ _ _ pm) in E2; [|by rewrite T]. apply ret_inv in H as [-> ->].
    split; [done|]. split; [unfold same_but in *; by rewrite T, N, I in E2|]. split; [by exists i, q|done].
Qed.

Definition killed_entry (p : proc) : proc :=
  if bool_decide (p_state p = SLEEPING) then w_state RUNNABLE (w_killed true p) else w_killed true p.

Lemma kill_tab pid s r s' :
  kill pid s = Ok r s' ->
  r = -1 /\ s' = s \/ exists i p, ps_procs s !! i = Some p /\ p_pid p = pid /\ r = 0 /\ same_but s (<[i := killed_entry p]> (ps_procs s)) s'.
Proof.
  unfold kill. intros H. apply bind_ok_inv in H as (o & s1 & E & [-> ->]%ret_inv). revert E. generalize (seq 0 NPROC). intros ks. revert s.
  induction ks as [|k ks IH]; intros s E; cbn [for_until] in E; [minv; by left|].
  apply bind_ok_inv in E as (o1 & s2 & E1 & E). apply bind_ok_inv in E1 as (p & ? & [Hk ->]%at_proc_inv & E1).
  destruct (Z.eqb_spec (p_pid p) pid) as [Ep|]; [|apply ret_inv in E1 as [-> ->]; by apply IH].
  apply bind_ok_inv in E1 as (? & s3 & T3%upd_inv & E1). apply bind_ok_inv in E1 as (? & s4 & E4 & E1).
  apply ret_inv in E1 as [-> ->]. apply ret_inv in E as [-> ->]. right. exists k, p. split_and!; try done. unfold killed_entry. case_bool_decide; minv; mtab; split_and!; try done.
  - rewrite alter_alter_list. by rewrite (alter_insert _ _ _ _ Hk).
  - by apply alter_insert.
Qed.

Lemma growproc_tab me n s r s' pm :
  ps_procs s !! me = Some pm -> growproc kend me n s = Ok r s' ->
  exists sz, same_but s (<[me := w_sz sz pm]> (ps_procs s)) s'.
Proof.
  intros Hm H. assert (w_sz (p_sz pm) pm = pm) as Hid by (by destruct pm).
  unfold growproc in H. apply bind_ok_inv in H as (p & ? & [Hp ->]%at_proc_inv & H). rewrite Hm in Hp. injection Hp as <-.
  destruct (0 <? n); [|destruct (n <? 0)]; apply bind_ok_inv in H as (x & s1 & H1 & H); [apply in_mem_inv in H1| |apply upd_inv in H1; minv].
  - destruct (x =? 0); minv; mtab.
    + exists (p_sz pm). rewrite Hid, list_insert_id by done. done.
    + eexists. split_and!; [by apply alter_insert|done..].
  - apply in_mem_inv in H1. minv. mtab. eexists. split_and!; [by apply alter_insert|done..].
  - mtab. eexists. split_and!; [by apply alter_insert|done..].
Qed.

Lemma userinit_tab s u s' :
  userinit kend trampoline forkret s = Ok u s' ->
  exists i p p', ps_procs s !! i = Some p /\ p_state p = UNUSED /\ ps_procs s' = <[i := p']> (ps_procs s) /\ ps_init s' = Some i /\
    ps_nextpid s' = ps_nextpid s + 1 /\ p_state p' = RUNNABLE /\ p_pid p' = ps_nextpid s /\ p_parent p' = p_parent p.
Proof.
  unfold userinit, tf_set. intros H. apply bind_ok_inv in H as (o & s1 & E1%allocproc_tab & H).
  apply bind_ok_inv in H as (? & s2 & E2 & H). injection E2 as _ <-. destruct o as [i|]; [|done].
  destruct E1 as (_ & [(? & _)|(k & p & _ & Hk & N1 & _ & [(? & _)|([= ->] & p' & P1 & B)])]); [done..|].
  pose proof (lookup_lt_Some _ _ _ Hk) as Hlt. destruct B as (B1 & B2 & B3 & B4 & _). minv. mtab. cbn in *. mtab.
  rewrite !alter_alter_list, (alter_insert _ _ _ p'), list_insert_insert_eq by (by apply list_lookup_insert_eq).
  eexists k, p, _. do 2 (split; [done|]). split; [reflexivity|]. done.
Qed.
End specs.
