(* ===== verification/ProcMachine.v ===== *)
(** * Processes: the table as the CPUs change it

    The kernel's CPUs each run a process or the scheduler, and the functions of
    proc.c run to the point where they return or switch to the scheduler, with
    the locks they hold making each such stretch one step. The invariant is what
    the table satisfies between steps. *)

From S2P Require Import Prelude CString Mem Kalloc Vm Proc ProcSpec.

(** An entry in use whose process has not exited. *)
Definition alive (p : proc) : Prop := p_state p <> UNUSED /\ p_state p <> ZOMBIE.

Definition no_zombie_child (l : list proc) (i : nat) : Prop :=
  forall j q, l !! j = Some q -> p_parent q = Some i -> p_state q <> ZOMBIE.

Record tinv (l : list proc) (next : Z) (init : nat) : Prop := mkTinv {
  ti_len : length l = NPROC;
  ti_next : 0 < next;
  ti_unused : forall i p, l !! i = Some p -> p_state p = UNUSED -> p_pid p = 0 /\ p_parent p = None;
  ti_pid : forall i p, l !! i = Some p -> p_state p <> UNUSED -> 0 < p_pid p < next;
  ti_uniq : forall i j p q, l !! i = Some p -> l !! j = Some q -> p_state p <> UNUSED -> p_pid p = p_pid q -> i = j;
  ti_used : forall i p, l !! i = Some p -> p_state p <> USED;
  ti_init : exists p, l !! init = Some p /\ alive p /\ p_parent p = None;
  (** Every process but the first has a parent that can still wait for it. *)
  ti_parent : forall i p, l !! i = Some p -> p_state p <> UNUSED -> i <> init ->
    exists k q, p_parent p = Some k /\ l !! k = Some q /\ alive q /\ k <> i;
  (** Nobody sleeps in [wait] while one of its children has exited. *)
  ti_sleep : forall i k p, l !! i = Some p -> p_state p = SLEEPING -> p_chan p = Some (CProc k) ->
    k = i /\ no_zombie_child l i
}.

(** [p'] in place of [p] changes neither its identity nor its place in the
    tree, nor whether it is in use or has exited. *)
Definition keeps (p p' : proc) : Prop :=
  p_pid p' = p_pid p /\ p_parent p' = p_parent p /\ (p_state p' = UNUSED <-> p_state p = UNUSED) /\
  (p_state p' = ZOMBIE <-> p_state p = ZOMBIE) /\ (p_state p <> USED -> p_state p' <> USED).

Lemma keeps_refl p : keeps p p.
Proof. by split_and!. Qed.

Lemma keeps_alive p p' : keeps p p' -> alive p <-> alive p'.
Proof. unfold keeps, alive. tauto. Qed.

Lemma insert_cases (i : nat) (p' : proc) (l : list proc) j q :
  <[i := p']> l !! j = Some q -> j = i /\ q = p' \/ j <> i /\ l !! j = Some q.
Proof. intros [(-> & -> & _)|[? ?]]%list_lookup_insert_Some; [by left|by right]. Qed.

Section table.
Context (l : list proc) (next : Z) (init : nat).
Hypothesis inv : tinv l next init.

Lemma tinv_keeps l' :
  length l' = length l ->
  (forall i p, l !! i = Some p -> exists p', l' !! i = Some p' /\ keeps p p' /\
     forall k, p_state p' = SLEEPING -> p_chan p' = Some (CProc k) ->
       p_state p = SLEEPING /\ p_chan p = p_chan p' \/ k = i /\ no_zombie_child l i) ->
  tinv l' next init.
Proof.
  intros Hlen Hk. assert (forall i p', l' !! i = Some p' -> exists p, l !! i = Some p /\ keeps p p' /\
     forall k, p_state p' = SLEEPING -> p_chan p' = Some (CProc k) ->
       p_state p = SLEEPING /\ p_chan p = p_chan p' \/ k = i /\ no_zombie_child l i) as Hb.
  { intros i p' Hi. destruct (lookup_lt_is_Some_2 l i) as [p Hp]; [rewrite <- Hlen; by eapply lookup_lt_Some|].
    destruct (Hk i p Hp) as (? & Hi' & ?). exists p. split; [done|]. by simplify_eq. }
  assert (forall i, no_zombie_child l i -> no_zombie_child l' i) as Hz.
  { intros i Hn j q' Hj Hq'. destruct (Hb j q' Hj) as (q & Hq & (_ & Kp & _ & Kz & _) & _). rewrite Kz. eapply Hn; [done|congruence]. }
  split.
  - rewrite Hlen. apply inv.
  - apply inv.
  - intros i p' Hi Hs. destruct (Hb i p' Hi) as (p & Hp & (Kd & Kp & Ku & _) & _). rewrite Kd, Kp. apply (ti_unused _ _ _ inv i p Hp). by apply Ku.
  - intros i p' Hi Hs. destruct (Hb i p' Hi) as (p & Hp & (Kd & Kp & Ku & _) & _). rewrite Kd. apply (ti_pid _ _ _ inv i p Hp). by rewrite <- Ku.
  - intros i j p' q' Hi Hj Hs Heq. destruct (Hb i p' Hi) as (p & Hp & (Kd & _ & Ku & _) & _), (Hb j q' Hj) as (q & Hq & (Ld & _) & _).
    eapply (ti_uniq _ _ _ inv i j p q); [done..|by rewrite <- Ku|congruence].
  - intros i p' Hi. destruct (Hb i p' Hi) as (p & Hp & (_ & _ & _ & _ & Kx) & _). apply Kx. by eapply ti_used.
  - destruct (ti_init _ _ _ inv) as (p & Hp & Ha & Hn). destruct (Hk _ _ Hp) as (p' & Hp' & K & _). exists p'. split; [done|].
    split; [by apply (keeps_alive p)|]. destruct K as (_ & -> & _). done.
  - intros i p' Hi Hs Hne. destruct (Hb i p' Hi) as (p & Hp & (_ & Kp & Ku & _) & _). rewrite Ku in Hs.
    destruct (ti_parent _ _ _ inv i p Hp Hs Hne) as (k & q & Hpar & Hq & Ha & Hki). destruct (Hk _ _ Hq) as (q' & Hq' & K & _).
    exists k, q'. rewrite Kp. split_and!; try done. by apply (keeps_alive q).
  - intros i k p' Hi Hs Hc. destruct (Hb i p' Hi) as (p & Hp & _ & Hsl). destruct (Hsl k Hs Hc) as [[Hs0 Hc0]|[-> Hn]]; [|auto].
    rewrite <- Hc0 in Hc. destruct (ti_sleep _ _ _ inv i k p Hp Hs0 Hc) as [-> Hn]. auto.
Qed.

Lemma tinv_upd i p p' :
  l !! i = Some p -> keeps p p' ->
  (forall k, p_state p' = SLEEPING -> p_chan p' = Some (CProc k) ->
     p_state p = SLEEPING /\ p_chan p = p_chan p' \/ k = i /\ no_zombie_child l i) ->
  tinv (<[i := p']> l) next init.
Proof.
  intros Hi K Hs. apply tinv_keeps; [apply length_insert|]. intros j q Hq. destruct (decide (j = i)) as [->|Hne].
  - rewrite Hi in Hq. injection Hq as <-. exists p'. split; [apply list_lookup_insert_eq; by eapply lookup_lt_Some|done].
  - exists q. rewrite list_lookup_insert_ne by done. split_and!; [done|apply keeps_refl|by left].
Qed.

Lemma tinv_each f l' :
  each f l l' -> (forall i p, keeps p (f i p) /\ p_chan (f i p) = p_chan p /\ (p_state (f i p) = SLEEPING -> p_state p = SLEEPING)) ->
  tinv l' next init.
Proof.
  intros He Hf. apply tinv_keeps; [by apply (each_length f)|]. intros i p Hp. destruct (Hf i p) as (K & Hc & Hs).
  exists (f i p). split; [by rewrite He, Hp|]. split; [done|]. intros k Hk _. left. auto.
Qed.

(** An entry nobody's process is the child of, freed. *)
Lemma tinv_free i p p' :
  l !! i = Some p -> ~ alive p -> i <> init -> p_state p' = UNUSED -> p_pid p' = 0 -> p_parent p' = None ->
  forall next', next <= next' -> tinv (<[i := p']> l) next' init.
Proof.
  intros Hi Ha Hin Hu Hd Hpar next' Hnx. pose proof (lookup_lt_Some _ _ _ Hi) as Hlt.
  pose proof (insert_cases i p' l) as Hb.
  split.
  - rewrite length_insert. apply inv.
  - pose proof (ti_next _ _ _ inv). lia.
  - intros j q [[-> ->]|[_ Hq]]%Hb Hs; [done|by apply (ti_unused _ _ _ inv j q)].
  - intros j q [[-> ->]|[_ Hq]]%Hb Hs; [done|]. pose proof (ti_pid _ _ _ inv j q Hq Hs). lia.
  - intros j k q r Hj Hk Hs He. apply Hb in Hj as [[-> ->]|[Hj Hq]]; [done|]. apply Hb in Hk as [[-> ->]|[Hk Hr]].
    + pose proof (ti_pid _ _ _ inv j q Hq Hs). lia.
    + by apply (ti_uniq _ _ _ inv j k q r).
  - intros j q [[-> ->]|[_ Hq]]%Hb; [congruence|by apply (ti_used _ _ _ inv j q)].
  - destruct (ti_init _ _ _ inv) as (q & Hq & ?). exists q. by rewrite list_lookup_insert_ne.
  - intros j q [[-> ->]|[_ Hq]]%Hb Hs Hne; [done|]. destruct (ti_parent _ _ _ inv j q Hq Hs Hne) as (k & r & ? & Hr & Har & ?).
    exists k, r. split_and!; try done. rewrite list_lookup_insert_ne; [done|]. intros ->. congruence.
  - intros j k q [[-> ->]|[_ Hq]]%Hb Hs Hc; [congruence|]. destruct (ti_sleep _ _ _ inv j k q Hq Hs Hc) as [-> Hn]. split; [done|].
    intros m r [[-> ->]|[_ Hr]]%Hb; [congruence|exact (Hn m r Hr)].
Qed.

(** A new process, the child of a running one. *)
Lemma tinv_born i p p' me pm :
  l !! i = Some p -> p_state p = UNUSED -> l !! me = Some pm -> alive pm ->
  p_state p' = RUNNABLE -> p_pid p' = next -> p_parent p' = Some me ->
  tinv (<[i := p']> l) (next + 1) init.
Proof.
  intros Hi Hu Hm Hma Hs' Hd Hpar. pose proof (lookup_lt_Some _ _ _ Hi) as Hlt.
  assert (i <> me) as Him by (intros ->; destruct Hma; congruence).
  pose proof (insert_cases i p' l) as Hb.
  pose proof (ti_next _ _ _ inv) as Hnx. split.
  - rewrite length_insert. apply inv.
  - lia.
  - intros j q [[-> ->]|[_ Hq]]%Hb Hs; [congruence|by apply (ti_unused _ _ _ inv j q)].
  - intros j q [[-> ->]|[_ Hq]]%Hb Hs; [lia|]. pose proof (ti_pid _ _ _ inv j q Hq Hs). lia.
  - assert (forall j q, l !! j = Some q -> p_pid q <> next) as Hfresh.
    { intros j q Hq. destruct (decide (p_state q = UNUSED)) as [E|E]; [destruct (ti_unused _ _ _ inv j q Hq E); lia|].
      pose proof (ti_pid _ _ _ inv j q Hq E). lia. }
    intros j k q r Hj Hk Hs He. apply Hb in Hj as [[-> ->]|[Hj Hq]], Hk as [[-> ->]|[Hk Hr]]; [done| | |by apply (ti_uniq _ _ _ inv j k q r)].
    + exfalso. apply (Hfresh k r Hr). congruence.
    + exfalso. apply (Hfresh j q Hq). congruence.
  - intros j q [[-> ->]|[_ Hq]]%Hb; [congruence|by apply (ti_used _ _ _ inv j q)].
  - destruct (ti_init _ _ _ inv) as (q & Hq & Ha & ?). exists q. rewrite list_lookup_insert_ne; [done|]. intros ->. destruct Ha. congruence.
  - intros j q [[-> ->]|[Hj Hq]]%Hb Hs Hne.
    + exists me, pm. split_and!; try done. by rewrite list_lookup_insert_ne.
    + destruct (ti_parent _ _ _ inv j q Hq Hs Hne) as (k & r & ? & Hr & Har & ?).
      exists k, r. split_and!; try done. rewrite list_lookup_insert_ne; [done|]. intros ->. destruct Har. congruence.
  - intros j k q [[-> ->]|[_ Hq]]%Hb Hs Hc; [congruence|]. destruct (ti_sleep _ _ _ inv j k q Hq Hs Hc) as [-> Hn]. split; [done|].
    intros m r [[-> ->]|[_ Hr]]%Hb; [congruence|exact (Hn m r Hr)].
Qed.
End table.

(** ** Exit *)

(** What [exit] makes of an entry that is not the caller's. *)
Definition left_by (b : bool) (me init parent i : nat) (p : proc) : proc :=
  woken (Some me) (CProc parent) i (woken_if b me init i (reparented me (Some init) NPROC i p)).

Lemma woken_keeps me c i p : keeps p (woken me c i p).
Proof.
  unfold woken. destruct (bool_decide _ && bool_decide (p_state p = SLEEPING) && _) eqn:E; [|apply keeps_refl].
  apply andb_true_iff in E as [[_ E%bool_decide_eq_true]%andb_true_iff _]. unfold keeps. cbn. rewrite E. by split_and!.
Qed.

Lemma woken_chan me c i p : p_chan (woken me c i p) = p_chan p.
Proof. unfold woken. by destruct (_ && _). Qed.

Lemma woken_sleeping me c i p :
  p_state (woken me c i p) = SLEEPING -> p_state p = SLEEPING /\ (p_chan p = Some c -> Some i = me).
Proof.
  unfold woken. destruct (bool_decide (Some i <> me)) eqn:E1; [|split; [done|]; intros _; apply bool_decide_eq_false in E1; by apply dec_stable].
  destruct (bool_decide (p_state p = SLEEPING)) eqn:E2; [|by apply bool_decide_eq_false in E2].
  destruct (bool_decide (p_chan p = Some c)) eqn:E3; [done|]. by apply bool_decide_eq_false in E3.
Qed.

Lemma woken_running me c i p : p_state (woken me c i p) = RUNNING <-> p_state p = RUNNING.
Proof.
  unfold woken. destruct (bool_decide _ && bool_decide (p_state p = SLEEPING) && _) eqn:E; [|done].
  apply andb_true_iff in E as [[_ E%bool_decide_eq_true]%andb_true_iff _]. cbn. by rewrite E.
Qed.

Lemma woken_xstate me c i p : p_xstate (woken me c i p) = p_xstate p.
Proof. unfold woken. by destruct (_ && _). Qed.

Lemma left_by_keeps b me init parent i p :
  (i < NPROC)%nat -> let q := left_by b me init parent i p in
  p_pid q = p_pid p /\ p_parent q = (if bool_decide (p_parent p = Some me) then Some init else p_parent p) /\
  (p_state q = UNUSED <-> p_state p = UNUSED) /\ (p_state q = ZOMBIE <-> p_state p = ZOMBIE) /\ (p_state p <> USED -> p_state q <> USED) /\
  (p_state q = RUNNING <-> p_state p = RUNNING) /\ p_xstate q = p_xstate p.
Proof.
  intros Hi. unfold left_by. set (r := reparented me (Some init) NPROC i p).
  assert (keeps r (woken_if b me init i r)) as (K1 & K2 & K3 & K4 & K5) by (unfold woken_if; destruct b; [apply woken_keeps|apply keeps_refl]).
  destruct (woken_keeps (Some me) (CProc parent) i (woken_if b me init i r)) as (L1 & L2 & L3 & L4 & L5).
  cbn zeta. rewrite L1, L2, L3, L4, K1, K2, K3, K4, woken_running, woken_xstate.
  replace (p_xstate (woken_if b me init i r)) with (p_xstate r) by (unfold woken_if; destruct b; [by rewrite woken_xstate|done]).
  assert (p_state (woken_if b me init i r) = RUNNING <-> p_state r = RUNNING) as -> by (unfold woken_if; destruct b; [by rewrite woken_running|done]).
  unfold r, reparented in *. apply Nat.ltb_lt in Hi. rewrite Hi in *. cbn [andb] in *.
  destruct (bool_decide (p_parent p = Some me)); cbn in *; tauto.
Qed.

Lemma left_by_sleeping b me init parent i p :
  let q := left_by b me init parent i p in
  p_chan q = p_chan p /\
  (p_state q = SLEEPING -> p_state p = SLEEPING /\ (p_chan p = Some (CProc parent) -> i = me) /\ (b = true -> p_chan p = Some (CProc init) -> i = me)).
Proof.
  unfold left_by. set (r := reparented me (Some init) NPROC i p). cbn zeta.
  assert (p_chan r = p_chan p /\ p_state r = p_state p) as [Hc Hs] by (unfold r, reparented; by destruct (_ && _)).
  rewrite woken_chan. unfold woken_if. destruct b.
  - rewrite woken_chan. split; [done|]. intros [[H1 H2]%woken_sleeping H3]%woken_sleeping. rewrite woken_chan in H3. rewrite Hc in H2, H3. rewrite Hs in H1.
    split; [done|]. split; [intros E%H3; by injection E|intros _ E%H2; by injection E].
  - split; [done|]. intros [H1 H3]%woken_sleeping. rewrite Hc in H3. rewrite Hs in H1. split; [done|]. split; [intros E%H3; by injection E|done].
Qed.

Lemma has_child_true me l : has_child me l (length l) = true <-> exists j q, l !! j = Some q /\ p_parent q = Some me.
Proof.
  unfold has_child. rewrite firstn_all, existsb_exists. split.
  - intros (q & Hq & E%bool_decide_eq_true). apply list_elem_of_In, list_elem_of_lookup in Hq as [j Hj]. eauto.
  - intros (j & q & Hj & E). exists q. split; [apply list_elem_of_In; by eapply list_elem_of_lookup_2|by apply bool_decide_eq_true].
Qed.

Section exits.
Context (l : list proc) (next : Z) (init me parent : nat) (pm : proc) (status : Z).
Hypothesis inv : tinv l next init.
Hypothesis Hm : l !! me = Some pm.
Hypothesis Ha : alive pm.
Hypothesis Hp : p_parent pm = Some parent.
Hypothesis Hne : init <> me.

(** The entries after: the caller's is a zombie, its children are the first
    process's, and neither its parent nor, if there were children, the first
    process sleeps in [wait]. *)
Definition exited (i : nat) (p p' : proc) : Prop :=
  p_pid p' = p_pid p /\ p_parent p' = (if bool_decide (p_parent p = Some me) then Some init else p_parent p) /\
  (p_state p' = UNUSED <-> p_state p = UNUSED) /\ (p_state p' = ZOMBIE <-> p_state p = ZOMBIE \/ i = me) /\ p_state p' <> USED /\
  (p_state p' = RUNNING <-> p_state p = RUNNING /\ i <> me) /\ (i <> me -> p_xstate p' = p_xstate p) /\
  (p_state p' = SLEEPING -> p_state p = SLEEPING /\ p_chan p' = p_chan p /\ p_chan p <> Some (CProc parent) /\
     ((exists j q, l !! j = Some q /\ p_parent q = Some me) -> p_chan p <> Some (CProc init))).

Lemma exited_left_by i p :
  l !! i = Some p ->
  exited i p (let q := left_by (has_child me l NPROC) me init parent i p in if decide (i = me) then w_state ZOMBIE (w_xstate status q) else q).
Proof.
  intros Hi. assert (i < NPROC)%nat as Hlt by (rewrite <- (ti_len _ _ _ inv); by eapply lookup_lt_Some).
  pose proof (left_by_keeps (has_child me l NPROC) me init parent i p Hlt) as (K1 & K2 & K3 & K4 & K5 & K6 & K7).
  pose proof (left_by_sleeping (has_child me l NPROC) me init parent i p) as (L1 & L2).
  pose proof (ti_used _ _ _ inv i p Hi) as Hus. cbn zeta in *. set (q := left_by _ _ _ _ _ _) in *. clearbody q.
  unfold exited. destruct (decide (i = me)) as [->|Hi'].
  - cbn. rewrite K1, K2. rewrite Hm in Hi. injection Hi as <-. destruct Ha. split_and!; try done; naive_solver.
  - rewrite K1, K2. split_and!; try done; [tauto|by apply K5|tauto|]. intros (Hs & Hpa & Hin)%L2. split_and!; try done; [naive_solver|].
    intros Hch%has_child_true. rewrite (ti_len _ _ _ inv) in Hch. naive_solver.
Qed.

Lemma tinv_exit l' :
  length l' = length l -> (forall i p, l !! i = Some p -> exists p', l' !! i = Some p' /\ exited i p p') -> tinv l' next init.
Proof.
  intros Hlen Hf. assert (forall i p', l' !! i = Some p' -> exists p, l !! i = Some p /\ exited i p p') as Hb.
  { intros i p' Hi. destruct (lookup_lt_is_Some_2 l i) as [p E]; [rewrite <- Hlen; by eapply lookup_lt_Some|]. exists p. split; [done|].
    destruct (Hf i p E) as (? & E' & ?). by simplify_eq. }
  assert (forall k q, l !! k = Some q -> alive q -> k <> me -> exists q', l' !! k = Some q' /\ alive q') as Hal.
  { intros k q Hq [Hq1 Hq2] Hk. destruct (Hf k q Hq) as (q' & Hq' & _ & _ & Ku & Kz & _). exists q'. split; [done|]. split; tauto. }
  destruct (ti_init _ _ _ inv) as (pi & Hpi & Hpia & Hpip). split.
  - rewrite Hlen. apply inv.
  - apply inv.
  - intros i p' Hi Hs. destruct (Hb i p' Hi) as (p & E & Kd & Kp & Ku & _). apply Ku in Hs. rewrite Kd, Kp.
    destruct (ti_unused _ _ _ inv i p E Hs) as [-> ->]. by rewrite bool_decide_false.
  - intros i p' Hi Hs. destruct (Hb i p' Hi) as (p & E & Kd & Kp & Ku & _). rewrite Kd. apply (ti_pid _ _ _ inv i p E). by rewrite <- Ku.
  - intros i j p' q' Hi Hj Hs He. destruct (Hb i p' Hi) as (p & E & Kd & _ & Ku & _), (Hb j q' Hj) as (q & E' & Ld & _).
    apply (ti_uniq _ _ _ inv i j p q); [done..|by rewrite <- Ku|congruence].
  - intros i p' Hi. by destruct (Hb i p' Hi) as (p & E & _ & _ & _ & _ & ? & _).
  - destruct (Hal init pi Hpi Hpia Hne) as (pi' & Hpi' & Hpia'). exists pi'. split_and!; [done..|].
    destruct (Hb _ _ Hpi') as (? & E & _ & -> & _). simplify_eq. by rewrite Hpip, bool_decide_false.
  - intros i p' Hi Hs Hin. destruct (Hb i p' Hi) as (p & E & _ & Kp & Ku & _). rewrite Ku in Hs.
    destruct (ti_parent _ _ _ inv i p E Hs Hin) as (k & q & Epar & Hq & Hqa & Hki). rewrite Kp. case_bool_decide as Ek.
    + destruct (Hal init pi Hpi Hpia Hne) as (pi' & ? & ?). exists init, pi'. by split_and!.
    + destruct (Hal k q Hq Hqa) as (q' & ? & ?); [congruence|]. exists k, q'. by split_and!.
  - intros i k p' Hi Hs Hc. destruct (Hb i p' Hi) as (p & E & _ & _ & _ & _ & _ & _ & _ & Ksl). destruct (Ksl Hs) as (Hs0 & Hc0 & Npar & Ninit).
    rewrite Hc0 in Hc. destruct (ti_sleep _ _ _ inv i k p E Hs0 Hc) as [-> Hn]. split; [done|].
    intros j q' Hj Hq'. destruct (Hb j q' Hj) as (q & Eq & _ & Kp & _ & Kz & _). rewrite Kz. rewrite Kp in Hq'.
    case_bool_decide as Ej.
    + injection Hq' as <-. exfalso. apply Ninit; [by exists j, q|done].
    + intros [Hz| ->]; [by apply (Hn j q Eq)|]. simplify_eq.
Qed.
End exits.
