(* ===== verification/ProcClaims.v ===== *)
(** * Processes: runs of the kernel

    The steps of the CPUs from boot on, and what holds of every state they
    reach. *)

From S2P Require Import Prelude CString Mem Kalloc Vm Proc ProcSpec ProcMachine.

(** The calls a step makes that the statements name. *)
Inductive event := EvWait (me : nat) (addr : Z) (r : wait_end) | EvExit (me : nat) (status : Z) | EvOther.

Section machine.
Context {F : Type} {FO : FileOps F}.
Context (kend trampoline forkret : Z).
Implicit Types (s : pstate F) (cpus : list (option nat)) (l : list proc).

(** What each CPU runs: a process, or its scheduler loop. *)
Definition running (l : list proc) (i : nat) : Prop := exists p : proc, l !! i = Some p /\ p_state p = RUNNING.
Definition cinv (l : list proc) (cpus : list (option nat)) : Prop :=
  (forall i, running l i <-> exists c : nat, cpus !! c = Some (Some i)) /\
  (forall c c' i, cpus !! c = Some (Some i) -> cpus !! c' = Some (Some i) -> c = c').

(** [on c me cpus]: CPU [c] is running process [me]. A step that switches away
    leaves the CPU to its scheduler. The last two steps are the rest of the
    kernel, which changes memory and files, and of the table only the running
    process's own fields that the others do not look at. *)
Inductive kstep : pstate F * list (option nat) -> event -> pstate F * list (option nat) -> Prop :=
| k_sched s cpus (c : nat) i b s' : cpus !! c = Some None -> scheduler_try i s = Ok b s' ->
    kstep (s, cpus) EvOther (s', if b then <[c := Some i]> cpus else cpus)
| k_intr s cpus (c : nat) a s' : cpus !! c = Some None -> wakeup None (CAddr a) s = Ok tt s' -> kstep (s, cpus) EvOther (s', cpus)
| k_yield s cpus (c : nat) me s' : cpus !! c = Some (Some me) -> yield me s = Ok tt s' -> kstep (s, cpus) EvOther (s', <[c := None]> cpus)
| k_sleep s cpus (c : nat) me a s' : cpus !! c = Some (Some me) -> sleep me (CAddr a) s = Ok tt s' ->
    kstep (s, cpus) EvOther (s', <[c := None]> cpus)
| k_resume s cpus (c : nat) me s' : cpus !! c = Some (Some me) -> sleep_return me s = Ok tt s' -> kstep (s, cpus) EvOther (s', cpus)
| k_wakeup s cpus (c : nat) me a s' : cpus !! c = Some (Some me) -> wakeup (Some me) (CAddr a) s = Ok tt s' -> kstep (s, cpus) EvOther (s', cpus)
| k_fork s cpus (c : nat) me r s' : cpus !! c = Some (Some me) -> fork kend trampoline forkret me s = Ok r s' -> kstep (s, cpus) EvOther (s', cpus)
| k_exit s cpus (c : nat) me st s' : cpus !! c = Some (Some me) -> exit me st s = Ok tt s' -> kstep (s, cpus) (EvExit me st) (s', <[c := None]> cpus)
| k_wait s cpus (c : nat) me addr r s' : cpus !! c = Some (Some me) -> wait kend me addr s = Ok r s' ->
    kstep (s, cpus) (EvWait me addr r) (s', match r with WReturn _ => cpus | WSleep => <[c := None]> cpus end)
| k_kill s cpus (c : nat) me pid r s' : cpus !! c = Some (Some me) -> kill pid s = Ok r s' -> kstep (s, cpus) EvOther (s', cpus)
| k_setkilled s cpus (c : nat) me s' : cpus !! c = Some (Some me) -> setkilled me s = Ok tt s' -> kstep (s, cpus) EvOther (s', cpus)
| k_grow s cpus (c : nat) me n r s' : cpus !! c = Some (Some me) -> growproc kend me n s = Ok r s' -> kstep (s, cpus) EvOther (s', cpus)
| k_own s cpus (c : nat) me p p' s' : cpus !! c = Some (Some me) -> ps_procs s !! me = Some p -> same_core p p' ->
    same_but s (<[me := p']> (ps_procs s)) s' -> kstep (s, cpus) EvOther (s', cpus)
| k_rest s cpus s' : same_but s (ps_procs s) s' -> kstep (s, cpus) EvOther (s', cpus).

(** [main] on the first CPU, with the table all zero, then the steps. *)
Inductive reach (s0 : pstate F) (ncpu : nat) : pstate F * list (option nat) -> Prop :=
| r_boot s1 : (procinit;;; userinit kend trampoline forkret) s0 = Ok tt s1 -> reach s0 ncpu (s1, replicate ncpu None)
| r_step a ev b : reach s0 ncpu a -> kstep a ev b -> reach s0 ncpu b.

Definition zeroed s : Prop :=
  length (ps_procs s) = NPROC /\ ps_nextpid s = 1 /\
  forall i p, ps_procs s !! i = Some p -> p_state p = UNUSED /\ p_pid p = 0 /\ p_parent p = None.

Definition kinv (a : pstate F * list (option nat)) : Prop :=
  exists init, ps_init a.1 = Some init /\ tinv (ps_procs a.1) (ps_nextpid a.1) init /\ cinv (ps_procs a.1) a.2.

(** ** CPUs *)

Lemma cinv_same l l' cpus : cinv l cpus -> (forall i, running l' i <-> running l i) -> cinv l' cpus.
Proof. intros [H1 H2] E. split; [|done]. intros i. by rewrite E. Qed.

Lemma cinv_stop l l' cpus (c : nat) me :
  cinv l cpus -> cpus !! c = Some (Some me) -> (forall i, running l' i <-> i <> me /\ running l i) -> cinv l' (<[c := None]> cpus).
Proof.
  intros [H1 H2] Hc E. assert (forall d i, <[c := None]> cpus !! d = Some (Some i) <-> d <> c /\ cpus !! d = Some (Some i)) as Hb.
  { intros d i. rewrite list_lookup_insert_Some. naive_solver. }
  split.
  - intros i. rewrite E, H1. split.
    + intros [Hi [d Hd]]. exists d. apply Hb. split; [|done]. intros ->. congruence.
    + intros [d [Hdc Hd]%Hb]. split; [|by exists d]. intros ->. apply Hdc. by apply (H2 d c me).
  - intros d d' i [_ Hd]%Hb [_ Hd']%Hb. by apply (H2 d d' i).
Qed.

Lemma cinv_start l l' cpus (c : nat) i :
  cinv l cpus -> cpus !! c = Some None -> ~ running l i -> (forall j, running l' j <-> j = i \/ running l j) -> cinv l' (<[c := Some i]> cpus).
Proof.
  intros [H1 H2] Hc Hn E. pose proof (lookup_lt_Some _ _ _ Hc) as Hlt.
  assert (forall d j, <[c := Some i]> cpus !! d = Some (Some j) <-> d = c /\ j = i \/ d <> c /\ cpus !! d = Some (Some j)) as Hb.
  { intros d j. rewrite list_lookup_insert_Some. naive_solver. }
  split.
  - intros j. rewrite E, H1. split.
    + intros [->|[d Hd]]; [exists c; apply Hb; by left|]. exists d. apply Hb. right. split; [congruence|done].
    + intros [d [[-> ->]|[_ Hd]]%Hb]; [by left|right; by exists d].
  - intros d d' j [[-> ->]|[Hd1 Hd]]%Hb [[-> ?]|[Hd1' Hd']]%Hb; subst; [done|exfalso; apply Hn, H1; eauto..|by apply (H2 d d' j)].
Qed.

Lemma running_insert l i p p' j :
  l !! i = Some p -> running (<[i := p']> l) j <-> if decide (j = i) then p_state p' = RUNNING else running l j.
Proof.
  intros Hi. pose proof (lookup_lt_Some _ _ _ Hi). unfold running. case_decide as E; [subst j|].
  - rewrite list_lookup_insert_eq by done. naive_solver.
  - by rewrite list_lookup_insert_ne.
Qed.

(** An entry is written that was and is running, or was not and is not. *)
Lemma running_keep l i p p' :
  l !! i = Some p -> (p_state p' = RUNNING <-> p_state p = RUNNING) -> forall j, running (<[i := p']> l) j <-> running l j.
Proof.
  intros Hi E j. rewrite (running_insert _ _ _ _ _ Hi). destruct (decide (j = i)) as [->|]; [|done]. rewrite E. unfold running. naive_solver.
Qed.

Lemma running_each f l l' :
  each f l l' -> (forall i p, l !! i = Some p -> p_state (f i p) = RUNNING <-> p_state p = RUNNING) -> forall j, running l' j <-> running l j.
Proof.
  intros He Hf j. unfold running. rewrite He. destruct (l !! j) as [q|] eqn:Eq; cbn; [|naive_solver].
  pose proof (Hf j q Eq). naive_solver.
Qed.

(** ** The steps *)

Section steps.
Context (s : pstate F) (cpus : list (option nat)).
Hypothesis inv : kinv (s, cpus).

Lemma on_running (c : nat) me : cpus !! c = Some (Some me) -> exists p, ps_procs s !! me = Some p /\ p_state p = RUNNING.
Proof. intros Hc. destruct inv as (init & _ & _ & [H _]). apply H. by exists c. Qed.

Lemma kinv_upd i p p' s' :
  ps_procs s !! i = Some p -> same_but s (<[i := p']> (ps_procs s)) s' -> keeps p p' -> (p_state p' = RUNNING <-> p_state p = RUNNING) ->
  (p_state p' = SLEEPING -> p_state p = SLEEPING /\ p_chan p = p_chan p') -> kinv (s', cpus).
Proof.
  intros Hi (T & N & I) K R S. destruct inv as (init & Hin & Ht & Hc). exists init. cbn [fst snd] in *. rewrite T, N, I. split_and!; [done| |].
  - apply (tinv_upd _ _ _ Ht i p p'); [done..|]. intros k Hs _. left. by apply S.
  - apply (cinv_same _ _ _ Hc). by apply (running_keep _ _ p).
Qed.

Lemma kinv_stop (c : nat) me p p' s' :
  cpus !! c = Some (Some me) -> ps_procs s !! me = Some p -> same_but s (<[me := p']> (ps_procs s)) s' -> keeps p p' -> p_state p' <> RUNNING ->
  (forall k, p_state p' = SLEEPING -> p_chan p' = Some (CProc k) -> k = me /\ no_zombie_child (ps_procs s) me) ->
  kinv (s', <[c := None]> cpus).
Proof.
  intros Hc Hm (T & N & I) K R S. destruct inv as (init & Hin & Ht & Hci). exists init. cbn [fst snd] in *. rewrite T, N, I. split_and!; [done| |].
  - apply (tinv_upd _ _ _ Ht me p p'); [done..|]. intros k Hs Hk. right. by apply S.
  - apply (cinv_stop _ _ _ _ _ Hci Hc). intros i. rewrite (running_insert _ _ _ _ _ Hm). case_decide; naive_solver.
Qed.

Lemma kinv_woken me a s' : wakeup me (CAddr a) s = Ok tt s' -> kinv (s', cpus).
Proof.
  intros H. destruct inv as (init & Hin & Ht & Hc). cbn [fst snd] in *. apply wakeup_tab in H as (He & N & I); [|apply Ht].
  exists init. cbn. rewrite N, I. split_and!; [done| |].
  - apply (tinv_each _ _ _ Ht (woken me (CAddr a))); [done|]. intros i p. split; [apply woken_keeps|]. split; [apply woken_chan|].
    by intros [? _]%woken_sleeping.
  - apply (cinv_same _ _ _ Hc). apply (running_each _ _ _ He). intros i p _. apply woken_running.
Qed.

Lemma kinv_sched (c : nat) i b s' :
  cpus !! c = Some None -> scheduler_try i s = Ok b s' -> kinv (s', if b then <[c := Some i]> cpus else cpus).
Proof.
  intros Hc H. unfold scheduler_try in H. apply bind_ok_inv in H as (p & ? & [Hp ->]%at_proc_inv & H).
  case_bool_decide as E; [|by apply ret_inv in H as [-> ->]]. apply bind_ok_inv in H as (? & s1 & (T & N & I)%upd_inv & [-> ->]%ret_inv).
  rewrite (alter_insert _ _ _ _ Hp) in T. destruct inv as (init & Hin & Ht & Hci). exists init. cbn [fst snd] in *. rewrite T, N, I. split_and!; [done| |].
  - apply (tinv_upd _ _ _ Ht i p); [done| |done]. unfold keeps. cbn. rewrite E. by split_and!.
  - apply (cinv_start _ _ _ _ _ Hci Hc); [intros (q & Hq & Eq); congruence|]. intros j. rewrite (running_insert _ _ _ _ _ Hp). case_decide; naive_solver.
Qed.

(** An unused or exited entry, which is not on a CPU, is freed or filled in. *)
Lemma running_replaced i p p' :
  ps_procs s !! i = Some p -> p_state p <> RUNNING -> p_state p' <> RUNNING ->
  forall j, running (<[i := p']> (ps_procs s)) j <-> running (ps_procs s) j.
Proof. intros Hi N N'. by apply (running_keep _ _ p). Qed.

Lemma kinv_fork (c : nat) me r s' : cpus !! c = Some (Some me) -> fork kend trampoline forkret me s = Ok r s' -> kinv (s', cpus).
Proof.
  intros Hc H. destruct (on_running c me Hc) as (pm & Hm & Hr). apply fork_tab in H as (I & [(_ & T & N)|(i & p & p' & Hf & Hi & T & N & H)]).
  { destruct inv as (init & ?). exists init. cbn [fst snd] in *. by rewrite T, N, I. }
  destruct inv as (init & Hin & Ht & Hci). apply find_unused_Some in Hf as (p0 & Hp0 & Hu & _). cbn [fst snd] in *. rewrite Hi in Hp0. injection Hp0 as <-.
  exists init. cbn. rewrite T, N, I. assert (i <> init) as Hii.
  { intros ->. destruct (ti_init _ _ _ Ht) as (q & Hq & [Hqu _] & _). congruence. }
  split_and!; [done| |].
  - destruct H as [(_ & Hs & Hd & Hpar)|(-> & Hs & Hd & Hpar & _)].
    + apply (tinv_free _ _ _ Ht i p p'); try done; [|lia]. intros [Hx _]. done.
    + apply (tinv_born _ _ _ Ht i p p' me pm); try done. split; congruence.
  - apply (cinv_same _ _ _ Hci). apply (running_replaced i p p'); [done|congruence|]. destruct H as [(_ & Hs & _)|(_ & Hs & _)]; congruence.
Qed.

Lemma kinv_wait (c : nat) me addr r s' :
  cpus !! c = Some (Some me) -> wait kend me addr s = Ok r s' ->
  kinv (s', match r with WReturn _ => cpus | WSleep => <[c := None]> cpus end).
Proof.
  intros Hc H. destruct (on_running c me Hc) as (pm & Hm & Hr). pose proof inv as (init & Hin & Ht & Hci). cbn [fst snd] in *.
  destruct (wait_tab kend me addr s r s' pm (ti_len _ _ _ Ht) Hm H) as [[(-> & (T & N & I) & _)|(i & p & Hi & Hp & Hz & -> & (T & N & I))]|(-> & T & _ & Hn)].
  - exists init. cbn. by rewrite T, N, I.
  - exists init. cbn. rewrite T, N, I. split_and!; [done| |].
    + apply (tinv_free _ _ _ Ht i p); try done; [by intros [_ ?]|]. intros ->. destruct (ti_init _ _ _ Ht) as (q & Hq & [_ Hqz] & _). congruence.
    + apply (cinv_same _ _ _ Hci). apply (running_replaced i p); [done|congruence|done].
  - apply (kinv_stop c me pm _ s' Hc Hm T); [|done|].
    + unfold keeps. cbn. rewrite Hr. by split_and!.
    + cbn. intros k _ [= ->]. by split.
Qed.

Lemma same_core_keeps p p' : same_core p p' -> keeps p p'.
Proof. unfold keeps. intros (-> & _ & _ & _ & -> & ->). by split_and!. Qed.

Lemma exit_left (c : nat) me st s' :
  cpus !! c = Some (Some me) -> exit me st s = Ok tt s' ->
  exists init parent pm pm' l1, ps_init s = Some init /\ ps_procs s !! me = Some pm /\ same_core pm pm' /\ p_parent pm = Some parent /\
    l1 = <[me := pm']> (ps_procs s) /\ l1 !! me = Some pm' /\ tinv l1 (ps_nextpid s) init /\ alive pm' /\ init <> me /\
    length (ps_procs s') = length l1 /\ (forall i p, l1 !! i = Some p -> exists p', ps_procs s' !! i = Some p' /\ exited l1 init me parent i p p') /\
    ps_nextpid s' = ps_nextpid s /\ ps_init s' = Some init.
Proof.
  intros Hc H. destruct (on_running c me Hc) as (pm & Hm & Hr). pose proof inv as (init & Hin & Ht & Hci). cbn [fst snd] in *.
  assert (p_parent pm <> Some me) as Hself.
  { intros E. destruct (decide (me = init)) as [->|Hne].
    - destruct (ti_init _ _ _ Ht) as (? & ? & _ & ?). congruence.
    - destruct (ti_parent _ _ _ Ht me pm Hm) as (? & ? & ? & _ & _ & ?); congruence. }
  destruct (exit_tab me st s tt s' pm init (ti_len _ _ _ Ht) Hin Hm Hself H) as (pm' & parent & C & Hp & Hne & T & N & I).
  pose proof C as (C1 & _ & _ & _ & _ & C6). set (l1 := <[me := pm']> (ps_procs s)) in *.
  assert (l1 !! me = Some pm') as Hm1 by (apply list_lookup_insert_eq; by eapply lookup_lt_Some).
  assert (tinv l1 (ps_nextpid s) init) as Ht1.
  { apply (tinv_upd _ _ _ Ht me pm); [done|by apply same_core_keeps|]. intros k E. congruence. }
  assert (alive pm') as Ha1 by (split; congruence).
  assert (forall i p, l1 !! i = Some p -> exists p', ps_procs s' !! i = Some p' /\ exited l1 init me parent i p p') as He.
  { intros i p Hi. eexists. split; [|by apply (exited_left_by l1 (ps_nextpid s) init me parent pm' st Ht1 Hm1 Ha1)].
    rewrite T, Hi. unfold left_by. by destruct (decide (i = me)). }
  exists init, parent, pm, pm', l1. split_and!; try done; [|congruence].
  apply Nat.le_antisymm; apply Nat.nlt_ge; intros Hlt; destruct (lookup_lt_is_Some_2 _ _ Hlt) as [x Hx].
  - rewrite T, lookup_ge_None_2 in Hx by lia. done.
  - destruct (He _ _ Hx) as (? & Hx' & _). apply lookup_lt_Some in Hx'. lia.
Qed.

Lemma kinv_exit (c : nat) me st s' : cpus !! c = Some (Some me) -> exit me st s = Ok tt s' -> kinv (s', <[c := None]> cpus).
Proof.
  intros Hc H. destruct (exit_left c me st s' Hc H)
    as (init & parent & pm & pm' & l1 & Hin & Hm & C & Hp & El & Hm1 & Ht1 & Ha1 & Hne & Hlen & He & N & I).
  pose proof C as (C1 & _ & _ & _ & _ & C6). destruct inv as (init' & _ & _ & Hci). cbn [fst snd] in *.
  exists init. cbn [fst snd]. rewrite N. split_and!; [done|apply (tinv_exit l1 (ps_nextpid s) init me parent pm'); (done || congruence)|].
  apply (cinv_stop l1 _ _ c me); [|done|].
  { apply (cinv_same _ _ _ Hci). rewrite El. by apply (running_keep _ _ pm); [|rewrite C1]. }
  intros i. unfold running. split.
  - intros (p' & Hp' & Er). destruct (lookup_lt_is_Some_2 l1 i) as [p Hi]; [rewrite <- Hlen; by eapply lookup_lt_Some|].
    destruct (He i p Hi) as (q & E & _ & _ & _ & _ & _ & Kr & _). rewrite E in Hp'. injection Hp' as ->.
    destruct (proj1 Kr Er) as [Er1 Er2]. split; [done|]. by exists p.
  - intros (Hi & p & Hp' & Er). destruct (He i p Hp') as (p' & E & _ & _ & _ & _ & _ & Kr & _). exists p'. split; [done|]. by apply Kr.
Qed.

Lemma kinv_same_but s' : same_but s (ps_procs s) s' -> kinv (s', cpus).
Proof. intros (T & N & I). destruct inv as (init & ?). exists init. cbn [fst snd] in *. by rewrite T, N, I. Qed.

Lemma kinv_step ev b : kstep (s, cpus) ev b -> kinv b.
Proof.
  intros H. inversion H as [? ? c i b' s' Hc E|? ? c a s' Hc E|? ? c me s' Hc E|? ? c me a s' Hc E|? ? c me s' Hc E|? ? c me a s' Hc E|
    ? ? c me r s' Hc E|? ? c me st s' Hc E|? ? c me addr r s' Hc E|? ? c me pid r s' Hc E|? ? c me s' Hc E|? ? c me n r s' Hc E|
    ? ? c me p0 p' s' Hc Hp0 C T|? ? s' T]; subst; clear H;
    try destruct (on_running _ _ Hc) as (p & Hp & Hr).
  - by eapply kinv_sched.
  - by eapply kinv_woken.
  - unfold yield in E. apply bind_ok_inv in E as (? & s1 & T%upd_inv & ->%sched_inv). rewrite (alter_insert _ _ _ _ Hp) in T.
    eapply kinv_stop; [done..| |done|done]. unfold keeps. cbn. rewrite Hr. by split_and!.
  - eapply kinv_stop; [done|done|by eapply sleep_tab| | |]; [|done..]. unfold keeps. cbn. rewrite Hr. by split_and!.
  - apply upd_inv in E. rewrite (alter_insert _ _ _ _ Hp) in E.
    eapply kinv_upd; [done..| | |]; [unfold keeps; cbn; by split_and!|done|]. cbn. congruence.
  - by eapply kinv_woken.
  - by eapply kinv_fork.
  - by eapply kinv_exit.
  - by eapply kinv_wait.
  - apply kill_tab in E as [[_ ->]|(i & q & Hi & _ & _ & T)]; [done|]. unfold killed_entry in T.
    destruct (bool_decide (p_state q = SLEEPING)) eqn:Es; [apply bool_decide_eq_true in Es|];
      (eapply kinv_upd; [exact Hi|exact T| | |]; [unfold keeps|..]); cbn; try rewrite Es; try done; by split_and!.
  - apply upd_inv in E. rewrite (alter_insert _ _ _ _ Hp) in E.
    eapply kinv_upd; [done..| | |]; [unfold keeps; cbn; by split_and!|done|done].
  - eapply growproc_tab in E as [sz T]; [|done]. eapply kinv_upd; [done..| | |]; [unfold keeps; cbn; by split_and!|done|done].
  - eapply kinv_upd; [exact Hp0|exact T|by apply same_core_keeps| |]; destruct C as (C1 & C2 & _); by rewrite C1, ?C2.
  - by apply kinv_same_but.
Qed.
End steps.

Lemma procinit_tab s u s' : zeroed s -> procinit s = Ok u s' -> zeroed s' /\ ps_init s' = ps_init s.
Proof.
  intros Hz. unfold procinit. intros H. apply (for_each_inv (fun _ t => zeroed t /\ ps_init t = ps_init s)) in H; [done| |done].
  clear H. intros k t t' _ E ((Hl & Hn & Hz') & Hi). unfold zeroed. minv. mtab. split; [|done]. split_and!; [by rewrite !length_alter|done|].
  intros i p. rewrite alter_alter_list. destruct (decide (i = k)) as [->|].
  - rewrite list_lookup_alter_eq. destruct (ps_procs t !! k) as [q|] eqn:Eq; [|done]. intros [= <-]. cbn. split; [done|]. by apply (Hz' k q).
  - rewrite list_lookup_alter_ne by done. apply Hz'.
Qed.

Lemma boot_kinv s0 s1 ncpu : zeroed s0 -> (procinit;;; userinit kend trampoline forkret) s0 = Ok tt s1 -> kinv (s1, replicate ncpu None).
Proof.
  intros Hz H. apply bind_ok_inv in H as (? & s & [(Hl & Hn & Hz') _]%procinit_tab & H); [|done].
  apply userinit_tab in H as (i & p & p' & Hi & Hu & T & I & N & Hs & Hd & Hpar). destruct (Hz' i p Hi) as (_ & _ & Hp0). rewrite Hn in *.
  pose proof (lookup_lt_Some _ _ _ Hi) as Hlt. pose proof (insert_cases i p' (ps_procs s)) as Hb.
  exists i. cbn. rewrite I, T, N. split_and!; [done| |].
  - split; [by rewrite length_insert|done|..].
    + intros j q [[-> ->]|[_ Hq]]%Hb E; [congruence|]. by destruct (Hz' j q Hq).
    + intros j q [[-> ->]|[_ Hq]]%Hb E; [lia|]. by destruct (Hz' j q Hq).
    + intros j k q r [[-> ->]|[_ Hq]]%Hb [[-> ->]|[_ Hr]]%Hb E Ed; [done|destruct (Hz' k r Hr) as (_ & ? & _); lia|destruct (Hz' j q Hq); done..].
    + intros j q [[-> ->]|[_ Hq]]%Hb; [congruence|]. destruct (Hz' j q Hq). congruence.
    + exists p'. split; [by apply list_lookup_insert_eq|]. split; [split|]; congruence.
    + intros j q [[-> ->]|[_ Hq]]%Hb E Hne; [done|]. by destruct (Hz' j q Hq).
    + intros j k q [[-> ->]|[_ Hq]]%Hb E; [congruence|]. destruct (Hz' j q Hq). congruence.
  - assert (forall c j, replicate ncpu (@None nat) !! c <> Some (Some j)) as Hrep by (intros c j [? _]%lookup_replicate; done).
    split; [|intros c c' j Hc; by apply Hrep in Hc]. intros j. split; [|intros [c Hc]; by apply Hrep in Hc].
    intros (q & [[-> ->]|[_ Hq]]%Hb & E); [congruence|]. destruct (Hz' j q Hq). congruence.
Qed.

Lemma reach_kinv s0 ncpu a : zeroed s0 -> reach s0 ncpu a -> kinv a.
Proof. intros Hz. induction 1 as [|[s cpus] ev b _ IH H]; [by eapply boot_kinv|by eapply kinv_step]. Qed.

(** ** Exit statuses *)

Definition zombie_at (s : pstate F) (i : nat) (pid status : Z) : Prop :=
  exists p, ps_procs s !! i = Some p /\ p_state p = ZOMBIE /\ p_pid p = pid /\ p_xstate p = status.

Lemma zombie_insert s k q q' s' i pid st :
  ps_procs s !! k = Some q -> p_state q <> ZOMBIE -> same_but s (<[k := q']> (ps_procs s)) s' -> zombie_at s i pid st -> zombie_at s' i pid st.
Proof. intros Hk Hq (T & _) (p & Hp & Hz & ?). exists p. rewrite T, list_lookup_insert_ne; [done|]. intros ->. congruence. Qed.

Lemma zombie_each s f s' i pid st :
  each f (ps_procs s) (ps_procs s') -> (forall j p, p_state p = ZOMBIE -> f j p = p) -> zombie_at s i pid st -> zombie_at s' i pid st.
Proof. intros He Hf (p & Hp & Hz & ?). exists p. rewrite He, Hp. cbn. by rewrite Hf. Qed.

Lemma woken_zombie me c i p : p_state p = ZOMBIE -> woken me c i p = p.
Proof. intros E. unfold woken. rewrite E. by rewrite andb_false_r. Qed.

Lemma zombie_step s cpus ev b i pid st p :
  kinv (s, cpus) -> kstep (s, cpus) ev b -> zombie_at s i pid st -> ps_procs s !! i = Some p ->
  zombie_at b.1 i pid st \/
  exists me addr p', ev = EvWait me addr (WReturn pid) /\ p_parent p = Some me /\ ps_procs b.1 !! i = Some p' /\ p_state p' = UNUSED.
Proof.
  intros inv H Hz Hip. pose proof (on_running s cpus inv) as Hon. pose proof inv as (init & Hin & Ht & Hci). cbn [fst snd] in *.
  inversion H as [? ? c k b' s' Hc E|? ? c a s' Hc E|? ? c me s' Hc E|? ? c me a s' Hc E|? ? c me s' Hc E|? ? c me a s' Hc E|
    ? ? c me r s' Hc E|? ? c me st' s' Hc E|? ? c me addr r s' Hc E|? ? c me pid' r s' Hc E|? ? c me s' Hc E|? ? c me n r s' Hc E|
    ? ? c me p0 p' s' Hc Hp0 C T|? ? s' T]; subst; clear H; cbn [fst snd] in *;
    try (destruct (Hon _ _ Hc) as (pm & Hm & Hr); assert (p_state pm <> ZOMBIE) as Hmz by congruence).
  - left. unfold scheduler_try in E. apply bind_ok_inv in E as (q & ? & [Hq ->]%at_proc_inv & E).
    case_bool_decide as Eq; [|by apply ret_inv in E as [_ ->]]. apply bind_ok_inv in E as (? & s1 & T%upd_inv & [_ ->]%ret_inv).
    rewrite (alter_insert _ _ _ _ Hq) in T. eapply zombie_insert; [exact Hq|congruence|exact T|done].
  - left. apply wakeup_tab in E as (E & _); [|apply Ht]. eapply zombie_each; [exact E|intros; by apply woken_zombie|done].
  - left. unfold yield in E. apply bind_ok_inv in E as (? & s1 & T%upd_inv & ->%sched_inv). rewrite (alter_insert _ _ _ _ Hm) in T.
    by eapply zombie_insert.
  - left. eapply zombie_insert; [done|done|by eapply sleep_tab|done].
  - left. apply upd_inv in E. rewrite (alter_insert _ _ _ _ Hm) in E. by eapply zombie_insert.
  - left. apply wakeup_tab in E as (E & _); [|apply Ht]. eapply zombie_each; [exact E|intros; by apply woken_zombie|done].
  - left. apply fork_tab in E as (_ & [(_ & T & _)|(k & q & q' & Hf & Hk & T & _)]); [unfold zombie_at; by rewrite T|].
    apply find_unused_Some in Hf as (q0 & Hq0 & Hu & _). destruct Hz as (pz & Hpz & Hzz & Hrest). exists pz. rewrite T, list_lookup_insert_ne; [done|].
    intros ->. congruence.
  - left. destruct (exit_left s cpus inv c me st' s' Hc E) as (? & parent & ? & pm' & l1 & _ & _ & _ & _ & El & _ & _ & _ & _ & _ & He & _).
    destruct Hz as (pz & Hpz & Hzz & Hpid & Hst). assert (i <> me) as Hime by congruence.
    destruct (He i pz) as (pz' & Hpz' & X1 & _ & _ & X2 & _ & _ & X3 & _); [by rewrite El, list_lookup_insert_ne|].
    exists pz'. split; [done|]. split; [apply X2; by left|]. split; [congruence|]. rewrite X3 by done. done.
  - destruct (wait_tab kend me addr s r s' pm (ti_len _ _ _ Ht) Hm E) as [[(-> & (T & N & I) & _)|(k & q & Hk & Hq & Hqz & -> & (T & N & I))]|(-> & T & _ & Hn)].
    + left. unfold zombie_at. by rewrite T.
    + destruct Hz as (pz & Hpz & Hzz & Hpid & Hst). rewrite Hip in Hpz. injection Hpz as <-. destruct (decide (i = k)) as [->|Hne].
      * rewrite Hip in Hk. injection Hk as <-. right. exists me, addr, (freed p). rewrite T, Hpid. split_and!; try done.
        apply list_lookup_insert_eq. by eapply lookup_lt_Some.
      * left. exists p. by rewrite T, list_lookup_insert_ne.
    + left. by eapply zombie_insert.
  - left. apply kill_tab in E as [[_ ->]|(k & q & Hk & _ & _ & (T & _))]; [done|]. destruct Hz as (pz & Hpz & Hzz & Hpid & Hst).
    destruct (decide (i = k)) as [->|Hne]; [|exists pz; by rewrite T, list_lookup_insert_ne]. rewrite Hk in Hpz. injection Hpz as ->.
    exists (killed_entry pz). rewrite T, list_lookup_insert_eq by (by eapply lookup_lt_Some). unfold killed_entry. by rewrite Hzz.
  - left. apply upd_inv in E. rewrite (alter_insert _ _ _ _ Hm) in E. by eapply zombie_insert.
  - left. eapply growproc_tab in E as [sz T]; [|done]. by eapply zombie_insert.
  - left. by eapply zombie_insert.
  - left. destruct T as (T & _). unfold zombie_at. by rewrite T.
Qed.
End machine.



(** ** A run *)

#[local] Instance no_files : FileOps unit := {|
  f_dup f := ret f; f_close _ := ret tt; i_dup i := ret i; i_put _ := ret tt; i_root := ret 1%nat
|}.

Definition kend24 : Z := PHYSTOP - 24 * PGSIZE.
Definition zero_proc : proc := mkProc UNUSED None false 0 0 None 0 0 0 0 (0, 0) (replicate NOFILE None) None (replicate 16 x00).
Definition boot24 : pstate unit :=
  mkPs (replicate NPROC zero_proc) 1 None (run_state (mkKst ∅ 0) (kinit kend24 (mkKst ∅ 0))) tt.
Lemma boot24_zeroed : zeroed boot24.
Proof.
  split; [done|]. split; [done|]. intros i p Hp. apply lookup_replicate in Hp as [-> _]. done.
Qed.

Lemma only_true (b : bool) : b = true -> b = true.
Proof. done. Qed.
Lemma only_tt (b : unit) : true = true -> b = tt.
Proof. by destruct b. Qed.
Lemma only_z (z b : Z) : Z.eqb z b = true -> b = z.
Proof. intros H. symmetry. by apply Z.eqb_eq. Qed.
Definition sleeps (r : wait_end) : bool := match r with WSleep => true | WReturn _ => false end.
Lemma only_sleeps r : sleeps r = true -> r = WSleep.
Proof. by destruct r. Qed.
Definition returns (z : Z) (r : wait_end) : bool := match r with WReturn x => z =? x | WSleep => false end.
Lemma only_returns z r : returns z r = true -> r = WReturn z.
Proof. destruct r; cbn; [|done]. by intros ->%Z.eqb_eq. Qed.

(** A process that is killed from birth. *)
Definition born_killed (s : pstate unit) : bool :=
  bool_decide ((fun p => (p_state p, p_pid p, p_killed p)) <$> ps_procs s !! 1%nat = Some (RUNNABLE, 2, true)).

(** The run of init, its child and their exit, and the run with [kill]. *)
Notation p_rest s1 := (step_ok (Z.eqb 2) (fork kend24 4096 0 0) s1 (fun s =>
    step_ok sleeps (wait kend24 0 0) s (fun s =>
    step_ok (fun b => b) (scheduler_try 1) s (fun s =>
    step_ok (fun _ => true) (exit 1 7) s (fun s =>
    step_ok (fun b => b) (scheduler_try 0) s (fun s =>
    step_ok (returns 2) (wait kend24 0 0) s (fun _ => true))))))) (only parsing).
Notation p_kill s1 :=
  (step_ok (Z.eqb 0) (kill 0) s1 (fun s => step_ok (Z.eqb 2) (fork kend24 4096 0 0) s born_killed)) (only parsing).
Notation p_all s0 :=
  (step_ok (fun _ => true) (procinit;;; userinit kend24 4096 0) s0 (fun s =>
   step_ok (fun b => b) (scheduler_try 0) s (fun s => p_kill s && p_rest s))) (only parsing).

(** Both runs are evaluated once. *)
Lemma p_all_ok : p_all boot24 = true.
Proof. vm_cast_no_check (eq_refl true). Qed.

(** The next step of the chain in [H]. *)
Ltac stepped H s E lem := apply (step_ok_inv _ _ _ _ _ lem) in H as (s & E & H).

Lemma p_split b : p_all b = true ->
  exists s0 s1, (procinit;;; userinit kend24 4096 0) b = Ok tt s0 /\ scheduler_try 0 s0 = Ok true s1 /\
    p_kill s1 = true /\ p_rest s1 = true.
Proof.
  intros H. stepped H s0 E1 only_tt. stepped H s1 E2 only_true.
  apply andb_prop in H as [H1 H2]. exact (ex_intro _ s0 (ex_intro _ s1 (conj E1 (conj E2 (conj H1 H2))))).
Qed.

Definition p_start := p_split boot24 p_all_ok.

(** Init forks and waits, the child exits with status 7, and init is back. *)
Lemma p_run :
  exists s s', reach kend24 4096 0 boot24 1 (s, [Some 0%nat]) /\ wait kend24 0 0 s = Ok (WReturn 2) s'.
Proof.
  destruct p_start as (s0 & s1 & e_boot & e_init & _ & H). stepped H s2 e_fork (only_z 2). stepped H s3 e_wait only_sleeps.
  stepped H s4 e_child only_true. stepped H s5 e_exit only_tt. stepped H s6 e_again only_true. stepped H s7 e_reap (only_returns 2).
  exists s6, s7. split; [|exact e_reap].
  apply (r_step _ _ _ _ _ _ _ _ (r_step _ _ _ _ _ _ _ _ (r_step _ _ _ _ _ _ _ _ (r_step _ _ _ _ _ _ _ _ (r_step _ _ _ _ _ _ _ _
           (r_step _ _ _ _ _ _ _ _ (r_boot _ _ _ _ 1 _ e_boot)
             (k_sched _ _ _ _ [None] 0 0 true _ eq_refl e_init))
           (k_fork _ _ _ _ [Some 0%nat] 0 0 _ _ eq_refl e_fork))
         (k_wait _ _ _ _ [Some 0%nat] 0 0 0 WSleep _ eq_refl e_wait))
       (k_sched _ _ _ _ [None] 0 1 true _ eq_refl e_child))
     (k_exit _ _ _ _ [Some 1%nat] 0 1 7 _ eq_refl e_exit))
    (k_sched _ _ _ _ [None] 0 0 true _ eq_refl e_again)).
Qed.



(** ** [kill] of pid 0

    An unused entry has pid 0, so [kill(0)] sets its flag, and nothing clears it:
    the process created there next is killed from birth. *)
Lemma kill_zero_kills_next_child :
  exists s s1 s2, reach kend24 4096 0 boot24 1 (s, [Some 0%nat]) /\ kill 0 s = Ok 0 s1 /\ fork kend24 4096 0 0 s1 = Ok 2 s2 /\
    (fun p => (p_state p, p_pid p, p_killed p)) <$> ps_procs s2 !! 1%nat = Some (RUNNABLE, 2, true).
Proof.
  destruct p_start as (s0 & s & e_boot & e_init & H & _). stepped H s1 E1 (only_z 0). stepped H s2 E2 (only_z 2).
  apply bool_decide_eq_true in H. exists s, s1, s2. split; [|exact (conj E1 (conj E2 H))].
  exact (r_step _ _ _ _ _ _ _ _ (r_boot _ _ _ _ 1 _ e_boot) (k_sched _ _ _ _ [None] 0 0 true _ eq_refl e_init)).
Qed.
