(* ===== verification/File.v ===== *)
(** * Open files (kernel/file.c, pipealloc of kernel/pipe.c)

    The table of open files with its reference counts, over the file system, the
    pipes and the page allocator.  A pointer to a [struct file] is its index. A
    pipe lives in a page of its own: the model keeps the structures by the
    addresses of their pages. *)

From S2P Require Import Prelude CString Mem Kalloc Vm Bio Log FsLayout TxnLayer Fs Pipe.

Definition NFILE : nat := 100.
Definition NDEV : Z := 10.
Definition MAXOPBLOCKS : Z := 10.

Inductive fdtype := FD_NONE | FD_PIPE | FD_INODE | FD_DEVICE.

#[export] Instance fdtype_eq_dec : EqDecision fdtype.
Proof. solve_decision. Defined.

Record file := mkFile {
  f_type : fdtype; f_ref : Z; f_readable : bool; f_writable : bool;
  f_pipe : Z; f_ip : nat; f_off : Z; f_major : Z
}.

Definition f_set_ref (r : Z) (f : file) : file :=
  mkFile (f_type f) r (f_readable f) (f_writable f) (f_pipe f) (f_ip f) (f_off f) (f_major f).
Definition f_set_type (t : fdtype) (f : file) : file :=
  mkFile t (f_ref f) (f_readable f) (f_writable f) (f_pipe f) (f_ip f) (f_off f) (f_major f).
Definition f_set_mode (r w : bool) (f : file) : file :=
  mkFile (f_type f) (f_ref f) r w (f_pipe f) (f_ip f) (f_off f) (f_major f).
Definition f_set_pipe (a : Z) (f : file) : file :=
  mkFile (f_type f) (f_ref f) (f_readable f) (f_writable f) a (f_ip f) (f_off f) (f_major f).
Definition f_set_ip (ip : nat) (f : file) : file :=
  mkFile (f_type f) (f_ref f) (f_readable f) (f_writable f) (f_pipe f) ip (f_off f) (f_major f).
Definition f_set_off (o : Z) (f : file) : file :=
  mkFile (f_type f) (f_ref f) (f_readable f) (f_writable f) (f_pipe f) (f_ip f) o (f_major f).
Definition f_set_major (mj : Z) (f : file) : file :=
  mkFile (f_type f) (f_ref f) (f_readable f) (f_writable f) (f_pipe f) (f_ip f) (f_off f) mj.

(** The file layer's state; [k_woken] are the channels woken, in order. *)
Record kfs (T : Type) := mkKfs {
  k_fs : fsst T; k_files : list file; k_pipes : gmap Z pipe; k_woken : list (Z * chan)
}.
Arguments mkKfs {T}. Arguments k_fs {T}. Arguments k_files {T}. Arguments k_pipes {T}. Arguments k_woken {T}.

(** The system calls' brackets of the log. *)
Class OpOps (T : Type) := { t_begin_op : M T unit; t_end_op : M T unit }.

#[export] Instance lst_op_ops : OpOps lst := { t_begin_op := begin_op; t_end_op := end_op }.

(** ** Copies for the running process (kernel/proc.c) *)

(** [copyin], with the bytes stored also when it fails on a later page. *)
Fixpoint copyin_stored_loop (fuel : nat) (pagetable srcva len : Z) : M kst (list byte * Z) :=
  if len <=? 0 then ret ([], 0)
  else match fuel with
  | O => nofuel
  | S fuel =>
      let va0 := PGROUNDDOWN srcva in
      pa0 <- walkaddr pagetable va0;;
      if pa0 =? 0 then ret ([], -1)
      else
        let n := PGSIZE - (srcva - va0) in
        let n := if len <? n then len else n in
        bs <- gets (fun s => mread (kmem s) (pa0 + (srcva - va0)) (Z.to_nat n));;
        r <- copyin_stored_loop fuel pagetable (u64 (va0 + PGSIZE)) (len - n);;
        ret (bs ++ r.1, r.2)
  end.
Definition copyin_stored (pagetable srcva len : Z) : M kst (list byte * Z) :=
  copyin_stored_loop (Z.to_nat len) pagetable srcva len.

Definition either_copyout (pagetable : Z) (user_dst : bool) (dst : Z) (src : list byte) : M kst Z :=
  if user_dst then copyout pagetable dst src
  else modify (set_mem (fun m => mwrite m dst src));;; ret 0.

Definition either_copyin (pagetable : Z) (user_src : bool) (src len : Z) : M kst (list byte * Z) :=
  if user_src then copyin_stored pagetable src len
  else bs <- gets (fun s => mread (kmem s) src (Z.to_nat len));; ret (bs, 0).

(** The running process, by its page table and its [killed] flag. *)
Definition proc_ops (pagetable : Z) (k : bool) : ProcOps kst := {|
  proc_copy := {| Fs.either_copyout := either_copyout pagetable; Fs.either_copyin := either_copyin pagetable |};
  Pipe.killed := ret k
|}.

Section file.
Context {T : Type} {TO : TxnOps T} {OO : OpOps T}.
Context (kend : Z).

Abbreviation fio := (kst * kfs T)%type.

Definition km {A} (m : M kst A) : M fio A := zoom fst (fun k s => (k, s.2)) m.
Definition kf {A} (m : M (kfs T) A) : M fio A := zoom snd (fun f s => (s.1, f)) m.
Definition in_fs {A} (m : M (fsst T) A) : M fio A :=
  kf (zoom k_fs (fun x s => mkKfs x (k_files s) (k_pipes s) (k_woken s)) m).
Definition in_fs_mem {A} (m : M (fsst T * kst) A) : M fio A :=
  zoom (fun s => (k_fs s.2, s.1)) (fun x s => (x.2, mkKfs x.1 (k_files s.2) (k_pipes s.2) (k_woken s.2))) m.
Definition upd_files (g : list file -> list file) : M fio unit :=
  kf (modify (fun s => mkKfs (k_fs s) (g (k_files s)) (k_pipes s) (k_woken s))).
Definition upd_pipes (g : gmap Z pipe -> gmap Z pipe) : M fio unit :=
  kf (modify (fun s => mkKfs (k_fs s) (k_files s) (g (k_pipes s)) (k_woken s))).
Definition upd_f (f : nat) (g : file -> file) : M fio unit := upd_files (alter g f).
Definition file_of (f : nat) : M fio file := fl <- gets (fun s : fio => k_files s.2);; from_opt (fl !! f).

Definition begin_op : M fio unit := in_fs (tx t_begin_op).
Definition end_op : M fio unit := in_fs (tx t_end_op).

(** A function of pipe.c on the pipe in page [pi], with its wakeups. *)
Definition on_pipe {A} (pi : Z) (m : M (pst kst) A) : M fio A :=
  ps <- gets (fun s : fio => k_pipes s.2);;
  p <- from_opt (ps !! pi);;
  zoom (fun s => mkPst (default p (k_pipes s.2 !! pi)) s.1 [])
       (fun x s => (ps_w x, mkKfs (k_fs s.2) (k_files s.2) (<[pi := ps_pipe x]> (k_pipes s.2)) (k_woken s.2 ++ (pair pi <$> ps_woken x)))) m.

(** ** The table *)

Definition fileinit : M fio unit := ret tt.

Definition filealloc : M fio (option nat) :=
  fl <- gets (fun s : fio => k_files s.2);;
  match list_find (fun f => f_ref f = 0) fl with
  | Some (f, _) => upd_f f (f_set_ref 1);;; ret (Some f)
  | None => ret None
  end.

Definition filedup (f : nat) : M fio nat :=
  x <- file_of f;;
  if f_ref x <? 1 then panic "filedup"
  else upd_f f (f_set_ref (f_ref x + 1));;; ret f.

Definition fileclose (f : nat) : M fio unit :=
  x <- file_of f;;
  if f_ref x <? 1 then panic "fileclose"
  else
    upd_f f (f_set_ref (f_ref x - 1));;;
    if 0 <? f_ref x - 1 then ret tt
    else
      upd_f f (f_set_ref 0);;;
      upd_f f (f_set_type FD_NONE);;;
      match f_type x with
      | FD_PIPE =>
          last <- on_pipe (f_pipe x) (pipeclose (f_writable x));;
          if last : bool then upd_pipes (delete (f_pipe x));;; km (kfree kend (f_pipe x)) else ret tt
      | FD_INODE | FD_DEVICE => begin_op;;; in_fs (iput (f_ip x));;; end_op
      | FD_NONE => ret tt
      end.

(** The two new files, or [None] for the return value -1. *)
Definition pipealloc : M fio (option (nat * nat)) :=
  f0 <- filealloc;;
  f1 <- (match f0 with Some _ => filealloc | None => ret None end);;
  pi <- (match f1 with Some _ => km kalloc | None => ret 0 end);;
  match f0, f1 with
  | Some r, Some w =>
      if pi =? 0 then fileclose r;;; fileclose w;;; ret None
      else
        junk <- km (gets (fun s => mread (kmem s) pi (Z.to_nat PIPESIZE)));;
        upd_pipes <[pi := pipe_init junk]>;;;
        upd_f r (f_set_type FD_PIPE);;; upd_f r (f_set_mode true false);;; upd_f r (f_set_pipe pi);;;
        upd_f w (f_set_type FD_PIPE);;; upd_f w (f_set_mode false true);;; upd_f w (f_set_pipe pi);;;
        ret (Some (r, w))
  | Some r, None => fileclose r;;; ret None
  | None, _ => ret None
  end.

(** ** Reading and writing *)

(** [struct stat] in memory; [pad] is what the stack holds in its padding. *)
Definition stat_bytes (pad : list byte) (st : stat) : list byte :=
  le_enc 4 (st_dev st) ++ le_enc 4 (st_ino st) ++ le_enc 2 (st_type st) ++ le_enc 2 (st_nlink st) ++ pad ++ le_enc 8 (st_size st).

Definition filestat (pagetable : Z) (pad : list byte) (f : nat) (addr : Z) : M fio Z :=
  x <- file_of f;;
  match f_type x with
  | FD_INODE | FD_DEVICE =>
      in_fs (ilock (Some (f_ip x)));;;
      st <- in_fs (stati (f_ip x));;
      in_fs (iunlock (Some (f_ip x)));;;
      r <- km (copyout pagetable addr (stat_bytes pad st));;
      ret (if r <? 0 then -1 else 0)
  | _ => ret (-1)
  end.

(** The device switch: the read and write functions by major number. *)
Context (dev_read dev_write : Z -> option (Z -> Z -> M fio segment)).

Definition is_dev (major : Z) : bool := (0 <=? major) && (major <? NDEV).

(** A call that sleeps on a pipe or in a device ends in [Sleep]; it is resumed
    from there with the arguments it says. *)
Definition fileread (pagetable : Z) (kl : bool) (f : nat) (addr n : Z) : M fio segment :=
  x <- file_of f;;
  if negb (f_readable x) then ret (Return (-1))
  else match f_type x with
  | FD_PIPE => on_pipe (f_pipe x) (piperead (P := proc_ops pagetable kl) addr n)
  | FD_DEVICE =>
      if negb (is_dev (f_major x)) then ret (Return (-1))
      else match dev_read (f_major x) with None => ret (Return (-1)) | Some rd => rd addr n end
  | FD_INODE =>
      in_fs (ilock (Some (f_ip x)));;;
      r <- in_fs_mem (readi (C := proc_copy (ProcOps := proc_ops pagetable kl)) (f_ip x) true addr (f_off x) (u32 n));;
      (if 0 <? r then upd_f f (f_set_off (u32 (f_off x + r))) else ret tt);;;
      in_fs (iunlock (Some (f_ip x)));;;
      ret (Return r)
  | FD_NONE => panic "fileread"
  end.

Definition write_max : Z := (MAXOPBLOCKS - 1 - 1 - 2) / 2 * BSIZE.

(** The loop over the transactions of a write, from byte [i] on; the result is
    the last value of [i]. *)
Fixpoint filewrite_loop (fuel : nat) (pagetable : Z) (kl : bool) (f : nat) (addr n i : Z) : M fio Z :=
  match fuel with
  | O => nofuel
  | S fuel =>
    if i <? n then
      let n1 := Z.min (n - i) write_max in
      begin_op;;;
      x <- file_of f;;
      in_fs (ilock (Some (f_ip x)));;;
      r <- in_fs_mem (writei (C := proc_copy (ProcOps := proc_ops pagetable kl)) (f_ip x) true (u64 (addr + i)) (f_off x) n1);;
      (if 0 <? r then upd_f f (f_set_off (u32 (f_off x + r))) else ret tt);;;
      in_fs (iunlock (Some (f_ip x)));;;
      end_op;;;
      if negb (r =? n1) then ret i else filewrite_loop fuel pagetable kl f addr n (i + r)
    else ret i
  end.

(** [i0] is where a write to a pipe resumes, 0 at first. *)
Definition filewrite (pagetable : Z) (kl : bool) (f : nat) (addr n i0 : Z) : M fio segment :=
  x <- file_of f;;
  if negb (f_writable x) then ret (Return (-1))
  else match f_type x with
  | FD_PIPE => on_pipe (f_pipe x) (pipewrite (P := proc_ops pagetable kl) addr n i0)
  | FD_DEVICE =>
      if negb (is_dev (f_major x)) then ret (Return (-1))
      else match dev_write (f_major x) with None => ret (Return (-1)) | Some wr => wr addr n end
  | FD_INODE =>
      i <- filewrite_loop (S (Z.to_nat n)) pagetable kl f addr n 0;;
      ret (Return (if i =? n then n else -1))
  | FD_NONE => panic "filewrite"
  end.
End file.
