(* ===== verification/Syscall.v ===== *)
(** * System call arguments and process calls (kernel/syscall.c, kernel/sysproc.c)

    The arguments come from the trapframe of the running process [me]; strings
    and words from its memory.  The system calls of sysproc.c are the calls of
    proc.c on these arguments. *)

From S2P Require Import Prelude CString Mem Kalloc Vm Proc.

(** Offsets in the trapframe. *)
Definition TF_a1 : Z := 120.
Definition TF_a7 : Z := 168.

Section syscall.
Context {F : Type} {FO : FileOps F}.
Context (kend trampoline forkret : Z).
Context (me : nat).

Definition fetchaddr (addr : Z) : M (pstate F) (option Z) :=
  p <- at_proc me;;
  if (p_sz p <=? addr) || (p_sz p <? u64 (addr + 8)) then ret None
  else
    r <- in_mem (copyin (p_pagetable p) addr 8);;
    ret (le_dec <$> r).

(** The bytes stored in the buffer and the length of the string in it. *)
Definition fetchstr (addr max : Z) : M (pstate F) (option (list byte * Z)) :=
  p <- at_proc me;;
  r <- in_mem (copyinstr (p_pagetable p) addr max);;
  match r with
  | None => ret None
  | Some bs => n <- from_opt (KString.strlen bs);; ret (Some (bs, n))
  end.

Definition argraw (n : Z) : M (pstate F) Z :=
  p <- at_proc me;;
  if (0 <=? n) && (n <=? 5) then in_mem (gets (fun s => load64 (kmem s) (p_trapframe p + TF_a0 + 8 * n)))
  else panic "argraw".

Definition argint (n : Z) : M (pstate F) Z := x <- argraw n;; ret (i32 x).
Definition argaddr (n : Z) : M (pstate F) Z := argraw n.
Definition argstr (n max : Z) : M (pstate F) (option (list byte * Z)) := addr <- argaddr n;; fetchstr addr max.

(** ** Process calls *)

Definition sys_exit : M (pstate F) unit := n <- argint 0;; exit me n.

Definition sys_getpid : M (pstate F) Z := p <- at_proc me;; ret (p_pid p).

Definition sys_fork : M (pstate F) Z := fork kend trampoline forkret me.

(** One round of the wait, as [wait] is. *)
Definition sys_wait : M (pstate F) wait_end := p <- argaddr 0;; wait kend me p.

Definition sys_sbrk : M (pstate F) Z :=
  n <- argint 0;;
  p <- at_proc me;;
  r <- growproc kend me n;;
  ret (if r <? 0 then -1 else p_sz p).

(** The loop of [sys_sleep] from the top, with [ticks] now and at the start of
    the call: it returns, or sleeps on [&ticks]. The comparison is of unsigned
    numbers. *)
Definition sys_sleep (ticks_addr ticks ticks0 n : Z) : M (pstate F) wait_end :=
  if u32 (ticks - ticks0) <? u32 n then
    k <- killed me;;
    if k : bool then ret (WReturn (-1))
    else sleep me (CAddr ticks_addr);;; ret WSleep
  else ret (WReturn 0).

Definition sys_kill : M (pstate F) Z := pid <- argint 0;; kill pid.

Definition sys_uptime (ticks : Z) : M (pstate F) Z := ret ticks.
End syscall.
