(* ===== verification/Sysfile.v ===== *)
(** * File system calls (kernel/sysfile.c)

    Each system call of process [me], with its argument checks, over the open
    files of [File] and the file system of [Fs].  A pointer to an inode or a file
    is the index in its table. *)

From S2P Require Import Prelude CString Mem Kalloc Vm Bio FsLayout TxnLayer Fs Pipe Proc File Syscall.

Definition MAXPATH : Z := 128.
Definition O_RDONLY : Z := 0x000.
Definition O_WRONLY : Z := 0x001.
Definition O_RDWR : Z := 0x002.
Definition O_CREATE : Z := 0x200.
Definition O_TRUNC : Z := 0x400.

Definition i_set_nlink (n : Z) (x : inode) : inode :=
  mkInode (i_dev x) (i_inum x) (i_ref x) (i_lock x) (i_valid x) (i_type x) (i_major x) (i_minor x) n (i_size x) (i_addrs x).
Definition i_set_dev (major minor : Z) (x : inode) : inode :=
  mkInode (i_dev x) (i_inum x) (i_ref x) (i_lock x) (i_valid x) (i_type x) major minor (i_nlink x) (i_size x) (i_addrs x).

Section sysfile.
Context {T : Type} {TO : TxnOps T} {OO : OpOps T}.
Context (kend : Z).
Context (dev_read dev_write : Z -> option (Z -> Z -> M (kst * kfs T) segment)).
(** What the stack holds where the code declares [char name[DIRSIZ]] and the
    padding of [struct stat]. *)
Context (name0 pad : list byte).
Context (me : nat).

Abbreviation K := (pstate (kfs T)).

Definition io {A} (m : M (kst * kfs T) A) : M K A := in_files m.
Definition fsm {A} (m : M (fsst T) A) : M K A := io (in_fs m).
Definition my {A} (g : proc -> A) : M K A := p <- at_proc me;; ret (g p).
Definition fail : M K Z := io end_op;;; ret (-1).

(** ** Descriptors *)

Definition argfd (n : Z) : M K (option (nat * nat)) :=
  fd <- argint me n;;
  p <- at_proc me;;
  if (fd <? 0) || (Z.of_nat NOFILE <=? fd) then ret None
  else match p_ofile p !! Z.to_nat fd with
  | Some (Some f) => ret (Some (Z.to_nat fd, f))
  | Some None => ret None
  | None => undef
  end.

Definition fdalloc (f : nat) : M K (option nat) :=
  p <- at_proc me;;
  match list_find (fun o => o = None) (p_ofile p) with
  | Some (fd, _) => upd me (w_ofile fd (Some f));;; ret (Some fd)
  | None => ret None
  end.

Definition sys_dup : M K Z :=
  a <- argfd 0;;
  match a with
  | None => ret (-1)
  | Some (_, f) =>
      o <- fdalloc f;;
      match o with
      | None => ret (-1)
      | Some fd => io (filedup f);;; ret (Z.of_nat fd)
      end
  end.

Definition sys_read : M K segment :=
  p <- argaddr me 1;;
  n <- argint me 2;;
  a <- argfd 0;;
  match a with
  | None => ret (Return (-1))
  | Some (_, f) => q <- at_proc me;; io (fileread dev_read (p_pagetable q) (p_killed q) f p n)
  end.

(** [i0] is where a write to a pipe resumes. *)
Definition sys_write (i0 : Z) : M K segment :=
  p <- argaddr me 1;;
  n <- argint me 2;;
  a <- argfd 0;;
  match a with
  | None => ret (Return (-1))
  | Some (_, f) => q <- at_proc me;; io (filewrite dev_write (p_pagetable q) (p_killed q) f p n i0)
  end.

Definition sys_close : M K Z :=
  a <- argfd 0;;
  match a with
  | None => ret (-1)
  | Some (fd, f) => upd me (w_ofile fd None);;; io (fileclose kend f);;; ret 0
  end.

Definition sys_fstat : M K Z :=
  st <- argaddr me 1;;
  a <- argfd 0;;
  match a with
  | None => ret (-1)
  | Some (_, f) => pt <- my p_pagetable;; io (filestat pt pad f st)
  end.

(** ** Links *)

Definition cwd_of : M K nat := p <- at_proc me;; from_opt (p_cwd p).
Definition sys_namei (path : list byte) : M K (option nat) := d <- cwd_of;; fsm (namei d path).
Definition sys_nameiparent (path : list byte) : M K (option nat * list byte) := d <- cwd_of;; fsm (nameiparent d path name0).

Definition link_bad (ip : nat) : M K Z :=
  fsm (ilock (Some ip));;;
  fsm (modify (upd_i ip (fun x => i_set_nlink (i16 (i_nlink x - 1)) x)));;;
  fsm (iupdate ip);;;
  fsm (iunlockput ip);;;
  fail.

Definition sys_link : M K Z :=
  old <- argstr me 0 MAXPATH;;
  match old with
  | None => ret (-1)
  | Some (old, _) =>
    new <- argstr me 1 MAXPATH;;
    match new with
    | None => ret (-1)
    | Some (new, _) =>
      io begin_op;;;
      o <- sys_namei old;;
      match o with
      | None => fail
      | Some ip =>
        fsm (ilock (Some ip));;;
        x <- fsm (inode_of ip);;
        if i_type x =? T_DIR then fsm (iunlockput ip);;; fail
        else
          fsm (modify (upd_i ip (fun x => i_set_nlink (i16 (i_nlink x + 1)) x)));;;
          fsm (iupdate ip);;;
          fsm (iunlock (Some ip));;;
          r <- sys_nameiparent new;;
          match r with
          | (None, _) => link_bad ip
          | (Some dp, name) =>
            fsm (ilock (Some dp));;;
            d <- fsm (inode_of dp);;
            x <- fsm (inode_of ip);;
            r <- (if negb (i_dev d =? i_dev x) then ret (-1) else fsm (dirlink dp name (i_inum x)));;
            if r <? 0 then fsm (iunlockput dp);;; link_bad ip
            else fsm (iunlockput dp);;; fsm (iput ip);;; io end_op;;; ret 0
          end
      end
    end
  end.

(** The scan of [isdirempty] from [off] on, with its local variable [de]. *)
Fixpoint isdirempty_loop (fuel : nat) (dp : nat) (off : Z) : M (fsst T) bool :=
  x <- inode_of dp;;
  if off <? i_size x then
    match fuel with
    | O => nofuel
    | S fuel =>
        r <- with_local de0 (readi dp false 0 off de_size);;
        if negb (r.1 =? de_size) then panic "isdirempty: readi"
        else if negb (rd 2 0 r.2 =? 0) then ret false
        else isdirempty_loop fuel dp (off + de_size)
    end
  else ret true.
Definition isdirempty (dp : nat) : M (fsst T) bool :=
  x <- inode_of dp;; isdirempty_loop (dir_rounds (i_size x)) dp (2 * de_size).

Definition unlink_bad (dp : nat) : M K Z := fsm (iunlockput dp);;; fail.

Definition sys_unlink : M K Z :=
  path <- argstr me 0 MAXPATH;;
  match path with
  | None => ret (-1)
  | Some (path, _) =>
    io begin_op;;;
    r <- sys_nameiparent path;;
    match r with
    | (None, _) => fail
    | (Some dp, name) =>
      fsm (ilock (Some dp));;;
      c1 <- from_opt (namecmp name (bytes "." ++ [x00]));;
      c2 <- (if c1 =? 0 then ret 0 else from_opt (namecmp name (bytes ".." ++ [x00])));;
      if c2 =? 0 then unlink_bad dp
      else
        e <- fsm (dirlookup dp name);;
        match e with
        | None => unlink_bad dp
        | Some (off, ip) =>
          fsm (ilock (Some ip));;;
          x <- fsm (inode_of ip);;
          if i_nlink x <? 1 then panic "unlink: nlink < 1"
          else
            full <- (if i_type x =? T_DIR then e <- fsm (isdirempty ip);; ret (negb e) else ret false);;
            if full : bool then fsm (iunlockput ip);;; unlink_bad dp
            else
              r <- fsm (with_local de0 (writei dp false 0 off de_size));;
              if negb (r.1 =? de_size) then panic "unlink: writei"
              else
                (if i_type x =? T_DIR then
                   fsm (modify (upd_i dp (fun x => i_set_nlink (i16 (i_nlink x - 1)) x)));;; fsm (iupdate dp)
                 else ret tt);;;
                fsm (iunlockput dp);;;
                fsm (modify (upd_i ip (fun x => i_set_nlink (i16 (i_nlink x - 1)) x)));;;
                fsm (iupdate ip);;;
                fsm (iunlockput ip);;;
                io end_op;;;
                ret 0
        end
    end
  end.

(** ** Creation *)

Definition create_fail (ip dp : nat) : M K (option nat) :=
  fsm (modify (upd_i ip (i_set_nlink 0)));;;
  fsm (iupdate ip);;;
  fsm (iunlockput ip);;;
  fsm (iunlockput dp);;;
  ret None.

Definition create (path : list byte) (type major minor : Z) : M K (option nat) :=
  r <- sys_nameiparent path;;
  match r with
  | (None, _) => ret None
  | (Some dp, name) =>
    fsm (ilock (Some dp));;;
    e <- fsm (dirlookup dp name);;
    match e with
    | Some (_, ip) =>
      fsm (iunlockput dp);;;
      fsm (ilock (Some ip));;;
      x <- fsm (inode_of ip);;
      if (type =? T_FILE) && ((i_type x =? T_FILE) || (i_type x =? T_DEVICE)) then ret (Some ip)
      else fsm (iunlockput ip);;; ret None
    | None =>
      d <- fsm (inode_of dp);;
      o <- fsm (ialloc (i_dev d) type);;
      match o with
      | None => fsm (iunlockput dp);;; ret None
      | Some ip =>
        fsm (ilock (Some ip));;;
        fsm (modify (upd_i ip (i_set_dev (i16 major) (i16 minor))));;;
        fsm (modify (upd_i ip (i_set_nlink 1)));;;
        fsm (iupdate ip);;;
        x <- fsm (inode_of ip);;
        r <- (if type =? T_DIR then
                r <- fsm (dirlink ip (bytes "." ++ [x00]) (i_inum x));;
                if r <? 0 then ret r else fsm (dirlink ip (bytes ".." ++ [x00]) (i_inum d))
              else ret 0);;
        if r <? 0 then create_fail ip dp
        else
          r <- fsm (dirlink dp name (i_inum x));;
          if r <? 0 then create_fail ip dp
          else
            (if type =? T_DIR then
               fsm (modify (upd_i dp (fun x => i_set_nlink (i16 (i_nlink x + 1)) x)));;; fsm (iupdate dp)
             else ret tt);;;
            fsm (iunlockput dp);;;
            ret (Some ip)
      end
    end
  end.

Definition open_fail (ip : nat) : M K Z := fsm (iunlockput ip);;; fail.

(** The second half of [sys_open], with the inode locked. *)
Definition open_file (ip : nat) (omode : Z) : M K Z :=
  x <- fsm (inode_of ip);;
  if (i_type x =? T_DEVICE) && negb (is_dev (i_major x)) then open_fail ip
  else
    fo <- io filealloc;;
    match fo with
    | None => open_fail ip
    | Some f =>
      o <- fdalloc f;;
      match o with
      | None => io (fileclose kend f);;; open_fail ip
      | Some fd =>
        (if i_type x =? T_DEVICE then
           io (upd_f f (f_set_type FD_DEVICE));;; io (upd_f f (f_set_major (i_major x)))
         else
           io (upd_f f (f_set_type FD_INODE));;; io (upd_f f (f_set_off 0)));;;
        io (upd_f f (f_set_ip ip));;;
        io (upd_f f (f_set_mode (Z.land omode O_WRONLY =? 0)
              (negb (Z.land omode O_WRONLY =? 0) || negb (Z.land omode O_RDWR =? 0))));;;
        (if negb (Z.land omode O_TRUNC =? 0) && (i_type x =? T_FILE) then fsm (itrunc ip) else ret tt);;;
        fsm (iunlock (Some ip));;;
        io end_op;;;
        ret (Z.of_nat fd)
      end
    end.

Definition sys_open : M K Z :=
  omode <- argint me 1;;
  path <- argstr me 0 MAXPATH;;
  match path with
  | None => ret (-1)
  | Some (path, _) =>
    io begin_op;;;
    if negb (Z.land omode O_CREATE =? 0) then
      o <- create path T_FILE 0 0;;
      match o with None => fail | Some ip => open_file ip omode end
    else
      o <- sys_namei path;;
      match o with
      | None => fail
      | Some ip =>
        fsm (ilock (Some ip));;;
        x <- fsm (inode_of ip);;
        if (i_type x =? T_DIR) && negb (omode =? O_RDONLY) then open_fail ip
        else open_file ip omode
      end
  end.

Definition sys_mkdir : M K Z :=
  io begin_op;;;
  path <- argstr me 0 MAXPATH;;
  match path with
  | None => fail
  | Some (path, _) =>
    o <- create path T_DIR 0 0;;
    match o with None => fail | Some ip => fsm (iunlockput ip);;; io end_op;;; ret 0 end
  end.

Definition sys_mknod : M K Z :=
  io begin_op;;;
  major <- argint me 1;;
  minor <- argint me 2;;
  path <- argstr me 0 MAXPATH;;
  match path with
  | None => fail
  | Some (path, _) =>
    o <- create path T_DEVICE major minor;;
    match o with None => fail | Some ip => fsm (iunlockput ip);;; io end_op;;; ret 0 end
  end.

Definition sys_chdir : M K Z :=
  io begin_op;;;
  path <- argstr me 0 MAXPATH;;
  match path with
  | None => fail
  | Some (path, _) =>
    o <- sys_namei path;;
    match o with
    | None => fail
    | Some ip =>
      fsm (ilock (Some ip));;;
      x <- fsm (inode_of ip);;
      if negb (i_type x =? T_DIR) then fsm (iunlockput ip);;; fail
      else
        fsm (iunlock (Some ip));;;
        d <- cwd_of;;
        fsm (iput d);;;
        io end_op;;;
        upd me (w_cwd (Some ip));;;
        ret 0
    end
  end.

(** ** Pipes *)

Definition sys_pipe : M K Z :=
  fdarray <- argaddr me 0;;
  o <- io (pipealloc kend);;
  match o with
  | None => ret (-1)
  | Some (rf, wf) =>
    o0 <- fdalloc rf;;
    match o0 with
    | None => io (fileclose kend rf);;; io (fileclose kend wf);;; ret (-1)
    | Some fd0 =>
      o1 <- fdalloc wf;;
      match o1 with
      | None => upd me (w_ofile fd0 None);;; io (fileclose kend rf);;; io (fileclose kend wf);;; ret (-1)
      | Some fd1 =>
        pt <- my p_pagetable;;
        r <- in_mem (copyout pt fdarray (le_enc 4 (Z.of_nat fd0)));;
        r <- (if r <? 0 then ret r else in_mem (copyout pt (u64 (fdarray + 4)) (le_enc 4 (Z.of_nat fd1))));;
        if r <? 0 then
          upd me (w_ofile fd0 None);;;
          upd me (w_ofile fd1 None);;;
          io (fileclose kend rf);;;
          io (fileclose kend wf);;;
          ret (-1)
        else ret 0
      end
    end
  end.
End sysfile.
