(* ===== verification/Exec.v ===== *)
(** * Loading programs (kernel/exec.c, sys_exec)

    [exec] reads an ELF file into a new address space, lays out the arguments on
    its stack and commits to it, or fails and leaves the process as it was. *)

From S2P Require Import Prelude CString Mem Kalloc Vm Bio FsLayout TxnLayer Fs Pipe Proc File Syscall Sysfile.

Definition MAXARG : nat := 32.
Definition ELF_MAGIC : Z := 0x464C457F.
Definition ELF_PROG_LOAD : Z := 1.

Record elfhdr := mkElf { elf_magic : Z; elf_entry : Z; elf_phoff : Z; elf_phnum : Z }.
Definition elf_size : Z := 64.
Definition elf_get (d : list byte) : elfhdr := mkElf (rd 4 0 d) (rd 8 24 d) (rd 8 32 d) (rd 2 56 d).

Record proghdr := mkPh { ph_type : Z; ph_flags : Z; ph_off : Z; ph_vaddr : Z; ph_filesz : Z; ph_memsz : Z }.
Definition ph_size : Z := 56.
Definition ph_get (d : list byte) : proghdr :=
  mkPh (rd 4 0 d) (rd 4 4 d) (rd 8 8 d) (rd 8 16 d) (rd 8 32 d) (rd 8 40 d).

Definition flags2perm (flags : Z) : Z :=
  let perm := if negb (Z.land flags 1 =? 0) then PTE_X else 0 in
  if negb (Z.land flags 2 =? 0) then Z.lor perm PTE_W else perm.

Section exec.
Context {T : Type} {TO : TxnOps T} {OO : OpOps T}.
Context (kend trampoline : Z).
(** What the stack holds in [elf], [ph] and [ustack] before. *)
Context (elf0 ph0 : list byte).
Context (me : nat).

Abbreviation K := (pstate (kfs T)).

(** [readi] into physical memory, from the kernel. *)
Definition read_phys (ip : nat) (dst off n : Z) : M (kst * kfs T) Z :=
  in_fs_mem (readi (C := proc_copy (ProcOps := proc_ops 0 false)) ip false dst off n).

Fixpoint loadseg_loop (fuel : nat) (pagetable va : Z) (ip : nat) (offset sz i : Z) : M K Z :=
  if i <? sz then
    match fuel with
    | O => nofuel
    | S fuel =>
        pa <- in_mem (walkaddr pagetable (u64 (va + i)));;
        if pa =? 0 then panic "loadseg: address should exist"
        else
          let n := if sz - i <? PGSIZE then sz - i else PGSIZE in
          r <- io (read_phys ip pa (u32 (offset + i)) n);;
          if negb (r =? n) then ret (-1) else loadseg_loop fuel pagetable va ip offset sz (i + PGSIZE)
    end
  else ret 0.
Definition loadseg (pagetable va : Z) (ip : nat) (offset sz : Z) : M K Z :=
  loadseg_loop (S (Z.to_nat (sz / PGSIZE))) pagetable va ip offset sz 0.

(** The loop over the program headers: the new size, or the size at the failure. *)
Fixpoint exec_segments (n : nat) (pagetable : Z) (ip : nat) (off sz : Z) : M K (bool * Z) :=
  match n with
  | O => ret (true, sz)
  | S n =>
    r <- fsm (with_local ph0 (readi ip false 0 (u32 off) ph_size));;
    if negb (r.1 =? ph_size) then ret (false, sz)
    else
      let ph := ph_get r.2 in
      if negb (ph_type ph =? ELF_PROG_LOAD) then exec_segments n pagetable ip (off + ph_size) sz
      else if ph_memsz ph <? ph_filesz ph then ret (false, sz)
      else if u64 (ph_vaddr ph + ph_memsz ph) <? ph_vaddr ph then ret (false, sz)
      else if negb (ph_vaddr ph mod PGSIZE =? 0) then ret (false, sz)
      else
        sz1 <- in_mem (uvmalloc kend pagetable sz (u64 (ph_vaddr ph + ph_memsz ph)) (flags2perm (ph_flags ph)));;
        if sz1 =? 0 then ret (false, sz)
        else
          r <- loadseg pagetable (ph_vaddr ph) ip (u32 (ph_off ph)) (u32 (ph_filesz ph));;
          if r <? 0 then ret (false, sz1) else exec_segments n pagetable ip (off + ph_size) sz1
  end.

(** Pushing the argument strings: the stack pointer and the addresses, or [None]
    to give up. *)
Fixpoint push_args (pagetable stackbase sp : Z) (argv : list (list byte)) (ustack : list Z) : M K (option (Z * list Z)) :=
  match argv with
  | [] => ret (Some (sp, ustack))
  | a :: argv =>
    if (MAXARG <=? length ustack)%nat then ret None
    else
      len <- from_opt (KString.strlen a);;
      let sp := sp - (len + 1) in
      let sp := sp - sp mod 16 in
      if sp <? stackbase then ret None
      else
        r <- in_mem (copyout pagetable sp (take (Z.to_nat (len + 1)) a));;
        if r <? 0 then ret None else push_args pagetable stackbase sp argv (ustack ++ [sp])
  end.

(** What follows the last slash. *)
Fixpoint basename (s last : list byte) : list byte :=
  match s with
  | [] => last
  | c :: s => if bool_decide (c = x00) then last else if bool_decide (c = slash) then basename s s else basename s last
  end.

(** [bad:] with the inode still locked, and after it was released. *)
Definition exec_bad_ip (pagetable sz : Z) (ip : nat) : M K Z :=
  (if pagetable =? 0 then ret tt else in_mem (proc_freepagetable kend pagetable sz));;;
  fsm (iunlockput ip);;;
  io end_op;;;
  ret (-1).
Definition exec_bad (pagetable sz : Z) : M K Z := in_mem (proc_freepagetable kend pagetable sz);;; ret (-1).

(** From the call of [end_op] on: the stack, the arguments and the commit. *)
Definition exec_finish (path : list byte) (argv : list (list byte)) (elf : elfhdr) (pagetable sz : Z) : M K Z :=
  p <- at_proc me;;
  let oldsz := p_sz p in
  let sz := PGROUNDUP sz in
  sz1 <- in_mem (uvmalloc kend pagetable sz (u64 (sz + 2 * PGSIZE)) PTE_W);;
  if sz1 =? 0 then exec_bad pagetable sz
  else
    in_mem (uvmclear pagetable (sz1 - 2 * PGSIZE));;;
    let stackbase := sz1 - PGSIZE in
    a <- push_args pagetable stackbase sz1 argv [];;
    match a with
    | None => exec_bad pagetable sz1
    | Some (sp, ustack) =>
      let argc := Z.of_nat (length ustack) in
      let sp := sp - (argc + 1) * 8 in
      let sp := sp - sp mod 16 in
      if sp <? stackbase then exec_bad pagetable sz1
      else
        r <- in_mem (copyout pagetable sp (concat (le_enc 8 <$> ustack) ++ le_enc 8 0));;
        if r <? 0 then exec_bad pagetable sz1
        else
          tf_set me TF_a1 sp;;;
          name <- from_opt (KString.safestrcpy (p_name p) (basename path path) 16);;
          upd me (w_name name);;;
          upd me (w_pagetable pagetable);;;
          upd me (w_sz sz1);;;
          tf_set me TF_epc (elf_entry elf);;;
          tf_set me TF_sp sp;;;
          in_mem (proc_freepagetable kend (p_pagetable p) oldsz);;;
          ret argc
    end.

Definition exec (path : list byte) (argv : list (list byte)) : M K Z :=
  io begin_op;;;
  o <- sys_namei me path;;
  match o with
  | None => io end_op;;; ret (-1)
  | Some ip =>
    fsm (ilock (Some ip));;;
    r <- fsm (with_local elf0 (readi ip false 0 0 elf_size));;
    if negb (r.1 =? elf_size) then exec_bad_ip 0 0 ip
    else
      let elf := elf_get r.2 in
      if negb (elf_magic elf =? ELF_MAGIC) then exec_bad_ip 0 0 ip
      else
        p <- at_proc me;;
        pagetable <- in_mem (proc_pagetable kend trampoline (p_trapframe p));;
        if pagetable =? 0 then exec_bad_ip 0 0 ip
        else
          r <- exec_segments (Z.to_nat (elf_phnum elf)) pagetable ip (i32 (elf_phoff elf)) 0;;
          if negb r.1 then exec_bad_ip pagetable r.2 ip
          else
            fsm (iunlockput ip);;;
            io end_op;;;
            exec_finish path argv elf pagetable r.2
  end.

(** ** The system call *)

(** Fetching the arguments into pages of their own: the pages allocated, and
    whether all went well. The argument strings are in the pages. *)
Fixpoint fetch_args (fuel : nat) (uargv i : Z) (pages : list Z) : M K (list Z * bool) :=
  match fuel with
  | O => ret (pages, false)
  | S fuel =>
    u <- fetchaddr me (u64 (uargv + 8 * i));;
    match u with
    | None => ret (pages, false)
    | Some uarg =>
      if uarg =? 0 then ret (pages, true)
      else
        pg <- in_mem kalloc;;
        if pg =? 0 then ret (pages, false)
        else
          s <- fetchstr me uarg PGSIZE;;
          match s with
          | None => ret (pages ++ [pg], false)
          | Some (bs, _) =>
              in_mem (modify (set_mem (fun m => mwrite m pg bs)));;;
              fetch_args fuel uargv (i + 1) (pages ++ [pg])
          end
    end
  end.

Definition sys_exec : M K Z :=
  uargv <- argaddr me 1;;
  path <- argstr me 0 MAXPATH;;
  match path with
  | None => ret (-1)
  | Some (path, _) =>
    r <- fetch_args MAXARG uargv 0 [];;
    ret' <- (if r.2 : bool then
               argv <- in_mem (gets (fun s => (fun pg => mread (kmem s) pg (Z.to_nat PGSIZE)) <$> r.1));;
               exec path argv
             else ret (-1));;
    for_each r.1 (fun pg => in_mem (kfree kend pg));;;
    ret ret'
  end.
End exec.
