(* ===== verification/FileSpec.v ===== *)
(** * Open files: reference counts

    A file's count is the number of descriptors that refer to it, in all the
    processes' tables.  [quiet] calls leave descriptors and counts alone; the
    others are related to the number of references they take or give back. *)

From S2P Require Import Prelude CString Mem Kalloc Vm Bio FsLayout TxnLayer Fs Pipe Proc ProcSpec File Syscall Sysfile.

(** ** Counting *)

Definition cnt (f : nat) (o : list (option nat)) : nat := length (filter (fun x => x = Some f) o).
Definition refs (f : nat) (l : list proc) : nat := sum_list_with (fun p => cnt f (p_ofile p)) l.

Definition one (f g : nat) : Z := if decide (f = g) then 1 else 0.
Definition slot (o : option nat) (f : nat) : Z := match o with Some g => one g f | None => 0 end.

Lemma cnt_insert f o i (x y : option nat) :
  o !! i = Some x -> Z.of_nat (cnt f (<[i := y]> o)) = Z.of_nat (cnt f o) - slot x f + slot y f.
Proof.
  assert (forall z o, Z.of_nat (cnt f (z :: o)) = slot z f + Z.of_nat (cnt f o)) as Hc.
  { intros z o'. unfold cnt. rewrite filter_cons. unfold slot, one. destruct z as [g|]; repeat case_decide; simplify_eq; cbn [length]; lia. }
  revert i. induction o as [|z o IH]; intros [|i] H; [done..| |].
  - injection H as ->. change (<[0%nat := y]> (x :: o)) with (y :: o). rewrite !Hc. lia.
  - change (<[S i := y]> (z :: o)) with (z :: <[i := y]> o). rewrite !Hc, (IH i H). lia.
Qed.

Lemma cnt_pos f o i : o !! i = Some (Some f) -> (0 < cnt f o)%nat.
Proof.
  intros H. unfold cnt. assert (Some f ∈ filter (fun x => x = Some f) o) as Hin.
  { apply list_elem_of_filter. split; [done|]. by eapply list_elem_of_lookup_2. }
  destruct (filter _ o); [by apply elem_of_nil in Hin|cbn; lia].
Qed.

Lemma cnt_none f o : Forall (fun x => x = None) o -> cnt f o = 0%nat.
Proof. intros H. unfold cnt. induction H as [|x o -> _ IH]; [done|]. rewrite filter_cons. by rewrite decide_False. Qed.

Lemma refs_insert f l i p p' :
  l !! i = Some p -> Z.of_nat (refs f (<[i := p']> l)) = Z.of_nat (refs f l) - Z.of_nat (cnt f (p_ofile p)) + Z.of_nat (cnt f (p_ofile p')).
Proof.
  assert (forall z l, Z.of_nat (refs f (z :: l)) = Z.of_nat (cnt f (p_ofile z)) + Z.of_nat (refs f l)) as Hc.
  { intros z l'. unfold refs. cbn [sum_list_with]. lia. }
  revert i. induction l as [|z l IH]; intros [|i] H; [done..| |].
  - injection H as ->. change (<[0%nat := p']> (p :: l)) with (p' :: l). rewrite !Hc. lia.
  - change (<[S i := p']> (z :: l)) with (z :: <[i := p']> l). rewrite !Hc, (IH i H). lia.
Qed.

Lemma refs_ofile f l l' : p_ofile <$> l' = p_ofile <$> l -> refs f l' = refs f l.
Proof.
  unfold refs. revert l'. induction l as [|p l IH]; intros [|p' l'] H; [done..|]. injection H as H1 H2. cbn. rewrite H1. f_equal. by apply IH.
Qed.

Lemma refs_pos f l i p j : l !! i = Some p -> p_ofile p !! j = Some (Some f) -> (0 < refs f l)%nat.
Proof.
  intros Hi Hj. unfold refs. revert i Hi. induction l as [|z l IH]; intros [|i] Hi; [done..| |]; cbn in *.
  - injection Hi as ->. pose proof (cnt_pos f _ j Hj). lia.
  - specialize (IH i Hi). lia.
Qed.

(** ** The invariant *)

Definition dead (p : proc) : Prop := p_state p = UNUSED \/ p_state p = ZOMBIE.

Section spec.
Context {T : Type} {TO : TxnOps T} {OO : OpOps T}.
Context (kend : Z).
Abbreviation K := (pstate (kfs T)).
Implicit Types (s : K).

Definition files s : list file := k_files (ps_files s).

(** [h f] more references to [f] are counted than descriptors refer to it: the
    ones the running call has in hand. The files in [N] are being set up. *)
Record finv (h : nat -> Z) (N : list nat) s : Prop := mkFinv {
  fi_len : length (files s) = NFILE;
  fi_ref : forall f x, files s !! f = Some x -> f_ref x = Z.of_nat (refs f (ps_procs s)) + h f;
  fi_free : forall f x, files s !! f = Some x -> f_ref x = 0 -> f_type x = FD_NONE;
  fi_type : forall f x, files s !! f = Some x -> f_ref x <> 0 -> ~ f ∈ N -> f_type x <> FD_NONE;
  fi_new : forall f x, files s !! f = Some x -> f ∈ N -> f_ref x = 1;
  fi_slot : forall i p j f, ps_procs s !! i = Some p -> p_ofile p !! j = Some (Some f) -> (f < NFILE)%nat;
  fi_tab : forall i p, ps_procs s !! i = Some p -> length (p_ofile p) = NOFILE;
  fi_dead : forall i p, ps_procs s !! i = Some p -> dead p -> Forall (fun x => x = None) (p_ofile p)
}.

Definition none : nat -> Z := fun _ => 0.
Definition plus1 (h : nat -> Z) (f : nat) : nat -> Z := fun g => h g + one f g.
Definition less1 (h : nat -> Z) (f : nat) : nat -> Z := fun g => h g - one f g.

Lemma finv_ext h h' N s : (forall f, h' f = h f) -> finv h N s -> finv h' N s.
Proof. intros E [? Hr ? ? ? ? ? ?]. split; try done. intros f x Hx. rewrite E. by apply Hr. Qed.

Lemma plus_less h f g : less1 (plus1 h f) f g = h g.
Proof. unfold less1, plus1. lia. Qed.
Lemma less_plus h f g : plus1 (less1 h f) f g = h g.
Proof. unfold less1, plus1. lia. Qed.

(** ** Calls that leave descriptors and counts alone *)

Definition same_file (x y : file) : Prop := f_ref y = f_ref x /\ f_type y = f_type x.
Definition same_files (l l' : list file) : Prop := Forall2 same_file l l'.

Lemma same_files_refl l : same_files l l.
Proof. induction l; constructor; [done|done]. Qed.
Lemma same_files_trans l1 l2 l3 : same_files l1 l2 -> same_files l2 l3 -> same_files l1 l3.
Proof.
  intros H. revert l3. induction H as [|x y l l' [E1 E2] _ IH]; intros l3 H3; [done|].
  inversion H3 as [|? z ? ? [E3 E4] ?]; subst. constructor; [split; congruence|by apply IH].
Qed.

Record qrel s s' : Prop := mkQ {
  q_ofile : p_ofile <$> ps_procs s' = p_ofile <$> ps_procs s;
  q_files : same_files (files s) (files s');
  q_dead : forall i p p', ps_procs s !! i = Some p -> ps_procs s' !! i = Some p' -> dead p' -> dead p
}.

Lemma ofile_lookup s s' i p' :
  p_ofile <$> ps_procs s' = p_ofile <$> ps_procs s -> ps_procs s' !! i = Some p' -> exists p, ps_procs s !! i = Some p /\ p_ofile p' = p_ofile p.
Proof.
  intros E H. assert ((p_ofile <$> ps_procs s') !! i = Some (p_ofile p')) as H' by (by rewrite list_lookup_fmap, H).
  rewrite E, list_lookup_fmap in H'. destruct (ps_procs s !! i) as [p|]; [|done]. exists p. by injection H' as <-.
Qed.

Lemma qrel_refl s : qrel s s.
Proof. split; [done|apply same_files_refl|]. intros i p p' H H'. rewrite H in H'. by injection H' as <-. Qed.
Lemma qrel_trans s1 s2 s3 : qrel s1 s2 -> qrel s2 s3 -> qrel s1 s3.
Proof.
  intros Q1 Q2. split; [etransitivity; [apply Q2|apply Q1]|eapply same_files_trans; [apply Q1|apply Q2]|].
  intros i p p' H H' Hd. destruct (ofile_lookup _ _ _ _ (q_ofile _ _ Q2) H') as (q & Hq & _). eapply (q_dead _ _ Q1); [done..|]. by eapply (q_dead _ _ Q2).
Qed.

Lemma finv_same h N s s' :
  p_ofile <$> ps_procs s' = p_ofile <$> ps_procs s -> same_files (files s) (files s') ->
  (forall i p', ps_procs s' !! i = Some p' -> dead p' -> Forall (fun x => x = None) (p_ofile p')) ->
  finv h N s -> finv h N s'.
Proof.
  intros Q Hff Hdd [Hl Hr Hf Ht Hn Hs Hb Hd]. pose proof (Forall2_length _ _ _ Hff) as Hlen.
  assert (forall f y, files s' !! f = Some y -> exists x, files s !! f = Some x /\ same_file x y) as Hback.
  { intros f y Hy. destruct (Forall2_lookup_r _ _ _ _ _ Hff Hy) as (x & Hx & E). by exists x. }
  split; [by rewrite <- Hlen|..|done].
  - intros f y (x & Hx & E1 & _)%Hback. rewrite E1, (refs_ofile f _ _ Q). by apply Hr.
  - intros f y (x & Hx & E1 & E2)%Hback. rewrite E1, E2. by eapply Hf.
  - intros f y (x & Hx & E1 & E2)%Hback. rewrite E1, E2. by eapply Ht.
  - intros f y (x & Hx & E1 & _)%Hback. rewrite E1. by eapply Hn.
  - intros i p' j f (p & Hp & E)%(ofile_lookup _ _ _ _ Q). rewrite E. by eapply Hs.
  - intros i p' (p & Hp & E)%(ofile_lookup _ _ _ _ Q). rewrite E. by eapply Hb.
Qed.

Lemma finv_quiet h N s s' : qrel s s' -> finv h N s -> finv h N s'.
Proof.
  intros Q Hi. apply (finv_same h N s); [apply Q..| |done]. intros i p' Hp' Hdp.
  destruct (ofile_lookup _ _ _ _ (q_ofile _ _ Q) Hp') as (p & Hp & ->). apply (fi_dead _ _ _ Hi i); [done|]. by eapply (q_dead _ _ Q).
Qed.

Definition quiet {A} (m : M K A) : Prop := forall s a s', m s = Ok a s' -> qrel s s'.
Definition fquiet {A} (m : M (kst * kfs T) A) : Prop :=
  forall t a t', m t = Ok a t' -> same_files (k_files t.2) (k_files t'.2).

Lemma quiet_ret {A} (a : A) : quiet (ret a).
Proof. intros s b s' [_ ->]%ret_inv. apply qrel_refl. Qed.
Lemma quiet_bind {A B} (m : M K A) (k : A -> M K B) : quiet m -> (forall a, quiet (k a)) -> quiet (bind m k).
Proof. intros Hm Hk s b s' (a & s1 & E1 & E2)%bind_ok_inv. eapply qrel_trans; [by eapply Hm|by eapply Hk]. Qed.
Lemma quiet_panic {A} e : quiet (panic e : M K A).
Proof. by intros s a s'. Qed.
Lemma quiet_undef {A} : quiet (undef : M K A).
Proof. by intros s a s'. Qed.
Lemma quiet_nofuel {A} : quiet (nofuel : M K A).
Proof. by intros s a s'. Qed.
Lemma quiet_opt {A} (o : option A) : quiet (from_opt o).
Proof. intros s a s' [_ ->]%from_opt_inv. apply qrel_refl. Qed.
Lemma quiet_gets {A} (g : K -> A) : quiet (gets g).
Proof. intros s a s' [_ ->]%gets_inv. apply qrel_refl. Qed.
Lemma quiet_at_proc i : quiet (at_proc i).
Proof. intros s a s' [_ ->]%at_proc_inv. apply qrel_refl. Qed.
Lemma quiet_in_mem {A} (m : M kst A) : quiet (in_mem m).
Proof.
  intros s a s'. unfold in_mem, zoom. destruct (m (ps_mem s)); intros [=]; subst.
  split; [done|apply same_files_refl|]. intros i p p' H H'. cbn in H'. rewrite H in H'. by injection H' as <-.
Qed.
Lemma quiet_io {A} (m : M (kst * kfs T) A) : fquiet m -> quiet (io m).
Proof.
  intros Hm s a s'. unfold io, in_files, zoom. destruct (m _) as [b [k f]| | | |] eqn:E; intros [=]; subst. apply Hm in E.
  split; [done|exact E|]. intros i p p' H H'. cbn in H'. rewrite H in H'. by injection H' as <-.
Qed.
Lemma quiet_upd i g : (forall p, p_ofile (g p) = p_ofile p) -> (forall p, dead (g p) -> dead p) -> quiet (upd i g).
Proof.
  intros Ho Hd s a s' [= _ <-]. split; cbn.
  - apply list_eq. intros j. rewrite !list_lookup_fmap. destruct (decide (j = i)) as [->|].
    + rewrite list_lookup_alter_eq. destruct (ps_procs s !! i); cbn; [by rewrite Ho|done].
    + by rewrite list_lookup_alter_ne.
  - apply same_files_refl.
  - intros j p p' H H'. destruct (decide (j = i)) as [->|].
    + rewrite list_lookup_alter_eq, H in H'. injection H' as <-. apply Hd.
    + rewrite list_lookup_alter_ne, H in H' by done. by injection H' as <-.
Qed.
Lemma quiet_for_each {B} (l : list B) (body : B -> M K unit) : (forall b, quiet (body b)) -> quiet (for_each l body).
Proof. intros Hb. induction l as [|b l IH]; cbn [for_each]; [apply quiet_ret|]. apply quiet_bind; [apply Hb|done]. Qed.
Lemma quiet_for_until {B R} (l : list B) (body : B -> M K (option R)) : (forall b, quiet (body b)) -> quiet (for_until l body).
Proof.
  intros Hb. induction l as [|b l IH]; cbn [for_until]; [apply quiet_ret|]. apply quiet_bind; [apply Hb|]. intros [r|]; [apply quiet_ret|done].
Qed.

Lemma fq_ret {A} (a : A) : fquiet (ret a).
Proof. intros s b s' [_ ->]%ret_inv. apply same_files_refl. Qed.
Lemma fq_bind {A B} (m : M (kst * kfs T) A) (k : A -> M (kst * kfs T) B) : fquiet m -> (forall a, fquiet (k a)) -> fquiet (bind m k).
Proof. intros Hm Hk s b s' (a & s1 & E1 & E2)%bind_ok_inv. eapply same_files_trans; [by eapply Hm|by eapply Hk]. Qed.
Lemma fq_gets {A} (g : kst * kfs T -> A) : fquiet (gets g).
Proof. intros s a s' [_ ->]%gets_inv. apply same_files_refl. Qed.
Lemma fq_opt {A} (o : option A) : fquiet (from_opt o).
Proof. intros s a s' [_ ->]%from_opt_inv. apply same_files_refl. Qed.
Lemma fq_panic {A} e : fquiet (panic e : M _ A).
Proof. by intros s a s'. Qed.
Lemma fq_nofuel {A} : fquiet (nofuel : M _ A).
Proof. by intros s a s'. Qed.
Lemma fq_km {A} (m : M kst A) : fquiet (km m).
Proof. intros s a s'. unfold km, zoom. destruct (m _); intros [=]; subst. apply same_files_refl. Qed.
Lemma fq_in_fs {A} (m : M (fsst T) A) : fquiet (in_fs m).
Proof. intros s a s'. unfold in_fs, kf, zoom. destruct (m _); intros [=]; subst. apply same_files_refl. Qed.
Lemma fq_in_fs_mem {A} (m : M (fsst T * kst) A) : fquiet (in_fs_mem m).
Proof. intros s a s'. unfold in_fs_mem, zoom. destruct (m _); intros [=]; subst. apply same_files_refl. Qed.
Lemma fq_upd_pipes g : fquiet (upd_pipes g).
Proof. intros s a s' [= _ <-]. apply same_files_refl. Qed.
Lemma fq_on_pipe {A} pi (m : M (pst kst) A) : fquiet (on_pipe pi m).
Proof.
  apply fq_bind; [apply fq_gets|intros ps]. apply fq_bind; [apply fq_opt|intros p]. intros s a s'. unfold zoom.
  destruct (m _); intros [=]; subst. apply same_files_refl.
Qed.
Lemma fq_upd_f f g : (forall x, same_file x (g x)) -> fquiet (upd_f f g).
Proof.
  intros Hg s a s' [= _ <-]. cbn. generalize (k_files s.2) as l. intros l. revert f. induction l as [|x l IH]; intros [|f]; cbn; constructor; auto.
  - apply same_files_refl.
  - by split.
  - apply IH.
Qed.

(** ** Calls about an entry without files *)

(** A call that changes nothing but entry [i], and there not the files. *)
Definition nquiet {A} (i : nat) (m : M K A) : Prop := forall s a s', m s = Ok a s' ->
  p_ofile <$> ps_procs s' = p_ofile <$> ps_procs s /\ same_files (files s) (files s') /\
  forall j p p', j <> i -> ps_procs s !! j = Some p -> ps_procs s' !! j = Some p' -> dead p' -> dead p.

Lemma nq_quiet {A} i (m : M K A) : quiet m -> nquiet i m.
Proof. intros Hq s a s' E. destruct (Hq s a s' E) as [H1 H2 H3]. split; [done|]. split; [done|]. intros j p p' _. apply H3. Qed.

Lemma nq_bind {A B} i (m : M K A) (k : A -> M K B) : nquiet i m -> (forall a, nquiet i (k a)) -> nquiet i (bind m k).
Proof.
  intros Hm Hk s b s' (a & s1 & E1 & E2)%bind_ok_inv. destruct (Hm _ _ _ E1) as (A1 & A2 & A3), (Hk _ _ _ _ E2) as (B1 & B2 & B3).
  split; [congruence|]. split; [by eapply same_files_trans|]. intros j p p' Hj Hp Hp' Hd.
  destruct (lookup_lt_is_Some_2 (ps_procs s1) j) as [q Hq].
  { pose proof (f_equal length A1) as E. rewrite !length_fmap in E. apply lookup_lt_Some in Hp. lia. }
  eapply A3; [done..|]. by eapply B3.
Qed.

Lemma nq_upd i g : (forall p, p_ofile (g p) = p_ofile p) -> nquiet i (upd i g).
Proof.
  intros Ho s a s' [= _ <-]. split; [|split]; cbn.
  - apply list_eq. intros j. rewrite !list_lookup_fmap. destruct (decide (j = i)) as [->|].
    + rewrite list_lookup_alter_eq. destruct (ps_procs s !! i); cbn; [by rewrite Ho|done].
    + by rewrite list_lookup_alter_ne.
  - apply same_files_refl.
  - intros j p p' Hj Hp. rewrite list_lookup_alter_ne, Hp by done. by intros [= <-].
Qed.

Definition empty (s : K) (i : nat) : Prop := exists p, ps_procs s !! i = Some p /\ Forall (fun x => x = None) (p_ofile p).

Lemma nquiet_refs {A} i (m : M K A) h N s a s' :
  nquiet i m -> finv h N s -> empty s i -> m s = Ok a s' -> finv h N s' /\ empty s' i.
Proof.
  intros Hq Hi (p & Hp & Hn) E. destruct (Hq _ _ _ E) as (Q1 & Q2 & Q3). assert (empty s' i) as He.
  { symmetry in Q1. destruct (ofile_lookup _ _ _ _ Q1 Hp) as (q & Hq' & Eq). exists q. by rewrite <- Eq. }
  split; [|done]. apply (finv_same h N s); [done..| |done]. intros j p' Hp' Hdp. destruct (decide (j = i)) as [->|Hj].
  - destruct He as (q & Hq' & Hqn). by simplify_eq.
  - destruct (ofile_lookup _ _ _ _ Q1 Hp') as (q & Hq' & ->). apply (fi_dead _ _ _ Hi j); [done|]. by eapply Q3.
Qed.

End spec.
