(* ===== verification/SysfileSpec.v ===== *)
(** * File system calls: descriptors and reference counts

    Every system call, and the process calls that pass files on, keep the
    reference counts right. *)

From S2P Require Import Prelude CString Mem Kalloc Vm Bio FsLayout TxnLayer Fs Pipe Proc ProcSpec File Syscall Sysfile Exec FileSpec.

(** Decompose a call into ones known to be quiet. *)
Ltac fquiet :=
  repeat first
    [ apply fq_ret | apply fq_gets | apply fq_opt | apply fq_panic | apply fq_nofuel | apply fq_km | apply fq_in_fs | apply fq_in_fs_mem
    | apply fq_upd_pipes | apply fq_on_pipe | (apply fq_upd_f; by intros)
    | assumption
    | match goal with |- fquiet (match ?x with _ => _ end) => destruct x eqn:? end
    | apply fq_bind; [|intros ?] ].

Ltac quiet :=
  repeat first
    [ apply quiet_ret | apply quiet_opt | apply quiet_gets | apply quiet_panic | apply quiet_undef | apply quiet_nofuel
    | apply quiet_at_proc | apply quiet_in_mem | (apply quiet_io; solve [fquiet])
    | (apply quiet_upd; [done|clear; unfold dead; cbn; naive_solver])
    | assumption
    | match goal with |- quiet (match ?x with _ => _ end) => destruct x eqn:? end
    | match goal with |- quiet (let _ := _ in _) => cbv zeta end
    | apply quiet_bind; [|intros ?] ].

Ltac nquiet := repeat first
  [ (apply nq_upd; done) | (apply nq_quiet; first [apply quiet_at_proc|apply quiet_in_mem|apply quiet_ret|apply quiet_gets])
  | match goal with |- nquiet _ (match ?x with _ => _ end) => destruct x end | apply nq_bind; [|intros ?] | (apply nq_quiet; solve [quiet]) ].

Section quiet.
Context {T : Type} {TO : TxnOps T} {OO : OpOps T}.
Context (kend trampoline : Z) (name0 pad elf0 ph0 : list byte) (me : nat).
Context (dev_read dev_write : Z -> option (Z -> Z -> M (kst * kfs T) segment)).
(** The devices do not close or open files. *)
Definition dev_ok (d : Z -> option (Z -> Z -> M (kst * kfs T) segment)) : Prop := forall mj f a n, d mj = Some f -> fquiet (f a n).

Abbreviation K := (pstate (kfs T)).

Lemma quiet_argraw n : quiet (argraw me n : M K Z).
Proof. unfold argraw. quiet. Qed.
Lemma quiet_argint n : quiet (argint me n : M K Z).
Proof. unfold argint. apply quiet_bind; [apply quiet_argraw|intros]. quiet. Qed.
Lemma quiet_argaddr n : quiet (argaddr me n : M K Z).
Proof. apply quiet_argraw. Qed.
Lemma quiet_fetchstr a n : quiet (fetchstr me a n : M K _).
Proof. unfold fetchstr. quiet. Qed.
Lemma quiet_fetchaddr a : quiet (fetchaddr me a : M K _).
Proof. unfold fetchaddr. quiet. Qed.
Lemma quiet_argstr n mx : quiet (argstr me n mx : M K _).
Proof. apply quiet_bind; [apply quiet_argaddr|intros]. apply quiet_fetchstr. Qed.
Lemma quiet_argfd n : quiet (argfd me n : M K _).
Proof. unfold argfd. apply quiet_bind; [apply quiet_argint|intros]. quiet. Qed.
Lemma quiet_namei path : quiet (sys_namei me path : M K _).
Proof. unfold sys_namei, cwd_of, fsm. quiet. Qed.
Lemma quiet_nameiparent path : quiet (sys_nameiparent name0 me path : M K _).
Proof. unfold sys_nameiparent, cwd_of, fsm. quiet. Qed.

Ltac quiet' :=
  repeat first
    [ progress quiet
    | apply quiet_argint | apply quiet_argaddr | apply quiet_argstr | apply quiet_argfd | apply quiet_fetchstr | apply quiet_fetchaddr
    | apply quiet_namei | apply quiet_nameiparent ].

Lemma quiet_fail : quiet (fail : M K Z).
Proof. unfold fail, end_op. quiet. Qed.
Lemma quiet_link_bad ip : quiet (link_bad ip : M K Z).
Proof. unfold link_bad, fsm. quiet'; apply quiet_fail. Qed.
Lemma quiet_unlink_bad ip : quiet (unlink_bad ip : M K Z).
Proof. unfold unlink_bad, fsm. quiet'; apply quiet_fail. Qed.
Lemma quiet_create_fail ip dp : quiet (create_fail ip dp : M K _).
Proof. unfold create_fail, fsm. quiet'. Qed.
Lemma quiet_open_fail ip : quiet (open_fail ip : M K Z).
Proof. unfold open_fail, fsm. quiet'; apply quiet_fail. Qed.

Lemma quiet_link : quiet (sys_link name0 me : M K Z).
Proof. unfold sys_link, begin_op, end_op, fsm. quiet'; first [apply quiet_fail|apply quiet_link_bad]. Qed.
Lemma quiet_unlink : quiet (sys_unlink name0 me : M K Z).
Proof. unfold sys_unlink, begin_op, end_op, fsm. quiet'; first [apply quiet_fail|apply quiet_unlink_bad]. Qed.
Lemma quiet_create path ty mj mn : quiet (create name0 me path ty mj mn : M K _).
Proof. unfold create, fsm. quiet'; apply quiet_create_fail. Qed.
Lemma quiet_mkdir : quiet (sys_mkdir name0 me : M K Z).
Proof. unfold sys_mkdir, begin_op, end_op, fsm. quiet'; first [apply quiet_fail|apply quiet_create|idtac]; quiet'; apply quiet_fail. Qed.
Lemma quiet_mknod : quiet (sys_mknod name0 me : M K Z).
Proof. unfold sys_mknod, begin_op, end_op, fsm. quiet'; first [apply quiet_fail|apply quiet_create|idtac]; quiet'; apply quiet_fail. Qed.
Lemma quiet_chdir : quiet (sys_chdir me : M K Z).
Proof. unfold sys_chdir, begin_op, end_op, cwd_of, fsm. quiet'; apply quiet_fail. Qed.

Lemma quiet_read : dev_ok dev_read -> quiet (sys_read dev_read me : M K _).
Proof.
  intros Hd. unfold sys_read. quiet'. apply quiet_io. unfold fileread, file_of. fquiet. match goal with E : dev_read _ = Some _ |- _ => by eapply Hd end.
Qed.

Lemma fq_filewrite_loop fuel pt kl f addr n i : fquiet (filewrite_loop fuel pt kl f addr n i : M (kst * kfs T) Z).
Proof.
  revert i. induction fuel as [|fuel IH]; intros i; [apply fq_nofuel|]. cbn [filewrite_loop]. unfold begin_op, end_op, file_of. cbv zeta. fquiet. apply IH.
Qed.

Lemma quiet_write i0 : dev_ok dev_write -> quiet (sys_write dev_write me i0 : M K _).
Proof.
  intros Hd. unfold sys_write. quiet'. apply quiet_io. unfold filewrite, file_of. fquiet;
    first [apply fq_filewrite_loop|match goal with E : dev_write _ = Some _ |- _ => by eapply Hd end].
Qed.

Lemma quiet_fstat : quiet (sys_fstat pad me : M K Z).
Proof. unfold sys_fstat, my. quiet'. Qed.

Lemma quiet_loadseg_loop fuel pt va ip off sz i : quiet (loadseg_loop fuel pt va ip off sz i : M K Z).
Proof. revert i. induction fuel as [|fuel IH]; intros i; cbn [loadseg_loop]; unfold read_phys; cbv zeta; quiet'. apply IH. Qed.

Lemma quiet_exec_segments n pt ip off sz : quiet (exec_segments kend ph0 n pt ip off sz : M K _).
Proof.
  revert off sz. induction n as [|n IH]; intros off sz; cbn [exec_segments]; unfold fsm; cbv zeta; quiet'; try apply IH.
  apply quiet_loadseg_loop.
Qed.

Lemma quiet_push_args pt sb sp argv us : quiet (push_args pt sb sp argv us : M K _).
Proof. revert sp us. induction argv as [|a argv IH]; intros sp us; cbn [push_args]; cbv zeta; quiet'. apply IH. Qed.

Lemma quiet_exec_finish path argv elf pt sz : quiet (exec_finish kend me path argv elf pt sz : M K Z).
Proof. unfold exec_finish, exec_bad, tf_set. cbv zeta. quiet; apply quiet_push_args. Qed.

Lemma quiet_exec_bad_ip pt sz ip : quiet (exec_bad_ip kend pt sz ip : M K Z).
Proof. unfold exec_bad_ip, end_op, fsm. quiet. Qed.

Lemma quiet_exec path argv : quiet (exec kend trampoline elf0 ph0 me path argv : M K Z).
Proof.
  unfold exec, begin_op, end_op, fsm. cbv zeta.
  repeat first [apply quiet_ret|apply quiet_exec_bad_ip|apply quiet_exec_finish|apply quiet_exec_segments|apply quiet_namei|apply quiet_at_proc|apply quiet_in_mem
    |(apply quiet_io; solve [fquiet])|match goal with |- quiet (match ?x with _ => _ end) => destruct x end|apply quiet_bind; [|intros ?]].
Qed.

Lemma quiet_fetch_args fuel uargv i pages : quiet (fetch_args me fuel uargv i pages : M K _).
Proof. revert i pages. induction fuel as [|fuel IH]; intros i pages; cbn [fetch_args]; quiet'. apply IH. Qed.

Lemma quiet_sys_exec : quiet (sys_exec kend trampoline elf0 ph0 me : M K Z).
Proof.
  unfold sys_exec. apply quiet_bind; [apply quiet_argaddr|intros uargv]. apply quiet_bind; [apply quiet_argstr|intros [[path n]|]]; [|apply quiet_ret].
  apply quiet_bind; [apply quiet_fetch_args|intros r]. apply quiet_bind.
  - destruct (r.2); [apply quiet_bind; [apply quiet_in_mem|intros argv; apply quiet_exec]|apply quiet_ret].
  - intros v. apply quiet_bind; [apply quiet_for_each; intros; apply quiet_in_mem|intros; apply quiet_ret].
Qed.

(** The process calls that do not pass files on. *)
Lemma quiet_growproc n : quiet (growproc kend me n : M K Z).
Proof. unfold growproc. quiet. Qed.
Lemma quiet_wakeup o c : quiet (wakeup o c : M K unit).
Proof. apply quiet_for_each. intros i. quiet. Qed.
Lemma quiet_sched : quiet (sched me : M K unit).
Proof. unfold sched. quiet. Qed.
Lemma quiet_sleep c : quiet (sleep me c : M K unit).
Proof. unfold sleep. quiet; apply quiet_sched. Qed.
Lemma quiet_yield : quiet (yield me : M K unit).
Proof. unfold yield. quiet; apply quiet_sched. Qed.
Lemma quiet_scheduler_try i : quiet (scheduler_try i : M K bool).
Proof. unfold scheduler_try. quiet. Qed.
Lemma quiet_kill pid : quiet (kill pid : M K Z).
Proof. unfold kill. apply quiet_bind; [|intros; apply quiet_ret]. apply quiet_for_until. intros i. quiet. Qed.
Lemma quiet_reparent : quiet (reparent me : M K unit).
Proof.
  apply quiet_for_each. intros i. apply quiet_bind; [apply quiet_at_proc|intros p]. case_bool_decide; [|apply quiet_ret].
  apply quiet_bind; [apply quiet_gets|intros init]. apply quiet_bind; [quiet|intros _]. apply quiet_bind; [apply quiet_opt|intros k]. apply quiet_wakeup.
Qed.
End quiet.
