(* ===== verification/FileRefs.v ===== *)
(** * Reference counts through the calls that open, close and pass on files *)

From S2P Require Import Prelude CString Mem Kalloc Vm Bio FsLayout TxnLayer Fs Pipe Proc ProcSpec File Syscall Sysfile Exec FileSpec SysfileSpec.

Section refs.
Context {T : Type} {TO : TxnOps T} {OO : OpOps T}.
Context (kend trampoline forkret : Z) (name0 pad elf0 ph0 : list byte).
Abbreviation K := (pstate (kfs T)).
Implicit Types (s : K).

(** What the file layer's functions leave alone. *)
Definition same_procs s s' : Prop := ps_procs s' = ps_procs s /\ ps_init s' = ps_init s /\ ps_nextpid s' = ps_nextpid s.

Lemma io_procs {A} (m : M (kst * kfs T) A) s a s' : io m s = Ok a s' -> same_procs s s'.
Proof. intros (H1 & H2 & H3)%in_files_inv. done. Qed.

(** One file changes. *)
Lemma finv_file h h' N N' s s' f g :
  finv h N s -> ps_procs s' = ps_procs s -> files s' = alter g f (files s) ->
  (forall x, files s !! f = Some x ->
     f_ref (g x) = f_ref x + (h' f - h f) /\ (f_ref (g x) = 0 -> f_type (g x) = FD_NONE) /\
     (f_ref (g x) <> 0 -> ~ f ∈ N' -> f_type (g x) <> FD_NONE) /\ (f ∈ N' -> f_ref (g x) = 1)) ->
  (forall k, k <> f -> h' k = h k /\ (k ∈ N' <-> k ∈ N)) ->
  finv h' N' s'.
Proof.
  intros [Hl Hr Hf Ht Hn Hs Hb Hd] Hp Hfs Hg Ho.
  assert (forall k y, files s' !! k = Some y -> k = f /\ (exists x, files s !! f = Some x /\ y = g x) \/ k <> f /\ files s !! k = Some y) as Hback.
  { intros k y. rewrite Hfs. destruct (decide (k = f)) as [->|Hne].
    - rewrite list_lookup_alter_eq. destruct (files s !! f) as [x|]; [|done]. intros [= <-]. left. eauto.
    - rewrite list_lookup_alter_ne by done. eauto. }
  split; try (rewrite Hp; done).
  - by rewrite Hfs, length_alter.
  - intros k y [[-> (x & Hx & ->)]|[Hk Hy]]%Hback; rewrite Hp.
    + destruct (Hg x Hx) as [-> _]. rewrite (Hr f x Hx). lia.
    + destruct (Ho k Hk) as [-> _]. by apply Hr.
  - intros k y [[-> (x & Hx & ->)]|[Hk Hy]]%Hback; [by apply Hg|by eapply Hf].
  - intros k y [[-> (x & Hx & ->)]|[Hk Hy]]%Hback; [by apply Hg|]. intros H1 H2. eapply Ht; [done..|]. by rewrite <- (proj2 (Ho k Hk)).
  - intros k y [[-> (x & Hx & ->)]|[Hk Hy]]%Hback; [by apply Hg|]. intros H1. eapply Hn; [done|]. by apply (Ho k Hk).
Qed.

(** One slot of one process changes. *)
Lemma finv_slot h N s s' i p fd old new :
  finv h N s -> ps_procs s !! i = Some p -> p_ofile p !! fd = Some old -> ps_procs s' = <[i := w_ofile fd new p]> (ps_procs s) -> files s' = files s ->
  (forall f, new = Some f -> (f < NFILE)%nat) -> (dead p -> new = None) ->
  finv (fun f => h f + slot old f - slot new f) N s'.
Proof.
  intros [Hl Hr Hf Ht Hn Hs Hb Hd] Hi Hfd Hp Hfs Hnew Hdead. pose proof (lookup_lt_Some _ _ _ Hi) as Hlt.
  assert (forall j q, ps_procs s' !! j = Some q -> j = i /\ q = w_ofile fd new p \/ j <> i /\ ps_procs s !! j = Some q) as Hback.
  { intros j q. rewrite Hp. intros [(-> & <- & _)|[? ?]]%list_lookup_insert_Some; [by left|by right; split; [intros ->|]]. }
  split; try (rewrite Hfs; done).
  - intros f x Hx. rewrite Hfs in Hx. rewrite Hp, (refs_insert f _ _ _ _ Hi). cbn [w_ofile p_ofile].
    rewrite (cnt_insert f _ _ _ new Hfd), (Hr f x Hx). lia.
  - intros j q k f [[-> ->]|[_ Hq]]%Hback; [|by eapply Hs]. cbn [w_ofile p_ofile]. intros [(_ & E & _)|[_ E]]%list_lookup_insert_Some; [by apply Hnew|by eapply Hs].
  - intros j q [[-> ->]|[_ Hq]]%Hback; [|by eapply Hb]. cbn [w_ofile p_ofile]. rewrite length_insert. by eapply Hb.
  - intros j q [[-> ->]|[_ Hq]]%Hback Hdq; [|by eapply Hd]. cbn [w_ofile p_ofile]. change (dead p) in Hdq. rewrite (Hdead Hdq). apply Forall_insert; [by eapply Hd|done].
Qed.

(** ** The table of files *)

Lemma filealloc_refs h N s o s' :
  finv h N s -> io filealloc s = Ok o s' ->
  ps_procs s' = ps_procs s /\
  match o with
  | None => finv h N s'
  | Some f => finv (plus1 h f) (f :: N) s' /\ (f < NFILE)%nat /\ ~ f ∈ N
  end.
Proof.
  intros Hi H. pose proof (io_procs _ _ _ _ H) as (Hp & _). split; [done|]. unfold io, in_files, filealloc, zoom in H.
  unfold bind, gets in H. cbn [fst snd] in H. change (k_files (ps_files s)) with (files s) in H.
  destruct (list_find (fun f => f_ref f = 0) (files s)) as [[f x]|] eqn:E; [|injection H as <- <-; by destruct s].
  apply list_find_Some in E as (Hx & Hz & _). cbn in H. injection H as <- <-.
  assert (f < NFILE)%nat as Hlt by (rewrite <- (fi_len _ _ _ Hi); by eapply lookup_lt_Some).
  split; [|split; [done|intros Hin; pose proof (fi_new _ _ _ Hi f x Hx Hin); congruence]].
  apply (finv_file h _ N _ s _ f (f_set_ref 1)); try done.
  - intros y Hy. rewrite Hx in Hy. injection Hy as <-. cbn. unfold plus1, one. rewrite decide_True by done.
    split; [lia|]. split; [lia|]. split; [|done]. intros _ Hn. destruct Hn. by left.
  - intros k Hk. unfold plus1, one. rewrite decide_False by done. split; [lia|]. rewrite elem_of_cons. naive_solver.
Qed.

Lemma filedup_refs h N s f r s' :
  finv h N s -> ~ f ∈ N -> io (filedup f) s = Ok r s' -> r = f /\ ps_procs s' = ps_procs s /\ finv (plus1 h f) N s'.
Proof.
  intros Hi HfN H. pose proof (io_procs _ _ _ _ H) as (Hp & _). unfold io, in_files, filedup, file_of, zoom in H.
  unfold bind, gets in H. cbn [fst snd] in H. change (k_files (ps_files s)) with (files s) in H.
  destruct (files s !! f) as [x|] eqn:Hx; [|done]. cbn in H. destruct (Z.ltb_spec (f_ref x) 1); [done|]. injection H as <- <-. split; [done|]. split; [done|].
  apply (finv_file h _ N _ s _ f (f_set_ref (f_ref x + 1))); try done.
  - intros y Hy. rewrite Hx in Hy. injection Hy as <-. cbn. unfold plus1, one. rewrite decide_True by done. split; [lia|]. split; [lia|].
    split; [|done]. intros _ Hn. apply (fi_type _ _ _ Hi f x Hx); [lia|done].
  - intros k Hk. unfold plus1, one. rewrite decide_False by done. split; [lia|done].
Qed.

(** A quiet call of the file layer. *)
Lemma io_quiet_refs {A} (m : M (kst * kfs T) A) h N s a s' : fquiet m -> finv h N s -> io m s = Ok a s' -> finv h N s' /\ ps_procs s' = ps_procs s.
Proof. intros Hq Hi H. pose proof (io_procs _ _ _ _ H) as (Hp & _). split; [|done]. eapply finv_quiet; [|done]. by eapply quiet_io. Qed.

Lemma io_bind {A B} (m : M (kst * kfs T) A) (k : A -> M (kst * kfs T) B) s : io (bind m k) s = bind (io m) (fun a => io (k a)) s.
Proof. unfold io, in_files, zoom, bind. cbn. destruct (m _) as [a [km kf]| | | |]; try done. Qed.

Lemma upd_f_eq f g s u s' : io (upd_f f g) s = Ok u s' -> files s' = alter g f (files s) /\ ps_procs s' = ps_procs s.
Proof. intros [= _ <-]. done. Qed.

Lemma file_of_eq f s x s' : io (file_of f) s = Ok x s' -> files s !! f = Some x /\ s' = s.
Proof.
  unfold io, in_files, file_of, zoom, bind, gets. cbn [fst snd]. change (k_files (ps_files s)) with (files s). destruct (files s !! f); cbn; [|done].
  intros [= -> <-]. by destruct s.
Qed.

Lemma fileclose_refs h N N' s f u s' :
  finv h N s -> io (fileclose kend f) s = Ok u s' -> (forall k, k ∈ N' <-> k ∈ N /\ k <> f) ->
  finv (less1 h f) N' s' /\ ps_procs s' = ps_procs s.
Proof.
  intros Hi H HN. pose proof (io_procs _ _ _ _ H) as (Hp & _). split; [|done]. unfold fileclose in H. rewrite io_bind in H.
  apply bind_ok_inv in H as (x & ? & [Hx ->]%file_of_eq & H). destruct (Z.ltb_spec (f_ref x) 1); [done|]. rewrite io_bind in H.
  apply bind_ok_inv in H as (? & s1 & [F1 P1]%upd_f_eq & H).
  assert (forall k, k <> f -> less1 h f k = h k /\ (k ∈ N' <-> k ∈ N)) as Ho.
  { intros k Hk. unfold less1, one. rewrite decide_False by done. split; [lia|]. rewrite HN. naive_solver. }
  assert (less1 h f f - h f = -1) as Hone by (unfold less1, one; rewrite decide_True by done; lia).
  destruct (Z.ltb_spec 0 (f_ref x - 1)).
  - assert (s' = s1) as -> by (unfold io, in_files, zoom in H; injection H as _ <-; by destruct s1).
    apply (finv_file h _ N _ s _ f (f_set_ref (f_ref x - 1))); try done.
    intros y Hy. rewrite Hx in Hy. injection Hy as <-. cbn. rewrite Hone. split; [lia|]. split; [lia|]. split; [|by intros [_ ?]%HN].
    intros _ Hn. apply (fi_type _ _ _ Hi f x Hx); [lia|]. intros Hin. pose proof (fi_new _ _ _ Hi f x Hx Hin). lia.
  - rewrite io_bind in H. apply bind_ok_inv in H as (? & s2 & [F2 P2]%upd_f_eq & H). rewrite io_bind in H. apply bind_ok_inv in H as (? & s3 & [F3 P3]%upd_f_eq & H).
    assert (finv (less1 h f) N' s3) as H3.
    { apply (finv_file h _ N _ s _ f (f_set_type FD_NONE ∘ f_set_ref 0 ∘ f_set_ref (f_ref x - 1))); try done; [congruence| |].
      - rewrite F3, F2, F1. by rewrite !alter_alter_list.
      - intros y Hy. rewrite Hx in Hy. injection Hy as <-. cbn. rewrite Hone. split; [lia|]. split; [done|]. split; [done|]. by intros [_ ?]%HN. }
    refine (proj1 (io_quiet_refs _ _ _ _ _ _ _ H3 H)). unfold begin_op, end_op. fquiet.
Qed.

Lemma N_nil f : forall k, k ∈ @nil nat <-> k ∈ [f] /\ k <> f.
Proof. intros k. rewrite elem_of_nil, list_elem_of_singleton. naive_solver. Qed.
Lemma N_nil' f : forall k, k ∈ @nil nat <-> k ∈ @nil nat /\ k <> f.
Proof. intros k. rewrite elem_of_nil. naive_solver. Qed.

(** ** Descriptors *)

Lemma slot_some f g : slot (Some f) g = one f g.
Proof. done. Qed.

Lemma fdalloc_refs h N s me f o s' p :
  finv h N s -> ps_procs s !! me = Some p -> ~ dead p -> (f < NFILE)%nat -> fdalloc me f s = Ok o s' ->
  match o with
  | None => s' = s
  | Some fd => finv (less1 h f) N s' /\ p_ofile p !! fd = Some None /\ ps_procs s' = <[me := w_ofile fd (Some f) p]> (ps_procs s) /\ files s' = files s /\
      (forall j, (j < fd)%nat -> p_ofile p !! j <> Some None)
  end.
Proof.
  intros Hi Hm Hd Hf H. unfold fdalloc in H. apply bind_ok_inv in H as (q & ? & [Hq ->]%at_proc_inv & H). rewrite Hm in Hq. injection Hq as <-.
  destruct (list_find (fun o => o = None) (p_ofile p)) as [[fd old]|] eqn:E; [|by apply ret_inv in H as [-> ->]].
  apply list_find_Some in E as (Hfd & -> & Hlow). apply bind_ok_inv in H as (? & s1 & E1 & [-> ->]%ret_inv).
  pose proof (upd_inv _ _ _ _ _ E1) as (Hp & _). rewrite (alter_insert _ _ _ _ Hm) in Hp. injection E1 as _ <-.
  split_and!; try done; [|intros j Hj Hjn; by apply (Hlow j None)].
  eapply finv_ext; [|apply (finv_slot h N s _ me p fd None (Some f) Hi Hm Hfd Hp); try done]; [|by intros g [= <-]].
  intros g. unfold less1. cbn [slot]. lia.
Qed.

Lemma upd_ofile_refs h N s me p fd f u s' :
  finv h N s -> ps_procs s !! me = Some p -> p_ofile p !! fd = Some (Some f) -> upd me (w_ofile fd None) s = Ok u s' ->
  finv (plus1 h f) N s' /\ ps_procs s' = <[me := w_ofile fd None p]> (ps_procs s) /\ files s' = files s.
Proof.
  intros Hi Hm Hfd E1. pose proof (upd_inv _ _ _ _ _ E1) as (Hp & _). rewrite (alter_insert _ _ _ _ Hm) in Hp. injection E1 as _ <-.
  split_and!; try done. eapply finv_ext; [|apply (finv_slot h N s _ me p fd (Some f) None Hi Hm Hfd Hp); try done].
  intros g. unfold plus1. cbn [slot]. lia.
Qed.

Definition runs s (me : nat) : Prop := exists p, ps_procs s !! me = Some p /\ ~ dead p.

Lemma argraw_inv me n s r s' : argraw me n s = Ok r s' -> ps_procs s' = ps_procs s.
Proof.
  unfold argraw. intros H. apply bind_ok_inv in H as (p & ? & [_ ->]%at_proc_inv & H). case_match; [|done]. by apply in_mem_inv in H as (? & _).
Qed.

Lemma argfd_refs h N s me n o s' :
  finv h N s -> argfd me n s = Ok o s' ->
  finv h N s' /\ ps_procs s' = ps_procs s /\
  match o with None => True | Some (fd, f) => exists p, ps_procs s !! me = Some p /\ p_ofile p !! fd = Some (Some f) end.
Proof.
  intros Hi H. split; [eapply finv_quiet; [by eapply quiet_argfd|done]|]. unfold argfd, argint in H.
  apply bind_ok_inv in H as (fd & s1 & E1 & H). apply bind_ok_inv in E1 as (r & s2 & P1%argraw_inv & [-> ->]%ret_inv).
  apply bind_ok_inv in H as (p & ? & [Hp ->]%at_proc_inv & H). rewrite P1 in Hp.
  destruct (_ || _); [by apply ret_inv in H as [-> ->]|]. destruct (p_ofile p !! _) as [[f|]|] eqn:E; [| |done]; apply ret_inv in H as [-> ->]; [|done].
  split; [done|]. by exists p.
Qed.

Lemma dup_refs s me r s' : runs s me -> finv none [] s -> sys_dup me s = Ok r s' -> finv none [] s'.
Proof.
  intros (p & Hm & Hd) Hi H. unfold sys_dup in H. apply bind_ok_inv in H as (o & s1 & E1 & H). apply (argfd_refs _ _ _ _ _ _ _ Hi) in E1 as (Hi1 & P1 & Ho).
  destruct o as [[fd f]|]; [|by apply ret_inv in H as [-> ->]]. destruct Ho as (q & Hq & Hfd). rewrite Hm in Hq. injection Hq as <-.
  pose proof (fi_slot _ _ _ Hi me p fd f Hm Hfd) as Hf. rewrite <- P1 in Hm. apply bind_ok_inv in H as (o & s2 & E2 & H).
  apply (fdalloc_refs _ _ _ _ _ _ _ _ Hi1 Hm Hd Hf) in E2. destruct o as [fd'|]; [|by subst; apply ret_inv in H as [-> ->]].
  destruct E2 as (Hi2 & _). apply bind_ok_inv in H as (? & s3 & E3 & [_ ->]%ret_inv). apply (filedup_refs _ _ _ _ _ _ Hi2) in E3 as (_ & _ & H3); [|by intros ?%elem_of_nil].
  eapply finv_ext; [|done]. intros g. symmetry. apply less_plus.
Qed.

Lemma close_refs s me r s' : finv none [] s -> sys_close kend me s = Ok r s' -> finv none [] s'.
Proof.
  intros Hi H. unfold sys_close in H. apply bind_ok_inv in H as (o & s1 & E1 & H). apply (argfd_refs _ _ _ _ _ _ _ Hi) in E1 as (Hi1 & P1 & Ho).
  destruct o as [[fd f]|]; [|by apply ret_inv in H as [-> ->]]. destruct Ho as (p & Hm & Hfd). rewrite <- P1 in Hm.
  apply bind_ok_inv in H as (? & s2 & E2 & H). apply (upd_ofile_refs _ _ _ _ _ _ _ _ _ Hi1 Hm Hfd) in E2 as (Hi2 & _).
  apply bind_ok_inv in H as (? & s3 & E3 & [_ ->]%ret_inv). apply (fileclose_refs _ _ [] _ _ _ _ Hi2) in E3 as (H3 & _); [|apply N_nil'].
  eapply finv_ext; [|done]. intros g. symmetry. apply plus_less.
Qed.

Lemma quiet_refs {A} (m : M K A) h N s a s' : quiet m -> finv h N s -> m s = Ok a s' -> finv h N s'.
Proof. intros Hq Hi H. eapply finv_quiet; [by eapply Hq|done]. Qed.

(** The end of the set-up: the file's type is set. *)
Lemma set_type_refs h N s f t u s' :
  finv h (f :: N) s -> ~ f ∈ N -> t <> FD_NONE -> io (upd_f f (f_set_type t)) s = Ok u s' -> finv h N s' /\ ps_procs s' = ps_procs s.
Proof.
  intros Hi HfN Ht [F P]%upd_f_eq. split; [|done]. apply (finv_file h h (f :: N) N s s' f (f_set_type t)); try done.
  - intros x Hx. pose proof (fi_new _ _ _ Hi f x Hx ltac:(by left)) as H1. cbn. split; [lia|]. split; [lia|]. by split.
  - intros k Hk. split; [done|]. rewrite elem_of_cons. naive_solver.
Qed.

Lemma io_upd_quiet f g h N s u s' : (forall x, same_file x (g x)) -> finv h N s -> io (upd_f f g) s = Ok u s' -> finv h N s' /\ ps_procs s' = ps_procs s.
Proof. intros Hg. apply io_quiet_refs. by apply fq_upd_f. Qed.

Lemma open_file_refs s me ip omode r s' :
  runs s me -> finv none [] s -> open_file kend me ip omode s = Ok r s' -> finv none [] s'.
Proof.
  intros Hrun Hi H. unfold open_file in H. apply bind_ok_inv in H as (x & s1 & E1 & H).
  apply (io_quiet_refs _ _ _ _ _ _ (fq_in_fs _) Hi) in E1 as (Hi1 & P1). destruct (_ && _).
  { eapply quiet_refs; [apply quiet_open_fail|exact Hi1|exact H]. }
  apply bind_ok_inv in H as (fo & s2 & E2 & H). apply (filealloc_refs _ _ _ _ _ Hi1) in E2 as (P2 & E2). destruct fo as [f|].
  2:{ eapply quiet_refs; [apply quiet_open_fail|exact E2|exact H]. }
  destruct E2 as (Hi2 & Hf & _). destruct Hrun as (p & Hm & Hd). rewrite <- P1, <- P2 in Hm. apply bind_ok_inv in H as (o & s3 & E3 & H).
  apply (fdalloc_refs _ _ _ _ _ _ _ _ Hi2 Hm Hd Hf) in E3. destruct o as [fd|].
  - destruct E3 as (Hi3 & _).
    assert (finv none [f] s3) as Hi3' by (eapply finv_ext; [|exact Hi3]; intros g; symmetry; apply plus_less).
    assert (exists s4, finv none [] s4 /\ (io (upd_f f (f_set_ip ip));;;
        io (upd_f f (f_set_mode (Z.land omode O_WRONLY =? 0) (negb (Z.land omode O_WRONLY =? 0) || negb (Z.land omode O_RDWR =? 0))));;;
        (if negb (Z.land omode O_TRUNC =? 0) && (i_type x =? T_FILE) then fsm (itrunc ip) else ret tt);;;
        fsm (iunlock (Some ip));;; io end_op;;; ret (Z.of_nat fd)) s4 = Ok r s') as (s4 & Hi4 & H4).
    { apply bind_ok_inv in H as (? & s4 & E4 & H). exists s4. split; [|exact H].
      destruct (_ =? T_DEVICE); apply bind_ok_inv in E4 as (? & s5 & E5 & E4);
        (eapply set_type_refs in E5 as [H5 _]; [|exact Hi3'|by intros ?%elem_of_nil|done]); eapply io_upd_quiet in E4 as [H6 _]; done. }
    eapply quiet_refs; [|exact Hi4|exact H4]. unfold fsm, end_op. quiet.
  - subst s3. apply bind_ok_inv in H as (? & s4 & E4 & H). apply (fileclose_refs _ _ [] _ _ _ _ Hi2) in E4 as (Hi4 & _); [|apply N_nil].
    eapply quiet_refs; [apply quiet_open_fail| |exact H]. eapply finv_ext; [|exact Hi4]. intros g. symmetry. apply plus_less.
Qed.

Lemma qrel_runs s s' me : qrel s s' -> runs s me -> runs s' me.
Proof.
  intros Q (p & Hp & Hd). destruct (lookup_lt_is_Some_2 (ps_procs s') me) as [p' Hp'].
  { pose proof (f_equal length (q_ofile _ _ Q)) as E. rewrite !length_fmap in E. apply lookup_lt_Some in Hp. lia. }
  exists p'. split; [done|]. intros Hd'. apply Hd. by eapply (q_dead _ _ Q).
Qed.

Lemma open_refs s me r s' : runs s me -> finv none [] s -> sys_open kend name0 me s = Ok r s' -> finv none [] s'.
Proof.
  intros Hrun Hi H. unfold sys_open in H.
  assert (forall A (m : M K A) s a s1, quiet m -> finv none [] s -> runs s me -> m s = Ok a s1 -> finv none [] s1 /\ runs s1 me) as Hstep.
  { intros A m t a t' Hq Ht Hr E. split; [by eapply quiet_refs|]. eapply qrel_runs; [by eapply Hq|done]. }
  apply bind_ok_inv in H as (omode & s1 & E1 & H). apply (Hstep _ _ _ _ _ (quiet_argint _ _) Hi Hrun) in E1 as (Hi1 & R1).
  apply bind_ok_inv in H as (path & s2 & E2 & H). apply (Hstep _ _ _ _ _ (quiet_argstr _ _ _) Hi1 R1) in E2 as (Hi2 & R2).
  destruct path as [[path n]|]; [|by apply ret_inv in H as [-> ->]]. apply bind_ok_inv in H as (? & s3 & E3 & H).
  apply (Hstep _ _ _ _ _ (quiet_io _ (fq_in_fs _)) Hi2 R2) in E3 as (Hi3 & R3). destruct (negb _).
  - apply bind_ok_inv in H as (o & s4 & E4 & H). apply (Hstep _ _ _ _ _ (quiet_create _ _ _ _ _ _) Hi3 R3) in E4 as (Hi4 & R4).
    destruct o as [ip|]; [by eapply open_file_refs|]. eapply quiet_refs; [apply quiet_fail|exact Hi4|exact H].
  - apply bind_ok_inv in H as (o & s4 & E4 & H). apply (Hstep _ _ _ _ _ (quiet_namei _ _) Hi3 R3) in E4 as (Hi4 & R4).
    destruct o as [ip|]; [|eapply quiet_refs; [apply quiet_fail|exact Hi4|exact H]].
    apply bind_ok_inv in H as (? & s5 & E5 & H). apply (Hstep _ _ _ _ _ (quiet_io _ (fq_in_fs _)) Hi4 R4) in E5 as (Hi5 & R5).
    apply bind_ok_inv in H as (xi & s6 & E6 & H). apply (Hstep _ _ _ _ _ (quiet_io _ (fq_in_fs _)) Hi5 R5) in E6 as (Hi6 & R6).
    destruct (_ && _); [eapply quiet_refs; [apply quiet_open_fail|exact Hi6|exact H]|by eapply open_file_refs].
Qed.

(** ** Pipes *)

Lemma io_ret {A} (a : A) s r s' : io (ret a) s = Ok r s' -> r = a /\ s' = s.
Proof. intros [= <- <-]. by destruct s. Qed.

Lemma pipealloc_refs h s o s' :
  finv h [] s -> io (pipealloc kend) s = Ok o s' ->
  ps_procs s' = ps_procs s /\
  match o with
  | None => finv h [] s'
  | Some (r, w) => finv (plus1 (plus1 h r) w) [] s' /\ (r < NFILE)%nat /\ (w < NFILE)%nat
  end.
Proof.
  intros Hi H. pose proof (io_procs _ _ _ _ H) as (Hp & _). split; [done|]. unfold pipealloc in H. rewrite io_bind in H.
  apply bind_ok_inv in H as (f0 & s1 & E1 & H). apply (filealloc_refs _ _ _ _ _ Hi) in E1 as (P1 & E1). rewrite io_bind in H.
  apply bind_ok_inv in H as (f1 & s2 & E2 & H). rewrite io_bind in H. apply bind_ok_inv in H as (pi & s3 & E3 & H).
  assert (forall h N, finv h N s2 -> finv h N s3) as H23.
  { intros h' N' H'. destruct f1; eapply io_quiet_refs in E3 as [? _]; try done; [apply fq_km|apply fq_ret]. }
  destruct f0 as [r|].
  2:{ apply io_ret in E2 as [-> ->]. apply io_ret in H as [-> ->]. by apply H23. }
  destruct E1 as (Hi1 & Hr & _). destruct f1 as [w|].
  - apply (filealloc_refs _ _ _ _ _ Hi1) in E2 as (P2 & Hi2 & Hw & Hwr). apply H23 in Hi2.
    assert (w <> r) as Hne by (intros ->; apply Hwr; by left). destruct (pi =? 0).
    + rewrite io_bind in H. apply bind_ok_inv in H as (? & s4 & E4 & H). rewrite io_bind in H. apply bind_ok_inv in H as (? & s5 & E5 & [-> ->]%io_ret).
      apply (fileclose_refs _ _ [w] _ _ _ _ Hi2) in E4 as (Hi4 & _).
      2:{ intros k. rewrite !elem_of_cons, elem_of_nil. naive_solver. }
      apply (fileclose_refs _ _ [] _ _ _ _ Hi4) in E5 as (Hi5 & _); [|apply N_nil].
      eapply finv_ext; [|exact Hi5]. intros g. unfold less1, plus1. lia.
    + rewrite io_bind in H. apply bind_ok_inv in H as (junk & s4 & E4 & H). eapply io_quiet_refs in E4 as [Hi4 _]; [|apply fq_km|exact Hi2].
      rewrite io_bind in H. apply bind_ok_inv in H as (? & s5 & E5 & H). eapply io_quiet_refs in E5 as [Hi5 _]; [|apply fq_upd_pipes|exact Hi4].
      rewrite io_bind in H. apply bind_ok_inv in H as (? & s6 & E6 & H).
      assert (finv (plus1 (plus1 h r) w) [r; w] s5) as Hi5'.
      { destruct Hi5 as [A1 A2 A3 A4 A5 A6 A7 A8]. split; try done; intros f y Hy; [|intros Hf; apply (A5 f y Hy)]; [intros Hz Hn; apply (A4 f y Hy Hz)|];
          rewrite !elem_of_cons, elem_of_nil in *; tauto. }
      eapply set_type_refs in E6 as [Hi6 _]; [|exact Hi5'|by intros ?%list_elem_of_singleton|done].
      rewrite io_bind in H. apply bind_ok_inv in H as (? & s7 & E7 & H). eapply io_upd_quiet in E7 as [Hi7 _]; [|done|exact Hi6].
      rewrite io_bind in H. apply bind_ok_inv in H as (? & s8 & E8 & H). eapply io_upd_quiet in E8 as [Hi8 _]; [|done|exact Hi7].
      rewrite io_bind in H. apply bind_ok_inv in H as (? & s9 & E9 & H). eapply set_type_refs in E9 as [Hi9 _]; [|exact Hi8|by intros ?%elem_of_nil|done].
      rewrite io_bind in H. apply bind_ok_inv in H as (? & s10 & E10 & H). eapply io_upd_quiet in E10 as [Hi10 _]; [|done|exact Hi9].
      rewrite io_bind in H. apply bind_ok_inv in H as (? & s11 & E11 & [-> ->]%io_ret). eapply io_upd_quiet in E11 as [Hi11 _]; [|done|exact Hi10]. done.
  - apply (filealloc_refs _ _ _ _ _ Hi1) in E2 as (P2 & Hi2). apply H23 in Hi2. rewrite io_bind in H.
    apply bind_ok_inv in H as (? & s4 & E4 & [-> ->]%io_ret). apply (fileclose_refs _ _ [] _ _ _ _ Hi2) in E4 as (Hi4 & _); [|apply N_nil].
    eapply finv_ext; [|exact Hi4]. intros g. symmetry. apply plus_less.
Qed.

Lemma pipe_refs s me r s' : runs s me -> finv none [] s -> sys_pipe kend me s = Ok r s' -> finv none [] s'.
Proof.
  intros (p & Hm & Hd) Hi H. unfold sys_pipe in H. apply bind_ok_inv in H as (a & s1 & E1 & H).
  pose proof (argraw_inv me 0 s a s1 E1) as P1. eapply quiet_refs in E1 as Hi1; [|apply quiet_argaddr|exact Hi].
  apply bind_ok_inv in H as (o & s2 & E2 & H). apply (pipealloc_refs _ _ _ _ Hi1) in E2 as (P2 & E2). destruct o as [[rf wf]|]; [|by apply ret_inv in H as [-> ->]].
  destruct E2 as (Hi2 & Hrf & Hwf). rewrite <- P1, <- P2 in Hm. pose proof (lookup_lt_Some _ _ _ Hm) as Hlt.
  assert (forall t, finv (plus1 (plus1 none rf) wf) [] t -> (io (fileclose kend rf);;; io (fileclose kend wf);;; ret (-1)) t = Ok r s' -> finv none [] s') as Hclose.
  { intros t Ht Hc. apply bind_ok_inv in Hc as (? & t1 & E3 & Hc). apply (fileclose_refs _ _ [] _ _ _ _ Ht) in E3 as (Ht1 & _); [|apply N_nil'].
    apply bind_ok_inv in Hc as (? & t2 & E4 & [_ ->]%ret_inv). apply (fileclose_refs _ _ [] _ _ _ _ Ht1) in E4 as (Ht2 & _); [|apply N_nil'].
    eapply finv_ext; [|exact Ht2]. intros g. unfold less1, plus1. lia. }
  apply bind_ok_inv in H as (o0 & s3 & E3 & H). apply (fdalloc_refs _ _ _ _ _ _ _ _ Hi2 Hm Hd Hrf) in E3. destruct o0 as [fd0|]; [|subst s3; by eapply Hclose].
  destruct E3 as (Hi3 & Hfree0 & P3 & _). set (p3 := w_ofile fd0 (Some rf) p) in *.
  assert (ps_procs s3 !! me = Some p3) as Hm3 by (rewrite P3; by apply list_lookup_insert_eq).
  assert (p_ofile p3 !! fd0 = Some (Some rf)) as Hfd0 by (apply list_lookup_insert_eq; by eapply lookup_lt_Some).
  apply bind_ok_inv in H as (o1 & s4 & E4 & H). apply (fdalloc_refs _ _ _ _ _ _ _ _ Hi3 Hm3 Hd Hwf) in E4. destruct o1 as [fd1|].
  2:{ subst s4. apply bind_ok_inv in H as (? & s5 & E5 & H). apply (upd_ofile_refs _ _ _ _ _ _ _ _ _ Hi3 Hm3 Hfd0) in E5 as (Hi5 & _).
      eapply Hclose; [|exact H]. eapply finv_ext; [|exact Hi5]. intros g. unfold less1, plus1. lia. }
  destruct E4 as (Hi4 & Hfree1 & P4 & _). set (p4 := w_ofile fd1 (Some wf) p3) in *.
  assert (fd1 <> fd0) as Hne by (intros ->; congruence).
  assert (ps_procs s4 !! me = Some p4) as Hm4 by (rewrite P4; apply list_lookup_insert_eq; by eapply lookup_lt_Some).
  assert (p_ofile p4 !! fd0 = Some (Some rf)) as Hfd0' by (cbn; by rewrite list_lookup_insert_ne).
  assert (p_ofile p4 !! fd1 = Some (Some wf)) as Hfd1 by (apply list_lookup_insert_eq; by eapply lookup_lt_Some).
  assert (finv none [] s4) as Hi4' by (eapply finv_ext; [|exact Hi4]; intros g; unfold less1, plus1; lia).
  apply bind_ok_inv in H as (pt & s5 & E5 & H). unfold my in E5. apply bind_ok_inv in E5 as (? & ? & [_ ->]%at_proc_inv & [_ ->]%ret_inv).
  apply bind_ok_inv in H as (c0 & s6 & E6 & H). pose proof (in_mem_inv _ _ _ _ E6) as (P6 & _). eapply quiet_refs in E6 as Hi6; [|apply quiet_in_mem|exact Hi4'].
  apply bind_ok_inv in H as (c1 & s7 & E7 & H).
  assert (finv none [] s7 /\ ps_procs s7 = ps_procs s6) as [Hi7 P7].
  { destruct (c0 <? 0); [by apply ret_inv in E7 as [_ ->]|]. split; [by eapply quiet_refs; [apply quiet_in_mem|exact Hi6|]|]. by apply in_mem_inv in E7 as (? & _). }
  destruct (c1 <? 0); [|by apply ret_inv in H as [_ ->]]. rewrite <- P6, <- P7 in Hm4.
  apply bind_ok_inv in H as (? & s8 & E8 & H). apply (upd_ofile_refs _ _ _ _ _ _ _ _ _ Hi7 Hm4 Hfd0') in E8 as (Hi8 & P8 & _).
  assert (ps_procs s8 !! me = Some (w_ofile fd0 None p4)) as Hm8 by (rewrite P8; apply list_lookup_insert_eq; by eapply lookup_lt_Some).
  apply bind_ok_inv in H as (? & s9 & E9 & H). eapply (upd_ofile_refs _ _ _ _ _ fd1) in E9 as (Hi9 & _); [|exact Hi8|exact Hm8|cbn; by rewrite list_lookup_insert_ne].
  by eapply Hclose.
Qed.

(** ** Processes *)

Lemma nq_freeproc i : nquiet i (freeproc kend i : M K unit).
Proof. nquiet. Qed.
End refs.
