(* ===== verification/FileClaims.v ===== *)
(** * Open files: runs of the system calls *)

From S2P Require Import Prelude CString Mem Kalloc Vm Bio Log FsLayout TxnLayer Fs Pipe Proc ProcSpec File Syscall Sysfile Exec FileSpec SysfileSpec FileRefs.

(** What the process layer calls: proc.c's [filedup], [fileclose], [idup], and
    [iput] in a transaction of its own. *)
Definition file_ops {T} {TO : TxnOps T} {OO : OpOps T} (kend : Z) : FileOps (kfs T) := {|
  f_dup := filedup;
  f_close := fileclose kend;
  i_dup i := in_fs (idup i);
  i_put d := begin_op;;; in_fs (iput d);;; end_op;
  i_root := o <- in_fs (namei 0 (bytes "/" ++ [x00]));; from_opt o
|}.

Section procs.
Context {T : Type} {TO : TxnOps T} {OO : OpOps T}.
Context (kend trampoline forkret : Z).
Abbreviation K := (pstate (kfs T)).
Implicit Types (s : K).
Let FO : FileOps (kfs T) := file_ops kend.
#[local] Existing Instance FO.

Lemma quiet_allocpid : quiet (allocpid : M K Z).
Proof.
  unfold allocpid. apply quiet_bind; [apply quiet_gets|intros pid]. destruct (_ <? _); [|apply quiet_undef]. apply quiet_bind; [|intros; apply quiet_ret].
  intros s a s' [= _ <-]. split; [done|apply same_files_refl|]. intros i p p' H H'. cbn in H'. rewrite H in H'. by injection H' as <-.
Qed.

Lemma dead_empty h N s i p : finv h N s -> ps_procs s !! i = Some p -> dead p -> empty s i.
Proof. intros Hi Hp Hd. exists p. split; [done|]. by eapply fi_dead. Qed.

Lemma allocproc_refs s o s' :
  finv none [] s -> allocproc kend trampoline forkret s = Ok o s' -> finv none [] s' /\ (forall i, o = Some i -> empty s' i).
Proof.
  intros Hi H. unfold allocproc in H. apply bind_ok_inv in H as (l & ? & [-> ->]%gets_inv & H).
  destruct (find_unused (ps_procs s)) as [i|] eqn:Ef; [|by apply ret_inv in H as [-> ->]].
  apply find_unused_Some in Ef as (p & Hp & Hu & _). pose proof (dead_empty _ _ _ i p Hi Hp (or_introl Hu)) as He.
  assert (finv none [] s' /\ empty s' i /\ (o = None \/ o = Some i)) as (Hi' & He' & Ho); [|split; [done|]; intros j ->; destruct Ho as [|[= ->]]; done].
  assert (o = None \/ o = Some i) as Ho.
  { apply bind_ok_inv in H as (? & ? & _ & H). do 4 apply bind_ok_inv in H as (? & ? & _ & H). case_match; [apply bind_ok_inv in H as (? & ? & _ & [-> _]%ret_inv); by left|].
    do 2 apply bind_ok_inv in H as (? & ? & _ & H). case_match; [apply bind_ok_inv in H as (? & ? & _ & [-> _]%ret_inv); by left|].
    do 2 apply bind_ok_inv in H as (? & ? & _ & H). apply ret_inv in H as [-> _]. by right. }
  eapply (nquiet_refs i) in H as [H1 H2]; [by split_and!| |exact Hi|exact He].
  apply nq_bind; [apply nq_quiet, quiet_allocpid|intros pid].
  repeat first [apply nq_freeproc | progress nquiet].
Qed.

Lemma dup_slot_refs s np q k f s1 u s' :
  finv none [] s -> ps_procs s !! np = Some q -> ~ dead q -> p_ofile q !! k = Some None -> (f < NFILE)%nat ->
  in_files (filedup f) s = Ok f s1 -> upd np (w_ofile k (Some f)) s1 = Ok u s' ->
  finv none [] s' /\ ps_procs s' = <[np := w_ofile k (Some f) q]> (ps_procs s).
Proof.
  intros Hi Hq Hd Hk Hf E1 E2. apply (filedup_refs _ _ _ _ _ _ Hi) in E1 as (_ & P1 & Hi1); [|by intros ?%elem_of_nil].
  pose proof (upd_inv _ _ _ _ _ E2) as (P2 & _). rewrite P1, (alter_insert _ _ _ _ Hq) in P2. injection E2 as _ <-. split; [|done].
  rewrite <- P1 in Hq, P2. eapply finv_ext; [|apply (finv_slot _ _ s1 _ np q k None (Some f) Hi1 Hq Hk P2 eq_refl); [by intros g [= <-]|done]].
  intros g. unfold plus1. cbn [slot]. lia.
Qed.

Lemma dup_all_refs np p s u s' :
  finv none [] s -> (exists q, ps_procs s !! np = Some q /\ ~ dead q) -> empty s np ->
  (forall k f, p_ofile p !! k = Some (Some f) -> (f < NFILE)%nat) ->
  for_each (seq 0 NOFILE) (fun i =>
      match p_ofile p !! i with
      | Some (Some f) => f <- in_files (f_dup f);; upd np (w_ofile i (Some f))
      | _ => ret tt
      end) s = Ok u s' ->
  finv none [] s'.
Proof.
  intros Hi (q & Hq & Hd) (q' & Hq' & Hn) Hf H. rewrite Hq in Hq'. injection Hq' as <-. pose proof (fi_tab _ _ _ Hi np q Hq) as Hlen.
  apply (for_each_inv (fun k t => finv none [] t /\ exists q, ps_procs t !! np = Some q /\ ~ dead q /\ forall j, (k <= j < NOFILE)%nat -> p_ofile q !! j = Some None)) in H.
  - apply H.
  - clear H. intros k t t' Hk E (Ht & r & Hr & Hrd & Hrn).
    destruct (p_ofile p !! k) as [[f|]|] eqn:Ek; [|apply ret_inv in E as [_ ->]; split; [done|]; exists r; split_and!; try done; intros j Hj; apply Hrn; lia..].
    apply bind_ok_inv in E as (f' & t1 & E1 & E2). pose proof E1 as E1'. apply (filedup_refs _ _ _ _ _ _ Ht) in E1' as (-> & _); [|by intros ?%elem_of_nil].
    destruct (dup_slot_refs t np r k f t1 tt t' Ht Hr Hrd (Hrn k ltac:(lia)) (Hf k f Ek) E1 E2) as (Ht' & P'). split; [done|].
    exists (w_ofile k (Some f) r). split; [rewrite P'; apply list_lookup_insert_eq; by eapply lookup_lt_Some|]. split; [done|].
    intros j Hj. cbn. rewrite list_lookup_insert_ne by lia. apply Hrn. lia.
  - split; [done|]. exists q. split_and!; try done. intros j Hj. destruct (lookup_lt_is_Some_2 (p_ofile q) j) as [x Hx]; [lia|].
    rewrite Hx. f_equal. by apply (Forall_lookup_1 _ _ _ _ Hn Hx).
Qed.

Lemma fork_refs s me r s' : runs s me -> finv none [] s -> fork kend trampoline forkret me s = Ok r s' -> finv none [] s'.
Proof.
  intros (pm & Hm & Hd) Hi H. unfold fork in H. apply bind_ok_inv in H as (o & s1 & E1 & H).
  pose proof (allocproc_tab _ _ _ _ _ _ E1) as (_ & Htab). apply (allocproc_refs _ _ _ Hi) in E1 as (Hi1 & He1).
  destruct o as [np|]; [|by apply ret_inv in H as [_ ->]]. specialize (He1 np eq_refl).
  destruct Htab as [(? & _)|(i & p & _ & Hip & _ & _ & [(? & _)|([= ->] & p' & P1 & B)])]; [done..|].
  destruct B as (Bu & Bs & _ & _ & _ & _ & _ & Bo & _). pose proof (lookup_lt_Some _ _ _ Hip) as Hlt.
  assert (exists q, ps_procs s1 !! i = Some q /\ ~ dead q) as Hrun1 by (exists p'; split; [rewrite P1; by apply list_lookup_insert_eq|intros [|]; congruence]).
  apply bind_ok_inv in H as (p1 & ? & [Hp1 ->]%at_proc_inv & H). apply bind_ok_inv in H as (q1 & ? & [Hq1 ->]%at_proc_inv & H).
  apply bind_ok_inv in H as (c & s2 & E2 & H).
  assert (forall A (m : M K A) s a s', quiet m -> finv none [] s -> (exists q, ps_procs s !! i = Some q /\ ~ dead q) -> empty s i -> m s = Ok a s' ->
    finv none [] s' /\ (exists q, ps_procs s' !! i = Some q /\ ~ dead q) /\ empty s' i) as Hstep.
  { intros A m t a t' Hq Ht Hr Het E. destruct (nquiet_refs i m _ _ _ _ _ (nq_quiet i m Hq) Ht Het E) as [Ht' He']. split_and!; try done.
    by apply (qrel_runs t t' i); [eapply Hq|]. }
  apply (Hstep _ _ _ _ _ (quiet_in_mem _) Hi1 Hrun1 He1) in E2 as (Hi2 & Hrun2 & He2). destruct (c <? 0).
  { apply bind_ok_inv in H as (? & s3 & E3 & [_ ->]%ret_inv). by eapply (nquiet_refs i) in E3 as [? _]; [|apply nq_freeproc|done|done]. }
  apply bind_ok_inv in H as (? & s3 & E3 & H). eapply Hstep in E3 as (Hi3 & Hrun3 & He3); [|quiet|done..].
  apply bind_ok_inv in H as (? & s4 & E4 & H). apply (Hstep _ _ _ _ _ (quiet_in_mem _) Hi3 Hrun3 He3) in E4 as (Hi4 & Hrun4 & He4).
  apply bind_ok_inv in H as (? & s5 & E5 & H). eapply Hstep in E5 as (Hi5 & Hrun5 & He5); [|unfold tf_set; quiet|done..].
  apply bind_ok_inv in H as (? & s6 & E6 & H). apply (dup_all_refs i p1) in E6 as Hi6; try done.
  2:{ intros k f Hk. by eapply (fi_slot _ _ _ Hi1 me p1). }
  eapply quiet_refs; [|exact Hi6|exact H]. quiet.
Qed.

Lemma close_all_refs me s u s' :
  finv none [] s -> runs s me ->
  for_each (seq 0 NOFILE) (fun fd =>
      p <- at_proc me;;
      match p_ofile p !! fd with
      | Some (Some f) => in_files (f_close f);;; upd me (w_ofile fd None)
      | _ => ret tt
      end) s = Ok u s' ->
  finv none [] s' /\ empty s' me.
Proof.
  intros Hi (q & Hq & Hd) H.
  apply (for_each_inv (fun k t => finv none [] t /\ exists q, ps_procs t !! me = Some q /\ forall j, (j < k)%nat -> p_ofile q !! j = Some None)) in H.
  - destruct H as (Hi' & r & Hr & Hn). split; [done|]. exists r. split; [done|]. apply Forall_lookup. intros j x Hx.
    rewrite Hn in Hx by (rewrite <- (fi_tab _ _ _ Hi' me r Hr); by eapply lookup_lt_Some). by injection Hx.
  - clear H. intros k t t' Hk E (Ht & r & Hr & Hrn). apply bind_ok_inv in E as (r' & ? & [Hr' ->]%at_proc_inv & E). rewrite Hr in Hr'. injection Hr' as <-.
    pose proof (fi_tab _ _ _ Ht me r Hr) as Hlen. destruct (lookup_lt_is_Some_2 (p_ofile r) k) as [x Hx]; [lia|]. rewrite Hx in E. destruct x as [f|].
    + apply bind_ok_inv in E as (? & t1 & E1 & E2). apply (fileclose_refs _ _ _ [] _ _ _ _ Ht) in E1 as (Ht1 & P1); [|apply N_nil'].
      rewrite <- P1 in Hr. apply (upd_ofile_refs _ _ _ _ _ _ _ _ _ Ht1 Hr Hx) in E2 as (Ht2 & P2 & _). split.
      { eapply finv_ext; [|exact Ht2]. intros g. symmetry. apply less_plus. }
      exists (w_ofile k None r). split; [rewrite P2; apply list_lookup_insert_eq; by eapply lookup_lt_Some|]. intros j Hj. cbn.
      destruct (decide (j = k)) as [->|]; [apply list_lookup_insert_eq; lia|]. rewrite list_lookup_insert_ne by done. apply Hrn. lia.
    + apply ret_inv in E as [_ ->]. split; [done|]. exists r. split; [done|]. intros j Hj. destruct (decide (j = k)) as [->|]; [done|]. apply Hrn. lia.
  - split; [done|]. exists q. split; [done|]. intros j Hj. lia.
Qed.

Lemma exit_refs s me st u s' : runs s me -> finv none [] s -> exit me st s = Ok u s' -> finv none [] s'.
Proof.
  intros Hrun Hi. unfold exit. intros H. apply bind_ok_inv in H as (init & ? & [-> ->]%gets_inv & H). case_bool_decide; [done|].
  apply bind_ok_inv in H as (? & s1 & E1 & H). apply (close_all_refs _ _ _ _ Hi Hrun) in E1 as (Hi1 & He1).
  eapply (nquiet_refs me) in H as [? _]; [done| |exact Hi1|exact He1].
  apply nq_bind; [apply nq_quiet, quiet_at_proc|intros p]. apply nq_bind; [apply nq_quiet, quiet_opt|intros d].
  apply nq_bind; [apply nq_quiet, quiet_io; unfold begin_op, end_op; fquiet|intros _]. apply nq_bind; [by apply nq_upd|intros _].
  apply nq_bind; [apply nq_quiet, quiet_reparent|intros _]. apply nq_bind; [apply nq_quiet, quiet_at_proc|intros q].
  apply nq_bind; [apply nq_quiet, quiet_opt|intros par]. apply nq_bind; [apply nq_quiet, quiet_wakeup|intros _].
  apply nq_bind; [by apply nq_upd|intros _]. apply nq_bind; [by apply nq_upd|intros _]. apply nq_quiet, quiet_sched.
Qed.

Lemma wait_scan_refs me addr ks hk s r s' : finv none [] s -> wait_scan kend me addr ks hk s = Ok r s' -> finv none [] s'.
Proof.
  intros Hi. revert hk. induction ks as [|k ks IH]; intros hk; cbn [wait_scan]; [by intros [_ ->]%ret_inv|]. intros H.
  apply bind_ok_inv in H as (p & ? & [Hk ->]%at_proc_inv & H). case_bool_decide; [|by eapply IH]. case_bool_decide as Ez; [|by eapply IH].
  pose proof (dead_empty _ _ _ k p Hi Hk (or_intror Ez)) as He. eapply (nquiet_refs k) in H as [? _]; [done| |exact Hi|exact He].
  apply nq_bind; [apply nq_quiet, quiet_at_proc|intros q]. apply nq_bind; [apply nq_quiet; quiet|intros c].
  destruct (c <? 0); [apply nq_quiet, quiet_ret|]. apply nq_bind; [apply nq_freeproc|intros _]. apply nq_quiet, quiet_ret.
Qed.

Lemma wait_refs me addr s r s' : finv none [] s -> wait kend me addr s = Ok r s' -> finv none [] s'.
Proof.
  intros Hi. unfold wait. intros H. apply bind_ok_inv in H as (x & s1 & E1 & H). apply wait_scan_refs in E1; [|done].
  eapply quiet_refs; [|exact E1|exact H]. destruct x as [x|hk]; [apply quiet_ret|]. apply quiet_bind; [apply quiet_at_proc|intros p].
  destruct (_ || _); [apply quiet_ret|]. apply quiet_bind; [apply quiet_sleep|intros; apply quiet_ret].
Qed.

(** ** Boot *)

Definition file0 : file := mkFile FD_NONE 0 false false 0 0 0 0.

(** The tables are all zero. *)
Definition blank s : Prop :=
  length (ps_procs s) = NPROC /\ (forall i p, ps_procs s !! i = Some p -> p_ofile p = replicate NOFILE None) /\ files s = replicate NFILE file0.

Lemma blank_refs s : blank s -> finv none [] s /\ forall i, (i < NPROC)%nat -> empty s i.
Proof.
  intros (Hl & Ho & Hf). assert (forall i p, ps_procs s !! i = Some p -> Forall (fun x => x = None) (p_ofile p)) as Hn.
  { intros i p Hp. rewrite (Ho i p Hp). by apply Forall_replicate. }
  split.
  - assert (forall f, refs f (ps_procs s) = 0%nat) as Hr.
    { intros f. unfold refs. clear Hl Ho. induction (ps_procs s) as [|p l IH]; [done|]. cbn. rewrite cnt_none by (by apply (Hn 0%nat)). apply IH.
      intros i q Hq. by apply (Hn (S i)). }
    assert (forall f x, files s !! f = Some x -> x = file0) as Hfx by (intros f x; rewrite Hf; by intros [-> _]%lookup_replicate).
    split.
    + by rewrite Hf.
    + intros f x ->%Hfx. by rewrite Hr.
    + by intros f x ->%Hfx.
    + by intros f x ->%Hfx.
    + by intros f x _ ?%elem_of_nil.
    + intros j p k f Hp Hk. rewrite (Ho j p Hp) in Hk. by apply lookup_replicate in Hk as [? _].
    + intros j p Hp. by rewrite (Ho j p Hp).
    + intros j p Hp _. by eapply Hn.
  - intros i Hi. destruct (lookup_lt_is_Some_2 (ps_procs s) i) as [p Hp]; [lia|]. exists p. split; [done|]. by eapply Hn.
Qed.

Lemma boot_refs s u s' : blank s -> (procinit;;; userinit kend trampoline forkret) s = Ok u s' -> finv none [] s'.
Proof.
  intros (Hi & He)%blank_refs H. apply bind_ok_inv in H as (? & s1 & E1 & H).
  assert (finv none [] s1) as Hi1.
  { revert E1. unfold procinit. intros E1. apply (for_each_inv (fun _ t => finv none [] t /\ forall i, (i < NPROC)%nat -> empty t i)) in E1; [by apply E1| |done].
    clear E1. intros k t t' Hk E (Ht & Het). assert (nquiet k (upd k (w_state UNUSED);;; upd k (w_kstack (KSTACK (Z.of_nat k))) : M K unit)) as Hq.
    { apply nq_bind; [by apply nq_upd|intros _]. by apply nq_upd. }
    destruct (nquiet_refs k _ _ _ _ _ _ Hq Ht (Het k Hk) E) as [Ht' _]. split; [done|]. destruct (Hq _ _ _ E) as (Q & _). symmetry in Q.
    intros j (p & Hp & Hn)%Het. destruct (ofile_lookup _ _ _ _ Q Hp) as (q & Hq' & Eq). exists q. by rewrite <- Eq. }
  unfold userinit in H. apply bind_ok_inv in H as (o & s2 & E2 & H). apply (allocproc_refs _ _ _ Hi1) in E2 as (Hi2 & _).
  eapply quiet_refs; [|exact Hi2|exact H]. apply quiet_bind; [|intros _; destruct o; [unfold tf_set; quiet|apply quiet_undef]].
  intros t a t' [= _ <-]. split; [done|apply same_files_refl|]. intros j p p' Hp Hp'. cbn in Hp'. rewrite Hp in Hp'. by injection Hp' as <-.
Qed.

(** ** Runs *)

Context (name0 pad elf0 ph0 : list byte).
Context (dev_read dev_write : Z -> option (Z -> Z -> M (kst * kfs T) segment)).

(** What process [me] may call, and what the scheduler and interrupts do. *)
Inductive fcall (me : nat) : forall A, M K A -> Prop :=
| c_dup : fcall me Z (sys_dup me)
| c_close : fcall me Z (sys_close kend me)
| c_open : fcall me Z (sys_open kend name0 me)
| c_pipe : fcall me Z (sys_pipe kend me)
| c_read : fcall me segment (sys_read dev_read me)
| c_write i0 : fcall me segment (sys_write dev_write me i0)
| c_fstat : fcall me Z (sys_fstat pad me)
| c_link : fcall me Z (sys_link name0 me)
| c_unlink : fcall me Z (sys_unlink name0 me)
| c_mkdir : fcall me Z (sys_mkdir name0 me)
| c_mknod : fcall me Z (sys_mknod name0 me)
| c_chdir : fcall me Z (sys_chdir me)
| c_exec : fcall me Z (sys_exec kend trampoline elf0 ph0 me)
| c_fork : fcall me Z (fork kend trampoline forkret me)
| c_exit st : fcall me unit (exit me st)
| c_wait addr : fcall me wait_end (wait kend me addr)
| c_sbrk n : fcall me Z (growproc kend me n)
| c_kill pid : fcall me Z (kill pid)
| c_sleep c : fcall me unit (sleep me c)
| c_yield : fcall me unit (yield me)
| c_wakeup o c : fcall me unit (wakeup o c)
| c_sched i : fcall me bool (scheduler_try i)
(** User code, and the saving of its registers on a trap, change memory. *)
| c_user (g : kst -> kst) : fcall me unit (in_mem (modify g)).

Inductive freach (s0 : K) : K -> Prop :=
| fr_boot u s1 : (procinit;;; userinit kend trampoline forkret) s0 = Ok u s1 -> freach s0 s1
| fr_call s me A (m : M K A) a s' : freach s0 s -> runs s me -> fcall me A m -> m s = Ok a s' -> freach s0 s'.

Lemma fcall_refs s me A (m : M K A) a s' :
  dev_ok dev_read -> dev_ok dev_write -> runs s me -> finv none [] s -> fcall me A m -> m s = Ok a s' -> finv none [] s'.
Proof.
  intros Hr Hw Hrun Hi Hc H. destruct Hc.
  - by eapply dup_refs.
  - by eapply close_refs.
  - by eapply open_refs.
  - by eapply pipe_refs.
  - eapply quiet_refs; [apply quiet_read; exact Hr|exact Hi|exact H].
  - eapply quiet_refs; [apply quiet_write; exact Hw|exact Hi|exact H].
  - eapply quiet_refs; [apply quiet_fstat|exact Hi|exact H].
  - eapply quiet_refs; [apply quiet_link|exact Hi|exact H].
  - eapply quiet_refs; [apply quiet_unlink|exact Hi|exact H].
  - eapply quiet_refs; [apply quiet_mkdir|exact Hi|exact H].
  - eapply quiet_refs; [apply quiet_mknod|exact Hi|exact H].
  - eapply quiet_refs; [apply quiet_chdir|exact Hi|exact H].
  - eapply quiet_refs; [apply quiet_sys_exec|exact Hi|exact H].
  - by eapply fork_refs.
  - by eapply exit_refs.
  - by eapply wait_refs.
  - eapply quiet_refs; [apply quiet_growproc|exact Hi|exact H].
  - eapply quiet_refs; [apply quiet_kill|exact Hi|exact H].
  - eapply quiet_refs; [apply quiet_sleep|exact Hi|exact H].
  - eapply quiet_refs; [apply quiet_yield|exact Hi|exact H].
  - eapply quiet_refs; [apply quiet_wakeup|exact Hi|exact H].
  - eapply quiet_refs; [apply quiet_scheduler_try|exact Hi|exact H].
  - eapply quiet_refs; [apply quiet_in_mem|exact Hi|exact H].
Qed.

Lemma freach_refs s0 s : dev_ok dev_read -> dev_ok dev_write -> blank s0 -> freach s0 s -> finv none [] s.
Proof. intros Hr Hw Hb. induction 1; [by eapply boot_refs|by eapply fcall_refs]. Qed.

Lemma finv_open s me p fd f :
  finv none [] s -> ps_procs s !! me = Some p -> p_ofile p !! fd = Some (Some f) -> exists x, files s !! f = Some x /\ 1 <= f_ref x /\ f_type x <> FD_NONE.
Proof.
  intros Hi Hp Hfd. pose proof (fi_slot _ _ _ Hi me p fd f Hp Hfd) as Hlt. destruct (lookup_lt_is_Some_2 (files s) f) as [x Hx]; [by rewrite (fi_len _ _ _ Hi)|].
  pose proof (refs_pos f _ _ _ _ Hp Hfd). pose proof (fi_ref _ _ _ Hi f x Hx) as E. unfold none in E. exists x. split_and!; [done|lia|].
  apply (fi_type _ _ _ Hi f x Hx); [lia|by intros ?%elem_of_nil].
Qed.
End procs.

(** C6: From boot on, through every sequence of system calls of all processes,
    the count of each open file is the number of descriptors that refer to it,
    over the tables of all processes; an unreferenced entry is free ([FD_NONE])
    and a referenced one is not; a process that has exited, or an entry not in
    use, has no open files; and so duplicating, reading, writing or closing a
    descriptor never runs into the panics of file.c about free entries. *)
Theorem file_refs {T} {TO : TxnOps T} {OO : OpOps T} (kend trampoline forkret : Z) (name0 pad elf0 ph0 : list byte)
    (dev_read dev_write : Z -> option (Z -> Z -> M (kst * kfs T) segment)) (s0 s : pstate (kfs T)) :
  dev_ok dev_read -> dev_ok dev_write -> blank s0 ->
  freach kend trampoline forkret name0 pad elf0 ph0 dev_read dev_write s0 s ->
  (forall f x, files s !! f = Some x -> f_ref x = Z.of_nat (refs f (ps_procs s)) /\ (f_ref x = 0 <-> f_type x = FD_NONE)) /\
  (forall i p, ps_procs s !! i = Some p -> dead p -> Forall (fun x => x = None) (p_ofile p)) /\
  (forall i p fd f, ps_procs s !! i = Some p -> p_ofile p !! fd = Some (Some f) ->
     (exists s', io (filedup f) s = Ok f s') /\ exists x, files s !! f = Some x /\ 1 <= f_ref x /\ f_type x <> FD_NONE).
Proof.
  intros Hr Hw Hb H. pose proof (freach_refs _ _ _ _ _ _ _ _ _ _ _ Hr Hw Hb H) as Hi. split_and!.
  - intros f x Hx. pose proof (fi_ref _ _ _ Hi f x Hx) as E. unfold none in E. split; [lia|]. split; [by apply (fi_free _ _ _ Hi f x)|].
    intros Ht. destruct (decide (f_ref x = 0)) as [|Hz]; [done|]. destruct (fi_type _ _ _ Hi f x Hx Hz); [by intros ?%elem_of_nil|done].
  - apply Hi.
  - intros i p fd f Hp Hfd. destruct (finv_open _ _ _ _ _ Hi Hp Hfd) as (x & Hx & H1 & H2). split; [|by exists x].
    eexists. unfold io, in_files, filedup, file_of, zoom, bind, gets. cbn [fst snd]. change (k_files (ps_files s)) with (files s). rewrite Hx. cbn.
    destruct (Z.ltb_spec (f_ref x) 1); [lia|]. reflexivity.
Qed.

(** ** A run: the first process makes a pipe and forks *)

Definition kend24 : Z := PHYSTOP - 24 * PGSIZE.
Definition fp0 : proc := mkProc UNUSED None false 0 0 None 0 0 0 0 (0, 0) (replicate NOFILE None) None (replicate 16 x00).
Definition fboot : pstate (kfs lst) :=
  mkPs (replicate NPROC fp0) 1 None (run_state (mkKst ∅ 0) (kinit kend24 (mkKst ∅ 0)))
    (mkKfs (mkFs (mkLst (bboot ∅) (mkLog 0 0 0 false 0 0 [])) (mkSb FSMAGIC 100 64 16 31 2 33 35) (replicate NINODE inode0))
       (replicate NFILE file0) ∅ []).
#[local] Instance fops24 : FileOps (kfs lst) := file_ops kend24.

(** The address of its trapframe, the first page allocated. *)
Definition f_tf : Z := PHYSTOP - PGSIZE.
Definition set_a0 : M (pstate (kfs lst)) unit := in_mem (modify (set_mem (fun m => store64 m (f_tf + TF_a0) 64))).

Definition no_dev : Z -> option (Z -> Z -> M (kst * kfs lst) segment) := fun _ => None.

Lemma fboot_blank : blank fboot.
Proof. split_and!; [done| |done]. intros i p Hp. by apply lookup_replicate in Hp as [-> _]. Qed.

Lemma is_z (z b : Z) : Z.eqb z b = true -> b = z.
Proof. intros H. symmetry. by apply Z.eqb_eq. Qed.
Lemma is_unit (b : unit) : true = true -> b = tt.
Proof. by destruct b. Qed.

Definition in_state (me : nat) (st : procstate) (s : pstate (kfs lst)) : bool := bool_decide (p_state <$> (ps_procs s !! me) = Some st).

Lemma in_state_runs me st s : in_state me st s = true -> st <> UNUSED -> st <> ZOMBIE -> runs (T := lst) s me.
Proof.
  intros H%bool_decide_eq_true Hu Hz. destruct (ps_procs s !! me) as [p|] eqn:E; [|done]. injection H as H. exists p. split; [done|]. intros [|]; congruence.
Qed.

Notation f_all s0 :=
  (step_ok (fun _ => true) (procinit;;; userinit kend24 4096 0) s0 (fun s => in_state 0 RUNNABLE s &&
   step_ok (fun b => b) (scheduler_try 0) s (fun s => in_state 0 RUNNING s &&
   step_ok (fun _ => true) set_a0 s (fun s => in_state 0 RUNNING s &&
   step_ok (Z.eqb 0) (sys_pipe kend24 0) s (fun s => in_state 0 RUNNING s &&
   step_ok (Z.eqb 2) (fork kend24 4096 0 0) s (fun s =>
     (length (files s) =? 100)%nat && (refs 0 (ps_procs s) =? 2)%nat)))))) (only parsing).

(** The whole run is evaluated once. *)
Lemma f_all_ok : f_all fboot = true.
Proof. vm_cast_no_check (eq_refl true). Qed.

Lemma f_all_reach b : f_all b = true ->
  exists s, freach kend24 4096 0 [] [] [] [] no_dev no_dev b s /\ length (files s) = 100%nat /\ refs 0 (ps_procs s) = 2%nat.
Proof.
  intros H.
  apply (step_ok_inv _ _ _ _ _ is_unit) in H as (s1 & E1 & H). apply andb_prop in H as [R1 H].
  apply (step_ok_inv _ true _ _ _ (fun b H => H)) in H as (s2 & E2 & H). apply andb_prop in H as [R2 H].
  apply (step_ok_inv _ _ _ _ _ is_unit) in H as (s3 & E3 & H). apply andb_prop in H as [R3 H].
  apply (step_ok_inv _ _ _ _ _ (is_z 0)) in H as (s4 & E4 & H). apply andb_prop in H as [R4 H].
  apply (step_ok_inv _ _ _ _ _ (is_z 2)) in H as (s5 & E5 & H). apply andb_prop in H as [L%Nat.eqb_eq R%Nat.eqb_eq].
  exists s5. split; [|exact (conj L R)].
  eapply fr_call; [|exact (in_state_runs _ _ _ R4 ltac:(done) ltac:(done))|apply c_fork|exact E5].
  eapply fr_call; [|exact (in_state_runs _ _ _ R3 ltac:(done) ltac:(done))|apply c_pipe|exact E4].
  eapply fr_call; [|exact (in_state_runs _ _ _ R2 ltac:(done) ltac:(done))|apply c_user|exact E3].
  eapply fr_call; [|exact (in_state_runs _ _ _ R1 ltac:(done) ltac:(done))|apply (c_sched _ _ _ _ _ _ _ _ _ 0%nat 0%nat)|exact E2].
  eapply fr_boot. exact E1.
Qed.

Lemma file_refs_witness :
  exists s x, freach kend24 4096 0 [] [] [] [] no_dev no_dev fboot s /\ files s !! 0%nat = Some x /\ f_ref x = 2.
Proof.
  destruct (f_all_reach fboot f_all_ok) as (s & Hs & L & R).
  destruct (file_refs kend24 4096 0 [] [] [] [] no_dev no_dev fboot s ltac:(done) ltac:(done) fboot_blank Hs) as (H & _).
  assert (exists x, files s !! 0%nat = Some x) as [x Hx] by (apply lookup_lt_is_Some_2; rewrite L; apply Nat.lt_0_succ).
  exists s, x. split; [exact Hs|]. split; [exact Hx|]. rewrite (proj1 (H 0%nat x Hx)), R. reflexivity.
Defined.
