(* ===== verification/Sh.v ===== *)
(** * The shell's parser (user/sh.c)

    The line is a buffer whose string ends at position [es]; pointers into it are
    positions.  A parsing function moves the position [*ps], the state of the
    monad; the shell's [panic], which prints a message and exits, is the outcome
    [Panic].  [parseexec] fills in a command that [parseredirs] has wrapped
    meanwhile: the wrappers are kept in a list until the command is complete. *)

From S2P Require Import Prelude CString.

Definition MAXARGS : nat := 10.
Definition O_RDONLY : Z := 0x000.
Definition O_WRONLY : Z := 0x001.
Definition O_CREATE : Z := 0x200.
Definition O_TRUNC : Z := 0x400.

(** A counted string: the positions [q] and [eq] of its start and end. *)
Abbreviation word := (nat * nat)%type.

Inductive cmd (X : Type) :=
| EXEC (argv : list X)
| REDIR (c : cmd X) (file : X) (mode fd : Z)
| PIPE (left right : cmd X)
| LIST (left right : cmd X)
| BACK (c : cmd X).
Arguments EXEC {X}. Arguments REDIR {X}. Arguments PIPE {X}. Arguments LIST {X}. Arguments BACK {X}.

Definition execcmd {X} (argv : list X) : cmd X := EXEC argv.
Definition pipecmd {X} (left right : cmd X) : cmd X := PIPE left right.
Definition listcmd {X} (left right : cmd X) : cmd X := LIST left right.
Definition backcmd {X} (subcmd : cmd X) : cmd X := BACK subcmd.

Definition whitespace : list byte := [x20; x09; x0d; x0a; x0b].
Definition symbols : list byte := bytes "<|>&;()".

(** [strchr] on these constant strings, for a character that is not NUL. *)
Definition is_ws (c : byte) : bool := bool_decide (c ∈ whitespace).
Definition is_sym (c : byte) : bool := bool_decide (c ∈ symbols).

Definition c_bar : byte := x7c.
Definition c_open : byte := x28.
Definition c_close : byte := x29.
Definition c_semi : byte := x3b.
Definition c_amp : byte := x26.
Definition c_lt : byte := x3c.
Definition c_gt : byte := x3e.
Definition c_plus : byte := x2b.
Definition c_a : byte := x61.

Section parse.
Context (buf : list byte) (es : nat).

(** [while(s < es && strchr(whitespace, *s)) s++;] with [n = es - s]. *)
Fixpoint skip_ws (n s : nat) : nat :=
  match n with
  | O => s
  | S n => match buf !! s with Some c => if is_ws c then skip_ws n (S s) else s | None => s end
  end.

Fixpoint word_end (n s : nat) : nat :=
  match n with
  | O => s
  | S n => match buf !! s with Some c => if is_ws c || is_sym c then s else word_end n (S s) | None => s end
  end.

(** The result is the token and the values of [*q] and [*eq]. *)
Definition gettoken : M nat (byte * word) := fun ps =>
  let s := skip_ws (es - ps) ps in
  match buf !! s with
  | None => Undef
  | Some c =>
      let next := buf !! S s in
      let '(r, e) :=
        if bool_decide (c = x00) then (c, s)
        else if bool_decide (c ∈ [c_bar; c_open; c_close; c_semi; c_amp; c_lt]) then (c, S s)
        else if bool_decide (c = c_gt) then
          if bool_decide (next = Some c_gt) then (c_plus, S (S s)) else (c, S s)
        else (c_a, word_end (es - s) s) in
      Ok (r, (s, e)) (skip_ws (es - e) e)
  end.

Definition peek (toks : list byte) : M nat bool := fun ps =>
  let s := skip_ws (es - ps) ps in
  match buf !! s with
  | None => Undef
  | Some c => Ok (negb (bool_decide (c = x00)) && bool_decide (c ∈ toks)) s
  end.

Inductive rkind := RIn | ROut | RApp.
Record redir (X : Type) := mkRedir { r_kind : rkind; r_file : X }.
Arguments mkRedir {X}. Arguments r_kind {X}. Arguments r_file {X}.

Definition redircmd {X} (c : cmd X) (r : redir X) : cmd X :=
  match r_kind r with
  | RIn => REDIR c (r_file r) O_RDONLY 0
  | ROut => REDIR c (r_file r) (Z.lor (Z.lor O_WRONLY O_CREATE) O_TRUNC) 1
  | RApp => REDIR c (r_file r) (Z.lor O_WRONLY O_CREATE) 1
  end.
Definition redircmds {X} (c : cmd X) (rs : list (redir X)) : cmd X := foldl redircmd c rs.

(** The [switch] on the operator. *)
Definition redir_of (tok : byte) (w : word) : list (redir word) :=
  if bool_decide (tok = c_lt) then [mkRedir RIn w]
  else if bool_decide (tok = c_gt) then [mkRedir ROut w]
  else if bool_decide (tok = c_plus) then [mkRedir RApp w] else [].

(** The rounds of the loop are at most [n]. *)
Fixpoint parseredirs (n : nat) : M nat (list (redir word)) :=
  b <- peek [c_lt; c_gt];;
  if b : bool then
    match n with
    | O => nofuel
    | S n =>
        tok <- gettoken;;
        f <- gettoken;;
        if negb (bool_decide (f.1 = c_a)) then panic "missing file for redirection"
        else
          rs <- parseredirs n;;
          ret (redir_of tok.1 f.2 ++ rs)
    end
  else ret [].

(** The loop of [parseexec] with [argc] arguments so far: the other arguments
    and the redirections. *)
Fixpoint parseargs (n argc : nat) : M nat (list word * list (redir word)) :=
  b <- peek [c_bar; c_close; c_amp; c_semi];;
  if b : bool then ret ([], [])
  else
    match n with
    | O => nofuel
    | S n =>
        tok <- gettoken;;
        if bool_decide (tok.1 = x00) then ret ([], [])
        else if negb (bool_decide (tok.1 = c_a)) then panic "syntax"
        else if (MAXARGS <=? S argc)%nat then panic "too many args"
        else
          rs <- parseredirs es;;
          r <- parseargs n (S argc);;
          ret (tok.2 :: r.1, rs ++ r.2)
    end.

Fixpoint parsebacks (n : nat) (c : cmd word) : M nat (cmd word) :=
  b <- peek [c_amp];;
  if b : bool then
    match n with
    | O => nofuel
    | S n => gettoken;;; parsebacks n (backcmd c)
    end
  else ret c.

Fixpoint parseline (fuel : nat) : M nat (cmd word) :=
  match fuel with
  | O => nofuel
  | S fuel =>
      c <- parsepipe fuel;;
      c <- parsebacks es c;;
      b <- peek [c_semi];;
      if b : bool then gettoken;;; r <- parseline fuel;; ret (listcmd c r) else ret c
  end
with parsepipe (fuel : nat) : M nat (cmd word) :=
  match fuel with
  | O => nofuel
  | S fuel =>
      c <- parseexec fuel;;
      b <- peek [c_bar];;
      if b : bool then gettoken;;; r <- parsepipe fuel;; ret (pipecmd c r) else ret c
  end
with parseexec (fuel : nat) : M nat (cmd word) :=
  match fuel with
  | O => nofuel
  | S fuel =>
      b <- peek [c_open];;
      if b : bool then parseblock fuel
      else
        rs <- parseredirs es;;
        r <- parseargs MAXARGS 0;;
        ret (redircmds (execcmd r.1) (rs ++ r.2))
  end
with parseblock (fuel : nat) : M nat (cmd word) :=
  match fuel with
  | O => nofuel
  | S fuel =>
      b <- peek [c_open];;
      if negb b then panic "parseblock"
      else
        gettoken;;;
        c <- parseline fuel;;
        b <- peek [c_close];;
        if negb b then panic "syntax - missing )"
        else
          gettoken;;;
          rs <- parseredirs es;;
          ret (redircmds c rs)
  end.

(** [*e = 0] for each counted string, in the order of the code. *)
Definition cut (w : word) (b : list byte) : list byte := <[w.2 := x00]> b.
Fixpoint nulterminate (c : cmd word) (b : list byte) : list byte :=
  match c with
  | EXEC argv => foldl (fun b w => cut w b) b argv
  | REDIR c f _ _ => cut f (nulterminate c b)
  | PIPE l r | LIST l r => nulterminate r (nulterminate l b)
  | BACK c => nulterminate c b
  end.
End parse.

#[global] Arguments mkRedir {X}.
#[global] Arguments r_kind {X}.
#[global] Arguments r_file {X}.

(** The parsed command and the buffer it points into. *)
Definition parsecmd (buf : list byte) : M nat (cmd word * list byte) :=
  n <- from_opt (KString.strlen buf);;
  let es := Z.to_nat n in
  c <- parseline buf es (4 * S es);;
  peek buf es [];;;
  s <- (fun p => Ok p p);;
  if negb (s =? es)%nat then panic "syntax"
  else ret (c, nulterminate c buf).
