(* ===== verification/ShSpec.v ===== *)
(** * The shell's parser: what it accepts

    The reference is a lexer that splits the line into words and operators, and a
    grammar on tokens.  The parser succeeds exactly on the lines of the grammar
    and gives their syntax trees; on every line it ends. *)

From S2P Require Import Prelude CString Sh.

(** ** Tokens *)

Inductive tok (X : Type) := TWord (w : X) | TSym (c : byte) | TApp.
Arguments TWord {X}. Arguments TSym {X}. Arguments TApp {X}.

Definition emit (w : option nat) (p : nat) (l : list (tok word)) : list (tok word) :=
  match w with Some q => TWord (q, p) :: l | None => l end.

(** The tokens of [s], which is at position [p]; [w] is the start of the word
    being read. *)
Fixpoint lex (w : option nat) (p : nat) (s : list byte) : list (tok word) :=
  match s with
  | [] => emit w p []
  | c :: s =>
      if is_ws c then emit w p (lex None (S p) s)
      else if bool_decide (c = c_gt) then
        emit w p (match s with
                  | d :: s' => if bool_decide (d = c_gt) then TApp :: lex None (S (S p)) s' else TSym c :: lex None (S p) s
                  | [] => [TSym c]
                  end)
      else if is_sym c then emit w p (TSym c :: lex None (S p) s)
      else lex (Some (default p w)) (S p) s
  end.

(** The character by which [peek] recognises a token. *)
Definition starts (tk : list byte) (ts : list (tok word)) : bool :=
  match ts with
  | TSym c :: _ => bool_decide (c ∈ tk)
  | TApp :: _ => bool_decide (c_gt ∈ tk)
  | _ => false
  end.

Lemma sym_cases c : is_sym c = true -> c <> c_gt -> c ∈ [c_bar; c_open; c_close; c_semi; c_amp; c_lt].
Proof. intros H%bool_decide_eq_true Hne. unfold symbols in H. cbn in H. rewrite !elem_of_cons, elem_of_nil in H. set_solver. Qed.
Lemma sym_cases' c : c ∈ [c_bar; c_open; c_close; c_semi; c_amp; c_lt] -> is_sym c = true.
Proof. intros H. apply bool_decide_eq_true. rewrite !elem_of_cons, elem_of_nil in H. unfold symbols. cbn. set_solver. Qed.

Section lexing.
Context (text : list byte).
Hypothesis text_ok : x00 ∉ text.
Let es : nat := length text.
Context (tail : list byte).
Let buf : list byte := text ++ x00 :: tail.

Definition toks (p : nat) : list (tok word) := lex None p (drop p text).

Lemma buf_at p c : text !! p = Some c -> buf !! p = Some c /\ c <> x00.
Proof.
  intros H. split; [by apply lookup_app_l_Some|]. intros ->. apply text_ok. by eapply list_elem_of_lookup_2.
Qed.
Lemma buf_end : buf !! es = Some x00.
Proof. unfold buf, es. by rewrite lookup_app_r, Nat.sub_diag by lia. Qed.

Lemma text_at p : (p < es)%nat -> exists c, text !! p = Some c /\ drop p text = c :: drop (S p) text.
Proof. intros H. destruct (lookup_lt_is_Some_2 text p H) as [c Hc]. exists c. split; [done|]. by apply drop_S. Qed.

Lemma toks_end : toks es = [].
Proof. unfold toks, es. by rewrite drop_all. Qed.

Lemma skip_ws_ok n p :
  (p + n = es)%nat -> let s := skip_ws buf n p in
  (p <= s <= es)%nat /\ toks s = toks p /\ (s = es \/ exists c, text !! s = Some c /\ is_ws c = false).
Proof.
  revert p. induction n as [|n IH]; intros p Hp; cbn [skip_ws]; cbn zeta.
  - split; [lia|]. split; [done|]. left. lia.
  - destruct (text_at p) as (c & Hc & Hd); [lia|]. destruct (buf_at p c Hc) as [-> _]. destruct (is_ws c) eqn:Ew.
    + destruct (IH (S p)) as (H1 & H2 & H3); [lia|]. split; [lia|]. split; [|done]. rewrite H2. unfold toks. rewrite Hd. cbn [lex]. by rewrite Ew.
    + split; [lia|]. split; [done|]. right. by exists c.
Qed.

Lemma word_end_ok n s q :
  (s + n = es)%nat -> let e := word_end buf n s in
  (s <= e <= es)%nat /\ lex (Some q) s (drop s text) = TWord (q, e) :: toks e.
Proof.
  revert s. induction n as [|n IH]; intros s Hs; cbn [word_end]; cbn zeta.
  - assert (s = es) as -> by lia. split; [lia|]. rewrite toks_end. unfold es. by rewrite drop_all.
  - destruct (text_at s) as (c & Hc & Hd); [lia|]. destruct (buf_at s c Hc) as [-> _]. unfold toks. destruct (is_ws c || is_sym c) eqn:E.
    + split; [lia|]. rewrite Hd. cbn [lex]. destruct (is_ws c); [done|]. cbn in E. destruct (bool_decide (c = c_gt)); [done|]. by rewrite E.
    + apply orb_false_iff in E as [E1 E2]. destruct (IH (S s)) as (H1 & H2); [lia|]. split; [lia|]. rewrite Hd. cbn [lex]. rewrite E1, E2.
      rewrite bool_decide_false; [exact H2|]. intros ->. done.
Qed.

(** The character at the start of a token. *)
Lemma toks_head s c :
  text !! s = Some c -> is_ws c = false ->
  toks s = (if bool_decide (c = c_gt) then
              if bool_decide (buf !! S s = Some c_gt) then TApp :: toks (S (S s)) else TSym c :: toks (S s)
            else if is_sym c then TSym c :: toks (S s)
            else TWord (s, word_end buf (es - s) s) :: toks (word_end buf (es - s) s)).
Proof.
  intros Hc Ew. pose proof (lookup_lt_Some _ _ _ Hc) as Hlt. unfold toks at 1. rewrite (drop_S _ _ _ Hc). cbn [lex]. rewrite Ew.
  case_bool_decide as Eg; [|destruct (is_sym c) eqn:Es; [done|]].
  - subst c. cbn [emit]. destruct (decide (S s < es)%nat) as [Hs|Hs].
    + destruct (text_at (S s) Hs) as (d & Hd & Hdd). rewrite Hdd. destruct (buf_at (S s) d Hd) as [-> _]. case_bool_decide as E1.
      * by rewrite bool_decide_true by congruence.
      * rewrite bool_decide_false by congruence. unfold toks. by rewrite <- Hdd.
    + assert (S s = es) as E by (unfold es in *; lia). rewrite (drop_ge text (S s)) by (unfold es in E; lia).
      rewrite E, buf_end, toks_end. by rewrite bool_decide_false.
  - destruct (word_end_ok (es - s) s s) as [_ H]; [unfold es; lia|]. rewrite (drop_S _ _ _ Hc) in H. cbn [lex] in H. rewrite Ew, Es in H.
    rewrite bool_decide_false in H by done. exact H.
Qed.

Definition tok_char (t : tok word) : byte := match t with TWord _ => c_a | TSym c => c | TApp => c_plus end.

Lemma gettoken_ok p :
  (p <= es)%nat -> exists w p',
  (p' <= es)%nat /\
  match toks p with
  | [] => gettoken buf es p = Ok (x00, w) p' /\ toks p' = []
  | t :: ts => gettoken buf es p = Ok (tok_char t, w) p' /\ toks p' = ts /\ (forall w', t = TWord w' -> w = w') /\ (forall c, t = TSym c -> is_sym c = true)
  end.
Proof.
  intros Hp. destruct (skip_ws_ok (es - p) p) as (Hs & Ht & Hc); [lia|]. unfold gettoken. set (s := skip_ws buf (es - p) p) in *. rewrite <- Ht.
  assert (forall e, (e <= es)%nat -> (skip_ws buf (es - e) e <= es)%nat /\ toks (skip_ws buf (es - e) e) = toks e) as Hsk.
  { intros e He. destruct (skip_ws_ok (es - e) e) as (? & ? & _); [lia|]. split; [lia|done]. }
  destruct Hc as [->|(c & Hc & Ew)].
  { rewrite toks_end, buf_end. eexists _, _. rewrite bool_decide_true by done. split; [|split; [reflexivity|]]; [apply Hsk; lia|].
    destruct (Hsk es) as [_ ->]; [lia|]. apply toks_end. }
  destruct (buf_at s c Hc) as [-> Hnz]. pose proof (lookup_lt_Some _ _ _ Hc) as Hlt. fold es in Hlt. rewrite (toks_head s c Hc Ew).
  rewrite (bool_decide_false (c = x00)) by done. destruct (decide (c = c_gt)) as [->|Hg].
  - rewrite (bool_decide_false (c_gt ∈ _)) by (apply (bool_decide_unpack _); by vm_compute). rewrite !(bool_decide_true (c_gt = c_gt)) by done.
    case_bool_decide as E.
    + assert (S s < es)%nat as Hs2.
      { destruct (decide (S s = es)) as [E'|]; [rewrite E', buf_end in E; done|lia]. }
      eexists _, _. split; [|split; [reflexivity|]]; [apply Hsk; lia|]. destruct (Hsk (S (S s))) as [_ ->]; [lia|]. by split_and!.
    + eexists _, _. split; [|split; [reflexivity|]]; [apply Hsk; lia|]. destruct (Hsk (S s)) as [_ ->]; [lia|]. split_and!; [done..|by intros ? [= <-]].
  - rewrite !(bool_decide_false (c = c_gt)) by done. destruct (is_sym c) eqn:Es.
    + rewrite bool_decide_true by (by apply sym_cases). eexists _, _. split; [|split; [reflexivity|]]; [apply Hsk; lia|].
      destruct (Hsk (S s)) as [_ ->]; [lia|]. split_and!; [done..|by intros ? [= <-]].
    + rewrite bool_decide_false by (intros ?%sym_cases'; congruence). destruct (word_end_ok (es - s) s s) as [He _]; [lia|].
      eexists _, _. split; [|split; [reflexivity|]]; [apply Hsk; lia|]. destruct (Hsk (word_end buf (es - s) s)) as [_ ->]; [lia|]. split_and!; [done| |done]. by intros w' [= <-].
Qed.

Lemma peek_ok tk p :
  (p <= es)%nat -> Forall (fun c => is_sym c = true) tk ->
  exists p', (p' <= es)%nat /\ toks p' = toks p /\ peek buf es tk p = Ok (starts tk (toks p)) p' /\ (toks p = [] -> p' = es).
Proof.
  intros Hp Htk. destruct (skip_ws_ok (es - p) p) as (Hs & Ht & Hc); [lia|]. unfold peek. set (s := skip_ws buf (es - p) p) in *. exists s.
  split; [lia|]. split; [done|]. rewrite <- Ht. destruct Hc as [->|(c & Hc & Ew)].
  { rewrite toks_end, buf_end. by rewrite bool_decide_true. }
  destruct (buf_at s c Hc) as [-> Hnz]. rewrite (toks_head s c Hc Ew). rewrite (bool_decide_false (c = x00)) by done. cbn [negb andb].
  destruct (bool_decide (c = c_gt)) eqn:Eg.
  - apply bool_decide_eq_true in Eg as ->. destruct (bool_decide (buf !! S s = Some c_gt)); by split.
  - destruct (is_sym c) eqn:Es; [by split|]. split; [|done]. cbn [starts]. f_equal. apply bool_decide_eq_false. intros Hin. rewrite Forall_forall in Htk. by rewrite Htk in Es.
Qed.
End lexing.

(** ** The grammar

    line ::= pipe &* [; line]    pipe ::= exec [| pipe]
    exec ::= redir* (word redir* )* | ( line ) redir* *)

Inductive gline (X : Type) :=
| LEnd (p : gpipe X) (bg : nat)
| LSeq (p : gpipe X) (bg : nat) (l : gline X)
with gpipe (X : Type) :=
| PEnd (e : gexec X)
| PSeq (e : gexec X) (p : gpipe X)
with gexec (X : Type) :=
| ECmd (rs : list (redir X)) (args : list (X * list (redir X)))
| EBlock (l : gline X) (rs : list (redir X)).
Arguments LEnd {X}. Arguments LSeq {X}. Arguments PEnd {X}. Arguments PSeq {X}. Arguments ECmd {X}. Arguments EBlock {X}.

Scheme gline_mut := Induction for gline Sort Prop
  with gpipe_mut := Induction for gpipe Sort Prop
  with gexec_mut := Induction for gexec Sort Prop.
Combined Scheme grammar_ind from gline_mut, gpipe_mut, gexec_mut.

Section print.
Context {X : Type}.
Definition redir_toks (r : redir X) : list (tok X) :=
  [match r_kind r with RIn => TSym c_lt | ROut => TSym c_gt | RApp => TApp end; TWord (r_file r)].
Definition redirs_toks (rs : list (redir X)) : list (tok X) := rs ≫= redir_toks.
Definition args_toks (args : list (X * list (redir X))) : list (tok X) :=
  args ≫= fun a => TWord a.1 :: redirs_toks a.2.

Fixpoint line_toks (l : gline X) : list (tok X) :=
  match l with
  | LEnd p bg => pipe_toks p ++ replicate bg (TSym c_amp)
  | LSeq p bg l => pipe_toks p ++ replicate bg (TSym c_amp) ++ TSym c_semi :: line_toks l
  end
with pipe_toks (p : gpipe X) : list (tok X) :=
  match p with
  | PEnd e => exec_toks e
  | PSeq e p => exec_toks e ++ TSym c_bar :: pipe_toks p
  end
with exec_toks (e : gexec X) : list (tok X) :=
  match e with
  | ECmd rs args => redirs_toks rs ++ args_toks args
  | EBlock l rs => TSym c_open :: line_toks l ++ TSym c_close :: redirs_toks rs
  end.
End print.

(** The syntax tree. *)
Fixpoint line_cmd {X} (l : gline X) : cmd X :=
  match l with
  | LEnd p bg => Nat.iter bg BACK (pipe_cmd p)
  | LSeq p bg l => LIST (Nat.iter bg BACK (pipe_cmd p)) (line_cmd l)
  end
with pipe_cmd {X} (p : gpipe X) : cmd X :=
  match p with
  | PEnd e => exec_cmd e
  | PSeq e p => PIPE (exec_cmd e) (pipe_cmd p)
  end
with exec_cmd {X} (e : gexec X) : cmd X :=
  match e with
  | ECmd rs args => redircmds (EXEC args.*1) (rs ++ concat args.*2)
  | EBlock l rs => redircmds (line_cmd l) rs
  end.

(** No command has more arguments than fit in [argv] with its final 0. *)
Fixpoint line_fits {X} (l : gline X) : bool :=
  match l with
  | LEnd p _ => pipe_fits p
  | LSeq p _ l => pipe_fits p && line_fits l
  end
with pipe_fits {X} (p : gpipe X) : bool :=
  match p with
  | PEnd e => exec_fits e
  | PSeq e p => exec_fits e && pipe_fits p
  end
with exec_fits {X} (e : gexec X) : bool :=
  match e with
  | ECmd _ args => (length args <? MAXARGS)%nat
  | EBlock l _ => line_fits l
  end.

Definition syntax_errors : list String.string :=
  ["syntax"; "syntax - missing )"; "missing file for redirection"; "too many args"]%string.

Section sound.
Context (text : list byte).
Hypothesis text_ok : x00 ∉ text.
Context (tail : list byte).
Let es : nat := length text.
Let buf : list byte := text ++ x00 :: tail.
Abbreviation toks := (toks text).
Abbreviation err := (fun e => e ∈ syntax_errors).

(** A parser that is at [p] reads tokens of which [G] holds with its result. *)
Definition reads {A} (m : M nat A) (G : A -> list (tok word) -> Prop) (F : list (tok word) -> Prop) (p : nat) : Prop :=
  wp m err (fun a p' => (p' <= es)%nat /\ F (toks p') /\ exists us, toks p = us ++ toks p' /\ G a us) p.

Lemma wp_peek tk E Q p :
  (p <= es)%nat -> Forall (fun c => is_sym c = true) tk ->
  (forall p', (p' <= es)%nat -> toks p' = toks p -> Q (starts tk (toks p)) p') -> wp (peek buf es tk) E Q p.
Proof. intros Hp Htk HQ. destruct (peek_ok text text_ok tail tk p Hp Htk) as (p' & ? & ? & E1 & _). unfold wp, buf, es. rewrite E1. by apply HQ. Qed.

Lemma wp_gettoken E (Q : byte * word -> nat -> Prop) p :
  (p <= es)%nat ->
  (toks p = [] -> forall w p', (p' <= es)%nat -> toks p' = [] -> Q (x00, w) p') ->
  (forall w ts p', toks p = TWord w :: ts -> (p' <= es)%nat -> toks p' = ts -> Q (c_a, w) p') ->
  (forall c ts w p', toks p = TSym c :: ts -> is_sym c = true -> (p' <= es)%nat -> toks p' = ts -> Q (c, w) p') ->
  (forall ts w p', toks p = TApp :: ts -> (p' <= es)%nat -> toks p' = ts -> Q (c_plus, w) p') ->
  wp (gettoken buf es) E Q p.
Proof.
  intros Hp H0 H1 H2 H3. destruct (gettoken_ok text text_ok tail p Hp) as (w & p' & Hp' & G). unfold wp, buf, es.
  destruct (ShSpec.toks text p) as [|[w'|c|] ts] eqn:Et.
  - destruct G as [-> G]. by apply H0.
  - destruct G as (-> & G & Hw & _). rewrite (Hw w') by done. by eapply H1.
  - destruct G as (-> & G & _ & Hc). by eapply H2; [done|apply Hc|..].
  - destruct G as (-> & G & _ & _). by eapply H3.
Qed.

Lemma starts_one c ts : c <> c_gt -> starts [c] ts = true -> exists ts', ts = TSym c :: ts'.
Proof. intros Hc. destruct ts as [|[w|d|] ts]; cbn [starts]; try done; intros H%bool_decide_eq_true%list_elem_of_singleton; [subst; eauto|congruence]. Qed.

(** The operator [c] after a successful [peek]. *)
Lemma wp_skip c ts E (Q : byte * word -> nat -> Prop) p :
  (p <= es)%nat -> toks p = TSym c :: ts -> (forall w p', (p' <= es)%nat -> toks p' = ts -> Q (c, w) p') -> wp (gettoken buf es) E Q p.
Proof. intros Hp Ht HQ. apply wp_gettoken; [done|intros; congruence..| |intros; congruence]. intros c' ts' w p' E' _. rewrite Ht in E'. injection E' as <- <-. apply HQ. Qed.

Abbreviation noredir := (fun ts => starts [c_lt; c_gt] ts = false).

(** The first token of a redirection. *)
Lemma wp_redir_op E (Q : byte * word -> nat -> Prop) p :
  (p <= es)%nat -> starts [c_lt; c_gt] (toks p) = true ->
  (forall b k w p' ts, (p' <= es)%nat -> toks p = ts ++ toks p' -> (forall w', redir_of b w' = [mkRedir k w']) ->
     (forall w', redir_toks (mkRedir k w') = ts ++ [TWord w']) -> Q (b, w) p') -> wp (gettoken buf es) E Q p.
Proof.
  intros Hp Es HQ. apply wp_gettoken; [done|intros H; by rewrite H in Es|intros w ts p2 H; by rewrite H in Es| |].
  - intros c ts w p2 H _ Hp2 <-. rewrite H in Es. cbn [starts] in Es. apply bool_decide_eq_true in Es.
    apply elem_of_cons in Es as [->| ->%list_elem_of_singleton]; eapply (HQ _ _ w p2 [_]); done.
  - intros ts w p2 H Hp2 <-. eapply (HQ _ RApp w p2 [_]); done.
Qed.

Lemma parseredirs_sound n p :
  (p <= es)%nat -> (length (toks p) <= n)%nat ->
  reads (parseredirs buf es n) (fun rs us => us = redirs_toks rs) noredir p.
Proof.
  revert p. induction n as [n IH] using lt_wf_ind. intros p Hp Hn. unfold reads. destruct n as [|n].
  all: cbn [parseredirs]; apply wp_bind, wp_peek; [done|by repeat constructor|]; intros p1 Hp1 Ht1.
  all: destruct (starts [c_lt; c_gt] (toks p)) eqn:Es.
  all: try by (apply wp_ret; rewrite Ht1; split_and!; [done|done|]; by exists []).
  - destruct (toks p); [done|cbn in Hn; lia].
  - apply wp_bind, wp_redir_op; [done|by rewrite Ht1|]. intros b k w p2 t Hp2 Ht2 Hb Hk. apply wp_bind. rewrite Ht1 in Ht2.
    apply wp_gettoken; [done| |intros f ts' p3 Ht3 Hp3 Ht4|intros c ts' f p3 _ Hc _ _|].
    + intros _ f p3 _ _. apply wp_panic. set_solver.
    + cbn [fst snd]. apply wp_bind. eapply wp_mono; [apply (IH n ltac:(lia) p3 Hp3)|done|].
      { rewrite Ht4. rewrite Ht2, Ht3, length_app in Hn. cbn in Hn. specialize (Hk f). apply (f_equal length) in Hk. rewrite length_app in Hk. cbn in Hk. lia. }
      cbv beta. intros rs p4 (Hp4 & HF & us & Hus & ->). apply wp_ret. split_and!; [done..|].
      eexists. split; [|reflexivity]. rewrite Hb. cbn [app]. unfold redirs_toks. rewrite bind_cons. fold (redirs_toks rs).
      by rewrite Hk, Ht2, Ht3, <- Ht4, Hus, <- !app_assoc.
    + cbn [fst]. rewrite bool_decide_false by (by intros ->). apply wp_panic. set_solver.
    + intros ts' f p3 _ _ _. apply wp_panic. set_solver.
Qed.

Lemma lex_len w p s : (length (lex w p s) <= length s + length (emit w p []))%nat.
Proof.
  revert w p. induction s as [s IH] using (induction_ltof1 _ (@length byte)); unfold ltof in IH. intros w p. destruct s as [|c s]; cbn [lex]; [by destruct w; cbn; lia|].
  assert (forall l, length (emit w p l) = length (emit w p []) + length l)%nat as Hemit by (intros l; destruct w; cbn; lia).
  pose proof (IH s ltac:(cbn; lia) None (S p)) as H1. cbn [emit length] in H1. destruct (is_ws c); [rewrite Hemit; cbn; lia|].
  destruct (bool_decide (c = c_gt)).
  - rewrite Hemit. destruct s as [|d s']; [cbn; lia|]. pose proof (IH s' ltac:(cbn; lia) None (S (S p))) as H2. cbn [emit length] in H2. destruct (bool_decide (d = c_gt)); cbn [length] in *; lia.
  - destruct (is_sym c); [rewrite Hemit; cbn [length]; lia|]. pose proof (IH s ltac:(cbn; lia) (Some (default p w)) (S p)) as H2. cbn [emit length] in *. lia.
Qed.
Lemma toks_len p : (length (toks p) <= es)%nat.
Proof. unfold ShSpec.toks. pose proof (lex_len None p (drop p text)) as H. rewrite length_drop in H. cbn in H. unfold es. lia. Qed.

Abbreviation stops := (fun ts => starts [c_bar; c_close; c_amp; c_semi] ts = true \/ ts = []).

Lemma parseargs_sound n argc p :
  (p <= es)%nat -> (argc + n = MAXARGS)%nat -> (argc < MAXARGS)%nat ->
  reads (parseargs buf es n argc)
    (fun r us => exists args, us = args_toks args /\ r = (args.*1, concat args.*2) /\ (argc + length args < MAXARGS)%nat) stops p.
Proof.
  revert argc p. induction n as [|n IH]; intros argc p Hp Hn Hlt; [lia|]. unfold reads.
  cbn [parseargs]; apply wp_bind, wp_peek; [done|by repeat constructor|]; intros p1 Hp1 Ht1. cbv beta.
  destruct (starts [c_bar; c_close; c_amp; c_semi] (toks p)) eqn:Es.
  { apply wp_ret. rewrite Ht1. split_and!; [done|by left|]. exists []. split; [done|]. exists []. split_and!; [done..|cbn; lia]. }
  apply wp_bind, wp_gettoken; [done| |intros f ts' p3 Ht3 Hp3 Ht4|intros c ts' f p3 _ Hc _ _|]; cbn [fst snd].
  - rewrite Ht1. intros Ht f p3 Hp3 Ht3. apply wp_ret. rewrite Ht3. split_and!; [done|by right|]. exists []. split; [by rewrite Ht|].
    exists []. split_and!; [done..|cbn; lia].
  - cbn [negb bool_decide]. destruct (MAXARGS <=? S argc)%nat eqn:Ea; [apply wp_panic; set_solver|]. apply Nat.leb_gt in Ea.
    apply wp_bind. eapply wp_mono; [apply parseredirs_sound; [done|apply toks_len]|done|]. cbv beta. intros rs p4 (Hp4 & HF & us & Hus & ->).
    apply wp_bind. eapply wp_mono; [apply (IH (S argc) p4 Hp4); lia|done|]. cbv beta. intros r p5 (Hp5 & HF5 & us & Hus5 & args & -> & -> & Hlen).
    apply wp_ret. split_and!; [done..|]. eexists. rewrite <- Ht1, Ht3, <- Ht4, Hus, Hus5. split; [rewrite app_assoc, app_comm_cons; reflexivity|].
    exists ((f, rs) :: args). split_and!; [done..|cbn [length]; lia].
  - rewrite (bool_decide_false (c = x00)) by (by intros ->). rewrite bool_decide_false by (by intros ->). apply wp_panic. set_solver.
  - intros ts' f p3 _ _ _. apply wp_panic. set_solver.
Qed.

Lemma parsebacks_sound n c p :
  (p <= es)%nat -> (length (toks p) <= n)%nat ->
  reads (parsebacks buf es n c) (fun c' us => exists k, us = replicate k (TSym c_amp) /\ c' = Nat.iter k BACK c)
    (fun ts => starts [c_amp] ts = false) p.
Proof.
  revert c p. induction n as [|n IH]; intros c p Hp Hn; unfold reads.
  all: cbn [parsebacks]; apply wp_bind, wp_peek; [done|by repeat constructor|]; intros p1 Hp1 Ht1.
  all: destruct (starts [c_amp] (toks p)) eqn:Es.
  all: try by (apply wp_ret; rewrite Ht1; split_and!; [done|done|]; exists []; split; [done|]; by exists O).
  - destruct (toks p); [done|cbn in Hn; lia].
  - apply starts_one in Es as [ts Hts]; [|done]. apply wp_bind. eapply wp_skip; [done|by rewrite Ht1|]. intros w p2 Hp2 Ht2.
    eapply wp_mono; [apply IH; [done|]|done|]. { rewrite Hts in Hn. cbn in Hn. rewrite Ht2. lia. }
    cbv beta. intros c' p3 (Hp3 & HF & us & Hus & k & -> & ->). split_and!; [done..|]. exists (replicate (S k) (TSym c_amp)).
    split; [by rewrite Hts, <- Ht2, Hus|]. exists (S k). split; [done|]. by rewrite Nat.iter_succ_r.
Qed.

Abbreviation any := (fun _ : list (tok word) => True).
Definition line_sound (f : nat) : Prop := forall p, (p <= es)%nat -> (4 * length (toks p) + 4 <= f)%nat ->
  reads (parseline buf es f) (fun c us => exists l, us = line_toks l /\ c = line_cmd l /\ line_fits l = true) any p.
Definition pipe_sound (f : nat) : Prop := forall p, (p <= es)%nat -> (4 * length (toks p) + 3 <= f)%nat ->
  reads (parsepipe buf es f) (fun c us => exists l, us = pipe_toks l /\ c = pipe_cmd l /\ pipe_fits l = true) any p.
Definition exec_sound (f : nat) : Prop := forall p, (p <= es)%nat -> (4 * length (toks p) + 2 <= f)%nat ->
  reads (parseexec buf es f) (fun c us => exists l, us = exec_toks l /\ c = exec_cmd l /\ exec_fits l = true) any p.
Definition block_sound (f : nat) : Prop := forall p, (p <= es)%nat -> (4 * length (toks p) + 1 <= f)%nat -> starts [c_open] (toks p) = true ->
  reads (parseblock buf es f) (fun c us => exists l, us = exec_toks l /\ c = exec_cmd l /\ exec_fits l = true) any p.

(** The operator [o] between two parts, if it is there. *)
Lemma reads_sep {A B} (m : M nat B) (o : byte) (c : A) (k : A -> B -> A) (G : A -> list (tok word) -> Prop) p us us0 ps :
  o <> c_gt -> is_sym o = true -> (p <= es)%nat -> toks ps = us0 ++ us ++ toks p ->
  (toks p <> [] -> forall p', (p' <= es)%nat -> (length (toks p') < length (toks p))%nat ->
     reads m (fun b vs => G (k c b) (us0 ++ us ++ TSym o :: vs)) any p') -> G c (us0 ++ us) ->
  wp (b <- peek buf es [o];; if b : bool then gettoken buf es;;; r <- m;; ret (k c r) else ret c)
     err (fun a p' => (p' <= es)%nat /\ any (toks p') /\ exists vs, toks ps = vs ++ toks p' /\ G a vs) p.
Proof.
  intros Ho Hs Hp Hus Hm Hc. apply wp_bind, wp_peek; [done|by repeat constructor|]. intros p1 Hp1 Ht1. destruct (starts [o] (toks p)) eqn:Es.
  - apply starts_one in Es as [ts Hts]; [|done]. apply wp_bind. eapply wp_skip; [done|by rewrite Ht1|]. intros w p2 Hp2 Ht2. apply wp_bind.
    eapply wp_mono; [apply (Hm ltac:(by rewrite Hts) p2 Hp2)|done|]; [rewrite Ht2, Hts; cbn; lia|]. cbv beta. intros b p3 (Hp3 & _ & vs & Hvs & HG). apply wp_ret. split_and!; [done..|].
    eexists. split; [|exact HG]. rewrite Hus, Hts, <- Ht2, Hvs. by rewrite <- !app_assoc.
  - apply wp_ret. split_and!; [done..|]. eexists. split; [|exact Hc]. rewrite Ht1, <- app_assoc. done.
Qed.

Lemma parse_sound f : line_sound f /\ pipe_sound f /\ exec_sound f /\ block_sound f.
Proof.
  induction f as [|f (IHl & IHp & IHe & IHb)].
  { split_and!; intros p Hp Hf; lia. }
  split_and!; intros p Hp Hf; unfold reads.
  - cbn [parseline]. apply wp_bind. eapply wp_mono; [apply (IHp p Hp); lia|done|]. cbv beta. intros c p1 (Hp1 & _ & us & Hus & l & -> & -> & Hfit).
    apply wp_bind. eapply wp_mono; [apply (parsebacks_sound es (pipe_cmd l) p1 Hp1), toks_len|done|]. cbv beta. intros c p2 (Hp2 & _ & vs & Hvs & k & -> & ->).
    eapply (reads_sep _ _ _ LIST); [done|done|done|by rewrite Hus, Hvs| |].
    + intros Hne p3 Hp3 Hlen. eapply wp_mono; [apply (IHl p3 Hp3)|done|].
      { rewrite Hus, Hvs, !length_app in Hf. lia. }
      cbv beta. intros b p4 (Hp4 & _ & ws & Hws & l' & -> & -> & Hfit'). split_and!; [done..|]. eexists. split; [exact Hws|]. exists (LSeq l k l'). cbn. by rewrite Hfit, Hfit'.
    + by exists (LEnd l k).
  - cbn [parsepipe]. apply wp_bind. eapply wp_mono; [apply (IHe p Hp); lia|done|]. cbv beta. intros c p1 (Hp1 & _ & us & Hus & e & -> & -> & Hfit).
    eapply (reads_sep _ _ _ PIPE _ p1 (exec_toks e) []); [done|done|done|by rewrite Hus| |].
    + intros Hne p3 Hp3 Hlen. eapply wp_mono; [apply (IHp p3 Hp3)|done|].
      { rewrite Hus, !length_app in Hf. lia. }
      cbv beta. intros b p4 (Hp4 & _ & ws & Hws & l' & -> & -> & Hfit'). split_and!; [done..|]. eexists. split; [exact Hws|]. exists (PSeq e l'). cbn. by rewrite Hfit, Hfit'.
    + by exists (PEnd e).
  - cbn [parseexec]. apply wp_bind, wp_peek; [done|by repeat constructor|]. intros p1 Hp1 Ht1. destruct (starts [c_open] (toks p)) eqn:Es.
    { rewrite <- Ht1 in *. apply (IHb p1 Hp1); [lia|done]. }
    apply wp_bind. eapply wp_mono; [apply (parseredirs_sound es p1 Hp1), toks_len|done|]. cbv beta. intros rs p2 (Hp2 & _ & us & Hus & ->).
    apply wp_bind. eapply wp_mono; [apply (parseargs_sound MAXARGS 0 p2 Hp2); [done|unfold MAXARGS; lia]|done|]. cbv beta. intros r p3 (Hp3 & _ & vs & Hvs & args & -> & -> & Hlen).
    apply wp_ret. split_and!; [done..|]. eexists. split; [rewrite <- Ht1, Hus, Hvs, app_assoc; reflexivity|]. exists (ECmd rs args). split_and!; [done..|]. cbn [exec_fits]. apply Nat.ltb_lt. lia.
  - intros Es. cbn [parseblock]. apply wp_bind, wp_peek; [done|by repeat constructor|]. intros p1 Hp1 Ht1. rewrite Es. cbn [negb].
    apply starts_one in Es as [ts Hts]; [|done]. apply wp_bind. eapply wp_skip; [done|by rewrite Ht1|]. intros _ p2 Hp2 Ht2.
    apply wp_bind. eapply wp_mono; [apply (IHl p2 Hp2)|done|]. { rewrite Ht2. rewrite Hts in Hf. cbn in Hf. lia. }
    cbv beta. intros c p3 (Hp3 & _ & us & Hus & l & -> & -> & Hfit). apply wp_bind, wp_peek; [done|by repeat constructor|]. intros p4 Hp4 Ht4.
    destruct (starts [c_close] (toks p3)) eqn:Ec; cbn [negb]; [|apply wp_panic; set_solver]. apply starts_one in Ec as [ts' Hts']; [|done].
    apply wp_bind. eapply wp_skip; [done|by rewrite Ht4|]. intros _ p5 Hp5 Ht5.
    apply wp_bind. eapply wp_mono; [apply (parseredirs_sound es p5 Hp5), toks_len|done|]. cbv beta. intros rs p6 (Hp6 & _ & vs & Hvs & ->). apply wp_ret. split_and!; [done..|].
    exists (exec_toks (EBlock l rs)). split; [|by exists (EBlock l rs)]. cbn [exec_toks]. rewrite Hts, <- Ht2, Hus, Hts', <- Ht5, Hvs. cbn. by rewrite <- app_assoc.
Qed.

(** *** Completeness *)

Definition gives {A} (m : M nat A) (a : A) (rest : list (tok word)) (p : nat) : Prop :=
  wp m safe (fun a' p' => (p' <= es)%nat /\ a' = a /\ toks p' = rest) p.
Definition follow (tk : list byte) (ts : list (tok word)) : Prop := ts = [] \/ starts tk ts = true.

Lemma follow_not tk tk' ts : c_gt ∉ tk -> (forall c, c ∈ tk -> c ∉ tk') -> follow tk ts -> starts tk' ts = false.
Proof.
  intros Hg Hd [->|H]; [done|]. destruct ts as [|[w|c|] ts]; cbn [starts] in *; try done; apply bool_decide_eq_true in H; [|done].
  apply bool_decide_eq_false. by apply Hd.
Qed.
Lemma follow_mono tk tk' ts : tk ⊆ tk' -> follow tk ts -> follow tk' ts.
Proof.
  intros Hs [->|H]; [by left|]. right. destruct ts as [|[w|c|] ts]; cbn [starts] in *; try done; apply bool_decide_eq_true in H;
    apply bool_decide_eq_true; by apply Hs.
Qed.

Lemma gives_bind {A B} (m : M nat A) (k : A -> M nat B) a b ts ts' p :
  gives m a ts p -> (forall p', (p' <= es)%nat -> toks p' = ts -> gives (k a) b ts' p') -> gives (bind m k) b ts' p.
Proof. intros H Hk. apply wp_bind. eapply wp_mono; [exact H|done|]. cbv beta. intros a' p' (? & -> & ?). by apply Hk. Qed.
Lemma gives_ret {A} (a : A) ts p : (p <= es)%nat -> toks p = ts -> gives (ret a) a ts p.
Proof. done. Qed.
Lemma gives_peek tk b ts p :
  (p <= es)%nat -> Forall (fun c => is_sym c = true) tk -> toks p = ts -> starts tk ts = b -> gives (peek buf es tk) b ts p.
Proof. intros Hp Htk <- <-. apply wp_peek; [done|done|]. by intros p' ? ->. Qed.

(** [gettoken] where its word is not used. *)
Lemma gives_skip {B} (m : M nat B) c ts b ts' p :
  (p <= es)%nat -> toks p = TSym c :: ts -> (forall p', (p' <= es)%nat -> toks p' = ts -> gives m b ts' p') -> gives (gettoken buf es;;; m) b ts' p.
Proof. intros Hp Ht Hm. apply wp_bind. eapply wp_skip; [done|exact Ht|]. intros w p' ? ?. by apply Hm. Qed.
Lemma gives_word w ts p : (p <= es)%nat -> toks p = TWord w :: ts -> gives (gettoken buf es) (c_a, w) ts p.
Proof. intros Hp Ht. apply wp_gettoken; [done|intros; congruence| |intros; congruence..]. intros w' ts' p' E' ? ?. rewrite Ht in E'. by injection E' as <- <-. Qed.

Lemma parseredirs_complete rs n rest p :
  (p <= es)%nat -> toks p = redirs_toks rs ++ rest -> noredir rest -> (length rs <= n)%nat -> gives (parseredirs buf es n) rs rest p.
Proof.
  revert n p. induction rs as [|r rs IH]; intros n p Hp Ht Hr Hn.
  - destruct n; (eapply gives_bind; [apply (gives_peek _ false); [done|by repeat constructor|done|done]|]; intros p' ? ?; by apply gives_ret).
  - cbn [length] in Hn. destruct n as [|n]; [lia|]. cbn [parseredirs]. unfold redirs_toks in Ht. rewrite bind_cons in Ht. fold (redirs_toks rs) in Ht. cbn [app redir_toks] in Ht.
    eapply gives_bind; [apply (gives_peek _ true); [done|by repeat constructor|done|]|]. { by destruct r as [[] ?]. }
    intros p1 Hp1 Ht1. apply wp_bind, wp_redir_op; [done|rewrite Ht1; by destruct r as [[] ?]|]. intros b k w p2 ts Hp2 Ht2 Hb Hk.
    assert (toks p2 = TWord (r_file r) :: redirs_toks rs ++ rest /\ r_kind r = k) as [Ht3 Hkind].
    { specialize (Hk (r_file r)). cbn in Hk. destruct ts as [|t [|? ts]]; [done| |by destruct ts]. injection Hk as Hk. rewrite Ht1 in Ht2.
      injection Ht2 as Ht2 Ht2'. split; [done|]. subst t. destruct r as [[] ?], k; by cbn in Hk. }
    eapply gives_bind; [by apply gives_word|]. intros p3 Hp3 Ht4. cbn [fst snd negb bool_decide].
    eapply gives_bind; [apply (IH n p3 Hp3 Ht4 Hr); lia|]. intros p4 Hp4 Ht5. rewrite Hb, <- Hkind. destruct r. by apply gives_ret.
Qed.

Lemma args_noredir args rest : follow [c_bar; c_close; c_amp; c_semi] rest -> noredir (args_toks args ++ rest).
Proof. intros H. destruct args; [|done]. eapply follow_not; [..|exact H]; set_solver. Qed.

Lemma length_redirs (rs : list (redir word)) : (length rs <= length (redirs_toks rs))%nat.
Proof. induction rs as [|r rs IH]; [done|]. cbn [redirs_toks mbind list_bind length app redir_toks]. fold (redirs_toks rs). lia. Qed.
Lemma redirs_es (rs : list (redir word)) us vs p : toks p = us ++ redirs_toks rs ++ vs -> (length rs <= es)%nat.
Proof. intros H. pose proof (toks_len p) as Hl. rewrite H, !length_app in Hl. pose proof (length_redirs rs). lia. Qed.

Lemma parseargs_complete args n argc rest p :
  (p <= es)%nat -> toks p = args_toks args ++ rest -> follow [c_bar; c_close; c_amp; c_semi] rest ->
  (argc + length args < MAXARGS)%nat -> (argc + n = MAXARGS)%nat -> gives (parseargs buf es n argc) (args.*1, concat args.*2) rest p.
Proof.
  revert n argc p. induction args as [|[w rs] args IH]; intros n argc p Hp Ht Hr Ha Hn; cbn [length] in Ha; (destruct n as [|n]; [lia|]); cbn [parseargs].
  - destruct Hr as [->|Hr].
    + eapply gives_bind; [apply (gives_peek _ false); [done|by repeat constructor|done|done]|]. intros p' Hp' Ht'. cbn in Ht'.
      apply wp_bind, wp_gettoken; [done| |intros; congruence..]. intros _ w p2 ? ?. by apply gives_ret.
    + eapply gives_bind; [apply (gives_peek _ true); [done|by repeat constructor|done|done]|]. intros p' Hp' Ht'. by apply gives_ret.
  - unfold args_toks in Ht. rewrite bind_cons in Ht. fold (args_toks args) in Ht. cbn [app fst snd] in Ht. rewrite <- app_assoc in Ht.
    eapply gives_bind; [apply (gives_peek _ false); [done|by repeat constructor|done|done]|]. intros p1 Hp1 Ht1.
    eapply gives_bind; [by apply gives_word|]. intros p2 Hp2 Ht2. cbn [fst snd negb bool_decide]. rewrite (proj2 (Nat.leb_gt _ _)) by lia.
    eapply gives_bind; [apply (parseredirs_complete rs es _ p2 Hp2 Ht2); [by apply args_noredir|by apply (redirs_es rs [] _ p2 Ht2)]|]. intros p3 Hp3 Ht3.
    eapply gives_bind; [apply (IH n (S argc) p3 Hp3 Ht3 Hr); lia|]. intros p4 Hp4 Ht4. by apply gives_ret.
Qed.

Lemma parsebacks_complete k n c rest p :
  (p <= es)%nat -> toks p = replicate k (TSym c_amp) ++ rest -> starts [c_amp] rest = false -> (k <= n)%nat ->
  gives (parsebacks buf es n c) (Nat.iter k BACK c) rest p.
Proof.
  revert n c p. induction k as [|k IH]; intros n c p Hp Ht Hr Hn.
  - destruct n; (eapply gives_bind; [apply (gives_peek _ false); [done|by repeat constructor|done|done]|]; intros p' ? ?; by apply gives_ret).
  - destruct n as [|n]; [lia|]. cbn [parsebacks]. eapply gives_bind; [apply (gives_peek _ true); [done|by repeat constructor|done|done]|]. intros p1 Hp1 Ht1.
    eapply gives_skip; [done|exact Ht1|]. intros p2 Hp2 Ht2. rewrite Nat.iter_succ_r. apply IH; [done|done|done|lia].
Qed.

Definition line_complete (l : gline word) : Prop := forall f p rest,
  (p <= es)%nat -> toks p = line_toks l ++ rest -> line_fits l = true -> follow [c_close] rest ->
  (4 * length (toks p) + 4 <= f)%nat -> gives (parseline buf es f) (line_cmd l) rest p.
Definition pipe_complete (l : gpipe word) : Prop := forall f p rest,
  (p <= es)%nat -> toks p = pipe_toks l ++ rest -> pipe_fits l = true -> follow [c_close; c_amp; c_semi] rest ->
  (4 * length (toks p) + 3 <= f)%nat -> gives (parsepipe buf es f) (pipe_cmd l) rest p.
Definition exec_complete (l : gexec word) : Prop := forall f p rest,
  (p <= es)%nat -> toks p = exec_toks l ++ rest -> exec_fits l = true -> follow [c_bar; c_close; c_amp; c_semi] rest ->
  (4 * length (toks p) + 2 <= f)%nat -> gives (parseexec buf es f) (exec_cmd l) rest p.

Lemma follow_amps k ts tk : c_amp ∈ tk -> follow tk ts -> follow tk (replicate k (TSym c_amp) ++ ts).
Proof. intros Ha Hf. destruct k; [done|]. right. by apply bool_decide_eq_true. Qed.
Lemma follow_sym c ts tk : c ∈ tk -> follow tk (TSym c :: ts).
Proof. intros H. right. by apply bool_decide_eq_true. Qed.
Lemma length_amps p us k vs : toks p = us ++ replicate k (TSym c_amp) ++ vs -> (k <= es)%nat.
Proof. intros H. pose proof (toks_len p) as Hl. rewrite H, !length_app, length_replicate in Hl. lia. Qed.

(** The part of [parseline] before the semicolon. *)
Lemma line_head_complete (q : gpipe word) k f (m : cmd word -> M nat (cmd word)) c rest ts p :
  pipe_complete q -> (p <= es)%nat -> toks p = pipe_toks q ++ replicate k (TSym c_amp) ++ rest -> pipe_fits q = true ->
  follow [c_close; c_semi] rest -> (4 * length (toks p) + 3 <= f)%nat ->
  (forall p', (p' <= es)%nat -> toks p' = rest -> gives (m (Nat.iter k BACK (pipe_cmd q))) c ts p') ->
  gives (c <- parsepipe buf es f;; c <- parsebacks buf es es c;; m c) c ts p.
Proof.
  intros IH Hp Ht Hfit Hr Hf Hm. eapply gives_bind; [apply (IH f p _ Hp Ht Hfit)|]; [|lia|].
  { apply follow_amps; [set_solver|]. by eapply follow_mono, Hr; set_solver. }
  intros p1 Hp1 Ht1. eapply gives_bind; [apply (parsebacks_complete k es (pipe_cmd q) rest p1 Hp1 Ht1)|exact Hm].
  - eapply follow_not; [..|exact Hr]; set_solver.
  - by eapply (length_amps p1 [] k rest).
Qed.

Lemma block_complete l rs f p rest :
  line_complete l -> (p <= es)%nat -> toks p = exec_toks (EBlock l rs) ++ rest -> line_fits l = true ->
  follow [c_bar; c_close; c_amp; c_semi] rest -> (4 * length (toks p) + 1 <= f)%nat -> gives (parseblock buf es f) (exec_cmd (EBlock l rs)) rest p.
Proof.
  intros IH Hp Ht Hfit Hr Hf. destruct f as [|f]; [lia|]. cbn [parseblock]. cbn [exec_toks app] in Ht. rewrite <- app_assoc in Ht. cbn [app] in Ht.
  eapply gives_bind; [apply (gives_peek _ true); [done|by repeat constructor|exact Ht|done]|]. intros p1 Hp1 Ht1. cbn [negb].
  eapply gives_skip; [done|exact Ht1|]. intros p2 Hp2 Ht2.
  eapply gives_bind; [apply (IH f p2 _ Hp2 Ht2 Hfit); [by apply follow_sym; set_solver|]|].
  { rewrite Ht in Hf. cbn [length] in Hf. rewrite Ht2. lia. }
  intros p3 Hp3 Ht3. eapply gives_bind; [apply (gives_peek _ true); [done|by repeat constructor|exact Ht3|done]|]. intros p4 Hp4 Ht4. cbn [negb].
  eapply gives_skip; [done|exact Ht4|]. intros p5 Hp5 Ht5.
  eapply gives_bind; [apply (parseredirs_complete rs es rest p5 Hp5 Ht5); [by apply (args_noredir [])|by apply (redirs_es rs [] _ p5 Ht5)]|].
  intros p6 Hp6 Ht6. by apply gives_ret.
Qed.

Lemma exec_cmd_complete rs args : exec_complete (ECmd rs args).
Proof.
  intros f p rest Hp Ht Hfit Hr Hf. destruct f as [|f]; [lia|]. cbn [parseexec exec_toks] in *. rewrite <- app_assoc in Ht.
  eapply gives_bind; [apply (gives_peek _ false); [done|by repeat constructor|exact Ht|]|].
  { destruct rs as [|[[] ?] rs]; [|done..]. destruct args; [|done]. eapply follow_not; [..|exact Hr]; set_solver. }
  intros p1 Hp1 Ht1.
  eapply gives_bind; [apply (parseredirs_complete rs es _ p1 Hp1 Ht1); [by apply args_noredir|by apply (redirs_es rs [] _ p1 Ht1)]|]. intros p2 Hp2 Ht2.
  eapply gives_bind; [apply (parseargs_complete args MAXARGS 0 rest p2 Hp2 Ht2 Hr); [by apply Nat.ltb_lt in Hfit|done]|]. intros p3 Hp3 Ht3. by apply gives_ret.
Qed.

Lemma parse_complete :
  (forall l, line_complete l) /\ (forall l, pipe_complete l) /\ (forall l, exec_complete l).
Proof.
  apply grammar_ind.
  - intros q IH k f p rest Hp Ht Hfit Hr Hf. destruct f as [|f]; [lia|]. cbn [parseline line_toks line_fits line_cmd] in *. rewrite <- app_assoc in Ht.
    eapply line_head_complete; [exact IH|done|exact Ht|done| |lia|]. { by eapply follow_mono, Hr; set_solver. }
    intros p1 Hp1 Ht1. eapply gives_bind; [apply (gives_peek _ false); [done|by repeat constructor|exact Ht1|]|].
    { eapply follow_not; [..|exact Hr]; set_solver. }
    intros p2 Hp2 Ht2. by apply gives_ret.
  - intros q IH k l IHl f p rest Hp Ht Hfit Hr Hf. destruct f as [|f]; [lia|]. cbn [parseline line_toks line_fits line_cmd] in *.
    apply andb_true_iff in Hfit as [Hfit Hfit']. rewrite <- !app_assoc in Ht. cbn [app] in Ht.
    eapply line_head_complete; [exact IH|done|exact Ht|done|by apply follow_sym; set_solver|lia|].
    intros p1 Hp1 Ht1. eapply gives_bind; [apply (gives_peek _ true); [done|by repeat constructor|exact Ht1|done]|]. intros p2 Hp2 Ht2.
    eapply gives_skip; [done|exact Ht2|]. intros p3 Hp3 Ht3. eapply gives_bind; [apply (IHl f p3 _ Hp3 Ht3 Hfit' Hr)|].
    { rewrite Ht, !length_app in Hf. cbn [length] in Hf. rewrite <- Ht3 in Hf. lia. }
    intros p4 Hp4 Ht4. by apply gives_ret.
  - intros e IH f p rest Hp Ht Hfit Hr Hf. destruct f as [|f]; [lia|]. cbn [parsepipe pipe_toks pipe_fits pipe_cmd] in *.
    eapply gives_bind; [apply (IH f p _ Hp Ht Hfit); [by eapply follow_mono, Hr; set_solver|lia]|]. intros p1 Hp1 Ht1.
    eapply gives_bind; [apply (gives_peek _ false); [done|by repeat constructor|exact Ht1|]|]. { eapply follow_not; [..|exact Hr]; set_solver. }
    intros p2 Hp2 Ht2. by apply gives_ret.
  - intros e IH q IHq f p rest Hp Ht Hfit Hr Hf. destruct f as [|f]; [lia|]. cbn [parsepipe pipe_toks pipe_fits pipe_cmd] in *.
    apply andb_true_iff in Hfit as [Hfit Hfit']. rewrite <- !app_assoc in Ht. cbn [app] in Ht.
    eapply gives_bind; [apply (IH f p _ Hp Ht Hfit); [by apply follow_sym; set_solver|lia]|]. intros p1 Hp1 Ht1.
    eapply gives_bind; [apply (gives_peek _ true); [done|by repeat constructor|exact Ht1|done]|]. intros p2 Hp2 Ht2.
    eapply gives_skip; [done|exact Ht2|]. intros p3 Hp3 Ht3. eapply gives_bind; [apply (IHq f p3 _ Hp3 Ht3 Hfit' Hr)|].
    { rewrite Ht, !length_app in Hf. cbn [length] in Hf. rewrite <- Ht3 in Hf. lia. }
    intros p4 Hp4 Ht4. by apply gives_ret.
  - apply exec_cmd_complete.
  - intros l IH rs f p rest Hp Ht Hfit Hr Hf. destruct f as [|f]; [lia|]. cbn [parseexec].
    eapply gives_bind; [apply (gives_peek _ true); [done|by repeat constructor|exact Ht|done]|]. intros p1 Hp1 Ht1.
    eapply block_complete; [exact IH|done|exact Ht1|done|done|]. rewrite Ht1, <- Ht. lia.
Qed.
End sound.
