(* ===== verification/ShClaims.v ===== *)
(** * The shell's parser on strings

    The tokens and the grammar over strings instead of positions, the strings that
    a parsed command points to after [nulterminate], and the theorems on
    [parsecmd]. *)

From S2P Require Import Prelude CString Sh ShSpec.

(** ** The tokens of a line, as strings *)

Abbreviation str := (list byte).

Definition flush (cur : str) (l : list (tok str)) : list (tok str) :=
  match cur with [] => l | _ => TWord cur :: l end.

(** [cur] is the part of a word that has been read. *)
Fixpoint tokens (cur s : str) : list (tok str) :=
  match s with
  | [] => flush cur []
  | c :: s =>
      if is_ws c then flush cur (tokens [] s)
      else if bool_decide (c = c_gt) then
        flush cur (match s with
                   | d :: s' => if bool_decide (d = c_gt) then TApp :: tokens [] s' else TSym c :: tokens [] s
                   | [] => [TSym c]
                   end)
      else if is_sym c then flush cur (TSym c :: tokens [] s)
      else tokens (cur ++ [c]) s
  end.

(** ** Maps over tokens, grammar and commands *)

Section map.
Context {X Y : Type} (f : X -> Y).
Definition tok_map (t : tok X) : tok Y := match t with TWord w => TWord (f w) | TSym c => TSym c | TApp => TApp end.
Definition redir_map (r : redir X) : redir Y := mkRedir (r_kind r) (f (r_file r)).
Definition arg_map (a : X * list (redir X)) : Y * list (redir Y) := (f a.1, redir_map <$> a.2).
Fixpoint line_map (l : gline X) : gline Y :=
  match l with
  | LEnd p bg => LEnd (pipe_map p) bg
  | LSeq p bg l => LSeq (pipe_map p) bg (line_map l)
  end
with pipe_map (p : gpipe X) : gpipe Y :=
  match p with PEnd e => PEnd (exec_map e) | PSeq e p => PSeq (exec_map e) (pipe_map p) end
with exec_map (e : gexec X) : gexec Y :=
  match e with
  | ECmd rs args => ECmd (redir_map <$> rs) (arg_map <$> args)
  | EBlock l rs => EBlock (line_map l) (redir_map <$> rs)
  end.
Fixpoint cmd_map (c : cmd X) : cmd Y :=
  match c with
  | EXEC argv => EXEC (f <$> argv)
  | REDIR c x m d => REDIR (cmd_map c) (f x) m d
  | PIPE l r => PIPE (cmd_map l) (cmd_map r)
  | LIST l r => LIST (cmd_map l) (cmd_map r)
  | BACK c => BACK (cmd_map c)
  end.

Lemma redirs_toks_map rs : redirs_toks (redir_map <$> rs) = tok_map <$> redirs_toks rs.
Proof.
  induction rs as [|[[] ?] rs IH]; [done|..]; cbn [fmap list_fmap]; unfold redirs_toks; rewrite !bind_cons; fold (redirs_toks rs);
    fold (redirs_toks (redir_map <$> rs)); rewrite fmap_app; f_equal; done.
Qed.
Lemma args_toks_map args : args_toks (arg_map <$> args) = tok_map <$> args_toks args.
Proof.
  induction args as [|[w rs] args IH]; [done|]. cbn [fmap list_fmap]. unfold args_toks. rewrite !bind_cons. fold (args_toks args).
  fold (args_toks (arg_map <$> args)). rewrite fmap_app, IH. cbn [fst snd arg_map fmap list_fmap tok_map]. f_equal. cbn. f_equal. apply redirs_toks_map.
Qed.
Lemma toks_map :
  (forall l, line_toks (line_map l) = tok_map <$> line_toks l) /\ (forall p, pipe_toks (pipe_map p) = tok_map <$> pipe_toks p) /\
  (forall e, exec_toks (exec_map e) = tok_map <$> exec_toks e).
Proof.
  apply grammar_ind; cbn [line_map pipe_map exec_map line_toks pipe_toks exec_toks]; intros.
  - by rewrite fmap_app, fmap_replicate, H.
  - rewrite !fmap_app, fmap_replicate, H. cbn. by rewrite H0.
  - done.
  - rewrite fmap_app, H. cbn. by rewrite H0.
  - by rewrite fmap_app, redirs_toks_map, args_toks_map.
  - cbn. rewrite fmap_app, H. cbn. by rewrite redirs_toks_map.
Qed.

Lemma redircmds_map c rs : cmd_map (redircmds c rs) = redircmds (cmd_map c) (redir_map <$> rs).
Proof. revert c. induction rs as [|r rs IH]; intros c; [done|]. unfold redircmds in *. cbn [foldl fmap list_fmap]. rewrite IH. f_equal. by destruct r as [[] ?]. Qed.
Lemma iter_back_map c k : cmd_map (Nat.iter k BACK c) = Nat.iter k BACK (cmd_map c).
Proof. induction k; [done|]. cbn. by f_equal. Qed.
Lemma concat_map_args args : concat (arg_map <$> args).*2 = redir_map <$> concat args.*2.
Proof. induction args as [|[w rs] args IH]; [done|]. cbn. rewrite fmap_app. f_equal. apply IH. Qed.
Lemma cmds_map :
  (forall l, line_cmd (line_map l) = cmd_map (line_cmd l)) /\ (forall p, pipe_cmd (pipe_map p) = cmd_map (pipe_cmd p)) /\
  (forall e, exec_cmd (exec_map e) = cmd_map (exec_cmd e)).
Proof.
  apply grammar_ind; cbn [line_map pipe_map exec_map line_cmd pipe_cmd exec_cmd cmd_map]; intros.
  - by rewrite iter_back_map, H.
  - by rewrite iter_back_map, H, H0.
  - done.
  - by rewrite H, H0.
  - rewrite redircmds_map, fmap_app, concat_map_args. cbn. by rewrite <- !list_fmap_compose.
  - by rewrite redircmds_map, H.
Qed.
Lemma fits_map :
  (forall l, line_fits (line_map l) = line_fits l) /\ (forall p, pipe_fits (pipe_map p) = pipe_fits p) /\ (forall e, exec_fits (exec_map e) = exec_fits e).
Proof. apply grammar_ind; cbn; intros; rewrite ?H, ?H0, ?length_fmap; done. Qed.

(** Tokens that are those of a line after the map are those of a line before. *)
Lemma redirs_unmap rs ts : tok_map <$> ts = redirs_toks rs -> exists rs', ts = redirs_toks rs' /\ redir_map <$> rs' = rs.
Proof.
  revert ts. induction rs as [|[k y] rs IH]; intros ts H.
  { exists []. by apply fmap_nil_inv in H as ->. }
  unfold redirs_toks in H. rewrite bind_cons in H. fold (redirs_toks rs) in H. cbn [redir_toks app r_kind r_file] in H.
  destruct ts as [|t [|[w|?|] ts]]; try done. cbn in H. injection H as Ht Hw Hts. destruct (IH ts Hts) as (rs' & -> & <-).
  exists (mkRedir k w :: rs'). subst y. split; [|done]. unfold redirs_toks. rewrite bind_cons. cbn [redir_toks app r_kind r_file]. f_equal. by destruct t, k; cbn in *; simplify_eq.
Qed.
Lemma args_unmap args ts : tok_map <$> ts = args_toks args -> exists args', ts = args_toks args' /\ arg_map <$> args' = args.
Proof.
  revert ts. induction args as [|[y rs] args IH]; intros ts H.
  { exists []. by apply fmap_nil_inv in H as ->. }
  unfold args_toks in H. rewrite bind_cons in H. fold (args_toks args) in H. apply fmap_app_inv in H as (ts1 & ts2 & H1 & H2 & ->).
  destruct (IH ts2) as (args' & -> & <-); [done|]. destruct ts1 as [|[w|?|] ts1]; try done. cbn in H1. injection H1 as -> H1.
  destruct (redirs_unmap rs ts1) as (rs' & -> & <-); [done|]. exists ((w, rs') :: args'). split; [|done]. unfold args_toks. by rewrite bind_cons.
Qed.

Lemma toks_unmap :
  (forall (l : gline Y) ts, tok_map <$> ts = line_toks l -> exists l', ts = line_toks l' /\ line_map l' = l) /\
  (forall (p : gpipe Y) ts, tok_map <$> ts = pipe_toks p -> exists p', ts = pipe_toks p' /\ pipe_map p' = p) /\
  (forall (e : gexec Y) ts, tok_map <$> ts = exec_toks e -> exists e', ts = exec_toks e' /\ exec_map e' = e).
Proof.
  assert (forall k ts, tok_map <$> ts = replicate k (TSym c_amp) -> ts = replicate k (TSym c_amp)) as Hrep.
  { induction k as [|k IH]; intros ts H; [by apply fmap_nil_inv in H|]. destruct ts as [|[?|c|] ts]; try done. cbn in H. injection H as -> H. cbn. f_equal. by apply IH. }
  assert (forall c ts us, TSym c :: us = tok_map <$> ts -> exists ts', ts = TSym c :: ts' /\ us = tok_map <$> ts') as Hsym.
  { intros c [|[?|c'|] ts] us H; try done. cbn in H. injection H as -> ->. by exists ts. }
  apply grammar_ind; cbn [line_toks pipe_toks exec_toks].
  - intros p IH k ts H. apply fmap_app_inv in H as (t1 & t2 & H1 & H2 & ->). destruct (IH t1) as (p' & -> & <-); [done|].
    rewrite (Hrep k t2) by done. by exists (LEnd p' k).
  - intros p IH k l IHl ts H. apply fmap_app_inv in H as (t1 & t2 & H1 & H2 & ->). symmetry in H2. apply fmap_app_inv in H2 as (t3 & t4 & H3 & H4 & ->).
    destruct (Hsym _ _ _ H4) as (t5 & -> & H5). destruct (IH t1) as (p' & -> & <-); [done|]. destruct (IHl t5) as (l' & -> & <-); [done|].
    rewrite (Hrep k t3) by done. by exists (LSeq p' k l').
  - intros e IH ts H. destruct (IH ts H) as (e' & -> & <-). by exists (PEnd e').
  - intros e IH p IHp ts H. apply fmap_app_inv in H as (t1 & t2 & H1 & H2 & ->). destruct (Hsym _ _ _ H2) as (t3 & -> & H3).
    destruct (IH t1) as (e' & -> & <-); [done|]. destruct (IHp t3) as (p' & -> & <-); [done|]. by exists (PSeq e' p').
  - intros rs args ts H. apply fmap_app_inv in H as (t1 & t2 & H1 & H2 & ->). destruct (redirs_unmap rs t1) as (rs' & -> & <-); [done|].
    destruct (args_unmap args t2) as (args' & -> & <-); [done|]. by exists (ECmd rs' args').
  - intros l IH rs ts H. symmetry in H. destruct (Hsym _ _ _ H) as (t0 & -> & H0). symmetry in H0. apply fmap_app_inv in H0 as (t1 & t2 & H1 & H2 & ->).
    destruct (Hsym _ _ _ H2) as (t3 & -> & H3). destruct (IH t1) as (l' & -> & <-); [done|]. destruct (redirs_unmap rs t3) as (rs' & -> & <-); [done|]. by exists (EBlock l' rs').
Qed.
End map.

(** ** From positions to strings *)

Definition sub (text : str) (w : word) : str := take (w.2 - w.1) (drop w.1 text).
Arguments sub : simpl never.

Definition wchar (c : byte) : bool := negb (is_ws c) && negb (is_sym c).

(** A word of the line: its characters are not separators, and it is as long as
    it can be. *)
Definition is_word (text : str) (w : word) : Prop :=
  (w.1 < w.2 <= length text)%nat /\ (forall i c, (w.1 <= i < w.2)%nat -> text !! i = Some c -> wchar c = true) /\
  (forall c, text !! w.2 = Some c -> wchar c = false).

Section positions.
Context (text : str).

Lemma sub_snoc q p c : (q <= p)%nat -> text !! p = Some c -> sub text (q, S p) = sub text (q, p) ++ [c].
Proof. intros Hq Hc. unfold sub. cbn. replace (S p - q)%nat with (S (p - q)) by lia. apply take_S_r. rewrite lookup_drop. by replace (q + (p - q))%nat with p by lia. Qed.

Lemma sub_ne q p : (q < p <= length text)%nat -> sub text (q, p) <> [].
Proof. intros H E. apply (f_equal length) in E. unfold sub in E. rewrite length_take, length_drop in E. cbn in E. lia. Qed.

(** The part of a word that has been read, by position and as a string. *)
Definition pending (w : option nat) (p : nat) (cur : str) : Prop :=
  match w with
  | None => cur = []
  | Some q => (q < p)%nat /\ cur = sub text (q, p) /\ forall i c, (q <= i < p)%nat -> text !! i = Some c -> wchar c = true
  end.

Lemma emit_flush w p cur l :
  pending w p cur -> (p <= length text)%nat -> tok_map (sub text) <$> emit w p l = flush cur (tok_map (sub text) <$> l).
Proof. destruct w as [q|]; cbn; [|by intros ->]. intros (H & -> & _) Hp. unfold flush. destruct (sub text (q, p)) eqn:E; [by apply sub_ne in E|done]. Qed.

Lemma emit_words w p cur l :
  pending w p cur -> (p <= length text)%nat -> (forall c, text !! p = Some c -> wchar c = false) ->
  (forall v, TWord v ∈ l -> is_word text v) -> forall v, TWord v ∈ emit w p l -> is_word text v.
Proof.
  intros H Hp Hend Hl v. destruct w as [q|]; cbn; [|by apply Hl]. destruct H as (H & -> & Hw). intros [[= ->]|Hv]%elem_of_cons; [|by apply Hl]. split_and!; [cbn; lia..|done|done].
Qed.

Lemma lex_tokens s w p cur :
  drop p text = s -> (p <= length text)%nat -> pending w p cur ->
  tok_map (sub text) <$> lex w p s = tokens cur s /\ (forall v, TWord v ∈ lex w p s -> is_word text v).
Proof.
  revert w p cur. induction s as [s IH] using (induction_ltof1 _ (@length byte)); unfold ltof in IH. intros w p cur Hd Hp Hpend.
  assert (forall p', (p < p')%nat -> (p' <= length text)%nat -> tok_map (sub text) <$> lex None p' (drop p' text) = tokens [] (drop p' text) /\
            (forall v, TWord v ∈ lex None p' (drop p' text) -> is_word text v)) as IH'.
  { intros p' H1 H2. apply IH; [|done|done|done]. rewrite <- Hd, !length_drop. lia. }
  destruct s as [|c s]; cbn [lex tokens].
  { assert (p = length text) as -> by (apply (f_equal length) in Hd; rewrite length_drop in Hd; cbn in Hd; lia). rewrite (emit_flush _ _ cur) by done. split; [done|].
    eapply emit_words; [done|done| |set_solver]. intros c Hc%lookup_lt_Some. lia. }
  assert (text !! p = Some c) as Hc by (by rewrite <- (Nat.add_0_r p), <- lookup_drop, Hd).
  pose proof (drop_S _ _ _ Hc) as Hs. rewrite Hd in Hs. injection Hs as Hs. pose proof (lookup_lt_Some _ _ _ Hc) as Hlt.
  pose proof (IH' (S p) ltac:(lia) ltac:(lia)) as H1. rewrite <- Hs in H1. destruct H1 as [H1 H1'].
  assert (wchar c = false -> forall l k, tok_map (sub text) <$> l = k -> (forall v, TWord v ∈ l -> is_word text v) ->
    tok_map (sub text) <$> emit w p l = flush cur k /\ (forall v, TWord v ∈ emit w p l -> is_word text v)) as Hemit.
  { intros Hw l k <- Hl. split; [by apply emit_flush|]. eapply emit_words; [done..| |exact Hl]. intros c' Hc'. congruence. }
  unfold wchar in Hemit. destruct (is_ws c) eqn:Ews; [by apply Hemit|]. case_bool_decide as Eg; [|destruct (is_sym c) eqn:Es].
  - subst c. destruct s as [|d s']; [apply Hemit; [done|done|set_solver]|].
    assert (text !! S p = Some d) as Hd' by (by rewrite <- (Nat.add_0_r (S p)), <- lookup_drop, <- Hs).
    pose proof (drop_S _ _ _ Hd') as Hs'. rewrite <- Hs in Hs'. injection Hs' as Hs'. pose proof (lookup_lt_Some _ _ _ Hd') as Hlt'.
    destruct (IH' (S (S p)) ltac:(lia) ltac:(lia)) as [H2 H2']. rewrite <- Hs' in H2, H2'.
    case_bool_decide as Ed; apply Hemit; try done; try (cbn; by f_equal); (intros v [?|?]%elem_of_cons; [done|auto]).
  - apply Hemit; [done|cbn; by f_equal|]. intros v [?|?]%elem_of_cons; [done|by apply H1'].
  - apply IH; [cbn; lia|done|lia|]. assert (forall q, (q <= p)%nat -> (forall i c, (q <= i < p)%nat -> text !! i = Some c -> wchar c = true) ->
      forall i c, (q <= i < S p)%nat -> text !! i = Some c -> wchar c = true) as Hext.
    { intros q Hq Hw i c' Hi Hc'. destruct (decide (i = p)) as [->|]; [|by eapply Hw; [|done]; lia]. unfold wchar. assert (c' = c) as -> by congruence. by rewrite Ews, Es. }
    destruct w as [q|]; cbn in Hpend |- *.
    + destruct Hpend as (Hq & -> & Hw). split_and!; [lia|symmetry; apply sub_snoc; [lia|done]|exact (Hext q ltac:(lia) Hw)].
    + subst cur. split_and!; [lia| |exact (Hext p ltac:(lia) ltac:(intros; lia))]. rewrite (sub_snoc p p c) by done. unfold sub. cbn. by rewrite Nat.sub_diag.
Qed.

Lemma toks_tokens : tok_map (sub text) <$> toks text 0 = tokens [] text /\ (forall v, TWord v ∈ toks text 0 -> is_word text v).
Proof. apply lex_tokens; [done|lia|done]. Qed.
End positions.

(** ** [nulterminate] *)

Fixpoint cmd_words {X} (c : cmd X) : list X :=
  match c with
  | EXEC argv => argv
  | REDIR c x _ _ => cmd_words c ++ [x]
  | PIPE l r | LIST l r => cmd_words l ++ cmd_words r
  | BACK c => cmd_words c
  end.

Lemma cmd_map_ext {X Y} (f g : X -> Y) c : (forall w, w ∈ cmd_words c -> f w = g w) -> cmd_map f c = cmd_map g c.
Proof.
  induction c as [argv|c IH x m d|l IHl r IHr|l IHl r IHr|c IH]; cbn; intros H.
  - f_equal. apply list_fmap_ext. intros i w Hw. apply H. by eapply list_elem_of_lookup_2.
  - rewrite IH, H; [done|set_solver..].
  - rewrite IHl, IHr; [done|set_solver..].
  - rewrite IHl, IHr; [done|set_solver..].
  - by rewrite IH.
Qed.

Abbreviation cuts := (foldl (fun b w => cut w b)).
Lemma nulterminate_cuts c b : nulterminate c b = cuts b (cmd_words c).
Proof. revert b. induction c; intros b; cbn; rewrite ?foldl_app; cbn; rewrite ?IHc, ?IHc1, ?IHc2; done. Qed.

Lemma cuts_other ws b i : (forall w, w ∈ ws -> w.2 <> i) -> cuts b ws !! i = b !! i.
Proof. revert b. induction ws as [|w ws IH]; intros b H; [done|]. cbn. rewrite IH by set_solver. unfold cut. apply list_lookup_insert_ne. set_solver. Qed.
Lemma cuts_len ws b : length (cuts b ws) = length b.
Proof. revert b. induction ws as [|w ws IH]; intros b; [done|]. cbn. rewrite IH. apply length_insert. Qed.
Lemma cuts_nul ws b i : b !! i = Some x00 -> cuts b ws !! i = Some x00.
Proof.
  revert b. induction ws as [|w ws IH]; intros b H; [done|]. cbn. apply IH. unfold cut. pose proof (lookup_lt_Some _ _ _ H).
  destruct (decide (w.2 = i)) as [->|]; [by apply list_lookup_insert_eq|by rewrite list_lookup_insert_ne].
Qed.
Lemma cuts_end ws b w : w ∈ ws -> (w.2 < length b)%nat -> cuts b ws !! w.2 = Some x00.
Proof.
  revert b. induction ws as [|v ws IH]; intros b; [set_solver|]. intros [->|H]%elem_of_cons Hlt; cbn; [|apply IH; [done|by unfold cut; rewrite length_insert]].
  apply cuts_nul. by apply list_lookup_insert_eq.
Qed.

(** The C string at the start of a word. *)
Definition string_at (b : str) (w : word) : str := cstr (drop w.1 b).

Lemma nulterminate_string text tail c w :
  x00 ∉ text -> (forall v, v ∈ cmd_words c -> is_word text v) -> w ∈ cmd_words c ->
  string_at (nulterminate c (text ++ x00 :: tail)) w = sub text w.
Proof.
  intros Hnul Hws Hw. destruct (Hws w Hw) as ((Hq & He) & Hin & _). rewrite nulterminate_cuts. unfold string_at. set (b := cuts _ _).
  assert (length b = length text + S (length tail))%nat as Hlen by (unfold b; by rewrite cuts_len, length_app).
  assert (b !! w.2 = Some x00) as Hend by (apply cuts_end; [done|rewrite length_app; cbn; lia]).
  assert (take (w.2 - w.1) (drop w.1 b) = sub text w) as Htake.
  { apply list_eq. intros i. unfold sub. destruct (decide (i < w.2 - w.1)%nat) as [Hi|Hi]; [|rewrite !lookup_take_ge by lia; done].
    rewrite !lookup_take_lt, !lookup_drop by lia. unfold b. destruct (lookup_lt_is_Some_2 text (w.1 + i)) as [c' Hc']; [lia|].
    rewrite cuts_other; [apply lookup_app_l; lia|]. intros v Hv E. destruct (Hws v Hv) as (_ & _ & Hv'). rewrite E in Hv'.
    specialize (Hv' c' Hc'). specialize (Hin (w.1 + i)%nat c' ltac:(lia) Hc'). congruence. }
  rewrite <- (take_drop (w.2 - w.1) (drop w.1 b)), Htake, drop_drop. replace (w.1 + (w.2 - w.1))%nat with w.2 by lia. rewrite (drop_S _ _ _ Hend).
  apply cstr_app_nul. unfold sub. intros [i Hi%lookup_take_Some]%list_elem_of_lookup. destruct Hi as [Hi _]. rewrite lookup_drop in Hi. apply Hnul. by eapply list_elem_of_lookup_2.
Qed.

(** The words of a command are among those of the line. *)
Lemma redircmds_words {X} (c : cmd X) rs w : w ∈ cmd_words (redircmds c rs) -> w ∈ cmd_words c \/ TWord w ∈ redirs_toks rs.
Proof.
  revert c. induction rs as [|r rs IH]; intros c; unfold redircmds in *; cbn [foldl]; [by left|]. intros [H|H]%IH.
  - destruct r as [[] x]; cbn in H; (apply elem_of_app in H as [H| ->%list_elem_of_singleton]; [by left|right; unfold redirs_toks; rewrite bind_cons; cbn; set_solver]).
  - right. unfold redirs_toks. rewrite bind_cons. fold (redirs_toks rs). set_solver.
Qed.
Lemma iter_back_words {X} (c : cmd X) k : cmd_words (Nat.iter k BACK c) = cmd_words c.
Proof. by induction k. Qed.
Lemma args_words {X} (args : list (X * list (redir X))) w :
  w ∈ args.*1 \/ TWord w ∈ redirs_toks (concat args.*2) -> TWord w ∈ args_toks args.
Proof.
  induction args as [|[x rs] args IH]; [set_solver|]. unfold args_toks. rewrite bind_cons. fold (args_toks args). cbn [fmap list_fmap fst snd concat].
  unfold redirs_toks at 1. rewrite bind_app. fold (redirs_toks rs) (redirs_toks (concat args.*2)). cbn [app].
  intros [[->|H]%elem_of_cons|[H|H]%elem_of_app]; [left|right; apply elem_of_app; right; apply IH; by left|right; apply elem_of_app; by left|right; apply elem_of_app; right; apply IH; by right].
Qed.
Lemma words_toks {X} (w : X) :
  (forall l, w ∈ cmd_words (line_cmd l) -> TWord w ∈ line_toks l) /\ (forall p, w ∈ cmd_words (pipe_cmd p) -> TWord w ∈ pipe_toks p) /\
  (forall e, w ∈ cmd_words (exec_cmd e) -> TWord w ∈ exec_toks e).
Proof.
  apply grammar_ind; cbn [line_cmd pipe_cmd exec_cmd line_toks pipe_toks exec_toks cmd_words].
  - intros p IH k. rewrite iter_back_words. set_solver.
  - intros p IH k l IHl. rewrite iter_back_words. set_solver.
  - done.
  - set_solver.
  - intros rs args [H|H]%redircmds_words; [by apply elem_of_app; right; apply args_words; left|]. unfold redirs_toks in H. rewrite bind_app in H.
    apply elem_of_app in H as [H|H]; apply elem_of_app; [by left|]. right. apply args_words. by right.
  - intros l IH rs [H|H]%redircmds_words; set_solver.
Qed.

(** ** [parsecmd] *)

(** [l] derives the line, with no more arguments per command than [argv] holds. *)
Definition parses (text : str) (l : gline str) : Prop := tokens [] text = line_toks l /\ line_fits l = true.

Section parsecmd.
Context (text : str) (tail : str).
Hypothesis text_ok : x00 ∉ text.
Let buf : str := text ++ x00 :: tail.

Lemma strlen_buf : KString.strlen buf = Some (Z.of_nat (length text)).
Proof. rewrite strlen_eq by (unfold buf; set_solver). unfold buf. by rewrite cstr_app_nul. Qed.

Definition result (l : gline word) : cmd word * str := (line_cmd l, nulterminate (line_cmd l) buf).

Lemma parsecmd_sound :
  wp (parsecmd buf) (fun e => e ∈ syntax_errors) (fun r _ => exists l, toks text 0 = line_toks l /\ line_fits l = true /\ r = result l) 0%nat.
Proof.
  unfold parsecmd. rewrite strlen_buf. apply wp_bind, wp_ret. rewrite Nat2Z.id. apply wp_bind.
  eapply wp_mono; [apply (parse_sound text text_ok tail (4 * S (length text))); [lia|]|done|].
  { pose proof (toks_len text 0). lia. }
  cbv beta. intros c p1 (Hp1 & _ & us & Hus & l & -> & -> & Hfit). apply wp_bind, (wp_peek text text_ok tail); [done|done|]. intros p2 Hp2 Ht2. apply wp_bind.
  unfold wp at 1. cbv beta iota. destruct (p2 =? length text)%nat eqn:E; cbn [negb]; [|apply wp_panic; set_solver]. apply Nat.eqb_eq in E. subst p2.
  apply wp_ret. exists l. rewrite toks_end in Ht2. rewrite Hus, <- Ht2, app_nil_r. done.
Qed.

Lemma parsecmd_complete l :
  toks text 0 = line_toks l -> line_fits l = true -> parsecmd buf 0%nat = Ok (result l) (length text).
Proof.
  intros Ht Hfit. unfold parsecmd. rewrite strlen_buf. unfold bind at 1. cbn [from_opt]. unfold ret at 1. rewrite Nat2Z.id.
  pose proof (proj1 (parse_complete text text_ok tail) l (4 * S (length text))%nat 0%nat []) as H. rewrite app_nil_r in H.
  specialize (H ltac:(lia) Ht Hfit (or_introl eq_refl)). pose proof (toks_len text 0) as Hl. apply wp_safe_inv in H as (c & p1 & E & Hp1 & -> & Ht1); [|lia].
  fold buf in E. run E. destruct (peek_ok text text_ok tail [] p1 Hp1) as (p2 & _ & _ & E2 & Hend); [done|]. fold buf in E2. run E2. rewrite (Hend Ht1). run1.
  by rewrite Nat.eqb_refl.
Qed.

Lemma result_strings l : toks text 0 = line_toks l -> cmd_map (string_at (result l).2) (result l).1 = line_cmd (line_map (sub text) l).
Proof.
  intros Ht. rewrite (proj1 (cmds_map _)). apply cmd_map_ext. intros w Hw. apply nulterminate_string; [done| |done].
  intros v Hv. apply toks_tokens. rewrite Ht. by apply words_toks.
Qed.
End parsecmd.

(** C14: The parser accepts the language of its grammar.  On every line, [parsecmd]
    either returns a command or reports one of its four syntax errors.  It returns a
    command just when the grammar derives the line, and then the command, with the
    strings that the buffer holds after [nulterminate], is the syntax tree of every
    derivation of the line.  In particular the grammar is not ambiguous, the error
    in [parseblock] is not reachable, and the parser ends. *)
Theorem parsecmd_grammar text tail :
  x00 ∉ text ->
  match parsecmd (text ++ x00 :: tail) 0%nat with
  | Ok (c, b) _ => (exists l, parses text l) /\ forall l, parses text l -> cmd_map (string_at b) c = line_cmd l
  | Panic e => e ∈ syntax_errors /\ ~ exists l, parses text l
  | _ => False
  end.
Proof.
  intros Hok. pose proof (parsecmd_sound text tail Hok) as Hs. destruct (toks_tokens text) as [Htok _].
  assert (forall l, parses text l -> exists l', toks text 0 = line_toks l' /\ line_fits l' = true /\ line_map (sub text) l' = l) as Hun.
  { intros l [Hl Hf]. rewrite <- Htok in Hl. destruct (proj1 (toks_unmap (sub text)) l _ Hl) as (l' & Ht & <-). exists l'. by rewrite (proj1 (fits_map _)) in Hf. }
  unfold wp in Hs. destruct (parsecmd (text ++ x00 :: tail) 0%nat) as [[c b] s|e|s| |] eqn:E; try done.
  - destruct Hs as (l & Ht & Hf & _). split.
    + exists (line_map (sub text) l). split; [by rewrite <- Htok, Ht, (proj1 (toks_map _))|by rewrite (proj1 (fits_map _))].
    + intros ls (l' & Ht' & Hf' & <-)%Hun. rewrite (parsecmd_complete text tail Hok l' Ht' Hf') in E. pose proof (result_strings text tail Hok l' Ht') as Hres.
      assert (result text tail l' = (c, b)) as Hcb by congruence. by rewrite Hcb in Hres.
  - split; [done|]. intros (ls & (l' & Ht' & Hf' & <-)%Hun). by rewrite (parsecmd_complete text tail Hok l' Ht' Hf') in E.
Qed.

(** ** Printing a command line *)

Definition tok_text (t : tok str) : str :=
  match t with TWord w => w | TSym c => [c] | TApp => [c_gt; c_gt] end ++ [x20].
Definition line_text (l : gline str) : str := line_toks l ≫= tok_text.

Definition word_ok (w : str) : bool := bool_decide (w <> []) && forallb (fun c => wchar c && negb (bool_decide (c = x00))) w.
Definition words_ok (l : gline str) : bool := forallb (fun t => match t with TWord w => word_ok w | _ => true end) (line_toks l).

Lemma wchar_not_gt c : wchar c = true -> is_ws c = false /\ is_sym c = false /\ c <> c_gt.
Proof. unfold wchar. destruct (is_ws c) eqn:E1, (is_sym c) eqn:E2; try done. intros _. split_and!; [done..|]. by intros ->. Qed.

Lemma tokens_word cur w s : forallb wchar w = true -> tokens cur (w ++ s) = tokens (cur ++ w) s.
Proof.
  revert cur. induction w as [|c w IH]; intros cur; cbn [forallb app]; [by rewrite app_nil_r|]. intros [H1 H2]%andb_true_iff. cbn [tokens].
  destruct (wchar_not_gt c H1) as (-> & -> & Hg). rewrite bool_decide_false by done. rewrite IH by done. by rewrite <- app_assoc.
Qed.

Lemma tokens_text ts :
  (forall w, TWord w ∈ ts -> w <> [] /\ forallb wchar w = true) -> (forall c, TSym c ∈ ts -> is_sym c = true) -> tokens [] (ts ≫= tok_text) = ts.
Proof.
  induction ts as [|t ts IH]; intros Hw Hc; [done|]. rewrite bind_cons. assert (tokens [] (ts ≫= tok_text) = ts) as IH' by (apply IH; set_solver).
  destruct t as [w|c|]; unfold tok_text at 1; rewrite <- ?app_assoc.
  - destruct (Hw w) as [Hne Hok]; [set_solver|]. rewrite (tokens_word [] w) by done. cbn [app]. destruct w as [|c w]; [done|]. cbn. by rewrite IH'.
  - pose proof (Hc c ltac:(set_solver)) as Hs. cbn [app tokens]. assert (is_ws c = false) as ->.
    { destruct (decide (c = c_gt)) as [->|Hg]; [done|]. apply sym_cases in Hs; [|done]. rewrite !elem_of_cons, elem_of_nil in Hs. naive_solver. }
    rewrite Hs. case_bool_decide as Eg; cbn; by rewrite IH'.
  - cbn. by rewrite IH'.
Qed.

Lemma redirs_syms {X} (rs : list (redir X)) c : TSym c ∈ redirs_toks rs -> is_sym c = true.
Proof.
  induction rs as [|[[] x] rs IH]; [set_solver|..]; unfold redirs_toks; rewrite bind_cons; fold (redirs_toks rs); cbn [redir_toks app r_kind r_file];
    rewrite !elem_of_cons; intros [[= ->]|[?|?]]; try done; by apply IH.
Qed.
Lemma args_syms {X} (args : list (X * list (redir X))) c : TSym c ∈ args_toks args -> is_sym c = true.
Proof.
  induction args as [|[x rs] args IH]; [set_solver|]. unfold args_toks. rewrite bind_cons. fold (args_toks args). cbn [fst snd app].
  intros [?|[H|H]%elem_of_app]%elem_of_cons; [done|by eapply redirs_syms|by apply IH].
Qed.
Lemma toks_syms {X} c :
  (forall l : gline X, TSym c ∈ line_toks l -> is_sym c = true) /\ (forall p : gpipe X, TSym c ∈ pipe_toks p -> is_sym c = true) /\
  (forall e : gexec X, TSym c ∈ exec_toks e -> is_sym c = true).
Proof.
  assert (forall k, (TSym c : tok X) ∈ replicate k (TSym c_amp) -> is_sym c = true) as Hrep.
  { intros k [[= ->] _]%elem_of_replicate. done. }
  assert (forall d ts, is_sym d = true -> ((TSym c : tok X) ∈ ts -> is_sym c = true) -> (TSym c : tok X) ∈ TSym d :: ts -> is_sym c = true) as Hcons.
  { intros d ts Hd Hts [[= ->]|H]%elem_of_cons; auto. }
  apply grammar_ind; cbn [line_toks pipe_toks exec_toks].
  - intros p IH k [H|H]%elem_of_app; eauto.
  - intros p IH k l IHl [H|[H|H]%elem_of_app]%elem_of_app; [by auto|by eapply Hrep|by eapply Hcons; [..|exact H]].
  - done.
  - intros e IH p IHp [H|H]%elem_of_app; [by auto|by eapply Hcons; [..|exact H]].
  - intros rs args [H|H]%elem_of_app; [by eapply redirs_syms|by eapply args_syms].
  - intros l IH rs. apply Hcons; [done|]. intros [H|H]%elem_of_app; [by auto|]. eapply Hcons; [..|exact H]; [done|apply redirs_syms].
Qed.

Lemma words_ok_toks l : words_ok l = true -> forall w, TWord w ∈ line_toks l -> w <> [] /\ forallb wchar w = true /\ x00 ∉ w.
Proof.
  unfold words_ok. rewrite forallb_forall. intros H w Hw. apply list_elem_of_In in Hw. specialize (H _ Hw). apply andb_true_iff in H as [H1 H2].
  apply bool_decide_eq_true in H1. rewrite forallb_forall in H2. split_and!; [done|apply forallb_forall; intros c Hc; by destruct (andb_prop _ _ (H2 c Hc))|].
  intros Hin%list_elem_of_In. by specialize (H2 _ Hin).
Qed.

Lemma tok_text_nul t : (forall w, t = TWord w -> x00 ∉ w) -> (forall c, t = TSym c -> is_sym c = true) -> x00 ∉ tok_text t.
Proof.
  intros Hw Hc. unfold tok_text. intros [H|H]%elem_of_app; [|by rewrite list_elem_of_singleton in H]. destruct t as [w|c|]; [by eapply Hw|..].
  - apply list_elem_of_singleton in H. subst c. by specialize (Hc _ eq_refl).
  - by rewrite !elem_of_cons, elem_of_nil in H; destruct H as [|[|]].
Qed.

(** C39: Round trip.  A command line printed from its grammar is parsed to its
    syntax tree: for every derivation whose words have no separators and whose
    commands have fewer than [MAXARGS] arguments, [parsecmd] on the printed line
    returns a command whose strings and shape are those of the derivation. *)
Theorem parsecmd_line_text l tail :
  words_ok l = true -> line_fits l = true ->
  exists c b, parsecmd (line_text l ++ x00 :: tail) 0%nat = Ok (c, b) (length (line_text l)) /\ cmd_map (string_at b) c = line_cmd l.
Proof.
  intros Hw Hfit. pose proof (words_ok_toks l Hw) as Hok.
  assert (tokens [] (line_text l) = line_toks l) as Htok.
  { apply tokens_text; [intros w Hin; by destruct (Hok w Hin) as (? & ? & _)|intros c; exact (proj1 (toks_syms c) l)]. }
  assert (x00 ∉ line_text l) as Hnul.
  { unfold line_text. intros (t & Ht & Hin)%list_elem_of_bind. refine (tok_text_nul t _ _ Ht); [intros w ->; exact (proj2 (proj2 (Hok w Hin)))|intros c ->; exact (proj1 (toks_syms c) l Hin)]. }
  destruct (toks_tokens (line_text l)) as [Hmap _]. rewrite Htok in Hmap. destruct (proj1 (toks_unmap _) l _ Hmap) as (l' & Ht & El).
  assert (line_fits l' = true) as Hfit' by (by rewrite <- El, (proj1 (fits_map _)) in Hfit).
  pose proof (parsecmd_complete _ tail Hnul l' Ht Hfit') as E. pose proof (result_strings _ tail Hnul l' Ht) as Hs.
  destruct (result _ tail l') as [c b] in E, Hs. exists c, b. split; [exact E|]. by rewrite <- El.
Qed.

(** [(ls; grep "a" < f &) >> out | wc] and a line with an unclosed block. *)
Definition demo : gline str :=
  LEnd (PSeq (EBlock (LSeq (PEnd (ECmd [] [(bytes "ls", [])])) 0
                       (LEnd (PEnd (ECmd [] [(bytes "grep", []); (bytes "a", [mkRedir RIn (bytes "f")])])) 1))
                [mkRedir RApp (bytes "out")])
         (PEnd (ECmd [] [(bytes "wc", [])]))) 0.

Lemma parsecmd_line_text_witness :
  exists c b, parsecmd (line_text demo ++ [x00]) 0%nat = Ok (c, b) (length (line_text demo)) /\
    cmd_map (string_at b) c =
      PIPE (REDIR (LIST (EXEC [bytes "ls"]) (BACK (REDIR (EXEC [bytes "grep"; bytes "a"]) (bytes "f") O_RDONLY 0))) (bytes "out") 0x201 1)
           (EXEC [bytes "wc"]).
Proof. destruct (parsecmd_line_text demo [] eq_refl eq_refl) as (c & b & E & H). exists c, b. split; [exact E|exact H]. Defined.

Lemma parsecmd_grammar_witness :
  parsecmd (bytes "(ls" ++ [x00]) 0%nat = Panic "syntax - missing )" /\ ~ exists l, parses (bytes "(ls") l.
Proof.
  split; [by vm_compute|]. pose proof (parsecmd_grammar (bytes "(ls") [] ltac:(by apply (bool_decide_unpack _); vm_compute)) as H.
  assert (parsecmd (bytes "(ls" ++ [x00]) 0%nat = Panic "syntax - missing )") as E by by vm_compute. rewrite E in H. exact (proj2 H).
Defined.
