(* ===== verification/Tty.v ===== *)
(** * The console and its UART (kernel/console.c, kernel/uart.c, procdump)

    The UART is hardware: reading and writing its registers are operations of the
    interface [UartDev].  [cons.lock] and [uart_tx_lock] make what runs between
    two calls of [sleep] atomic, so that [consoleread] and [consolewrite] are
    sequences of segments, as system calls on pipes are.  Calls of [wakeup] are
    recorded. *)

From S2P Require Import Prelude CString Bio FsLayout TxnLayer Fs Pipe User Printf Kalloc Proc.

Definition INPUT_BUF_SIZE : Z := 128.
Definition UART_TX_BUF_SIZE : Z := 32.
Definition BACKSPACE : Z := 0x100.
(** [C(x)], the control characters. *)
Definition CtrlD : Z := 4.
Definition CtrlH : Z := 8.
Definition CtrlP : Z := 16.
Definition CtrlU : Z := 21.

Definition RHR : Z := 0.
Definition THR : Z := 0.
Definition IER : Z := 1.
Definition FCR : Z := 2.
Definition LCR : Z := 3.
Definition LSR : Z := 5.
Definition LSR_RX_READY : Z := Z.shiftl 1 0.
Definition LSR_TX_IDLE : Z := Z.shiftl 1 5.
Definition IER_RX_ENABLE : Z := Z.shiftl 1 0.
Definition IER_TX_ENABLE : Z := Z.shiftl 1 1.
Definition FCR_FIFO_ENABLE : Z := Z.shiftl 1 0.
Definition FCR_FIFO_CLEAR : Z := Z.shiftl 3 1.
Definition LCR_EIGHT_BITS : Z := Z.shiftl 3 0.
Definition LCR_BAUD_LATCH : Z := Z.shiftl 1 7.

(** The registers of the 16550a. *)
Class UartDev (D : Type) := {
  ReadReg : Z -> M D Z;
  WriteReg : Z -> Z -> M D unit
}.

Inductive tchan := ch_cons_r | ch_uart_tx_r.

Record cons_t := mkCons { cons_buf : list byte; cons_r : Z; cons_w : Z; cons_e : Z }.
Record uart_t := mkUart { uart_tx_buf : list byte; uart_tx_w : Z; uart_tx_r : Z }.
Record tty (D : Type) := mkTty {
  t_cons : cons_t; t_uart : uart_t; t_panicked : bool; t_dev : D; t_woken : list tchan
}.
Arguments mkTty {D}. Arguments t_cons {D}. Arguments t_uart {D}. Arguments t_panicked {D}. Arguments t_dev {D}. Arguments t_woken {D}.

(** ** The process list (kernel/proc.c) *)

Definition state_name (st : procstate) : list byte :=
  match st with
  | UNUSED => bytes "unused"
  | USED => bytes "used"
  | SLEEPING => bytes "sleep "
  | RUNNABLE => bytes "runble"
  | RUNNING => bytes "run   "
  | ZOMBIE => bytes "zombie"
  end ++ [x00].

Definition procdump (ps : list proc) : M Printf.Kernel.kout unit :=
  Printf.Kernel.printf (Some [x0a; x00]) [];;;
  for_each ps (fun p =>
    if bool_decide (p_state p = UNUSED) then ret tt
    else
      Printf.Kernel.printf (Some (bytes "%d %s %s" ++ [x00])) [VInt (p_pid p); VStr (Some (state_name (p_state p))); VStr (Some (p_name p))];;;
      Printf.Kernel.printf (Some [x0a; x00]) []).

(** The characters it prints. *)
Definition procdump_chars (ps : list proc) : option (list byte) :=
  match procdump ps (Printf.Kernel.mkKout [] false false) with Ok _ k => Some (Printf.Kernel.ko_chars k) | _ => None end.

Section tty.
Context {D : Type} {dev : UartDev D}.
(** The bound on the rounds of the loop that waits for the device. *)
Context (patience : nat).

Definition upd_cons (f : cons_t -> cons_t) (s : tty D) : tty D := mkTty (f (t_cons s)) (t_uart s) (t_panicked s) (t_dev s) (t_woken s).
Definition upd_uart (f : uart_t -> uart_t) (s : tty D) : tty D := mkTty (t_cons s) (f (t_uart s)) (t_panicked s) (t_dev s) (t_woken s).
Definition reg {A} (m : M D A) : M (tty D) A := zoom t_dev (fun d s => mkTty (t_cons s) (t_uart s) (t_panicked s) d (t_woken s)) m.
Definition t_wakeup (c : tchan) : M (tty D) unit :=
  modify (fun s => mkTty (t_cons s) (t_uart s) (t_panicked s) (t_dev s) (t_woken s ++ [c])).

(** [for(;;);] *)
Definition hang {A} : M (tty D) A := fun s => Blocked s.

(** ** uart.c *)

Definition uartinit : M (tty D) unit :=
  reg (WriteReg IER 0x00);;;
  reg (WriteReg LCR LCR_BAUD_LATCH);;;
  reg (WriteReg 0 0x03);;;
  reg (WriteReg 1 0x00);;;
  reg (WriteReg LCR LCR_EIGHT_BITS);;;
  reg (WriteReg FCR (Z.lor FCR_FIFO_ENABLE FCR_FIFO_CLEAR));;;
  reg (WriteReg IER (Z.lor IER_TX_ENABLE IER_RX_ENABLE)).

Definition tx_put (c : byte) (u : uart_t) : uart_t :=
  mkUart (<[Z.to_nat (uart_tx_w u mod UART_TX_BUF_SIZE) := c]> (uart_tx_buf u)) (u64 (uart_tx_w u + 1)) (uart_tx_r u).
Definition tx_get (u : uart_t) : uart_t := mkUart (uart_tx_buf u) (uart_tx_w u) (u64 (uart_tx_r u + 1)).

Fixpoint uartstart_loop (fuel : nat) : M (tty D) unit :=
  match fuel with
  | O => nofuel
  | S fuel =>
      u <- gets t_uart;;
      if uart_tx_w u =? uart_tx_r u then ret tt
      else
        lsr <- reg (ReadReg LSR);;
        if Z.land lsr LSR_TX_IDLE =? 0 then ret tt
        else
          c <- from_opt (uart_tx_buf u !! Z.to_nat (uart_tx_r u mod UART_TX_BUF_SIZE));;
          modify (upd_uart tx_get);;;
          t_wakeup ch_uart_tx_r;;;
          reg (WriteReg THR (byte_to_Z c));;;
          uartstart_loop fuel
  end.
(** Every round sends one of at most [UART_TX_BUF_SIZE] characters. *)
Definition uartstart : M (tty D) unit := uartstart_loop (S (Z.to_nat UART_TX_BUF_SIZE)).

(** One round of the loop that waits for room, and what follows it: false when
    the caller sleeps. *)
Definition uartputc_wait (c : byte) : M (tty D) bool :=
  u <- gets t_uart;;
  if uart_tx_w u =? u64 (uart_tx_r u + UART_TX_BUF_SIZE) then ret false
  else
    modify (upd_uart (tx_put c));;;
    uartstart;;;
    ret true.
Definition uartputc (c : byte) : M (tty D) bool :=
  p <- gets t_panicked;;
  if p : bool then hang else uartputc_wait c.

Fixpoint wait_tx_idle (fuel : nat) : M (tty D) unit :=
  match fuel with
  | O => nofuel
  | S fuel =>
      lsr <- reg (ReadReg LSR);;
      if Z.land lsr LSR_TX_IDLE =? 0 then wait_tx_idle fuel else ret tt
  end.

(** [push_off] and [pop_off] keep the handler below from interrupting this. *)
Definition uartputc_sync (c : Z) : M (tty D) unit :=
  p <- gets t_panicked;;
  if p : bool then hang
  else
    wait_tx_idle patience;;;
    reg (WriteReg THR c).

Definition uartgetc : M (tty D) Z :=
  lsr <- reg (ReadReg LSR);;
  if negb (Z.land lsr 0x01 =? 0) then reg (ReadReg RHR) else ret (-1).

(** ** console.c *)

Definition consputc (c : Z) : M (tty D) unit :=
  if c =? BACKSPACE then uartputc_sync 8;;; uartputc_sync 32;;; uartputc_sync 8
  else uartputc_sync c.

Definition set_r (f : Z -> Z) (c : cons_t) : cons_t := mkCons (cons_buf c) (f (cons_r c)) (cons_w c) (cons_e c).
Definition set_e (f : Z -> Z) (c : cons_t) : cons_t := mkCons (cons_buf c) (cons_r c) (cons_w c) (f (cons_e c)).
Definition commit_line (c : cons_t) : cons_t := mkCons (cons_buf c) (cons_r c) (cons_e c) (cons_e c).
Definition store_char (ch : byte) (c : cons_t) : cons_t :=
  mkCons (<[Z.to_nat (cons_e c mod INPUT_BUF_SIZE) := ch]> (cons_buf c)) (cons_r c) (cons_w c) (u32 (cons_e c + 1)).

(** The loop of control-U. *)
Fixpoint kill_line (fuel : nat) : M (tty D) unit :=
  match fuel with
  | O => nofuel
  | S fuel =>
      c <- gets t_cons;;
      if cons_e c =? cons_w c then ret tt
      else
        ch <- from_opt (cons_buf c !! Z.to_nat (u32 (cons_e c - 1) mod INPUT_BUF_SIZE));;
        if bool_decide (ch = x0a) then ret tt
        else
          modify (upd_cons (set_e (fun e => u32 (e - 1))));;;
          consputc BACKSPACE;;;
          kill_line fuel
  end.

(** [procs] is the process table, for control-P. *)
Definition consoleintr (procs : list proc) (c : Z) : M (tty D) unit :=
  if c =? CtrlP then
    l <- from_opt (procdump_chars procs);;
    for_each l (fun b => consputc (byte_to_Z b))
  else if c =? CtrlU then kill_line (S (Z.to_nat INPUT_BUF_SIZE))
  else if (c =? CtrlH) || (c =? 0x7f) then
    k <- gets t_cons;;
    if cons_e k =? cons_w k then ret tt
    else
      modify (upd_cons (set_e (fun e => u32 (e - 1))));;;
      consputc BACKSPACE
  else
    k <- gets t_cons;;
    if negb (c =? 0) && (u32 (cons_e k - cons_r k) <? INPUT_BUF_SIZE) then
      let c := if c =? 13 then 10 else c in
      consputc c;;;
      modify (upd_cons (store_char (byte_of_Z c)));;;
      k <- gets t_cons;;
      if (c =? 10) || (c =? CtrlD) || (u32 (cons_e k - cons_r k) =? INPUT_BUF_SIZE) then
        modify (upd_cons commit_line);;;
        t_wakeup ch_cons_r
      else ret tt
    else ret tt.

(** [n] bounds the characters that are waiting. *)
Fixpoint uartintr_loop (n : nat) (procs : list proc) : M (tty D) unit :=
  match n with
  | O => nofuel
  | S n =>
      c <- uartgetc;;
      if c =? -1 then ret tt else consoleintr procs c;;; uartintr_loop n procs
  end.
Definition uartintr (n : nat) (procs : list proc) : M (tty D) unit :=
  uartintr_loop n procs;;;
  uartstart.

(** [devsw[CONSOLE]] is set to the two functions below. *)
Definition consoleinit : M (tty D) unit := uartinit.
End tty.

(** How a segment ends; a sleeping writer has the character [c] in hand. *)
Inductive rsegment := RReturn (r : Z) | RSleep (dst n : Z).
Inductive wsegment := WReturn (r : Z) | WSleep (i : Z) (c : byte).

Section console.
Context {D : Type} {dev : UartDev D} {W : Type} {P : ProcOps W}.

Definition on_tty {A} (m : M (tty D) A) : M (tty D * W) A := zoom fst (fun t s => (t, snd s)) m.
Definition on_mem {A} (m : M W A) : M (tty D * W) A := zoom snd (fun w s => (fst s, w)) m.

(** From the start or from the [sleep], which leaves [dst] and [n] as they are. *)
Fixpoint consoleread_loop (fuel : nat) (user_dst : bool) (dst n target : Z) : M (tty D * W) rsegment :=
  if 0 <? n then
    match fuel with
    | O => nofuel
    | S fuel =>
        k <- on_tty (gets t_cons);;
        if cons_r k =? cons_w k then
          d <- on_mem Pipe.killed;;
          if d : bool then ret (RReturn (-1)) else ret (RSleep dst n)
        else
          c <- from_opt (cons_buf k !! Z.to_nat (cons_r k mod INPUT_BUF_SIZE));;
          on_tty (modify (upd_cons (set_r (fun r => u32 (r + 1)))));;;
          if byte_to_Z c =? CtrlD then
            (if n <? target then on_tty (modify (upd_cons (set_r (fun r => u32 (r - 1))))) else ret tt);;;
            ret (RReturn (i32 (target - n)))
          else
            x <- on_mem (either_copyout user_dst dst [c]);;
            if x =? -1 then ret (RReturn (i32 (target - n)))
            else
              let dst := u64 (dst + 1) in let n := n - 1 in
              if byte_to_Z c =? 10 then ret (RReturn (i32 (target - n)))
              else consoleread_loop fuel user_dst dst n target
    end
  else ret (RReturn (i32 (target - n))).

Definition consoleread_from (user_dst : bool) (dst n target : Z) : M (tty D * W) rsegment :=
  consoleread_loop (Z.to_nat n) user_dst dst n target.
Definition consoleread (user_dst : bool) (dst n : Z) : M (tty D * W) rsegment := consoleread_from user_dst dst n (u32 n).

(** [pending] is the character for which a writer has slept. *)
Fixpoint consolewrite_loop (fuel : nat) (user_src : bool) (src n i : Z) (pending : option byte) : M (tty D * W) wsegment :=
  if i <? n then
    match fuel with
    | O => nofuel
    | S fuel =>
        (* the character, and whether it is stored now *)
        o <- match pending with
             | Some c => b <- on_tty (uartputc_wait c);; ret (Some (c, b))
             | None =>
                 x <- on_mem (either_copyin user_src (u64 (src + i)) 1);;
                 if snd x =? -1 then ret None
                 else c <- from_opt (fst x !! 0%nat);; b <- on_tty (uartputc c);; ret (Some (c, b))
             end;;
        match o with
        | None => ret (WReturn i)
        | Some (c, true) => consolewrite_loop fuel user_src src n (i + 1) None
        | Some (c, false) => ret (WSleep i c)
        end
    end
  else ret (WReturn i).
Definition consolewrite (user_src : bool) (src n i : Z) (pending : option byte) : M (tty D * W) wsegment :=
  consolewrite_loop (Z.to_nat (n - i)) user_src src n i pending.
End console.
