(* ===== verification/TtySpec.v ===== *)
(** * The console: edited lines in, a queue out

    The input side of the console as two lists, the characters that can be read
    and the line that is being edited; the output side as a bounded queue in front
    of the UART. *)

From S2P Require Import Prelude CString Bio FsLayout TxnLayer Fs Ring Pipe PipeSpec User Printf Kalloc Proc Tty.

(** What the driver relies on in the 16550a: the received characters [rx] are read
    in order, and a character written while the transmit register is empty is
    transmitted after those before it, [tx].  The register is empty after the
    status has been read [busy] times. *)
Class UartLaws (D : Type) {dev : UartDev D} := {
  rx : D -> list byte;
  tx : D -> list byte;
  busy : D -> nat;
  lsr_ok : forall d, exists v d', ReadReg LSR d = Ok v d' /\ rx d' = rx d /\ tx d' = tx d /\ busy d' = pred (busy d) /\
    (Z.land v 1 =? 0) = bool_decide (rx d = []) /\ (Z.land v LSR_TX_IDLE =? 0) = negb (busy d =? 0)%nat;
  rhr_ok : forall d b l, rx d = b :: l -> exists d', ReadReg RHR d = Ok (byte_to_Z b) d' /\ rx d' = l /\ tx d' = tx d;
  thr_ok : forall d c, busy d = 0%nat -> exists d', WriteReg THR c d = Ok tt d' /\ rx d' = rx d /\ tx d' = tx d ++ [byte_of_Z c]
}.

(** ** The input as lists *)

Record lines := mkLines { ready : list byte; edit : list byte }.

Definition space (l : lines) : Z := INPUT_BUF_SIZE - Z.of_nat (length (ready l ++ edit l)).
Definition erase : list byte := [x08; x20; x08].

(** The effect of a key on the lists. *)
Definition key (c : Z) (l : lines) : lines :=
  if c =? CtrlP then l
  else if c =? CtrlU then mkLines (ready l) []
  else if (c =? CtrlH) || (c =? 0x7f) then mkLines (ready l) (removelast (edit l))
  else if (c =? 0) || (space l <=? 0) then l
  else
    let c := if c =? 13 then 10 else c in
    if (c =? 10) || (c =? CtrlD) || (space l =? 1) then mkLines (ready l ++ edit l ++ [byte_of_Z c]) []
    else mkLines (ready l) (edit l ++ [byte_of_Z c]).

(** What the console prints in answer; [dump] is the process list. *)
Definition echo (dump : list byte) (c : Z) (l : lines) : list byte :=
  if c =? CtrlP then dump
  else if c =? CtrlU then concat (replicate (length (edit l)) erase)
  else if (c =? CtrlH) || (c =? 0x7f) then match edit l with [] => [] | _ => erase end
  else if (c =? 0) || (space l <=? 0) then []
  else [byte_of_Z (if c =? 13 then 10 else c)].

(** The ring [k] holds the lists [l]. *)
Record held (k : cons_t) (l : lines) : Prop := {
  h_buf : length (cons_buf k) = Z.to_nat INPUT_BUF_SIZE;
  h_r : 0 <= cons_r k < 2 ^ 32;
  h_w : cons_w k = u32 (cons_r k + Z.of_nat (length (ready l)));
  h_e : cons_e k = u32 (cons_r k + Z.of_nat (length (ready l ++ edit l)));
  h_text : window INPUT_BUF_SIZE (cons_buf k) (cons_r k) (length (ready l ++ edit l)) = ready l ++ edit l;
  h_space : 0 <= space l
}.
(** Between interrupts the line that is edited has no newline, and it is ready
    when the ring is full. *)
Record cons_ok (k : cons_t) (l : lines) : Prop := {
  co_held : held k l;
  co_edit : x0a ∉ edit l;
  co_full : space l = 0 -> edit l = []
}.

Lemma input_divides : (INPUT_BUF_SIZE | 2 ^ 32).
Proof. by apply Z.mod_divide. Qed.

Lemma held_counts k l :
  held k l -> u32 (cons_e k - cons_r k) = INPUT_BUF_SIZE - space l /\
  (cons_e k =? cons_w k) = bool_decide (edit l = []) /\ (cons_r k =? cons_w k) = bool_decide (ready l = []).
Proof.
  intros [_ Hr Hw He _ Hs]. unfold space in *. rewrite Hw, He. rewrite !length_app in *. unfold u32, INPUT_BUF_SIZE in *. split_and!; [dlia|..].
  - destruct (edit l) as [|b bs] eqn:E; cbn [length] in *.
    + rewrite bool_decide_true by done. rewrite Nat.add_0_r. apply Z.eqb_refl.
    + rewrite bool_decide_false by done. apply Z.eqb_neq. dlia.
  - destruct (ready l) as [|b bs] eqn:E; cbn [length] in *.
    + rewrite bool_decide_true by done. apply Z.eqb_eq. dlia.
    + rewrite bool_decide_false by done. apply Z.eqb_neq. dlia.
Qed.

(** A character placed at [e]. *)
Lemma store_char_held k l c : held k l -> 0 < space l -> held (store_char c k) (mkLines (ready l) (edit l ++ [c])).
Proof.
  intros [Hb Hr Hw He Ht Hs] Hsp. unfold space in *.
  assert (length (ready l ++ edit l ++ [c]) = S (length (ready l ++ edit l))) as Hlen by (rewrite !length_app; cbn; lia).
  split; cbn [store_char cons_buf cons_r cons_w cons_e ready edit]; rewrite ?Hlen.
  - by rewrite length_insert.
  - done.
  - done.
  - rewrite He. unfold u32. dlia.
  - pose proof (window_push INPUT_BUF_SIZE eq_refl (cons_buf k) (cons_r k) (length (ready l ++ edit l)) c Hb ltac:(lia)) as Hp.
    unfold ring_put in Hp. rewrite He. unfold u32. rewrite (wrap_size INPUT_BUF_SIZE _ input_divides). by rewrite Hp, Ht, <- app_assoc.
  - unfold space. cbn [ready edit]. rewrite Hlen. lia.
Qed.

Lemma commit_held k l : held k l -> held (commit_line k) (mkLines (ready l ++ edit l) []).
Proof. intros [Hb Hr Hw He Ht Hs]. unfold space in *. split; unfold space; cbn [commit_line cons_buf cons_r cons_w cons_e ready edit]; rewrite ?app_nil_r; done. Qed.

(** The last character taken back. *)
Lemma unstore_held k l b :
  held k (mkLines (ready l) (edit l ++ [b])) -> held (set_e (fun e => u32 (e - 1)) k) l /\
  cons_buf k !! Z.to_nat (u32 (cons_e k - 1) mod INPUT_BUF_SIZE) = Some b.
Proof.
  intros [Hb Hr Hw He Ht Hs]. unfold space in *. cbn [ready edit] in *.
  assert (length (ready l ++ edit l ++ [b]) = S (length (ready l ++ edit l))) as Hlen by (rewrite !length_app; cbn; lia). rewrite Hlen in *.
  rewrite window_snoc, app_assoc in Ht. apply app_inj_tail in Ht as [Ht Hlast].
  assert (u32 (cons_e k - 1) = u32 (cons_r k + Z.of_nat (length (ready l ++ edit l)))) as Hu by (rewrite He; unfold u32; dlia).
  split.
  - split; unfold space; cbn [set_e cons_buf cons_r cons_w cons_e]; [done..|exact Hu|done|lia].
  - rewrite Hu. unfold u32. rewrite (wrap_size INPUT_BUF_SIZE _ input_divides), at_ring_lookup by done. by f_equal.
Qed.

(** The first ready character read. *)
Lemma read_held k l b bs :
  held k l -> ready l = b :: bs -> held (set_r (fun r => u32 (r + 1)) k) (mkLines bs (edit l)) /\
  cons_buf k !! Z.to_nat (cons_r k mod INPUT_BUF_SIZE) = Some b.
Proof.
  intros [Hb Hr Hw He Ht Hs] Hl. unfold space in *. rewrite Hl in *. cbn [app length] in *. rewrite window_S in Ht. injection Ht as Hfst Ht. split.
  - split; unfold space; cbn [set_r cons_buf cons_r cons_w cons_e ready edit].
    + done.
    + apply u32_range.
    + rewrite Hw. unfold u32. dlia.
    + rewrite He. unfold u32. dlia.
    + unfold u32. by rewrite (window_wrap INPUT_BUF_SIZE _ input_divides).
    + lia.
  - rewrite at_ring_lookup by done. by f_equal.
Qed.

(** ** Printing *)

Section tty.
Context {D : Type} {dev : UartDev D} {laws : UartLaws D}.
Context (patience : nat).
Hypothesis busy_bound : forall d, (busy d < patience)%nat.
Implicit Types (s : tty D).

(** [s'] is [s] but for the characters [bs] that were sent. *)
Record printed (s : tty D) (bs : list byte) (s' : tty D) : Prop := {
  pr_cons : t_cons s' = t_cons s;
  pr_uart : t_uart s' = t_uart s;
  pr_panicked : t_panicked s' = t_panicked s;
  pr_woken : t_woken s' = t_woken s;
  pr_rx : rx (t_dev s') = rx (t_dev s);
  pr_tx : tx (t_dev s') = tx (t_dev s) ++ bs
}.

Lemma printed_nil s : printed s [] s.
Proof. split; try done. by rewrite app_nil_r. Qed.
Lemma printed_trans s1 s2 s3 bs cs : printed s1 bs s2 -> printed s2 cs s3 -> printed s1 (bs ++ cs) s3.
Proof. intros [] []. split; try congruence. rewrite app_assoc. congruence. Qed.

Lemma reg_ok {A} (m : M D A) s a d :
  m (t_dev s) = Ok a d -> reg m s = Ok a (mkTty (t_cons s) (t_uart s) (t_panicked s) d (t_woken s)).
Proof. intros E. unfold reg, zoom. by rewrite E. Qed.

Lemma wait_tx_idle_ok n s :
  (busy (t_dev s) < n)%nat -> exists s', wait_tx_idle n s = Ok tt s' /\ printed s [] s' /\ busy (t_dev s') = 0%nat.
Proof.
  revert s. induction n as [|n IH]; intros s Hn; [lia|]. cbn [wait_tx_idle]. destruct (lsr_ok (t_dev s)) as (v & d & E & Hrx & Htx & Hb & _ & Hi).
  run (reg_ok _ s _ _ E). rewrite Hi. set (s1 := mkTty _ _ _ d _).
  assert (printed s [] s1) as H1 by (split; try done; by rewrite app_nil_r).
  destruct (busy (t_dev s)) as [|b] eqn:Eb; cbn [negb Nat.eqb].
  - exists s1. split; [done|]. split; [done|]. cbn; by rewrite Hb.
  - destruct (IH s1) as (s' & E' & H2 & H0); [cbn; lia|]. exists s'. split; [done|]. split; [exact (printed_trans _ _ _ [] [] H1 H2)|done].
Qed.

Lemma uartputc_sync_ok s c :
  t_panicked s = false -> exists s', uartputc_sync patience c s = Ok tt s' /\ printed s [byte_of_Z c] s'.
Proof.
  intros Hp. unfold uartputc_sync. run1. rewrite Hp. destruct (wait_tx_idle_ok patience s (busy_bound _)) as (s1 & E & H1 & H0). run E.
  destruct (thr_ok (t_dev s1) c H0) as (d & E2 & Hrx & Htx). rewrite (reg_ok _ s1 _ _ E2). eexists. split; [done|].
  refine (printed_trans _ _ _ [] _ H1 _). by split.
Qed.

Lemma consputc_ok s c :
  t_panicked s = false ->
  exists s', consputc patience c s = Ok tt s' /\ printed s (if c =? BACKSPACE then erase else [byte_of_Z c]) s'.
Proof.
  intros Hp. unfold consputc. destruct (c =? BACKSPACE); [|by apply uartputc_sync_ok].
  destruct (uartputc_sync_ok s 8 Hp) as (s1 & E1 & H1). run E1. pose proof (pr_panicked _ _ _ H1) as P1.
  destruct (uartputc_sync_ok s1 32) as (s2 & E2 & H2); [congruence|]. run E2. pose proof (pr_panicked _ _ _ H2) as P2.
  destruct (uartputc_sync_ok s2 8) as (s3 & E3 & H3); [congruence|]. exists s3. split; [done|].
  exact (printed_trans _ _ _ [x08] [x20; x08] H1 (printed_trans _ _ _ [x20] [x08] H2 H3)).
Qed.

Lemma consputs_ok bs s :
  t_panicked s = false -> exists s', for_each bs (fun b => consputc patience (byte_to_Z b)) s = Ok tt s' /\ printed s bs s'.
Proof.
  revert s. induction bs as [|b bs IH]; intros s Hp; cbn [for_each]; [exists s; split; [done|apply printed_nil]|].
  destruct (consputc_ok s (byte_to_Z b) Hp) as (s1 & E1 & H1). pose proof (byte_to_Z_range b) as Hb.
  rewrite (proj2 (Z.eqb_neq _ _)) in H1 by (unfold BACKSPACE; lia). rewrite byte_of_to_Z in H1. run E1.
  destruct (IH s1) as (s2 & E2 & H2); [pose proof (pr_panicked _ _ _ H1); congruence|]. exists s2. split; [done|]. exact (printed_trans _ _ _ [b] bs H1 H2).
Qed.

(** ** Keys *)

(** The console holds [l] in [s'], and [bs] was printed since [s]. *)
Record typed (s : tty D) (l : lines) (bs : list byte) (ws : list tchan) (s' : tty D) : Prop := {
  ty_cons : held (t_cons s') l;
  ty_uart : t_uart s' = t_uart s;
  ty_panicked : t_panicked s' = t_panicked s;
  ty_woken : t_woken s' = t_woken s ++ ws;
  ty_rx : rx (t_dev s') = rx (t_dev s);
  ty_tx : tx (t_dev s') = tx (t_dev s) ++ bs
}.

Lemma typed_nil s l : held (t_cons s) l -> typed s l [] [] s.
Proof. intros H. split; rewrite ?app_nil_r; done. Qed.
Lemma typed_trans s1 s2 s3 l l' bs cs ws vs : typed s1 l bs ws s2 -> typed s2 l' cs vs s3 -> typed s1 l' (bs ++ cs) (ws ++ vs) s3.
Proof. intros [] []. split; try congruence; rewrite app_assoc; congruence. Qed.
Lemma typed_printed s l bs s' : held (t_cons s) l -> printed s bs s' -> typed s l bs [] s'.
Proof. intros H []. split; rewrite ?app_nil_r; congruence. Qed.
Lemma typed_cons s f l : held (f (t_cons s)) l -> typed s l [] [] (upd_cons f s).
Proof. intros H. split; cbn; rewrite ?app_nil_r; done. Qed.

(** The last character of the line is erased. *)
Lemma erase_ok s l b :
  held (t_cons s) (mkLines (ready l) (edit l ++ [b])) -> t_panicked s = false ->
  exists s', (modify (upd_cons (set_e (fun e => u32 (e - 1))));;; consputc patience BACKSPACE) s = Ok tt s' /\ typed s l erase [] s'.
Proof.
  intros Hh Hp. run1. destruct (unstore_held _ _ _ Hh) as [Hh' _]. destruct (consputc_ok (upd_cons (set_e (fun e => u32 (e - 1))) s) BACKSPACE Hp) as (s' & E & H).
  exists s'. split; [done|]. refine (typed_trans _ _ _ _ _ [] _ [] [] (typed_cons _ _ _ Hh') (typed_printed _ _ _ _ _ H)). done.
Qed.

Lemma kill_line_ok n s rd ed :
  held (t_cons s) (mkLines rd ed) -> x0a ∉ ed -> t_panicked s = false -> (length ed < n)%nat ->
  exists s', kill_line patience n s = Ok tt s' /\ typed s (mkLines rd []) (concat (replicate (length ed) erase)) [] s'.
Proof.
  revert s ed. induction n as [|n IH]; intros s ed Hh Hnl Hp Hn; [lia|]. cbn [kill_line]. run1. destruct (held_counts _ _ Hh) as (_ & -> & _). cbn [edit].
  destruct ed as [|b ed _] using rev_ind.
  - rewrite bool_decide_true by done. exists s. split; [done|]. by apply typed_nil.
  - rewrite bool_decide_false by (by destruct ed). destruct (unstore_held _ (mkLines rd ed) _ Hh) as [_ ->]. run1. rewrite bool_decide_false by set_solver.
    destruct (erase_ok s (mkLines rd ed) b Hh Hp) as (s1 & E1 & H1). rewrite length_app in Hn. cbn [length] in Hn.
    destruct (IH s1 ed) as (s2 & E2 & H2); [apply H1|set_solver|by rewrite (ty_panicked _ _ _ _ _ H1)|lia|].
    exists s2. split.
    + unfold bind in E1 |- *. cbn in E1 |- *. rewrite E1. exact E2.
    + rewrite length_app, Nat.add_1_r. exact (typed_trans _ _ _ _ _ erase _ [] [] H1 H2).
Qed.

(** A line is complete: the readers are woken. *)
Definition completes (c : Z) (l : lines) : bool :=
  negb ((c =? CtrlP) || (c =? CtrlU) || (c =? CtrlH) || (c =? 0x7f) || (c =? 0)) && (0 <? space l) &&
  ((c =? 13) || (c =? 10) || (c =? CtrlD) || (space l =? 1)).

Lemma space_snoc rd ed b : space (mkLines rd (ed ++ [b])) = space (mkLines rd ed) - 1.
Proof. unfold space. cbn [ready edit]. rewrite !length_app. cbn. lia. Qed.

Lemma lines_eta l : mkLines (ready l) (edit l) = l.
Proof. by destruct l. Qed.

Lemma key_ok k l k' c : cons_ok k l -> held k' (key c l) -> 0 <= c < 256 -> cons_ok k' (key c l).
Proof.
  intros [Hh Hnl Hf] Hk Hc. split; [done|..]; unfold key in *.
  - destruct (c =? CtrlP); [done|]. destruct (c =? CtrlU); [apply not_elem_of_nil|].
    destruct ((c =? CtrlH) || (c =? 0x7f)).
    { cbn [edit]. destruct (edit l) as [|b ed _] using rev_ind; [apply not_elem_of_nil|]. rewrite removelast_last. set_solver. }
    destruct ((c =? 0) || (space l <=? 0)); [done|]. destruct (c =? 13); cbn [Z.eqb Pos.eqb orb]; [apply not_elem_of_nil|].
    destruct (c =? 10) eqn:E10; cbn [orb]; [apply not_elem_of_nil|]. destruct ((c =? CtrlD) || (space l =? 1)); cbn [edit]; [apply not_elem_of_nil|].
    rewrite elem_of_app, list_elem_of_singleton. intros [?|E]; [done|]. apply Z.eqb_neq in E10. apply E10.
    rewrite <- (Z.mod_small c 256 Hc), <- byte_to_of_Z, <- E. done.
  - destruct (c =? CtrlP); [done|]. destruct (c =? CtrlU); [done|]. destruct ((c =? CtrlH) || (c =? 0x7f)).
    { destruct l as [rd ed]. cbn [ready edit] in *. intros Hs. destruct ed as [|b ed _] using rev_ind; [done|]. rewrite removelast_last in *.
      pose proof (h_space _ _ Hh) as Hs'. rewrite space_snoc in Hs'. lia. }
    destruct ((c =? 0) || (space l <=? 0)) eqn:E0; [done|]. apply orb_false_iff in E0 as [_ E0].
    destruct ((_ =? 10) || _ || (space l =? 1)) eqn:E1; [done|]. apply orb_false_iff in E1 as [_ E1]. rewrite space_snoc, lines_eta. intros Hs. lia.
Qed.

Lemma consoleintr_held procs dump c s l :
  cons_ok (t_cons s) l -> t_panicked s = false -> procdump_chars procs = Some dump -> 0 <= c < 256 ->
  exists s', consoleintr patience procs c s = Ok tt s' /\
    typed s (key c l) (echo dump c l) (if completes c l then [ch_cons_r] else []) s'.
Proof.
  intros [Hh Hnl Hf] Hp Hd Hc. unfold consoleintr, key, echo, completes. destruct (c =? CtrlP) eqn:EP; cbn [orb negb andb].
  { rewrite Hd. run1. destruct (consputs_ok dump s Hp) as (s' & E & H). exists s'. split; [done|]. by apply typed_printed. }
  destruct (c =? CtrlU) eqn:EU; cbn [orb negb andb].
  { rewrite <- (lines_eta l) in Hh. apply kill_line_ok; [done..|]. pose proof (h_space _ _ Hh) as Hs. unfold space in Hs. cbn [ready edit] in Hs. rewrite length_app in Hs.
    unfold INPUT_BUF_SIZE in *. lia. }
  destruct ((c =? CtrlH) || (c =? 0x7f)) eqn:EH; cbn [orb negb andb].
  { run1. destruct (held_counts _ _ Hh) as (_ & -> & _). destruct l as [rd ed]. cbn [ready edit] in *. destruct ed as [|b ed _] using rev_ind.
    - exists s. split; [done|]. by apply typed_nil.
    - rewrite bool_decide_false by (by destruct ed). rewrite removelast_last. destruct (erase_ok s (mkLines rd ed) b Hh Hp) as (s1 & E1 & H1). exists s1.
      split; [done|]. by destruct ed. }
  run1. destruct (held_counts _ _ Hh) as (-> & _ & _). destruct (c =? 0) eqn:E0; cbn [orb negb andb].
  { exists s. split; [done|]. by apply typed_nil. }
  replace (INPUT_BUF_SIZE - space l <? INPUT_BUF_SIZE) with (0 <? space l) by (apply eq_true_iff_eq; rewrite !Z.ltb_lt; lia).
  rewrite (Z.leb_antisym 0 (space l)). destruct (0 <? space l) eqn:Es; cbn [negb andb orb]; [|exists s; split; [done|by apply typed_nil]]. apply Z.ltb_lt in Es.
  set (c' := if c =? 13 then 10 else c). assert ((c' =? BACKSPACE) = false) as Hbs by (unfold c', BACKSPACE; destruct (c =? 13); [done|apply Z.eqb_neq; lia]).
  destruct (consputc_ok s c' Hp) as (s1 & E1 & H1). rewrite Hbs in H1. run E1. run1. run1.
  set (s2 := upd_cons (store_char (byte_of_Z c')) s1).
  assert (typed s (mkLines (ready l) (edit l ++ [byte_of_Z c'])) [byte_of_Z c'] [] s2) as H2.
  { refine (typed_trans _ _ _ _ _ _ [] [] [] (typed_printed _ _ _ _ Hh H1) (typed_cons _ _ _ _)). apply store_char_held; [|done]. by rewrite (pr_cons _ _ _ H1). }
  destruct (held_counts _ _ (ty_cons _ _ _ _ _ H2)) as (-> & _ & _). rewrite space_snoc, lines_eta.
  replace (INPUT_BUF_SIZE - (space l - 1) =? INPUT_BUF_SIZE) with (space l =? 1) by (apply eq_true_iff_eq; rewrite !Z.eqb_eq; lia).
  replace ((c =? 13) || (c =? 10)) with (c' =? 10) by (unfold c'; by destruct (c =? 13)).
  replace (c =? CtrlD) with (c' =? CtrlD) by (unfold c'; destruct (c =? 13) eqn:E; [apply Z.eqb_eq in E as ->|]; done).
  destruct ((c' =? 10) || (c' =? CtrlD) || (space l =? 1)) eqn:Eq; [|by exists s2].
  run1. eexists. split; [reflexivity|]. refine (typed_trans _ _ _ _ _ _ [] [] [ch_cons_r] H2 _).
  pose proof (commit_held _ _ (ty_cons _ _ _ _ _ H2)) as H3. split; cbn; rewrite ?app_nil_r; try done.
Qed.

Lemma consoleintr_ok procs dump c s l :
  cons_ok (t_cons s) l -> t_panicked s = false -> procdump_chars procs = Some dump -> 0 <= c < 256 ->
  exists s', consoleintr patience procs c s = Ok tt s' /\ cons_ok (t_cons s') (key c l) /\
    typed s (key c l) (echo dump c l) (if completes c l then [ch_cons_r] else []) s'.
Proof.
  intros Hl Hp Hd Hc. destruct (consoleintr_held procs dump c s l Hl Hp Hd Hc) as (s' & E & H). exists s'. split; [done|]. split; [|done].
  eapply key_ok; [done|apply H|done].
Qed.
End tty.

(** ** Reading *)

(** A read of at most [n] bytes, of which [lim] can be copied out: the bytes read,
    the bytes left, and whether the read is over.  An end-of-file character that
    is not the first stays for the next read. *)
Fixpoint read_ready (n lim : nat) (first : bool) (rd : list byte) : list byte * list byte * bool :=
  match n with
  | O => ([], rd, true)
  | S n =>
      match rd with
      | [] => ([], [], false)
      | c :: rd' =>
          if bool_decide (c = x04) then ([], if first then rd' else rd, true)
          else
            match lim with
            | O => ([], rd', true)
            | S lim =>
                if bool_decide (c = x0a) then ([c], rd', true)
                else let '(out, rest, fin) := read_ready n lim false rd' in (c :: out, rest, fin)
            end
      end
  end.

Lemma byte_code b z : 0 <= z < 256 -> (byte_to_Z b =? z) = bool_decide (b = byte_of_Z z).
Proof.
  intros Hz. case_bool_decide as E.
  - subst b. rewrite byte_to_of_Z, Z.mod_small by done. apply Z.eqb_refl.
  - apply Z.eqb_neq. intros <-. apply E. by rewrite byte_of_to_Z.
Qed.

Section reading.
Context {D : Type} {dev : UartDev D} {W : Type} {P : ProcOps W} {L : ProcLaws W}.
Implicit Types (s : tty D) (w : W).

Definition cons_only (s s' : tty D) : Prop :=
  t_uart s' = t_uart s /\ t_panicked s' = t_panicked s /\ t_dev s' = t_dev s /\ t_woken s' = t_woken s.

(** The bytes [out] are in memory from [dst] on, and nothing else has changed. *)
Definition placed (w : W) (dst : Z) (out : list byte) (w' : W) : Prop :=
  (forall j b, out !! j = Some b -> u_get w' (u64 (dst + Z.of_nat j)) = Some b) /\
  (forall a, (forall j, (j < length out)%nat -> a <> u64 (dst + Z.of_nat j)) -> u_get w' a = u_get w a).

Lemma placed_nil w w' dst : same_mem w w' -> placed w dst [] w'.
Proof. intros H. split; [done|]. intros a _. apply H. Qed.

Lemma placed_cons w w1 w2 dst b out :
  0 <= dst < 2 ^ 64 -> Z.of_nat (length out) < 2 ^ 63 -> (forall a, u_get w1 a = if a =? dst then Some b else u_get w a) ->
  placed w1 (u64 (dst + 1)) out w2 -> placed w dst (b :: out) w2.
Proof.
  intros Hdst Hlen H1 [H2 H3].
  assert (forall j, u64 (u64 (dst + 1) + Z.of_nat j) = u64 (dst + Z.of_nat (S j))) as Hadd by (intros j; unfold u64; dlia). split.
  - intros [|j] c Hj; cbn in Hj.
    + injection Hj as ->. replace (u64 (dst + Z.of_nat 0)) with dst by (rewrite Z.add_0_r, u64_small; lia).
      rewrite H3, H1, Z.eqb_refl; [done|]. intros j Hj. rewrite Hadd. unfold u64. dlia.
    + rewrite <- Hadd. by apply H2.
  - intros a Ha. rewrite H3, H1.
    + rewrite (proj2 (Z.eqb_neq _ _)); [done|]. specialize (Ha 0%nat ltac:(cbn; lia)). rewrite Z.add_0_r, u64_small in Ha; lia.
    + intros j Hj. rewrite Hadd. apply Ha. cbn. lia.
Qed.

(** How a segment of [consoleread] ends. *)
Definition read_end (dst n target : Z) (out : list byte) (fin : bool) (w : W) (sg : rsegment) : Prop :=
  match sg with
  | RReturn r => fin = true /\ r = target - n + Z.of_nat (length out) \/ fin = false /\ r = -1 /\ exists w0 w1, Pipe.killed w0 = Ok true w1
  | RSleep dst' n' => fin = false /\ dst' = u64 (dst + Z.of_nat (length out)) /\ n' = n - Z.of_nat (length out)
  end.

Definition read_ok (s : tty D) (w : W) (l : lines) (dst n target : Z) (sg : rsegment) (s' : tty D) (w' : W) : Prop :=
  exists lim, let '(out, rest, fin) := read_ready (Z.to_nat n) lim (n =? target) (ready l) in
    held (t_cons s') (mkLines rest (edit l)) /\ (length rest <= length (ready l))%nat /\ cons_only s s' /\ placed w dst out w' /\ read_end dst n target out fin w' sg.

Lemma on_tty_ok {A} (m : M (tty D) A) s w a s' : m s = Ok a s' -> on_tty m (s, w) = Ok a (s', w).
Proof. intros E. unfold on_tty, zoom. cbn. by rewrite E. Qed.
Lemma on_tty_gets {A} (f : tty D -> A) s w : on_tty (gets f) (s, w) = Ok (f s) (s, w).
Proof. done. Qed.
Lemma on_tty_modify f s w : on_tty (modify f) (s, w) = Ok tt (f s, w).
Proof. done. Qed.
Lemma on_mem_ok {A} (m : M W A) s w a w' : m w = Ok a w' -> on_mem m (s, w) = Ok a (s, w').
Proof. intros E. unfold on_mem, zoom. cbn. by rewrite E. Qed.

Lemma read_ready_len n lim first rd out rest fin : read_ready n lim first rd = (out, rest, fin) -> (length out <= n)%nat.
Proof.
  revert lim first rd out rest fin. induction n as [|n IH]; intros lim first rd out rest fin; cbn [read_ready]; [intros [= <- _ _]; cbn; lia|].
  destruct rd as [|c rd]; [intros [= <- _ _]; cbn; lia|]. case_bool_decide; [intros [= <- _ _]; cbn; lia|]. destruct lim as [|lim]; [intros [= <- _ _]; cbn; lia|].
  case_bool_decide; [intros [= <- _ _]; cbn; lia|]. destruct (read_ready n lim false rd) as [[o r] f] eqn:E. intros [= <- _ _]. apply IH in E. cbn. lia.
Qed.

Lemma held_back k l b bs : held k l -> ready l = b :: bs -> held (set_r (fun r => u32 (r - 1)) (set_r (fun r => u32 (r + 1)) k)) l.
Proof.
  intros H _. destruct k as [buf r w e]. assert (u32 (u32 (r + 1) - 1) = r) as E; [|unfold set_r; cbn; by rewrite E].
  pose proof (h_r _ _ H) as Hr. cbn in Hr. unfold u32. dlia.
Qed.

Lemma consoleread_loop_ok k s w l dst n target :
  k = Z.to_nat n -> held (t_cons s) l -> 0 <= dst < 2 ^ 64 -> 0 <= n <= target -> target < 2 ^ 31 ->
  exists sg s' w', consoleread_loop k true dst n target (s, w) = Ok sg (s', w') /\ read_ok s w l dst n target sg s' w'.
Proof.
  revert s w l dst n. induction k as [|k IH]; intros s w l dst n Hk Hh Hdst Hn Ht; cbn [consoleread_loop].
  { assert (n = 0) as -> by lia. exists (RReturn (i32 (target - 0))), s, w. split; [done|]. exists 0%nat. rewrite Z2Nat.inj_0. cbn [read_ready]. rewrite lines_eta.
    split_and!; [done|lia|by split_and!|by apply placed_nil|]. left. rewrite i32_small by lia. split; [done|cbn; lia]. }
  rewrite (proj2 (Z.ltb_lt 0 n)) by lia. rewrite (bind_ok _ _ _ _ _ (on_tty_gets t_cons s w)). cbv beta.
  destruct (held_counts _ _ Hh) as (_ & _ & ->). destruct (ready l) as [|c rd] eqn:Er.
  { rewrite bool_decide_true by done. destruct (killed_ok w) as (d & w' & Ed & Hm). rewrite (bind_ok _ _ _ _ _ (on_mem_ok _ s w _ w' Ed)). cbv beta.
    assert (read_ready (Z.to_nat n) 0 (n =? target) [] = ([], [], false)) as Erd by (by rewrite <- Hk).
    exists (if d then RReturn (-1) else RSleep dst n), s, w'. split; [by destruct d|]. exists 0%nat. rewrite Er, Erd.
    replace (mkLines [] (edit l)) with l by (destruct l; cbn in Er |- *; congruence).
    split_and!; [done|cbn; lia|by split_and!|by apply placed_nil|]. destruct d; cbn; [right; eauto|]. split_and!; [done|rewrite Z.add_0_r, u64_small; lia|lia]. }
  rewrite bool_decide_false by done. destruct (read_held _ _ _ _ Hh Er) as [Hh1 ->]. run1.
  rewrite (bind_ok _ _ _ _ _ (on_tty_modify (upd_cons (set_r (fun r => u32 (r + 1)))) s w)). cbv beta. set (s1 := upd_cons _ s).
  rewrite (byte_code c CtrlD) by done. change (byte_of_Z CtrlD) with x04. destruct (bool_decide (c = x04)) eqn:E4.
  { destruct (n <? target) eqn:Ent.
    - apply Z.ltb_lt in Ent. rewrite (bind_ok _ _ _ _ _ (on_tty_modify (upd_cons (set_r (fun r => u32 (r - 1)))) s1 w)). cbv beta.
      eexists _, _, _. split; [done|]. exists 0%nat. rewrite Er, <- Hk. cbn [read_ready]. rewrite E4, (proj2 (Z.eqb_neq n target)) by lia. rewrite <- Er, lines_eta.
      split_and!; [by eapply held_back|done|by split_and!|by apply placed_nil|]. left. rewrite i32_small by lia. split; [done|cbn; lia].
    - apply Z.ltb_ge in Ent. assert (n = target) as -> by lia. run1. eexists _, _, _. split; [done|]. exists 0%nat. rewrite Er, <- Hk. cbn [read_ready]. rewrite E4, Z.eqb_refl.
      split_and!; [done|cbn; lia|by split_and!|by apply placed_nil|]. left. rewrite i32_small by lia. split; [done|cbn; lia]. }
  destruct (copyout_ok w dst c Hdst) as (x & w1 & Ex & Hx). rewrite (bind_ok _ _ _ _ _ (on_mem_ok _ s1 w _ w1 Ex)). cbv beta.
  destruct Hx as [[-> Hm]|[-> Hm]]; cbn [Z.eqb].
  { eexists _, _, _. split; [done|]. exists 0%nat. rewrite Er, <- Hk. cbn [read_ready]. rewrite E4.
    split_and!; [done|cbn; lia|by split_and!|by apply placed_nil|]. left. rewrite i32_small by lia. split; [done|cbn; lia]. }
  rewrite (byte_code c 10) by done. change (byte_of_Z 10) with x0a. destruct (bool_decide (c = x0a)) eqn:E10.
  { eexists _, _, _. split; [done|]. exists 1%nat. rewrite Er, <- Hk. cbn [read_ready]. rewrite E4, E10.
    split_and!; [done|cbn; lia|by split_and!|by eapply placed_cons; [done|cbn; lia|done|by apply placed_nil]|]. left. rewrite i32_small by lia. split; [done|cbn; lia]. }
  destruct (IH s1 w1 (mkLines rd (edit l)) (u64 (dst + 1)) (n - 1)) as (sg & s2 & w2 & E2 & lim & H2); [lia|done|apply u64_range|lia|done|].
  exists sg, s2, w2. split; [done|]. exists (S lim). rewrite Er, <- Hk. cbn [read_ready]. rewrite E4, E10.
  rewrite (proj2 (Z.eqb_neq (n - 1) target)) in H2 by lia. cbn [ready] in H2. replace (Z.to_nat (n - 1)) with k in H2 by lia.
  destruct (read_ready k lim false rd) as [[out rest] fin] eqn:Eout. destruct H2 as (H2 & Hlen & Hc & Hst & He). pose proof (read_ready_len _ _ _ _ _ _ _ Eout).
  split_and!; [exact H2|cbn; lia|done|eapply placed_cons; [done|lia|done|done]|].
  destruct sg as [r|dst' n']; cbn in He |- *.
  - destruct He as [[-> ->]|He]; [left; split; [done|lia]|by right].
  - destruct He as (-> & -> & ->). split_and!; [done|unfold u64; dlia|lia].
Qed.

Lemma consoleread_ok s w l dst n target :
  cons_ok (t_cons s) l -> 0 <= dst < 2 ^ 64 -> 0 <= n <= target -> target < 2 ^ 31 ->
  exists sg s' w' lim, consoleread_from true dst n target (s, w) = Ok sg (s', w') /\
    let '(out, rest, fin) := read_ready (Z.to_nat n) lim (n =? target) (ready l) in
    cons_ok (t_cons s') (mkLines rest (edit l)) /\ cons_only s s' /\ placed w dst out w' /\ read_end dst n target out fin w' sg.
Proof.
  intros [Hh Hnl Hf] Hdst Hn Ht. destruct (consoleread_loop_ok _ s w l dst n target eq_refl Hh Hdst Hn Ht) as (sg & s' & w' & E & lim & H).
  exists sg, s', w', lim. split; [exact E|]. destruct (read_ready _ _ _ _) as [[out rest] fin]. destruct H as (H & Hlen & Hc & Hst & He). split_and!; [|done..].
  split; [done|done|]. intros Hs. apply Hf. pose proof (h_space _ _ Hh). unfold space in *. cbn [ready edit] in Hs. rewrite !length_app in *. lia.
Qed.
End reading.

(** ** The transmit queue *)

(** The ring [u] holds the queue [q]. *)
Record queued (u : uart_t) (q : list byte) : Prop := {
  q_buf : length (uart_tx_buf u) = Z.to_nat UART_TX_BUF_SIZE;
  q_r : 0 <= uart_tx_r u < 2 ^ 64;
  q_w : uart_tx_w u = u64 (uart_tx_r u + Z.of_nat (length q));
  q_text : window UART_TX_BUF_SIZE (uart_tx_buf u) (uart_tx_r u) (length q) = q;
  q_len : Z.of_nat (length q) <= UART_TX_BUF_SIZE
}.

Lemma tx_divides : (UART_TX_BUF_SIZE | 2 ^ 64).
Proof. by apply Z.mod_divide. Qed.

Lemma queued_counts u q :
  queued u q -> (uart_tx_w u =? uart_tx_r u) = bool_decide (q = []) /\
  (uart_tx_w u =? u64 (uart_tx_r u + UART_TX_BUF_SIZE)) = (Z.of_nat (length q) =? UART_TX_BUF_SIZE).
Proof.
  intros [_ Hr Hw _ Hl]. rewrite Hw. unfold u64, UART_TX_BUF_SIZE in *. split.
  - destruct q as [|b q]; cbn [length] in *.
    + rewrite bool_decide_true by done. apply Z.eqb_eq. dlia.
    + rewrite bool_decide_false by done. apply Z.eqb_neq. dlia.
  - apply eq_true_iff_eq. rewrite !Z.eqb_eq. split; intros; dlia.
Qed.

Lemma tx_put_ok u q c : queued u q -> Z.of_nat (length q) < UART_TX_BUF_SIZE -> queued (tx_put c u) (q ++ [c]).
Proof.
  intros [Hb Hr Hw Ht Hl] Hq. assert (length (q ++ [c]) = S (length q)) as Hlen by (rewrite length_app; cbn; lia).
  split; cbn [tx_put uart_tx_buf uart_tx_w uart_tx_r]; rewrite ?Hlen.
  - by rewrite length_insert.
  - done.
  - rewrite Hw. unfold u64. dlia.
  - pose proof (window_push UART_TX_BUF_SIZE eq_refl (uart_tx_buf u) (uart_tx_r u) (length q) c Hb Hq) as Hp.
    unfold ring_put in Hp. rewrite Hw. unfold u64. rewrite (wrap_size UART_TX_BUF_SIZE _ tx_divides). by rewrite Hp, Ht.
  - lia.
Qed.

Lemma tx_get_ok u b q :
  queued u (b :: q) -> queued (tx_get u) q /\ uart_tx_buf u !! Z.to_nat (uart_tx_r u mod UART_TX_BUF_SIZE) = Some b.
Proof.
  intros [Hb Hr Hw Ht Hl]. cbn [length] in *. rewrite window_S in Ht. injection Ht as Hfst Ht. split.
  - split; cbn [tx_get uart_tx_buf uart_tx_w uart_tx_r]; [done|apply u64_range|rewrite Hw; unfold u64; dlia| |lia].
    unfold u64. by rewrite (window_wrap UART_TX_BUF_SIZE _ tx_divides).
  - rewrite at_ring_lookup by done. by f_equal.
Qed.

Section sending.
Context {D : Type} {dev : UartDev D} {laws : UartLaws D}.
Implicit Types (s : tty D).

(** [sent] has left the queue, which is now [q]; a sender stops when the queue is
    empty or the device is not ready. *)
Record flushed (s : tty D) (sent q : list byte) (s' : tty D) : Prop := {
  fl_cons : t_cons s' = t_cons s;
  fl_panicked : t_panicked s' = t_panicked s;
  fl_rx : rx (t_dev s') = rx (t_dev s);
  fl_tx : tx (t_dev s') = tx (t_dev s) ++ sent;
  fl_queue : queued (t_uart s') q;
  fl_woken : t_woken s' = t_woken s ++ replicate (length sent) ch_uart_tx_r;
  fl_stop : q = [] \/ exists d v, ReadReg LSR d = Ok v (t_dev s') /\ Z.land v LSR_TX_IDLE = 0
}.

Lemma uartstart_loop_ok n s q :
  queued (t_uart s) q -> (length q < n)%nat -> exists sent q' s', uartstart_loop n s = Ok tt s' /\ q = sent ++ q' /\ flushed s sent q' s'.
Proof.
  revert s q. induction n as [|n IH]; intros s q Hq Hn; [lia|]. cbn [uartstart_loop]. run1. destruct (queued_counts _ _ Hq) as [-> _].
  destruct q as [|b q].
  { rewrite bool_decide_true by done. exists [], [], s. split; [done|]. split; [done|]. split; rewrite ?app_nil_r; auto. }
  rewrite bool_decide_false by done. destruct (lsr_ok (t_dev s)) as (v & d & E & Hrx & Htx & Hb & _ & Hi). run (reg_ok _ s _ _ E). set (s1 := mkTty _ _ _ d _).
  destruct (Z.land v LSR_TX_IDLE =? 0) eqn:Ev.
  { exists [], (b :: q), s1. split; [done|]. split; [done|]. split; cbn; rewrite ?app_nil_r; auto. right. exists (t_dev s), v. split; [done|]. by apply Z.eqb_eq. }
  destruct (tx_get_ok _ _ _ Hq) as [Hq1 ->]. run1. run1. run1. set (s2 := mkTty _ _ _ _ _).
  assert (busy d = 0%nat) as H0 by (destruct (busy (t_dev s)); cbn in *; [done|congruence]).
  destruct (thr_ok d (byte_to_Z b) H0) as (d2 & E2 & Hrx2 & Htx2). rewrite byte_of_to_Z in Htx2. run (reg_ok _ s2 _ _ E2). set (s3 := mkTty _ _ _ d2 _).
  destruct (IH s3 q) as (sent & q' & s' & E3 & -> & []); [done|cbn in Hn; lia|]. exists (b :: sent), q', s'. split; [done|]. split; [done|].
  split; cbn in *; try done; try congruence; rewrite ?fl_tx0, ?fl_woken0, ?Htx2, ?Htx, <- ?app_assoc; done.
Qed.

Lemma uartstart_ok s q :
  queued (t_uart s) q -> exists sent q' s', uartstart s = Ok tt s' /\ q = sent ++ q' /\ flushed s sent q' s'.
Proof. intros Hq. apply uartstart_loop_ok; [done|]. pose proof (q_len _ _ Hq). unfold UART_TX_BUF_SIZE in *. lia. Qed.

Lemma uartputc_wait_ok s q c :
  queued (t_uart s) q ->
  if Z.of_nat (length q) =? UART_TX_BUF_SIZE then uartputc_wait c s = Ok false s
  else exists sent q' s', uartputc_wait c s = Ok true s' /\ q ++ [c] = sent ++ q' /\ flushed s sent q' s'.
Proof.
  intros Hq. destruct (queued_counts _ _ Hq) as [_ Hc]. unfold uartputc_wait. destruct (_ =? UART_TX_BUF_SIZE) eqn:E; run1; rewrite Hc; [done|].
  apply Z.eqb_neq in E. pose proof (q_len _ _ Hq). run1. destruct (uartstart_ok (upd_uart (tx_put c) s) (q ++ [c])) as (sent & q' & s' & E' & Eq & F); [apply tx_put_ok; [done|lia]|].
  run E'. exists sent, q', s'. split; [done|]. split; [done|]. destruct F. by split.
Qed.
End sending.
