(* ===== verification/TtyClaims.v ===== *)
(** * The console: theorems

    Writing to the console, the interrupt handler, and the theorems on the two
    directions. *)

From S2P Require Import Prelude CString Bio FsLayout TxnLayer Fs Ring Pipe PipeSpec PipeClaims User Printf Kalloc Proc Tty TtySpec.

Section console.
Context {D : Type} {dev : UartDev D} {laws : UartLaws D} {W : Type} {P : ProcOps W} {L : ProcLaws W}.
Implicit Types (s : tty D) (w : W).

(** The [j]-th character that a writer at [i] has yet to write. *)
Definition to_write (w : W) (src i : Z) (pending : option byte) (j : nat) : option byte :=
  match pending, j with Some c, O => Some c | _, _ => u_get w (u64 (src + i + Z.of_nat j)) end.

(** A writer has moved [bs] into the queue, [sent] has left it. *)
Record wrote (s : tty D) (q bs sent q' : list byte) (s' : tty D) : Prop := {
  w_split : q ++ bs = sent ++ q';
  w_queue : queued (t_uart s') q';
  w_tx : tx (t_dev s') = tx (t_dev s) ++ sent;
  w_rx : rx (t_dev s') = rx (t_dev s);
  w_cons : t_cons s' = t_cons s;
  w_panicked : t_panicked s' = t_panicked s
}.

Lemma wrote_none s q : queued (t_uart s) q -> wrote s q [] [] q s.
Proof. intros H. split; rewrite ?app_nil_r; done. Qed.
Lemma wrote_flushed s q c sent q' s' : q ++ [c] = sent ++ q' -> flushed s sent q' s' -> wrote s q [c] sent q' s'.
Proof. intros E []. by split. Qed.
Lemma wrote_trans s1 s2 s3 q1 q2 q3 bs cs a b : wrote s1 q1 bs a q2 s2 -> wrote s2 q2 cs b q3 s3 -> wrote s1 q1 (bs ++ cs) (a ++ b) q3 s3.
Proof. intros [E1] [E2]. split; try congruence. - by rewrite app_assoc, E1, <- app_assoc, E2, app_assoc. - rewrite app_assoc. congruence. Qed.

Definition write_stop (w : W) (src n i : Z) (pending : option byte) (bs q' : list byte) (sg : wsegment) : Prop :=
  let i' := i + Z.of_nat (length bs) in
  match sg with
  | WReturn r => r = i' /\ (r < n -> to_write w src i pending (length bs) = None)
  | WSleep k c => k = i' /\ k < n /\ to_write w src i pending (length bs) = Some c /\ Z.of_nat (length q') = UART_TX_BUF_SIZE
  end.

Definition written (s : tty D) (w : W) (q : list byte) (src n i : Z) (pending : option byte) (sg : wsegment) (s' : tty D) : Prop :=
  exists bs sent q', wrote s q bs sent q' s' /\ (forall j b, bs !! j = Some b -> to_write w src i pending j = Some b) /\
    write_stop w src n i pending bs q' sg.

(** One character, by [uartputc] or after a [sleep] in it. *)
Lemma putc_ok s q c (m : M (tty D) bool) :
  queued (t_uart s) q -> m s = uartputc_wait c s ->
  exists b s', m s = Ok b s' /\ (if b then exists sent q', wrote s q [c] sent q' s' else s' = s /\ Z.of_nat (length q) = UART_TX_BUF_SIZE).
Proof.
  intros Hq ->. pose proof (uartputc_wait_ok s q c Hq) as H. destruct (_ =? UART_TX_BUF_SIZE) eqn:E.
  - exists false, s. split; [done|]. split; [done|]. by apply Z.eqb_eq.
  - destruct H as (sent & q' & s' & E' & Es & F). exists true, s'. split; [done|]. exists sent, q'. by apply wrote_flushed.
Qed.

Lemma consolewrite_loop_ok k s w q src n i pending :
  k = Z.to_nat (n - i) -> queued (t_uart s) q -> t_panicked s = false -> (pending <> None -> i < n) -> i <= n ->
  exists sg s', consolewrite_loop k true src n i pending (s, w) = Ok sg (s', w) /\ written s w q src n i pending sg s'.
Proof.
  revert s q i pending. induction k as [|k IH]; intros s q i pending Hk Hq Hp Hpend Hi; cbn [consolewrite_loop].
  { assert (i = n) as -> by lia. rewrite Z.ltb_irrefl. exists (WReturn n), s. split; [done|]. exists [], [], q. split; [by apply wrote_none|]. split; [done|]. split; cbn; lia. }
  rewrite (proj2 (Z.ltb_lt i n)) by lia.
  assert (forall c (m : M (tty D) bool), to_write w src i pending 0 = Some c -> m s = uartputc_wait c s ->
    exists sg s', (o <- (b <- on_tty m;; ret (Some (c, b)));;
      match o with None => ret (WReturn i) | Some (c, true) => consolewrite_loop k true src n (i + 1) None | Some (c, false) => ret (WSleep i c) end) (s, w) = Ok sg (s', w) /\
      written s w q src n i pending sg s') as Hstep.
  { intros c m Hc Hm. destruct (putc_ok s q c m Hq Hm) as (b & s1 & E1 & H1). erewrite bind_ok by (erewrite bind_ok by (exact (on_tty_ok m s w b s1 E1)); reflexivity). cbv beta iota.
    destruct b.
    - destruct H1 as (sent & q1 & H1). destruct (IH s1 q1 (i + 1) None) as (sg & s2 & E2 & bs & sent2 & q2 & H2 & Hbs & Hstop); [lia|apply H1|by rewrite (w_panicked _ _ _ _ _ _ H1)|done|lia|].
      exists sg, s2. split; [done|]. exists (c :: bs), (sent ++ sent2), q2. split; [exact (wrote_trans _ _ _ _ _ _ [c] bs _ _ H1 H2)|].
      assert (forall j, to_write w src i pending (S j) = to_write w src (i + 1) None j) as Hnext by (intros j; unfold to_write; destruct pending; f_equal; f_equal; lia).
      split.
      + intros [|j] b Hj; cbn in Hj; [congruence|]. rewrite Hnext. by apply Hbs.
      + unfold write_stop in *. cbn [length]. rewrite Hnext. destruct sg; [destruct Hstop as (-> & ?)|destruct Hstop as (-> & ? & ? & ?)]; split_and!; try done; lia.
    - destruct H1 as [-> Hfull]. exists (WSleep i c), s. split; [done|]. exists [], [], q. split; [by apply wrote_none|]. split; [done|]. split_and!; cbn; [lia..|done|done]. }
  destruct pending as [c|].
  - by apply Hstep.
  - pose proof (copyin_ok w (u64 (src + i)) (u64_range _)) as Hcopy. unfold to_write in Hstep. rewrite Z.add_0_r in Hstep. destruct (u_get w (u64 (src + i))) as [c|] eqn:Ec.
    + destruct (Hstep c (uartputc c)) as (sg & s' & E & H); [done|unfold uartputc; run1; by rewrite Hp|]. exists sg, s'. split; [|done]. rewrite <- E.
      unfold bind at 1 2. rewrite (on_mem_ok _ s w _ w Hcopy). done.
    + destruct Hcopy as [x Hx]. exists (WReturn i), s. split; [unfold bind at 1 2; by rewrite (on_mem_ok _ s w _ w Hx)|].
      exists [], [], q. split; [by apply wrote_none|]. split; [done|]. split; cbn; [lia|]. by rewrite Z.add_0_r.
Qed.

(** ** The interrupt handler *)

(** A row of keys, what is printed for them, and whether a reader is woken. *)
Fixpoint type_keys (ks : list byte) (l : lines) : lines :=
  match ks with [] => l | c :: ks => type_keys ks (key (byte_to_Z c) l) end.
Fixpoint echoes (dump ks : list byte) (l : lines) : list byte :=
  match ks with [] => [] | c :: ks => echo dump (byte_to_Z c) l ++ echoes dump ks (key (byte_to_Z c) l) end.
Fixpoint wakes (ks : list byte) (l : lines) : list tchan :=
  match ks with [] => [] | c :: ks => (if completes (byte_to_Z c) l then [ch_cons_r] else []) ++ wakes ks (key (byte_to_Z c) l) end.

Context (patience : nat).
Hypothesis busy_bound : forall d : D, (busy d < patience)%nat.

Lemma uartgetc_ok s :
  exists s', uartgetc s = Ok (match rx (t_dev s) with [] => -1 | c :: _ => byte_to_Z c end) s' /\
    t_cons s' = t_cons s /\ t_uart s' = t_uart s /\ t_panicked s' = t_panicked s /\ t_woken s' = t_woken s /\
    rx (t_dev s') = tail (rx (t_dev s)) /\ tx (t_dev s') = tx (t_dev s).
Proof.
  unfold uartgetc. destruct (lsr_ok (t_dev s)) as (v & d & E & Hrx & Htx & _ & Hv & _). run (reg_ok _ s _ _ E). rewrite Hv. destruct (rx (t_dev s)) as [|c r] eqn:Er.
  - rewrite bool_decide_true by done. eexists. split; [reflexivity|]. cbn. by rewrite Hrx.
  - rewrite bool_decide_false by done. cbn [negb]. destruct (rhr_ok d c r) as (d' & E2 & Hrx2 & Htx2); [congruence|].
    set (s1 := mkTty _ _ _ d _). rewrite (reg_ok (ReadReg RHR) s1 _ _ E2). eexists. split; [reflexivity|]. cbn. by rewrite Htx2.
Qed.

Lemma uartintr_loop_ok n procs dump s l :
  cons_ok (t_cons s) l -> t_panicked s = false -> procdump_chars procs = Some dump -> (length (rx (t_dev s)) < n)%nat ->
  exists s', uartintr_loop patience n procs s = Ok tt s' /\ cons_ok (t_cons s') (type_keys (rx (t_dev s)) l) /\
    t_uart s' = t_uart s /\ t_panicked s' = false /\ rx (t_dev s') = [] /\ tx (t_dev s') = tx (t_dev s) ++ echoes dump (rx (t_dev s)) l /\
    t_woken s' = t_woken s ++ wakes (rx (t_dev s)) l.
Proof.
  revert s l. induction n as [|n IH]; intros s l Hl Hp Hd Hn; [lia|]. cbn [uartintr_loop].
  destruct (uartgetc_ok s) as (s1 & E1 & Hc1 & Hu1 & Hp1 & Hw1 & Hr1 & Ht1). run E1. destruct (rx (t_dev s)) as [|c ks] eqn:Er.
  { exists s1. split; [done|]. cbn in *. rewrite !app_nil_r, Hc1. by rewrite Hp1. }
  pose proof (byte_to_Z_range c). rewrite (proj2 (Z.eqb_neq (byte_to_Z c) (-1))) by lia.
  destruct (consoleintr_ok patience busy_bound procs dump (byte_to_Z c) s1 l) as (s2 & E2 & Hl2 & T2); [by rewrite Hc1|congruence|done|done|]. run E2. destruct T2.
  destruct (IH s2 (key (byte_to_Z c) l)) as (s3 & E3 & Hl3 & Hu3 & Hp3 & Hr3 & Ht3 & Hw3); [done|congruence|done|rewrite ty_rx, Hr1; cbn in *; lia|].
  exists s3. rewrite ty_rx, Hr1 in *. cbn in *. split_and!; [done..|congruence|done|done|rewrite Ht3, ty_tx, Ht1; by rewrite <- app_assoc|rewrite Hw3, ty_woken, Hw1; by rewrite <- app_assoc].
Qed.

(** C19: The line discipline of the console.  The ring buffer of the console holds,
    within its bounds and across the wrap-around of its counters, the characters
    that are ready and the line being edited.  An interrupt applies every
    received key to them (erase, kill line, end of line, end of file, a full
    buffer), echoes it, and wakes the readers when a line is complete; a read
    hands out the ready characters in order, at most to the end of the line, and
    keeps an end-of-file mark that follows other characters for the next read. *)
Theorem console_line_discipline s l q :
  cons_ok (t_cons s) l -> queued (t_uart s) q -> t_panicked s = false ->
  (forall procs dump n, procdump_chars procs = Some dump -> (length (rx (t_dev s)) < n)%nat ->
    exists sent q' s', uartintr patience n procs s = Ok tt s' /\
      cons_ok (t_cons s') (type_keys (rx (t_dev s)) l) /\ rx (t_dev s') = [] /\
      q = sent ++ q' /\ queued (t_uart s') q' /\ tx (t_dev s') = tx (t_dev s) ++ echoes dump (rx (t_dev s)) l ++ sent /\
      t_woken s' = t_woken s ++ wakes (rx (t_dev s)) l ++ replicate (length sent) ch_uart_tx_r) /\
  (forall w dst n target, 0 <= dst < 2 ^ 64 -> 0 <= n <= target -> target < 2 ^ 31 ->
    exists sg s' w' lim, consoleread_from true dst n target (s, w) = Ok sg (s', w') /\
      let '(out, rest, fin) := read_ready (Z.to_nat n) lim (n =? target) (ready l) in
      cons_ok (t_cons s') (mkLines rest (edit l)) /\ cons_only s s' /\ placed w dst out w' /\ read_end dst n target out fin w' sg).
Proof.
  intros Hl Hq Hp. split.
  - intros procs dump n Hd Hn. destruct (uartintr_loop_ok n procs dump s l Hl Hp Hd Hn) as (s1 & E1 & Hl1 & Hu1 & Hp1 & Hr1 & Ht1 & Hw1).
    destruct (uartstart_ok s1 q) as (sent & q' & s2 & E2 & -> & []); [by rewrite Hu1|]. exists sent, q', s2. split; [unfold uartintr; by run E1|].
    rewrite fl_cons, fl_rx, fl_tx, fl_woken, Ht1, Hw1, <- !app_assoc. done.
  - intros w dst n target. by apply consoleread_ok.
Qed.

(** C36: Output to the console is a bounded queue.  Whatever a writer's segment does,
    the transmit ring stays within its 32 bytes and nothing in it is overwritten:
    the characters accepted so far are those transmitted, in order, followed by
    those in the ring.  The accepted characters are those of the writer's memory
    from its position on.  The segment returns at the end of the text or at an
    address that cannot be read, and sleeps only with the ring full. *)
Theorem console_output_queue s w q src n i pending :
  queued (t_uart s) q -> t_panicked s = false -> 0 <= i <= n -> (pending <> None -> i < n) ->
  exists sg s' bs sent q',
    consolewrite true src n i pending (s, w) = Ok sg (s', w) /\
    q ++ bs = sent ++ q' /\ queued (t_uart s') q' /\ tx (t_dev s') = tx (t_dev s) ++ sent /\ t_cons s' = t_cons s /\
    (forall j b, bs !! j = Some b -> to_write w src i pending j = Some b) /\ write_stop w src n i pending bs q' sg.
Proof.
  intros Hq Hp Hi Hpend. destruct (consolewrite_loop_ok _ s w q src n i pending eq_refl Hq Hp Hpend ltac:(lia)) as (sg & s' & E & bs & sent & q' & [] & Hbs & Hst).
  exists sg, s', bs, sent, q'. split_and!; done.
Qed.
End console.

(** ** A UART that needs one status read to send a character *)

Record sdev := mkSdev { sd_rx : list byte; sd_tx : list byte; sd_busy : bool }.

#[export] Instance sdev_dev : UartDev sdev := {
  ReadReg r d :=
    if r =? LSR then
      Ok (Z.lor (match sd_rx d with [] => 0 | _ => LSR_RX_READY end) (if sd_busy d then 0 else LSR_TX_IDLE)) (mkSdev (sd_rx d) (sd_tx d) false)
    else match sd_rx d with [] => Ok 0 d | b :: l => Ok (byte_to_Z b) (mkSdev l (sd_tx d) (sd_busy d)) end;
  WriteReg r c d := if r =? THR then Ok tt (mkSdev (sd_rx d) (sd_tx d ++ [byte_of_Z c]) true) else Ok tt d
}.

#[export] Program Instance sdev_laws : UartLaws sdev := { rx := sd_rx; tx := sd_tx; busy d := if sd_busy d then 1%nat else 0%nat }.
Next Obligation. intros [r t b]. eexists _, _. split; [reflexivity|]. cbn. by destruct r, b. Qed.
Next Obligation. intros [r t b] c l H. cbn in *. subst r. by eexists. Qed.
Next Obligation. intros [r t b] c _. by eexists. Qed.

Lemma sdev_busy (d : sdev) : (busy d < 2)%nat.
Proof. cbn. destruct (sd_busy d); lia. Qed.

Definition cons0 : cons_t := mkCons (replicate 128 x00) 0 0 0.
Definition uart0 : uart_t := mkUart (replicate 32 x00) 0 0.
Lemma cons0_ok : cons_ok cons0 (mkLines [] []).
Proof. split; [split; done|apply not_elem_of_nil|done]. Qed.
Lemma uart0_ok : queued uart0 [].
Proof. by split. Qed.

(** The keys [l], [x], delete, [s] and return, and a reader that waits for them. *)
Definition keys : list byte := bytes "lx" ++ [x7f] ++ bytes "s" ++ [x0d].
Definition tty0 : tty sdev := mkTty cons0 uart0 false (mkSdev keys [] false) [].
Definition reader : uproc bool := mkUproc hello false.

Lemma console_line_discipline_witness :
  (exists sent q' s', uartintr 2 6 [] tty0 = Ok tt s' /\
    cons_ok (t_cons s') (mkLines (bytes "ls" ++ [x0a]) []) /\ tx (t_dev s') = bytes "lx" ++ erase ++ bytes "s" ++ [x0a] ++ sent /\ [] = sent ++ q') /\
  (exists sg s' w' lim, consoleread_from true 100 10 10 (tty0, reader) = Ok sg (s', w') /\
    let '(out, rest, fin) := read_ready 10 lim true [] in cons_ok (t_cons s') (mkLines rest []) /\ cons_only tty0 s' /\ placed reader 100 out w' /\ read_end 100 10 10 out fin w' sg).
Proof.
  destruct (console_line_discipline 2 sdev_busy (W := uproc bool) tty0 (mkLines [] []) [] cons0_ok uart0_ok eq_refl) as [H1 H2]. split.
  - destruct (H1 [] [x0a] 6%nat) as (sent & q' & s' & E & Hl & _ & Hq & _ & Ht & _); [by vm_compute|cbn; lia|]. exists sent, q', s'. split_and!; [exact E|exact Hl|exact Ht|exact Hq].
  - apply H2; lia.
Defined.

Lemma console_output_queue_witness :
  exists sg s' bs sent q', consolewrite true 0 3 0 None (tty0, reader) = Ok sg (s', reader) /\
    [] ++ bs = sent ++ q' /\ queued (t_uart s') q' /\ tx (t_dev s') = sent /\ t_cons s' = cons0 /\
    (forall j b, bs !! j = Some b -> to_write reader 0 0 None j = Some b) /\ write_stop reader 0 3 0 None bs q' sg.
Proof. exact (console_output_queue tty0 reader [] 0 3 0 None uart0_ok eq_refl ltac:(lia) ltac:(done)). Defined.
