(* ===== verification/Virtio.v ===== *)
(** * The disk driver (kernel/virtio_disk.c, kernel/virtio.h)

    [struct disk] with the descriptors and rings that the driver shares with the
    device, and the buffers in transfer.  The pointers in descriptors are kept as
    what they point to.  Reading and writing the device's registers are operations
    of the interface [VirtioRegs].  [vdisk_lock] makes what runs between two calls
    of [sleep] atomic: [virtio_disk_rw] is [rw_start] up to its first [sleep] and
    [rw_wait] from there. *)

From S2P Require Import Prelude Mem Kalloc.

Definition NUM : nat := 8.
Definition BSIZE : Z := 1024.
Definition VRING_DESC_F_NEXT : Z := 1.
Definition VRING_DESC_F_WRITE : Z := 2.
Definition VIRTIO_BLK_T_IN : Z := 0.
Definition VIRTIO_BLK_T_OUT : Z := 1.

Definition VIRTIO_MMIO_MAGIC_VALUE : Z := 0x000.
Definition VIRTIO_MMIO_VERSION : Z := 0x004.
Definition VIRTIO_MMIO_DEVICE_ID : Z := 0x008.
Definition VIRTIO_MMIO_VENDOR_ID : Z := 0x00c.
Definition VIRTIO_MMIO_DEVICE_FEATURES : Z := 0x010.
Definition VIRTIO_MMIO_DRIVER_FEATURES : Z := 0x020.
Definition VIRTIO_MMIO_QUEUE_SEL : Z := 0x030.
Definition VIRTIO_MMIO_QUEUE_NUM_MAX : Z := 0x034.
Definition VIRTIO_MMIO_QUEUE_NUM : Z := 0x038.
Definition VIRTIO_MMIO_QUEUE_READY : Z := 0x044.
Definition VIRTIO_MMIO_QUEUE_NOTIFY : Z := 0x050.
Definition VIRTIO_MMIO_INTERRUPT_STATUS : Z := 0x060.
Definition VIRTIO_MMIO_INTERRUPT_ACK : Z := 0x064.
Definition VIRTIO_MMIO_STATUS : Z := 0x070.
Definition VIRTIO_MMIO_QUEUE_DESC_LOW : Z := 0x080.
Definition VIRTIO_MMIO_QUEUE_DESC_HIGH : Z := 0x084.
Definition VIRTIO_MMIO_DRIVER_DESC_LOW : Z := 0x090.
Definition VIRTIO_MMIO_DRIVER_DESC_HIGH : Z := 0x094.
Definition VIRTIO_MMIO_DEVICE_DESC_LOW : Z := 0x0a0.
Definition VIRTIO_MMIO_DEVICE_DESC_HIGH : Z := 0x0a4.

Definition VIRTIO_CONFIG_S_ACKNOWLEDGE : Z := 1.
Definition VIRTIO_CONFIG_S_DRIVER : Z := 2.
Definition VIRTIO_CONFIG_S_DRIVER_OK : Z := 4.
Definition VIRTIO_CONFIG_S_FEATURES_OK : Z := 8.

(** What a descriptor points to: nothing, [disk.ops[i]], the data of a buffer, or
    [disk.info[i].status]. *)
Inductive vaddr := ANull | AOps (i : nat) | AData (b : nat) | AStatus (i : nat).

Record virtq_desc := mkDesc { d_addr : vaddr; d_len : Z; d_flags : Z; d_next : Z }.
Definition desc0 : virtq_desc := mkDesc ANull 0 0 0.
Record virtio_blk_req := mkBlkReq { q_type : Z; q_reserved : Z; q_sector : Z }.
Record vinfo := mkInfo { i_b : option nat; i_status : Z }.

(** The fields of [struct buf] that the driver uses. *)
Record vbuf := mkVbuf { vb_blockno : Z; vb_disk : bool; vb_data : list byte }.

Inductive vchan := ch_free | ch_buf (b : nat).

(** The memory that the driver and the device share. *)
Record vmem := mkVmem {
  desc : list virtq_desc;
  avail_idx : Z; avail_ring : list Z;
  used_idx' : Z; used_ring : list Z;
  ops : list virtio_blk_req;
  info : list vinfo;
  vbufs : list vbuf
}.
(** The driver's own fields, the memory, the device, and the wakeups made. *)
Record vst (D : Type) := mkVst {
  v_free : list bool; v_used_idx : Z; v_mem : vmem; v_dev : D; v_woken : list vchan
}.
Arguments mkVst {D}. Arguments v_free {D}. Arguments v_used_idx {D}. Arguments v_mem {D}. Arguments v_dev {D}. Arguments v_woken {D}.

Class VirtioRegs (D : Type) := {
  R_read : Z -> M D Z;
  R_write : Z -> Z -> M D unit
}.

Definition upd_desc (f : list virtq_desc -> list virtq_desc) (m : vmem) : vmem :=
  mkVmem (f (desc m)) (avail_idx m) (avail_ring m) (used_idx' m) (used_ring m) (ops m) (info m) (vbufs m).
Definition upd_ops (f : list virtio_blk_req -> list virtio_blk_req) (m : vmem) : vmem :=
  mkVmem (desc m) (avail_idx m) (avail_ring m) (used_idx' m) (used_ring m) (f (ops m)) (info m) (vbufs m).
Definition upd_info (f : list vinfo -> list vinfo) (m : vmem) : vmem :=
  mkVmem (desc m) (avail_idx m) (avail_ring m) (used_idx' m) (used_ring m) (ops m) (f (info m)) (vbufs m).
Definition upd_vbufs (f : list vbuf -> list vbuf) (m : vmem) : vmem :=
  mkVmem (desc m) (avail_idx m) (avail_ring m) (used_idx' m) (used_ring m) (ops m) (info m) (f (vbufs m)).
Definition upd_avail (i : Z) (r : list Z) (m : vmem) : vmem :=
  mkVmem (desc m) i r (used_idx' m) (used_ring m) (ops m) (info m) (vbufs m).
Definition upd_used (i : Z) (r : list Z) (m : vmem) : vmem :=
  mkVmem (desc m) (avail_idx m) (avail_ring m) i r (ops m) (info m) (vbufs m).

Section virtio.
Context {D : Type} {regs : VirtioRegs D}.

Definition memory (f : vmem -> vmem) : M (vst D) unit :=
  modify (fun s => mkVst (v_free s) (v_used_idx s) (f (v_mem s)) (v_dev s) (v_woken s)).
Definition set_free (i : nat) (b : bool) : M (vst D) unit :=
  modify (fun s => mkVst (<[i := b]> (v_free s)) (v_used_idx s) (v_mem s) (v_dev s) (v_woken s)).
Definition v_wakeup (c : vchan) : M (vst D) unit :=
  modify (fun s => mkVst (v_free s) (v_used_idx s) (v_mem s) (v_dev s) (v_woken s ++ [c])).
Definition R {A} (m : M D A) : M (vst D) A := zoom v_dev (fun d s => mkVst (v_free s) (v_used_idx s) (v_mem s) d (v_woken s)) m.

Definition set_desc (i : nat) (d : virtq_desc) : M (vst D) unit := memory (upd_desc (fun l => <[i := d]> l)).

(** -1 when no descriptor is free. *)
Definition alloc_desc : M (vst D) Z :=
  o <- for_until (seq 0 NUM) (fun i =>
         f <- gets v_free;;
         b <- from_opt (f !! i);;
         if b : bool then set_free i false;;; ret (Some (Z.of_nat i)) else ret None);;
  ret (default (-1) o).

Definition free_desc (i : Z) : M (vst D) unit :=
  if Z.of_nat NUM <=? i then panic "free_desc 1"
  else
    f <- gets v_free;;
    b <- from_opt (f !! Z.to_nat i);;
    if b : bool then panic "free_desc 2"
    else
      set_desc (Z.to_nat i) desc0;;;
      set_free (Z.to_nat i) true;;;
      v_wakeup ch_free.

(** A chain has at most [NUM] descriptors, since each is freed once. *)
Fixpoint free_chain (fuel : nat) (i : Z) : M (vst D) unit :=
  match fuel with
  | O => nofuel
  | S fuel =>
      m <- gets v_mem;;
      d <- from_opt (desc m !! Z.to_nat i);;
      free_desc i;;;
      if negb (Z.land (d_flags d) VRING_DESC_F_NEXT =? 0) then free_chain fuel (d_next d) else ret tt
  end.

(** The loop over [idx], [done] so far. *)
Fixpoint alloc3_loop (n : nat) (done : list Z) : M (vst D) (option (list Z)) :=
  match n with
  | O => ret (Some done)
  | S n =>
      i <- alloc_desc;;
      if i <? 0 then for_each done free_desc;;; ret None
      else alloc3_loop n (done ++ [i])
  end.
Definition alloc3_desc : M (vst D) (option (list Z)) := alloc3_loop 3 [].

(** How a segment of [virtio_disk_rw] ends. *)
Inductive rwseg := RwSleepFree | RwSleepBuf (i : Z) | RwDone.

(** [while(b->disk == 1) sleep(b);] and what follows it. *)
Definition rw_wait (b : nat) (i0 : Z) : M (vst D) rwseg :=
  m <- gets v_mem;;
  x <- from_opt (vbufs m !! b);;
  if vb_disk x then ret (RwSleepBuf i0)
  else
    memory (upd_info (alter (fun x => mkInfo None (i_status x)) (Z.to_nat i0)));;;
    free_chain (S NUM) i0;;;
    ret RwDone.

Definition rw_submit (b : nat) (write : bool) (sector : Z) (i0 i1 i2 : nat) : M (vst D) unit :=
  memory (upd_ops (fun l => <[i0 := mkBlkReq (if write then VIRTIO_BLK_T_OUT else VIRTIO_BLK_T_IN) 0 sector]> l));;;
  set_desc i0 (mkDesc (AOps i0) 16 VRING_DESC_F_NEXT (Z.of_nat i1));;;
  set_desc i1 (mkDesc (AData b) BSIZE (Z.lor (if write then 0 else VRING_DESC_F_WRITE) VRING_DESC_F_NEXT) (Z.of_nat i2));;;
  memory (upd_info (alter (fun x => mkInfo (i_b x) 0xff) i0));;;
  set_desc i2 (mkDesc (AStatus i0) 1 VRING_DESC_F_WRITE 0);;;
  memory (upd_vbufs (alter (fun x => mkVbuf (vb_blockno x) true (vb_data x)) b));;;
  memory (upd_info (alter (fun x => mkInfo (Some b) (i_status x)) i0));;;
  memory (fun m => upd_avail (avail_idx m) (<[Z.to_nat (avail_idx m mod Z.of_nat NUM) := Z.of_nat i0]> (avail_ring m)) m);;;
  memory (fun m => upd_avail (u16 (avail_idx m + 1)) (avail_ring m) m);;;
  R (R_write VIRTIO_MMIO_QUEUE_NOTIFY 0).

(** One round of the loop that allocates descriptors, and what follows it. *)
Definition rw_start (b : nat) (write : bool) : M (vst D) rwseg :=
  m <- gets v_mem;;
  x <- from_opt (vbufs m !! b);;
  let sector := u32 (vb_blockno x * (BSIZE / 512)) in
  o <- alloc3_desc;;
  match o with
  | Some [i0; i1; i2] =>
      rw_submit b write sector (Z.to_nat i0) (Z.to_nat i1) (Z.to_nat i2);;;
      rw_wait b i0
  | _ => ret RwSleepFree
  end.

Fixpoint intr_loop (fuel : nat) : M (vst D) unit :=
  s <- get;;
  if v_used_idx s =? used_idx' (v_mem s) then ret tt
  else
    match fuel with
    | O => nofuel
    | S fuel =>
        id <- from_opt (used_ring (v_mem s) !! Z.to_nat (v_used_idx s mod Z.of_nat NUM));;
        x <- from_opt (info (v_mem s) !! Z.to_nat id);;
        if negb (i_status x =? 0) then panic "virtio_disk_intr status"
        else
          b <- from_opt (i_b x);;
          memory (upd_vbufs (alter (fun y => mkVbuf (vb_blockno y) false (vb_data y)) b));;;
          v_wakeup (ch_buf b);;;
          modify (fun s => mkVst (v_free s) (u16 (v_used_idx s + 1)) (v_mem s) (v_dev s) (v_woken s));;;
          intr_loop fuel
    end.

Definition virtio_disk_intr : M (vst D) unit :=
  v <- R (R_read VIRTIO_MMIO_INTERRUPT_STATUS);;
  R (R_write VIRTIO_MMIO_INTERRUPT_ACK (Z.land v 0x3));;;
  s <- get;;
  (* the completions that are new *)
  intr_loop (Z.to_nat (u16 (used_idx' (v_mem s) - v_used_idx s))).

Definition drop_features (features : Z) : Z :=
  fold_left (fun f n => Z.land f (Z.lnot (Z.shiftl 1 n))) [5; 7; 11; 12; 27; 29; 28] features.

(** The descriptors and rings in pages of zeros. *)
Definition zero_queues (m : vmem) : vmem :=
  mkVmem (replicate NUM desc0) 0 (replicate NUM 0) 0 (replicate NUM 0) (ops m) (info m) (vbufs m).

Definition on_k {A} (m : M kst A) : M (kst * vst D) A := zoom fst (fun x s => (x, snd s)) m.
Definition on_v {A} (m : M (vst D) A) : M (kst * vst D) A := zoom snd (fun x s => (fst s, x)) m.
Definition rr (r : Z) : M (kst * vst D) Z := on_v (R (R_read r)).
Definition rw (r x : Z) : M (kst * vst D) unit := on_v (R (R_write r (u32 x))).

(** The registers have these values; the first that does not ends the test. *)
Fixpoint expect (l : list (Z * Z)) : M (kst * vst D) bool :=
  match l with
  | [] => ret true
  | (r, x) :: l => a <- rr r;; if negb (a =? x) then ret false else expect l
  end.

Definition virtio_disk_init : M (kst * vst D) unit :=
  found <- expect [(VIRTIO_MMIO_MAGIC_VALUE, 0x74726976); (VIRTIO_MMIO_VERSION, 2); (VIRTIO_MMIO_DEVICE_ID, 2); (VIRTIO_MMIO_VENDOR_ID, 0x554d4551)];;
  if negb found then panic "could not find virtio disk"
  else
  rw VIRTIO_MMIO_STATUS 0;;;
  let status := VIRTIO_CONFIG_S_ACKNOWLEDGE in
  rw VIRTIO_MMIO_STATUS status;;;
  let status := Z.lor status VIRTIO_CONFIG_S_DRIVER in
  rw VIRTIO_MMIO_STATUS status;;;
  features <- rr VIRTIO_MMIO_DEVICE_FEATURES;;
  rw VIRTIO_MMIO_DRIVER_FEATURES (drop_features features);;;
  rw VIRTIO_MMIO_STATUS (Z.lor status VIRTIO_CONFIG_S_FEATURES_OK);;;
  status <- rr VIRTIO_MMIO_STATUS;;
  if Z.land status VIRTIO_CONFIG_S_FEATURES_OK =? 0 then panic "virtio disk FEATURES_OK unset"
  else
  rw VIRTIO_MMIO_QUEUE_SEL 0;;;
  ready <- rr VIRTIO_MMIO_QUEUE_READY;;
  if negb (ready =? 0) then panic "virtio disk should not be ready"
  else
  max <- rr VIRTIO_MMIO_QUEUE_NUM_MAX;;
  if max =? 0 then panic "virtio disk has no queue 0"
  else if max <? Z.of_nat NUM then panic "virtio disk max queue too short"
  else
  p1 <- on_k kalloc;;
  p2 <- on_k kalloc;;
  p3 <- on_k kalloc;;
  if (p1 =? 0) || (p2 =? 0) || (p3 =? 0) then panic "virtio disk kalloc"
  else
  on_k (modify (fun s => mkKst (mem_set (mem_set (mem_set (kmem s) p1 0 PGSIZE) p2 0 PGSIZE) p3 0 PGSIZE) (freelist s)));;;
  on_v (memory zero_queues);;;
  rw VIRTIO_MMIO_QUEUE_NUM (Z.of_nat NUM);;;
  rw VIRTIO_MMIO_QUEUE_DESC_LOW p1;;;
  rw VIRTIO_MMIO_QUEUE_DESC_HIGH (Z.shiftr p1 32);;;
  rw VIRTIO_MMIO_DRIVER_DESC_LOW p2;;;
  rw VIRTIO_MMIO_DRIVER_DESC_HIGH (Z.shiftr p2 32);;;
  rw VIRTIO_MMIO_DEVICE_DESC_LOW p3;;;
  rw VIRTIO_MMIO_DEVICE_DESC_HIGH (Z.shiftr p3 32);;;
  rw VIRTIO_MMIO_QUEUE_READY 0x1;;;
  on_v (for_each (seq 0 NUM) (fun i => set_free i true));;;
  rw VIRTIO_MMIO_STATUS (Z.lor status VIRTIO_CONFIG_S_DRIVER_OK).
End virtio.
