(* ===== verification/VirtioSpec.v ===== *)
(** * The disk driver: requests, device and machine

    What a virtio block device does with the requests that a driver makes
    available, the machine in which processes, interrupts and the device take
    turns, and the disk it is to implement: transfers that happen at one point
    between the call of [virtio_disk_rw] and its return. *)

From S2P Require Import Prelude Mem Kalloc Ring Virtio.

(** ** The device *)

Record vreq := mkVreq { vr_id : nat; vr_write : bool; vr_sector : Z; vr_buf : nat; vr_len : Z; vr_status : nat }.
(** The available entries taken so far, the requests taken and not completed,
    and the contents of the disk. *)
Record dview := mkDview { seen : Z; flight : list vreq; platter : list byte }.

Definition has (flag f : Z) : bool := negb (Z.land f flag =? 0).

(** The request of the chain at [i], by Section 5.2.6 of the virtio standard: a
    header, the data, which the device writes just when the disk is read, and a
    status byte. *)
Definition parse (m : vmem) (i : nat) : option vreq :=
  d0 ← desc m !! i;
  d1 ← desc m !! Z.to_nat (d_next d0);
  d2 ← desc m !! Z.to_nat (d_next d1);
  match d_addr d0, d_addr d1, d_addr d2 with
  | AOps j, AData b, AStatus st =>
      q ← ops m !! j;
      if (d_len d0 =? 16) && has VRING_DESC_F_NEXT (d_flags d0) && negb (has VRING_DESC_F_WRITE (d_flags d0)) &&
         has VRING_DESC_F_NEXT (d_flags d1) && Bool.eqb (has VRING_DESC_F_WRITE (d_flags d1)) (q_type q =? VIRTIO_BLK_T_IN) &&
         (d_len d2 =? 1) && has VRING_DESC_F_WRITE (d_flags d2) && negb (has VRING_DESC_F_NEXT (d_flags d2)) &&
         ((q_type q =? VIRTIO_BLK_T_IN) || (q_type q =? VIRTIO_BLK_T_OUT))
      then Some (mkVreq i (q_type q =? VIRTIO_BLK_T_OUT) (q_sector q) b (d_len d1) st)
      else None
  | _, _, _ => None
  end.

Definition set_data (bs : list byte) (x : vbuf) : vbuf := mkVbuf (vb_blockno x) (vb_disk x) bs.

(** The transfer of a request, if it is within the disk. *)
Definition transfer (rq : vreq) (m : vmem) (disk : list byte) : option (vmem * list byte) :=
  x ← vbufs m !! vr_buf rq;
  let off := Z.to_nat (vr_sector rq * 512) in
  if (off + Z.to_nat (vr_len rq) <=? length disk)%nat then
    if vr_write rq then Some (m, splice disk off (take (Z.to_nat (vr_len rq)) (vb_data x)))
    else Some (upd_vbufs (alter (set_data (slice off (Z.to_nat (vr_len rq)) disk)) (vr_buf rq)) m, disk)
  else None.

(** The status and the entry in the used ring of a completed request. *)
Definition complete (rq : vreq) (st : Z) (m : vmem) : vmem :=
  let m := upd_info (alter (fun x => mkInfo (i_b x) st) (vr_status rq)) m in
  upd_used (u16 (used_idx' m + 1)) (<[Z.to_nat (used_idx' m mod Z.of_nat NUM) := Z.of_nat (vr_id rq)]> (used_ring m)) m.

Inductive vlabel := LTau | LFill (b : nat) (blockno : Z) (data : list byte) | LStart (b : nat) (w : bool) | LPerform (b : nat) | LReturn (b : nat).

(** A step of the device: it takes the next available request, or completes one of
    those it has taken, in any order. *)
Inductive device_does (m : vmem) (d : dview) : vlabel -> vmem -> dview -> Prop :=
| dd_idle : device_does m d LTau m d
| dd_take i rq :
    seen d <> avail_idx m -> avail_ring m !! Z.to_nat (seen d mod Z.of_nat NUM) = Some (Z.of_nat i) -> parse m i = Some rq ->
    device_does m d LTau m (mkDview (u16 (seen d + 1)) (flight d ++ [rq]) (platter d))
| dd_complete rq fl1 fl2 m1 disk :
    flight d = fl1 ++ rq :: fl2 -> transfer rq m (platter d) = Some (m1, disk) ->
    device_does m d (LPerform (vr_buf rq)) (complete rq 0 m1) (mkDview (seen d) (fl1 ++ fl2) disk)
| dd_fail rq fl1 fl2 :
    flight d = fl1 ++ rq :: fl2 -> transfer rq m (platter d) = None ->
    device_does m d LTau (complete rq 1 m) (mkDview (seen d) (fl1 ++ fl2) (platter d)).

(** The next available entry is a request of the right form. *)
Definition next_ok (m : vmem) (d : dview) : Prop :=
  seen d <> avail_idx m -> exists i rq, avail_ring m !! Z.to_nat (seen d mod Z.of_nat NUM) = Some (Z.of_nat i) /\ parse m i = Some rq.

(** A virtio block device: its registers have no effect on transfers, and as long
    as the driver keeps to the form of requests it does what the standard says. *)
Class VirtioLaws (D : Type) {regs : VirtioRegs D} := {
  view : D -> dview;
  dstep : vmem -> D -> vmem -> D -> Prop;
  read_ok : forall d, exists x d', R_read VIRTIO_MMIO_INTERRUPT_STATUS d = Ok x d' /\ view d' = view d;
  ack_ok : forall d x, exists d', R_write VIRTIO_MMIO_INTERRUPT_ACK x d = Ok tt d' /\ view d' = view d;
  notify_ok : forall d, exists d', R_write VIRTIO_MMIO_QUEUE_NOTIFY 0 d = Ok tt d' /\ view d' = view d;
  dstep_ok : forall m d m' d', dstep m d m' d' -> next_ok m (view d) -> exists e, device_does m (view d) e m' (view d')
}.

(** ** The machine *)

(** A transfer waits for descriptors or for its completion. *)
Inductive vphase := PhFree | PhBuf (i : Z).

Section machine.
Context {D : Type} {regs : VirtioRegs D} {laws : VirtioLaws D}.

(** For each buffer the transfer that a process runs on it: the caller holds the
    buffer's lock, so there is at most one. *)
Record vcfg := mkVcfg { c_st : vst D; c_ph : list (option (bool * vphase)) }.

Definition after_seg (w : bool) (sg : rwseg) : option (bool * vphase) :=
  match sg with RwSleepFree => Some (w, PhFree) | RwSleepBuf i => Some (w, PhBuf i) | RwDone => None end.

Definition with_mem (f : vmem -> vmem) (s : vst D) : vst D := mkVst (v_free s) (v_used_idx s) (f (v_mem s)) (v_dev s) (v_woken s).

Definition block_ok (disk : list byte) (blockno : Z) : Prop :=
  0 <= blockno < 2 ^ 31 /\ (Z.to_nat (blockno * BSIZE) + Z.to_nat BSIZE <= length disk)%nat.

Inductive vstep : vcfg -> vlabel -> vcfg -> Prop :=
| vs_fill s ph b x blockno data :
    ph !! b = Some None -> vbufs (v_mem s) !! b = Some x -> block_ok (platter (view (v_dev s))) blockno -> length data = Z.to_nat BSIZE ->
    vstep (mkVcfg s ph) (LFill b blockno data) (mkVcfg (with_mem (upd_vbufs (fun l => <[b := mkVbuf blockno (vb_disk x) data]> l)) s) ph)
| vs_start s ph b w sg s' :
    ph !! b = Some None -> rw_start b w s = Ok sg s' -> vstep (mkVcfg s ph) (LStart b w) (mkVcfg s' (<[b := after_seg w sg]> ph))
| vs_retry s ph b w sg s' :
    ph !! b = Some (Some (w, PhFree)) -> rw_start b w s = Ok sg s' -> vstep (mkVcfg s ph) LTau (mkVcfg s' (<[b := after_seg w sg]> ph))
| vs_wake s ph b w i sg s' :
    ph !! b = Some (Some (w, PhBuf i)) -> rw_wait b i s = Ok sg s' ->
    vstep (mkVcfg s ph) (match sg with RwDone => LReturn b | _ => LTau end) (mkVcfg s' (<[b := after_seg w sg]> ph))
| vs_intr s ph s' :
    virtio_disk_intr s = Ok tt s' -> vstep (mkVcfg s ph) LTau (mkVcfg s' ph)
| vs_dev s ph e m' d' :
    dstep (v_mem s) (v_dev s) m' d' ->
    (next_ok (v_mem s) (view (v_dev s)) -> device_does (v_mem s) (view (v_dev s)) e m' (view d')) ->
    vstep (mkVcfg s ph) e (mkVcfg (mkVst (v_free s) (v_used_idx s) m' d' (v_woken s)) ph).

Inductive vsteps : vcfg -> list vlabel -> vcfg -> Prop :=
| vss_nil c : vsteps c [] c
| vss_snoc c1 tr c2 e c3 : vsteps c1 tr c2 -> vstep c2 e c3 -> vsteps c1 (tr ++ [e]) c3.
End machine.

(** ** The disk as its callers see it *)

(** For each buffer the block, its data, and the transfer in progress: whether it
    writes, and whether it has been performed. *)
Record abuf := mkAbuf { ab_blockno : Z; ab_data : list byte; ab_op : option (bool * bool) }.
Record adisk := mkAdisk { a_disk : list byte; a_bufs : list abuf }.

Inductive astep : adisk -> vlabel -> adisk -> Prop :=
| as_tau a : astep a LTau a
| as_fill dk bs b x blockno data :
    bs !! b = Some x -> ab_op x = None ->
    astep (mkAdisk dk bs) (LFill b blockno data) (mkAdisk dk (<[b := mkAbuf blockno data None]> bs))
| as_start dk bs b x w :
    bs !! b = Some x -> ab_op x = None ->
    astep (mkAdisk dk bs) (LStart b w) (mkAdisk dk (<[b := mkAbuf (ab_blockno x) (ab_data x) (Some (w, false))]> bs))
| as_write dk bs b x :
    bs !! b = Some x -> ab_op x = Some (true, false) ->
    astep (mkAdisk dk bs) (LPerform b)
      (mkAdisk (splice dk (Z.to_nat (ab_blockno x * BSIZE)) (ab_data x)) (<[b := mkAbuf (ab_blockno x) (ab_data x) (Some (true, true))]> bs))
| as_read dk bs b x :
    bs !! b = Some x -> ab_op x = Some (false, false) ->
    astep (mkAdisk dk bs) (LPerform b)
      (mkAdisk dk (<[b := mkAbuf (ab_blockno x) (slice (Z.to_nat (ab_blockno x * BSIZE)) (Z.to_nat BSIZE) dk) (Some (false, true))]> bs))
| as_return dk bs b x w :
    bs !! b = Some x -> ab_op x = Some (w, true) ->
    astep (mkAdisk dk bs) (LReturn b) (mkAdisk dk (<[b := mkAbuf (ab_blockno x) (ab_data x) None]> bs)).

Inductive asteps : adisk -> list vlabel -> adisk -> Prop :=
| ass_nil a : asteps a [] a
| ass_snoc a1 tr a2 e a3 : asteps a1 tr a2 -> astep a2 e a3 -> asteps a1 (tr ++ [e]) a3.
