(* ===== verification/VirtioInv.v ===== *)
(** * The disk driver: the invariant

    Which descriptors belong to which transfer, where each request is between the
    driver and the device, and how the machine stands for the disk its callers
    see; every operation of the driver and every step of the device keeps it. *)

From S2P Require Import Prelude Mem Kalloc Ring Virtio VirtioSpec.

(** ** Queues of descriptor numbers *)

Definition qsize : Z := Z.of_nat NUM.

Record holds (ring : list Z) (from to : Z) (l : list nat) : Prop := {
  ho_ring : length ring = NUM;
  ho_from : 0 <= from < 2 ^ 16;
  ho_to : to = u16 (from + Z.of_nat (length l));
  ho_len : (length l <= NUM)%nat;
  ho_window : window qsize ring from (length l) = Z.of_nat <$> l
}.

Lemma qsize_divides : (qsize | 2 ^ 16).
Proof. by apply Z.mod_divide. Qed.

Lemma holds_count ring from to l : holds ring from to l -> u16 (to - from) = Z.of_nat (length l).
Proof. intros [_ Hf -> Hl _]. unfold u16, NUM in *. dlia. Qed.
Lemma holds_empty ring from to l : holds ring from to l -> from = to <-> l = [].
Proof.
  intros H. pose proof (holds_count _ _ _ _ H) as Hc. destruct H as [_ Hf Ht Hl _]. rewrite <- length_zero_iff_nil. split.
  - intros <-. rewrite Z.sub_diag in Hc. change (u16 0) with 0 in Hc. lia.
  - intros E. rewrite E in Ht. rewrite Ht. unfold u16. dlia.
Qed.

Lemma holds_push ring from to l i :
  holds ring from to l -> (length l < NUM)%nat -> holds (<[Z.to_nat (to mod qsize) := Z.of_nat i]> ring) from (u16 (to + 1)) (l ++ [i]).
Proof.
  intros [Hr Hf Ht Hl Hw] Hlt. assert (length (l ++ [i]) = S (length l)) as Hlen by (rewrite length_app; cbn; lia). split; rewrite ?Hlen; try done.
  - by rewrite length_insert.
  - rewrite Ht. unfold u16. dlia.
  - pose proof (window_push qsize eq_refl ring from (length l) (Z.of_nat i) Hr ltac:(unfold qsize; lia)) as Hp. unfold ring_put in Hp.
    rewrite Ht. unfold u16. rewrite (wrap_size qsize _ qsize_divides), Hp, Hw, fmap_app. done.
Qed.

Lemma holds_pop ring from to i l :
  holds ring from to (i :: l) -> holds ring (u16 (from + 1)) to l /\ ring !! Z.to_nat (from mod qsize) = Some (Z.of_nat i).
Proof.
  intros [Hr Hf Ht Hl Hw]. cbn [length fmap list_fmap] in *. rewrite window_S in Hw. injection Hw as Hfst Hw. split.
  - split; [done|apply Z.mod_pos_bound; lia|rewrite Ht; unfold u16; dlia|lia|]. unfold u16. by rewrite (window_wrap qsize _ qsize_divides).
  - rewrite at_ring_lookup by done. by f_equal.
Qed.

(** Distinct descriptors, with one that is not among them, leave room for it. *)
Lemma holds_room ring from to l i :
  holds ring from to l -> NoDup l -> (forall k, k ∈ l -> (k < NUM)%nat) -> i ∉ l -> (i < NUM)%nat -> (length l < NUM)%nat.
Proof.
  intros _ Hnd Hlt Hi Hin. assert (NoDup (i :: l)) as H by (by constructor). apply NoDup_ListNoDup in H.
  assert (length (i :: l) <= length (seq 0 NUM))%nat as Hle.
  { apply NoDup_incl_length; [done|]. intros k Hk. apply in_seq. apply list_elem_of_In, elem_of_cons in Hk as [->|Hk]; [lia|]. specialize (Hlt k Hk). lia. }
  rewrite length_seq in Hle. cbn [length] in Hle. lia.
Qed.

(** ** Requests *)

Inductive rstage := Queued | Flying | Used | Processed.
Record greq := mkG { g_b : nat; g_w : bool; g_i1 : nat; g_i2 : nat; g_st : rstage }.

Definition chain (i : nat) (r : greq) : list nat := [i; g_i1 r; g_i2 r].
Definition performed (st : rstage) : bool := match st with Queued | Flying => false | Used | Processed => true end.
Definition in_device (st : rstage) : bool := match st with Processed => false | _ => true end.
Definition set_st (st : rstage) (r : greq) : greq := mkG (g_b r) (g_w r) (g_i1 r) (g_i2 r) st.
Definition rq_type (w : bool) : Z := if w then VIRTIO_BLK_T_OUT else VIRTIO_BLK_T_IN.
Definition req_of (i : nat) (r : greq) (blockno : Z) : vreq := mkVreq i (g_w r) (blockno * 2) (g_b r) BSIZE i.

Record req_ok (m : vmem) (ph : list (option (bool * vphase))) (i : nat) (r : greq) : Prop := {
  ro_nodup : NoDup (chain i r);
  ro_lt : Forall (fun k => (k < NUM)%nat) (chain i r);
  ro_d0 : desc m !! i = Some (mkDesc (AOps i) 16 VRING_DESC_F_NEXT (Z.of_nat (g_i1 r)));
  ro_d1 : desc m !! g_i1 r = Some (mkDesc (AData (g_b r)) BSIZE (Z.lor (if g_w r then 0 else VRING_DESC_F_WRITE) VRING_DESC_F_NEXT) (Z.of_nat (g_i2 r)));
  ro_d2 : desc m !! g_i2 r = Some (mkDesc (AStatus i) 1 VRING_DESC_F_WRITE 0);
  ro_buf : exists x, vbufs m !! g_b r = Some x /\ vb_disk x = in_device (g_st r) /\ ops m !! i = Some (mkBlkReq (rq_type (g_w r)) 0 (vb_blockno x * 2));
  ro_info : info m !! i = Some (mkInfo (Some (g_b r)) (if performed (g_st r) then 0 else 0xff));
  ro_ph : ph !! g_b r = Some (Some (g_w r, PhBuf (Z.of_nat i)))
}.

Lemma parse_ok m ph i r :
  req_ok m ph i r -> exists x, vbufs m !! g_b r = Some x /\ parse m i = Some (req_of i r (vb_blockno x)).
Proof.
  intros []. destruct ro_buf0 as (x & Hx & _ & Ho). exists x. split; [done|]. unfold parse. rewrite ro_d3. cbn [mbind option_bind d_next]. rewrite Nat2Z.id, ro_d4.
  cbn [mbind option_bind d_next]. rewrite Nat2Z.id, ro_d5. cbn [mbind option_bind d_addr]. rewrite Ho. unfold req_of. by destruct (g_w r).
Qed.

(** The transfer on a buffer, as its caller sees it. *)
Definition abs_op (G : gmap nat greq) (p : option (bool * vphase)) : option (bool * bool) :=
  match p with
  | None => None
  | Some (w, PhFree) => Some (w, false)
  | Some (w, PhBuf i) => Some (w, match G !! Z.to_nat i with Some r => performed (g_st r) | None => false end)
  end.

Definition waiting (p : option (bool * vphase)) : bool := match p with Some (_, PhBuf _) => true | _ => false end.

Section inv.
Context {D : Type} {regs : VirtioRegs D} {laws : VirtioLaws D}.

Record vinv (s : vst D) (ph : list (option (bool * vphase))) (a : adisk) (G : gmap nat greq) (qs us : list nat) : Prop := {
  vi_free_len : length (v_free s) = NUM;
  vi_desc_len : length (desc (v_mem s)) = NUM;
  vi_ops_len : length (ops (v_mem s)) = NUM;
  vi_info_len : length (info (v_mem s)) = NUM;
  vi_ph_len : length ph = length (vbufs (v_mem s));
  vi_req : forall i r, G !! i = Some r -> req_ok (v_mem s) ph i r;
  vi_disj : forall i j r r' k, G !! i = Some r -> G !! j = Some r' -> k ∈ chain i r -> k ∈ chain j r' -> i = j;
  vi_free : forall k b, v_free s !! k = Some b -> b = true <-> forall i r, G !! i = Some r -> k ∉ chain i r;
  vi_ph : forall b w i, ph !! b = Some (Some (w, PhBuf i)) -> exists n r, i = Z.of_nat n /\ G !! n = Some r /\ g_b r = b /\ g_w r = w;
  vi_idle : forall b x p, vbufs (v_mem s) !! b = Some x -> ph !! b = Some p -> waiting p = false -> vb_disk x = false;
  vi_avail : holds (avail_ring (v_mem s)) (seen (view (v_dev s))) (avail_idx (v_mem s)) qs;
  vi_qs_nodup : NoDup qs;
  vi_qs : forall i, i ∈ qs -> exists r, G !! i = Some r /\ g_st r = Queued;
  vi_fl_nodup : NoDup (vr_id <$> flight (view (v_dev s)));
  vi_fl : forall rq, rq ∈ flight (view (v_dev s)) -> exists i r x, G !! i = Some r /\ g_st r = Flying /\ vbufs (v_mem s) !! g_b r = Some x /\ rq = req_of i r (vb_blockno x);
  vi_used : holds (used_ring (v_mem s)) (v_used_idx s) (used_idx' (v_mem s)) us;
  vi_us_nodup : NoDup us;
  vi_us : forall i, i ∈ us -> exists r, G !! i = Some r /\ g_st r = Used;
  vi_disk : a_disk a = platter (view (v_dev s));
  vi_bufs : forall b x, vbufs (v_mem s) !! b = Some x -> block_ok (a_disk a) (vb_blockno x) /\ length (vb_data x) = Z.to_nat BSIZE;
  vi_abs_len : length (a_bufs a) = length (vbufs (v_mem s));
  vi_abs : forall b x p, vbufs (v_mem s) !! b = Some x -> ph !! b = Some p -> a_bufs a !! b = Some (mkAbuf (vb_blockno x) (vb_data x) (abs_op G p))
}.

(** The device always finds a request of the right form. *)
Lemma vinv_next_ok s ph a G qs us : vinv s ph a G qs us -> next_ok (v_mem s) (view (v_dev s)).
Proof.
  intros H Hne. destruct qs as [|i qs]; [by destruct (proj2 (holds_empty _ _ _ _ (vi_avail _ _ _ _ _ _ H)))|].
  destruct (holds_pop _ _ _ _ _ (vi_avail _ _ _ _ _ _ H)) as [_ Hi]. destruct (vi_qs _ _ _ _ _ _ H i) as (r & Hr & _); [set_solver|].
  destruct (parse_ok _ _ _ _ (vi_req _ _ _ _ _ _ H i r Hr)) as (x & _ & Hp). eauto.
Qed.

(** ** A request moves to another stage *)

Definition stage (i : nat) (st : rstage) (G : gmap nat greq) : gmap nat greq := alter (set_st st) i G.

Lemma stage_inv i st G j r :
  stage i st G !! j = Some r -> exists r0, G !! j = Some r0 /\ r = (if decide (i = j) then set_st st r0 else r0) /\ chain j r = chain j r0 /\ g_b r = g_b r0 /\ g_w r = g_w r0.
Proof.
  unfold stage. destruct (decide (i = j)) as [<-|Hne].
  - rewrite lookup_alter_eq. intros (r0 & E & ->)%fmap_Some. by exists r0.
  - rewrite lookup_alter_ne by done. intros E. by exists r.
Qed.
Lemma stage_some i st G j r0 : G !! j = Some r0 -> exists r, stage i st G !! j = Some r /\ r = (if decide (i = j) then set_st st r0 else r0).
Proof.
  intros E. unfold stage. destruct (decide (i = j)) as [<-|Hne]; [rewrite lookup_alter_eq, E|rewrite lookup_alter_ne by done]; eauto.
Qed.

Lemma stage_disj i st G :
  (forall i j r r' k, G !! i = Some r -> G !! j = Some r' -> k ∈ chain i r -> k ∈ chain j r' -> i = j) ->
  forall j1 j2 r r' k, stage i st G !! j1 = Some r -> stage i st G !! j2 = Some r' -> k ∈ chain j1 r -> k ∈ chain j2 r' -> j1 = j2.
Proof.
  intros H j1 j2 r r' k (r1 & E1 & _ & C1 & _)%stage_inv (r2 & E2 & _ & C2 & _)%stage_inv. rewrite C1, C2. by eapply H.
Qed.
Lemma stage_chains i st G (P : list nat -> Prop) :
  (forall j r, stage i st G !! j = Some r -> P (chain j r)) <-> (forall j r, G !! j = Some r -> P (chain j r)).
Proof.
  split; intros H j r E.
  - destruct (stage_some i st G j r E) as (r' & E' & ->). specialize (H _ _ E'). by destruct (decide (i = j)).
  - destruct (stage_inv _ _ _ _ _ E) as (r0 & E0 & _ & -> & _). by apply H.
Qed.
Lemma stage_free i st G (fr : list bool) :
  (forall k b, fr !! k = Some b -> b = true <-> forall i r, G !! i = Some r -> k ∉ chain i r) ->
  forall k b, fr !! k = Some b -> b = true <-> forall j r, stage i st G !! j = Some r -> k ∉ chain j r.
Proof. intros H k b Hk. rewrite (stage_chains i st G (fun l => k ∉ l)). by apply H. Qed.
Lemma stage_ph i st G (ph : list (option (bool * vphase))) :
  (forall b w i, ph !! b = Some (Some (w, PhBuf i)) -> exists n r, i = Z.of_nat n /\ G !! n = Some r /\ g_b r = b /\ g_w r = w) ->
  forall b w j, ph !! b = Some (Some (w, PhBuf j)) -> exists n r, j = Z.of_nat n /\ stage i st G !! n = Some r /\ g_b r = b /\ g_w r = w.
Proof.
  intros H b w j Hj. destruct (H b w j Hj) as (n & r & -> & Hr & Hb & Hw). destruct (stage_some i st G n r Hr) as (r' & E' & ->).
  exists n. eexists. split; [done|]. split; [exact E'|]. by destruct (decide (i = n)).
Qed.
(** The queues do not list the request. *)
Lemma stage_other i st G (l : list nat) st' :
  (forall j, j ∈ l -> exists r, G !! j = Some r /\ g_st r = st') -> i ∉ l -> forall j, j ∈ l -> exists r, stage i st G !! j = Some r /\ g_st r = st'.
Proof.
  intros H Hi j Hj. destruct (H j Hj) as (r & Hr & Hst). destruct (stage_some i st G j r Hr) as (r' & E' & ->). eexists. split; [exact E'|].
  rewrite decide_False by set_solver. done.
Qed.
Lemma stage_abs i st G p r0 :
  G !! i = Some r0 -> performed st = performed (g_st r0) -> abs_op (stage i st G) p = abs_op G p.
Proof.
  intros E Hp. destruct p as [[w [|j]]|]; try done. cbn. f_equal. f_equal. unfold stage. destruct (decide (i = Z.to_nat j)) as [->|Hne].
  - by rewrite lookup_alter_eq, E.
  - by rewrite lookup_alter_ne.
Qed.
(** A request stays right when its stage and the status agree. *)
Lemma stage_req m ph i st G :
  (forall j r, G !! j = Some r -> req_ok m ph j r) -> (forall r, G !! i = Some r -> performed st = performed (g_st r) /\ in_device st = in_device (g_st r)) ->
  forall j r, stage i st G !! j = Some r -> req_ok m ph j r.
Proof.
  intros H Hst j r (r0 & E0 & -> & _)%stage_inv. pose proof (H _ _ E0) as []. destruct (decide (i = j)) as [->|]; [|by split].
  destruct (Hst _ E0) as [Hp Hd]. split; cbn; try done; by rewrite ?Hp, ?Hd.
Qed.

Lemma different_stage (G : gmap nat greq) (l : list nat) i st st' :
  (forall j, j ∈ l -> exists r, G !! j = Some r /\ g_st r = st) -> (exists r, G !! i = Some r /\ g_st r = st') -> st <> st' -> i ∉ l.
Proof. intros H (r & Hr & Hs) Hne Hi. destruct (H i Hi) as (r' & Hr' & Hs'). congruence. Qed.

Lemma device_take_ok s ph a G qs us d' i rq :
  vinv s ph a G qs us -> seen (view (v_dev s)) <> avail_idx (v_mem s) ->
  avail_ring (v_mem s) !! Z.to_nat (seen (view (v_dev s)) mod Z.of_nat NUM) = Some (Z.of_nat i) -> parse (v_mem s) i = Some rq ->
  view d' = mkDview (u16 (seen (view (v_dev s)) + 1)) (flight (view (v_dev s)) ++ [rq]) (platter (view (v_dev s))) ->
  exists qs', vinv (mkVst (v_free s) (v_used_idx s) (v_mem s) d' (v_woken s)) ph a (stage i Flying G) qs' us.
Proof.
  intros H Hne Hi Hparse Hd. pose proof H as []. destruct qs as [|i' qs]; [by destruct (proj2 (holds_empty _ _ _ _ vi_avail0))|].
  destruct (holds_pop _ _ _ _ _ vi_avail0) as [Hav Hi']. unfold qsize in Hi'. assert (i' = i) as -> by (rewrite Hi in Hi'; injection Hi'; lia).
  destruct (vi_qs0 i) as (r & Hr & Hst); [set_solver|]. destruct (parse_ok _ _ _ _ (vi_req0 i r Hr)) as (x & Hx & Hpx). rewrite Hparse in Hpx. injection Hpx as ->.
  apply NoDup_cons in vi_qs_nodup0 as [Hni Hnd].
  exists qs. split; cbn [v_free v_mem v_used_idx v_dev]; rewrite ?Hd; cbn [seen flight platter]; try done.
  - apply stage_req; [done|]. intros r' Hr'. assert (r' = r) as -> by congruence. by rewrite Hst.
  - by apply stage_disj.
  - by apply stage_free.
  - by apply stage_ph.
  - apply stage_other; [set_solver|done].
  - rewrite fmap_app. apply NoDup_app. split_and!; [done| |apply NoDup_singleton]. cbn. intros id Hid ->%list_elem_of_singleton.
    apply list_elem_of_fmap in Hid as (rq & Erq & Hrq). destruct (vi_fl0 rq Hrq) as (j & r' & x' & Hr' & Hst' & _ & ->). cbn in Erq. subst j. congruence.
  - intros rq [Hrq| ->%list_elem_of_singleton]%elem_of_app.
    + destruct (vi_fl0 rq Hrq) as (j & r' & x' & Hr' & Hst' & Hx' & ->). destruct (stage_some i Flying G j r' Hr') as (r2 & E2 & ->).
      exists j. eexists _, x'. split; [exact E2|]. destruct (decide (i = j)); by split_and!.
    + destruct (stage_some i Flying G i r Hr) as (r2 & E2 & ->). rewrite decide_True in E2 by done. exists i. eexists _, x. split; [exact E2|]. by split_and!.
  - apply stage_other; [done|]. eapply (different_stage G us); [done|eauto|done].
  - intros b x' p Hb Hp. rewrite (stage_abs _ _ _ _ r) by (done || by rewrite Hst). by apply vi_abs0.
Qed.

(** ** The device completes a request *)

Lemma req_buf m ph i r x : req_ok m ph i r -> vbufs m !! g_b r = Some x -> vb_disk x = in_device (g_st r).
Proof. intros [] Hx. destruct ro_buf0 as (y & Hy & Hd & _). congruence. Qed.

(** One buffer for each request. *)
Lemma same_buffer s ph a G qs us i j r r' : vinv s ph a G qs us -> G !! i = Some r -> G !! j = Some r' -> g_b r = g_b r' -> i = j.
Proof.
  intros [] Hr Hr' Hb. pose proof (ro_ph _ _ _ _ (vi_req0 _ _ Hr)) as H1. pose proof (ro_ph _ _ _ _ (vi_req0 _ _ Hr')) as H2. rewrite Hb in H1. rewrite H1 in H2.
  injection H2 as _ E. lia.
Qed.

(** The memory changes outside a request. *)
Lemma req_ok_mono m m' ph ph' i r :
  req_ok m ph i r -> desc m' = desc m -> ops m' = ops m -> info m' !! i = info m !! i -> ph' !! g_b r = ph !! g_b r ->
  (forall x, vbufs m !! g_b r = Some x -> exists x', vbufs m' !! g_b r = Some x' /\ vb_disk x' = vb_disk x /\ vb_blockno x' = vb_blockno x) -> req_ok m' ph' i r.
Proof.
  intros [] Hd Ho Hi Hp Hx. split; rewrite ?Hd, ?Ho, ?Hi, ?Hp; try done. destruct ro_buf0 as (x & E & E1 & E2). destruct (Hx x E) as (x' & E' & H1 & H2).
  exists x'. rewrite H1, H2. done.
Qed.

Lemma abs_op_stage_ne i st G p : (forall w, p <> Some (w, PhBuf (Z.of_nat i))) -> (forall w j, p = Some (w, PhBuf j) -> 0 <= j) -> abs_op (stage i st G) p = abs_op G p.
Proof.
  intros Hp Hj. destruct p as [[w [|j]]|]; try done. cbn. unfold stage. rewrite lookup_alter_ne; [done|]. intros ->. apply (Hp w). rewrite Z2Nat.id; [done|]. by eapply Hj.
Qed.

Section complete.
Context (s : vst D) (ph : list (option (bool * vphase))) (a : adisk) (G : gmap nat greq) (qs us : list nat).
Context (i : nat) (r : greq) (x x' : vbuf) (dk : list byte) (fl1 fl2 : list vreq) (d' : D).
Hypothesis H : vinv s ph a G qs us.
Hypothesis Hr : G !! i = Some r.
Hypothesis Hst : g_st r = Flying.
Hypothesis Hx : vbufs (v_mem s) !! g_b r = Some x.
Hypothesis Hx' : vb_disk x' = vb_disk x /\ vb_blockno x' = vb_blockno x /\ length (vb_data x') = Z.to_nat BSIZE.
Hypothesis Hdk : length dk = length (a_disk a).
Hypothesis Hfl : flight (view (v_dev s)) = fl1 ++ req_of i r (vb_blockno x) :: fl2.
Hypothesis Hd' : view d' = mkDview (seen (view (v_dev s))) (fl1 ++ fl2) dk.

Let m' : vmem := complete (req_of i r (vb_blockno x)) 0 (upd_vbufs (fun l => <[g_b r := x']> l) (v_mem s)).

Lemma bufs_after b y : vbufs m' !! b = Some y -> exists y0, vbufs (v_mem s) !! b = Some y0 /\ vb_disk y = vb_disk y0 /\ vb_blockno y = vb_blockno y0 /\ (b = g_b r -> y = x') /\ (b <> g_b r -> y = y0).
Proof using Hx Hx'.
  cbn. intros E. destruct (decide (g_b r = b)) as [<-|Hne].
  - rewrite list_lookup_insert_eq in E by (by eapply lookup_lt_Some). injection E as <-. exists x. destruct Hx' as (-> & -> & _). done.
  - rewrite list_lookup_insert_ne in E by done. by exists y.
Qed.
Lemma bufs_before b y0 : vbufs (v_mem s) !! b = Some y0 -> exists y, vbufs m' !! b = Some y /\ vb_disk y = vb_disk y0 /\ vb_blockno y = vb_blockno y0.
Proof using Hx Hx'.
  intros E. destruct (decide (g_b r = b)) as [<-|Hne].
  - exists x'. cbn. rewrite list_lookup_insert_eq by (by eapply lookup_lt_Some). assert (y0 = x) as -> by congruence. destruct Hx' as (-> & -> & _). done.
  - exists y0. cbn. by rewrite list_lookup_insert_ne.
Qed.

Lemma complete_ok :
  vinv (mkVst (v_free s) (v_used_idx s) m' d' (v_woken s)) ph (mkAdisk dk (<[g_b r := mkAbuf (vb_blockno x) (vb_data x') (Some (g_w r, true))]> (a_bufs a)))
    (stage i Used G) qs (us ++ [i]).
Proof using H Hr Hst Hx Hx' Hdk Hfl Hd'.
  pose proof H as []. assert (i ∉ us) as Hius by (eapply (different_stage G us); [done|by eauto|done]).
  assert (i ∉ qs) as Hiqs by (eapply (different_stage G qs); [done|by eauto|done]).
  assert (i < NUM)%nat as Hi by (pose proof (ro_lt _ _ _ _ (vi_req0 _ _ Hr)) as Hlt; by apply Forall_inv in Hlt).
  pose proof vi_fl_nodup0 as Hnd. rewrite Hfl, fmap_app in Hnd. cbn in Hnd. apply NoDup_app in Hnd as (Hnd1 & Hnd12 & [Hnd2 Hnd3]%NoDup_cons).
  split; cbn [v_free v_mem v_used_idx v_dev a_disk a_bufs]; rewrite ?Hd'; cbn [seen flight platter]; try done.
  - cbn. by rewrite length_alter.
  - cbn. by rewrite length_insert.
  - intros j r' (r0 & E0 & -> & _)%stage_inv. destruct (decide (i = j)) as [<-|Hne].
    + assert (r0 = r) as -> by congruence. pose proof (vi_req0 _ _ Hr) as []. split; try done.
      * destruct ro_buf0 as (y & Hy & Hy1 & Hy2). destruct (bufs_before _ _ Hy) as (y' & E1 & E2 & E3). exists y'. split; [exact E1|]. rewrite E2, E3, Hy1, Hst. done.
      * cbn. rewrite list_lookup_alter_eq, ro_info0. done.
    + eapply req_ok_mono; [by apply vi_req0|done|done| |done|intros y Hy; by apply bufs_before]. cbn. by rewrite list_lookup_alter_ne.
  - by apply stage_disj.
  - by apply stage_free.
  - by apply stage_ph.
  - intros b y p Hy Hp Hw. destruct (bufs_after _ _ Hy) as (y0 & E0 & -> & _). by eapply vi_idle0.
  - by apply stage_other.
  - rewrite fmap_app. apply NoDup_app. split_and!; [done| |done]. set_solver.
  - intros rq Hrq. assert (rq ∈ flight (view (v_dev s))) as Hin by (rewrite Hfl; set_solver). destruct (vi_fl0 rq Hin) as (j & r' & y & Hr' & Hst' & Hy & ->).
    assert (i <> j) as Hne.
    { intros <-. apply elem_of_app in Hrq as [Hrq|Hrq]; apply (list_elem_of_fmap_2 vr_id) in Hrq; cbn in Hrq; [|done]. by apply (Hnd12 i); [done|left]. }
    destruct (stage_some i Used G j r' Hr') as (r2 & E2 & ->). rewrite decide_False in E2 by done. destruct (bufs_before _ _ Hy) as (y' & E1 & _ & E3).
    exists j, r', y'. rewrite E3. done.
  - apply holds_push; [done|]. eapply holds_room; [done|done| |exact Hius|done]. intros k Hk. destruct (vi_us0 k Hk) as (rk & Hrk & _).
    pose proof (ro_lt _ _ _ _ (vi_req0 _ _ Hrk)) as Hlt. by apply Forall_inv in Hlt.
  - apply NoDup_app. split_and!; [done|set_solver|apply NoDup_singleton].
  - intros j [Hj| ->%list_elem_of_singleton]%elem_of_app; [by apply (stage_other i Used G us)|]. destruct (stage_some i Used G i r Hr) as (r2 & E2 & ->).
    rewrite decide_True in E2 by done. eauto.
  - intros b y Hy. destruct (bufs_after _ _ Hy) as (y0 & E0 & _ & E2 & E3 & E4). destruct (vi_bufs0 _ _ E0) as [[Hb1 Hb2] Hlen]. unfold block_ok. rewrite E2, Hdk. split; [done|].
    destruct (decide (b = g_b r)) as [Eb|Eb]; [rewrite (E3 Eb); by destruct Hx' as (_ & _ & ?)|by rewrite (E4 Eb)].
  - rewrite length_insert. cbn. by rewrite length_insert.
  - intros b y p Hy Hp. destruct (bufs_after _ _ Hy) as (y0 & E0 & _ & E2 & E3 & E4). destruct (decide (b = g_b r)) as [->|Eb].
    + rewrite (E3 eq_refl). rewrite (ro_ph _ _ _ _ (vi_req0 _ _ Hr)) in Hp. injection Hp as <-. rewrite list_lookup_insert_eq by (rewrite vi_abs_len0; by eapply lookup_lt_Some).
      cbn. rewrite Nat2Z.id. destruct (stage_some i Used G i r Hr) as (r2 & -> & ->). rewrite decide_True by done. cbn. by destruct Hx' as (_ & -> & _).
    + rewrite list_lookup_insert_ne by done. rewrite (E4 Eb). rewrite (vi_abs0 _ _ _ E0 Hp). rewrite abs_op_stage_ne; [done|..].
      * intros w ->. destruct (vi_ph0 _ _ _ Hp) as (n & rn & En & Hrn & Hbn & _). assert (n = i) as -> by lia. congruence.
      * intros w j ->. destruct (vi_ph0 _ _ _ Hp) as (n & rn & En & _). lia.
Qed.
End complete.

(** Neither the device's registers nor the wakeups matter. *)
Lemma vinv_view s s' ph a G qs us :
  vinv s ph a G qs us -> v_free s' = v_free s -> v_used_idx s' = v_used_idx s -> v_mem s' = v_mem s -> view (v_dev s') = view (v_dev s) -> vinv s' ph a G qs us.
Proof. intros [] H1 H2 H3 H4. split; rewrite ?H1, ?H2, ?H3, ?H4; done. Qed.

Lemma device_ok s ph a G qs us e m' d' :
  vinv s ph a G qs us -> device_does (v_mem s) (view (v_dev s)) e m' (view d') ->
  exists a' G' qs' us', astep a e a' /\ vinv (mkVst (v_free s) (v_used_idx s) m' d' (v_woken s)) ph a' G' qs' us'.
Proof.
  intros H Hdev. remember (view d') as dv eqn:Edv. destruct Hdev as [|i rq Hne Hi Hp|rq fl1 fl2 m1 dk Hfl Htr|rq fl1 fl2 Hfl Htr].
  - exists a, G, qs, us. split; [constructor|]. by eapply vinv_view.
  - destruct (device_take_ok s ph a G qs us d' i rq H Hne Hi Hp (eq_sym Edv)) as [qs' H']. exists a, (stage i Flying G), qs', us. split; [constructor|done].
  - destruct (vi_fl _ _ _ _ _ _ H rq) as (i & r & x & Hr & Hst & Hx & ->); [rewrite Hfl; set_solver|].
    destruct (vi_bufs _ _ _ _ _ _ H _ _ Hx) as [[Hb1 Hb2] Hlen]. pose proof (ro_ph _ _ _ _ (vi_req _ _ _ _ _ _ H _ _ Hr)) as Hph.
    pose proof (vi_abs _ _ _ _ _ _ H _ _ _ Hx Hph) as Ha. cbn in Ha. rewrite Nat2Z.id, Hr, Hst in Ha. cbn in Ha.
    unfold transfer in Htr. cbn [vr_buf vr_sector vr_len vr_write req_of] in Htr. rewrite Hx in Htr. cbn [mbind option_bind] in Htr.
    replace (vb_blockno x * 2 * 512) with (vb_blockno x * BSIZE) in Htr by (unfold BSIZE; lia).
    destruct (_ <=? _)%nat eqn:Ele in Htr; [|done]. apply Nat.leb_le in Ele. rewrite <- (vi_disk _ _ _ _ _ _ H) in *. destruct a as [dk0 bs]. cbn [a_disk a_bufs] in *.
    destruct (g_w r) eqn:Hw; injection Htr as <- <-.
    + eexists _, _, _, _. split; [by eapply as_write|]. cbn [ab_blockno ab_data].
      pose proof (complete_ok s ph _ G qs us i r x x (splice dk0 (Z.to_nat (vb_blockno x * BSIZE)) (vb_data x)) fl1 fl2 d' H Hr Hst Hx ltac:(done)) as Hc.
      cbn [a_disk a_bufs] in Hc. rewrite Hw in Hc. rewrite take_ge in Edv by lia. specialize (Hc ltac:(rewrite length_splice; lia) Hfl (eq_sym Edv)).
      assert (upd_vbufs (fun l => <[g_b r := x]> l) (v_mem s) = v_mem s) as Eid by (unfold upd_vbufs; rewrite list_insert_id by done; by destruct (v_mem s)).
      rewrite Eid in Hc. exact Hc.
    + eexists _, _, _, _. split; [by eapply as_read|]. cbn [ab_blockno ab_data].
      set (bs' := slice (Z.to_nat (vb_blockno x * BSIZE)) (Z.to_nat BSIZE) dk0) in *.
      pose proof (complete_ok s ph _ G qs us i r x (set_data bs' x) dk0 fl1 fl2 d' H Hr Hst Hx) as Hc. cbn [a_disk a_bufs] in Hc. rewrite Hw in Hc.
      specialize (Hc ltac:(split_and!; [done..|cbn [vb_data set_data]; unfold bs'; rewrite length_slice by lia; done]) eq_refl Hfl (eq_sym Edv)).
      assert (alter (set_data bs') (g_b r) (vbufs (v_mem s)) = <[g_b r := set_data bs' x]> (vbufs (v_mem s))) as Eal by (by apply alter_insert).
      unfold upd_vbufs in Hc |- *. rewrite Eal. exact Hc.
  - destruct (vi_fl _ _ _ _ _ _ H rq) as (i & r & x & Hr & Hst & Hx & ->); [rewrite Hfl; set_solver|].
    destruct (vi_bufs _ _ _ _ _ _ H _ _ Hx) as [[Hb1 Hb2] Hlen]. unfold transfer in Htr. cbn [vr_buf vr_sector vr_len vr_write req_of] in Htr. rewrite Hx in Htr.
    cbn [mbind option_bind] in Htr. replace (vb_blockno x * 2 * 512) with (vb_blockno x * BSIZE) in Htr by (unfold BSIZE; lia).
    rewrite <- (vi_disk _ _ _ _ _ _ H), (proj2 (Nat.leb_le _ _)) in Htr by done. by destruct (g_w r).
Qed.

(** ** The interrupt handler *)

Definition clear_disk (x : vbuf) : vbuf := mkVbuf (vb_blockno x) false (vb_data x).

Lemma process_ok s ph a G qs us i r wk :
  vinv s ph a G qs (i :: us) -> G !! i = Some r ->
  vinv (mkVst (v_free s) (u16 (v_used_idx s + 1)) (upd_vbufs (alter clear_disk (g_b r)) (v_mem s)) (v_dev s) wk) ph a (stage i Processed G) qs us.
Proof.
  intros H Hr. pose proof H as []. apply NoDup_cons in vi_us_nodup0 as [Hius Hnd].
  assert (g_st r = Used) as Hst by (destruct (vi_us0 i) as (r' & Hr' & ?); [set_solver|congruence]).
  assert (i ∉ qs) as Hiqs by (eapply (different_stage G qs); [done|by eauto|done]).
  assert (forall b y, alter clear_disk (g_b r) (vbufs (v_mem s)) !! b = Some y -> exists y0, vbufs (v_mem s) !! b = Some y0 /\
    vb_blockno y = vb_blockno y0 /\ vb_data y = vb_data y0 /\ (b <> g_b r -> y = y0) /\ (b = g_b r -> vb_disk y = false)) as Hafter.
  { intros b y E. destruct (decide (g_b r = b)) as [<-|Hne].
    - rewrite list_lookup_alter_eq in E. apply fmap_Some in E as (y0 & E0 & ->). by exists y0.
    - rewrite list_lookup_alter_ne in E by done. exists y. by split_and!. }
  assert (forall b y0, vbufs (v_mem s) !! b = Some y0 -> exists y, alter clear_disk (g_b r) (vbufs (v_mem s)) !! b = Some y /\
    vb_blockno y = vb_blockno y0 /\ (b <> g_b r -> y = y0) /\ (b = g_b r -> vb_disk y = false)) as Hbefore.
  { intros b y0 E. destruct (decide (g_b r = b)) as [<-|Hne].
    - exists (clear_disk y0). by rewrite list_lookup_alter_eq, E.
    - exists y0. by rewrite list_lookup_alter_ne. }
  split; cbn [v_free v_mem v_used_idx v_dev upd_vbufs desc ops info avail_ring avail_idx used_ring used_idx' vbufs]; try done.
  - by rewrite length_alter.
  - intros j r' (r0 & E0 & -> & _)%stage_inv. destruct (decide (i = j)) as [<-|Hne].
    + assert (r0 = r) as -> by congruence. pose proof (vi_req0 _ _ Hr) as []. split; try done; [|by rewrite Hst in ro_info0]. destruct ro_buf0 as (y & Hy & _ & Hy2).
      destruct (Hbefore _ _ Hy) as (y' & E1 & E2 & _ & E4). exists y'. rewrite E2. split_and!; [done|by rewrite E4|done].
    + assert (g_b r0 <> g_b r) as Hb by (intros Hb; apply Hne; symmetry; by eapply same_buffer).
      eapply req_ok_mono; [by apply vi_req0|done|done|done|done|]. intros y Hy. destruct (Hbefore _ _ Hy) as (y' & E1 & _ & E3 & _). exists y'. by rewrite E3 in *.
  - by apply stage_disj.
  - by apply stage_free.
  - by apply stage_ph.
  - intros b y p Hy Hp Hw. destruct (Hafter _ _ Hy) as (y0 & E0 & _ & _ & E3 & E4). destruct (decide (b = g_b r)) as [Eb|Eb]; [by apply E4|]. rewrite (E3 Eb). by eapply vi_idle0.
  - by apply stage_other.
  - intros rq Hrq. destruct (vi_fl0 rq Hrq) as (j & r' & y & Hr' & Hst' & Hy & ->). destruct (stage_some i Processed G j r' Hr') as (r2 & E2 & ->).
    rewrite decide_False in E2 by congruence. destruct (Hbefore _ _ Hy) as (y' & E1 & E3 & _). exists j, r', y'. by rewrite E3.
  - by destruct (holds_pop _ _ _ _ _ vi_used0).
  - apply stage_other; [set_solver|done].
  - intros b y Hy. destruct (Hafter _ _ Hy) as (y0 & E0 & -> & -> & _). by apply (vi_bufs0 b).
  - by rewrite length_alter.
  - intros b y p Hy Hp. destruct (Hafter _ _ Hy) as (y0 & E0 & -> & -> & _). rewrite (stage_abs _ _ _ _ r) by (done || by rewrite Hst). by apply vi_abs0.
Qed.

Lemma intr_loop_ok n s ph a G qs us :
  vinv s ph a G qs us -> (length us <= n)%nat -> exists s' G', intr_loop n s = Ok tt s' /\ vinv s' ph a G' qs [].
Proof.
  revert s G us. induction n as [|n IH]; intros s G us H Hn; cbn [intr_loop]; run1; pose proof (holds_empty _ _ _ _ (vi_used _ _ _ _ _ _ H)) as He.
  { destruct us; [|cbn in Hn; lia]. rewrite (proj2 (Z.eqb_eq _ _)) by (by apply He). by exists s, G. }
  destruct us as [|i us]; [rewrite (proj2 (Z.eqb_eq _ _)) by (by apply He); by exists s, G|].
  rewrite (proj2 (Z.eqb_neq _ _)) by (intros E; by apply He in E).
  destruct (holds_pop _ _ _ _ _ (vi_used _ _ _ _ _ _ H)) as [_ Hid]. unfold qsize in Hid. rewrite Hid. run1. rewrite Nat2Z.id.
  destruct (vi_us _ _ _ _ _ _ H i) as (r & Hr & Hst); [set_solver|]. pose proof (ro_info _ _ _ _ (vi_req _ _ _ _ _ _ H _ _ Hr)) as Hinfo. rewrite Hst in Hinfo. cbn in Hinfo.
  rewrite Hinfo. run1. cbn [i_status i_b Z.eqb negb]. run1. run1. run1. run1.
  destruct (IH _ _ us (process_ok s ph a G qs us i r (v_woken s ++ [ch_buf (g_b r)]) H Hr)) as (s' & G' & E' & H'); [cbn in Hn; lia|]. exists s', G'. done.
Qed.

Lemma intr_ok s ph a G qs us :
  vinv s ph a G qs us -> exists s' G', virtio_disk_intr s = Ok tt s' /\ vinv s' ph a G' qs [].
Proof.
  intros H. unfold virtio_disk_intr. destruct (read_ok (v_dev s)) as (v & d1 & E1 & V1).
  assert (R (R_read VIRTIO_MMIO_INTERRUPT_STATUS) s = Ok v (mkVst (v_free s) (v_used_idx s) (v_mem s) d1 (v_woken s))) as F1 by (unfold R, zoom; by rewrite E1).
  run F1. set (s1 := mkVst _ _ _ d1 _). destruct (ack_ok d1 (Z.land v 0x3)) as (d2 & E2 & V2).
  assert (R (R_write VIRTIO_MMIO_INTERRUPT_ACK (Z.land v 0x3)) s1 = Ok tt (mkVst (v_free s) (v_used_idx s) (v_mem s) d2 (v_woken s))) as F2 by (unfold R, zoom; cbn; by rewrite E2).
  run F2. set (s2 := mkVst _ _ _ d2 _). run1. assert (vinv s2 ph a G qs us) as H2 by (eapply vinv_view; [exact H|done..|cbn; congruence]).
  eapply intr_loop_ok; [exact H2|]. cbn. rewrite (holds_count _ _ _ _ (vi_used _ _ _ _ _ _ H)). lia.
Qed.

(** ** Descriptors given back and taken *)

Definition set_all {A} (y : A) (ks : list nat) (l : list A) : list A := foldl (fun l k => <[k := y]> l) l ks.

Lemma set_all_len {A} (y : A) ks l : length (set_all y ks l) = length l.
Proof. revert l. induction ks as [|k ks IH]; intros l; [done|]. cbn. unfold set_all in IH. by rewrite IH, length_insert. Qed.
Lemma set_all_out {A} (y : A) ks l k : k ∉ ks -> set_all y ks l !! k = l !! k.
Proof. revert l. induction ks as [|j ks IH]; intros l Hk; [done|]. cbn. unfold set_all in IH. rewrite IH by set_solver. apply list_lookup_insert_ne. set_solver. Qed.
Lemma set_all_in {A} (y : A) ks l k : k ∈ ks -> (k < length l)%nat -> set_all y ks l !! k = Some y.
Proof.
  revert l. induction ks as [|j ks IH]; intros l Hk Hl; [by apply elem_of_nil in Hk|]. cbn. fold (set_all y ks (<[j := y]> l)). destruct (decide (k ∈ ks)) as [Hin|Hout].
  - apply IH; [done|by rewrite length_insert].
  - rewrite set_all_out by done. apply elem_of_cons in Hk as [->|]; [|done]. by apply list_lookup_insert_eq.
Qed.

(** [free_desc] on descriptors in use. *)
Definition freed (ks : list nat) (s : vst D) : vst D :=
  mkVst (set_all true ks (v_free s)) (v_used_idx s) (upd_desc (set_all desc0 ks) (v_mem s)) (v_dev s) (v_woken s ++ replicate (length ks) ch_free).

Lemma free_desc_ok s k : (k < NUM)%nat -> v_free s !! k = Some false -> free_desc (Z.of_nat k) s = Ok tt (freed [k] s).
Proof.
  intros Hk Hf. unfold free_desc. rewrite (proj2 (Z.leb_gt _ _)) by lia. run1. rewrite Nat2Z.id, Hf. reflexivity.
Qed.

Lemma freed_app js ks s : freed ks (freed js s) = freed (js ++ ks) s.
Proof. unfold freed, upd_desc, set_all. cbn. by rewrite <- app_assoc, length_app, replicate_add, !foldl_app. Qed.
Lemma freed_nil s : freed [] s = s.
Proof. destruct s as [f u [] d w]. unfold freed. cbn. unfold upd_desc. cbn. by rewrite app_nil_r. Qed.

Lemma free_chain_ok s m ph i r n :
  req_ok m ph i r -> desc (v_mem s) = desc m -> (forall k, k ∈ chain i r -> v_free s !! k = Some false) -> (3 <= n)%nat ->
  free_chain n (Z.of_nat i) s = Ok tt (freed (chain i r) s).
Proof.
  intros [] Hm Hf Hn. rewrite <- Hm in *. destruct n as [|[|[|n]]]; [lia..|]. assert (Forall (fun k => (k < NUM)%nat) (chain i r)) as Hlt by done.
  apply Forall_cons in Hlt as [Hl0 [Hl1 [Hl2 _]%Forall_cons]%Forall_cons].
  apply NoDup_cons in ro_nodup0 as [Hn0 [Hn1 _]%NoDup_cons].
  unfold chain in *. cbn [free_chain]. run1. rewrite Nat2Z.id, ro_d3. run1. run (free_desc_ok s i Hl0 (Hf i ltac:(set_solver))). cbn [d_flags d_next].
  change (negb (Z.land VRING_DESC_F_NEXT VRING_DESC_F_NEXT =? 0)) with true. cbv iota.
  run1. rewrite Nat2Z.id. cbn [freed v_mem upd_desc desc]. rewrite set_all_out, ro_d4 by set_solver. run1.
  assert (v_free (freed [i] s) !! g_i1 r = Some false) as F1 by (cbn [freed v_free]; rewrite set_all_out by set_solver; apply Hf; set_solver).
  run (free_desc_ok _ _ Hl1 F1). rewrite freed_app. cbn [d_flags d_next app].
  replace (negb (Z.land (Z.lor (if g_w r then 0 else VRING_DESC_F_WRITE) VRING_DESC_F_NEXT) VRING_DESC_F_NEXT =? 0)) with true by (by destruct (g_w r)).
  run1. rewrite Nat2Z.id. cbn [freed v_mem upd_desc desc]. rewrite set_all_out, ro_d5 by set_solver. run1.
  assert (v_free (freed [i; g_i1 r] s) !! g_i2 r = Some false) as F2 by (cbn [freed v_free]; rewrite set_all_out by set_solver; apply Hf; set_solver).
  run (free_desc_ok _ _ Hl2 F2). by rewrite freed_app.
Qed.

(** ** A transfer returns *)

Definition forget (i : nat) (s : vst D) : vst D := with_mem (upd_info (alter (fun x => mkInfo None (i_status x)) i)) s.

Lemma abs_op_ext G G' p : (forall w j, p = Some (w, PhBuf j) -> G' !! Z.to_nat j = G !! Z.to_nat j) -> abs_op G' p = abs_op G p.
Proof. intros H. destruct p as [[w [|j]]|]; try done. cbn. by rewrite (H w j). Qed.

(** Another request's buffer. *)
Lemma other_buffer s ph a G qs us i j r r' : vinv s ph a G qs us -> G !! i = Some r -> G !! j = Some r' -> i <> j -> g_b r <> g_b r'.
Proof. intros H Hr Hr' Hne Hb. apply Hne. by eapply same_buffer. Qed.

Lemma free_request_ok s ph a G qs us i r y :
  vinv s ph a G qs us -> G !! i = Some r -> g_st r = Processed -> a_bufs a !! g_b r = Some y ->
  vinv (freed (chain i r) (forget i s)) (<[g_b r := None]> ph) (mkAdisk (a_disk a) (<[g_b r := mkAbuf (ab_blockno y) (ab_data y) None]> (a_bufs a))) (delete i G) qs us.
Proof.
  intros H Hr Hst Hy. pose proof H as []. pose proof (vi_req0 _ _ Hr) as Hrok.
  assert (forall j r', delete i G !! j = Some r' -> G !! j = Some r' /\ j <> i) as Hdel by (intros j r' [? ?]%lookup_delete_Some; done).
  assert (forall j r' k, G !! j = Some r' -> j <> i -> k ∈ chain j r' -> k ∉ chain i r) as Hdisj by (intros j r' k Hj Hne Hk Hk'; apply Hne; by eapply vi_disj0).
  assert (forall (l : list nat) st, st <> Processed -> (forall j, j ∈ l -> exists r, G !! j = Some r /\ g_st r = st) ->
            forall j, j ∈ l -> exists r, delete i G !! j = Some r /\ g_st r = st) as Hlist.
  { intros l st Hne Hl j Hj. destruct (Hl j Hj) as (r' & Hr' & Hst'). exists r'. split; [|done]. apply lookup_delete_Some. split; [congruence|done]. }
  split; cbn [freed forget with_mem v_free v_mem v_used_idx v_dev upd_desc upd_info desc ops info avail_ring avail_idx used_ring used_idx' vbufs a_disk a_bufs];
    rewrite ?set_all_len, ?length_alter, ?length_insert; try done.
  - intros j r' [Hj Hne]%Hdel. pose proof (vi_req0 _ _ Hj) as []. assert (forall k, k ∈ chain j r' -> set_all desc0 (chain i r) (desc (v_mem s)) !! k = desc (v_mem s) !! k) as Hd.
    { intros k Hk. apply set_all_out. by eapply Hdisj. }
    split; cbn [upd_desc upd_info desc ops info vbufs]; try done.
    + rewrite Hd by set_solver. done.
    + rewrite Hd by set_solver. done.
    + rewrite Hd by set_solver. done.
    + rewrite list_lookup_alter_ne by done. done.
    + rewrite list_lookup_insert_ne by (by eapply other_buffer). done.
  - intros j1 j2 r1 r2 k [H1 _]%Hdel [H2 _]%Hdel. by eapply vi_disj0.
  - intros k b Hb. destruct (decide (k ∈ chain i r)) as [Hk|Hk].
    + rewrite set_all_in in Hb; [|done|]. 2:{ rewrite vi_free_len0. pose proof (ro_lt _ _ _ _ Hrok) as Hlt. rewrite Forall_forall in Hlt. by apply Hlt. }
      injection Hb as <-. split; [|done]. intros _ j r' [Hj Hne]%Hdel Hkj. by eapply Hdisj.
    + rewrite set_all_out in Hb by done. rewrite (vi_free0 k b Hb). split; intros Hall j r' Hj.
      * apply Hdel in Hj as [Hj _]. by eapply Hall.
      * destruct (decide (j = i)) as [->|Hne]; [congruence|]. apply (Hall j). by rewrite lookup_delete_ne.
  - intros b w j Hb. destruct (decide (g_b r = b)) as [<-|Hne].
    + rewrite list_lookup_insert_eq in Hb; [done|]. rewrite vi_ph_len0. destruct (ro_buf _ _ _ _ Hrok) as (x & Hx & _). by eapply lookup_lt_Some.
    + rewrite list_lookup_insert_ne in Hb by done. destruct (vi_ph0 _ _ _ Hb) as (n & r' & -> & Hr' & Hb' & Hw'). exists n, r'. split_and!; try done.
      rewrite lookup_delete_ne; [done|]. congruence.
  - intros b x p Hx Hp Hw. destruct (decide (g_b r = b)) as [<-|Hne].
    + rewrite (req_buf _ _ _ _ _ Hrok Hx), Hst. done.
    + rewrite list_lookup_insert_ne in Hp by done. by eapply vi_idle0.
  - by apply Hlist.
  - intros rq Hrq. destruct (vi_fl0 rq Hrq) as (j & r' & x & Hr' & Hst' & Hx & ->). exists j, r', x. split_and!; try done. rewrite lookup_delete_ne; [done|]. congruence.
  - by apply Hlist.
  - intros b x p Hx Hp. destruct (decide (g_b r = b)) as [<-|Hne].
    + rewrite list_lookup_insert_eq in Hp by (rewrite vi_ph_len0; by eapply lookup_lt_Some). injection Hp as <-. rewrite list_lookup_insert_eq by (by eapply lookup_lt_Some).
      rewrite (vi_abs0 _ _ _ Hx (ro_ph _ _ _ _ Hrok)) in Hy. injection Hy as <-. done.
    + rewrite list_lookup_insert_ne in Hp by done. rewrite list_lookup_insert_ne by done. rewrite (vi_abs0 _ _ _ Hx Hp). do 2 f_equal. symmetry. apply abs_op_ext.
      intros w j ->. destruct (vi_ph0 _ _ _ Hp) as (n & r' & -> & Hr' & Hb' & _). rewrite Nat2Z.id. apply lookup_delete_ne. congruence.
Qed.

Lemma rw_wait_ok s ph a G qs us b w i :
  vinv s ph a G qs us -> ph !! b = Some (Some (w, PhBuf i)) ->
  (rw_wait b i s = Ok (RwSleepBuf i) s) \/
  (exists s' a' G', rw_wait b i s = Ok RwDone s' /\ astep a (LReturn b) a' /\ vinv s' (<[b := None]> ph) a' G' qs us).
Proof.
  intros H Hph. pose proof H as []. destruct (vi_ph0 _ _ _ Hph) as (n & r & -> & Hr & <- & <-). pose proof (vi_req0 _ _ Hr) as Hrok.
  destruct (ro_buf _ _ _ _ Hrok) as (x & Hx & Hd & _). pose proof (vi_abs0 _ _ _ Hx Hph) as Hy. cbn in Hy. rewrite Nat2Z.id, Hr in Hy.
  assert (forall k, k ∈ chain n r -> v_free (forget n s) !! k = Some false) as Hf.
  { intros k Hk. cbn. pose proof (ro_lt _ _ _ _ Hrok) as Hlt. rewrite Forall_forall in Hlt. destruct (lookup_lt_is_Some_2 (v_free s) k) as [f Hf]; [rewrite vi_free_len0; by apply Hlt|].
    rewrite Hf. destruct f; [|done]. by destruct (proj1 (vi_free0 k true Hf) eq_refl n r Hr). }
  pose proof (free_chain_ok (forget n s) (v_mem s) ph n r (S NUM) Hrok eq_refl Hf ltac:(unfold NUM; lia)) as Efree.
  unfold rw_wait, bind. cbn [gets]. rewrite Hx. cbn [from_opt ret]. rewrite Hd. destruct (g_st r) eqn:Hst; cbn [in_device]; [by left..|]. right. rewrite Nat2Z.id.
  change (memory (upd_info (alter (fun x => mkInfo None (i_status x)) n)) s) with (@Ok (vst D) unit tt (forget n s)). cbv iota. rewrite Efree.
  destruct a as [dk bs]. eexists _, _, _. split; [reflexivity|]. split; [by eapply as_return|]. exact (free_request_ok s ph _ G qs us n r _ H Hr Hst Hy).
Qed.

(** ** Allocation *)

Definition taken (ks : list nat) (s : vst D) : vst D := mkVst (set_all false ks (v_free s)) (v_used_idx s) (v_mem s) (v_dev s) (v_woken s).

Lemma taken_app js ks s : taken ks (taken js s) = taken (js ++ ks) s.
Proof. unfold taken, set_all. cbn. by rewrite foldl_app. Qed.
Lemma taken_nil s : taken [] s = s.
Proof. by destruct s. Qed.

Lemma alloc_desc_ok s :
  length (v_free s) = NUM ->
  (exists k, (k < NUM)%nat /\ v_free s !! k = Some true /\ alloc_desc s = Ok (Z.of_nat k) (taken [k] s)) \/ alloc_desc s = Ok (-1) s.
Proof.
  intros Hlen. unfold alloc_desc. assert (forall l, (forall k, k ∈ l -> (k < NUM)%nat) -> let body := (fun i => f <- gets v_free;; b <- from_opt (f !! i);; if b : bool then set_free i false;;; ret (Some (Z.of_nat i)) else ret None) in
    (exists k, (k < NUM)%nat /\ v_free s !! k = Some true /\ for_until l body s = Ok (Some (Z.of_nat k)) (taken [k] s)) \/ for_until l body s = Ok None s) as Hl.
  { induction l as [|k l IH]; intros Hk body; [by right|]. destruct (lookup_lt_is_Some_2 (v_free s) k) as [b Hb]; [rewrite Hlen; apply Hk; set_solver|].
    assert (body k s = if b then Ok (Some (Z.of_nat k)) (taken [k] s) else Ok None s) as E.
    { unfold body. run1. rewrite Hb. run1. by destruct b. }
    cbn [for_until]. destruct b.
    - left. exists k. split; [apply Hk; set_solver|]. split; [done|]. by run E.
    - run E. apply IH. intros j Hj. apply Hk. set_solver. }
  destruct (Hl (seq 0 NUM)) as [(k & Hk & Hf & E)|E]; [intros k Hk%elem_of_seq; lia| |].
  - left. exists k. split; [done|]. split; [done|]. by run E.
  - right. by run E.
Qed.

Lemma free_all_ok s ks :
  NoDup ks -> (forall k, k ∈ ks -> (k < NUM)%nat /\ v_free s !! k = Some false) -> for_each (Z.of_nat <$> ks) free_desc s = Ok tt (freed ks s).
Proof.
  revert s. induction ks as [|k ks IH]; intros s Hnd Hk; [by rewrite freed_nil|]. apply NoDup_cons in Hnd as [Hn Hnd]. cbn [fmap list_fmap for_each].
  destruct (Hk k) as [Hlt Hf]; [set_solver|]. run (free_desc_ok s k Hlt Hf). rewrite IH, freed_app; [done|done|]. intros j Hj. destruct (Hk j) as [Hlt' Hf']; [set_solver|].
  split; [done|]. cbn [freed v_free]. rewrite set_all_out by set_solver. done.
Qed.

(** Descriptors that were free, distinct, and are now taken. *)
Definition fresh (ks : list nat) (s : vst D) : Prop := NoDup ks /\ forall k, k ∈ ks -> (k < NUM)%nat /\ v_free s !! k = Some true.

Lemma alloc3_loop_ok n js s :
  length (v_free s) = NUM -> fresh js s ->
  (exists ks, length ks = n /\ fresh (js ++ ks) s /\ alloc3_loop n (Z.of_nat <$> js) (taken js s) = Ok (Some (Z.of_nat <$> (js ++ ks))) (taken (js ++ ks) s)) \/
  (exists ks, fresh ks s /\ alloc3_loop n (Z.of_nat <$> js) (taken js s) = Ok None (freed ks (taken ks s))).
Proof.
  revert js. induction n as [|n IH]; intros js Hlen Hjs.
  { left. exists []. rewrite app_nil_r. done. }
  cbn [alloc3_loop]. destruct (alloc_desc_ok (taken js s)) as [(k & Hk & Hf & E)|E]; [cbn; by rewrite set_all_len| |].
  - run E. rewrite (proj2 (Z.ltb_ge _ _)) by lia. rewrite taken_app. assert (k ∉ js) as Hkj.
    { intros Hin. cbn in Hf. rewrite set_all_in in Hf; [done|done|]. rewrite Hlen. by apply Hjs. }
    cbn in Hf. rewrite set_all_out in Hf by done.
    assert (fresh (js ++ [k]) s) as Hf'.
    { destruct Hjs as [Hnd Hj]. split; [apply NoDup_app; split_and!; [done|set_solver|apply NoDup_singleton]|]. intros j [Hj'| ->%list_elem_of_singleton]%elem_of_app; auto. }
    change [Z.of_nat k] with (Z.of_nat <$> [k]). rewrite <- fmap_app. destruct (IH (js ++ [k]) Hlen Hf') as [(ks & Hn & Hfr & E')|Hfail]; [left|by right].
    exists (k :: ks). rewrite <- app_assoc in *. cbn. by rewrite Hn.
  - right. exists js. split; [done|]. run E. cbn [Z.ltb Z.compare]. erewrite bind_ok; [reflexivity|]. apply free_all_ok; [by apply Hjs|]. intros k Hk. destruct Hjs as [_ Hj]. destruct (Hj k Hk). split; [done|]. cbn. apply set_all_in; [done|by rewrite Hlen].
Qed.

Lemma alloc3_ok s :
  length (v_free s) = NUM ->
  (exists i0 i1 i2, fresh [i0; i1; i2] s /\ alloc3_desc s = Ok (Some [Z.of_nat i0; Z.of_nat i1; Z.of_nat i2]) (taken [i0; i1; i2] s)) \/
  (exists ks, fresh ks s /\ alloc3_desc s = Ok None (freed ks (taken ks s))).
Proof.
  intros Hlen. unfold alloc3_desc. pose proof (alloc3_loop_ok 3 [] s Hlen) as H. rewrite taken_nil in H. cbn [fmap list_fmap app] in H.
  destruct H as [(ks & Hn & Hf & E)|H]; [split; [apply NoDup_nil_2|set_solver]| |by right].
  left. destruct ks as [|i0 [|i1 [|i2 [|]]]]; try done. by exists i0, i1, i2.
Qed.

(** ** A transfer starts *)

(** The transfer [op] begins on buffer [b] of the abstract disk. *)
Definition with_op (b : nat) (op : option (bool * bool)) (a : adisk) : adisk :=
  mkAdisk (a_disk a) (alter (fun y => mkAbuf (ab_blockno y) (ab_data y) op) b (a_bufs a)).

Lemma give_back_ok s ph a G qs us ks : vinv s ph a G qs us -> fresh ks s -> vinv (freed ks (taken ks s)) ph a G qs us.
Proof.
  intros H [Hnd Hks]. pose proof H as []. assert (forall k j r, k ∈ ks -> G !! j = Some r -> k ∉ chain j r) as Hout.
  { intros k j r Hk Hj. destruct (Hks k Hk) as [_ Hf]. by apply (proj1 (vi_free0 _ _ Hf) eq_refl). }
  split; cbn [freed taken v_free v_mem v_used_idx v_dev upd_desc desc ops info avail_ring avail_idx used_ring used_idx' vbufs];
    rewrite ?set_all_len; try done.
  - intros j r Hj. pose proof (vi_req0 _ _ Hj) as []. assert (forall k, k ∈ chain j r -> set_all desc0 ks (desc (v_mem s)) !! k = desc (v_mem s) !! k) as Hd.
    { intros k Hk. apply set_all_out. intros Hin. by apply (Hout k j r). }
    split; cbn [upd_desc desc ops info vbufs]; try done; rewrite Hd by set_solver; done.
  - intros k b Hb. destruct (decide (k ∈ ks)) as [Hk|Hk].
    + destruct (Hks k Hk) as [Hlt Hf]. rewrite set_all_in in Hb; [|done|by rewrite set_all_len, vi_free_len0]. injection Hb as <-. exact (vi_free0 _ _ Hf).
    + rewrite !set_all_out in Hb by done. by apply vi_free0.
Qed.

Lemma phase_ok s ph a G qs us b p p' :
  vinv s ph a G qs us -> ph !! b = Some p -> waiting p = false -> waiting p' = false -> vinv s (<[b := p']> ph) (with_op b (abs_op G p') a) G qs us.
Proof.
  intros H Hp Hw Hw'. pose proof H as []. assert (forall j r, G !! j = Some r -> g_b r <> b) as Hne.
  { intros j r Hj <-. rewrite (ro_ph _ _ _ _ (vi_req0 _ _ Hj)) in Hp. by injection Hp as <-. }
  split; cbn [with_op a_disk a_bufs]; rewrite ?length_insert, ?length_alter; try done.
  - intros j r Hj. pose proof (vi_req0 _ _ Hj). eapply req_ok_mono; [done..| |by eauto]. by rewrite list_lookup_insert_ne by (apply not_eq_sym; by eapply Hne).
  - intros b' w j Hb'. destruct (decide (b = b')) as [<-|Hbb]; [|rewrite list_lookup_insert_ne in Hb' by done; by apply vi_ph0].
    rewrite list_lookup_insert_eq in Hb' by (by eapply lookup_lt_Some). by injection Hb' as ->.
  - intros b' x q Hx Hq Hwq. destruct (decide (b = b')) as [<-|Hbb]; [by eapply vi_idle0|]. rewrite list_lookup_insert_ne in Hq by done. by eapply vi_idle0.
  - intros b' x q Hx Hq. destruct (decide (b = b')) as [<-|Hbb].
    + rewrite list_lookup_insert_eq in Hq by (by eapply lookup_lt_Some). injection Hq as <-. by rewrite list_lookup_alter_eq, (vi_abs0 _ _ _ Hx Hp).
    + rewrite list_lookup_insert_ne in Hq by done. rewrite list_lookup_alter_ne by done. by apply vi_abs0.
Qed.

(** The memory after a request has been submitted. *)
Definition submitted (b : nat) (w : bool) (sector : Z) (i0 i1 i2 : nat) (m : vmem) : vmem :=
  mkVmem (<[i2 := mkDesc (AStatus i0) 1 VRING_DESC_F_WRITE 0]>
           (<[i1 := mkDesc (AData b) BSIZE (Z.lor (if w then 0 else VRING_DESC_F_WRITE) VRING_DESC_F_NEXT) (Z.of_nat i2)]>
             (<[i0 := mkDesc (AOps i0) 16 VRING_DESC_F_NEXT (Z.of_nat i1)]> (desc m))))
    (u16 (avail_idx m + 1)) (<[Z.to_nat (avail_idx m mod qsize) := Z.of_nat i0]> (avail_ring m))
    (used_idx' m) (used_ring m) (<[i0 := mkBlkReq (rq_type w) 0 sector]> (ops m))
    (alter (fun x => mkInfo (Some b) (i_status x)) i0 (alter (fun x => mkInfo (i_b x) 0xff) i0 (info m)))
    (alter (fun x => mkVbuf (vb_blockno x) true (vb_data x)) b (vbufs m)).

Lemma memory_then {A} f (k : unit -> M (vst D) A) s : bind (memory f) k s = k tt (with_mem f s).
Proof. done. Qed.
Lemma with_mem_twice f g (s : vst D) : with_mem f (with_mem g s) = with_mem (fun m => f (g m)) s.
Proof. done. Qed.

Lemma rw_submit_ok b w sector i0 i1 i2 s :
  exists d, view d = view (v_dev s) /\
  rw_submit b w sector i0 i1 i2 s = Ok tt (mkVst (v_free s) (v_used_idx s) (submitted b w sector i0 i1 i2 (v_mem s)) d (v_woken s)).
Proof.
  destruct (notify_ok (v_dev s)) as (d & E & V). exists d. split; [done|]. unfold rw_submit, set_desc.
  rewrite !memory_then, !with_mem_twice. unfold R, zoom. change (v_dev (with_mem _ s)) with (v_dev s). rewrite E. reflexivity.
Qed.
End inv.
