(* ===== verification/VirtioClaims.v ===== *)
(** * The disk driver: it implements the disk

    Starting a transfer and filling a buffer, the simulation, and the theorem. *)

From S2P Require Import Prelude Mem Kalloc Ring Virtio VirtioSpec VirtioInv.

Section claims.
Context {D : Type} {regs : VirtioRegs D} {laws : VirtioLaws D}.

Lemma chain_in i r : i ∈ chain i r /\ g_i1 r ∈ chain i r /\ g_i2 r ∈ chain i r.
Proof. unfold chain. set_solver. Qed.

Lemma submit_ok (s : vst D) ph a G qs us b p w x i0 i1 i2 d :
  vinv s ph a G qs us -> ph !! b = Some p -> waiting p = false -> vbufs (v_mem s) !! b = Some x -> fresh [i0; i1; i2] s -> view d = view (v_dev s) ->
  vinv (mkVst (v_free (taken [i0; i1; i2] s)) (v_used_idx s) (submitted b w (vb_blockno x * 2) i0 i1 i2 (v_mem s)) d (v_woken s))
    (<[b := Some (w, PhBuf (Z.of_nat i0))]> ph) (with_op b (Some (w, false)) a) (<[i0 := mkG b w i1 i2 Queued]> G) (qs ++ [i0]) us.
Proof.
  intros H Hp Hw Hx [Hnd Hks] Hd. pose proof H as []. set (g := mkG b w i1 i2 Queued).
  assert (forall k j r, k ∈ chain i0 g -> G !! j = Some r -> k ∉ chain j r) as Hout.
  { intros k j r Hk Hj. destruct (Hks k Hk) as [_ Hf]. by apply (proj1 (vi_free _ _ Hf) eq_refl). }
  assert (G !! i0 = None) as Hi0.
  { destruct (G !! i0) as [r|] eqn:E; [|done]. exfalso. apply (Hout i0 i0 r); [apply chain_in|done|apply chain_in]. }
  assert (forall j r, G !! j = Some r -> g_b r <> b) as Hne.
  { intros j r Hj <-. rewrite (ro_ph _ _ _ _ (vi_req _ _ Hj)) in Hp. by injection Hp as <-. }
  assert (forall (l : list nat) st, (forall j, j ∈ l -> exists r, G !! j = Some r /\ g_st r = st) -> forall j, j ∈ l -> exists r, <[i0 := g]> G !! j = Some r /\ g_st r = st) as Hlist.
  { intros l st Hl j Hj. destruct (Hl j Hj) as (r & Hr & Hst). exists r. split; [|done]. rewrite lookup_insert_ne; [done|]. intros <-. congruence. }
  assert (forall j r, <[i0 := g]> G !! j = Some r -> j = i0 /\ r = g \/ j <> i0 /\ G !! j = Some r) as Hcase.
  { intros j r [[-> ->]|[? ?]]%lookup_insert_Some; auto. }
  assert (i0 ∉ qs) as Hiqs by (intros Hin; destruct (vi_qs _ Hin) as (r & Hr & _); congruence).
  pose proof Hnd as [Hn0 [Hn1 _]%NoDup_cons]%NoDup_cons.
  assert (i0 <> i1 /\ i0 <> i2 /\ i1 <> i2) as (N01 & N02 & N12) by (clear -Hn0 Hn1; set_solver).
  destruct (chain_in i0 g) as (C0 & C1 & C2).
  assert (forall k, k ∈ [i0; i1; i2] -> (k < NUM)%nat) as Hlt by (intros k Hk; by apply Hks).
  assert (i0 < NUM /\ i1 < NUM /\ i2 < NUM)%nat as (Hl0 & Hl1 & Hl2) by (by split_and!; apply Hlt).
  split; cbn [submitted taken with_op v_free v_mem v_used_idx v_dev desc ops info avail_ring avail_idx used_ring used_idx' vbufs a_disk a_bufs];
    rewrite ?set_all_len, ?length_alter, ?length_insert, ?Hd; try done.
  - intros j r [[-> ->]|[Hj Hr]]%Hcase.
    + split; cbn [submitted desc ops info vbufs g g_b g_w g_i1 g_i2 g_st chain]; try done.
      * by apply Forall_forall.
      * rewrite !list_lookup_insert_ne by done. apply list_lookup_insert_eq. by rewrite vi_desc_len.
      * rewrite list_lookup_insert_ne by done. apply list_lookup_insert_eq. by rewrite length_insert, vi_desc_len.
      * apply list_lookup_insert_eq. by rewrite !length_insert, vi_desc_len.
      * eexists. rewrite list_lookup_alter_eq, Hx. split; [reflexivity|]. split; [done|]. apply list_lookup_insert_eq. by rewrite vi_ops_len.
      * rewrite !list_lookup_alter_eq. destruct (lookup_lt_is_Some_2 (info (v_mem s)) i0) as [y ->]; [by rewrite vi_info_len|]. done.
      * apply list_lookup_insert_eq. by eapply lookup_lt_Some.
    + pose proof (vi_req _ _ Hr) as []. assert (forall k, k ∈ chain j r -> k <> i0 /\ k <> i1 /\ k <> i2) as Hk.
      { intros k Hk. split_and!; intros ->; [exact (Hout _ _ _ C0 Hr Hk)|exact (Hout _ _ _ C1 Hr Hk)|exact (Hout _ _ _ C2 Hr Hk)]. }
      assert (forall k, k ∈ chain j r -> desc (submitted b w (vb_blockno x * 2) i0 i1 i2 (v_mem s)) !! k = desc (v_mem s) !! k) as Hdesc.
      { intros k Hkk. destruct (Hk k Hkk) as (? & ? & ?). cbn [submitted desc]. by rewrite !list_lookup_insert_ne by done. }
      destruct (chain_in j r) as (D0 & D1 & D2). split; rewrite ?(Hdesc _ D0), ?(Hdesc _ D1), ?(Hdesc _ D2); cbn [submitted ops info vbufs]; try done.
      * rewrite list_lookup_alter_ne by (apply not_eq_sym; by eapply Hne). rewrite list_lookup_insert_ne by done. done.
      * rewrite !list_lookup_alter_ne by done. done.
      * rewrite list_lookup_insert_ne by (apply not_eq_sym; by eapply Hne). done.
  - intros j1 j2 r1 r2 k [[-> ->]|[Hj1 H1]]%Hcase [[-> ->]|[Hj2 H2]]%Hcase Hk1 Hk2; [done|by destruct (Hout k j2 r2)|by destruct (Hout k j1 r1)|by eapply vi_disj].
  - intros k f Hf. destruct (decide (k ∈ [i0; i1; i2])) as [Hk|Hk].
    + rewrite set_all_in in Hf; [|done|rewrite vi_free_len; by apply Hks]. injection Hf as <-. split; [done|]. intros Hall. destruct (Hall i0 g); [apply lookup_insert_eq|done].
    + rewrite set_all_out in Hf by done. rewrite (vi_free _ _ Hf). split; intros Hall j r Hj.
      * apply Hcase in Hj as [[-> ->]|[_ Hj]]; [done|by apply (Hall j)].
      * apply (Hall j). rewrite lookup_insert_ne; [done|]. intros <-. congruence.
  - intros b' w' j Hb'. destruct (decide (b = b')) as [<-|Hbb].
    + rewrite list_lookup_insert_eq in Hb' by (by eapply lookup_lt_Some). injection Hb' as <- <-. exists i0, g. by rewrite lookup_insert_eq.
    + rewrite list_lookup_insert_ne in Hb' by done. destruct (vi_ph _ _ _ Hb') as (n & r & -> & Hr & Hb & Hw'). exists n, r. split_and!; try done.
      rewrite lookup_insert_ne; [done|]. intros <-. congruence.
  - intros b' y q Hy Hq Hwq. destruct (decide (b = b')) as [<-|Hbb].
    + rewrite list_lookup_insert_eq in Hq by (by eapply lookup_lt_Some). by injection Hq as <-.
    + rewrite list_lookup_insert_ne in Hq by done. rewrite list_lookup_alter_ne in Hy by done. by eapply vi_idle.
  - apply holds_push; [done|]. eapply holds_room; [done|done| |exact Hiqs|done]. intros k Hk. destruct (vi_qs k Hk) as (rk & Hrk & _).
    pose proof (ro_lt _ _ _ _ (vi_req _ _ Hrk)) as Hlk. by apply Forall_inv in Hlk.
  - apply NoDup_app. split_and!; [done| |apply NoDup_singleton]. by intros k Hk ->%list_elem_of_singleton.
  - intros j [Hj| ->%list_elem_of_singleton]%elem_of_app; [by apply (Hlist qs)|]. exists g. by rewrite lookup_insert_eq.
  - intros rq Hrq. destruct (vi_fl rq Hrq) as (j & r & y & Hr & Hst & Hy & ->). exists j, r, y. split; [|split; [done|split; [|done]]].
    + rewrite lookup_insert_ne; [done|]. intros <-. congruence.
    + rewrite list_lookup_alter_ne; [done|]. apply not_eq_sym. by eapply Hne.
  - by apply Hlist.
  - intros b' y Hy. destruct (decide (b = b')) as [<-|Hbb].
    + rewrite list_lookup_alter_eq, Hx in Hy. injection Hy as <-. exact (vi_bufs _ _ Hx).
    + rewrite list_lookup_alter_ne in Hy by done. exact (vi_bufs _ _ Hy).
  - intros b' y q Hy Hq. destruct (decide (b = b')) as [<-|Hbb].
    + rewrite list_lookup_insert_eq in Hq by (by eapply lookup_lt_Some). injection Hq as <-. rewrite list_lookup_alter_eq, Hx in Hy. injection Hy as <-.
      rewrite list_lookup_alter_eq, (vi_abs _ _ _ Hx Hp). cbn. by rewrite Nat2Z.id, lookup_insert_eq.
    + rewrite list_lookup_insert_ne in Hq by done. rewrite list_lookup_alter_ne in Hy by done. rewrite list_lookup_alter_ne by done. rewrite (vi_abs _ _ _ Hy Hq). do 2 f_equal. symmetry. apply abs_op_ext.
      intros w' j ->. destruct (vi_ph _ _ _ Hq) as (n & r & -> & Hr & _). rewrite Nat2Z.id. apply lookup_insert_ne. intros <-. congruence.
Qed.

Lemma sector_ok dk blockno : block_ok dk blockno -> u32 (blockno * (BSIZE / 512)) = blockno * 2.
Proof. intros [Hb _]. change (BSIZE / 512) with 2. apply u32_small. lia. Qed.

Lemma rw_start_ok (s : vst D) ph a G qs us b p w :
  vinv s ph a G qs us -> ph !! b = Some p -> waiting p = false ->
  exists sg s' G' qs', rw_start b w s = Ok sg s' /\ vinv s' (<[b := after_seg w sg]> ph) (with_op b (Some (w, false)) a) G' qs' us.
Proof.
  intros H Hp Hw. destruct (lookup_lt_is_Some_2 (vbufs (v_mem s)) b) as [x Hx]; [rewrite <- (vi_ph_len _ _ _ _ _ _ H); by eapply lookup_lt_Some|].
  unfold rw_start. run1. rewrite Hx. run1. rewrite (sector_ok (a_disk a)) by (by apply (vi_bufs _ _ _ _ _ _ H b)).
  destruct (alloc3_ok s (vi_free_len _ _ _ _ _ _ H)) as [(i0 & i1 & i2 & Hf & E)|(ks & Hf & E)]; run E.
  - rewrite !Nat2Z.id. destruct (rw_submit_ok b w (vb_blockno x * 2) i0 i1 i2 (taken [i0; i1; i2] s)) as (d & Hd & E2). run E2. set (s2 := mkVst _ _ _ _ _).
    pose proof (submit_ok s ph a G qs us b p w x i0 i1 i2 d H Hp Hw Hx Hf Hd) as H2.
    exists (RwSleepBuf (Z.of_nat i0)), s2. eexists _, _. split; [|exact H2].
    unfold rw_wait. run1. assert (vbufs (v_mem s2) !! b = Some (mkVbuf (vb_blockno x) true (vb_data x))) as Hb by (cbn [s2 v_mem submitted vbufs taken]; by rewrite list_lookup_alter_eq, Hx).
    rewrite Hb. run1. done.
  - exists RwSleepFree. eexists _, _, _. split; [reflexivity|]. change (Some (w, false)) with (abs_op G (Some (w, PhFree))). eapply phase_ok; [|done..]. by apply give_back_ok.
Qed.

Lemma fill_ok (s : vst D) ph a G qs us b x blockno data :
  vinv s ph a G qs us -> ph !! b = Some None -> vbufs (v_mem s) !! b = Some x -> block_ok (platter (view (v_dev s))) blockno -> length data = Z.to_nat BSIZE ->
  vinv (with_mem (upd_vbufs (fun l => <[b := mkVbuf blockno (vb_disk x) data]> l)) s) ph (mkAdisk (a_disk a) (<[b := mkAbuf blockno data None]> (a_bufs a))) G qs us.
Proof.
  intros H Hp Hx Hok Hdata. pose proof H as []. assert (forall j r, G !! j = Some r -> g_b r <> b) as Hne.
  { intros j r Hj <-. by rewrite (ro_ph _ _ _ _ (vi_req _ _ Hj)) in Hp. }
  split; cbn [with_mem upd_vbufs v_free v_mem v_used_idx v_dev desc ops info avail_ring avail_idx used_ring used_idx' vbufs a_disk a_bufs]; rewrite ?length_insert; try done.
  - intros j r Hj. eapply req_ok_mono; [by apply vi_req|done..|]. intros y Hy. exists y. cbn. rewrite list_lookup_insert_ne by (apply not_eq_sym; by eapply Hne). done.
  - intros b' y p Hy Hp' Hw. destruct (decide (b = b')) as [<-|Hbb].
    + rewrite list_lookup_insert_eq in Hy by (by eapply lookup_lt_Some). injection Hy as <-. cbn. by eapply vi_idle.
    + rewrite list_lookup_insert_ne in Hy by done. by eapply vi_idle.
  - intros rq Hrq. destruct (vi_fl rq Hrq) as (j & r & y & Hr & Hst & Hy & ->). exists j, r, y. split_and!; try done. rewrite list_lookup_insert_ne; [done|]. apply not_eq_sym. by eapply Hne.
  - intros b' y Hy. destruct (decide (b = b')) as [<-|Hbb].
    + rewrite list_lookup_insert_eq in Hy by (by eapply lookup_lt_Some). injection Hy as <-. cbn. by rewrite vi_disk.
    + rewrite list_lookup_insert_ne in Hy by done. by apply (vi_bufs b').
  - intros b' y p Hy Hp'. destruct (decide (b = b')) as [<-|Hbb].
    + rewrite list_lookup_insert_eq in Hy by (by eapply lookup_lt_Some). injection Hy as <-. rewrite list_lookup_insert_eq by (rewrite vi_abs_len; by eapply lookup_lt_Some).
      assert (p = None) as -> by congruence. done.
    + rewrite list_lookup_insert_ne in Hy by done. rewrite list_lookup_insert_ne by done. by apply vi_abs.
Qed.

(** ** The simulation *)

Definition simulated (c : vcfg) (a : adisk) : Prop := exists G qs us, vinv (c_st c) (c_ph c) a G qs us.

Lemma op_lookup (s : vst D) ph a G qs us b p : vinv s ph a G qs us -> ph !! b = Some p -> exists y, a_bufs a !! b = Some y /\ ab_op y = abs_op G p.
Proof.
  intros [] Hp. destruct (lookup_lt_is_Some_2 (vbufs (v_mem s)) b) as [x Hx]; [rewrite <- vi_ph_len; by eapply lookup_lt_Some|]. eexists. split; [by apply vi_abs|done].
Qed.

Lemma step_simulated c e c' a : simulated c a -> vstep c e c' -> exists a', astep a e a' /\ simulated c' a'.
Proof.
  intros (G & qs & us & H) Hstep. destruct Hstep as [s ph b x blockno data Hp Hx Hok Hd|s ph b w sg s' Hp E|s ph b w sg s' Hp E|s ph b w i sg s' Hp E|s ph s' E|s ph e m' d' Hs Hdd]; cbn [c_st c_ph] in H.
  - destruct (op_lookup _ _ _ _ _ _ _ _ H Hp) as (y & Hy & Hop). destruct a as [dk bs]. eexists. split; [by eapply as_fill|]. exists G, qs, us. exact (fill_ok s ph _ G qs us b x blockno data H Hp Hx Hok Hd).
  - destruct (rw_start_ok s ph a G qs us b None w H Hp eq_refl) as (sg' & s1 & G' & qs' & E' & H'). rewrite E in E'. injection E' as <- <-.
    destruct (op_lookup _ _ _ _ _ _ _ _ H Hp) as (y & Hy & Hop). destruct a as [dk bs]. eexists. split; [by eapply as_start|]. eexists _, _, _. cbn [c_st c_ph].
    unfold with_op in H'. cbn [a_disk a_bufs] in H', Hy. rewrite (alter_insert _ _ _ _ Hy) in H'. exact H'.
  - destruct (rw_start_ok s ph a G qs us b _ w H Hp eq_refl) as (sg' & s1 & G' & qs' & E' & H'). rewrite E in E'. injection E' as <- <-.
    destruct (op_lookup _ _ _ _ _ _ _ _ H Hp) as (y & Hy & Hop). exists a. split; [constructor|]. eexists _, _, _. cbn [c_st c_ph].
    unfold with_op in H'. rewrite (alter_insert _ _ _ _ Hy) in H'. cbn in Hop. rewrite <- Hop in H'. replace (mkAbuf (ab_blockno y) (ab_data y) (ab_op y)) with y in H' by (by destruct y).
    rewrite (list_insert_id (a_bufs a) b y Hy) in H'. destruct a. exact H'.
  - destruct (rw_wait_ok s ph a G qs us b w i H Hp) as [E'|(s1 & a' & G' & E' & Ha & H')]; rewrite E in E'; injection E' as -> ->.
    + exists a. split; [constructor|]. exists G, qs, us. cbn [c_st c_ph after_seg]. by rewrite list_insert_id.
    + exists a'. split; [exact Ha|]. by exists G', qs, us.
  - destruct (intr_ok s ph a G qs us H) as (s1 & G' & E' & H'). rewrite E in E'. injection E' as <-. exists a. split; [constructor|]. by exists G', qs, [].
  - destruct (device_ok s ph a G qs us e m' d' H (Hdd (vinv_next_ok _ _ _ _ _ _ H))) as (a' & G' & qs' & us' & Ha & H'). exists a'. split; [done|]. by exists G', qs', us'.
Qed.

(** The driver after [virtio_disk_init], no transfer under way. *)
Record vstart (c : vcfg (D := D)) : Prop := {
  st_free : v_free (c_st c) = replicate NUM true;
  st_used : v_used_idx (c_st c) = 0;
  st_mem : zero_queues (v_mem (c_st c)) = v_mem (c_st c);
  st_ops : length (ops (v_mem (c_st c))) = NUM;
  st_info : length (info (v_mem (c_st c))) = NUM;
  st_dev : seen (view (v_dev (c_st c))) = 0 /\ flight (view (v_dev (c_st c))) = [];
  st_ph : c_ph c = replicate (length (vbufs (v_mem (c_st c)))) None;
  st_bufs : forall b x, vbufs (v_mem (c_st c)) !! b = Some x ->
    vb_disk x = false /\ block_ok (platter (view (v_dev (c_st c)))) (vb_blockno x) /\ length (vb_data x) = Z.to_nat BSIZE
}.
Definition abs_of (c : vcfg (D := D)) : adisk :=
  mkAdisk (platter (view (v_dev (c_st c)))) ((fun x => mkAbuf (vb_blockno x) (vb_data x) None) <$> vbufs (v_mem (c_st c))).

Lemma holds_zero : holds (replicate NUM 0) 0 0 [].
Proof. split; try done. cbn. lia. Qed.

Lemma start_simulated c : vstart c -> simulated c (abs_of c).
Proof.
  intros []. exists ∅, [], []. destruct c as [s ph]. cbn [c_st c_ph] in *. destruct st_dev0 as [Hseen Hfl].
  assert (desc (v_mem s) = replicate NUM desc0 /\ avail_idx (v_mem s) = 0 /\ avail_ring (v_mem s) = replicate NUM 0 /\ used_idx' (v_mem s) = 0 /\ used_ring (v_mem s) = replicate NUM 0)
    as (M1 & M2 & M3 & M4 & M5) by (by rewrite <- st_mem0).
  assert (forall b p, ph !! b = Some p -> p = None) as Hph by (rewrite st_ph0; intros b p [-> _]%lookup_replicate; done).
  split; unfold abs_of; cbn [c_st a_disk a_bufs]; rewrite ?Hseen, ?Hfl, ?st_used0, ?M1, ?M2, ?M3, ?M4, ?M5; try done.
  - by rewrite st_free0.
  - by rewrite st_ph0, length_replicate.
  - intros k b Hb. rewrite st_free0 in Hb. apply lookup_replicate in Hb as [-> _]. split; [|done]. intros _ i r. by rewrite lookup_empty.
  - intros b w i Hb. by apply Hph in Hb.
  - intros b x p Hx _ _. by apply (st_bufs0 b).
  - apply holds_zero.
  - apply NoDup_nil_2.
  - set_solver.
  - apply NoDup_nil_2.
  - set_solver.
  - apply holds_zero.
  - apply NoDup_nil_2.
  - set_solver.
  - intros b x Hx. by apply (st_bufs0 b) in Hx as (_ & ? & ?).
  - by rewrite length_fmap.
  - intros b x p Hx Hp. rewrite list_lookup_fmap, Hx. by rewrite (Hph _ _ Hp).
Qed.

Lemma steps_simulated c0 tr c : vstart c0 -> vsteps c0 tr c -> exists a, asteps (abs_of c0) tr a /\ simulated c a.
Proof.
  intros Hs Hsteps. induction Hsteps as [c|c1 tr c2 e c3 _ IH Hstep].
  - exists (abs_of c). split; [constructor|by apply start_simulated].
  - destruct (IH Hs) as (a & Ha & Hsim). destruct (step_simulated _ _ _ _ Hsim Hstep) as (a' & He & Hsim'). exists a'. split; [by econstructor|done].
Qed.

(** What the callers see of the buffers and of the disk is the same. *)
Definition agrees (c : vcfg (D := D)) (a : adisk) : Prop :=
  platter (view (v_dev (c_st c))) = a_disk a /\
  forall b x p, vbufs (v_mem (c_st c)) !! b = Some x -> c_ph c !! b = Some p ->
    exists y, a_bufs a !! b = Some y /\ ab_blockno y = vb_blockno x /\ ab_data y = vb_data x /\ (ab_op y = None <-> p = None).

(** The driver never stops the kernel: every operation that may run next returns,
    and the device finds a request of the right form. *)
Definition runs_on (c : vcfg (D := D)) : Prop :=
  (forall b w, c_ph c !! b = Some None \/ c_ph c !! b = Some (Some (w, PhFree)) -> exists sg s', rw_start b w (c_st c) = Ok sg s') /\
  (forall b w i, c_ph c !! b = Some (Some (w, PhBuf i)) -> exists sg s', rw_wait b i (c_st c) = Ok sg s') /\
  (exists s', virtio_disk_intr (c_st c) = Ok tt s') /\ next_ok (v_mem (c_st c)) (view (v_dev (c_st c))).

End claims.

(** ** A device that does what the standard allows *)

#[export] Instance plain_regs : VirtioRegs dview := { R_read _ d := Ok 0 d; R_write _ _ d := Ok tt d }.
#[export] Program Instance plain_laws : VirtioLaws dview := { view d := d; dstep m d m' d' := exists e, device_does m d e m' d' }.
Next Obligation. intros d. by exists 0, d. Qed.
Next Obligation. intros d x. by exists d. Qed.
Next Obligation. intros d. by exists d. Qed.
Next Obligation. intros m d m' d' H _. exact H. Qed.

(** A read of block 1 of a disk of two blocks, from the call to the return. *)
Definition disk0 : list byte := replicate (Z.to_nat BSIZE) x00 ++ replicate (Z.to_nat BSIZE) x2a.
Definition mem0 : vmem :=
  mkVmem (replicate NUM desc0) 0 (replicate NUM 0) 0 (replicate NUM 0) (replicate NUM (mkBlkReq 0 0 0)) (replicate NUM (mkInfo None 0))
    [mkVbuf 1 false (replicate (Z.to_nat BSIZE) x00)].
Definition vst0 : vst dview := mkVst (replicate NUM true) 0 mem0 (mkDview 0 [] disk0) [].
Definition vst1 : vst dview := run_state vst0 (rw_start 0 false vst0).
Definition rq1 : vreq := mkVreq 0 false 2 0 BSIZE 0.
Definition vst2 : vst dview := mkVst (v_free vst1) (v_used_idx vst1) (v_mem vst1) (mkDview 1 [rq1] disk0) (v_woken vst1).
Definition mem3 : vmem := complete rq1 0 (default (v_mem vst2, disk0) (transfer rq1 (v_mem vst2) disk0)).1.
Definition vst3 : vst dview := mkVst (v_free vst2) (v_used_idx vst2) mem3 (mkDview 1 [] disk0) (v_woken vst2).
Definition vst4 : vst dview := run_state vst3 (virtio_disk_intr vst3).
Definition vst5 : vst dview := run_state vst4 (rw_wait 0 0 vst4).

Definition is_sleep (g : rwseg) : bool := match g with RwSleepBuf i => i =? 0 | _ => false end.
Definition is_done (g : rwseg) : bool := match g with RwDone => true | _ => false end.
Definition read_trace : list vlabel := [LStart 0 false; LTau; LPerform 0; LTau; LReturn 0].

Lemma vst1_eq : rw_start 0 false vst0 = Ok (RwSleepBuf 0) vst1.
Proof. refine (run_state_ok is_sleep _ vst0 _ _ _); [|by vm_compute]. intros [|i|]; cbn; try done. by intros ->%Z.eqb_eq. Qed.
Lemma vst4_eq : virtio_disk_intr vst3 = Ok tt vst4.
Proof. refine (run_state_ok (fun _ => true) tt vst3 _ _ _); [by intros []|by vm_compute]. Qed.
Lemma vst5_eq : rw_wait 0 0 vst4 = Ok RwDone vst5.
Proof. refine (run_state_ok is_done _ vst4 _ _ _); [by intros [|i|]|by vm_compute]. Qed.
Lemma take1 : device_does (v_mem vst1) (view (v_dev vst1)) LTau (v_mem vst1) (mkDview 1 [rq1] disk0).
Proof.
  assert (v_dev vst1 = mkDview 0 [] disk0) as E by by vm_compute. cbn [view plain_laws]. rewrite E.
  exact (dd_take (v_mem vst1) (mkDview 0 [] disk0) 0 rq1 ltac:(by vm_compute) ltac:(by vm_compute) ltac:(by vm_compute)).
Qed.
Lemma complete1 : device_does (v_mem vst2) (view (v_dev vst2)) (LPerform 0) mem3 (mkDview 1 [] disk0).
Proof. apply (dd_complete (v_mem vst2) (mkDview 1 [rq1] disk0) rq1 [] [] _ disk0); by vm_compute. Qed.

Lemma plain_dstep m (d : dview) e m' d' : device_does m (view d) e m' (view d') -> dstep m d m' d'.
Proof. intros H. by exists e. Qed.

Lemma vst0_start : vstart (mkVcfg vst0 [None]).
Proof.
  split; try done. intros [|b] x Hx; [|done]. injection Hx as <-. split; [done|]. split; [|by vm_compute]. split; [cbn; lia|]. by apply Nat.leb_le; vm_compute.
Qed.

Lemma read_run : vsteps (mkVcfg vst0 [None]) read_trace (mkVcfg vst5 [None]).
Proof.
  change read_trace with ([LStart 0 false; LTau; LPerform 0; LTau] ++ [LReturn 0]). eapply vss_snoc; [|exact (vs_wake vst4 [Some (false, PhBuf 0)] 0 false 0 RwDone vst5 eq_refl vst5_eq)].
  change [LStart 0 false; LTau; LPerform 0; LTau] with ([LStart 0 false; LTau; LPerform 0] ++ [LTau]). eapply vss_snoc; [|exact (vs_intr vst3 [Some (false, PhBuf 0)] vst4 vst4_eq)].
  change [LStart 0 false; LTau; LPerform 0] with ([LStart 0 false; LTau] ++ [LPerform 0]).
  eapply vss_snoc; [|exact (vs_dev vst2 [Some (false, PhBuf 0)] (LPerform 0) mem3 (mkDview 1 [] disk0) (plain_dstep _ _ _ _ _ complete1) (fun _ => complete1))].
  change [LStart 0 false; LTau] with ([LStart 0 false] ++ [LTau]).
  eapply vss_snoc; [|exact (vs_dev vst1 [Some (false, PhBuf 0)] LTau (v_mem vst1) (mkDview 1 [rq1] disk0) (plain_dstep _ _ _ _ _ take1) (fun _ => take1))].
  change [LStart 0 false] with ([] ++ [LStart 0 false]). eapply vss_snoc; [constructor|exact (vs_start vst0 [None] 0 false (RwSleepBuf 0) vst1 eq_refl vst1_eq)].
Qed.

