(* ===== verification/Riscv.v ===== *)
(** * The processor (kernel/riscv.h, and the assembly files)

    The registers of a hart, the accessors of riscv.h, and the instructions that
    the assembly of the kernel is made of.  A trap, [sret] and [mret] are what the
    privileged architecture says of them.  In user and supervisor mode an address
    goes through the page table of [satp], as the walk of Vm goes through it. *)

From S2P Require Import Prelude Mem Kalloc Vm.

(** ** Registers *)

Inductive reg :=
| X_ra | X_sp | X_gp | X_tp | X_t0 | X_t1 | X_t2 | X_s0
| X_s1 | X_a0 | X_a1 | X_a2 | X_a3 | X_a4 | X_a5 | X_a6
| X_a7 | X_s2 | X_s3 | X_s4 | X_s5 | X_s6 | X_s7 | X_s8
| X_s9 | X_s10 | X_s11 | X_t3 | X_t4 | X_t5 | X_t6.

Inductive csr :=
| CSR_mhartid | CSR_mstatus | CSR_mepc | CSR_sstatus | CSR_sip | CSR_sie | CSR_mie
| CSR_sepc | CSR_medeleg | CSR_mideleg | CSR_stvec | CSR_mtvec | CSR_pmpcfg0 | CSR_pmpaddr0
| CSR_satp | CSR_mscratch | CSR_scause | CSR_stval | CSR_mcounteren | CSR_time | CSR_sscratch
| CSR_mcause.

#[export] Instance reg_eq_dec : EqDecision reg.
Proof. solve_decision. Defined.
#[export] Instance csr_eq_dec : EqDecision csr.
Proof. solve_decision. Defined.

Inductive mode := UMode | SMode | MMode.

#[export] Instance mode_eq_dec : EqDecision mode.
Proof. solve_decision. Defined.

Record hart := mkHart { h_x : reg -> Z; h_csr : csr -> Z; h_mode : mode; h_pc : Z }.

Definition set_x (r : reg) (v : Z) (h : hart) : hart := mkHart (<[r := v]> (h_x h)) (h_csr h) (h_mode h) (h_pc h).
Definition set_csr (c : csr) (v : Z) (h : hart) : hart := mkHart (h_x h) (<[c := v]> (h_csr h)) (h_mode h) (h_pc h).
Definition set_pc (pc : Z) (h : hart) : hart := mkHart (h_x h) (h_csr h) (h_mode h) pc.
Definition set_mode (md : mode) (h : hart) : hart := mkHart (h_x h) (h_csr h) md (h_pc h).

(** ** Accessors (kernel/riscv.h) *)

Definition MSTATUS_MPP_MASK : Z := Z.shiftl 3 11.
Definition MSTATUS_MPP_S : Z := Z.shiftl 1 11.
Definition MSTATUS_MIE : Z := Z.shiftl 1 3.
Definition SSTATUS_SPP : Z := Z.shiftl 1 8.
Definition SSTATUS_SPIE : Z := Z.shiftl 1 5.
Definition SSTATUS_SIE : Z := Z.shiftl 1 1.
Definition SIE_SEIE : Z := Z.shiftl 1 9.
Definition SIE_STIE : Z := Z.shiftl 1 5.
Definition SIE_SSIE : Z := Z.shiftl 1 1.
Definition MIE_MTIE : Z := Z.shiftl 1 7.
Definition SATP_SV39 : Z := Z.shiftl 8 60.
Definition MAKE_SATP (pagetable : Z) : Z := Z.lor SATP_SV39 (Z.shiftr pagetable 12).

Definition r_mhartid : M hart Z := gets (fun h => h_csr h CSR_mhartid).
Definition r_mstatus : M hart Z := gets (fun h => h_csr h CSR_mstatus).
Definition r_sstatus : M hart Z := gets (fun h => h_csr h CSR_sstatus).
Definition r_sip : M hart Z := gets (fun h => h_csr h CSR_sip).
Definition r_sie : M hart Z := gets (fun h => h_csr h CSR_sie).
Definition r_mie : M hart Z := gets (fun h => h_csr h CSR_mie).
Definition r_sepc : M hart Z := gets (fun h => h_csr h CSR_sepc).
Definition r_medeleg : M hart Z := gets (fun h => h_csr h CSR_medeleg).
Definition r_mideleg : M hart Z := gets (fun h => h_csr h CSR_mideleg).
Definition r_stvec : M hart Z := gets (fun h => h_csr h CSR_stvec).
Definition r_satp : M hart Z := gets (fun h => h_csr h CSR_satp).
Definition r_scause : M hart Z := gets (fun h => h_csr h CSR_scause).
Definition r_stval : M hart Z := gets (fun h => h_csr h CSR_stval).
Definition r_mcounteren : M hart Z := gets (fun h => h_csr h CSR_mcounteren).
Definition r_time : M hart Z := gets (fun h => h_csr h CSR_time).
Definition w_mstatus (x : Z) : M hart unit := modify (set_csr CSR_mstatus x).
Definition w_mepc (x : Z) : M hart unit := modify (set_csr CSR_mepc x).
Definition w_sstatus (x : Z) : M hart unit := modify (set_csr CSR_sstatus x).
Definition w_sip (x : Z) : M hart unit := modify (set_csr CSR_sip x).
Definition w_sie (x : Z) : M hart unit := modify (set_csr CSR_sie x).
Definition w_mie (x : Z) : M hart unit := modify (set_csr CSR_mie x).
Definition w_sepc (x : Z) : M hart unit := modify (set_csr CSR_sepc x).
Definition w_medeleg (x : Z) : M hart unit := modify (set_csr CSR_medeleg x).
Definition w_mideleg (x : Z) : M hart unit := modify (set_csr CSR_mideleg x).
Definition w_stvec (x : Z) : M hart unit := modify (set_csr CSR_stvec x).
Definition w_mtvec (x : Z) : M hart unit := modify (set_csr CSR_mtvec x).
Definition w_pmpcfg0 (x : Z) : M hart unit := modify (set_csr CSR_pmpcfg0 x).
Definition w_pmpaddr0 (x : Z) : M hart unit := modify (set_csr CSR_pmpaddr0 x).
Definition w_satp (x : Z) : M hart unit := modify (set_csr CSR_satp x).
Definition w_mscratch (x : Z) : M hart unit := modify (set_csr CSR_mscratch x).
Definition w_mcounteren (x : Z) : M hart unit := modify (set_csr CSR_mcounteren x).
Definition r_sp : M hart Z := gets (fun h => h_x h X_sp).
Definition r_tp : M hart Z := gets (fun h => h_x h X_tp).
Definition w_tp (x : Z) : M hart unit := modify (set_x X_tp x).
Definition r_ra : M hart Z := gets (fun h => h_x h X_ra).
(** Translations are not cached in the model. *)
Definition sfence_vma : M hart unit := ret tt.

Definition intr_on : M hart unit := x <- r_sstatus;; w_sstatus (Z.lor x SSTATUS_SIE).
Definition intr_off : M hart unit := x <- r_sstatus;; w_sstatus (Z.land x (Z.lnot SSTATUS_SIE)).
Definition intr_get : M hart bool := x <- r_sstatus;; ret (istrue (Z.land x SSTATUS_SIE)).

(** ** Traps and returns *)

Definition put_bit (n : Z) (b : bool) (x : Z) : Z := if b then Z.setbit x n else Z.clearbit x n.

(** A trap taken in supervisor mode: the previous mode goes to bit 8 ([SPP]), the
    interrupt flag from bit 1 ([SIE]) to bit 5 ([SPIE]). *)
Definition trap_s (cause tval : Z) : M hart unit := fun h =>
  let x := h_csr h CSR_sstatus in
  let x' := put_bit 1 false (put_bit 5 (Z.testbit x 1) (put_bit 8 (bool_decide (h_mode h = SMode)) x)) in
  Ok tt (mkHart (h_x h)
    (<[CSR_sstatus := x']> (<[CSR_sepc := h_pc h]> (<[CSR_scause := cause]> (<[CSR_stval := tval]> (h_csr h)))))
    SMode (h_csr h CSR_stvec)).

Definition mode_bits (md : mode) : Z := match md with UMode => 0 | SMode => 1 | MMode => 3 end.
Definition mode_of_bits (b : Z) : option mode :=
  if b =? 0 then Some UMode else if b =? 1 then Some SMode else if b =? 3 then Some MMode else None.

(** A trap taken in machine mode: bits 12 and 11 ([MPP]), 7 ([MPIE]) and 3 ([MIE]). *)
Definition trap_m (cause : Z) : M hart unit := fun h =>
  let x := h_csr h CSR_mstatus in
  let b := mode_bits (h_mode h) in
  let x' := put_bit 3 false (put_bit 7 (Z.testbit x 3) (put_bit 12 (Z.testbit b 1) (put_bit 11 (Z.testbit b 0) x))) in
  Ok tt (mkHart (h_x h) (<[CSR_mstatus := x']> (<[CSR_mepc := h_pc h]> (<[CSR_mcause := cause]> (h_csr h))))
    MMode (h_csr h CSR_mtvec)).

Definition do_sret : M hart unit := fun h =>
  let x := h_csr h CSR_sstatus in
  if bool_decide (h_mode h = UMode) then Undef
  else Ok tt (mkHart (h_x h)
    (<[CSR_sstatus := put_bit 8 false (put_bit 5 true (put_bit 1 (Z.testbit x 5) x))]> (h_csr h))
    (if Z.testbit x 8 then SMode else UMode) (h_csr h CSR_sepc)).

Definition do_mret : M hart unit := fun h =>
  let x := h_csr h CSR_mstatus in
  match mode_of_bits (Z.land (Z.shiftr x 11) 3) with
  | Some md =>
    if bool_decide (h_mode h = MMode) then
      Ok tt (mkHart (h_x h)
        (<[CSR_mstatus := put_bit 12 false (put_bit 11 false (put_bit 7 true (put_bit 3 (Z.testbit x 7) x)))]> (h_csr h))
        md (h_csr h CSR_mepc))
    else Undef
  | None => Undef
  end.

(** ** Instructions *)

Inductive instr :=
| sd (rs : reg) (off : Z) (rb : reg)
| ld (rd : reg) (off : Z) (rb : reg)
| li (rd : reg) (imm : Z)
| addi (rd rs : reg) (imm : Z)
| add (rd rs1 rs2 : reg)
| csrw (c : csr) (rs : reg)
| csrr (rd : reg) (c : csr)
| csrrw (rd : reg) (c : csr) (rs : reg)
| sfence
| jr (rs : reg)
| sret
| mret.

(** The page table of [satp]; 0 is the bare mode. *)
Definition satp_table (satp : Z) : option Z :=
  if Z.shiftr satp 60 =? 8 then Some (Z.shiftl (Z.land satp (Z.ones 44)) 12) else None.

(** The physical address of a doubleword, which needs permission [perm] where
    addresses are translated. *)
Definition phys (perm va : Z) (h : hart) (s : kst) : option Z :=
  if negb (va mod 8 =? 0) then None
  else if bool_decide (h_mode h = MMode) || (h_csr h CSR_satp =? 0) then Some va
  else
    pt ← satp_table (h_csr h CSR_satp);
    match walk pt va false s with
    | Ok pte _ =>
      let v := load64 (kmem s) pte in
      if (pte =? 0) || negb (istrue (Z.land v PTE_V)) || negb (istrue (Z.land v perm)) ||
         negb (Bool.eqb (istrue (Z.land v PTE_U)) (bool_decide (h_mode h = UMode))) then None
      else Some (PTE2PA v + va mod PGSIZE)
    | _ => None
    end.

Abbreviation cpu := (hart * kst)%type.

Definition on_hart {A} (m : M hart A) : M cpu A := zoom fst (fun h s => (h, s.2)) m.
Definition rx (r : reg) : M cpu Z := gets (fun s : cpu => h_x s.1 r).
Definition wx (r : reg) (v : Z) : M cpu unit := on_hart (modify (set_x r v)).

(** A failing access would trap again, in the middle of the handler. *)
Definition exec_instr (i : instr) : M cpu unit :=
  match i with
  | sd rs off rb =>
    v <- rx rs;; b <- rx rb;;
    a <- (fun s => from_opt (phys PTE_W (u64 (b + off)) s.1 s.2) s);;
    modify (fun s => (s.1, set_mem (fun m => store64 m a v) s.2))
  | ld rd off rb =>
    b <- rx rb;;
    a <- (fun s => from_opt (phys PTE_R (u64 (b + off)) s.1 s.2) s);;
    v <- gets (fun s : cpu => load64 (kmem s.2) a);;
    wx rd v
  | li rd imm => wx rd imm
  | addi rd rs imm => v <- rx rs;; wx rd (u64 (v + imm))
  | add rd rs1 rs2 => v <- rx rs1;; w <- rx rs2;; wx rd (u64 (v + w))
  | csrw c rs => v <- rx rs;; on_hart (modify (set_csr c v))
  | csrr rd c => v <- gets (fun s : cpu => h_csr s.1 c);; wx rd v
  | csrrw rd c rs => v <- gets (fun s : cpu => h_csr s.1 c);; w <- rx rs;; on_hart (modify (set_csr c w));;; wx rd v
  | sfence => on_hart sfence_vma
  | jr rs => v <- rx rs;; on_hart (modify (set_pc v))
  | sret => on_hart do_sret
  | mret => on_hart do_mret
  end.

Definition exec_code (l : list instr) : M cpu unit := for_each l exec_instr.
