(* ===== verification/RiscvSpec.v ===== *)
(** * Reasoning about the processor

    Bits of the status registers, memory seen through a page table, and the blocks
    of stores and loads with which handlers save and restore registers. *)

From S2P Require Import Prelude Mem Kalloc Vm Riscv.

(** ** Status bits *)

Lemma put_bit_same n b x : 0 <= n -> Z.testbit (put_bit n b x) n = b.
Proof. intros. unfold put_bit. destruct b; [by apply Z.setbit_eq|by apply Z.clearbit_eq]. Qed.

Lemma put_bit_other n b x k : 0 <= n -> n <> k -> Z.testbit (put_bit n b x) k = Z.testbit x k.
Proof. intros. unfold put_bit. destruct b; [by apply Z.setbit_neq|by apply Z.clearbit_neq]. Qed.

Lemma land_bit_eqb x n : 0 <= n -> (Z.land x (Z.shiftl 1 n) =? 0) = negb (Z.testbit x n).
Proof.
  intros Hn. rewrite Z.shiftl_1_l. destruct (Z.testbit x n) eqn:E; cbn [negb].
  - apply Z.eqb_neq. intros H. assert (Z.testbit (Z.land x (2 ^ n)) n = false) as H' by (rewrite H; apply Z.bits_0).
    rewrite Z.land_spec, Z.pow2_bits_true, E in H' by done. done.
  - apply Z.eqb_eq. apply Z.bits_inj'. intros k Hk. rewrite Z.land_spec, Z.bits_0, Z.pow2_bits_eqb by done.
    destruct (Z.eqb_spec n k) as [<-|]; [by rewrite E|by rewrite andb_false_r].
Qed.

Lemma istrue_bit x n : 0 <= n -> istrue (Z.land x (Z.shiftl 1 n)) = Z.testbit x n.
Proof. intros. unfold istrue. rewrite land_bit_eqb by done. apply negb_involutive. Qed.

Lemma testbit_set x n k : 0 <= n -> 0 <= k -> Z.testbit (Z.lor x (Z.shiftl 1 n)) k = (Z.testbit x k || (n =? k)).
Proof. intros. rewrite Z.lor_spec, Z.shiftl_1_l, Z.pow2_bits_eqb by done. done. Qed.

Lemma testbit_clear x n k : 0 <= n -> 0 <= k -> Z.testbit (Z.land x (Z.lnot (Z.shiftl 1 n))) k = (Z.testbit x k && negb (n =? k)).
Proof. intros. rewrite Z.land_spec, Z.lnot_spec, Z.shiftl_1_l, Z.pow2_bits_eqb by done. done. Qed.

(** ** Memory through a page table *)

Definition same_but (pa len : Z) (m m' : pmem) : Prop := forall x, x < pa \/ pa + len <= x -> mget m' x = mget m x.

Lemma same_but_refl pa len m : same_but pa len m m.
Proof. done. Qed.

Lemma same_but_trans pa len m1 m2 m3 : same_but pa len m1 m2 -> same_but pa len m2 m3 -> same_but pa len m1 m3.
Proof. intros H1 H2 x Hx. by rewrite (H2 x Hx), (H1 x Hx). Qed.

Lemma same_but_store pa len m a v : pa <= a -> a + 8 <= pa + len -> same_but pa len m (store64 m a v).
Proof. intros H1 H2 x Hx. apply mget_store64_out. lia. Qed.

(** The page table of [satp] maps the doublewords from [va] to those from [pa], for
    the kernel to read and write, whatever they hold. *)
Definition maps (satp : Z) (m : pmem) (va pa len : Z) : Prop :=
  forall h s perm k, h_mode h = SMode -> h_csr h CSR_satp = satp -> same_but pa len m (kmem s) ->
    perm = PTE_R \/ perm = PTE_W -> 0 <= k -> 8 * k + 8 <= len -> phys perm (va + 8 * k) h s = Some (pa + 8 * k).

Lemma maps_same satp m m' va pa len : maps satp m va pa len -> same_but pa len m m' -> maps satp m' va pa len.
Proof. intros H Hs h s perm k Hm Hc Hs' Hp Hk Hl. apply H; try done. by eapply same_but_trans. Qed.

Lemma maps_shorter satp m va pa len n : maps satp m va pa len -> n <= len -> maps satp m va pa n.
Proof. intros H Hn h s perm k Hm Hc Hs Hp Hk Hl. apply H; try done; [|lia]. intros x Hx. apply Hs. lia. Qed.

(** A page mapped in a page table that it is not itself part of. *)
Lemma walk_level_mem pt va lv m fl :
  walk_level pt va false lv (mkKst m fl) =
    Ok (if istrue (Z.land (load64 m (pt + 8 * PX lv va)) PTE_V) then Some (PTE2PA (load64 m (pt + 8 * PX lv va))) else None) (mkKst m fl).
Proof. unfold walk_level, bind, gets, ret. cbn [kmem negb]. by destruct (istrue _). Qed.

Lemma walk_mem pt va m : va < MAXVA -> exists r, forall fl, walk pt va false (mkKst m fl) = Ok r (mkKst m fl).
Proof.
  intros Hva. unfold walk. destruct (Z.leb_spec MAXVA va); [lia|].
  destruct (istrue (Z.land (load64 m (pt + 8 * PX 2 va)) PTE_V)) eqn:E2.
  - set (t1 := PTE2PA (load64 m (pt + 8 * PX 2 va))).
    destruct (istrue (Z.land (load64 m (t1 + 8 * PX 1 va)) PTE_V)) eqn:E1; eexists; intros fl;
      unfold bind; rewrite walk_level_mem, E2; cbv beta iota; rewrite walk_level_mem; fold t1; by rewrite E1.
  - exists 0. intros fl. unfold bind. by rewrite walk_level_mem, E2.
Qed.

Section page.
Context (kend : Z) (kend_pos : 0 < kend).

Lemma vm_inv_alone s t l m' pa :
  vm_inv kend s t l -> pa mod PGSIZE = 0 -> (forall r p, tbl t r = Some p -> p <> pa) -> same_outside pa (kmem s) m' ->
  vm_inv kend (mkKst m' 0) t [].
Proof.
  intros Hv Hpa Hne Hs. pose proof Hv as [Hf Ht Hp Hi]. split; cbn [kmem freelist].
  - split_and!; [done|apply NoDup_nil_2|apply Forall_nil_2].
  - assert (forall r p k, tbl t r = Some p -> 0 <= k < 512 -> load64 m' (p + 8 * k) = load64 (kmem s) (p + 8 * k)) as Hl.
    { intros r p k Hr Hk. apply (load_same_outside pa); [done|done| |by intros <-; eapply Hne|done].
      by destruct (Hp r p Hr) as [[? _] _]. }
    destruct Ht as [Tr T1 Tu]. split.
    + intros i Hi'. unfold points_to. rewrite (Hl Root) by done. apply (Tr i Hi').
    + intros i p j Hip Hj. unfold points_to. rewrite (Hl (L1 i)) by done. by apply (T1 i p j).
    + done.
  - intros r p Hr. split; [by apply (Hp r p)|by apply not_elem_of_nil].
  - done.
Qed.

Lemma MAKE_SATP_table pa : pa mod PGSIZE = 0 -> 0 <= pa < 2 ^ 56 -> satp_table (MAKE_SATP pa) = Some pa /\ MAKE_SATP pa <> 0.
Proof.
  unfold PGSIZE. intros Hm Hr. assert (MAKE_SATP pa = 2 ^ 63 + pa / 4096) as ->.
  { unfold MAKE_SATP, SATP_SV39. rewrite Z.shiftr_div_pow2 by lia. change (2 ^ 12) with 4096. change (Z.shiftl 8 60) with (2 ^ 63).
    rewrite <- Z.lxor_lor, Z.add_nocarry_lxor; [done|..]; apply Z.bits_inj'; intros k Hk; rewrite Z.land_spec, Z.bits_0, Z.pow2_bits_eqb by lia;
      destruct (Z.eqb_spec 63 k) as [<-|]; try done; rewrite (Z.bits_above_log2 (pa / 4096)); (done || dlia || idtac).
    all: destruct (decide (pa / 4096 = 0)) as [->|]; [by cbn|]; apply Z.log2_lt_pow2; dlia. }
  split; [|dlia]. unfold satp_table. rewrite Z.shiftr_div_pow2 by lia.
  replace ((2 ^ 63 + pa / 4096) / 2 ^ 60) with 8 by dlia. rewrite Z.eqb_refl.
  rewrite Z.land_ones, Z.shiftl_mul_pow2 by lia. f_equal. dlia.
Qed.

Lemma maps_page s t l va pa f :
  vm_inv kend s t l -> 0 <= va < MAXVA -> va mod PGSIZE = 0 -> pa mod PGSIZE = 0 -> 0 <= pa < 2 ^ 56 ->
  pte_of (kmem s) t va = mkpte pa f -> 0 <= f < 1024 -> 
  Z.land f PTE_V <> 0 -> Z.land f PTE_R <> 0 -> Z.land f PTE_W <> 0 -> Z.land f PTE_U = 0 ->
  (forall r p, tbl t r = Some p -> p <> pa) ->
  maps (MAKE_SATP (pt_root t)) (kmem s) va pa PGSIZE.
Proof.
  intros Hv Hva Hvm Hpm Hpr Hpte Hf HV HR HW HU Hne h s' perm k Hm Hc Hs Hperm Hk Hlen. unfold PGSIZE in Hlen.
  pose proof (vm_inv_alone s t l (kmem s') pa Hv Hpm Hne Hs) as Hv'.
  destruct (vi_pages _ _ _ _ Hv Root _ eq_refl) as [Hroot _]. apply (kpage_range kend kend_pos) in Hroot as (Hr0 & Hr1 & Hr2).
  destruct (MAKE_SATP_table (pt_root t)) as [Hst Hs0]; [done|unfold PGSIZE in *; lia|].
  assert (va + 8 * k < MAXVA) as Hmax by (unfold MAXVA, PGSIZE in *; dlia).
  assert ((va + 8 * k) / PGSIZE = va / PGSIZE) as Hpg by (unfold PGSIZE in *; dlia).
  apply PX_page in Hpg as (P2 & P1 & P0); [|lia|done].
  unfold phys. rewrite Hm, Hc. replace ((va + 8 * k) mod 8) with 0 by (unfold PGSIZE in *; dlia).
  rewrite bool_decide_eq_false_2 by done. rewrite (proj2 (Z.eqb_neq _ _) Hs0). cbn [negb Z.eqb orb]. rewrite Hst. cbn [mbind option_bind].
  unfold pte_of in Hpte. destruct (tbl t (L0 (PX 2 va) (PX 1 va))) as [p|] eqn:Et.
  2:{ assert (f = 0) as -> by (unfold mkpte, PGSIZE in *; dlia). done. }
  destruct (walk_mem (pt_root t) (va + 8 * k) (kmem s') Hmax) as [r Hr].
  pose proof (Hr 0) as Hw. rewrite (walk_present kend kend_pos _ t [] _ false p Hv') in Hw; [|lia|by rewrite P2, P1].
  injection Hw as <-. replace s' with (mkKst (kmem s') (freelist s')) at 1 by by destruct s'. rewrite Hr.
  destruct (vi_pages _ _ _ _ Hv _ _ Et) as [Hkp _]. destruct (kpage_range kend kend_pos _ Hkp) as (Hp0 & _ & Hp1).
  pose proof (PX_range 0 va ltac:(lia)). rewrite P0.
  rewrite (load_same_outside pa (kmem s) (kmem s') p (PX 0 va)) by (done || by intros <-; eapply Hne).
  rewrite Hpte. unfold istrue.
  rewrite !land_mkpte by (done || unfold PTE_V, PTE_U; lia || destruct Hperm as [-> | ->]; unfold PTE_R, PTE_W; lia).
  rewrite (proj2 (Z.eqb_neq (p + _) 0)) by lia. rewrite (proj2 (Z.eqb_neq _ _) HV), HU.
  assert (Z.land f perm <> 0) as Hp by (destruct Hperm as [->| ->]; done). rewrite (proj2 (Z.eqb_neq _ _) Hp).
  rewrite bool_decide_eq_false_2 by done. cbn [negb orb Bool.eqb Z.eqb]. rewrite PTE2PA_mkpte by done.
  f_equal. unfold PGSIZE in *. dlia.
Qed.
End page.

(** ** Saving and restoring registers *)

Definition wr64 (a v : Z) (s : kst) : kst := set_mem (fun m => store64 m a v) s.

(** The hart, in supervisor mode, sees the doublewords from [pa] at [va]. *)
Definition sees (h : hart) (s : kst) (va pa len : Z) : Prop :=
  h_mode h = SMode /\ maps (h_csr h CSR_satp) (kmem s) va pa len /\ 0 <= va /\ va + len <= 2 ^ 64.

Definition slot (len off : Z) : Prop := 0 <= off /\ off mod 8 = 0 /\ off + 8 <= len.

Lemma sees_write h s va pa len off v : sees h s va pa len -> slot len off -> sees h (wr64 (pa + off) v s) va pa len.
Proof.
  intros (Hm & Hp & Hr) (H1 & H2 & H3). split_and!; try done; try lia.
  eapply maps_same; [done|]. apply same_but_store; lia.
Qed.

Lemma sees_set_x h s va pa len r v : sees h s va pa len -> sees (set_x r v h) s va pa len.
Proof. done. Qed.

Lemma sees_set_csr h s va pa len c v : sees h s va pa len -> c <> CSR_satp -> sees (set_csr c v h) s va pa len.
Proof. intros (Hm & Hp & Hr) Hc. split_and!; try done; try lia. cbn. by rewrite fn_lookup_insert_ne. Qed.

Lemma sees_phys h s va pa len off perm :
  sees h s va pa len -> slot len off -> perm = PTE_R \/ perm = PTE_W -> phys perm (u64 (va + off)) h s = Some (pa + off).
Proof.
  intros (Hm & Hp & Hr) (H1 & H2 & H3) Hperm. rewrite u64_small by lia.
  replace off with (8 * (off / 8)) by dlia. apply Hp; try done; dlia.
Qed.

Lemma sd_ok h s va pa len rs off rb :
  sees h s va pa len -> h_x h rb = va -> slot len off ->
  exec_instr (sd rs off rb) (h, s) = Ok tt (h, wr64 (pa + off) (h_x h rs) s).
Proof.
  intros Hs <- Ho. cbn [exec_instr]. unfold rx, bind, gets. cbn [fst snd].
  rewrite (sees_phys _ _ _ _ _ _ PTE_W Hs Ho) by auto. done.
Qed.

Lemma ld_ok h s va pa len rd off rb :
  sees h s va pa len -> h_x h rb = va -> slot len off ->
  exec_instr (ld rd off rb) (h, s) = Ok tt (set_x rd (load64 (kmem s) (pa + off)) h, s).
Proof.
  intros Hs <- Ho. cbn [exec_instr]. unfold rx, bind, gets. cbn [fst snd].
  rewrite (sees_phys _ _ _ _ _ _ PTE_R Hs Ho) by auto. done.
Qed.

Lemma exec_code_app l1 l2 s s' : exec_code l1 s = Ok tt s' -> exec_code (l1 ++ l2) s = exec_code l2 s'.
Proof. intros H. unfold exec_code. rewrite for_each_app. exact (bind_ok _ (fun _ => for_each l2 exec_instr) _ _ _ H). Qed.

Lemma exec_code_cons i l s s' : exec_instr i s = Ok tt s' -> exec_code (i :: l) s = exec_code l s'.
Proof. intros H. exact (bind_ok _ (fun _ => exec_code l) _ _ _ H). Qed.

(** The registers of [l], with their offsets, stored from [pa] on. *)
Definition saves (l : list (reg * Z)) (pa : Z) (x : reg -> Z) (s : kst) : kst :=
  fold_left (fun s p => wr64 (pa + p.2) (x p.1) s) l s.
Definition restored (l : list (reg * Z)) (pa : Z) (s : kst) (h : hart) : hart :=
  fold_left (fun h p => set_x p.1 (load64 (kmem s) (pa + p.2)) h) l h.

Lemma exec_saves l h va pa len rb : forall s,
  sees h s va pa len -> h_x h rb = va -> Forall (slot len) l.*2 ->
  exec_code ((fun p => sd p.1 p.2 rb) <$> l) (h, s) = Ok tt (h, saves l pa (h_x h) s) /\ sees h (saves l pa (h_x h) s) va pa len.
Proof.
  induction l as [|[r o] l IH]; intros s Hs Hb Hl; cbn [fmap list_fmap saves fold_left fst snd] in *; [done|].
  apply Forall_cons in Hl as [Ho Hl]. rewrite (exec_code_cons _ _ _ _ (sd_ok h s va pa len r o rb Hs Hb Ho)).
  apply IH; [by apply sees_write|done|done].
Qed.

Lemma exec_restores l s va pa len rb : forall h,
  sees h s va pa len -> h_x h rb = va -> Forall (slot len) l.*2 ->
  (forall o, (rb, o) ∈ l -> load64 (kmem s) (pa + o) = va) ->
  exec_code ((fun p => ld p.1 p.2 rb) <$> l) (h, s) = Ok tt (restored l pa s h, s) /\
  sees (restored l pa s h) s va pa len /\ h_x (restored l pa s h) rb = va.
Proof.
  induction l as [|[r o] l IH]; intros h Hs Hb Hl Hrb; cbn [fmap list_fmap restored fold_left fst snd] in *; [done|].
  apply Forall_cons in Hl as [Ho Hl]. rewrite (exec_code_cons _ _ _ _ (ld_ok h s va pa len r o rb Hs Hb Ho)).
  apply IH; [by apply sees_set_x| |done|by intros; apply Hrb; right].
  cbn. destruct (decide (r = rb)) as [->|]; [rewrite fn_lookup_insert; apply Hrb; left|by rewrite fn_lookup_insert_ne].
Qed.

Lemma load_wr64_same a v s : 0 <= v < 2 ^ 64 -> load64 (kmem (wr64 a v s)) a = v.
Proof. apply load_store64_same. Qed.
Lemma load_wr64_other pa a b v s len : slot len a -> slot len b -> a <> b -> load64 (kmem (wr64 (pa + a) v s)) (pa + b) = load64 (kmem s) (pa + b).
Proof. intros Ha Hb Hn. apply load_store64_other. unfold slot in *. dlia. Qed.

Lemma load_saves_out l pa x len o : forall s,
  Forall (slot len) l.*2 -> slot len o -> o ∉ l.*2 -> load64 (kmem (saves l pa x s)) (pa + o) = load64 (kmem s) (pa + o).
Proof.
  induction l as [|[r o'] l IH]; intros s Hl Ho Hn; cbn [saves fold_left fst snd fmap list_fmap] in *; [done|].
  apply Forall_cons in Hl as [Ho' Hl]. apply not_elem_of_cons in Hn as [Hn1 Hn2].
  change (fold_left _ l ?s) with (saves l pa x s). rewrite IH by done. by eapply load_wr64_other.
Qed.

Lemma load_saves_in l pa x len r o : forall s,
  Forall (slot len) l.*2 -> NoDup l.*2 -> (r, o) ∈ l -> 0 <= x r < 2 ^ 64 -> load64 (kmem (saves l pa x s)) (pa + o) = x r.
Proof.
  induction l as [|[r' o'] l IH]; intros s Hl Hd Hin Hx; cbn [saves fold_left fst snd fmap list_fmap] in *; [by apply not_elem_of_nil in Hin|].
  apply Forall_cons in Hl as [Ho' Hl]. apply NoDup_cons in Hd as [Hd1 Hd2].
  change (fold_left _ l ?s) with (saves l pa x s). apply elem_of_cons in Hin as [[= <- <-]|Hin]; [|by apply IH].
  rewrite (load_saves_out _ _ _ len) by done. by apply load_wr64_same.
Qed.

Lemma saves_same_but l pa x len : forall s, Forall (slot len) l.*2 -> same_but pa len (kmem s) (kmem (saves l pa x s)).
Proof.
  induction l as [|[r o] l IH]; intros s Hl; cbn [saves fold_left fst snd fmap list_fmap] in *; [done|].
  apply Forall_cons in Hl as [(H1 & H2 & H3) Hl]. eapply same_but_trans; [|by apply IH]. apply same_but_store; lia.
Qed.

Lemma restored_out l pa s r : forall h, r ∉ l.*1 -> h_x (restored l pa s h) r = h_x h r.
Proof.
  induction l as [|[r' o] l IH]; intros h Hn; cbn [restored fold_left fst snd fmap list_fmap] in *; [done|].
  apply not_elem_of_cons in Hn as [H1 H2]. refine (eq_trans (IH _ H2) _). cbn. by rewrite fn_lookup_insert_ne.
Qed.

Lemma restored_in l pa s r o : forall h, NoDup l.*1 -> (r, o) ∈ l -> h_x (restored l pa s h) r = load64 (kmem s) (pa + o).
Proof.
  induction l as [|[r' o'] l IH]; intros h Hd Hin; cbn [restored fold_left fst snd fmap list_fmap] in *; [by apply not_elem_of_nil in Hin|].
  apply NoDup_cons in Hd as [H1 H2]. apply elem_of_cons in Hin as [[= <- <-]|Hin]; [|by apply IH].
  refine (eq_trans (restored_out _ _ _ _ _ H1) _). cbn. by rewrite fn_lookup_insert.
Qed.

Lemma restored_rest l pa s : forall h,
  h_csr (restored l pa s h) = h_csr h /\ h_mode (restored l pa s h) = h_mode h /\ h_pc (restored l pa s h) = h_pc h.
Proof. induction l as [|[r o] l IH]; intros h; [done|]. apply (IH (set_x r _ h)). Qed.
