(* ===== verification/Trap.v ===== *)
(** * Traps (kernel/trap.c, syscall.c, plic.c, start.c, trampoline.S, kernelvec.S)

    The way from a user program into the kernel and back, from the kernel into an
    interrupt handler and back, the system call table, and the set-up of a hart.
    The assembly is a list of the instructions of Riscv; C code works on the state
    [mach] of one hart and the kernel.  A function that gives the CPU up ends there
    and says so, and what follows when it runs again is a function of its own. *)

From S2P Require Import Prelude Mem Kalloc Vm Bio FsLayout TxnLayer Fs Pipe User Printf Proc File Syscall Sysfile Exec Tty Virtio Riscv.

(** ** Assembly *)

(** trampoline.S *)
Definition uservec : list instr :=
  [csrw CSR_sscratch X_a0; li X_a0 TRAPFRAME; sd X_ra 40 X_a0; sd X_sp 48 X_a0; sd X_gp 56 X_a0; sd X_tp 64 X_a0;
   sd X_t0 72 X_a0; sd X_t1 80 X_a0; sd X_t2 88 X_a0; sd X_s0 96 X_a0; sd X_s1 104 X_a0; sd X_a1 120 X_a0;
   sd X_a2 128 X_a0; sd X_a3 136 X_a0; sd X_a4 144 X_a0; sd X_a5 152 X_a0; sd X_a6 160 X_a0; sd X_a7 168 X_a0;
   sd X_s2 176 X_a0; sd X_s3 184 X_a0; sd X_s4 192 X_a0; sd X_s5 200 X_a0; sd X_s6 208 X_a0; sd X_s7 216 X_a0;
   sd X_s8 224 X_a0; sd X_s9 232 X_a0; sd X_s10 240 X_a0; sd X_s11 248 X_a0; sd X_t3 256 X_a0; sd X_t4 264 X_a0;
   sd X_t5 272 X_a0; sd X_t6 280 X_a0; csrr X_t0 CSR_sscratch; sd X_t0 112 X_a0; ld X_sp 8 X_a0; ld X_tp 32 X_a0;
   ld X_t0 16 X_a0; ld X_t1 0 X_a0; sfence; csrw CSR_satp X_t1; sfence; jr X_t0].

Definition userret : list instr :=
  [sfence; csrw CSR_satp X_a0; sfence; li X_a0 TRAPFRAME; ld X_ra 40 X_a0; ld X_sp 48 X_a0; ld X_gp 56 X_a0;
   ld X_tp 64 X_a0; ld X_t0 72 X_a0; ld X_t1 80 X_a0; ld X_t2 88 X_a0; ld X_s0 96 X_a0; ld X_s1 104 X_a0;
   ld X_a1 120 X_a0; ld X_a2 128 X_a0; ld X_a3 136 X_a0; ld X_a4 144 X_a0; ld X_a5 152 X_a0; ld X_a6 160 X_a0;
   ld X_a7 168 X_a0; ld X_s2 176 X_a0; ld X_s3 184 X_a0; ld X_s4 192 X_a0; ld X_s5 200 X_a0; ld X_s6 208 X_a0;
   ld X_s7 216 X_a0; ld X_s8 224 X_a0; ld X_s9 232 X_a0; ld X_s10 240 X_a0; ld X_s11 248 X_a0; ld X_t3 256 X_a0;
   ld X_t4 264 X_a0; ld X_t5 272 X_a0; ld X_t6 280 X_a0; ld X_a0 112 X_a0; sret].

(** kernelvec.S: up to the call of [kerneltrap], and after it. *)
Definition kernelvec_save : list instr :=
  [addi X_sp X_sp (-256); sd X_ra 0 X_sp; sd X_sp 8 X_sp; sd X_gp 16 X_sp; sd X_tp 24 X_sp; sd X_t0 32 X_sp;
   sd X_t1 40 X_sp; sd X_t2 48 X_sp; sd X_s0 56 X_sp; sd X_s1 64 X_sp; sd X_a0 72 X_sp; sd X_a1 80 X_sp;
   sd X_a2 88 X_sp; sd X_a3 96 X_sp; sd X_a4 104 X_sp; sd X_a5 112 X_sp; sd X_a6 120 X_sp; sd X_a7 128 X_sp;
   sd X_s2 136 X_sp; sd X_s3 144 X_sp; sd X_s4 152 X_sp; sd X_s5 160 X_sp; sd X_s6 168 X_sp; sd X_s7 176 X_sp;
   sd X_s8 184 X_sp; sd X_s9 192 X_sp; sd X_s10 200 X_sp; sd X_s11 208 X_sp; sd X_t3 216 X_sp; sd X_t4 224 X_sp;
   sd X_t5 232 X_sp; sd X_t6 240 X_sp].

Definition kernelvec_restore : list instr :=
  [ld X_ra 0 X_sp; ld X_sp 8 X_sp; ld X_gp 16 X_sp; ld X_t0 32 X_sp; ld X_t1 40 X_sp; ld X_t2 48 X_sp;
   ld X_s0 56 X_sp; ld X_s1 64 X_sp; ld X_a0 72 X_sp; ld X_a1 80 X_sp; ld X_a2 88 X_sp; ld X_a3 96 X_sp;
   ld X_a4 104 X_sp; ld X_a5 112 X_sp; ld X_a6 120 X_sp; ld X_a7 128 X_sp; ld X_s2 136 X_sp; ld X_s3 144 X_sp;
   ld X_s4 152 X_sp; ld X_s5 160 X_sp; ld X_s6 168 X_sp; ld X_s7 176 X_sp; ld X_s8 184 X_sp; ld X_s9 192 X_sp;
   ld X_s10 200 X_sp; ld X_s11 208 X_sp; ld X_t3 216 X_sp; ld X_t4 224 X_sp; ld X_t5 232 X_sp; ld X_t6 240 X_sp;
   addi X_sp X_sp 256; sret].

Definition timervec : list instr :=
  [csrrw X_a0 CSR_mscratch X_a0; sd X_a1 0 X_a0; sd X_a2 8 X_a0; sd X_a3 16 X_a0; ld X_a1 24 X_a0; ld X_a2 32 X_a0;
   ld X_a3 0 X_a1; add X_a3 X_a3 X_a2; sd X_a3 0 X_a1; li X_a1 2; csrw CSR_sip X_a1; ld X_a3 16 X_a0; ld X_a2 8 X_a0;
   ld X_a1 0 X_a0; csrrw X_a0 CSR_mscratch X_a0; mret].

(** ** Constants (kernel/memlayout.h, proc.h, syscall.h) *)

Definition UART0_IRQ : Z := 10.
Definition VIRTIO0_IRQ : Z := 1.
Definition CLINT : Z := 0x2000000.
Definition CLINT_MTIMECMP (hartid : Z) : Z := CLINT + 0x4000 + 8 * hartid.
Definition CLINT_MTIME : Z := CLINT + 0xBFF8.
Definition PLIC : Z := 0x0c000000.
Definition PLIC_SENABLE (hart : Z) : Z := PLIC + 0x2080 + hart * 0x100.
Definition PLIC_SPRIORITY (hart : Z) : Z := PLIC + 0x201000 + hart * 0x2000.
Definition PLIC_SCLAIM (hart : Z) : Z := PLIC + 0x201004 + hart * 0x2000.

Definition TF_kernel_satp : Z := 0.
Definition TF_kernel_sp : Z := 8.
Definition TF_kernel_trap : Z := 16.
Definition TF_kernel_hartid : Z := 32.

(** ** State *)

(** The 32-bit registers of the interrupt controller. *)
Class PlicDev (P : Type) := {
  plic_read : Z -> M P Z;
  plic_write : Z -> Z -> M P unit
}.

(** Where the drivers keep their state, among that of the file layer. *)
Class Drivers (F D V : Type) := {
  tty_of : F -> tty D;
  put_tty : tty D -> F -> F;
  disk_of : F -> vst V;
  put_disk : vst V -> F -> F
}.

(** A hart and the kernel: [m_first] is the static variable of [forkret]. *)
Record mach (T P : Type) := mkMach {
  m_hart : hart; m_k : pstate (kfs T); m_plic : P; m_ticks : Z; m_first : bool
}.
Arguments mkMach {T P}. Arguments m_hart {T P}. Arguments m_k {T P}. Arguments m_plic {T P}.
Arguments m_ticks {T P}. Arguments m_first {T P}.

(** How a system call ends, and how a trap from user space does. *)
Inductive sysend := SysRet (r : Z) | SysSleep | SysExit.
Inductive uend := UReturn (satp : Z) | UYield | USleep | UExit.

Section trap.
Context {T D V P : Type} {TO : TxnOps T} {OO : OpOps T} {FO : FileOps (kfs T)}.
Context {UD : UartDev D} {VR : VirtioRegs V} {PD : PlicDev P} {DR : Drivers (kfs T) D V}.
(** The addresses of the symbols: of the end of the kernel, of functions, of the
    trampoline page and of what is slept on. *)
Context (kend trampoline forkret_addr uservec_addr userret_addr kernelvec_addr usertrap_addr : Z).
Context (ticks_addr : Z) (tty_chan : tchan -> Z) (disk_chan : vchan -> Z) (dev_chan : Z -> chan -> Z).
(** The parameters of the models below: bounds of the UART's loops, the functions
    of [devsw], what the stack holds, and the log's part of [fsinit]. *)
Context (patience rounds : nat).
Context (dev_read dev_write : Z -> option (Z -> Z -> M (kst * kfs T) segment)).
Context (name0 pad elf0 ph0 : list byte).
Context (initlog : Z -> superblock -> M T unit).

Abbreviation K := (pstate (kfs T)).

Definition hw {A} (m : M hart A) : M (mach T P) A :=
  zoom m_hart (fun h s => mkMach h (m_k s) (m_plic s) (m_ticks s) (m_first s)) m.
Definition in_k {A} (m : M K A) : M (mach T P) A :=
  zoom m_k (fun k s => mkMach (m_hart s) k (m_plic s) (m_ticks s) (m_first s)) m.
Definition in_plic {A} (m : M P A) : M (mach T P) A :=
  zoom m_plic (fun p s => mkMach (m_hart s) (m_k s) p (m_ticks s) (m_first s)) m.
Definition set_ticks (t : Z) : M (mach T P) unit :=
  modify (fun s => mkMach (m_hart s) (m_k s) (m_plic s) t (m_first s)).

(** Assembly runs on the hart and the memory. *)
Definition asm (l : list instr) : M (mach T P) unit :=
  zoom (fun s => (m_hart s, ps_mem (m_k s)))
       (fun c s => mkMach c.1 (mkPs (ps_procs (m_k s)) (ps_nextpid (m_k s)) (ps_init (m_k s)) c.2 (ps_files (m_k s)))
                          (m_plic s) (m_ticks s) (m_first s))
       (exec_code l).

(** ** Wakeups of the drivers and of the pipes, which their models record *)

Definition upd_kfs (f : kfs T -> kfs T) (s : K) : K :=
  mkPs (ps_procs s) (ps_nextpid s) (ps_init s) (ps_mem s) (f (ps_files s)).

Definition in_tty {A} (m : M (tty D) A) : M K A := zoom (fun s => tty_of (ps_files s)) (fun t => upd_kfs (put_tty t)) m.
Definition in_disk {A} (m : M (vst V) A) : M K A := zoom (fun s => disk_of (ps_files s)) (fun d => upd_kfs (put_disk d)) m.

Definition tty_wakeups (me : option nat) : M K unit :=
  l <- in_tty (gets t_woken);;
  in_tty (modify (fun t => mkTty (t_cons t) (t_uart t) (t_panicked t) (t_dev t) []));;;
  for_each l (fun c => wakeup me (CAddr (tty_chan c))).

Definition disk_wakeups (me : option nat) : M K unit :=
  l <- in_disk (gets v_woken);;
  in_disk (modify (fun d => mkVst (v_free d) (v_used_idx d) (v_mem d) (v_dev d) []));;;
  for_each l (fun c => wakeup me (CAddr (disk_chan c))).

(** The offsets of [nread] and [nwrite] in [struct pipe]. *)
Definition chan_addr (pi : Z) (c : chan) : Z := pi + match c with ch_nread => 536 | ch_nwrite => 540 end.

Definition pipe_wakeups (me : option nat) : M K unit :=
  l <- gets (fun s => k_woken (ps_files s));;
  modify (upd_kfs (fun f => mkKfs (k_fs f) (k_files f) (k_pipes f) []));;;
  for_each l (fun x => wakeup me (CAddr (chan_addr x.1 x.2))).

(** [printf] to the console. *)
Definition kprintf (fmt : list byte) (ap : list varg) : M K unit :=
  match Printf.Kernel.printf (Some fmt) ap (Printf.Kernel.mkKout [] true false) with
  | Ok _ k => in_tty (for_each (Printf.Kernel.ko_chars k) (fun b => consputc patience (byte_to_Z b)))
  | _ => undef
  end.

(** ** plic.c *)

Definition cpuid : M (mach T P) Z := x <- hw r_tp;; ret (i32 x).

Definition plicinit : M (mach T P) unit :=
  in_plic (plic_write (PLIC + UART0_IRQ * 4) 1);;;
  in_plic (plic_write (PLIC + VIRTIO0_IRQ * 4) 1).

Definition plicinithart : M (mach T P) unit :=
  hart <- cpuid;;
  in_plic (plic_write (PLIC_SENABLE hart) (Z.lor (Z.shiftl 1 UART0_IRQ) (Z.shiftl 1 VIRTIO0_IRQ)));;;
  in_plic (plic_write (PLIC_SPRIORITY hart) 0).

Definition plic_claim : M (mach T P) Z := hart <- cpuid;; irq <- in_plic (plic_read (PLIC_SCLAIM hart));; ret (i32 irq).
Definition plic_complete (irq : Z) : M (mach T P) unit := hart <- cpuid;; in_plic (plic_write (PLIC_SCLAIM hart) (u32 irq)).

(** ** Interrupts (trap.c)

    [me] is the process that runs on this hart, if any. *)

Definition clockintr (me : option nat) : M (mach T P) unit :=
  t <- gets m_ticks;;
  set_ticks (u32 (t + 1));;;
  in_k (wakeup me (CAddr ticks_addr)).

Definition devintr (me : option nat) : M (mach T P) Z :=
  scause <- hw r_scause;;
  if istrue (Z.land scause 0x8000000000000000) && (Z.land scause 0xff =? 9) then
    irq <- plic_claim;;
    (if irq =? UART0_IRQ then
       procs <- gets (fun s => ps_procs (m_k s));;
       in_k (in_tty (uartintr patience rounds procs));;;
       in_k (tty_wakeups me)
     else if irq =? VIRTIO0_IRQ then
       in_k (in_disk virtio_disk_intr);;;
       in_k (disk_wakeups me)
     else if istrue irq then
       in_k (kprintf (bytes "unexpected interrupt irq=%d" ++ [x0a; x00]) [VInt irq])
     else ret tt);;;
    (if istrue irq then plic_complete irq else ret tt);;;
    ret 1
  else if scause =? 0x8000000000000001 then
    id <- cpuid;;
    (if id =? 0 then clockintr me else ret tt);;;
    x <- hw r_sip;;
    hw (w_sip (Z.land x (Z.lnot 2)));;;
    ret 2
  else ret 0.

Definition trapinithart : M (mach T P) unit := hw (w_stvec kernelvec_addr).

(** From the handler of a trap in the kernel to where the process gives the CPU
    up, if it does; the saved registers are restored when it is back. *)
Definition kerneltrap (me : option nat) : M (mach T P) (bool * Z * Z) :=
  sepc <- hw r_sepc;;
  sstatus <- hw r_sstatus;;
  scause <- hw r_scause;;
  if Z.land sstatus SSTATUS_SPP =? 0 then panic "kerneltrap: not from supervisor mode"
  else
    i <- hw intr_get;;
    if i : bool then panic "kerneltrap: interrupts enabled"
    else
      which_dev <- devintr me;;
      if which_dev =? 0 then
        in_k (kprintf (bytes "scause %p" ++ [x0a; x00]) [VInt scause]);;;
        e <- hw r_sepc;;
        v <- hw r_stval;;
        in_k (kprintf (bytes "sepc=%p stval=%p" ++ [x0a; x00]) [VInt e; VInt v]);;;
        panic "kerneltrap"
      else
        y <- (if which_dev =? 2 then
                match me with
                | Some i =>
                  p <- in_k (at_proc i);;
                  if bool_decide (p_state p = RUNNING) then in_k (yield i);;; ret true else ret false
                | None => ret false
                end
              else ret false);;
        ret (y, sepc, sstatus).

Definition kerneltrap_return (sepc sstatus : Z) : M (mach T P) unit := hw (w_sepc sepc);;; hw (w_sstatus sstatus).

(** ** System calls (syscall.c) *)

Section process.
Context (me : nat).

Definition tf_get (off : Z) : M K Z := p <- at_proc me;; in_mem (gets (fun s => load64 (kmem s) (p_trapframe p + off))).

Definition value (m : M K Z) : M (mach T P) sysend := r <- in_k m;; in_k (pipe_wakeups (Some me));;; ret (SysRet r).
Definition waits (m : M K wait_end) : M (mach T P) sysend :=
  r <- in_k m;; ret (match r with Proc.WReturn r => SysRet r | Proc.WSleep => SysSleep end).

(** A read or write that sleeps does so on the pipe or device of its file. *)
Definition transfers (m : M K segment) : M (mach T P) sysend :=
  r <- in_k m;;
  in_k (pipe_wakeups (Some me));;;
  match r with
  | Return r => ret (SysRet r)
  | Sleep c _ =>
    in_k (a <- argfd me 0;;
          f <- from_opt (snd <$> a);;
          x <- in_files (file_of f);;
          sleep me (CAddr (if bool_decide (f_type x = FD_PIPE) then chan_addr (f_pipe x) c else dev_chan (f_major x) c)));;;
    ret SysSleep
  end.

Definition k_exit (status : Z) : M K unit := exit me status;;; pipe_wakeups (Some me).

Definition syscalls (num : Z) : option (M (mach T P) sysend) :=
  match num with
  | 1 => Some (value (sys_fork kend trampoline forkret_addr me))
  | 2 => Some (in_k (n <- argint me 0;; k_exit n);;; ret SysExit)
  | 3 => Some (waits (sys_wait kend me))
  | 4 => Some (value (sys_pipe kend me))
  | 5 => Some (transfers (sys_read dev_read me))
  | 6 => Some (value (sys_kill me))
  | 7 => Some (value (sys_exec kend trampoline elf0 ph0 me))
  | 8 => Some (value (sys_fstat pad me))
  | 9 => Some (value (sys_chdir me))
  | 10 => Some (value (sys_dup me))
  | 11 => Some (value (sys_getpid me))
  | 12 => Some (value (sys_sbrk kend me))
  | 13 => Some (n <- in_k (argint me 0);; t <- gets m_ticks;; waits (sys_sleep me ticks_addr t t n))
  | 14 => Some (t <- gets m_ticks;; value (sys_uptime t))
  | 15 => Some (value (sys_open kend name0 me))
  | 16 => Some (transfers (sys_write dev_write me 0))
  | 17 => Some (value (sys_mknod name0 me))
  | 18 => Some (value (sys_unlink name0 me))
  | 19 => Some (value (sys_link name0 me))
  | 20 => Some (value (sys_mkdir name0 me))
  | 21 => Some (value (sys_close kend me))
  | _ => None
  end.

Definition syscall : M (mach T P) sysend :=
  p <- in_k (at_proc me);;
  a7 <- in_k (tf_get TF_a7);;
  let num := i32 a7 in
  match (if (0 <? num) && (num <? 22) then syscalls num else None) with
  | Some call =>
    r <- call;;
    match r with
    | SysRet v => in_k (tf_set me TF_a0 (u64 v));;; ret r
    | _ => ret r
    end
  | None =>
    in_k (kprintf (bytes "%d %s: unknown sys call %d" ++ [x0a; x00]) [VInt (p_pid p); VStr (Some (p_name p)); VInt num]);;;
    in_k (tf_set me TF_a0 (u64 (-1)));;;
    ret (SysRet (-1))
  end.

(** ** Traps from user space (trap.c) *)

(** Up to the jump to [userret], with its argument. *)
Definition usertrapret : M (mach T P) Z :=
  hw intr_off;;;
  hw (w_stvec (TRAMPOLINE + (uservec_addr - trampoline)));;;
  satp <- hw r_satp;;
  in_k (tf_set me TF_kernel_satp satp);;;
  p <- in_k (at_proc me);;
  in_k (tf_set me TF_kernel_sp (u64 (p_kstack p + PGSIZE)));;;
  in_k (tf_set me TF_kernel_trap usertrap_addr);;;
  tp <- hw r_tp;;
  in_k (tf_set me TF_kernel_hartid tp);;;
  x <- hw r_sstatus;;
  let x := Z.land x (Z.lnot SSTATUS_SPP) in
  let x := Z.lor x SSTATUS_SPIE in
  hw (w_sstatus x);;;
  epc <- in_k (tf_get TF_epc);;
  hw (w_sepc epc);;;
  ret (MAKE_SATP (p_pagetable p)).

(** [usertrap] from [if(killed(p))] on, and what is left of it after [yield]. *)
Definition usertrap_end (which_dev : Z) : M (mach T P) uend :=
  k <- in_k (killed me);;
  if k : bool then in_k (k_exit (-1));;; ret UExit
  else if which_dev =? 2 then in_k (yield me);;; ret UYield
  else satp <- usertrapret;; ret (UReturn satp).
Definition usertrap_yielded : M (mach T P) uend := satp <- usertrapret;; ret (UReturn satp).

(** The rest of [usertrap] when a system call that slept returns [v]. *)
Definition usertrap_slept (v : Z) : M (mach T P) uend :=
  in_k (tf_set me TF_a0 (u64 v));;;
  usertrap_end 0.

Definition usertrap : M (mach T P) uend :=
  x <- hw r_sstatus;;
  if negb (Z.land x SSTATUS_SPP =? 0) then panic "usertrap: not from user mode"
  else
    hw (w_stvec kernelvec_addr);;;
    sepc <- hw r_sepc;;
    in_k (tf_set me TF_epc sepc);;;
    scause <- hw r_scause;;
    if scause =? 8 then
      k <- in_k (killed me);;
      if k : bool then in_k (k_exit (-1));;; ret UExit
      else
        epc <- in_k (tf_get TF_epc);;
        in_k (tf_set me TF_epc (u64 (epc + 4)));;;
        hw intr_on;;;
        r <- syscall;;
        match r with
        | SysRet _ => usertrap_end 0
        | SysSleep => ret USleep
        | SysExit => ret UExit
        end
    else
      which_dev <- devintr (Some me);;
      (if negb (which_dev =? 0) then ret tt
       else
         c <- hw r_scause;;
         p <- in_k (at_proc me);;
         in_k (kprintf (bytes "usertrap(): unexpected scause %p pid=%d" ++ [x0a; x00]) [VInt c; VInt (p_pid p)]);;;
         e <- hw r_sepc;;
         v <- hw r_stval;;
         in_k (kprintf (bytes "            sepc=%p stval=%p" ++ [x0a; x00]) [VInt e; VInt v]);;;
         in_k (setkilled me));;;
      usertrap_end which_dev.

(** Where a new process starts (proc.c). *)
Definition forkret : M (mach T P) uend :=
  first <- gets m_first;;
  (if first : bool then
     modify (fun s => mkMach (m_hart s) (m_k s) (m_plic s) (m_ticks s) false);;;
     in_k (in_files (in_fs (fsinit ROOTDEV initlog)))
   else ret tt);;;
  satp <- usertrapret;;
  ret (UReturn satp).
End process.

(** ** The whole way

    C code leaves in the registers what it likes, [junk], except that it keeps [tp]
    and, by the calling convention, [sp]. *)

Definition clobber (junk : reg -> Z) : M hart unit :=
  modify (fun h => mkHart (fun r => if bool_decide (r = X_tp) || bool_decide (r = X_sp) then h_x h r else junk r)
                          (h_csr h) (h_mode h) (h_pc h)).

(** The call [userret(satp)]. *)
Definition to_user (junk : reg -> Z) (satp : Z) : M (mach T P) unit :=
  hw (clobber junk);;;
  hw (modify (set_x X_a0 satp));;;
  hw (modify (set_pc (TRAMPOLINE + (userret_addr - trampoline))));;;
  asm userret.

Definition finish (junk : reg -> Z) (r : uend) : M (mach T P) uend :=
  match r with UReturn satp => to_user junk satp;;; ret r | _ => ret r end.

(** A trap in the user program of process [me]. *)
Definition user_trap (me : nat) (junk : reg -> Z) (cause tval : Z) : M (mach T P) uend :=
  hw (trap_s cause tval);;;
  asm uservec;;;
  r <- usertrap me;;
  finish junk r.

(** A trap in the kernel, when the process keeps the CPU; with [true] it has given
    it up, and [kernel_trap_back] is what is left. *)
Definition kernel_trap_back (junk : reg -> Z) (sepc sstatus : Z) : M (mach T P) unit :=
  kerneltrap_return sepc sstatus;;;
  hw (clobber junk);;;
  asm kernelvec_restore.

Definition kernel_trap (me : option nat) (junk : reg -> Z) (cause tval : Z) : M (mach T P) (bool * Z * Z) :=
  hw (trap_s cause tval);;;
  asm kernelvec_save;;;
  r <- kerneltrap me;;
  (if r.1.1 : bool then ret tt else kernel_trap_back junk r.1.2 r.2);;;
  ret r.
End trap.

(** ** start.c *)

Section start.
(** The addresses of [main], [timervec] and [timer_scratch]. *)
Context (main_addr timervec_addr timer_scratch : Z).

Definition store (a v : Z) : M cpu unit := modify (fun s => (s.1, set_mem (fun m => store64 m a v) s.2)).

(** The timer's registers are where the CLINT has them. *)
Definition timerinit : M cpu unit :=
  id <- on_hart r_mhartid;;
  let id := i32 id in
  let interval := 1000000 in
  now <- gets (fun s : cpu => load64 (kmem s.2) CLINT_MTIME);;
  store (CLINT_MTIMECMP id) (u64 (now + interval));;;
  let scratch := timer_scratch + 40 * id in
  store (scratch + 24) (CLINT_MTIMECMP id);;;
  store (scratch + 32) interval;;;
  on_hart (w_mscratch scratch);;;
  on_hart (w_mtvec timervec_addr);;;
  x <- on_hart r_mstatus;;
  on_hart (w_mstatus (Z.lor x MSTATUS_MIE));;;
  x <- on_hart r_mie;;
  on_hart (w_mie (Z.lor x MIE_MTIE)).

Definition start : M cpu unit :=
  x <- on_hart r_mstatus;;
  let x := Z.land x (Z.lnot MSTATUS_MPP_MASK) in
  let x := Z.lor x MSTATUS_MPP_S in
  on_hart (w_mstatus x);;;
  on_hart (w_mepc main_addr);;;
  on_hart (w_satp 0);;;
  on_hart (w_medeleg 0xffff);;;
  on_hart (w_mideleg 0xffff);;;
  x <- on_hart r_sie;;
  on_hart (w_sie (Z.lor (Z.lor (Z.lor x SIE_SEIE) SIE_STIE) SIE_SSIE));;;
  on_hart (w_pmpaddr0 0x3fffffffffffff);;;
  on_hart (w_pmpcfg0 0xf);;;
  timerinit;;;
  id <- on_hart r_mhartid;;
  on_hart (w_tp (u64 (i32 id)));;;
  on_hart do_mret.
End start.
