(* ===== verification/TrapSpec.v ===== *)
(** * What the trap handlers' assembly does

    [uservec] saves the user's registers in the trapframe and enters the kernel,
    [userret] loads them and leaves it, [kernelvec] does the same on the kernel's
    stack, and [timervec] turns a timer interrupt into a software interrupt. *)

From S2P Require Import Prelude Mem Kalloc Vm Proc Riscv RiscvSpec Trap.

(** The registers that a handler's stores or loads move, with the offsets. *)
Definition moved (l : list instr) : list (reg * Z) :=
  omap (fun i => match i with sd r o _ | ld r o _ => Some (r, o) | _ => None end) l.

(** All registers but [a0], and all of them, in the trapframe. *)
Definition tf_list : list (reg * Z) := Eval vm_compute in moved (take 32 uservec).
Definition tf_all : list (reg * Z) := tf_list ++ [(X_a0, TF_a0)].
(** On the kernel's stack. *)
Definition kv_list : list (reg * Z) := Eval vm_compute in moved kernelvec_save.
Definition kv_back : list (reg * Z) := Eval vm_compute in moved kernelvec_restore.

Lemma uservec_eq :
  uservec = [csrw CSR_sscratch X_a0; li X_a0 TRAPFRAME] ++ ((fun p => sd p.1 p.2 X_a0) <$> tf_list) ++
    [csrr X_t0 CSR_sscratch; sd X_t0 112 X_a0; ld X_sp 8 X_a0; ld X_tp 32 X_a0; ld X_t0 16 X_a0; ld X_t1 0 X_a0; sfence;
     csrw CSR_satp X_t1; sfence; jr X_t0].
Proof. reflexivity. Qed.

Lemma userret_eq :
  userret = [sfence; csrw CSR_satp X_a0; sfence; li X_a0 TRAPFRAME] ++ ((fun p => ld p.1 p.2 X_a0) <$> tf_list) ++ [ld X_a0 112 X_a0; sret].
Proof. reflexivity. Qed.

Lemma kernelvec_save_eq : kernelvec_save = [addi X_sp X_sp (-256)] ++ ((fun p => sd p.1 p.2 X_sp) <$> kv_list).
Proof. reflexivity. Qed.

Lemma kernelvec_restore_eq :
  kernelvec_restore = ((fun p => ld p.1 p.2 X_sp) <$> kv_back) ++ [addi X_sp X_sp 256; sret].
Proof. reflexivity. Qed.

Lemma slots_bool len (l : list (reg * Z)) :
  forallb (fun p : reg * Z => (0 <=? p.2) && (p.2 mod 8 =? 0) && (p.2 + 8 <=? len)) l = true -> Forall (slot len) l.*2.
Proof.
  intros H. apply Forall_fmap, Forall_forall. intros p Hp. rewrite forallb_forall in H.
  specialize (H p (proj1 (list_elem_of_In _ _) Hp)). unfold slot. cbn. bprop. lia.
Qed.

Lemma tf_slots : Forall (slot TF_size) tf_list.*2.
Proof. by apply slots_bool. Qed.
Lemma tf_all_slots : Forall (slot TF_size) tf_all.*2.
Proof. by apply slots_bool. Qed.
Lemma kv_slots : Forall (slot 256) kv_list.*2.
Proof. by apply slots_bool. Qed.
Lemma kv_back_slots : Forall (slot 256) kv_back.*2.
Proof. by apply slots_bool. Qed.

Lemma tf_offsets : NoDup tf_all.*2.
Proof. apply (bool_decide_unpack _). by vm_compute. Qed.
Lemma tf_regs : NoDup tf_all.*1.
Proof. apply (bool_decide_unpack _). by vm_compute. Qed.
Lemma kv_offsets : NoDup kv_list.*2.
Proof. apply (bool_decide_unpack _). by vm_compute. Qed.
Lemma kv_back_regs : NoDup kv_back.*1.
Proof. apply (bool_decide_unpack _). by vm_compute. Qed.

(** Every register has a place. *)
Definition tf_off (r : reg) : Z := default 0 (snd <$> (list_find (fun p => p.1 = r) tf_all ≫= fun x => Some x.2)).
Definition kv_off (r : reg) : Z := default 0 (snd <$> (list_find (fun p => p.1 = r) kv_list ≫= fun x => Some x.2)).

Lemma tf_off_in r : (r, tf_off r) ∈ tf_all.
Proof. apply (bool_decide_unpack _). by destruct r; vm_compute. Qed.
Lemma kv_off_in r : (r, kv_off r) ∈ kv_list.
Proof. apply (bool_decide_unpack _). by destruct r; vm_compute. Qed.
Lemma kv_off_back r : r <> X_tp -> (r, kv_off r) ∈ kv_back.
Proof. intros H. apply (bool_decide_unpack _). destruct r; (by vm_compute) || done. Qed.

Lemma tf_off_slot r : slot TF_size (tf_off r).
Proof. pose proof tf_all_slots as H. rewrite Forall_forall in H. apply H, list_elem_of_fmap. exists (r, tf_off r). split; [done|apply tf_off_in]. Qed.

(** The trapframe at [pa] holds the values [x] of the registers. *)
Definition holds_regs (m : pmem) (pa : Z) (x : reg -> Z) : Prop := forall r, load64 m (pa + tf_off r) = x r.

Definition machine_regs (h : hart) : Prop := (forall r, 0 <= h_x h r < 2 ^ 64) /\ 0 <= h_pc h < 2 ^ 64.

(** The kernel's words of the trapframe. *)
Definition kslot (o : Z) : Prop := o = TF_kernel_satp \/ o = TF_kernel_sp \/ o = TF_kernel_trap \/ o = TF_epc \/ o = TF_kernel_hartid.

Lemma kslot_ok o : kslot o -> slot TF_size o /\ o ∉ tf_all.*2.
Proof.
  intros H. unfold slot, TF_size. destruct H as [->|[->|[->|[->| ->]]]]; (split; [by vm_compute|apply (bool_decide_unpack _); by vm_compute]).
Qed.

Lemma freelist_saves l pa x : forall s, freelist (saves l pa x s) = freelist s.
Proof. induction l as [|p l IH]; intros s; [done|]. apply (IH (wr64 _ _ s)). Qed.

(** ** [uservec] and [userret] *)

Lemma tf_list_regs : X_a0 ∉ tf_list.*1.
Proof. apply (bool_decide_unpack _). by vm_compute. Qed.

Lemma holds_saves pa x s :
  (forall r, 0 <= x r < 2 ^ 64) -> holds_regs (kmem (saves tf_all pa x s)) pa x.
Proof. intros Hx r. apply (load_saves_in _ _ _ TF_size); [apply tf_all_slots|apply tf_offsets|apply tf_off_in|done]. Qed.

Lemma kslot_saves pa x s o : kslot o -> load64 (kmem (saves tf_all pa x s)) (pa + o) = load64 (kmem s) (pa + o).
Proof. intros [Ho Hn]%kslot_ok. apply (load_saves_out _ _ _ TF_size); [apply tf_all_slots|done|done]. Qed.

Lemma saves_ext l pa x y : forall s, (forall r, r ∈ l.*1 -> x r = y r) -> saves l pa x s = saves l pa y s.
Proof.
  induction l as [|[r o] l IH]; intros s H; [done|]. unfold saves. cbn [fold_left fst snd].
  rewrite (H r) by (left). apply IH. intros r' Hr. apply H. by right.
Qed.

Lemma uservec_ok h s pa :
  sees h s TRAPFRAME pa TF_size ->
  let s' := saves tf_all pa (h_x h) s in
  exists h', exec_code uservec (h, s) = Ok tt (h', s') /\
    h_mode h' = SMode /\ h_pc h' = load64 (kmem s') (pa + TF_kernel_trap) /\
    h_x h' X_sp = load64 (kmem s') (pa + TF_kernel_sp) /\ h_x h' X_tp = load64 (kmem s') (pa + TF_kernel_hartid) /\
    h_csr h' CSR_satp = load64 (kmem s') (pa + TF_kernel_satp) /\
    (forall c, c <> CSR_satp -> c <> CSR_sscratch -> h_csr h' c = h_csr h c).
Proof.
  intros Hs s'. rewrite uservec_eq.
  set (h1 := set_x X_a0 TRAPFRAME (set_csr CSR_sscratch (h_x h X_a0) h)).
  assert (sees h1 s TRAPFRAME pa TF_size) as Hs1 by by apply sees_set_csr.
  rewrite (exec_code_app _ _ _ (h1, s)) by done.
  destruct (exec_saves tf_list h1 TRAPFRAME pa TF_size X_a0 s Hs1 eq_refl tf_slots) as [E Hs2].
  rewrite (saves_ext _ _ (h_x h1) (h_x h)) in E, Hs2
    by (intros r Hr; cbn; rewrite fn_lookup_insert_ne; [done|by intros <-; apply tf_list_regs]).
  rewrite (exec_code_app _ _ _ _ E). set (s1 := saves tf_list pa (h_x h) s) in *.
  set (h2 := set_x X_t0 (h_x h X_a0) h1).
  rewrite (exec_code_cons _ _ _ (h2, s1)) by done.
  assert (s' = wr64 (pa + 112) (h_x h X_a0) s1) as Hs' by (unfold s', s1, tf_all, saves; by rewrite fold_left_app).
  rewrite (exec_code_cons _ _ _ (h2, s')) by (rewrite Hs'; by apply (sd_ok h2 s1 TRAPFRAME pa TF_size X_t0 112 X_a0)).
  assert (sees h2 s' TRAPFRAME pa TF_size) as Hs3 by (rewrite Hs'; by apply sees_write).
  clearbody s'. clear Hs' Hs2 E s1.
  rewrite (exec_code_cons _ _ _ _ (ld_ok h2 s' _ pa TF_size X_sp 8 X_a0 Hs3 eq_refl ltac:(done))). set (h3 := set_x X_sp _ h2).
  rewrite (exec_code_cons _ _ _ _ (ld_ok h3 s' _ pa TF_size X_tp 32 X_a0 Hs3 eq_refl ltac:(done))). set (h4 := set_x X_tp _ h3).
  rewrite (exec_code_cons _ _ _ _ (ld_ok h4 s' _ pa TF_size X_t0 16 X_a0 Hs3 eq_refl ltac:(done))). set (h5 := set_x X_t0 _ h4).
  rewrite (exec_code_cons _ _ _ _ (ld_ok h5 s' _ pa TF_size X_t1 0 X_a0 Hs3 eq_refl ltac:(done))). set (h6 := set_x X_t1 _ h5).
  eexists. split; [reflexivity|]. split_and!; try done; [apply Hs|].
  intros c H1 H2. cbn. by rewrite !fn_lookup_insert_ne.
Qed.

(** [userret], called with the page table that maps the trapframe. *)
Lemma userret_ok h s pa :
  h_mode h = SMode -> maps (h_x h X_a0) (kmem s) TRAPFRAME pa TF_size -> Z.testbit (h_csr h CSR_sstatus) 8 = false ->
  exists h', exec_code userret (h, s) = Ok tt (h', s) /\
    h_mode h' = UMode /\ h_pc h' = h_csr h CSR_sepc /\ holds_regs (kmem s) pa (h_x h') /\
    h_csr h' CSR_satp = h_x h X_a0 /\
    h_csr h' CSR_sstatus = put_bit 8 false (put_bit 5 true (put_bit 1 (Z.testbit (h_csr h CSR_sstatus) 5) (h_csr h CSR_sstatus))) /\
    (forall c, c <> CSR_satp -> c <> CSR_sstatus -> h_csr h' c = h_csr h c).
Proof.
  intros Hm Hp H8. rewrite userret_eq.
  set (h1 := set_x X_a0 TRAPFRAME (set_csr CSR_satp (h_x h X_a0) h)).
  assert (sees h1 s TRAPFRAME pa TF_size) as Hs1 by done.
  rewrite (exec_code_app _ _ _ (h1, s)) by done.
  destruct (exec_restores tf_list s TRAPFRAME pa TF_size X_a0 h1 Hs1 eq_refl tf_slots) as (E & Hs2 & Ha).
  { intros o Ho. destruct tf_list_regs. apply list_elem_of_fmap. by exists (X_a0, o). }
  rewrite (exec_code_app _ _ _ _ E). set (h2 := restored tf_list pa s h1) in *.
  rewrite (exec_code_cons _ _ _ _ (ld_ok h2 s _ pa TF_size X_a0 112 X_a0 Hs2 Ha ltac:(done))).
  assert ((set_x X_a0 (load64 (kmem s) (pa + 112)) h2) = (restored tf_all pa s h1)) as ->
    by (unfold h2, tf_all, restored; by rewrite fold_left_app).
  destruct (restored_rest tf_all pa s h1) as (Ec & Em & Ep). set (h3 := restored tf_all pa s h1) in *.
  assert (forall r, h_x h3 r = load64 (kmem s) (pa + tf_off r)) as Hx
    by (intros r; apply restored_in; [apply tf_regs|apply tf_off_in]).
  clearbody h3. rewrite (exec_code_cons _ _ _ (mkHart (h_x h3)
    (<[CSR_sstatus := put_bit 8 false (put_bit 5 true (put_bit 1 (Z.testbit (h_csr h CSR_sstatus) 5) (h_csr h CSR_sstatus)))]> (h_csr h3))
    UMode (h_csr h CSR_sepc), s)).
  - eexists. split; [reflexivity|]. cbn. split_and!; try done.
    + intros r. by rewrite Hx.
    + by rewrite Ec.
    + intros c H1 H2. rewrite fn_lookup_insert_ne by done. rewrite Ec. cbn. by rewrite fn_lookup_insert_ne.
  - cbn [exec_instr]. unfold on_hart, zoom, do_sret. cbn [fst snd]. rewrite Em, Ec. cbn [h1 set_x set_csr h_csr h_mode].
    rewrite !(fn_lookup_insert_ne (h_csr h) CSR_satp) by done. rewrite Hm, H8. done.
Qed.

(** ** [kernelvec] *)

Definition sret_status (x : Z) : Z := put_bit 8 false (put_bit 5 true (put_bit 1 (Z.testbit x 5) x)).

(** The 256 bytes below the stack pointer hold the registers [x]. *)
Definition holds_stack (m : pmem) (pa : Z) (x : reg -> Z) : Prop :=
  forall r, r <> X_sp -> load64 m (pa + kv_off r) = x r.

Lemma kernelvec_save_ok h s pa :
  sees h s (h_x h X_sp - 256) pa 256 -> (forall r, 0 <= h_x h r < 2 ^ 64) ->
  exists s', exec_code kernelvec_save (h, s) = Ok tt (set_x X_sp (h_x h X_sp - 256) h, s') /\
    holds_stack (kmem s') pa (h_x h) /\ load64 (kmem s') (pa + kv_off X_sp) = h_x h X_sp - 256 /\
    same_but pa 256 (kmem s) (kmem s') /\ freelist s' = freelist s.
Proof.
  intros Hs Hx. rewrite kernelvec_save_eq. pose proof Hs as (_ & _ & H1 & H2).
  set (h1 := set_x X_sp (h_x h X_sp - 256) h).
  rewrite (exec_code_app _ _ _ (h1, s)).
  2:{ cbn. unfold bind, rx, gets, wx, on_hart, zoom, modify. cbn. rewrite u64_small by lia. done. }
  destruct (exec_saves kv_list h1 (h_x h X_sp - 256) pa 256 X_sp s Hs eq_refl kv_slots) as [E _].
  assert (forall r, load64 (kmem (saves kv_list pa (h_x h1) s)) (pa + kv_off r) = h_x h1 r) as Hl.
  { intros r. apply (load_saves_in _ _ _ 256); [apply kv_slots|apply kv_offsets|apply kv_off_in|].
    cbn. destruct (decide (r = X_sp)) as [->|]; [rewrite fn_lookup_insert; lia|by rewrite fn_lookup_insert_ne]. }
  eexists. split; [exact E|]. split_and!.
  - intros r Hr. rewrite Hl. cbn. by rewrite fn_lookup_insert_ne.
  - rewrite Hl. cbn. by rewrite fn_lookup_insert.
  - by apply saves_same_but, kv_slots.
  - apply freelist_saves.
Qed.

Lemma kernelvec_restore_ok h s va pa x :
  sees h s va pa 256 -> h_x h X_sp = va -> va + 256 < 2 ^ 64 ->
  holds_stack (kmem s) pa x -> load64 (kmem s) (pa + kv_off X_sp) = va ->
  exists h', exec_code kernelvec_restore (h, s) = Ok tt (h', s) /\
    (forall r, r <> X_sp -> r <> X_tp -> h_x h' r = x r) /\ h_x h' X_sp = va + 256 /\ h_x h' X_tp = h_x h X_tp /\
    h_pc h' = h_csr h CSR_sepc /\ h_mode h' = (if Z.testbit (h_csr h CSR_sstatus) 8 then SMode else UMode) /\
    h_csr h' = <[CSR_sstatus := sret_status (h_csr h CSR_sstatus)]> (h_csr h).
Proof.
  intros Hs Hsp Hva Hx Hxs. rewrite kernelvec_restore_eq.
  destruct (exec_restores kv_back s va pa 256 X_sp h Hs Hsp kv_back_slots) as (E & Hs2 & Ha).
  { intros o Ho. assert (o = kv_off X_sp) as ->; [|done].
    assert (Forall (fun p : reg * Z => p.1 = X_sp -> p.2 = kv_off X_sp) kv_back) as H by (apply (bool_decide_unpack _); by vm_compute).
    rewrite Forall_forall in H. exact (H _ Ho eq_refl). }
  rewrite (exec_code_app _ _ _ _ E). destruct (restored_rest kv_back pa s h) as (Ec & Em & Ep).
  assert (forall r, r <> X_sp -> r <> X_tp -> h_x (restored kv_back pa s h) r = x r) as Hr.
  { intros r H1 H2. rewrite <- (Hx r H1). apply restored_in; [apply kv_back_regs|by apply kv_off_back]. }
  assert (h_x (restored kv_back pa s h) X_tp = h_x h X_tp) as Ht by (apply restored_out, (bool_decide_unpack _); by vm_compute).
  set (h2 := restored kv_back pa s h) in *. clearbody h2.
  rewrite (exec_code_cons _ _ _ (set_x X_sp (va + 256) h2, s)).
  2:{ cbn. unfold bind, rx, gets, wx, on_hart, zoom, modify. cbn. pose proof Hs as (_ & _ & ? & ?). rewrite Ha, u64_small by lia. done. }
  rewrite (exec_code_cons _ _ _ (mkHart (h_x (set_x X_sp (va + 256) h2)) (<[CSR_sstatus := sret_status (h_csr h CSR_sstatus)]> (h_csr h))
    (if Z.testbit (h_csr h CSR_sstatus) 8 then SMode else UMode) (h_csr h CSR_sepc), s)).
  - eexists. split; [reflexivity|]. cbn. split_and!; try done.
    + intros r H1 H2. rewrite fn_lookup_insert_ne by done. by apply Hr.
  - cbn [exec_instr]. unfold on_hart, zoom, do_sret. cbn [fst snd set_x h_csr h_mode]. rewrite Em, Ec. by rewrite (proj1 Hs).
Qed.

(** ** [timervec] *)

Lemma sd_m_ok h s rs off rb b :
  h_mode h = MMode -> h_x h rb = b -> 0 <= b + off < 2 ^ 64 -> (b + off) mod 8 = 0 ->
  exec_instr (sd rs off rb) (h, s) = Ok tt (h, wr64 (b + off) (h_x h rs) s).
Proof.
  intros Hm <- Hr Ha. cbn [exec_instr]. unfold rx, bind, gets, phys. cbn [fst snd].
  rewrite u64_small, Ha, Hm by done. done.
Qed.

Lemma ld_m_ok h s rd off rb b :
  h_mode h = MMode -> h_x h rb = b -> 0 <= b + off < 2 ^ 64 -> (b + off) mod 8 = 0 ->
  exec_instr (ld rd off rb) (h, s) = Ok tt (set_x rd (load64 (kmem s) (b + off)) h, s).
Proof.
  intros Hm <- Hr Ha. cbn [exec_instr]. unfold rx, bind, gets, phys. cbn [fst snd].
  rewrite u64_small, Ha, Hm by done. done.
Qed.

(** The scratch area of a hart, and the register it points to. *)
Record timer_area (m : pmem) (sc cmp : Z) : Prop := {
  ta_range : 0 <= sc /\ sc + 40 <= 2 ^ 64 /\ sc mod 8 = 0;
  ta_cmp : load64 m (sc + 24) = cmp;
  ta_cmp_ok : cmp mod 8 = 0 /\ cmp + 8 <= 2 ^ 64 /\ (cmp + 8 <= sc \/ sc + 40 <= cmp)
}.

(** The first half: three registers are saved and the register of the timer is set. *)
Lemma timervec_add h s sc cmp :
  h_mode h = MMode -> (forall r, 0 <= h_x h r < 2 ^ 64) -> h_csr h CSR_mscratch = sc -> timer_area (kmem s) sc cmp ->
  exists x s', exec_code (take 9 timervec) (h, s) = Ok tt (mkHart x (<[CSR_mscratch := h_x h X_a0]> (h_csr h)) MMode (h_pc h), s') /\
    x X_a0 = sc /\ (forall r, r <> X_a0 -> r <> X_a1 -> r <> X_a2 -> r <> X_a3 -> x r = h_x h r) /\
    load64 (kmem s') (sc + 0) = h_x h X_a1 /\ load64 (kmem s') (sc + 8) = h_x h X_a2 /\ load64 (kmem s') (sc + 16) = h_x h X_a3 /\
    load64 (kmem s') cmp = u64 (load64 (kmem s) cmp + load64 (kmem s) (sc + 32)) /\
    (forall a, (a + 8 <= sc \/ sc + 24 <= a) -> (a + 8 <= cmp \/ cmp + 8 <= a) -> load64 (kmem s') a = load64 (kmem s) a).
Proof.
  intros Hm Hx Hsc [(R1 & R2 & R3) Hcmp (C1 & C2 & C3)]. unfold timervec. cbn [take].
  pose proof (load64_range (kmem s) (sc + 24)) as C0. rewrite Hcmp in C0.
  set (h1 := set_x X_a0 sc (set_csr CSR_mscratch (h_x h X_a0) h)).
  rewrite (exec_code_cons _ _ _ (h1, s)) by (cbn; unfold bind, gets, rx, on_hart, zoom, wx, modify; cbn; by rewrite Hsc).
  assert (forall o, 0 <= o -> o mod 8 = 0 -> o + 8 <= 40 -> 0 <= sc + o < 2 ^ 64 /\ (sc + o) mod 8 = 0) as Hsl by (intros; dlia).
  rewrite (exec_code_cons _ _ _ _ (sd_m_ok h1 s X_a1 0 X_a0 sc Hm eq_refl ltac:(by apply Hsl) ltac:(by apply Hsl))). set (s1 := wr64 _ _ s).
  rewrite (exec_code_cons _ _ _ _ (sd_m_ok h1 s1 X_a2 8 X_a0 sc Hm eq_refl ltac:(by apply Hsl) ltac:(by apply Hsl))). set (s2 := wr64 _ _ s1).
  rewrite (exec_code_cons _ _ _ _ (sd_m_ok h1 s2 X_a3 16 X_a0 sc Hm eq_refl ltac:(by apply Hsl) ltac:(by apply Hsl))). set (s3 := wr64 _ _ s2).
  assert (forall a, a + 8 <= sc \/ sc + 24 <= a -> load64 (kmem s3) a = load64 (kmem s) a) as Hs3
    by (intros a Ha; cbn; rewrite !load_store64_other by lia; done).
  rewrite (exec_code_cons _ _ _ _ (ld_m_ok h1 s3 X_a1 24 X_a0 sc Hm eq_refl ltac:(by apply Hsl) ltac:(by apply Hsl))).
  rewrite (Hs3 (sc + 24)), Hcmp by lia. set (h2 := set_x X_a1 cmp h1).
  rewrite (exec_code_cons _ _ _ _ (ld_m_ok h2 s3 X_a2 32 X_a0 sc Hm eq_refl ltac:(by apply Hsl) ltac:(by apply Hsl))).
  rewrite (Hs3 (sc + 32)) by lia. set (h3 := set_x X_a2 _ h2).
  rewrite (exec_code_cons _ _ _ _ (ld_m_ok h3 s3 X_a3 0 X_a1 cmp Hm eq_refl ltac:(lia) ltac:(by rewrite Z.add_0_r))).
  rewrite Z.add_0_r, (Hs3 cmp) by lia. set (h4 := set_x X_a3 _ h3).
  set (v := u64 (load64 (kmem s) cmp + load64 (kmem s) (sc + 32))).
  rewrite (exec_code_cons _ _ _ (set_x X_a3 v h4, s3)) by done. set (h5 := set_x X_a3 v h4).
  rewrite (exec_code_cons _ _ _ _ (sd_m_ok h5 s3 X_a3 0 X_a1 cmp Hm eq_refl ltac:(lia) ltac:(by rewrite Z.add_0_r))).
  rewrite Z.add_0_r. change (h_x h5 X_a3) with v. set (s4 := wr64 cmp v s3).
  assert (forall a, a + 8 <= cmp \/ cmp + 8 <= a -> load64 (kmem s4) a = load64 (kmem s3) a) as Hs4
    by (intros a Ha; exact (load_store64_other (kmem s3) cmp v a Ha)).
  exists (h_x h5), s4. split; [by rewrite <- Hm|]. split_and!.
  - done.
  - intros r ????. cbn. by rewrite !fn_lookup_insert_ne by congruence.
  - rewrite Hs4 by lia. cbn. rewrite (load_store64_other _ (sc + 16)), (load_store64_other _ (sc + 8)) by lia. rewrite load_store64_same; [done|apply Hx].
  - rewrite Hs4 by lia. cbn. rewrite (load_store64_other _ (sc + 16)) by lia. rewrite load_store64_same; [done|apply Hx].
  - rewrite Hs4 by lia. cbn. rewrite load_store64_same; [done|apply Hx].
  - apply load_store64_same, u64_range.
  - intros a H1 H2. by rewrite Hs4, Hs3.
Qed.

Lemma timervec_ok h s sc cmp md :
  h_mode h = MMode -> (forall r, 0 <= h_x h r < 2 ^ 64) -> h_csr h CSR_mscratch = sc -> timer_area (kmem s) sc cmp ->
  mode_of_bits (Z.land (Z.shiftr (h_csr h CSR_mstatus) 11) 3) = Some md ->
  exists h' s', exec_code timervec (h, s) = Ok tt (h', s') /\
    (forall r, h_x h' r = h_x h r) /\ h_mode h' = md /\ h_pc h' = h_csr h CSR_mepc /\ h_csr h' CSR_sip = 2 /\
    (forall c, c <> CSR_sip -> c <> CSR_mstatus -> h_csr h' c = h_csr h c) /\
    load64 (kmem s') cmp = u64 (load64 (kmem s) cmp + load64 (kmem s) (sc + 32)) /\
    (forall a, (a + 8 <= sc \/ sc + 24 <= a) -> (a + 8 <= cmp \/ cmp + 8 <= a) -> load64 (kmem s') a = load64 (kmem s) a).
Proof.
  intros Hm Hr Hsc Ht Hmd. destruct (timervec_add h s sc cmp Hm Hr Hsc Ht) as (x & s4 & E & Ha0 & Hx & L1 & L2 & L3 & Lc & Lo).
  destruct Ht as [(R1 & R2 & R3) _ _]. change timervec with (take 9 timervec ++ drop 9 timervec).
  rewrite (exec_code_app _ _ _ _ E). unfold timervec. cbn [drop].
  assert (forall o, 0 <= o -> o mod 8 = 0 -> o + 8 <= 40 -> 0 <= sc + o < 2 ^ 64 /\ (sc + o) mod 8 = 0) as Hsl by (intros; dlia).
  set (h6 := mkHart (<[X_a1 := 2]> x) (<[CSR_sip := 2]> (<[CSR_mscratch := h_x h X_a0]> (h_csr h))) MMode (h_pc h)).
  do 2 (erewrite exec_code_cons by reflexivity). change (set_csr _ _ _) with h6.
  rewrite (exec_code_cons _ _ _ _ (ld_m_ok h6 s4 X_a3 16 X_a0 sc eq_refl Ha0 ltac:(by apply Hsl) ltac:(by apply Hsl))). rewrite L3.
  rewrite (exec_code_cons _ _ _ _ (ld_m_ok (set_x X_a3 _ h6) s4 X_a2 8 X_a0 sc eq_refl Ha0 ltac:(by apply Hsl) ltac:(by apply Hsl))). rewrite L2.
  set (h8 := set_x X_a2 _ (set_x X_a3 _ h6)).
  rewrite (exec_code_cons _ _ _ _ (ld_m_ok h8 s4 X_a1 0 X_a0 sc eq_refl Ha0 ltac:(by apply Hsl) ltac:(by apply Hsl))). rewrite L1.
  set (h9 := set_x X_a1 _ h8).
  rewrite (exec_code_cons _ _ _ (set_x X_a0 (h_x h X_a0) (set_csr CSR_mscratch sc h9), s4))
    by (transitivity (@Ok cpu unit tt (set_x X_a0 (h_x h X_a0) (set_csr CSR_mscratch (h_x h9 X_a0) h9), s4)); [done|by rewrite (Ha0 : h_x h9 X_a0 = sc)]).
  set (h10 := set_x _ _ (set_csr _ _ h9)).
  assert (forall c, c <> CSR_sip -> h_csr h10 c = h_csr h c) as Hc.
  { intros c H1. cbn. destruct (decide (c = CSR_mscratch)) as [->|]; [by rewrite fn_lookup_insert|].
    by rewrite !fn_lookup_insert_ne. }
  assert (exists v, do_mret h10 = Ok tt (mkHart (h_x h10) (<[CSR_mstatus := v]> (h_csr h10)) md (h_csr h CSR_mepc))) as [v Hmr].
  { unfold do_mret. rewrite (Hc CSR_mstatus), Hmd, (Hc CSR_mepc) by done. by eexists. }
  rewrite (exec_code_cons _ _ _ (mkHart (h_x h10) (<[CSR_mstatus := v]> (h_csr h10)) md (h_csr h CSR_mepc), s4))
    by (cbn [exec_instr]; unfold on_hart, zoom; cbn [fst snd]; by rewrite Hmr).
  eexists _, _. split; [reflexivity|]. cbn [h_x h_csr h_mode h_pc]. split_and!; try done.
  - intros r. destruct (decide (r = X_a0)) as [->|]; [done|]. destruct (decide (r = X_a1)) as [->|]; [done|].
    destruct (decide (r = X_a2)) as [->|]; [done|]. destruct (decide (r = X_a3)) as [->|]; [done|].
    cbn. rewrite !fn_lookup_insert_ne by congruence. by apply Hx.
  - intros c H1 H2. rewrite fn_lookup_insert_ne by done. by apply Hc.
Qed.
