(* ===== verification/TrapKernel.v ===== *)
(** * Entering and leaving the kernel

    The steps of trap.c put together with the assembly: a trap from user space
    enters the kernel with the user's registers in the trapframe, and
    [usertrapret] with [userret] puts what the trapframe holds back.  Interrupts
    leave the memory and the running process alone. *)

From S2P Require Import Prelude Mem Kalloc Vm Bio FsLayout TxnLayer Fs Pipe User Printf Proc File Syscall Tty Virtio Riscv RiscvSpec Trap TrapSpec.

(** ** What a computation keeps *)

Definition keeps {S A} (R : S -> S -> Prop) (m : M S A) : Prop := forall s a s', m s = Ok a s' -> R s s'.

Section keeps.
Context {S : Type} (R : S -> S -> Prop) `{!PreOrder R}.

Lemma keeps_ret {A} (a : A) : keeps R (ret a).
Proof. intros s b s' H. unfold ret in H. injection H as <- <-. reflexivity. Qed.

Lemma keeps_bind {A B} (m : M S A) (k : A -> M S B) : keeps R m -> (forall a, keeps R (k a)) -> keeps R (bind m k).
Proof. intros Hm Hk s b s' (a & s1 & E1 & E2)%bind_ok_inv. transitivity s1; [by apply (Hm s a)|by apply (Hk a s1 b)]. Qed.

Lemma keeps_gets {A} (f : S -> A) : keeps R (gets f).
Proof. intros s b s' H. unfold gets in H. injection H as <- <-. reflexivity. Qed.

Lemma keeps_modify f : (forall s, R s (f s)) -> keeps R (modify f).
Proof. intros Hf s b s' H. unfold modify in H. injection H as <- <-. apply Hf. Qed.

Lemma keeps_for_each {B} (l : list B) (body : B -> M S unit) : (forall b, keeps R (body b)) -> keeps R (for_each l body).
Proof. intros Hb. induction l as [|b l IH]; cbn [for_each]; [apply keeps_ret|]. by apply keeps_bind. Qed.

Lemma keeps_zoom {T A} (g : S -> T) (p : T -> S -> S) (m : M T A) : (forall t s, R s (p t s)) -> keeps R (zoom g p m).
Proof. intros Hp s a s' H. unfold zoom in H. destruct (m (g s)) as [b t| | | |]; try done. injection H as <- <-. apply Hp. Qed.

Lemma keeps_panic {A} msg : keeps R (@panic S A msg).
Proof. done. Qed.
Lemma keeps_undef {A} : keeps R (@undef S A).
Proof. done. Qed.

Lemma keeps_if {A} (b : bool) (m m' : M S A) : keeps R m -> keeps R m' -> keeps R (if b then m else m').
Proof. by destruct b. Qed.
End keeps.

Create HintDb keeps.
#[export] Hint Resolve keeps_panic keeps_undef : keeps.
(** Splits a computation into its steps; the hints know the steps. *)
Ltac keep :=
  repeat first
    [ progress intros | solve [auto with keeps]
    | apply keeps_bind; [apply _| |] | apply keeps_if | apply keeps_for_each; [apply _|]
    | apply keeps_ret, _ | apply keeps_gets, _ ].

(** ** The interrupt handlers *)

(** The memory and the entry of process [me], if there is one, are as before. *)
Definition kcalm {F} (me : option nat) (k k' : pstate F) : Prop :=
  ps_mem k' = ps_mem k /\ match me with Some i => ps_procs k' !! i = ps_procs k !! i | None => True end.

(** And the hart's registers, except [sip]. *)
Definition calm {T P} (me : option nat) (m m' : mach T P) : Prop :=
  kcalm me (m_k m) (m_k m') /\ h_x (m_hart m') = h_x (m_hart m) /\ h_mode (m_hart m') = h_mode (m_hart m) /\
  h_pc (m_hart m') = h_pc (m_hart m) /\ forall c, c <> CSR_sip -> h_csr (m_hart m') c = h_csr (m_hart m) c.

#[export] Instance kcalm_preorder {F} me : PreOrder (@kcalm F me).
Proof. split; [by intros k; destruct me|]. intros k1 k2 k3 [A1 A2] [B1 B2]. split; [congruence|]. destruct me; [congruence|done]. Qed.

#[export] Instance calm_preorder {T P} me : PreOrder (@calm T P me).
Proof.
  split; [by intros m; split_and!|]. intros m1 m2 m3 (A & A1 & A2 & A3 & A4) (B & B1 & B2 & B3 & B4).
  split_and!; [by etransitivity|congruence..|]. intros c Hc. by rewrite B4, A4.
Qed.

Lemma wakeup_calm {F} me c : keeps (kcalm me) (@wakeup F me c).
Proof.
  apply keeps_for_each; [apply _|]. intros i. case_bool_decide as Hi; [apply keeps_ret, _|].
  intros s a s' (p & s1 & E1 & E2)%bind_ok_inv. unfold at_proc in E1. destruct (ps_procs s !! i) eqn:Ei; [|done]. injection E1 as <- <-.
  case_match; [|by apply (keeps_ret (kcalm me) tt) in E2]. unfold upd, modify in E2. injection E2 as <- <-.
  split; [done|]. destruct me as [j|]; [|done]. cbn. by rewrite list_lookup_alter_ne by congruence.
Qed.

Section handlers.
Context {T D V P : Type} {TO : TxnOps T}.
Context {UD : UartDev D} {VR : VirtioRegs V} {PD : PlicDev P} {DR : Drivers (kfs T) D V}.
Context (ticks_addr : Z) (tty_chan : tchan -> Z) (disk_chan : vchan -> Z) (patience rounds : nat).
Context (me : option nat).

Abbreviation K := (pstate (kfs T)).

Lemma in_tty_calm {A} (m : M (tty D) A) : keeps (kcalm me) (in_tty m : M K A).
Proof. apply keeps_zoom. intros t s. by destruct me. Qed.
Lemma in_disk_calm {A} (m : M (vst V) A) : keeps (kcalm me) (in_disk m : M K A).
Proof. apply keeps_zoom. intros t s. by destruct me. Qed.
Lemma in_plic_calm {A} (m : M P A) : keeps (calm me) (in_plic m : M (mach T P) A).
Proof. apply keeps_zoom. intros t s. by destruct s. Qed.
Lemma in_k_calm {A} (m : M K A) : keeps (kcalm me) m -> keeps (calm me) (in_k m : M (mach T P) A).
Proof.
  intros Hm s a s' H. unfold in_k, zoom in H. destruct (m (m_k s)) as [b k| | | |] eqn:E; try done. injection H as <- <-.
  split; [by apply (Hm _ _ _ E)|done].
Qed.
Lemma hw_calm {A} (m : M hart A) : (forall h a h', m h = Ok a h' -> h' = h) -> keeps (calm me) (hw m : M (mach T P) A).
Proof.
  intros Hm s a s' H. unfold hw, zoom in H. destruct (m (m_hart s)) as [b h| | | |] eqn:E; try done. injection H as <- <-.
  rewrite (Hm _ _ _ E). by destruct s.
Qed.
Lemma w_sip_calm v : keeps (calm me) (hw (w_sip v) : M (mach T P) unit).
Proof.
  intros s a s' H. unfold hw, zoom, w_sip, modify in H. injection H as <- <-. split; [by destruct me|]. split_and!; try done.
  intros c Hc. cbn. by rewrite fn_lookup_insert_ne.
Qed.
Lemma kprintf_calm fmt ap : keeps (kcalm me) (kprintf patience fmt ap : M K unit).
Proof. unfold kprintf. case_match; [apply in_tty_calm|done..]. Qed.

Lemma read_calm (c : csr) : keeps (calm me) (hw (gets (fun h => h_csr h c)) : M (mach T P) Z).
Proof. apply hw_calm. intros h a h' H. unfold gets in H. by injection H. Qed.
Lemma cpuid_calm : keeps (calm me) (cpuid : M (mach T P) Z).
Proof. apply keeps_bind; [apply _| |intros; apply keeps_ret, _]. apply hw_calm. intros h a h' H. unfold r_tp, gets in H. by injection H. Qed.
Lemma set_ticks_calm t : keeps (calm me) (set_ticks t : M (mach T P) unit).
Proof. apply keeps_modify. intros s. by destruct s. Qed.

#[local] Hint Resolve wakeup_calm in_tty_calm in_disk_calm : keeps.

Lemma tty_wakeups_calm : keeps (calm me) (in_k (tty_wakeups tty_chan me) : M (mach T P) unit).
Proof. apply in_k_calm. unfold tty_wakeups. keep. Qed.
Lemma disk_wakeups_calm : keeps (calm me) (in_k (disk_wakeups disk_chan me) : M (mach T P) unit).
Proof. apply in_k_calm. unfold disk_wakeups. keep. Qed.
End handlers.

#[export] Hint Resolve wakeup_calm in_tty_calm in_disk_calm in_plic_calm in_k_calm w_sip_calm kprintf_calm read_calm cpuid_calm set_ticks_calm tty_wakeups_calm disk_wakeups_calm : keeps.

Lemma devintr_calm {T D V P} {UD : UartDev D} {VR : VirtioRegs V} {PD : PlicDev P} {DR : Drivers (kfs T) D V}
    ticks_addr tty_chan disk_chan patience rounds me :
  keeps (calm me) (devintr ticks_addr tty_chan disk_chan patience rounds me : M (mach T P) Z).
Proof.
  unfold devintr, plic_claim, plic_complete, clockintr, r_scause, r_sip.
  keep.
Qed.

(** ** The process's trapframe *)

Definition with_mem {F} (s : kst) (k : pstate F) : pstate F := mkPs (ps_procs k) (ps_nextpid k) (ps_init k) s (ps_files k).
Definition with_hart {T P} (h : hart) (m : mach T P) : mach T P := mkMach h (m_k m) (m_plic m) (m_ticks m) (m_first m).
Definition with_k {T P} (k : pstate (kfs T)) (m : mach T P) : mach T P := mkMach (m_hart m) k (m_plic m) (m_ticks m) (m_first m).

Section trapframe.
Context {T P : Type} (me : nat) (p : proc).

Lemma tf_set_ok off v (k : pstate (kfs T)) :
  ps_procs k !! me = Some p -> tf_set me off v k = Ok tt (with_mem (wr64 (p_trapframe p + off) v (ps_mem k)) k).
Proof. intros H. unfold tf_set, bind, at_proc. by rewrite H. Qed.

Lemma tf_get_ok off (k : pstate (kfs T)) :
  ps_procs k !! me = Some p -> tf_get me off k = Ok (load64 (kmem (ps_mem k)) (p_trapframe p + off)) k.
Proof. intros H. unfold tf_get, bind, at_proc. rewrite H. by destruct k. Qed.

Lemma killed_ok (k : pstate (kfs T)) : ps_procs k !! me = Some p -> killed me k = Ok (p_killed p) k.
Proof. intros H. unfold killed, bind, at_proc. by rewrite H. Qed.

Lemma at_proc_ok (k : pstate (kfs T)) : ps_procs k !! me = Some p -> at_proc me k = Ok p k.
Proof. intros H. unfold at_proc. by rewrite H. Qed.

Lemma in_k_ok {A} (c : M (pstate (kfs T)) A) (m : mach T P) a k : c (m_k m) = Ok a k -> in_k c m = Ok a (with_k k m).
Proof. intros H. unfold in_k, zoom. by rewrite H. Qed.

Lemma hw_ok {A} (c : M hart A) (m : mach T P) a h : c (m_hart m) = Ok a h -> hw c m = Ok a (with_hart h m).
Proof. intros H. unfold hw, zoom. by rewrite H. Qed.

Lemma asm_ok l (m : mach T P) h s :
  exec_code l (m_hart m, ps_mem (m_k m)) = Ok tt (h, s) -> asm l m = Ok tt (with_hart h (with_k (with_mem s (m_k m)) m)).
Proof. intros H. unfold asm, zoom. by rewrite H. Qed.
End trapframe.

(** A step on the hart, and one on the kernel by a lemma about process [me]. *)
Ltac shown := cbv beta zeta; cbn [with_hart with_k with_mem m_hart m_k m_plic m_ticks m_first ps_procs ps_nextpid ps_init ps_mem ps_files].
Ltac run_hw := erewrite bind_ok by (apply hw_ok; reflexivity); shown.
Tactic Notation "run_k" uconstr(lem) constr(Hp) := erewrite bind_ok by (apply in_k_ok, lem; exact Hp); shown.

(** ** Leaving the kernel *)

Definition kernel_words (tf satp ksp utrap tp : Z) (s : kst) : kst :=
  wr64 (tf + TF_kernel_hartid) tp (wr64 (tf + TF_kernel_trap) utrap (wr64 (tf + TF_kernel_sp) ksp (wr64 (tf + TF_kernel_satp) satp s))).

Definition user_status (x : Z) : Z :=
  Z.lor (Z.land (Z.land x (Z.lnot SSTATUS_SIE)) (Z.lnot SSTATUS_SPP)) SSTATUS_SPIE.

Lemma kernel_words_out tf satp ksp utrap tp s o :
  slot TF_size o -> o <> TF_kernel_satp -> o <> TF_kernel_sp -> o <> TF_kernel_trap -> o <> TF_kernel_hartid ->
  load64 (kmem (kernel_words tf satp ksp utrap tp s)) (tf + o) = load64 (kmem s) (tf + o).
Proof. intros. unfold kernel_words. by rewrite !(load_wr64_other tf _ o _ _ TF_size). Qed.

Lemma kernel_words_in tf satp ksp utrap tp s :
  0 <= satp < 2 ^ 64 -> 0 <= ksp < 2 ^ 64 -> 0 <= utrap < 2 ^ 64 -> 0 <= tp < 2 ^ 64 ->
  let m := kmem (kernel_words tf satp ksp utrap tp s) in
  load64 m (tf + TF_kernel_satp) = satp /\ load64 m (tf + TF_kernel_sp) = ksp /\
  load64 m (tf + TF_kernel_trap) = utrap /\ load64 m (tf + TF_kernel_hartid) = tp.
Proof.
  intros. unfold m, kernel_words. split_and!; rewrite ?(load_wr64_other tf TF_kernel_hartid _ _ _ TF_size) by done;
    rewrite ?(load_wr64_other tf TF_kernel_trap _ _ _ TF_size) by done; rewrite ?(load_wr64_other tf TF_kernel_sp _ _ _ TF_size) by done;
    by apply load_wr64_same.
Qed.

Lemma kernel_words_same tf satp ksp utrap tp s : same_but tf TF_size (kmem s) (kmem (kernel_words tf satp ksp utrap tp s)).
Proof.
  unfold kernel_words. repeat (eapply same_but_trans; [|apply same_but_store; unfold TF_kernel_hartid, TF_kernel_trap, TF_kernel_sp, TF_kernel_satp, TF_size; lia]).
  apply same_but_refl.
Qed.

Lemma user_status_bits x : Z.testbit (user_status x) 8 = false /\ Z.testbit (user_status x) 5 = true.
Proof.
  unfold user_status, SSTATUS_SIE, SSTATUS_SPP, SSTATUS_SPIE.
  rewrite !testbit_set, !testbit_clear by lia. cbn. by rewrite andb_false_r, orb_true_r.
Qed.

Lemma tf_off_words r : tf_off r <> TF_kernel_satp /\ tf_off r <> TF_kernel_sp /\ tf_off r <> TF_kernel_trap /\
  tf_off r <> TF_kernel_hartid /\ tf_off r <> TF_epc.
Proof. by destruct r; vm_compute. Qed.

Section leave.
Context {T P : Type} (trampoline uservec_addr userret_addr usertrap_addr : Z) (me : nat).

Lemma usertrapret_ok (m : mach T P) p :
  ps_procs (m_k m) !! me = Some p ->
  let h := m_hart m in
  let s' := kernel_words (p_trapframe p) (h_csr h CSR_satp) (u64 (p_kstack p + PGSIZE)) usertrap_addr (h_x h X_tp) (ps_mem (m_k m)) in
  exists h', usertrapret trampoline uservec_addr usertrap_addr me m =
      Ok (MAKE_SATP (p_pagetable p)) (with_hart h' (with_k (with_mem s' (m_k m)) m)) /\
    h_x h' = h_x h /\ h_mode h' = h_mode h /\
    h_csr h' CSR_stvec = TRAMPOLINE + (uservec_addr - trampoline) /\
    h_csr h' CSR_sstatus = user_status (h_csr h CSR_sstatus) /\
    h_csr h' CSR_sepc = load64 (kmem s') (p_trapframe p + TF_epc) /\
    forall c, c <> CSR_stvec -> c <> CSR_sstatus -> c <> CSR_sepc -> h_csr h' c = h_csr h c.
Proof.
  destruct m as [h k pl ti fi]. destruct k as [ps np ini s fl]. cbn [m_hart m_k ps_mem ps_procs]. intros Hp. unfold usertrapret.
  do 3 run_hw. run_k tf_set_ok Hp. run_k at_proc_ok Hp. do 2 run_k tf_set_ok Hp. run_hw. run_k tf_set_ok Hp.
  do 2 run_hw. run_k tf_get_ok Hp. run_hw.
  eexists. split; [reflexivity|]. cbn -[fn_insert]. split_and!; try done.
  intros c H1 H2 H3. by rewrite !fn_lookup_insert_ne by congruence.
Qed.

(** The trapframe is where the trampoline looks for it. *)
Definition frame_mapped (p : proc) (s : kst) : Prop :=
  maps (MAKE_SATP (p_pagetable p)) (kmem s) TRAPFRAME (p_trapframe p) TF_size.

(** Process [p] runs its user program, on hart [id] of a kernel whose page table is
    that of [ksatp]: the next trap finds what it needs. *)
Record in_user (p : proc) (ksatp id : Z) (m : mach T P) : Prop := {
  iu_proc : ps_procs (m_k m) !! me = Some p;
  iu_mode : h_mode (m_hart m) = UMode;
  iu_satp : h_csr (m_hart m) CSR_satp = MAKE_SATP (p_pagetable p);
  iu_stvec : h_csr (m_hart m) CSR_stvec = TRAMPOLINE + (uservec_addr - trampoline);
  iu_sie : Z.testbit (h_csr (m_hart m) CSR_sstatus) 1 = true;
  iu_mapped : frame_mapped p (ps_mem (m_k m));
  iu_kernel_satp : load64 (kmem (ps_mem (m_k m))) (p_trapframe p + TF_kernel_satp) = ksatp;
  iu_kernel_sp : load64 (kmem (ps_mem (m_k m))) (p_trapframe p + TF_kernel_sp) = u64 (p_kstack p + PGSIZE);
  iu_kernel_trap : load64 (kmem (ps_mem (m_k m))) (p_trapframe p + TF_kernel_trap) = usertrap_addr;
  iu_kernel_hartid : load64 (kmem (ps_mem (m_k m))) (p_trapframe p + TF_kernel_hartid) = id
}.

(** The trapframe of [p] holds the user's registers [x] and program counter. *)
Definition saved (p : proc) (x : reg -> Z) (pc : Z) (k : pstate (kfs T)) : Prop :=
  ps_procs k !! me = Some p /\ frame_mapped p (ps_mem k) /\ holds_regs (kmem (ps_mem k)) (p_trapframe p) x /\
  load64 (kmem (ps_mem k)) (p_trapframe p + TF_epc) = pc.

Definition kernel_hart (h : hart) : Prop :=
  h_mode h = SMode /\ 0 <= h_csr h CSR_satp < 2 ^ 64 /\ 0 <= h_x h X_tp < 2 ^ 64.

Lemma leave_ok (m : mach T P) p x pc junk :
  0 <= usertrap_addr < 2 ^ 64 -> kernel_hart (m_hart m) -> saved p x pc (m_k m) ->
  exists m', (satp <- usertrapret trampoline uservec_addr usertrap_addr me;; to_user trampoline userret_addr junk satp) m = Ok tt m' /\
    in_user p (h_csr (m_hart m) CSR_satp) (h_x (m_hart m) X_tp) m' /\
    (forall r, h_x (m_hart m') r = x r) /\ h_pc (m_hart m') = pc /\
    ps_procs (m_k m') = ps_procs (m_k m) /\ ps_files (m_k m') = ps_files (m_k m) /\
    same_but (p_trapframe p) TF_size (kmem (ps_mem (m_k m))) (kmem (ps_mem (m_k m'))).
Proof.
  intros Ha (Hm & Hs & Ht) (Hp & Hf & Hr & He).
  destruct (usertrapret_ok m p Hp) as (h1 & E & E1 & E2 & E3 & E4 & E5 & E6).
  run E. clear E. set (s' := kernel_words _ _ _ _ _ _) in *.
  pose proof (kernel_words_same (p_trapframe p) (h_csr (m_hart m) CSR_satp) (u64 (p_kstack p + PGSIZE)) usertrap_addr (h_x (m_hart m) X_tp) (ps_mem (m_k m))) as Hsame.
  pose proof (kernel_words_in (p_trapframe p) _ _ _ _ (ps_mem (m_k m)) Hs (u64_range (p_kstack p + PGSIZE)) Ha Ht) as (W1 & W2 & W3 & W4).
  fold s' in Hsame, W1, W2, W3, W4.
  assert (load64 (kmem s') (p_trapframe p + TF_epc) = pc) as We by (rewrite <- He; by apply kernel_words_out).
  assert (holds_regs (kmem s') (p_trapframe p) x) as Wr.
  { intros r. rewrite <- Hr. destruct (tf_off_words r) as (? & ? & ? & ? & ?). apply kernel_words_out; try done. apply tf_off_slot. }
  assert (frame_mapped p s') as Wf by (eapply maps_same; done).
  clearbody s'. unfold to_user. do 3 (erewrite bind_ok by (apply hw_ok; reflexivity); cbv beta).
  set (h2 := set_pc _ _).
  destruct (userret_ok h2 s' (p_trapframe p)) as (h3 & F & F1 & F2 & F3 & F4 & F5 & F6);
    [by rewrite <- Hm|done|cbn; rewrite E4; apply user_status_bits|].
  rewrite (asm_ok _ _ h3 s') by exact F.
  eexists. split; [reflexivity|]. cbn [with_hart with_k with_mem m_hart m_k ps_procs ps_files ps_mem].
  split; [|split_and!; try done].
  - split; cbn [with_hart with_k with_mem m_hart m_k ps_procs ps_files ps_mem]; try done.
    + rewrite F6 by done. exact E3.
    + rewrite F5, put_bit_other, put_bit_other, put_bit_same by lia. cbn. rewrite E4. apply user_status_bits.
  - intros r. by rewrite <- F3, Wr.
  - rewrite F2. cbn. by rewrite E5.
Qed.

(** ** Entering it *)

(** What [usertrap] finds. *)
Record entered (p : proc) (ksatp id cause tval pc : Z) (h : hart) : Prop := {
  en_mode : h_mode h = SMode;
  en_pc : h_pc h = usertrap_addr;
  en_sp : h_x h X_sp = u64 (p_kstack p + PGSIZE);
  en_tp : h_x h X_tp = id;
  en_satp : h_csr h CSR_satp = ksatp;
  en_sepc : h_csr h CSR_sepc = pc;
  en_scause : h_csr h CSR_scause = cause;
  en_stval : h_csr h CSR_stval = tval;
  en_spp : Z.testbit (h_csr h CSR_sstatus) 8 = false;
  en_sie : Z.testbit (h_csr h CSR_sstatus) 1 = false
}.

Lemma user_enter_ok (m : mach T P) p ksatp id cause tval :
  in_user p ksatp id m -> machine_regs (m_hart m) ->
  exists h' s', (hw (trap_s cause tval);;; asm uservec) m = Ok tt (with_hart h' (with_k (with_mem s' (m_k m)) m)) /\
    entered p ksatp id cause tval (h_pc (m_hart m)) h' /\
    holds_regs (kmem s') (p_trapframe p) (h_x (m_hart m)) /\ frame_mapped p s' /\
    same_but (p_trapframe p) TF_size (kmem (ps_mem (m_k m))) (kmem s').
Proof.
  intros [] [Hx Hpc]. set (h := m_hart m) in *. set (s := ps_mem (m_k m)) in *.
  erewrite bind_ok by (apply hw_ok; reflexivity). cbv beta. set (h1 := mkHart _ _ _ _).
  assert (sees h1 s TRAPFRAME (p_trapframe p) TF_size) as Hs.
  { split_and!; [done| |done..]. change (h_csr h1 CSR_satp) with (h_csr h CSR_satp). by rewrite iu_satp0. }
  destruct (uservec_ok h1 s (p_trapframe p) Hs) as (h2 & E & E1 & E2 & E3 & E4 & E5 & E6).
  set (s' := saves tf_all _ _ _) in *. exists h2, s'. split; [exact (asm_ok uservec (with_hart h1 m) h2 s' E)|].
  rewrite (kslot_saves (p_trapframe p) (h_x h1) s) in E2, E3, E4, E5 by (unfold kslot; auto 6).
  pose proof (saves_same_but tf_all (p_trapframe p) (h_x h1) TF_size s tf_all_slots) as Hsame. fold s' in Hsame.
  split_and!; [|by apply holds_saves|by eapply maps_same|done].
  split; try (rewrite E6 by done; reflexivity); try congruence.
  - rewrite E6 by done. unfold h1. cbn [h_csr]. rewrite fn_lookup_insert. rewrite !put_bit_other, put_bit_same by lia. fold h. by rewrite iu_mode0.
  - rewrite E6 by done. unfold h1. cbn [h_csr]. rewrite fn_lookup_insert. by rewrite put_bit_same.
Qed.
End leave.
