(* ===== verification/TrapClaims.v ===== *)
(** * Traps are transparent

    What a program sees of a trap: nothing, for an interrupt; the result in [a0],
    for a system call; nothing ever again, for a fault. *)

From S2P Require Import Prelude Mem Kalloc Vm Bio FsLayout TxnLayer Fs Pipe User Printf Proc File Syscall Tty Virtio Riscv RiscvSpec Trap TrapSpec TrapKernel.

Section claims.
Context {T D V P : Type} {TO : TxnOps T} {OO : OpOps T} {FO : FileOps (kfs T)}.
Context {UD : UartDev D} {VR : VirtioRegs V} {PD : PlicDev P} {DR : Drivers (kfs T) D V}.
Context (kend trampoline forkret_addr uservec_addr userret_addr kernelvec_addr usertrap_addr : Z).
Context (ticks_addr : Z) (tty_chan : tchan -> Z) (disk_chan : vchan -> Z) (dev_chan : Z -> chan -> Z).
Context (patience rounds : nat).
Context (dev_read dev_write : Z -> option (Z -> Z -> M (kst * kfs T) segment)).
Context (name0 pad elf0 ph0 : list byte).
Context (usertrap_ok : 0 <= usertrap_addr < 2 ^ 64).

Abbreviation devintr' := (devintr ticks_addr tty_chan disk_chan patience rounds).
Abbreviation syscall' := (syscall kend trampoline forkret_addr ticks_addr dev_chan patience dev_read dev_write name0 pad elf0 ph0).
Abbreviation usertrapret' := (usertrapret trampoline uservec_addr usertrap_addr).
Abbreviation usertrap_end' := (usertrap_end trampoline uservec_addr usertrap_addr).
Abbreviation usertrap' :=
  (usertrap kend trampoline forkret_addr uservec_addr kernelvec_addr usertrap_addr ticks_addr tty_chan disk_chan dev_chan
     patience rounds dev_read dev_write name0 pad elf0 ph0).
Abbreviation user_trap' :=
  (user_trap kend trampoline forkret_addr uservec_addr userret_addr kernelvec_addr usertrap_addr ticks_addr tty_chan disk_chan dev_chan
     patience rounds dev_read dev_write name0 pad elf0 ph0).
Abbreviation finish' := (finish trampoline userret_addr).
Abbreviation in_user' := (in_user trampoline uservec_addr usertrap_addr).
Abbreviation mach' := (mach T P).

(** The state in which [usertrap] looks for the cause. *)
Definition handling (p : proc) (m : mach') : mach' :=
  with_hart (set_csr CSR_stvec kernelvec_addr (m_hart m))
    (with_k (with_mem (wr64 (p_trapframe p + TF_epc) (h_csr (m_hart m) CSR_sepc) (ps_mem (m_k m))) (m_k m)) m).

Lemma usertrap_handling me (m : mach') p ksatp id cause tval pc :
  entered usertrap_addr p ksatp id cause tval pc (m_hart m) -> ps_procs (m_k m) !! me = Some p ->
  usertrap' me m =
    (if cause =? 8 then
      k <- in_k (killed me);;
      if k : bool then in_k (k_exit me (-1));;; ret UExit
      else
        epc <- in_k (tf_get me TF_epc);;
        in_k (tf_set me TF_epc (u64 (epc + 4)));;;
        hw intr_on;;;
        r <- syscall' me;;
        match r with
        | SysRet _ => usertrap_end' me 0
        | SysSleep => ret USleep
        | SysExit => ret UExit
        end
    else
      which_dev <- devintr' (Some me);;
      (if negb (which_dev =? 0) then ret tt
       else
         c <- hw r_scause;;
         p <- in_k (at_proc me);;
         in_k (kprintf patience (bytes "usertrap(): unexpected scause %p pid=%d" ++ [x0a; x00]) [VInt c; VInt (p_pid p)]);;;
         e <- hw r_sepc;;
         v <- hw r_stval;;
         in_k (kprintf patience (bytes "            sepc=%p stval=%p" ++ [x0a; x00]) [VInt e; VInt v]);;;
         in_k (setkilled me));;;
      usertrap_end' me which_dev) (handling p m).
Proof.
  intros He Hp. unfold usertrap. erewrite bind_ok by (apply hw_ok; reflexivity). cbv beta.
  unfold SSTATUS_SPP. rewrite land_bit_eqb by lia. rewrite (en_spp _ _ _ _ _ _ _ _ He). cbn [negb].
  do 2 (erewrite bind_ok by (apply hw_ok; reflexivity); cbv beta).
  erewrite bind_ok by (apply in_k_ok, tf_set_ok; exact Hp). cbv beta.
  erewrite bind_ok by (apply hw_ok; reflexivity). cbv beta. cbn [with_hart with_k m_hart set_csr h_csr].
  rewrite fn_lookup_insert_ne by done. rewrite (en_scause _ _ _ _ _ _ _ _ He). done.
Qed.

(** The user's registers and program counter are in the trapframe then. *)
Lemma handling_saved me (m : mach') p ksatp id cause tval pc x :
  entered usertrap_addr p ksatp id cause tval pc (m_hart m) -> ps_procs (m_k m) !! me = Some p ->
  holds_regs (kmem (ps_mem (m_k m))) (p_trapframe p) x -> frame_mapped p (ps_mem (m_k m)) -> 0 <= pc < 2 ^ 64 ->
  saved me p x pc (m_k (handling p m)) /\ h_csr (m_hart (handling p m)) CSR_satp = ksatp /\ h_x (m_hart (handling p m)) X_tp = id /\
  h_mode (m_hart (handling p m)) = SMode.
Proof.
  intros He Hp Hx Hf Hpc. split; [split_and!|].
  - exact Hp.
  - eapply maps_same; [exact Hf|]. apply same_but_store; unfold TF_epc, TF_size; lia.
  - intros r. rewrite <- (Hx r). destruct (tf_off_words r) as (? & ? & ? & ? & ?).
    apply (load_wr64_other _ _ _ _ _ TF_size); [done|apply tf_off_slot|done].
  - cbn. rewrite (en_sepc _ _ _ _ _ _ _ _ He). by apply load_store64_same.
  - split_and!; [|exact (en_tp _ _ _ _ _ _ _ _ He)|exact (en_mode _ _ _ _ _ _ _ _ He)].
    cbn [handling with_hart m_hart set_csr h_csr]. rewrite fn_lookup_insert_ne by done. exact (en_satp _ _ _ _ _ _ _ _ He).
Qed.

Lemma saved_calm me p x pc (m m' : mach') : calm (Some me) m m' -> saved me p x pc (m_k m) -> saved me p x pc (m_k m').
Proof. intros ((Hm & Hp) & _) (H1 & H2 & H3 & H4). unfold saved. by rewrite Hm, Hp. Qed.

Lemma leave_finish me (m : mach') p x pc junk :
  kernel_hart (m_hart m) -> saved me p x pc (m_k m) ->
  exists m', (r <- (satp <- usertrapret' me;; ret (UReturn satp));; finish' junk r) m = Ok (UReturn (MAKE_SATP (p_pagetable p))) m' /\
    in_user' me p (h_csr (m_hart m) CSR_satp) (h_x (m_hart m) X_tp) m' /\
    (forall r, h_x (m_hart m') r = x r) /\ h_pc (m_hart m') = pc.
Proof.
  intros Hk Hs. destruct (leave_ok trampoline uservec_addr userret_addr usertrap_addr me m p x pc junk usertrap_ok Hk Hs) as (m' & E & H1 & H2 & H3 & _).
  exists m'. split; [|done]. destruct (usertrapret_ok trampoline uservec_addr usertrap_addr me m p (proj1 Hs)) as (h' & F & _).
  unfold bind at 1 in E. rewrite F in E. unfold bind at 1. unfold bind at 1. rewrite F. cbv beta iota. unfold ret at 1. cbv iota beta. cbn [finish].
  by run E.
Qed.

Lemma user_trap_entered me junk cause tval (m m1 : mach') :
  (hw (trap_s cause tval);;; asm uservec) m = Ok tt m1 ->
  user_trap' me junk cause tval m = (r <- usertrap' me;; finish' junk r) m1.
Proof. intros ([] & m0 & E1 & E2)%bind_ok_inv. unfold user_trap. run E1. by run E2. Qed.

Lemma yield_ok me p (k : pstate (kfs T)) :
  ps_procs k !! me = Some p -> exists k', yield me k = Ok tt k' /\ ps_mem k' = ps_mem k /\ ps_procs k' !! me = Some (w_state RUNNABLE p).
Proof.
  intros Hp. set (k' := mkPs (alter (w_state RUNNABLE) me (ps_procs k)) (ps_nextpid k) (ps_init k) (ps_mem k) (ps_files k)).
  assert (ps_procs k' !! me = Some (w_state RUNNABLE p)) as Hp' by (cbn; by rewrite list_lookup_alter_eq, Hp).
  exists k'. split; [|done]. unfold yield. rewrite (bind_ok _ _ k tt k') by done. unfold sched.
  by rewrite (bind_ok _ _ k' _ _ (at_proc_ok me _ _ Hp')).
Qed.

Lemma user_kernel_hart me p ksatp id (m : mach') h :
  in_user' me p ksatp id m -> h_mode h = SMode -> h_csr h CSR_satp = ksatp -> h_x h X_tp = id -> kernel_hart h.
Proof.
  intros Hu Hm H1 H2. split_and!; [done|..].
  - rewrite H1, <- (iu_kernel_satp _ _ _ _ _ _ _ _ Hu). apply load64_range.
  - rewrite H1, <- (iu_kernel_satp _ _ _ _ _ _ _ _ Hu). apply load64_range.
  - rewrite H2, <- (iu_kernel_hartid _ _ _ _ _ _ _ _ Hu). apply load64_range.
  - rewrite H2, <- (iu_kernel_hartid _ _ _ _ _ _ _ _ Hu). apply load64_range.
Qed.

(** C4: An interrupt is invisible to the user program it interrupts.  A trap from
    user space enters [usertrap] in supervisor mode with interrupts off, on the
    process's kernel stack, with the kernel's page table and the hart's number,
    and by the time its cause is looked at every user register and the program
    counter are in the trapframe.  When the cause is a device, [user_trap] ends in
    user mode with the same registers, the same program counter and the user's page
    table, ready for the next trap.  When it is the timer, the process gives the CPU
    up with its registers saved, and whenever and on whichever hart it is resumed,
    the user program goes on with them. *)
Theorem user_interrupt_transparent me p ksatp id (m : mach') junk cause tval :
  in_user' me p ksatp id m -> machine_regs (m_hart m) -> cause <> 8 -> p_killed p = false ->
  exists m1 : mach',
    (hw (trap_s cause tval);;; asm uservec) m = Ok tt m1 /\
    entered usertrap_addr p ksatp id cause tval (h_pc (m_hart m)) (m_hart m1) /\
    saved me p (h_x (m_hart m)) (h_pc (m_hart m)) (m_k (handling p m1)) /\
    (forall w m2, devintr' (Some me) (handling p m1) = Ok w m2 -> w <> 0 -> w <> 2 ->
       exists m3, user_trap' me junk cause tval m = Ok (UReturn (MAKE_SATP (p_pagetable p))) m3 /\
         in_user' me p ksatp id m3 /\
         (forall r, h_x (m_hart m3) r = h_x (m_hart m) r) /\ h_pc (m_hart m3) = h_pc (m_hart m)) /\
    (forall m2, devintr' (Some me) (handling p m1) = Ok 2 m2 ->
       exists m3, user_trap' me junk cause tval m = Ok UYield m3 /\
         saved me (w_state RUNNABLE p) (h_x (m_hart m)) (h_pc (m_hart m)) (m_k m3)) /\
    (forall (m4 : mach') q, kernel_hart (m_hart m4) -> saved me q (h_x (m_hart m)) (h_pc (m_hart m)) (m_k m4) ->
       exists m5, (r <- usertrap_yielded trampoline uservec_addr usertrap_addr me;; finish' junk r) m4 =
           Ok (UReturn (MAKE_SATP (p_pagetable q))) m5 /\
         in_user' me q (h_csr (m_hart m4) CSR_satp) (h_x (m_hart m4) X_tp) m5 /\
         (forall r, h_x (m_hart m5) r = h_x (m_hart m) r) /\ h_pc (m_hart m5) = h_pc (m_hart m)).
Proof.
  intros Hu Hr Hc Hk.
  destruct (user_enter_ok trampoline uservec_addr usertrap_addr me m p ksatp id cause tval Hu Hr) as (h1 & s1 & E & He & Hx & Hf & _).
  set (m1 := with_hart h1 (with_k (with_mem s1 (m_k m)) m)) in *.
  assert (ps_procs (m_k m1) !! me = Some p) as Hp by exact (iu_proc _ _ _ _ _ _ _ _ Hu).
  destruct (handling_saved me m1 p ksatp id cause tval _ _ He Hp Hx Hf (proj2 Hr)) as (Hs & Hsat & Htp & Hmode).
  pose proof (user_trap_entered me junk cause tval m m1 E) as Eu.
  pose proof (usertrap_handling me m1 p _ _ _ _ _ He Hp) as Eh. rewrite (proj2 (Z.eqb_neq _ _) Hc) in Eh.
  assert (forall w m2, devintr' (Some me) (handling p m1) = Ok w m2 -> w <> 0 ->
    usertrap' me m1 = usertrap_end' me w m2 /\ saved me p (h_x (m_hart m)) (h_pc (m_hart m)) (m_k m2) /\
    h_csr (m_hart m2) CSR_satp = ksatp /\ h_x (m_hart m2) X_tp = id /\ h_mode (m_hart m2) = SMode) as Hdev.
  { intros w m2 Ed Hw. rewrite Eh. run Ed. rewrite (proj2 (Z.eqb_neq _ _) Hw). cbn [negb]. run1.
    pose proof (devintr_calm _ _ _ _ _ _ _ _ _ Ed) as Hcalm. split_and!; [done|by eapply saved_calm|..];
      destruct Hcalm as (_ & C1 & C2 & C3 & C4); [by rewrite C4|by rewrite C1|by rewrite C2]. }
  exists m1. split_and!; try done.
  - intros w m2 Ed Hw0 Hw2. destruct (Hdev w m2 Ed Hw0) as (Ew & Hs2 & D1 & D2 & D3).
    destruct (leave_finish me m2 p _ _ junk (user_kernel_hart _ _ _ _ _ _ Hu D3 D1 D2) Hs2) as (m3 & F & F1 & F2).
    rewrite D1, D2 in F1. exists m3. split; [|done]. rewrite Eu. unfold bind at 1. rewrite Ew. unfold usertrap_end.
    erewrite bind_ok by (apply in_k_ok, killed_ok; apply Hs2). rewrite Hk, (proj2 (Z.eqb_neq _ _) Hw2). destruct m2; exact F.
  - intros m2 Ed. destruct (Hdev 2 m2 Ed ltac:(done)) as (Ew & Hs2 & _).
    destruct (yield_ok me p (m_k m2) (proj1 Hs2)) as (k' & Y & Y1 & Y2).
    exists (with_k k' m2). split.
    + rewrite Eu. unfold bind at 1. rewrite Ew. unfold usertrap_end.
      erewrite bind_ok by (apply in_k_ok, killed_ok; apply Hs2). rewrite Hk. cbn [Z.eqb Pos.eqb].
      erewrite bind_ok by (apply in_k_ok; destruct m2; exact Y). by destruct m2.
    + destruct Hs2 as (_ & S2 & S3 & S4). unfold saved, frame_mapped in *. cbn [with_k m_k]. by rewrite Y1.
  - intros m4 q Hk4 Hs4. exact (leave_finish me m4 q _ _ junk Hk4 Hs4).
Qed.

(** ** Faults *)

Lemma exit_zombie me status (k k' : pstate (kfs T)) :
  exit me status k = Ok tt k' -> exists q, ps_procs k' !! me = Some q /\ p_state q = ZOMBIE /\ p_xstate q = status.
Proof.
  unfold exit. intros H. apply bind_ok_inv in H as (init & k0 & _ & H). case_bool_decide; [done|].
  do 9 (apply bind_ok_inv in H as (? & ? & _ & H)). apply bind_ok_inv in H as (? & k1 & E1 & H).
  apply bind_ok_inv in H as (? & k2 & E2 & H). unfold upd, modify in E1, E2. injection E1 as _ <-. injection E2 as _ <-.
  unfold sched in H. apply bind_ok_inv in H as (q & k3 & E3 & H). unfold at_proc in E3. cbn [ps_procs] in E3.
  rewrite !list_lookup_alter_eq in E3. destruct (ps_procs _ !! me) as [q0|] eqn:E0; [|done]. injection E3 as <- <-.
  case_bool_decide; [done|]. unfold ret in H. injection H as <-.
  eexists. cbn [ps_procs]. rewrite !list_lookup_alter_eq, E0. by split_and!.
Qed.

Lemma k_exit_zombie me status (k k' : pstate (kfs T)) :
  k_exit me status k = Ok tt k' -> exists q, ps_procs k' !! me = Some q /\ p_state q = ZOMBIE /\ p_xstate q = status.
Proof.
  unfold k_exit. intros H. apply bind_ok_inv in H as ([] & k1 & E1 & E2). apply exit_zombie in E1 as (q & Hq & H1).
  exists q. split; [|done]. rewrite <- Hq. unfold pipe_wakeups in E2. apply bind_ok_inv in E2 as (l & k2 & F1 & E2).
  apply bind_ok_inv in E2 as ([] & k3 & F2 & E2). unfold gets in F1. injection F1 as <- <-. unfold modify in F2. injection F2 as <-.
  by destruct (keeps_for_each (kcalm (Some me)) _ _ (fun x => wakeup_calm (Some me) _) _ _ _ E2) as [_ ?].
Qed.

(** A fault is not an interrupt. *)
Lemma devintr_fault (m : mach') o cause :
  h_csr (m_hart m) CSR_scause = cause -> 0 <= cause < 2 ^ 63 -> devintr' o m = Ok 0 m.
Proof.
  intros Hc Hr. unfold devintr. erewrite bind_ok by (apply hw_ok; reflexivity). cbv beta. rewrite Hc.
  assert (Z.land cause 0x8000000000000000 = 0) as ->.
  { apply Z.bits_inj'. intros n Hn. change 0x8000000000000000 with (2 ^ 63). rewrite Z.land_spec, Z.bits_0, Z.pow2_bits_eqb by lia.
    destruct (Z.eqb_spec 63 n) as [<-|]; [|by rewrite andb_false_r]. destruct (decide (cause = 0)) as [->|]; [done|].
    rewrite Z.bits_above_log2; [done|lia|]. apply Z.log2_lt_pow2; lia. }
  cbn [istrue Z.eqb negb andb]. rewrite (proj2 (Z.eqb_neq _ _)) by lia. by destruct m.
Qed.

(** The message about a fault changes nothing but the console, and then the process
    is marked. *)
Lemma fault_marks me p (m m' : mach') u :
  ps_procs (m_k m) !! me = Some p ->
  (c <- hw r_scause;;
   p <- in_k (at_proc me);;
   in_k (kprintf patience (bytes "usertrap(): unexpected scause %p pid=%d" ++ [x0a; x00]) [VInt c; VInt (p_pid p)]);;;
   e <- hw r_sepc;;
   v <- hw r_stval;;
   in_k (kprintf patience (bytes "            sepc=%p stval=%p" ++ [x0a; x00]) [VInt e; VInt v]);;;
   in_k (setkilled me)) m = Ok u m' ->
  ps_procs (m_k m') !! me = Some (w_killed true p).
Proof.
  intros Hp H. apply bind_ok_inv in H as (c & m1 & E1 & H). apply (read_calm (Some me)) in E1 as ((_ & E1) & _).
  apply bind_ok_inv in H as (q & m2 & E2 & H).
  assert (ps_procs (m_k m2) !! me = ps_procs (m_k m1) !! me) as E2'.
  { unfold in_k, zoom, at_proc in E2. destruct (ps_procs (m_k m1) !! me) eqn:E0; [|done]. injection E2 as _ <-. exact E0. }
  apply bind_ok_inv in H as (? & m3 & E3 & H). apply (in_k_calm (Some me) _ (kprintf_calm _ _ _ _)) in E3 as ((_ & E3) & _).
  apply bind_ok_inv in H as (e & m4 & E4 & H). apply (read_calm (Some me)) in E4 as ((_ & E4) & _).
  apply bind_ok_inv in H as (v & m5 & E5 & H). apply (read_calm (Some me)) in E5 as ((_ & E5) & _).
  apply bind_ok_inv in H as (? & m6 & E6 & H). apply (in_k_calm (Some me) _ (kprintf_calm _ _ _ _)) in E6 as ((_ & E6) & _).
  unfold in_k, zoom, setkilled, upd, modify in H. injection H as _ <-. cbn [m_k ps_procs].
  by rewrite list_lookup_alter_eq, E6, E5, E4, E3, E2', E1, Hp.
Qed.

Lemma killed_exits me q (rest : M mach' uend) (m m' : mach') r :
  ps_procs (m_k m) !! me = Some q -> p_killed q = true ->
  (k <- in_k (killed me);; if k : bool then in_k (k_exit me (-1));;; ret UExit else rest) m = Ok r m' ->
  r = UExit /\ exists z, ps_procs (m_k m') !! me = Some z /\ p_state z = ZOMBIE /\ p_xstate z = -1.
Proof.
  intros Hq Hk H. erewrite bind_ok in H by (apply in_k_ok, killed_ok; exact Hq). rewrite Hk in H.
  apply bind_ok_inv in H as (u & m1 & E1 & E2). unfold ret in E2. injection E2 as <- <-. split; [done|].
  unfold in_k, zoom in E1. destruct (k_exit me (-1) _) as [u' k1| | | |] eqn:E; try done. injection E1 as _ <-.
  destruct u'. exact (k_exit_zombie _ _ _ _ E).
Qed.

(** ** System calls *)

(** The state in which [syscall] is called. *)
Definition calling (p : proc) (m : mach') : mach' :=
  let m := handling p m in
  with_hart (set_csr CSR_sstatus (Z.lor (h_csr (m_hart m) CSR_sstatus) SSTATUS_SIE) (m_hart m))
    (with_k (with_mem (wr64 (p_trapframe p + TF_epc) (u64 (load64 (kmem (ps_mem (m_k m))) (p_trapframe p + TF_epc) + 4)) (ps_mem (m_k m))) (m_k m)) m).

Lemma saved_epc me p x pc pc' (k : pstate (kfs T)) :
  saved me p x pc k -> 0 <= pc' < 2 ^ 64 -> saved me p x pc' (with_mem (wr64 (p_trapframe p + TF_epc) pc' (ps_mem k)) k).
Proof.
  intros (Hp & Hf & Hx & _) Hpc. split_and!; [done| | |].
  - eapply maps_same; [exact Hf|]. apply same_but_store; unfold TF_epc, TF_size; lia.
  - intros r. rewrite <- (Hx r). destruct (tf_off_words r) as (? & ? & ? & ? & ?).
    apply (load_wr64_other _ _ _ _ _ TF_size); [done|apply tf_off_slot|done].
  - by apply load_store64_same.
Qed.

Lemma saved_a0 me p x pc v (k : pstate (kfs T)) :
  saved me p x pc k -> 0 <= v < 2 ^ 64 ->
  saved me p (fun r => if decide (r = X_a0) then v else x r) pc (with_mem (wr64 (p_trapframe p + TF_a0) v (ps_mem k)) k).
Proof.
  intros (Hp & Hf & Hx & He) Hv. split_and!; [done| | |].
  - eapply maps_same; [exact Hf|]. apply same_but_store; unfold TF_a0, TF_size; lia.
  - intros r. case_decide as Hr; [subst r; by apply load_store64_same|]. rewrite <- (Hx r).
    apply (load_wr64_other _ _ _ _ _ TF_size); [done|apply tf_off_slot|]. by destruct r.
  - rewrite <- He. by apply (load_wr64_other _ _ _ _ _ TF_size).
Qed.

Lemma syscall_result me v q (m m' : mach') :
  syscall' me m = Ok (SysRet v) m' -> ps_procs (m_k m') !! me = Some q ->
  load64 (kmem (ps_mem (m_k m'))) (p_trapframe q + TF_a0) = u64 v.
Proof.
  assert (forall w (m1 m2 : mach') r, (in_k (tf_set me TF_a0 (u64 w));;; ret (SysRet r)) m1 = Ok (SysRet v) m2 ->
    ps_procs (m_k m2) !! me = Some q -> r = w -> load64 (kmem (ps_mem (m_k m2))) (p_trapframe q + TF_a0) = u64 v) as Hset.
  { intros w m1 m2 r H Hq ->. apply bind_ok_inv in H as (u & m3 & E1 & E2). unfold ret in E2. injection E2 as -> <-.
    unfold in_k, zoom, tf_set, bind, at_proc in E1. destruct (ps_procs (m_k m1) !! me) as [q'|] eqn:E; [|done].
    cbn in E1. injection E1 as _ <-. cbn in Hq |- *. rewrite E in Hq. injection Hq as ->. apply load_store64_same, u64_range. }
  unfold syscall. intros H Hq. apply bind_ok_inv in H as (p & m1 & _ & H). apply bind_ok_inv in H as (a7 & m2 & _ & H). cbv zeta in H.
  lazymatch type of H with context [match ?x with Some _ => _ | None => _ end] => destruct x as [call|] end.
  - apply bind_ok_inv in H as ([w| |] & m3 & _ & H); [by eapply Hset|done..].
  - apply bind_ok_inv in H as (u & m3 & _ & H). by eapply Hset.
Qed.
Lemma user_trap_call me p ksatp id (m : mach') junk tval :
  in_user' me p ksatp id m -> machine_regs (m_hart m) -> p_killed p = false ->
  exists m1 : mach', saved me p (h_x (m_hart m)) (u64 (h_pc (m_hart m) + 4)) (m_k m1) /\ kernel_hart (m_hart m1) /\
    h_csr (m_hart m1) CSR_satp = ksatp /\ h_x (m_hart m1) X_tp = id /\
    Z.testbit (h_csr (m_hart m1) CSR_sstatus) 1 = true /\ ps_files (m_k m1) = ps_files (m_k m) /\
    user_trap' me junk 8 tval m =
      (r <- (r <- syscall' me;; match r with SysRet _ => usertrap_end' me 0 | SysSleep => ret USleep | SysExit => ret UExit end);; finish' junk r) m1.
Proof.
  intros Hu Hr Hk.
  destruct (user_enter_ok trampoline uservec_addr usertrap_addr me m p ksatp id 8 tval Hu Hr) as (h1 & s1 & E & He & Hx & Hf & _).
  set (m1 := with_hart h1 (with_k (with_mem s1 (m_k m)) m)) in *.
  assert (ps_procs (m_k m1) !! me = Some p) as Hp by exact (iu_proc _ _ _ _ _ _ _ _ Hu).
  destruct (handling_saved me m1 p ksatp id 8 tval _ _ He Hp Hx Hf (proj2 Hr)) as (Hs & Hsat & Htp & Hmode).
  exists (calling p m1). split_and!; try done.
  - unfold calling. cbv zeta. cbn [with_hart with_k m_k]. rewrite (proj2 (proj2 (proj2 Hs))). apply (saved_epc _ _ _ _ _ _ Hs), u64_range.
  - by apply (user_kernel_hart me p ksatp id m).
  - unfold calling. cbn [with_hart with_k m_hart set_csr h_csr]. rewrite fn_lookup_insert. unfold SSTATUS_SIE. rewrite testbit_set by lia. apply orb_true_r.
  - rewrite (user_trap_entered me junk 8 tval m m1 E). unfold bind at 1. rewrite (usertrap_handling me m1 p _ _ _ _ _ He Hp). cbn [Z.eqb Pos.eqb].
    erewrite bind_ok by (apply in_k_ok, killed_ok; apply Hs). rewrite Hk. cbv beta iota.
    erewrite bind_ok by (apply in_k_ok, tf_get_ok; exact Hp). cbv beta.
    erewrite bind_ok by (apply in_k_ok, tf_set_ok; exact Hp). cbv beta.
    erewrite bind_ok by (apply hw_ok; reflexivity). done.
Qed.

Lemma usertrap_end_return me p x pc (m : mach') junk :
  kernel_hart (m_hart m) -> saved me p x pc (m_k m) -> p_killed p = false ->
  exists m', (r <- usertrap_end' me 0;; finish' junk r) m = Ok (UReturn (MAKE_SATP (p_pagetable p))) m' /\
    in_user' me p (h_csr (m_hart m) CSR_satp) (h_x (m_hart m) X_tp) m' /\
    (forall r, h_x (m_hart m') r = x r) /\ h_pc (m_hart m') = pc.
Proof.
  intros Hh Hs Hk. destruct (leave_finish me m p x pc junk Hh Hs) as (m' & F & HF). exists m'. split; [|done].
  rewrite <- F. unfold usertrap_end. unfold bind at 1. unfold bind at 1.
  rewrite (in_k_ok _ _ _ _ (killed_ok me p _ (proj1 Hs))), Hk. by destruct m.
Qed.

Lemma syscall_getpid me p x pc (m : mach') :
  saved me p x pc (m_k m) -> i32 (x X_a7) = 11 -> k_woken (ps_files (m_k m)) = [] ->
  exists k, syscall' me m = Ok (SysRet (p_pid p)) (with_k k m) /\ saved me p (fun r => if decide (r = X_a0) then u64 (p_pid p) else x r) pc k.
Proof.
  intros Hs Ha Hw. unfold syscall. pose proof (proj1 Hs) as Hp. destruct m as [h k pl ti fi]. cbn [m_k] in *.
  erewrite bind_ok by (apply in_k_ok, at_proc_ok; exact Hp). cbv beta.
  erewrite bind_ok by (apply in_k_ok, tf_get_ok; exact Hp). cbv beta zeta. cbn [with_k m_k].
  assert (load64 (kmem (ps_mem k)) (p_trapframe p + TF_a7) = x X_a7) as -> by exact (proj1 (proj2 (proj2 Hs)) X_a7).
  rewrite Ha. cbn [Z.ltb Z.compare Pos.compare Pos.compare_cont andb syscalls].
  set (k1 := upd_kfs (fun f => mkKfs (k_fs f) (k_files f) (k_pipes f) []) k).
  rewrite (bind_ok _ _ _ (SysRet (p_pid p)) (mkMach h k1 pl ti fi)).
  - cbv beta iota. assert (saved me p x pc k1) as Hs1 by exact Hs. erewrite bind_ok by (apply in_k_ok, tf_set_ok; exact Hp).
    eexists. split; [reflexivity|]. apply (saved_a0 _ _ _ _ _ k1 Hs1), u64_range.
  - unfold value. rewrite (bind_ok _ _ _ (p_pid p) (mkMach h k pl ti fi)).
    + cbv beta. erewrite bind_ok; [reflexivity|]. apply in_k_ok. unfold pipe_wakeups.
      erewrite bind_ok by reflexivity. cbv beta. cbn [m_k]. rewrite Hw. erewrite bind_ok by reflexivity. done.
    + apply (in_k_ok (sys_getpid me) (mkMach h k pl ti fi)). unfold sys_getpid. by rewrite (bind_ok _ _ _ _ _ (at_proc_ok me _ _ Hp)).
Qed.
Lemma syscall_unknown me p x pc (m m' : mach') r :
  saved me p x pc (m_k m) -> i32 (x X_a7) <= 0 \/ 22 <= i32 (x X_a7) -> syscall' me m = Ok r m' ->
  r = SysRet (-1) /\ saved me p (fun r => if decide (r = X_a0) then 2 ^ 64 - 1 else x r) pc (m_k m').
Proof.
  intros Hs Ha H. pose proof (proj1 Hs) as Hp. unfold syscall in H. destruct m as [h k pl ti fi]. cbn [m_k] in *.
  erewrite bind_ok in H by (apply in_k_ok, at_proc_ok; exact Hp). cbv beta in H.
  erewrite bind_ok in H by (apply in_k_ok, tf_get_ok; exact Hp). cbv beta zeta in H. cbn [with_k m_k] in H.
  assert (load64 (kmem (ps_mem k)) (p_trapframe p + TF_a7) = x X_a7) as Hx by exact (proj1 (proj2 (proj2 Hs)) X_a7).
  rewrite Hx in H. assert ((0 <? i32 (x X_a7)) && (i32 (x X_a7) <? 22) = false) as Hn by (destruct Ha; bprop; lia).
  rewrite Hn in H. apply bind_ok_inv in H as (u & m1 & E1 & H). apply (in_k_calm (Some me) _ (kprintf_calm _ _ _ _)) in E1.
  pose proof (saved_calm me p x pc _ _ E1 Hs) as Hs1.
  erewrite bind_ok in H by (apply in_k_ok, tf_set_ok; exact (proj1 Hs1)). unfold ret in H. injection H as <- <-.
  split; [done|]. exact (saved_a0 _ _ _ _ _ _ Hs1 (u64_range (-1))).
Qed.

(** ** Traps in the kernel *)

Abbreviation kerneltrap' := (kerneltrap ticks_addr tty_chan disk_chan patience rounds).
Abbreviation kernel_trap' := (kernel_trap ticks_addr tty_chan disk_chan patience rounds).

(** The stack of the interrupted kernel code has room for the registers, at [pa]. *)
Definition stack_room (m : mach') (pa : Z) : Prop := sees (m_hart m) (ps_mem (m_k m)) (h_x (m_hart m) X_sp - 256) pa 256.

(** The registers [x] of the interrupted code are on its stack. *)
Definition on_stack (m : mach') (pa : Z) (x : reg -> Z) : Prop :=
  h_x (m_hart m) X_sp = x X_sp - 256 /\ sees (m_hart m) (ps_mem (m_k m)) (x X_sp - 256) pa 256 /\
  holds_stack (kmem (ps_mem (m_k m))) pa x /\ load64 (kmem (ps_mem (m_k m))) (pa + kv_off X_sp) = x X_sp - 256.

Lemma on_stack_calm me (m m' : mach') pa x : calm me m m' -> on_stack m pa x -> on_stack m' pa x.
Proof.
  intros ((Hm & _) & H1 & H2 & _ & H4) (A & B & C & E). unfold on_stack, sees in *. rewrite H1, H2, H4, Hm by done. done.
Qed.

Lemma kernel_enter_ok (m : mach') pa cause tval :
  h_mode (m_hart m) = SMode -> machine_regs (m_hart m) -> stack_room m pa ->
  exists m1, (hw (trap_s cause tval);;; asm kernelvec_save) m = Ok tt m1 /\ on_stack m1 pa (h_x (m_hart m)) /\
    m_k m1 = with_mem (ps_mem (m_k m1)) (m_k m) /\ h_x (m_hart m1) X_tp = h_x (m_hart m) X_tp /\
    h_csr (m_hart m1) CSR_sepc = h_pc (m_hart m) /\ h_csr (m_hart m1) CSR_scause = cause /\
    h_csr (m_hart m1) CSR_sstatus = put_bit 1 false (put_bit 5 (Z.testbit (h_csr (m_hart m) CSR_sstatus) 1) (put_bit 8 true (h_csr (m_hart m) CSR_sstatus))) /\
    same_but pa 256 (kmem (ps_mem (m_k m))) (kmem (ps_mem (m_k m1))) /\
    (forall c, c <> CSR_sstatus -> c <> CSR_sepc -> c <> CSR_scause -> c <> CSR_stval -> h_csr (m_hart m1) c = h_csr (m_hart m) c).
Proof.
  intros Hm Hr Hs. erewrite bind_ok by (apply hw_ok; reflexivity). cbv beta. set (h1 := mkHart _ _ _ _).
  assert (sees h1 (ps_mem (m_k m)) (h_x h1 X_sp - 256) pa 256) as Hs1.
  { destruct Hs as (A & B & C). split_and!; [done| |apply C|apply C]. exact B. }
  destruct (kernelvec_save_ok h1 (ps_mem (m_k m)) pa Hs1 (proj1 Hr)) as (s' & E & E1 & E2 & E3 & E4).
  eexists. split; [exact (asm_ok _ (with_hart h1 m) _ _ E)|]. cbn [with_hart with_k m_hart m_k with_mem ps_mem].
  split; [split_and!; try done|split_and!; try done].
  - split_and!; try done; [|apply Hs1..]. eapply maps_same; [apply Hs1|done].
  - unfold h1. cbn [set_x h_csr]. rewrite fn_lookup_insert, Hm. done.
  - intros c H1 H2 H3 H4. unfold h1. cbn [set_x h_csr]. by rewrite !fn_lookup_insert_ne by congruence.
Qed.

Lemma kernel_back_ok (m : mach') pa x sepc sst junk :
  on_stack m pa x -> (forall r, 0 <= x r < 2 ^ 64) -> Z.testbit sst 8 = true ->
  exists m', kernel_trap_back junk sepc sst m = Ok tt m' /\ m_k m' = m_k m /\
    (forall r, r <> X_tp -> h_x (m_hart m') r = x r) /\ h_x (m_hart m') X_tp = h_x (m_hart m) X_tp /\
    h_pc (m_hart m') = sepc /\ h_mode (m_hart m') = SMode /\ h_csr (m_hart m') CSR_sstatus = sret_status sst /\
    (forall c, c <> CSR_sstatus -> c <> CSR_sepc -> h_csr (m_hart m') c = h_csr (m_hart m) c).
Proof.
  intros (Hsp & Hs & Hh & Hl) Hx H8. unfold kernel_trap_back, kerneltrap_return.
  erewrite bind_ok; [|erewrite bind_ok by (apply hw_ok; reflexivity); cbv beta; apply hw_ok; reflexivity]. cbv beta.
  erewrite bind_ok by (apply hw_ok; reflexivity). cbv beta. set (h1 := mkHart _ _ _ _).
  assert (sees h1 (ps_mem (m_k m)) (x X_sp - 256) pa 256) as Hs1.
  { destruct Hs as (A & B & C). split_and!; [done| |apply C|apply C]. exact B. }
  destruct (kernelvec_restore_ok h1 (ps_mem (m_k m)) (x X_sp - 256) pa x Hs1) as (h' & E & E1 & E2 & E3 & E4 & E5 & E6); try done.
  { specialize (Hx X_sp). lia. }
  eexists. split; [exact (asm_ok _ (with_hart h1 m) _ _ E)|]. cbn [with_hart with_k m_hart m_k].
  split_and!; try done.
  - by destruct (m_k m).
  - intros r Hr. destruct (decide (r = X_sp)) as [->|]; [rewrite E2; lia|by apply E1].
  - rewrite E5. change (h_csr h1 CSR_sstatus) with sst. by rewrite H8.
  - rewrite E6, fn_lookup_insert. done.
  - intros c H1 H2. rewrite E6, fn_lookup_insert_ne by congruence. unfold h1. cbn [with_hart m_hart set_csr h_csr]. by rewrite !fn_lookup_insert_ne by congruence.
Qed.
(** Whether the interrupted code is that of a running process, which a timer
    interrupt makes give the CPU up. *)
Definition gives_up (me : option nat) (w : Z) (k : pstate (kfs T)) : bool :=
  match me with
  | Some i => (w =? 2) && match ps_procs k !! i with Some q => bool_decide (p_state q = RUNNING) | None => false end
  | None => false
  end.

Lemma kerneltrap_ok me (m m2 : mach') w pa x :
  on_stack m pa x -> Z.testbit (h_csr (m_hart m) CSR_sstatus) 8 = true -> Z.testbit (h_csr (m_hart m) CSR_sstatus) 1 = false ->
  (forall i, me = Some i -> is_Some (ps_procs (m_k m) !! i)) -> devintr' me m = Ok w m2 -> w <> 0 ->
  exists m3, kerneltrap' me m = Ok (gives_up me w (m_k m), h_csr (m_hart m) CSR_sepc, h_csr (m_hart m) CSR_sstatus) m3 /\
    on_stack m3 pa x /\ ps_mem (m_k m3) = ps_mem (m_k m) /\ m_hart m3 = m_hart m2.
Proof.
  intros Hst H8 H1 Hme Ed Hw. pose proof (devintr_calm _ _ _ _ _ _ _ _ _ Ed) as Hc. pose proof (on_stack_calm _ _ _ _ _ Hc Hst) as Hst2.
  destruct Hc as ((Hmem & Hproc) & _). unfold kerneltrap.
  do 3 (erewrite bind_ok by (apply hw_ok; reflexivity); cbv beta). unfold SSTATUS_SPP. rewrite land_bit_eqb by lia. cbn [with_hart m_hart]. rewrite H8. cbn [negb].
  rewrite (bind_ok _ _ _ false m).
  2:{ destruct m as [h0 k0 p0 t0 f0]. apply (hw_ok intr_get (mkMach _ _ _ _ _)). unfold intr_get, SSTATUS_SIE, r_sstatus. run1. rewrite istrue_bit by lia. cbn [m_hart] in H1 |- *. by rewrite H1. }
  cbv beta iota. destruct m as [h k pl ti fi]. run Ed. rewrite (proj2 (Z.eqb_neq _ _) Hw). cbn [m_k m_hart] in *.
  assert (gives_up me w k = false -> exists m3, ((if w =? 2 then
                match me with
                | Some i => p <- in_k (at_proc i);; if bool_decide (p_state p = RUNNING) then in_k (yield i);;; ret true else ret false
                | None => ret false
                end
              else ret false) : M mach' bool) m2 = Ok false m3 /\ m3 = m2) as Hno.
  { intros Hg. exists m2. split; [|done]. destruct (w =? 2) eqn:Ew; [|done]. destruct me as [i|]; [|done]. destruct (Hme i eq_refl) as [q Hq].
    rewrite <- Hproc in Hq. erewrite bind_ok by (apply in_k_ok, at_proc_ok; exact Hq). cbn [gives_up] in Hg. rewrite <- Hproc, Hq, Ew in Hg. cbn [andb] in Hg. rewrite Hg. by destruct m2. }
  destruct (gives_up me w k) eqn:Hg.
  - clear Hno. destruct me as [i|]; [|done]. cbn in Hg. apply andb_prop in Hg as [-> Hg]. destruct (Hme i eq_refl) as [q Hq].
    rewrite Hq in Hg. rewrite <- Hproc in Hq. destruct (yield_ok i q (m_k m2) Hq) as (k' & Y & Y1 & Y2).
    exists (with_k k' m2). split; [|split_and!; try done].
    + rewrite (bind_ok _ _ _ true (with_k k' m2)); [done|]. erewrite bind_ok by (apply in_k_ok, at_proc_ok; exact Hq). rewrite Hg.
      erewrite bind_ok by (apply in_k_ok; destruct m2; exact Y). by destruct m2.
    + unfold on_stack, sees in *. cbn [with_k m_k m_hart]. by rewrite Y1.
    + cbn [with_k m_k]. by rewrite Y1.
  - destruct (Hno eq_refl) as (m3 & E & ->). exists m2. split; [by run E|]. by split_and!.
Qed.

Lemma kernel_trap_entered me junk cause tval (m m1 : mach') :
  (hw (trap_s cause tval);;; asm kernelvec_save) m = Ok tt m1 ->
  kernel_trap' me junk cause tval m =
    (r <- kerneltrap' me;; (if r.1.1 : bool then ret tt else kernel_trap_back junk r.1.2 r.2);;; ret r) m1.
Proof. intros ([] & m0 & E1 & E2)%bind_ok_inv. unfold kernel_trap. run E1. by run E2. Qed.

(** The status on the way in, and what [sret] makes of it. *)
Lemma trap_status_bits x :
  let st := put_bit 1 false (put_bit 5 (Z.testbit x 1) (put_bit 8 true x)) in
  Z.testbit st 8 = true /\ Z.testbit st 1 = false /\
  (forall k, 0 <= k -> k <> 5 -> k <> 8 -> Z.testbit (sret_status st) k = Z.testbit x k).
Proof.
  intros st. assert (Z.testbit st 5 = Z.testbit x 1) as H5 by (unfold st; by rewrite put_bit_other, put_bit_same).
  split_and!; [unfold st; by rewrite put_bit_other, put_bit_other, put_bit_same by lia|unfold st; by rewrite put_bit_same|].
  intros k Hk K5 K8. unfold sret_status. rewrite !(put_bit_other 8), !(put_bit_other 5) by lia.
  destruct (decide (k = 1)) as [->|]; [by rewrite put_bit_same|]. rewrite put_bit_other by lia.
  unfold st. by rewrite !put_bit_other by lia.
Qed.

Lemma kerneltrap_fault me (m m2 : mach') r m' : devintr' me m = Ok 0 m2 -> kerneltrap' me m = Ok r m' -> False.
Proof.
  intros Ed H. unfold kerneltrap in H. destruct m as [h k pl ti fi].
  do 3 (erewrite bind_ok in H by (apply hw_ok; reflexivity); cbv beta in H).
  destruct (_ =? 0) in H; [done|]. erewrite bind_ok in H by (apply hw_ok; reflexivity). cbv beta in H.
  destruct (istrue _) in H; [done|]. rewrite (bind_ok _ _ _ _ _ Ed) in H. cbv beta in H. cbn [Z.eqb] in H.
  apply bind_ok_inv in H as (? & m3 & _ & H). apply bind_ok_inv in H as (? & m4 & _ & H).
  apply bind_ok_inv in H as (? & m5 & _ & H). by apply bind_ok_inv in H as (? & m6 & _ & H).
Qed.

End claims.

(** ** start.c and the timer *)

Lemma mpp_bits x b0 b1 : Z.testbit x 11 = b0 -> Z.testbit x 12 = b1 -> Z.land (Z.shiftr x 11) 3 = Z.b2z b0 + 2 * Z.b2z b1.
Proof.
  intros H0 H1. apply Z.bits_inj'. intros n Hn. rewrite Z.land_spec, Z.shiftr_spec by lia.
  destruct (decide (n = 0)) as [->|]; [|destruct (decide (n = 1)) as [->|]].
  - change (0 + 11) with 11. rewrite H0. by destruct b0, b1.
  - change (1 + 11) with 12. rewrite H1. by destruct b0, b1.
  - assert (forall v, 0 <= v < 4 -> Z.testbit v n = false) as Hv.
    { intros v Hv. destruct (decide (v = 0)) as [->|]; [apply Z.bits_0|]. apply Z.bits_above_log2; [lia|]. apply Z.log2_lt_pow2; [lia|].
      apply Z.lt_le_trans with (2 ^ 2); [lia|]. apply Z.pow_le_mono_r; lia. }
    rewrite (Hv 3), andb_false_r by lia. symmetry. apply Hv. destruct b0, b1; cbn [Z.b2z]; lia.
Qed.

Lemma mode_bits_back md x :
  Z.testbit x 11 = Z.testbit (mode_bits md) 0 -> Z.testbit x 12 = Z.testbit (mode_bits md) 1 ->
  mode_of_bits (Z.land (Z.shiftr x 11) 3) = Some md.
Proof. intros H0 H1. rewrite (mpp_bits _ _ _ H0 H1). by destruct md. Qed.

(** A hart is ready for the timer: [mscratch] points to its scratch area. *)
Definition timer_ready (timervec_addr sc cmp : Z) (c : cpu) : Prop :=
  h_csr c.1 CSR_mscratch = sc /\ h_csr c.1 CSR_mtvec = timervec_addr /\ timer_area (kmem c.2) sc cmp /\
  load64 (kmem c.2) (sc + 32) = 1000000.

Section start_spec.
Context (main_addr timervec_addr timer_scratch : Z).
Context (scratch_ok : 0 <= timer_scratch /\ timer_scratch mod 8 = 0 /\ timer_scratch + 40 * 2 ^ 31 <= 2 ^ 64).

Lemma timerinit_ok h s id :
  h_csr h CSR_mhartid = id -> 0 <= id < 2 ^ 31 ->
  (CLINT_MTIMECMP id + 8 <= timer_scratch + 40 * id \/ timer_scratch + 40 * id + 40 <= CLINT_MTIMECMP id) ->
  exists h' s', timerinit timervec_addr timer_scratch (h, s) = Ok tt (h', s') /\
    timer_ready timervec_addr (timer_scratch + 40 * id) (CLINT_MTIMECMP id) (h', s') /\
    load64 (kmem s') (CLINT_MTIMECMP id) = u64 (load64 (kmem s) CLINT_MTIME + 1000000) /\
    h_x h' = h_x h /\ h_mode h' = h_mode h /\
    h_csr h' CSR_mstatus = Z.lor (h_csr h CSR_mstatus) MSTATUS_MIE /\ Z.testbit (h_csr h' CSR_mie) 7 = true /\
    (forall c, c <> CSR_mscratch -> c <> CSR_mtvec -> c <> CSR_mstatus -> c <> CSR_mie -> h_csr h' c = h_csr h c).
Proof.
  intros Hid Hr Hd. unfold timerinit. erewrite bind_ok by reflexivity. cbv beta zeta. cbn [fst]. rewrite Hid, i32_small by lia.
  erewrite bind_ok by reflexivity. cbv beta. set (v := u64 _). set (sc := timer_scratch + 40 * id) in *. set (cmp := CLINT_MTIMECMP id) in *.
  do 7 (erewrite bind_ok by reflexivity; cbv beta). cbn [snd fst].
  assert (0 <= cmp /\ cmp mod 8 = 0 /\ cmp + 8 <= 2 ^ 64) as Hc by (unfold cmp, CLINT_MTIMECMP, CLINT; dlia).
  assert (0 <= sc /\ sc mod 8 = 0 /\ sc + 40 <= 2 ^ 64) as Hs by (unfold sc; dlia).
  eexists _, _. split; [reflexivity|]. split; [split_and!; try done|split_and!; try done].
  - split; [lia| |lia]. cbn. rewrite load_store64_other by lia. apply load_store64_same. lia.
  - cbn. by apply load_store64_same.
  - cbn. rewrite !load_store64_other by lia. apply load_store64_same, u64_range.
  - cbn [on_hart set_csr h_csr]. rewrite fn_lookup_insert. unfold MIE_MTIE. rewrite testbit_set by lia. apply orb_true_r.
  - intros c H1 H2 H3 H4. cbn [fst snd set_csr h_csr]. by rewrite !fn_lookup_insert_ne by congruence.
Qed.

Lemma timer_trap_ok h s sc cmp cause :
  timer_ready timervec_addr sc cmp (h, s) -> machine_regs h ->
  exists h' s', (on_hart (trap_m cause);;; exec_code timervec) (h, s) = Ok tt (h', s') /\
    timer_ready timervec_addr sc cmp (h', s') /\
    (forall r, h_x h' r = h_x h r) /\ h_mode h' = h_mode h /\ h_pc h' = h_pc h /\ h_csr h' CSR_sip = 2 /\
    (forall c, c <> CSR_sip -> c <> CSR_mstatus -> c <> CSR_mepc -> c <> CSR_mcause -> h_csr h' c = h_csr h c) /\
    load64 (kmem s') cmp = u64 (load64 (kmem s) cmp + 1000000) /\
    (forall a, (a + 8 <= sc \/ sc + 24 <= a) -> (a + 8 <= cmp \/ cmp + 8 <= a) -> load64 (kmem s') a = load64 (kmem s) a).
Proof.
  intros (Hsc & Htv & Ha & Hi) [Hx Hp]. cbn [fst snd] in *. erewrite bind_ok by reflexivity. cbv beta. cbn [fst snd]. set (h1 := mkHart _ _ _ _).
  assert (mode_of_bits (Z.land (Z.shiftr (h_csr h1 CSR_mstatus) 11) 3) = Some (h_mode h)) as Hmd.
  { apply mode_bits_back; unfold h1; cbn [h_csr]; rewrite fn_lookup_insert; rewrite !(put_bit_other 3), !(put_bit_other 7) by lia;
      [rewrite put_bit_other by lia|]; by rewrite put_bit_same. }
  destruct (timervec_ok h1 s sc cmp (h_mode h)) as (h' & s' & E & E1 & E2 & E3 & E4 & E5 & E6 & E7); try done.
  rewrite Hi in E6. exists h', s'. split; [exact E|]. pose proof Ha as [A1 A2 A3].
  split; [|split_and!; try done].
  - split_and!; cbn [fst snd]; [by rewrite E5|by rewrite E5| |rewrite E7 by lia; done]. split; [done| |done]. rewrite E7 by lia. done.
  - intros c c1 c2 c3 c4. rewrite E5 by done. unfold h1. cbn [h_csr]. by rewrite !fn_lookup_insert_ne by congruence.
Qed.

(** C23: [start], run in machine mode, brings a hart to [main] in supervisor mode with
    its number in [tp], paging off, all traps delegated, its interrupts enabled and
    its timer set, and from then on a timer interrupt in any mode goes unnoticed but
    for its purpose: [timervec] moves the timer on by the interval, raises the
    supervisor's software interrupt, and returns to the interrupted code with every
    register, the program counter and the mode as they were, ready for the next. *)
Theorem start_and_timer h s id :
  h_mode h = MMode -> h_csr h CSR_mhartid = id -> 0 <= id < 2 ^ 31 ->
  CLINT_MTIMECMP id + 8 <= timer_scratch + 40 * id \/ timer_scratch + 40 * id + 40 <= CLINT_MTIMECMP id ->
  let sc := timer_scratch + 40 * id in
  let cmp := CLINT_MTIMECMP id in
  (exists h' s', start main_addr timervec_addr timer_scratch (h, s) = Ok tt (h', s') /\
     h_mode h' = SMode /\ h_pc h' = main_addr /\ h_x h' X_tp = id /\ h_csr h' CSR_satp = 0 /\
     h_csr h' CSR_medeleg = 0xffff /\ h_csr h' CSR_mideleg = 0xffff /\
     (forall k, k = 1 \/ k = 5 \/ k = 9 -> Z.testbit (h_csr h' CSR_sie) k = true) /\ Z.testbit (h_csr h' CSR_mie) 7 = true /\
     timer_ready timervec_addr sc cmp (h', s') /\ load64 (kmem s') cmp = u64 (load64 (kmem s) CLINT_MTIME + 1000000)) /\
  (forall h1 s1 cause, timer_ready timervec_addr sc cmp (h1, s1) -> machine_regs h1 ->
     exists h2 s2, (on_hart (trap_m cause);;; exec_code timervec) (h1, s1) = Ok tt (h2, s2) /\
       timer_ready timervec_addr sc cmp (h2, s2) /\
       (forall r, h_x h2 r = h_x h1 r) /\ h_mode h2 = h_mode h1 /\ h_pc h2 = h_pc h1 /\ h_csr h2 CSR_sip = 2 /\
       (forall c, c <> CSR_sip -> c <> CSR_mstatus -> c <> CSR_mepc -> c <> CSR_mcause -> h_csr h2 c = h_csr h1 c) /\
       load64 (kmem s2) cmp = u64 (load64 (kmem s1) cmp + 1000000) /\
       (forall a, (a + 8 <= sc \/ sc + 24 <= a) -> (a + 8 <= cmp \/ cmp + 8 <= a) -> load64 (kmem s2) a = load64 (kmem s1) a)).
Proof.
  intros Hm Hid Hr Hd sc cmp. split; [|intros h1 s1 cause Ht Hr1; by apply timer_trap_ok].
  unfold start. do 10 (erewrite bind_ok by reflexivity; cbv beta zeta). cbn [fst snd]. set (h1 := set_csr CSR_pmpcfg0 _ _).
  destruct (timerinit_ok h1 s id) as (h2 & s2 & E & E1 & E2 & E3 & E4 & E5 & E6 & E7); [exact Hid|done|done|].
  run E. erewrite bind_ok by reflexivity. cbv beta. cbn [fst]. rewrite E7 by done. change (h_csr h1 CSR_mhartid) with (h_csr h CSR_mhartid).
  rewrite Hid, i32_small, u64_small by lia. erewrite bind_ok by reflexivity. cbv beta. cbn [fst snd]. set (h3 := set_x X_tp id h2).
  assert (h_csr h1 CSR_mstatus = Z.lor (Z.land (h_csr h CSR_mstatus) (Z.lnot MSTATUS_MPP_MASK)) MSTATUS_MPP_S) as Hms by done.
  assert (mode_of_bits (Z.land (Z.shiftr (h_csr h3 CSR_mstatus) 11) 3) = Some SMode) as Hmd.
  { change (h_csr h3 CSR_mstatus) with (h_csr h2 CSR_mstatus). rewrite E5, Hms.
    apply mode_bits_back; unfold MSTATUS_MIE, MSTATUS_MPP_S; rewrite !testbit_set by lia; cbn [Z.eqb Pos.eqb]; rewrite ?orb_true_r; [done|].
    rewrite Z.land_spec, Z.lnot_spec by lia. change (Z.testbit MSTATUS_MPP_MASK 12) with true. by rewrite andb_false_r. }
  unfold on_hart at 1, zoom, do_mret. cbn [fst snd]. rewrite Hmd, bool_decide_eq_true_2 by (cbn [h3 set_x h_mode]; by rewrite E4).
  eexists _, _. split; [reflexivity|]. cbn [h_mode h_pc h_x h_csr]. split_and!; try done; try (rewrite fn_lookup_insert_ne by done; cbn [h3 set_x h_csr]; rewrite E7 by done; done).
  - cbn [h3 set_x h_csr]. by rewrite E7.
  - intros k Hk. rewrite fn_lookup_insert_ne by done. cbn [h3 set_x h_csr]. rewrite E7 by done.
    change (h_csr h1 CSR_sie) with (Z.lor (Z.lor (Z.lor (h_csr h CSR_sie) SIE_SEIE) SIE_STIE) SIE_SSIE).
    unfold SIE_SEIE, SIE_STIE, SIE_SSIE. rewrite !testbit_set by lia.
    destruct Hk as [->|[->| ->]]; cbn [Z.eqb Pos.eqb]; by rewrite ?orb_true_r.
Qed.
End start_spec.
