(* ===== verification/TrapRun.v ===== *)
(** * A machine on which traps happen

    Concrete states for the theorems of TrapClaims: a process whose page table maps
    its trapframe, interrupted, making a system call and being killed; a kernel
    interrupted by the timer; a hart that starts. *)

From S2P Require Import Prelude Mem Kalloc Vm Bio FsLayout TxnLayer Fs Pipe User Printf Proc File Syscall Tty Virtio Riscv RiscvSpec Trap TrapSpec TrapKernel TrapClaims.

(** ** A page table of three pages that maps one page *)

Section one_page.
Context (kend root l1 l0 pa va f : Z).
Context (kend_pos : 0 < kend) (root_ok : kpage kend root) (l1_ok : kpage kend l1) (l0_ok : kpage kend l0).
Context (distinct : root <> l1 /\ root <> l0 /\ l1 <> l0 /\ pa <> root /\ pa <> l1 /\ pa <> l0).
Context (pa_ok : pa mod PGSIZE = 0 /\ 0 <= pa < 2 ^ 56) (va_ok : 0 <= va < MAXVA /\ va mod PGSIZE = 0) (f_ok : 0 <= f < 1024).

Definition one_page : pmem :=
  store64 (store64 (store64 ∅ (root + 8 * PX 2 va) (mkpte l1 PTE_V)) (l1 + 8 * PX 1 va) (mkpte l0 PTE_V)) (l0 + 8 * PX 0 va) (mkpte pa f).
Definition one_tree : ptree := mkPtree root {[ PX 2 va := l1 ]} {[ (PX 2 va, PX 1 va) := l0 ]}.

Lemma load64_empty a : load64 ∅ a = 0.
Proof. reflexivity. Qed.

Lemma one_page_other p a : kpage kend p -> 0 <= a < 512 ->
  (p, a) <> (root, PX 2 va) -> (p, a) <> (l1, PX 1 va) -> (p, a) <> (l0, PX 0 va) -> load64 one_page (p + 8 * a) = 0.
Proof.
  intros [Hp _] Ha N2 N1 N0. pose proof (PX_range 2 va ltac:(lia)). pose proof (PX_range 1 va ltac:(lia)). pose proof (PX_range 0 va ltac:(lia)).
  destruct root_ok as [R _], l1_ok as [L1 _], l0_ok as [L0 _]. unfold PGSIZE in *.
  assert (forall q b, q mod 4096 = 0 -> 0 <= b < 512 -> (p, a) <> (q, b) -> p + 8 * a + 8 <= q + 8 * b \/ q + 8 * b + 8 <= p + 8 * a) as Hd.
  { intros q b Hq Hb Hn. destruct (decide (p = q)) as [->|]; [|dlia]. assert (a <> b) by congruence. lia. }
  unfold one_page. rewrite !load_store64_other by by apply Hd. apply load64_empty.
Qed.

Lemma one_page_at :
  load64 one_page (root + 8 * PX 2 va) = mkpte l1 PTE_V /\ load64 one_page (l1 + 8 * PX 1 va) = mkpte l0 PTE_V /\
  load64 one_page (l0 + 8 * PX 0 va) = mkpte pa f.
Proof.
  pose proof (PX_range 2 va ltac:(lia)). pose proof (PX_range 1 va ltac:(lia)). pose proof (PX_range 0 va ltac:(lia)).
  pose proof (mkpte_V_range kend kend_pos l1 l1_ok). pose proof (mkpte_V_range kend kend_pos l0 l0_ok).
  pose proof (mkpte_range pa f ltac:(lia) f_ok). destruct root_ok as [R _], l1_ok as [L1 _], l0_ok as [L0 _]. unfold PGSIZE in *.
  unfold one_page. split_and!.
  - rewrite !load_store64_other by dlia. by apply load_store64_same.
  - rewrite load_store64_other by dlia. by apply load_store64_same.
  - by apply load_store64_same.
Qed.

Lemma one_page_inv : vm_inv kend (mkKst one_page 0) one_tree [].
Proof.
  destruct one_page_at as (E2 & E1 & E0). split; cbn [kmem freelist].
  - split_and!; [done|apply NoDup_nil_2|apply Forall_nil_2].
  - split; cbn [one_tree pt_root pt_l1 pt_l0].
    + intros i Hi. unfold points_to. destruct (decide (i = PX 2 va)) as [->|Hn]; [by rewrite lookup_singleton_eq|].
      rewrite lookup_singleton_ne by done. rewrite one_page_other; naive_solver.
    + intros i p j [<- <-]%lookup_singleton_Some Hj. unfold points_to. destruct (decide (j = PX 1 va)) as [->|Hn]; [by rewrite lookup_singleton_eq|].
      rewrite lookup_singleton_ne by congruence. rewrite one_page_other; naive_solver.
    + intros i j q [[= <- <-] <-]%lookup_singleton_Some. rewrite lookup_singleton_eq. by eexists.
  - intros [|i|i j] p Hp; cbn in Hp; [injection Hp as <-|apply lookup_singleton_Some in Hp as [_ <-]|apply lookup_singleton_Some in Hp as [_ <-]];
      (split; [done|apply not_elem_of_nil]).
  - intros r r' p Hr Hr'. destruct r as [|i|i j], r' as [|i'|i' j']; cbn in Hr, Hr';
      repeat match goal with H : _ !! _ = Some _ |- _ => apply lookup_singleton_Some in H as [? ?] end; destruct distinct as (?&?&?&?&?&?); congruence.
Qed.

Lemma one_page_maps :
  Z.land f PTE_V <> 0 -> Z.land f PTE_R <> 0 -> Z.land f PTE_W <> 0 -> Z.land f PTE_U = 0 ->
  maps (MAKE_SATP root) one_page va pa PGSIZE.
Proof.
  intros HV HR HW HU. apply (maps_page kend kend_pos (mkKst one_page 0) one_tree [] va pa f); try done; try apply one_page_inv; try apply va_ok; try apply pa_ok.
  - unfold pte_of. cbn [one_tree tbl pt_l0]. rewrite lookup_singleton_eq. apply one_page_at.
  - intros [|i|i j] p Hp; cbn in Hp; [injection Hp as <-|apply lookup_singleton_Some in Hp as [_ <-]|apply lookup_singleton_Some in Hp as [_ <-]]; naive_solver.
Qed.
End one_page.

(** ** Devices that are silent, and a kernel without files *)

#[local] Instance run_txn : TxnOps unit := {|
  t_bread _ _ := ret 0%nat; t_data _ := ret []; t_set _ _ := ret tt; t_log _ := ret tt; t_brelse _ := ret tt
|}.
#[local] Instance run_op : OpOps unit := {| t_begin_op := ret tt; t_end_op := ret tt |}.
#[local] Instance run_files : FileOps (kfs unit) := {|
  f_dup f := ret f; f_close _ := ret tt; i_dup i := ret i; i_put _ := ret tt; i_root := ret 1%nat
|}.
#[local] Instance run_uart : UartDev unit := {| ReadReg _ := ret 0; WriteReg _ _ := ret tt |}.
#[local] Instance run_virtio : VirtioRegs unit := {| R_read _ := ret 0; R_write _ _ := ret tt |}.
#[local] Instance run_plic : PlicDev unit := {| plic_read _ := ret 0; plic_write _ _ := ret tt |}.
#[local] Instance run_drivers : Drivers (kfs unit) unit unit := {|
  tty_of _ := mkTty (mkCons [] 0 0 0) (mkUart [] 0 0) false tt [];
  put_tty _ f := f;
  disk_of _ := mkVst [] 0 (mkVmem [] 0 [] 0 [] [] [] []) tt [];
  put_disk _ f := f
|}.

Definition run_proc (killed : bool) : proc :=
  mkProc RUNNING None killed 0 5 (Some 0%nat) 0x5000 4096 (3 * 4096) (6 * 4096) (0, 0) (replicate NOFILE None) (Some 1%nat) (replicate 16 x00).
Definition other_proc : proc :=
  mkProc UNUSED None false 0 0 None 0 0 0 0 (0, 0) (replicate NOFILE None) None (replicate 16 x00).
Definition run_mem : kst := kernel_words (6 * 4096) 0 0x6000 0x8000 1 (mkKst (one_page (3 * 4096) (4 * 4096) (5 * 4096) (6 * 4096) TRAPFRAME 7) 0).
Definition run_kernel (killed : bool) : pstate (kfs unit) :=
  mkPs (other_proc :: run_proc killed :: replicate 62 other_proc) 6 (Some 0%nat) run_mem
    (mkKfs (mkFs tt (mkSb 0 0 0 0 0 0 0 0) []) [] ∅ []).
Definition run_hart : hart :=
  mkHart (fun r => match r with X_a7 => 11 | _ => 7 end)
    (fun c => match c with CSR_satp => MAKE_SATP (3 * 4096) | CSR_stvec => TRAMPOLINE | CSR_sstatus => 2 | _ => 0 end) UMode 100.
Definition run_mach (killed : bool) : mach unit unit := mkMach run_hart (run_kernel killed) tt 0 false.

(** Its traps, with the trampoline, [uservec] and so on at these addresses. *)
Definition run_trap : (reg -> Z) -> Z -> Z -> M (mach unit unit) uend :=
  user_trap 4096 0x1000 0 0x1000 0x1200 0x9000 0x8000 0x100 (fun _ => 0) (fun _ => 0) (fun _ _ => 0) 0 0 (fun _ => None) (fun _ => None) [] [] [] [] 1.

Lemma run_mapped : maps (MAKE_SATP (3 * 4096)) (kmem run_mem) TRAPFRAME (6 * 4096) TF_size.
Proof.
  unfold run_mem. eapply maps_same; [|apply kernel_words_same]. apply (maps_shorter _ _ _ _ PGSIZE); [|done].
  apply (one_page_maps 4096); by vm_compute.
Qed.

Lemma run_words :
  load64 (kmem run_mem) (6 * 4096 + TF_kernel_satp) = 0 /\ load64 (kmem run_mem) (6 * 4096 + TF_kernel_sp) = 0x6000 /\
  load64 (kmem run_mem) (6 * 4096 + TF_kernel_trap) = 0x8000 /\ load64 (kmem run_mem) (6 * 4096 + TF_kernel_hartid) = 1.
Proof. by apply kernel_words_in. Qed.

#[local] Opaque run_mem.

Lemma run_in_user killed : in_user 0x1000 0x1000 0x8000 1 (run_proc killed) 0 1 (run_mach killed).
Proof.
  destruct run_words as (W1 & W2 & W3 & W4). split; [reflexivity..|exact run_mapped|exact W1|exact W2|exact W3|exact W4].
Qed.

#[local] Transparent run_mem.

Lemma run_regs : machine_regs run_hart.
Proof. split; [|done]. by intros []. Qed.

(** The interrupt controller has nothing to report. *)
Lemma run_devintr ta tc dc pt rn me (m : mach unit unit) :
  h_csr (m_hart m) CSR_scause = 0x8000000000000009 -> devintr ta tc dc pt rn me m = Ok 1 m.
Proof.
  intros H. unfold devintr. rewrite (bind_ok _ _ _ _ _ (hw_ok r_scause m _ _ eq_refl)). rewrite H. by destruct m as [h k [] t f].
Qed.

Lemma user_interrupt_transparent_witness :
  exists m', run_trap (fun _ => 0) 0x8000000000000009 0 (run_mach false) = Ok (UReturn (MAKE_SATP (3 * 4096))) m' /\
    h_x (m_hart m') X_t3 = 7 /\ h_pc (m_hart m') = 100.
Proof.
  destruct (user_interrupt_transparent 4096 0x1000 0 0x1000 0x1200 0x9000 0x8000 0x100 (fun _ => 0) (fun _ => 0) (fun _ _ => 0) 0 0
    (fun _ => None) (fun _ => None) [] [] [] [] ltac:(lia) 1 (run_proc false) 0 1 (run_mach false) (fun _ => 0) 0x8000000000000009 0
    (run_in_user false) run_regs ltac:(done) eq_refl) as (m1 & _ & He & _ & H & _).
  destruct (H 1 _ (run_devintr _ _ _ _ _ _ (handling 0x9000 (run_proc false) m1) (en_scause _ _ _ _ _ _ _ _ He)) ltac:(done) ltac:(done)) as (m3 & E & _ & Hx & Hpc).
  exists m3. split; [exact E|]. split; [exact (Hx X_t3)|exact Hpc].
Defined.


Definition exits (r : uend) : bool := match r with UExit => true | _ => false end.

Definition run_killed : mach unit unit := run_state (run_mach true) (run_trap (fun _ => 0) 8 0 (run_mach true)).

Lemma run_killed_ok : run_trap (fun _ => 0) 8 0 (run_mach true) = Ok UExit run_killed.
Proof. refine (run_state_ok exits UExit _ _ _ _); [by intros []|]. vm_cast_no_check (eq_refl true). Qed.

#[local] Opaque run_killed.


(** An idle hart, on which the timer has interrupted the scheduler. *)
Definition idle_mach : mach unit unit :=
  mkMach (mkHart (fun r => match r with X_sp => 0x7000 | X_tp => 1 | _ => 7 end) (fun c => match c with CSR_sstatus => 2 | _ => 0 end) SMode 0x100)
    (run_kernel false) tt 0 false.

Lemma idle_room : stack_room idle_mach (0x7000 - 256).
Proof.
  split; [reflexivity|]. split; [|vm_compute; split; discriminate]. intros h s perm k Hm Hc _ _ Hk Hl. unfold phys. rewrite Hm, Hc.
  change (h_x (m_hart idle_mach) X_sp - 256) with (0x7000 - 256).
  replace ((0x7000 - 256 + 8 * k) mod 8) with 0 by dlia. reflexivity.
Qed.

Lemma idle_devintr ta tc dc pt rn (m : mach unit unit) :
  h_csr (m_hart m) CSR_scause = 0x8000000000000001 -> h_x (m_hart m) X_tp = 1 ->
  exists m', devintr ta tc dc pt rn None m = Ok 2 m'.
Proof.
  intros H Ht. unfold devintr. rewrite (bind_ok _ _ _ _ _ (hw_ok r_scause m _ _ eq_refl)). rewrite H.
  change (istrue (Z.land 0x8000000000000001 0x8000000000000000) && (Z.land 0x8000000000000001 0xff =? 9)) with false.
  change (0x8000000000000001 =? 0x8000000000000001) with true. cbv iota.
  eexists. erewrite bind_ok; [|unfold cpuid; rewrite (bind_ok _ _ _ _ _ (hw_ok r_tp _ _ _ eq_refl)); cbn [with_hart m_hart]; rewrite Ht; reflexivity].
  reflexivity.
Qed.

Lemma idle_regs : machine_regs (m_hart idle_mach).
Proof. split; [|done]. by intros []. Qed.


(** Hart 0 starts. *)
Definition reset_hart : hart := mkHart (fun _ => 0) (fun _ => 0) MMode 0x1000.

Lemma start_and_timer_witness :
  exists h s, start 0x80000100 0x80000200 0x80009000 (reset_hart, mkKst ∅ 0) = Ok tt (h, s) /\ h_mode h = SMode /\ h_pc h = 0x80000100.
Proof.
  destruct (start_and_timer 0x80000100 0x80000200 0x80009000 ltac:(by vm_compute) reset_hart (mkKst ∅ 0) 0 eq_refl eq_refl ltac:(lia)
    ltac:(left; by vm_compute)) as [(h & s & E & Hm & Hpc & _) _].
  exists h, s. split; [exact E|]. split; [exact Hm|exact Hpc].
Defined.
