(* ===== verification/Kvm.v ===== *)
(** * The kernel's page table (kernel/vm.c, proc.c)

    How the kernel builds the page table it runs on and turns paging on.  The
    addresses of [etext], the end of the kernel's code, and of the trampoline page
    come from the linker. *)

From S2P Require Import Prelude Mem Kalloc Vm Proc Riscv Trap.

Definition UART0 : Z := 0x10000000.
Definition VIRTIO0 : Z := 0x10001000.

(** The variable [kernel_pagetable], with the hart and the memory. *)
Record kvm := mkKvm { kv_hart : hart; kv_mem : kst; kernel_pagetable : Z }.

Section kvm.
Context (etext trampoline : Z).

Definition proc_mapstacks (kpgtbl : Z) : M kst unit :=
  for_each (seq 0 NPROC) (fun i =>
    pa <- kalloc;;
    if pa =? 0 then panic "kalloc"
    else
      let va := KSTACK (Z.of_nat i) in
      kvmmap kpgtbl va pa PGSIZE (Z.lor PTE_R PTE_W)).

Definition kvmmake : M kst Z :=
  kpgtbl <- kalloc;;
  modify (set_mem (fun m => mem_set m kpgtbl 0 PGSIZE));;;
  kvmmap kpgtbl UART0 UART0 PGSIZE (Z.lor PTE_R PTE_W);;;
  kvmmap kpgtbl VIRTIO0 VIRTIO0 PGSIZE (Z.lor PTE_R PTE_W);;;
  kvmmap kpgtbl PLIC PLIC 0x400000 (Z.lor PTE_R PTE_W);;;
  kvmmap kpgtbl KERNBASE KERNBASE (u64 (etext - KERNBASE)) (Z.lor PTE_R PTE_X);;;
  kvmmap kpgtbl etext etext (u64 (PHYSTOP - etext)) (Z.lor PTE_R PTE_W);;;
  kvmmap kpgtbl TRAMPOLINE trampoline PGSIZE (Z.lor PTE_R PTE_X);;;
  proc_mapstacks kpgtbl;;;
  ret kpgtbl.

Definition kv_on_hart {A} (m : M hart A) : M kvm A := zoom kv_hart (fun h s => mkKvm h (kv_mem s) (kernel_pagetable s)) m.

Definition kvminit : M kvm unit :=
  pt <- zoom kv_mem (fun k s => mkKvm (kv_hart s) k (kernel_pagetable s)) kvmmake;;
  modify (fun s => mkKvm (kv_hart s) (kv_mem s) pt).

Definition kvminithart : M kvm unit :=
  kv_on_hart sfence_vma;;;
  pt <- gets kernel_pagetable;;
  kv_on_hart (w_satp (MAKE_SATP pt));;;
  kv_on_hart sfence_vma.
End kvm.
