(* ===== verification/KvmSpec.v ===== *)
(** * The address space of the kernel

    The page table that [kvmmake] builds is described by a list of regions, the
    latest mapping first, and compared with what the hart makes of it. *)

From S2P Require Import Prelude Mem Kalloc Vm VmMap Uvm Proc Riscv RiscvSpec Trap Kvm.

(** ** Regions *)

(** [g_n] pages from [g_va], mapped to those from [g_pa]. *)
Record region := mkRegion { g_va : Z; g_n : Z; g_pa : Z; g_perm : Z }.

Definition RW : Z := Z.lor PTE_R PTE_W.
Definition RX : Z := Z.lor PTE_R PTE_X.

Definition g_end (g : region) : Z := g_va g + g_n g * PGSIZE.
Definition in_region (va : Z) (g : region) : Prop := g_va g <= va < g_end g.

Fixpoint translate (rs : list region) (va : Z) : option (Z * Z) :=
  match rs with
  | [] => None
  | g :: rs => if decide (in_region va g) then Some (g_pa g + (va - g_va g), g_perm g) else translate rs va
  end.

(** The kernel stacks, the latest first. *)
Fixpoint stack_regions (stacks : list Z) : list region :=
  match stacks with
  | [] => []
  | pa :: stacks => mkRegion (KSTACK (Z.of_nat (length stacks))) 1 pa RW :: stack_regions stacks
  end.

Definition fixed_regions (etext trampoline : Z) : list region :=
  [mkRegion TRAMPOLINE 1 trampoline RX;
   mkRegion etext ((PHYSTOP - etext) / PGSIZE) etext RW;
   mkRegion KERNBASE ((etext - KERNBASE) / PGSIZE) KERNBASE RX;
   mkRegion PLIC 1024 PLIC RW;
   mkRegion VIRTIO0 1 VIRTIO0 RW;
   mkRegion UART0 1 UART0 RW].

Definition kernel_regions (etext trampoline : Z) (stacks : list Z) : list region :=
  stack_regions stacks ++ fixed_regions etext trampoline.

(** The page-table pages the kernel needs. *)
Definition kernel_roles : list role :=
  [Root; L1 0; L1 2; L1 255; L0 0 96; L0 0 97; L0 0 128; L0 255 511] ++ (L0 2 <$> seqZ 0 64).

Record good_region (g : region) : Prop := {
  gg_n : 0 < g_n g;
  gg_va : g_va g mod PGSIZE = 0; gg_lo : 0 <= g_va g; gg_hi : g_end g <= MAXVA;
  gg_pa : g_pa g mod PGSIZE = 0; gg_pa_lo : 0 <= g_pa g; gg_pa_hi : g_pa g + g_n g * PGSIZE <= 2 ^ 56;
  gg_perm : g_perm g = RW \/ g_perm g = RX;
  gg_roles : forall va, in_region va g -> L1 (PX 2 va) ∈ kernel_roles /\ L0 (PX 2 va) (PX 1 va) ∈ kernel_roles
}.

Definition apart (g g' : region) : Prop := g_end g <= g_va g' \/ g_end g' <= g_va g.

Lemma translate_none rs va : Forall (fun g => ~ in_region va g) rs -> translate rs va = None.
Proof. induction 1 as [|g rs Hg _ IH]; [done|]. cbn [translate]. by rewrite decide_False. Qed.

Lemma translate_app rs rs' va : Forall (fun g => ~ in_region va g) rs -> translate (rs ++ rs') va = translate rs' va.
Proof. induction 1 as [|g rs Hg _ IH]; [done|]. cbn [translate app]. by rewrite decide_False. Qed.

Lemma translate_some rs va pa f :
  Forall good_region rs -> translate rs va = Some (pa, f) ->
  0 <= pa < 2 ^ 56 /\ pa mod PGSIZE = va mod PGSIZE /\ (f = RW \/ f = RX).
Proof.
  induction 1 as [|g rs Hg _ IH]; [done|]. cbn [translate]. case_decide as Hd; [|exact IH].
  intros [= <- <-]. destruct Hg as [Hn Hva Hlo Hhi Hpa Hp0 Hp1 Hf _]. unfold in_region, g_end in Hd. unfold PGSIZE in *.
  split_and!; [lia|lia|dlia|done].
Qed.

(** The entry of an address. *)
Definition look (rs : list region) (va : Z) : Z :=
  match translate rs va with Some (pa, f) => mkpte pa (Z.lor f PTE_V) | None => 0 end.

Lemma perm_range f : f = RW \/ f = RX -> 0 <= f < 1024.
Proof. intros [-> | ->]; done. Qed.

(** ** The kernel's regions *)

Lemma px_of va i : 0 <= i < 512 -> i * 2 ^ 30 <= va < (i + 1) * 2 ^ 30 -> PX 2 va = i /\ PX 1 va = (va - i * 2 ^ 30) / 2 ^ 21.
Proof. intros Hi Hva. rewrite !PX_eq by lia. change (12 + 9 * 2) with 30. change (12 + 9 * 1) with 21. split; dlia. Qed.

(** The tables of an address are in the list if those of its gigabyte and of its two
    megabytes are. *)
Lemma roles_of va i lo hi :
  0 <= i < 512 -> i * 2 ^ 30 + lo * 2 ^ 21 <= va < i * 2 ^ 30 + (hi + 1) * 2 ^ 21 -> 0 <= lo -> hi < 512 ->
  L1 i ∈ kernel_roles -> (forall j, lo <= j <= hi -> L0 i j ∈ kernel_roles) ->
  L1 (PX 2 va) ∈ kernel_roles /\ L0 (PX 2 va) (PX 1 va) ∈ kernel_roles.
Proof. intros Hi Hva Hlo Hhi H1 H0. destruct (px_of va i) as [-> ->]; [done|lia|]. split; [done|]. apply H0. dlia. Qed.

Lemma gigabyte_roles i : i ∈ [0; 2; 255] -> L1 i ∈ kernel_roles.
Proof. set_solver. Qed.
Lemma ram_roles j : 0 <= j <= 63 -> L0 2 j ∈ kernel_roles.
Proof. intros Hj. apply elem_of_app. right. apply list_elem_of_fmap. exists j. split; [done|]. apply elem_of_seqZ. lia. Qed.
Lemma plic_roles j : 96 <= j <= 97 -> L0 0 j ∈ kernel_roles.
Proof. intros Hj. assert (j = 96 \/ j = 97) as [-> | ->] by lia; set_solver. Qed.
Lemma device_roles j : 128 <= j <= 128 -> L0 0 j ∈ kernel_roles.
Proof. intros Hj. replace j with 128 by lia. set_solver. Qed.
Lemma top_roles j : 511 <= j <= 511 -> L0 255 j ∈ kernel_roles.
Proof. intros Hj. replace j with 511 by lia. set_solver. Qed.

Ltac open_region := unfold in_region, g_end in *; cbn [g_va g_n g_pa g_perm] in *;
  unfold KSTACK, TRAMPOLINE, MAXVA, PHYSTOP, KERNBASE, PGSIZE, PLIC, UART0, VIRTIO0 in *.

(** A region inside gigabyte [i], with tables in the list. *)
Lemma region_good va n pa f i lo hi :
  0 < n -> va mod PGSIZE = 0 -> pa mod PGSIZE = 0 -> 0 <= pa -> pa + n * PGSIZE <= 2 ^ 56 -> f = RW \/ f = RX ->
  0 <= i < 256 -> i * 2 ^ 30 + lo * 2 ^ 21 <= va -> va + n * PGSIZE <= i * 2 ^ 30 + (hi + 1) * 2 ^ 21 -> 0 <= lo -> hi < 512 ->
  L1 i ∈ kernel_roles -> (forall j, lo <= j <= hi -> L0 i j ∈ kernel_roles) -> good_region (mkRegion va n pa f).
Proof.
  intros Hn Hva Hpa Hp0 Hp1 Hf Hi H1 H2 Hlo Hhi R1 R0.
  split; unfold in_region, g_end; cbn [g_va g_n g_pa g_perm]; try done; unfold MAXVA; try lia.
  intros x Hx. apply (roles_of x i lo hi); try done; lia.
Qed.

Ltac good i lo hi roles := apply (region_good _ _ _ _ i lo hi);
  [..|apply gigabyte_roles; set_solver|exact roles]; try done; try (by left); try (by right); open_region; first [lia|dlia].

Lemma stack_good i pa : 0 <= i < 64 -> pa mod PGSIZE = 0 -> 0 <= pa < PHYSTOP -> good_region (mkRegion (KSTACK i) 1 pa RW).
Proof. intros Hi Ha Hp. good 255 511 511 top_roles. Qed.

Lemma stack_apart i pa ps : Z.of_nat (length ps) <= i -> Forall (apart (mkRegion (KSTACK i) 1 pa RW)) (stack_regions ps).
Proof.
  induction ps as [|q ps IH]; cbn [stack_regions length]; intros Hi; [by apply Forall_nil_2|].
  apply Forall_cons. split; [|apply IH; lia]. unfold apart. open_region. lia.
Qed.

Lemma stack_translate stacks rs i pa :
  reverse stacks !! i = Some pa -> translate (stack_regions stacks ++ rs) (KSTACK (Z.of_nat i)) = Some (pa, RW).
Proof.
  induction stacks as [|q ps IH]; [done|]. rewrite reverse_cons, lookup_app_Some. cbn [stack_regions app translate].
  intros [Hi|[Hl Hi]].
  - pose proof (lookup_lt_Some _ _ _ Hi) as Hlt. rewrite length_reverse in Hlt. rewrite decide_False; [by apply IH|]. open_region. lia.
  - rewrite length_reverse in *. apply list_lookup_singleton_Some in Hi as [Hz ->].
    replace i with (length ps) by lia. rewrite decide_True by (open_region; lia). do 2 f_equal. cbn [g_pa g_va]. lia.
Qed.

Lemma guard_stacks stacks i va :
  0 <= i -> KSTACK i - PGSIZE <= va < KSTACK i -> Forall (fun g => ~ in_region va g) (stack_regions stacks).
Proof.
  intros Hi Hva. induction stacks as [|q ps IH]; cbn [stack_regions]; [by apply Forall_nil_2|]. apply Forall_cons_2; [|done]. open_region. lia.
Qed.

Section fixed.
Context (etext trampoline : Z).
Context (etext_ok : etext mod PGSIZE = 0 /\ KERNBASE < etext < PHYSTOP) (trampoline_ok : trampoline mod PGSIZE = 0 /\ KERNBASE <= trampoline < PHYSTOP).

Lemma fixed_good : Forall good_region (fixed_regions etext trampoline).
Proof.
  destruct etext_ok as [He1 He2], trampoline_ok as [Ht1 Ht2]. unfold fixed_regions. repeat apply Forall_cons_2; [..|apply Forall_nil_2].
  - good 255 511 511 top_roles.
  - good 2 0 63 ram_roles.
  - good 2 0 63 ram_roles.
  - good 0 96 97 plic_roles.
  - good 0 128 128 device_roles.
  - good 0 128 128 device_roles.
Qed.

Lemma fixed_pairs : ForallOrdPairs apart (fixed_regions etext trampoline).
Proof.
  destruct etext_ok as [He1 He2], trampoline_ok as [Ht1 Ht2]. unfold fixed_regions.
  repeat apply FOP_cons; [..|apply FOP_nil]; repeat apply List.Forall_cons; try apply List.Forall_nil;
    unfold apart; open_region; first [lia|dlia].
Qed.

Lemma text_size : u64 (etext - KERNBASE) = (etext - KERNBASE) / PGSIZE * PGSIZE.
Proof. clear trampoline_ok. destruct etext_ok. open_region. rewrite u64_small; dlia. Qed.
Lemma data_size : u64 (PHYSTOP - etext) = (PHYSTOP - etext) / PGSIZE * PGSIZE.
Proof. clear trampoline_ok. destruct etext_ok. open_region. rewrite u64_small; dlia. Qed.

Lemma guard_unmapped stacks i va :
  0 <= i < 64 -> KSTACK i - PGSIZE <= va < KSTACK i -> translate (kernel_regions etext trampoline stacks) va = None.
Proof.
  intros Hi Hva. apply translate_none, Forall_app. split; [by apply (guard_stacks _ i); [lia|]|].
  destruct etext_ok as [He1 He2], trampoline_ok as [Ht1 Ht2]. unfold fixed_regions.
  repeat apply Forall_cons_2; try apply Forall_nil_2; open_region; first [lia|dlia].
Qed.

Lemma stacks_high stacks va : (length stacks <= 64)%nat -> va < PHYSTOP -> Forall (fun g => ~ in_region va g) (stack_regions stacks).
Proof.
  intros Hl Hva. induction stacks as [|q ps IH]; cbn [stack_regions length] in *; [by apply Forall_nil_2|].
  apply Forall_cons_2; [|apply IH; lia]. open_region. lia.
Qed.

Lemma ram_translate stacks va :
  (length stacks <= 64)%nat -> KERNBASE <= va < PHYSTOP ->
  translate (kernel_regions etext trampoline stacks) va = Some (va, if va <? etext then RX else RW).
Proof.
  intros Hl Hva. unfold kernel_regions. rewrite translate_app by (apply stacks_high; [done|lia]).
  destruct etext_ok as [He1 He2], trampoline_ok as [Ht1 Ht2]. unfold fixed_regions. cbn [translate].
  destruct (Z.ltb_spec va etext) as [Hv|Hv].
  - rewrite decide_False by (open_region; lia). rewrite decide_False by (open_region; lia). rewrite decide_True by (open_region; dlia).
    do 2 f_equal. cbn [g_pa g_va]. lia.
  - rewrite decide_False by (open_region; lia). rewrite decide_True by (open_region; dlia). do 2 f_equal. cbn [g_pa g_va]. lia.
Qed.

Lemma fixed_apart i pa : 0 <= i < 64 -> Forall (apart (mkRegion (KSTACK i) 1 pa RW)) (fixed_regions etext trampoline).
Proof.
  destruct etext_ok as [He1 He2], trampoline_ok as [Ht1 Ht2]. intros Hi. unfold fixed_regions, apart.
  repeat apply Forall_cons_2; [..|apply Forall_nil_2]; open_region; first [lia|dlia].
Qed.

End fixed.

(** ** Building the table *)

Section build.
Context (kend : Z) (kend_pos : 0 < kend) (s0 : kst) (l0 : list Z) (free0 : krep kend s0 l0).

(** Part of the table has been built in [s]: the pages of the free list [l0] that
    are not in [l] any more are tables or the stacks [ps]. *)
Record built (s : kst) (t : ptree) (l ps : list Z) (rs : list region) : Prop := {
  bu_inv : vm_inv kend s t l;
  bu_pte : forall va, 0 <= va < MAXVA -> pte_of (kmem s) t va = look rs va;
  bu_roles : forall r, is_Some (tbl t r) -> r ∈ kernel_roles;
  bu_pages : forall b, b ∈ l0 <-> b ∈ ps \/ covers t l b;
  bu_nodup : NoDup ps;
  bu_stacks : forall b, b ∈ ps -> ~ covers t l b;
  bu_good : Forall good_region rs;
  bu_frame : forall b x, b ∉ l0 -> b mod PGSIZE = 0 -> b <= x < b + PGSIZE -> mget (kmem s) x = mget (kmem s0) x
}.

Lemma pages_count t l ps :
  (forall r, is_Some (tbl t r) -> r ∈ kernel_roles) -> (forall b, b ∈ l0 -> b ∈ ps \/ covers t l b) ->
  (length l0 <= length l + length ps + length kernel_roles)%nat.
Proof.
  intros Hr Hp. destruct free0 as (_ & Hnd & _).
  replace (length l + length ps + length kernel_roles)%nat with (length (l ++ ps ++ ((fun r => default 0 (tbl t r)) <$> kernel_roles)))
    by (rewrite !length_app, length_fmap; lia).
  apply submseteq_length, NoDup_submseteq; [done|]. intros b [Hb|[Hb|[r Hb]]]%Hp; rewrite !elem_of_app.
  - tauto.
  - tauto.
  - right. right. apply list_elem_of_fmap. exists r. rewrite Hb. split; [done|]. apply Hr. by exists b.
Qed.

Lemma kvmmap_ok s t l ps rs g :
  built s t l ps rs -> good_region g -> Forall (apart g) rs -> (length ps + length kernel_roles < length l0)%nat ->
  exists s' t' l', kvmmap (pt_root t) (g_va g) (g_pa g) (g_n g * PGSIZE) (g_perm g) s = Ok tt s' /\
    pt_root t' = pt_root t /\ built s' t' l' ps (g :: rs).
Proof.
  intros Hb Hg Ha Hl. pose proof Hg as [Hn Hva Hlo Hhi Hpa Hp0 Hp1 Hf Hro]. unfold g_end in Hhi.
  assert (PGSIZE = 4096) as HP by done. assert (PGROUNDDOWN (g_va g) = g_va g) as Ea.
  { rewrite PGROUNDDOWN_eq by (unfold MAXVA in *; rewrite HP in *; lia). rewrite HP in *. dlia. }
  assert ((g_va g + g_n g * PGSIZE - 1) / PGSIZE - g_va g / PGSIZE + 1 = g_n g) as En by (rewrite HP in *; dlia).
  destruct (mappages_spec_adds kend kend_pos s t l (g_va g) (g_n g * PGSIZE) (g_pa g) (g_perm g)) as
    (r & s' & t' & l' & k & E & Ev & M & Ad & Hr);
    [apply Hb|done|rewrite HP; lia|done|by apply perm_range|done|rewrite En; rewrite HP in *; lia| |].
  { rewrite En, Ea. intros x Hx. rewrite (bu_pte _ _ _ _ _ Hb) by (rewrite HP in *; lia).
    unfold look. rewrite translate_none; [done|]. eapply Forall_impl; [exact Ha|].
    intros g' [Hd|Hd] Hin; unfold in_region, g_end in *; lia. }
  rewrite En, Ea in *. pose proof Ev as [I R C F Mo _].
  assert (forall r, is_Some (tbl t' r) -> r ∈ kernel_roles) as Hroles.
  { intros r' [H|(va & Hva' & [-> | ->])]%Ad; [by apply (bu_roles _ _ _ _ _ Hb)|apply (Hro va Hva')..]. }
  assert (forall b, b ∈ l0 <-> b ∈ ps \/ covers t' l' b) as Hpages by (intros b; by rewrite C; apply (bu_pages _ _ _ _ _ Hb)).
  destruct Hr as [[-> ->]|(-> & _ & ->)].
  2:{ pose proof (pages_count t' [] ps Hroles (fun b => proj1 (Hpages b))) as Hc. cbn [length] in Hc. lia. }
  exists s', t', l'. split; [unfold kvmmap; by run E|]. split; [done|]. destruct Hb as [_ Hpte _ Hpg Hnd Hst Hgd Hfr]. split; try done.
  - intros va Hv. rewrite M, Hpte by done. unfold look at 2. cbn [translate]. unfold in_region, g_end.
    repeat case_decide; try lia; [|done]. unfold mkpte. rewrite HP in *. f_equal. f_equal. dlia.
  - intros b Hin Hc. apply C in Hc. by apply (Hst b).
  - by apply Forall_cons.
  - intros b x Hnb Hal Hx. rewrite (F b x); [by apply (Hfr b)| |done|done]. intros Hc. apply Hnb, Hpg. by right.
Qed.

Lemma built_root p l : l0 = p :: l ->
  exists s1, kalloc s0 = Ok p s1 /\ built (set_mem (fun m => mem_set m p 0 PGSIZE) s1) (empty_tree p) l [] [].
Proof.
  intros El. pose proof free0 as Hk. rewrite El in Hk. destruct (uvmcreate_spec kend kend_pos s0 p l Hk) as (s' & E & Hu & Hs).
  destruct (kalloc_cons kend s0 p l Hk) as (s1 & Ek & _). exists s1. split; [done|].
  pose proof Hk as (_ & _ & Hkp). apply Forall_cons in Hkp as [Hp _]. pose proof (kpage_range kend kend_pos _ Hp) as (? & ? & Hal).
  revert E. unfold uvmcreate. run Ek. rewrite (proj2 (Z.eqb_neq _ _)) by lia. unfold bind, modify, ret. intros [= <-].
  set (s2 := set_mem _ s1) in *.
  assert (forall r q, tbl (empty_tree p) r = Some q -> r = Root /\ q = p) as Ht.
  { intros [|i|i j] q; cbn [tbl empty_tree pt_root pt_l1 pt_l0]; [by intros [= <-]|rewrite lookup_empty; done..]. }
  split.
  - apply Hu.
  - intros va _. unfold pte_of, tbl, empty_tree. cbn [pt_l0]. by rewrite lookup_empty.
  - intros r [q [-> _]%Ht]. apply list_elem_of_here.
  - intros b. rewrite El, elem_of_cons. unfold covers. split; [intros [->|?]|intros [[]%not_elem_of_nil|[?|[r [_ ->]%Ht]]]]; try tauto.
    right. right. by exists Root.
  - apply NoDup_nil_2.
  - by intros b []%not_elem_of_nil.
  - apply Forall_nil_2.
  - intros b x Hb Hba Hx. apply Hs. destruct (kpage_disjoint p b) as [?|?]; try done; [|unfold PGSIZE in *; lia..].
    intros ->. apply Hb. rewrite El. apply list_elem_of_here.
Qed.

(** A page taken for a stack. *)
Lemma built_stack s t pa l ps rs :
  built s t (pa :: l) ps rs -> exists s1, kalloc s = Ok pa s1 /\ built s1 t l (pa :: ps) rs /\ kpage kend pa.
Proof.
  intros [I Hpte Hro Hpg Hnd Hst Hgd Hfr]. destruct (vm_kalloc kend kend_pos s t pa l I) as (s1 & E & I1 & Hs & Hp & Hn & Ht).
  exists s1. split; [done|]. split; [|done]. assert (pa mod PGSIZE = 0) as Hal by apply Hp.
  assert (forall b, covers t (pa :: l) b <-> b = pa \/ covers t l b) as Hc.
  { intros b. unfold covers. rewrite elem_of_cons. tauto. }
  split; try done.
  - intros va Hva. rewrite <- Hpte by done. apply pte_of_ext; [done|]. intros q Hq.
    apply (load_same_outside pa); [done|done|by eapply (vi_aligned kend s t)|intros <-; by eapply Ht|by apply PX_range].
  - intros b. rewrite Hpg, Hc, elem_of_cons. tauto.
  - apply NoDup_cons. split; [|done]. intros Hin. apply (Hst pa Hin). apply Hc. by left.
  - intros b [->|Hin]%elem_of_cons.
    + intros [?|[r Hr]]; [done|by eapply Ht].
    + intros Hcv. apply (Hst b Hin), Hc. by right.
  - intros b x Hb Hba Hx. rewrite <- (Hfr b x) by done. apply Hs.
    destruct (kpage_disjoint pa b) as [?|?]; try done; [|unfold PGSIZE in *; lia..].
    intros ->. apply Hb, Hpg. right. left. apply list_elem_of_here.
Qed.

(** What the hart makes of the table. *)
Lemma phys_built s t l ps rs va h perm :
  built s t l ps rs -> h_mode h = SMode -> h_csr h CSR_satp = MAKE_SATP (pt_root t) -> 0 <= va < MAXVA -> va mod 8 = 0 ->
  0 <= perm < 1024 ->
  phys perm va h s = (p ← translate rs va; if istrue (Z.land (Z.lor p.2 PTE_V) perm) then Some p.1 else None).
Proof.
  intros [Hv Hpte _ _ _ _ Hgd _] Hm Hc Hva H8 Hperm.
  destruct (vi_pages _ _ _ _ Hv Root _ eq_refl) as [Hroot _]. apply (kpage_range kend kend_pos) in Hroot as (Hr0 & Hr1 & Hr2).
  destruct (MAKE_SATP_table (pt_root t)) as [Hst Hs0]; [done|unfold PGSIZE in *; lia|].
  unfold phys. rewrite Hm, Hc, H8. rewrite bool_decide_eq_false_2 by done. rewrite (proj2 (Z.eqb_neq _ _) Hs0). cbn [negb Z.eqb orb].
  rewrite Hst. cbn [mbind option_bind]. rewrite (walk_lookup kend kend_pos s t l va Hv Hva).
  specialize (Hpte va Hva). unfold pte_of in Hpte. unfold look in Hpte.
  destruct (tbl t (L0 (PX 2 va) (PX 1 va))) as [q|] eqn:Eq.
  - destruct (vi_pages _ _ _ _ Hv _ _ Eq) as [Hkp _]. apply (kpage_range kend kend_pos) in Hkp as (Hq & _ & _).
    pose proof (PX_range 0 va ltac:(lia)). rewrite (proj2 (Z.eqb_neq _ _)) by lia. rewrite Hpte. cbn [orb].
    destruct (translate rs va) as [[pa f]|] eqn:Et; [|done].
    destruct (translate_some rs va pa f Hgd Et) as (Hpa & Hmod & Hf).
    assert (0 <= Z.lor f PTE_V < 1024) as Hfr by (destruct Hf as [-> | ->]; done).
    rewrite !land_mkpte by (done || unfold PTE_V, PTE_U; lia).
    assert (istrue (Z.land (Z.lor f PTE_V) PTE_V) = true /\ istrue (Z.land (Z.lor f PTE_V) PTE_U) = false) as [-> ->]
      by (destruct Hf as [-> | ->]; done).
    rewrite bool_decide_eq_false_2 by done. cbn [negb orb Bool.eqb mbind option_bind fst snd]. rewrite orb_false_r.
    destruct (istrue (Z.land (Z.lor f PTE_V) perm)); [|done]. cbn [negb].
    replace (mkpte pa (Z.lor f PTE_V)) with (mkpte (pa / PGSIZE * PGSIZE) (Z.lor f PTE_V)) by (unfold mkpte, PGSIZE; f_equal; f_equal; dlia).
    rewrite PTE2PA_mkpte; [|unfold PGSIZE; dlia|unfold PGSIZE; dlia|done]. f_equal. unfold PGSIZE in *. dlia.
  - rewrite Z.eqb_refl. cbn [orb]. destruct (translate rs va) as [[pa f]|] eqn:Et; [|done].
    destruct (translate_some rs va pa f Hgd Et) as (_ & _ & Hf). exfalso.
    assert (Z.land (mkpte pa (Z.lor f PTE_V)) PTE_V <> 0) as Hne.
    { rewrite land_mkpte by (destruct Hf as [-> | ->]; done). by destruct Hf as [-> | ->]. }
    rewrite <- Hpte in Hne. done.
Qed.

Section make.
Context (etext trampoline : Z).
Context (etext_ok : etext mod PGSIZE = 0 /\ KERNBASE < etext < PHYSTOP) (trampoline_ok : trampoline mod PGSIZE = 0 /\ KERNBASE <= trampoline < PHYSTOP).
Context (enough : (137 <= length l0)%nat).

Definition stacked (root : Z) (k : nat) (s : kst) : Prop :=
  exists t l ps, pt_root t = root /\ length ps = k /\ built s t l ps (kernel_regions etext trampoline ps).

Lemma roles_72 : length kernel_roles = 72%nat.
Proof. reflexivity. Qed.

Lemma proc_mapstacks_ok root s : stacked root 0 s -> exists s', proc_mapstacks root s = Ok tt s' /\ stacked root 64 s'.
Proof.
  apply for_each_ok. clear s. intros k s Hk (t & l & ps & <- & Hl & Hb).
  pose proof (pages_count t l ps (bu_roles _ _ _ _ _ Hb) (fun b => proj1 (bu_pages _ _ _ _ _ Hb b))) as Hc. rewrite roles_72 in Hc.
  unfold NPROC in Hk. destruct l as [|pa l]; [cbn [length] in Hc; lia|].
  destruct (built_stack s t pa l ps _ Hb) as (s1 & E1 & Hb1 & Hp).
  destruct (kpage_range kend kend_pos pa Hp) as (Hp0 & _ & Hal).
  destruct (kvmmap_ok s1 t l (pa :: ps) _ (mkRegion (KSTACK (Z.of_nat k)) 1 pa RW) Hb1) as (s2 & t2 & l2 & E2 & R2 & Hb2).
  - apply stack_good; [lia|done|]. destruct Hp as [_ ?]. lia.
  - apply Forall_app. split; [apply stack_apart; lia|apply fixed_apart; try done; lia].
  - rewrite roles_72. cbn [length]. lia.
  - exists s2. split; [run E1; rewrite (proj2 (Z.eqb_neq _ _)) by lia; exact E2|].
    exists t2, l2, (pa :: ps). split; [done|]. split; [cbn [length]; lia|].
    unfold kernel_regions in *. cbn [stack_regions app]. by rewrite Hl.
Qed.

(** One of the fixed mappings. *)
Lemma kvmmap_fixed root s t l g rs sz :
  pt_root t = root -> built s t l [] rs -> good_region g -> Forall (apart g) rs -> sz = g_n g * PGSIZE ->
  exists s' t' l', kvmmap root (g_va g) (g_pa g) sz (g_perm g) s = Ok tt s' /\ pt_root t' = root /\ built s' t' l' [] (g :: rs).
Proof. intros <- Hb Hg Ha ->. apply (kvmmap_ok s t l [] rs g Hb Hg Ha). rewrite roles_72. cbn [length]. lia. Qed.

Lemma kvmmake_ok : exists root s', kvmmake etext trampoline s0 = Ok root s' /\ stacked root 64 s'.
Proof.
  assert (exists root l, l0 = root :: l) as (root & l & El) by (destruct l0 as [|r l]; [cbn in enough; lia|by exists r, l]).
  destruct (built_root root l El) as (s1 & E1 & Hb1).
  pose proof (fixed_good etext trampoline etext_ok trampoline_ok) as Hg. pose proof (fixed_pairs etext trampoline etext_ok trampoline_ok) as Hp.
  unfold fixed_regions in Hg, Hp.
  apply Forall_cons in Hg as [G6 Hg]. apply Forall_cons in Hg as [G5 Hg]. apply Forall_cons in Hg as [G4 Hg].
  apply Forall_cons in Hg as [G3 Hg]. apply Forall_cons in Hg as [G2 Hg]. apply Forall_cons in Hg as [G1 _].
  inversion_clear Hp as [|? ? A6 Hp']. inversion_clear Hp' as [|? ? A5 Hp]. inversion_clear Hp as [|? ? A4 Hp'].
  inversion_clear Hp' as [|? ? A3 Hp]. inversion_clear Hp as [|? ? A2 Hp']. inversion_clear Hp' as [|? ? A1 _].
  destruct (kvmmap_fixed root _ (empty_tree root) _ _ _ PGSIZE eq_refl Hb1 G1 A1 eq_refl) as (s2 & t2 & l2 & E2 & R2 & Hb2).
  destruct (kvmmap_fixed root _ _ _ _ _ PGSIZE R2 Hb2 G2 A2 eq_refl) as (s3 & t3 & l3 & E3 & R3 & Hb3).
  destruct (kvmmap_fixed root _ _ _ _ _ 0x400000 R3 Hb3 G3 A3 eq_refl) as (s4 & t4 & l4 & E4 & R4 & Hb4).
  destruct (kvmmap_fixed root _ _ _ _ _ (u64 (etext - KERNBASE)) R4 Hb4 G4 A4 (text_size etext etext_ok)) as (s5 & t5 & l5 & E5 & R5 & Hb5).
  destruct (kvmmap_fixed root _ _ _ _ _ (u64 (PHYSTOP - etext)) R5 Hb5 G5 A5 (data_size etext etext_ok)) as (s6 & t6 & l6 & E6 & R6 & Hb6).
  destruct (kvmmap_fixed root _ _ _ _ _ PGSIZE R6 Hb6 G6 A6 eq_refl) as (s7 & t7 & l7 & E7 & R7 & Hb7).
  destruct (proc_mapstacks_ok root s7) as (s8 & E8 & H8); [exists t7, l7, []; split; [exact R7|]; split; [exact eq_refl|exact Hb7]|].
  exists root, s8. split; [|exact H8]. cbn [g_va g_pa g_perm] in *. unfold kvmmake. run E1. run1.
  run E2. run E3. run E4. run E5. run E6. run E7. by run E8.
Qed.
End make.
End build.
