(* ===== verification/KvmClaims.v ===== *)
(** * The kernel runs in the address space it means to

    What [kvminit] and [kvminithart] leave behind, seen through the hart. *)

From S2P Require Import Prelude Mem Kalloc Vm VmMap Uvm Proc Riscv RiscvSpec Trap Kvm KvmSpec.

Section claims.
Context (kend : Z) (kend_pos : 0 < kend) (etext trampoline : Z).
Context (etext_ok : etext mod PGSIZE = 0 /\ KERNBASE < etext < PHYSTOP).
Context (trampoline_ok : trampoline mod PGSIZE = 0 /\ KERNBASE <= trampoline < PHYSTOP).

Lemma kvm_boot s0 l0 h pt0 :
  krep kend s0 l0 -> (137 <= length l0)%nat ->
  exists pt s' t l stacks,
    (kvminit etext trampoline;;; kvminithart) (mkKvm h s0 pt0) = Ok tt (mkKvm (set_csr CSR_satp (MAKE_SATP pt) h) s' pt) /\
    pt_root t = pt /\ length stacks = 64%nat /\ built kend s0 l0 s' t l stacks (kernel_regions etext trampoline stacks).
Proof.
  intros Hk Hl. destruct (kvmmake_ok kend kend_pos s0 l0 Hk etext trampoline etext_ok trampoline_ok Hl) as (pt & s' & E & t & l & ps & R & Hn & Hb).
  exists pt, s', t, l, ps. split; [|by split_and!].
  assert (kvminit etext trampoline (mkKvm h s0 pt0) = Ok tt (mkKvm h s' pt)) as Ei by (unfold kvminit, bind, zoom; cbn [kv_mem]; by rewrite E).
  by run Ei.
Qed.

Lemma phys_unaligned perm va h s : va mod 8 <> 0 -> phys perm va h s = None.
Proof. intros H. unfold phys. by rewrite (proj2 (Z.eqb_neq _ _) H). Qed.

Section built.
Context (s0 s : kst) (l0 l stacks : list Z) (t : ptree) (h : hart).
Context (Hb : built kend s0 l0 s t l stacks (kernel_regions etext trampoline stacks)) (Hn : length stacks = 64%nat).
Context (Hm : h_mode h = SMode) (Hc : h_csr h CSR_satp = MAKE_SATP (pt_root t)).

Lemma kernel_phys va perm :
  0 <= va < MAXVA -> va mod 8 = 0 -> perm = PTE_R \/ perm = PTE_W \/ perm = PTE_X ->
  phys perm va h s = (p ← translate (kernel_regions etext trampoline stacks) va; if istrue (Z.land p.2 perm) then Some p.1 else None).
Proof.
  intros Hva H8 Hp. assert (0 <= perm < 1024) as Hpr by (destruct Hp as [->|[-> | ->]]; done).
  rewrite (phys_built kend kend_pos s0 l0 s t l stacks _ va h perm Hb Hm Hc Hva H8 Hpr).
  destruct (translate _ va) as [[pa f]|]; [|done]. cbn [mbind option_bind fst snd].
  rewrite Z.land_lor_distr_l. destruct Hp as [->|[-> | ->]]; by rewrite Z.lor_0_r.
Qed.

Lemma kernel_ram va :
  KERNBASE <= va < PHYSTOP -> va mod 8 = 0 ->
  phys PTE_R va h s = Some va /\ phys (if va <? etext then PTE_X else PTE_W) va h s = Some va.
Proof.
  intros Hva H8. assert (0 <= va < MAXVA) by (open_region; lia).
  rewrite !kernel_phys; [|done|done|destruct (va <? etext); tauto|done|done|tauto].
  rewrite (ram_translate etext trampoline etext_ok trampoline_ok) by (done || lia). cbn [mbind option_bind fst snd]. by destruct (va <? etext).
Qed.

Lemma kernel_wx va : 0 <= va < MAXVA -> phys PTE_W va h s = None \/ phys PTE_X va h s = None.
Proof.
  intros Hva. destruct (decide (va mod 8 = 0)) as [H8|H8]; [|left; by apply phys_unaligned].
  rewrite !kernel_phys by tauto. destruct (translate _ va) as [[pa f]|] eqn:Et; [|by left]. cbn [mbind option_bind fst snd].
  destruct (translate_some _ va pa f (bu_good _ _ _ _ _ _ _ _ Hb) Et) as (_ & _ & [-> | ->]); [by right|by left].
Qed.

Lemma kernel_guards i va perm :
  0 <= i < 64 -> KSTACK i - PGSIZE <= va < KSTACK i -> perm = PTE_R \/ perm = PTE_W \/ perm = PTE_X -> phys perm va h s = None.
Proof.
  intros Hi Hva Hp. destruct (decide (va mod 8 = 0)) as [H8|H8]; [|by apply phys_unaligned].
  rewrite kernel_phys; [|open_region; lia|done|done]. by rewrite (guard_unmapped etext trampoline etext_ok trampoline_ok stacks i).
Qed.

Lemma kernel_stack i pa :
  reverse stacks !! i = Some pa -> pa ∈ l0 /\ pa ∉ l /\ maps (MAKE_SATP (pt_root t)) (kmem s) (KSTACK (Z.of_nat i)) pa PGSIZE.
Proof.
  intros Hi. assert (pa ∈ stacks) as Hin by (apply elem_of_reverse; by eapply list_elem_of_lookup_2).
  assert (pa ∈ l0) as H0 by (apply (bu_pages _ _ _ _ _ _ _ _ Hb); by left).
  pose proof (bu_stacks _ _ _ _ _ _ _ _ Hb pa Hin) as Hcv. split; [done|]. split; [intros ?; apply Hcv; by left|].
  pose proof (lookup_lt_Some _ _ _ Hi) as Hlt. rewrite length_reverse, Hn in Hlt.
  pose proof (stack_translate stacks (fixed_regions etext trampoline) i pa Hi) as Et.
  destruct (translate_some _ _ _ _ (bu_good _ _ _ _ _ _ _ _ Hb) Et) as (Hpa & Hmod & _).
  assert (0 <= KSTACK (Z.of_nat i) < MAXVA /\ KSTACK (Z.of_nat i) mod PGSIZE = 0) as [Hv Hv0] by (open_region; dlia).
  apply (maps_page kend kend_pos s t l _ pa (Z.lor RW PTE_V)); try done.
  - apply Hb.
  - congruence.
  - rewrite (bu_pte _ _ _ _ _ _ _ _ Hb) by done. unfold look, kernel_regions. by rewrite Et.
  - intros r p Hr ->. apply Hcv. right. by exists r.
Qed.
End built.

(** C12: The kernel's address space.  Given 137 free pages, [kvminit] and [kvminithart]
    succeed, and from then on the hart translates every address of the kernel as the
    list of regions says: the devices, the kernel's code and the rest of memory at
    their own addresses, the trampoline page at the top, and below it one page for
    each of the 64 kernel stacks.  Memory from [KERNBASE] to [PHYSTOP] is readable
    under its own addresses, the code executable and the rest writable; no address
    is both writable and executable; the page below each stack is not mapped, and
    each stack is a page of its own that the kernel reads and writes.  Pages that
    were not free are untouched, and the pages left over are the free list. *)
Theorem kernel_address_space s0 l0 h pt0 :
  krep kend s0 l0 -> (137 <= length l0)%nat -> h_mode h = SMode ->
  exists pt s' l stacks,
    let h' := set_csr CSR_satp (MAKE_SATP pt) h in
    (kvminit etext trampoline;;; kvminithart) (mkKvm h s0 pt0) = Ok tt (mkKvm h' s' pt) /\
    (forall va perm, 0 <= va < MAXVA -> va mod 8 = 0 -> perm = PTE_R \/ perm = PTE_W \/ perm = PTE_X ->
       phys perm va h' s' = (p ← translate (kernel_regions etext trampoline stacks) va; if istrue (Z.land p.2 perm) then Some p.1 else None)) /\
    (forall va, KERNBASE <= va < PHYSTOP -> va mod 8 = 0 ->
       phys PTE_R va h' s' = Some va /\ phys (if va <? etext then PTE_X else PTE_W) va h' s' = Some va) /\
    (forall va, 0 <= va < MAXVA -> phys PTE_W va h' s' = None \/ phys PTE_X va h' s' = None) /\
    (forall i va perm, 0 <= i < 64 -> KSTACK i - PGSIZE <= va < KSTACK i -> perm = PTE_R \/ perm = PTE_W \/ perm = PTE_X ->
       phys perm va h' s' = None) /\
    length stacks = 64%nat /\ NoDup stacks /\
    (forall i pa, reverse stacks !! i = Some pa -> pa ∈ l0 /\ pa ∉ l /\ maps (MAKE_SATP pt) (kmem s') (KSTACK (Z.of_nat i)) pa PGSIZE) /\
    krep kend s' l /\ (forall b, b ∈ l -> b ∈ l0) /\
    (forall b x, b ∉ l0 -> b mod PGSIZE = 0 -> b <= x < b + PGSIZE -> mget (kmem s') x = mget (kmem s0) x).
Proof.
  intros Hk Hl Hm. destruct (kvm_boot s0 l0 h pt0 Hk Hl) as (pt & s' & t & l & ps & E & R & Hn & Hb).
  exists pt, s', l, ps. cbv zeta. set (h' := set_csr CSR_satp (MAKE_SATP pt) h).
  assert (h_csr h' CSR_satp = MAKE_SATP (pt_root t)) as Hc by (rewrite R; apply fn_lookup_insert).
  split; [exact E|]. split; [exact (kernel_phys s0 s' l0 l ps t h' Hb Hm Hc)|].
  split; [exact (kernel_ram s0 s' l0 l ps t h' Hb Hn Hm Hc)|]. split; [exact (kernel_wx s0 s' l0 l ps t h' Hb Hm Hc)|].
  split; [exact (kernel_guards s0 s' l0 l ps t h' Hb Hn Hm Hc)|]. split; [exact Hn|]. split; [exact (bu_nodup _ _ _ _ _ _ _ _ Hb)|].
  split; [rewrite <- R; exact (kernel_stack s0 s' l0 l ps t Hb Hn)|].
  split; [apply (bu_inv _ _ _ _ _ _ _ _ Hb)|]. split; [|exact (bu_frame _ _ _ _ _ _ _ _ Hb)].
  intros b Hin. apply (bu_pages _ _ _ _ _ _ _ _ Hb). right. by left.
Qed.
End claims.

(** ** A boot *)

Definition kend200 : Z := PHYSTOP - 200 * PGSIZE.
Definition boot_hart : hart := mkHart (fun _ => 0) (fun _ => 0) SMode 0.

Lemma kernel_address_space_witness :
  exists s0 pt s', kinit kend200 (mkKst ∅ 0) = Ok tt s0 /\
    (kvminit (KERNBASE + 0x8000) (KERNBASE + 0x7000);;; kvminithart) (mkKvm boot_hart s0 0) =
      Ok tt (mkKvm (set_csr CSR_satp (MAKE_SATP pt) boot_hart) s' pt).
Proof.
  destruct (kinit_spec kend200 ltac:(reflexivity) ltac:(discriminate) (mkKst ∅ 0) eq_refl) as (s0 & E & Hk).
  destruct (kernel_address_space kend200 ltac:(reflexivity) (KERNBASE + 0x8000) (KERNBASE + 0x7000) ltac:(split; [reflexivity|split; reflexivity])
    ltac:(split; [reflexivity|split; [discriminate|reflexivity]]) s0 (rev (all_pages kend200)) boot_hart 0 Hk) as (pt & s' & l & stacks & H & _).
  - apply Nat.leb_le. vm_compute. reflexivity.
  - reflexivity.
  - exists s0, pt, s'. split; [exact E|exact H].
Defined.
