(* ===== verification/Mkfs.v ===== *)
(** * The image builder (mkfs/mkfs.c)

    The program that makes the disk the kernel boots from, run on a little-endian
    host.  Its state has the image as sectors, the host's files with the way reads
    of them return, and a schedule of failures of accesses to the image.  A failed
    assertion and [exit(1)] are the outcome [Panic], an access outside an array is
    [Undef]; what is printed is left out. *)

From S2P Require Import Prelude CString Bio Log LogSpec FsLayout Fs User.

Module Host.

Definition NINODES : Z := 200.
Definition FSSIZE : Z := 97000.

Definition nbitmap : Z := FSSIZE / (BSIZE * 8) + 1.
Definition ninodeblocks : Z := NINODES / IPB + 1.
Definition nlog : Z := LOGSIZE.

Record mkst := mkMk {
  k_img : view; k_len : Z; k_sb : superblock; k_freeinode : Z; k_freeblock : Z;
  k_files : list (list byte * stream); k_io : list bool
}.

Definition set_img (V : view) (len : Z) (s : mkst) : mkst :=
  mkMk V len (k_sb s) (k_freeinode s) (k_freeblock s) (k_files s) (k_io s).
Definition set_sb (sb : superblock) (s : mkst) : mkst :=
  mkMk (k_img s) (k_len s) sb (k_freeinode s) (k_freeblock s) (k_files s) (k_io s).
Definition set_freeinode (i : Z) (s : mkst) : mkst :=
  mkMk (k_img s) (k_len s) (k_sb s) i (k_freeblock s) (k_files s) (k_io s).
Definition set_freeblock (b : Z) (s : mkst) : mkst :=
  mkMk (k_img s) (k_len s) (k_sb s) (k_freeinode s) b (k_files s) (k_io s).
Definition set_io (l : list bool) (s : mkst) : mkst :=
  mkMk (k_img s) (k_len s) (k_sb s) (k_freeinode s) (k_freeblock s) (k_files s) l.

Definition die {A} (msg : String.string) : M mkst A := panic msg.
Definition assert (b : bool) : M mkst unit := if b then ret tt else panic "assert".

(** Whether the next access to the image succeeds. *)
Definition access : M mkst bool := fun s => Ok (match k_io s with b :: _ => negb b | [] => true end) (set_io (tail (k_io s)) s).

(** ** Byte order *)

Definition xshort (x : Z) : Z := le_dec [byte_of_Z x; byte_of_Z (Z.shiftr x 8)].
Definition xint (x : Z) : Z :=
  le_dec [byte_of_Z x; byte_of_Z (Z.shiftr x 8); byte_of_Z (Z.shiftr x 16); byte_of_Z (Z.shiftr x 24)].

(** ** Sectors *)

(** The offset in bytes is an unsigned integer. *)
Definition sector (sec : Z) : Z := u32 (sec * BSIZE) / BSIZE.

Definition wsect (sec : Z) (buf : block) : M mkst unit :=
  ok <- access;;
  if ok : bool then modify (fun s => set_img (<[sector sec := buf]> (k_img s)) (Z.max (k_len s) (sector sec + 1)) s)
  else die "write".

Definition rsect (sec : Z) : M mkst block :=
  ok <- access;;
  len <- gets k_len;;
  if (ok : bool) && (sector sec <? len) then gets (fun s => k_img s (sector sec)) else die "read".

(** ** Inodes *)

Definition winode (inum : Z) (ip : dinode) : M mkst unit :=
  sb <- gets k_sb;;
  let bn := IBLOCK inum sb in
  buf <- rsect bn;;
  wsect bn (dinode_put (Z.to_nat (inum mod IPB)) ip buf).

Definition rinode (inum : Z) : M mkst dinode :=
  sb <- gets k_sb;;
  let bn := IBLOCK inum sb in
  buf <- rsect bn;;
  ret (dinode_get (Z.to_nat (inum mod IPB)) buf).

Definition ialloc (type : Z) : M mkst Z :=
  inum <- gets k_freeinode;;
  modify (set_freeinode (u32 (inum + 1)));;;
  winode inum (mkDinode (i16 (xshort type)) 0 0 (i16 (xshort 1)) (xint 0) (replicate naddrs 0));;;
  ret inum.

Definition balloc (used : Z) : M mkst unit :=
  assert (used <? BSIZE * 8);;;
  let buf := fold_left (fun buf i => bm_set i buf) (seqZ 0 used) zero_block in
  sb <- gets k_sb;;
  wsect (sb_bmapstart sb) buf.

(** ** Appending to a file *)

Definition addr (din : dinode) (j : Z) : Z := default 0 (dn_addrs din !! Z.to_nat j).
Definition set_addr (j a : Z) (din : dinode) : dinode :=
  mkDinode (dn_type din) (dn_major din) (dn_minor din) (dn_nlink din) (dn_size din) (<[Z.to_nat j := a]> (dn_addrs din)).
Definition set_size (n : Z) (din : dinode) : dinode :=
  mkDinode (dn_type din) (dn_major din) (dn_minor din) (dn_nlink din) n (dn_addrs din).

(** [freeblock++] *)
Definition next_block : M mkst Z :=
  b <- gets k_freeblock;;
  modify (set_freeblock (u32 (b + 1)));;;
  ret b.

(** [if(xint(din.addrs[j]) == 0) din.addrs[j] = xint(freeblock++);] *)
Definition fill_addr (j : Z) (din : dinode) : M mkst dinode :=
  if xint (addr din j) =? 0 then b <- next_block;; ret (set_addr j (xint b) din) else ret din.

(** The block of the file that holds byte [fbn * BSIZE], with [din] afterwards. *)
Definition find_block (fbn : Z) (din : dinode) : M mkst (dinode * Z) :=
  if fbn <? NDIRECT then
    din <- fill_addr fbn din;;
    ret (din, xint (addr din fbn))
  else
    din <- fill_addr NDIRECT din;;
    indirect <- rsect (xint (addr din NDIRECT));;
    if NINDIRECT <=? fbn - NDIRECT then undef
    else
      indirect <- (if word (fbn - NDIRECT) indirect =? 0 then
                     b <- next_block;;
                     let indirect := set_word (fbn - NDIRECT) (xint b) indirect in
                     wsect (xint (addr din NDIRECT)) indirect;;;
                     ret indirect
                   else ret indirect);;
      ret (din, xint (word (fbn - NDIRECT) indirect)).

(** [p] has the [n] bytes that are left; each round takes at least one. *)
Fixpoint iappend_loop (fuel : nat) (din : dinode) (off : Z) (p : list byte) : M mkst (dinode * Z) :=
  match fuel with
  | O => nofuel
  | S fuel =>
    let n := Z.of_nat (length p) in
    if negb (0 <? n) then ret (din, off)
    else
      let fbn := off / BSIZE in
      assert (fbn <? MAXFILE);;;
      r <- find_block fbn din;;
      let '(din, x) := r in
      let n1 := Z.min n ((fbn + 1) * BSIZE - off) in
      buf <- rsect x;;
      wsect x (splice buf (Z.to_nat (off - fbn * BSIZE)) (take (Z.to_nat n1) p));;;
      iappend_loop fuel din (u32 (off + n1)) (drop (Z.to_nat n1) p)
  end.

Definition iappend (inum : Z) (p : list byte) : M mkst unit :=
  din <- rinode inum;;
  r <- iappend_loop (S (length p)) din (xint (dn_size din)) p;;
  let '(din, off) := r in
  winode inum (set_size (xint off) din).

(** ** main *)

Definition slash : byte := x2f.
Definition underscore : byte := x5f.

Fixpoint skip_slashes (l : list byte) : list byte :=
  match l with [] => [] | c :: l' => if bool_decide (c = slash) then skip_slashes l' else l end.
Fixpoint upto_slash (l : list byte) : list byte :=
  match l with [] => [] | c :: l => if bool_decide (c = slash) then [] else c :: upto_slash l end.

(** The last component of a path; that the C library cuts slashes at the end of its
    argument is left out, so a path is opened as it was given. *)
Definition basename (path : list byte) : list byte :=
  match path with
  | [] => bytes "."
  | _ =>
    match skip_slashes (reverse path) with
    | [] => [slash]
    | l => reverse (upto_slash l)
    end
  end.

Definition de_of (inum : Z) (name : list byte) : list byte := dirent_bytes (mkDirent (xshort inum) (name_field name DIRSIZ)).

(** [while((cc = read(fd, buf, sizeof(buf))) > 0) iappend(inum, buf, cc);] *)
Fixpoint copy_in (fuel : nat) (inum : Z) (fd : stream) : M mkst unit :=
  match fuel with
  | O => nofuel
  | S fuel =>
    let '(r, fd) := stream_read (Z.to_nat BSIZE) fd in
    match r with
    | None | Some [] => ret tt
    | Some buf => iappend inum buf;;; copy_in fuel inum fd
    end
  end.

Definition add_file (rootino : Z) (path : list byte) : M mkst unit :=
  let shortname := basename path in
  assert (negb (bool_decide (slash ∈ shortname)));;;
  files <- gets k_files;;
  match list_find (fun f => f.1 = path) files with
  | None => die "open"
  | Some (_, (_, fd)) =>
    let shortname := match shortname with c :: l => if bool_decide (c = underscore) then l else shortname | [] => [] end in
    inum <- ialloc T_FILE;;
    iappend rootino (de_of inum shortname);;;
    copy_in (S (length (s_data fd))) inum fd
  end.

Definition sb_bytes (sb : superblock) : block :=
  words_put [sb_magic sb; sb_size sb; sb_nblocks sb; sb_ninodes sb; sb_nlog sb; sb_logstart sb; sb_inodestart sb; sb_bmapstart sb] 0 zero_block.

Definition nmeta : Z := 2 + nlog + ninodeblocks + nbitmap.
Definition nblocks : Z := FSSIZE - nmeta.

(** The image is empty after [open] with [O_TRUNC]. *)
Definition main (argv : list (list byte)) : M mkst unit :=
  match argv with
  | _ :: _ :: paths =>
    assert (BSIZE mod 64 =? 0);;;
    assert (BSIZE mod 16 =? 0);;;
    ok <- access;;
    (if ok : bool then modify (set_img (fun _ => zero_block) 0) else die "open");;;
    let sb := mkSb FSMAGIC (xint FSSIZE) (xint nblocks) (xint NINODES) (xint nlog) (xint 2) (xint (2 + nlog)) (xint (2 + nlog + ninodeblocks)) in
    modify (set_sb sb);;;
    modify (set_freeblock nmeta);;;
    for_each (seqZ 0 FSSIZE) (fun i => wsect i zero_block);;;
    wsect 1 (sb_bytes sb);;;
    rootino <- ialloc T_DIR;;
    assert (rootino =? ROOTINO);;;
    iappend rootino (de_of rootino (bytes "."));;;
    iappend rootino (de_of rootino (bytes ".."));;;
    for_each paths (add_file rootino);;;
    din <- rinode rootino;;
    let off := xint (dn_size din) in
    let off := (off / BSIZE + 1) * BSIZE in
    winode rootino (set_size (xint off) din);;;
    used <- gets k_freeblock;;
    balloc used
  | _ => die "usage"
  end.

End Host.
