(* ===== verification/MkfsSpec.v ===== *)
(** * What the image builder does to the image

    A file of the image is described by its contents, the list [bl] of its blocks
    in order, and the address [ind] of its indirect block, 0 if it has none. *)

From S2P Require Import Prelude CString Bio Log LogSpec FsLayout TxnLayer Fs FsAlloc FsMap FsInode FsRw User Mkfs.
Import Host.

(** ** Byte order *)

Lemma xint_id x : 0 <= x < 2 ^ 32 -> xint x = x.
Proof.
  intros Hx. unfold xint. cbn [le_dec]. rewrite !Z.shiftr_div_pow2 by lia. rewrite !byte_to_of_Z. dlia.
Qed.

Lemma xshort_id x : 0 <= x < 2 ^ 16 -> xshort x = x.
Proof. intros Hx. unfold xshort. cbn [le_dec]. rewrite !Z.shiftr_div_pow2 by lia. rewrite !byte_to_of_Z. dlia. Qed.

(** ** Sectors and inodes *)

Definition sbm : superblock := mkSb FSMAGIC FSSIZE 96943 NINODES 30 2 32 45.

Lemma sbm_geom : geom sbm.
Proof. split; vm_compute; intuition congruence. Qed.

Lemma sbm_dstart : dstart sbm = 57.
Proof. reflexivity. Qed.

Section image.
Context (files : list (list byte * stream)).

(** The state while the image is built, with no failures. *)
Definition st (V : view) (fi fb : Z) : mkst := mkMk V FSSIZE sbm fi fb files [].

Lemma sector_id sec : 0 <= sec < FSSIZE -> sector sec = sec.
Proof. intros H. unfold sector, FSSIZE, BSIZE in *. rewrite u32_small by lia. dlia. Qed.

Lemma wsect_ok sec buf V fi fb : 0 <= sec < FSSIZE -> wsect sec buf (st V fi fb) = Ok tt (st (<[sec := buf]> V) fi fb).
Proof.
  intros H. unfold wsect, bind, access, modify, set_img, set_io, st. cbn -[FSSIZE]. rewrite sector_id by done. by rewrite Z.max_l by lia.
Qed.

Lemma rsect_ok sec V fi fb : 0 <= sec < FSSIZE -> rsect sec (st V fi fb) = Ok (V sec) (st V fi fb).
Proof.
  intros H. unfold rsect, bind, access, gets, set_io, st. cbn -[FSSIZE]. rewrite sector_id by done.
  by rewrite (proj2 (Z.ltb_lt _ _)) by lia.
Qed.

Lemma iblock_range i : 0 <= i < NINODES -> 0 <= IBLOCK i sbm < FSSIZE /\ 32 <= IBLOCK i sbm < 45.
Proof. intros H. destruct (IBLOCK_eq sbm i sbm_geom H) as [_ Hr]. cbn in Hr. unfold FSSIZE. lia. Qed.

Lemma winode_ok i d V fi fb : 0 <= i < NINODES -> winode i d (st V fi fb) = Ok tt (st (put_inode sbm i d V) fi fb).
Proof.
  intros H. destruct (iblock_range i H) as [Hr _]. unfold winode. run1. cbn [k_sb st]. run (rsect_ok _ V fi fb Hr). by rewrite wsect_ok.
Qed.

Lemma rinode_ok i V fi fb : 0 <= i < NINODES -> rinode i (st V fi fb) = Ok (inode_at sbm V i) (st V fi fb).
Proof. intros H. destruct (iblock_range i H) as [Hr _]. unfold rinode. run1. cbn [k_sb st]. by run (rsect_ok _ V fi fb Hr). Qed.

Definition new_inode (type : Z) : dinode := mkDinode type 0 0 1 0 (replicate naddrs 0).

Lemma ialloc_ok type V fi fb :
  0 <= fi < NINODES -> 0 <= type < 2 ^ 15 -> Host.ialloc type (st V fi fb) = Ok fi (st (put_inode sbm fi (new_inode type) V) (fi + 1) fb).
Proof.
  intros Hi Ht. unfold Host.ialloc. run1. run1. cbn [k_freeinode st set_freeinode].
  rewrite u32_small by (unfold NINODES in *; lia). rewrite !xshort_id, xint_id, !i16_small by lia.
  change (set_freeinode (fi + 1) (st V fi fb)) with (st V (fi + 1) fb). by run (winode_ok fi (new_inode type) V (fi + 1) fb Hi).
Qed.

Lemma next_block_ok V fi fb : 0 <= fb < FSSIZE -> next_block (st V fi fb) = Ok fb (st V fi (fb + 1)).
Proof. intros H. unfold next_block. run1. run1. cbn [k_freeblock st]. unfold FSSIZE in H. by rewrite u32_small by lia. Qed.

(** ** Files *)

Record fimg (V : view) (d : dinode) (c : list byte) (bl : list Z) (ind : Z) : Prop := {
  fm_len : length (dn_addrs d) = naddrs;
  fm_dir : forall j, (j < 11)%nat -> dn_addrs d !! j = Some (default 0 (bl !! j));
  fm_ind : dn_addrs d !! 11%nat = Some ind;
  fm_dbl : dn_addrs d !! 12%nat = Some 0;
  fm_words : ind <> 0 -> forall j, (j < 256)%nat -> word (Z.of_nat j) (V ind) = default 0 (bl !! (11 + j)%nat);
  fm_noind : ind = 0 <-> (length bl <= 11)%nat;
  fm_max : (length bl <= 267)%nat;
  fm_room : Z.of_nat (length c) <= 1024 * Z.of_nat (length bl);
  fm_bytes : forall o, 0 <= o < 1024 * Z.of_nat (length bl) ->
    exists a, bl !! Z.to_nat (o / 1024) = Some a /\ V a !! Z.to_nat (o mod 1024) = Some (default x00 (c !! Z.to_nat o))
}.

(** The blocks of a file. *)
Definition owned (bl : list Z) (ind : Z) : list Z := if decide (ind = 0) then bl else ind :: bl.

Lemma owned_bl bl ind a : a ∈ bl -> a ∈ owned bl ind.
Proof. unfold owned. case_decide; [done|]. intros. by apply elem_of_cons; right. Qed.
Lemma owned_ind bl ind : ind <> 0 -> ind ∈ owned bl ind.
Proof. intros. unfold owned. rewrite decide_False by done. apply list_elem_of_here. Qed.

Lemma fimg_ext V V' d c bl ind : fimg V d c bl ind -> (forall a, a ∈ owned bl ind -> V' a = V a) -> fimg V' d c bl ind.
Proof.
  intros [H1 H2 H3 H4 H5 H6 H7 H8 H9] He. split; try done.
  - intros Hi j Hj. rewrite He by by apply owned_ind. by apply H5.
  - intros o Ho. destruct (H9 o Ho) as (a & Ha & Hb). exists a. split; [done|]. rewrite He; [done|].
    apply owned_bl. by eapply list_elem_of_lookup_2.
Qed.

(** Addresses that are handed out. *)
Record wf (V : view) (fb : Z) (bl : list Z) (ind : Z) : Prop := {
  wf_blk : forall n, blk (V n);
  wf_zero : forall n, fb <= n -> V n = zero_block;
  wf_fb : 57 <= fb;
  wf_nodup : NoDup (owned bl ind);
  wf_range : forall a, a ∈ owned bl ind -> 57 <= a < fb
}.

Lemma addr_dir V d c bl ind j : fimg V d c bl ind -> 0 <= j < 11 -> addr d j = default 0 (bl !! Z.to_nat j).
Proof. intros H Hj. unfold addr. by rewrite (fm_dir _ _ _ _ _ H) by lia. Qed.

Lemma addr_ind V d c bl ind : fimg V d c bl ind -> addr d NDIRECT = ind.
Proof. intros H. unfold addr. change (Z.to_nat NDIRECT) with 11%nat. by rewrite (fm_ind _ _ _ _ _ H). Qed.

Lemma find_old V d c bl ind fi fb fbn a :
  fimg V d c bl ind -> wf V fb bl ind -> fb <= FSSIZE -> 0 <= fbn -> bl !! Z.to_nat fbn = Some a ->
  find_block fbn d (st V fi fb) = Ok (d, a) (st V fi fb).
Proof.
  intros Hf Hw Hfb Hn Ha. pose proof (lookup_lt_Some _ _ _ Ha) as Hlt. pose proof (fm_max _ _ _ _ _ Hf) as Hmax.
  assert (57 <= a < fb) as Har by (apply (wf_range _ _ _ _ Hw), owned_bl; by eapply list_elem_of_lookup_2).
  unfold FSSIZE in Hfb. unfold find_block, fill_addr. change NDIRECT with 11 at 1. destruct (Z.ltb_spec fbn 11) as [Hd|Hd].
  - assert (xint (addr d fbn) = a) as Hx by (rewrite (addr_dir _ _ _ _ _ _ Hf), Ha by lia; apply xint_id; cbn; lia).
    rewrite Hx, (proj2 (Z.eqb_neq _ _)) by lia. run1. by rewrite Hx.
  - assert (ind <> 0) as Hi by (intros E; apply (fm_noind _ _ _ _ _ Hf) in E; lia).
    pose proof (wf_range _ _ _ _ Hw _ (owned_ind bl ind Hi)) as Hir.
    rewrite (addr_ind _ _ _ _ _ Hf), xint_id by lia. rewrite (proj2 (Z.eqb_neq _ _)) by lia. run1.
    rewrite (addr_ind _ _ _ _ _ Hf), xint_id by lia. run (rsect_ok ind V fi fb ltac:(unfold FSSIZE; lia)).
    change NDIRECT with 11. change NINDIRECT with 256. rewrite (proj2 (Z.leb_gt _ _)) by lia.
    assert (word (fbn - 11) (V ind) = a) as Hwd.
    { replace (fbn - 11) with (Z.of_nat (Z.to_nat (fbn - 11))) by lia. rewrite (fm_words _ _ _ _ _ Hf Hi) by lia.
      replace (11 + Z.to_nat (fbn - 11))%nat with (Z.to_nat fbn) by lia. by rewrite Ha. }
    rewrite Hwd, (proj2 (Z.eqb_neq _ _)) by lia. run1. by rewrite Hwd, xint_id by lia.
Qed.

(** *** A new block *)

Lemma zero_byte k : Z.of_nat k < BSIZE -> zero_block !! k = Some x00.
Proof. intros H. unfold zero_block. apply lookup_replicate_2. lia. Qed.

Lemma fimg_add V V' d d' c bl ind ind' a :
  fimg V d c bl ind -> (length bl < 267)%nat -> length (dn_addrs d') = naddrs ->
  (forall j, (j < 11)%nat -> dn_addrs d' !! j = Some (default 0 ((bl ++ [a]) !! j))) ->
  dn_addrs d' !! 11%nat = Some ind' -> dn_addrs d' !! 12%nat = Some 0 ->
  (ind' <> 0 -> forall j, (j < 256)%nat -> word (Z.of_nat j) (V' ind') = default 0 ((bl ++ [a]) !! (11 + j)%nat)) ->
  (ind' = 0 <-> (length bl < 11)%nat) -> (forall b, b ∈ bl -> V' b = V b) -> V' a = zero_block ->
  fimg V' d' c (bl ++ [a]) ind'.
Proof.
  intros Hf Hl H1 H2 H3 H4 H5 H6 He Hz. pose proof (fm_room _ _ _ _ _ Hf) as Hr. split; try done.
  - rewrite length_app. cbn. rewrite H6. lia.
  - rewrite length_app. cbn. lia.
  - rewrite length_app. cbn. lia.
  - rewrite length_app. cbn [length]. intros o Ho. destruct (decide (o < 1024 * Z.of_nat (length bl))) as [Hlt|Hge].
    + destruct (fm_bytes _ _ _ _ _ Hf o) as (b & Hb & Hv); [lia|]. exists b. rewrite lookup_app_l by (by eapply lookup_lt_Some).
      split; [done|]. rewrite He; [done|by eapply list_elem_of_lookup_2].
    + exists a. replace (Z.to_nat (o / 1024)) with (length bl) by dlia. rewrite list_lookup_middle by done. split; [done|].
      rewrite Hz, zero_byte by (unfold BSIZE; dlia). by rewrite (proj2 (lookup_ge_None c _)) by lia.
Qed.

Definition rest (d : dinode) : Z * Z * Z * Z * Z := (dn_type d, dn_major d, dn_minor d, dn_nlink d, dn_size d).

Lemma bl_end (bl : list Z) a j : j = length bl -> (bl ++ [a]) !! j = Some a.
Proof. intros ->. by apply list_lookup_middle. Qed.

Lemma bl_before (bl : list Z) a j : j <> length bl -> default 0 ((bl ++ [a]) !! j) = default 0 (bl !! j).
Proof.
  intros Hj. destruct (decide (j < length bl)%nat); [by rewrite lookup_app_l|].
  rewrite (proj2 (lookup_ge_None bl j)), (proj2 (lookup_ge_None (bl ++ [a]) j)) by (rewrite ?length_app; cbn; lia). done.
Qed.

(** How the image changes around a file. *)
Record grown (V : view) (fb : Z) (d : dinode) (bl : list Z) (ind : Z) (V' : view) (fb' : Z) (d' : dinode) (bl' : list Z) (ind' : Z) : Prop := {
  gw_rest : rest d' = rest d;
  gw_frame : forall n, n < fb -> n ∉ owned bl ind -> V' n = V n;
  gw_owned : forall b, b ∈ owned bl' ind' -> b ∈ owned bl ind \/ fb <= b < fb';
  gw_count : Z.of_nat (length (owned bl' ind')) - Z.of_nat (length (owned bl ind)) = fb' - fb
}.

Lemma mk_grown_trans V1 f1 d1 b1 i1 V2 f2 d2 b2 i2 V3 f3 d3 b3 i3 :
  f1 <= f2 <= f3 -> grown V1 f1 d1 b1 i1 V2 f2 d2 b2 i2 -> grown V2 f2 d2 b2 i2 V3 f3 d3 b3 i3 -> grown V1 f1 d1 b1 i1 V3 f3 d3 b3 i3.
Proof.
  intros Hf [R1 F1 O1 C1] [R2 F2 O2 C2]. split.
  - congruence.
  - intros n Hn Ho. rewrite F2; [by apply F1|lia|]. intros [?|?]%O1; [done|lia].
  - intros b [[?|?]%O1|?]%O2; [by left|right; lia|right; lia].
  - lia.
Qed.

(** A new block at the end of the file, with its indirect block if it is the first of those. *)
Lemma find_direct V d c bl fi fb :
  fimg V d c bl 0 -> wf V fb bl 0 -> fb < FSSIZE -> (length bl < 11)%nat ->
  exists d', find_block (Z.of_nat (length bl)) d (st V fi fb) = Ok (d', fb) (st V fi (fb + 1)) /\
    fimg V d' c (bl ++ [fb]) 0 /\ rest d' = rest d.
Proof.
  intros Hf Hw Hfb Hl. pose proof (wf_fb _ _ _ _ Hw) as H57. exists (set_addr (Z.of_nat (length bl)) fb d).
  assert (fb < 2 ^ 32) by (unfold FSSIZE in *; lia).
  split; [|split; [|done]].
  - unfold find_block, fill_addr. change NDIRECT with 11 at 1. rewrite (proj2 (Z.ltb_lt _ _)) by lia.
    rewrite (addr_dir _ _ _ _ _ _ Hf) by lia. rewrite (proj2 (lookup_ge_None bl _)) by lia.
    change (xint (default 0 None)) with 0. rewrite Z.eqb_refl. rewrite (bind_ok _ _ _ (set_addr (Z.of_nat (length bl)) fb d) (st V fi (fb + 1))).
    2:{ run (next_block_ok V fi fb ltac:(lia)). by rewrite xint_id by lia. }
    unfold addr, set_addr. cbn [dn_addrs]. rewrite list_lookup_insert_eq by (rewrite (fm_len _ _ _ _ _ Hf); unfold naddrs; lia).
    unfold ret. do 2 f_equal. apply xint_id. cbn. lia.
  - apply (fimg_add V V d _ c bl 0 0 fb Hf); try done; unfold set_addr; cbn [dn_addrs]; rewrite ?Nat2Z.id.
    + lia.
    + rewrite length_insert. apply (fm_len _ _ _ _ _ Hf).
    + intros j Hj. destruct (decide (j = length bl)) as [->|Hne].
      * rewrite list_lookup_insert_eq by (rewrite (fm_len _ _ _ _ _ Hf); unfold naddrs; lia). by rewrite bl_end.
      * rewrite list_lookup_insert_ne by done. rewrite bl_before by done. by apply (fm_dir _ _ _ _ _ Hf).
    + rewrite list_lookup_insert_ne by lia. apply (fm_ind _ _ _ _ _ Hf).
    + rewrite list_lookup_insert_ne by lia. apply (fm_dbl _ _ _ _ _ Hf).
    + apply (wf_zero _ _ _ _ Hw). lia.
Qed.

(** The tail of [find_block], when entry [j] of the indirect block at [ind] is empty. *)
Lemma mk_entry V d ind fi fb fbn :
  addr d NDIRECT = ind -> 57 <= ind < FSSIZE -> 57 <= fb < FSSIZE -> 11 <= fbn < 267 -> word (fbn - 11) (V ind) = 0 -> blk (V ind) ->
  (indirect <- rsect (xint (addr d NDIRECT));;
   if NINDIRECT <=? fbn - NDIRECT then undef
   else
     indirect <- (if word (fbn - NDIRECT) indirect =? 0 then
                    b <- next_block;;
                    let indirect := set_word (fbn - NDIRECT) (xint b) indirect in
                    wsect (xint (addr d NDIRECT)) indirect;;;
                    ret indirect
                  else ret indirect);;
     ret (d, xint (word (fbn - NDIRECT) indirect))) (st V fi fb) =
  Ok (d, fb) (st (<[ind := set_word (fbn - 11) fb (V ind)]> V) fi (fb + 1)).
Proof.
  intros -> Hi Hfb Hn Hz Hb. assert (FSSIZE < 2 ^ 32) by done. rewrite xint_id by lia. run (rsect_ok ind V fi fb ltac:(lia)).
  change NDIRECT with 11. change NINDIRECT with 256. rewrite (proj2 (Z.leb_gt _ _)) by lia. rewrite Hz, Z.eqb_refl.
  rewrite (bind_ok _ _ _ (set_word (fbn - 11) fb (V ind)) (st (<[ind := set_word (fbn - 11) fb (V ind)]> V) fi (fb + 1))).
  2:{ run (next_block_ok V fi fb ltac:(lia)). cbv zeta. rewrite xint_id by lia.
      by run (wsect_ok ind (set_word (fbn - 11) fb (V ind)) V fi (fb + 1) ltac:(lia)). }
  rewrite word_set_same by (done || lia). by rewrite xint_id by lia.
Qed.

Lemma words_add bl a d j :
  blk d -> (11 <= length bl < 267)%nat -> 0 <= a < 2 ^ 32 -> (forall j, (j < 256)%nat -> word (Z.of_nat j) d = default 0 (bl !! (11 + j)%nat)) ->
  (j < 256)%nat -> word (Z.of_nat j) (set_word (Z.of_nat (length bl) - 11) a d) = default 0 ((bl ++ [a]) !! (11 + j)%nat).
Proof.
  intros Hb Hl Ha Hw Hj. destruct (decide (11 + j = length bl)%nat) as [E|E].
  - replace (Z.of_nat (length bl) - 11) with (Z.of_nat j) by lia. rewrite word_set_same by (done || lia). by rewrite bl_end.
  - rewrite word_set_other by (done || lia). rewrite bl_before by done. by apply Hw.
Qed.

Lemma find_first V d c bl fi fb :
  fimg V d c bl 0 -> wf V fb bl 0 -> fb + 1 < FSSIZE -> length bl = 11%nat ->
  exists d', let V' := <[fb := set_word 0 (fb + 1) zero_block]> V in
    find_block 11 d (st V fi fb) = Ok (d', fb + 1) (st V' fi (fb + 2)) /\ fimg V' d' c (bl ++ [fb + 1]) fb /\ rest d' = rest d.
Proof.
  intros Hf Hw Hfb Hl. pose proof (wf_fb _ _ _ _ Hw) as H57. set (d' := set_addr NDIRECT fb d). exists d'. intros V'.
  assert (FSSIZE < 2 ^ 32) by done. assert (V fb = zero_block) as Hz by (apply (wf_zero _ _ _ _ Hw); lia).
  assert (addr d' NDIRECT = fb) as Ha.
  { unfold addr, d', set_addr. cbn [dn_addrs]. by rewrite list_lookup_insert_eq by (rewrite (fm_len _ _ _ _ _ Hf); unfold naddrs, NDIRECT; lia). }
  split; [|split; [|done]].
  - unfold find_block, fill_addr. change (11 <? NDIRECT) with false. cbv iota. rewrite (addr_ind _ _ _ _ _ Hf). change (xint 0 =? 0) with true. cbv iota.
    rewrite (bind_ok _ _ _ d' (st V fi (fb + 1))). 2:{ run (next_block_ok V fi fb ltac:(lia)). by rewrite xint_id by lia. }
    etransitivity; [apply (mk_entry V d' fb fi (fb + 1) 11); done || lia || by rewrite Hz, ?word_zero by done|]. rewrite Hz.
    change (11 - 11) with 0. by replace (fb + 1 + 1) with (fb + 2) by lia.
  - apply (fimg_add V V' d d' c bl 0 fb (fb + 1) Hf); unfold d', set_addr; cbn [dn_addrs]; change (Z.to_nat NDIRECT) with 11%nat.
    + lia.
    + rewrite length_insert. apply (fm_len _ _ _ _ _ Hf).
    + intros j Hj. rewrite list_lookup_insert_ne by lia. rewrite bl_before by lia. by apply (fm_dir _ _ _ _ _ Hf).
    + by rewrite list_lookup_insert_eq by (rewrite (fm_len _ _ _ _ _ Hf); unfold naddrs; lia).
    + rewrite list_lookup_insert_ne by lia. apply (fm_dbl _ _ _ _ _ Hf).
    + intros _ j Hj. unfold V'. rewrite fn_lookup_insert. replace 0 with (Z.of_nat (length bl) - 11) at 1 by lia.
      apply words_add; [done|lia|lia| |done]. intros k Hk. rewrite word_zero by lia. by rewrite (proj2 (lookup_ge_None bl _)) by lia.
    + lia.
    + intros b Hb. unfold V'. rewrite fn_lookup_insert_ne; [done|]. intros <-. pose proof (wf_range _ _ _ _ Hw _ (owned_bl bl 0 fb Hb)). lia.
    + unfold V'. rewrite fn_lookup_insert_ne by lia. apply (wf_zero _ _ _ _ Hw). lia.
Qed.

Lemma find_next V d c bl ind fi fb :
  fimg V d c bl ind -> wf V fb bl ind -> fb < FSSIZE -> (11 < length bl < 267)%nat ->
  let V' := <[ind := set_word (Z.of_nat (length bl) - 11) fb (V ind)]> V in
  find_block (Z.of_nat (length bl)) d (st V fi fb) = Ok (d, fb) (st V' fi (fb + 1)) /\ fimg V' d c (bl ++ [fb]) ind.
Proof.
  intros Hf Hw Hfb Hl V'. pose proof (wf_fb _ _ _ _ Hw) as H57. assert (FSSIZE < 2 ^ 32) by done.
  assert (ind <> 0) as Hi by (intros E; apply (fm_noind _ _ _ _ _ Hf) in E; lia).
  pose proof (wf_range _ _ _ _ Hw _ (owned_ind bl ind Hi)) as Hir. pose proof (wf_nodup _ _ _ _ Hw) as Hnd.
  unfold owned in Hnd. rewrite decide_False in Hnd by done. apply NoDup_cons in Hnd as [Hni _].
  split.
  - unfold find_block, fill_addr. change NDIRECT with 11 at 1. rewrite (proj2 (Z.ltb_ge _ _)) by lia.
    rewrite (addr_ind _ _ _ _ _ Hf), xint_id by lia. rewrite (proj2 (Z.eqb_neq _ _)) by lia. run1.
    apply mk_entry; try lia; [apply (addr_ind _ _ _ _ _ Hf)| |apply (wf_blk _ _ _ _ Hw)].
    replace (Z.of_nat (length bl) - 11) with (Z.of_nat (length bl - 11)) by lia. rewrite (fm_words _ _ _ _ _ Hf Hi) by lia.
    by rewrite (proj2 (lookup_ge_None bl _)) by lia.
  - apply (fimg_add V V' d d c bl ind ind fb Hf); try apply Hf; try lia.
    + intros j Hj. rewrite bl_before by lia. by apply (fm_dir _ _ _ _ _ Hf).
    + intros _ j Hj. unfold V'. rewrite fn_lookup_insert. apply words_add; try done; [apply (wf_blk _ _ _ _ Hw)|lia|lia|].
      by apply (fm_words _ _ _ _ _ Hf).
    + intros b Hb. unfold V'. rewrite fn_lookup_insert_ne; [done|]. by intros <-.
    + unfold V'. rewrite fn_lookup_insert_ne by lia. apply (wf_zero _ _ _ _ Hw). lia.
Qed.

Lemma owned_app bl a ind : NoDup (owned bl ind) -> a ∉ owned bl ind -> NoDup (owned (bl ++ [a]) ind).
Proof.
  unfold owned. case_decide; intros Hn Ha.
  - apply NoDup_app. split_and!; [done| |apply NoDup_singleton]. intros x Hx ->%list_elem_of_singleton. done.
  - apply NoDup_cons in Hn as [Hi Hn]. apply not_elem_of_cons in Ha as [Ha Hb]. apply NoDup_cons. rewrite elem_of_app, list_elem_of_singleton.
    split; [intros [?|?]; congruence|]. apply NoDup_app. split_and!; [done| |apply NoDup_singleton]. by intros x Hx ->%list_elem_of_singleton.
Qed.

Lemma elem_owned_app bl a ind b : b ∈ owned (bl ++ [a]) ind <-> b ∈ owned bl ind \/ b = a.
Proof. unfold owned. case_decide; rewrite ?elem_of_cons, elem_of_app, list_elem_of_singleton; tauto. Qed.

Lemma length_owned_app bl a ind : length (owned (bl ++ [a]) ind) = S (length (owned bl ind)).
Proof. unfold owned. case_decide; cbn [length]; rewrite length_app; cbn; lia. Qed.

(** The block [fb] goes to the end of the file; only the indirect block changes. *)
Lemma fresh_ok V V' d d' bl ind fb :
  wf V fb bl ind -> rest d' = rest d -> (forall n, n <> ind \/ ind = 0 -> V' n = V n) -> blk (V' ind) ->
  wf V' (fb + 1) (bl ++ [fb]) ind /\ grown V fb d bl ind V' (fb + 1) d' (bl ++ [fb]) ind.
Proof.
  intros [Wb Wz W57 Wn Wr] Hr He Hb. assert (fb ∉ owned bl ind) as Hfresh by (intros H%Wr; lia).
  assert (forall n, n ∉ owned bl ind -> V' n = V n) as He'.
  { intros n Hn. apply He. destruct (decide (ind = 0)); [by right|left]. intros ->. by apply Hn, owned_ind. }
  split; split.
  - intros n. destruct (decide (n = ind)) as [->|Hn]; [done|]. rewrite He by by left. done.
  - intros n Hn. rewrite He'; [apply Wz; lia|]. intros H%Wr. lia.
  - lia.
  - by apply owned_app.
  - intros a [Ha%Wr| ->]%elem_owned_app; lia.
  - done.
  - intros n _. apply He'.
  - intros b [?| ->]%elem_owned_app; [by left|right; lia].
  - rewrite length_owned_app. lia.
Qed.

(** The indirect block [fb] and the first block in it. *)
Lemma first_ok V d d' bl fb :
  wf V fb bl 0 -> rest d' = rest d -> let V' := <[fb := set_word 0 (fb + 1) zero_block]> V in
  wf V' (fb + 2) (bl ++ [fb + 1]) fb /\ grown V fb d bl 0 V' (fb + 2) d' (bl ++ [fb + 1]) fb.
Proof.
  intros [Wb Wz W57 Wn Wr] Hr V'. assert (owned (bl ++ [fb + 1]) fb = fb :: bl ++ [fb + 1]) as Ho by (unfold owned; by rewrite decide_False by lia).
  change (owned bl 0) with bl in *.
  split; split; rewrite ?Ho; unfold V'.
  - intros n. destruct (decide (n = fb)) as [->|Hn]; [rewrite fn_lookup_insert; by apply blk_set_word|by rewrite fn_lookup_insert_ne].
  - intros n Hn. rewrite fn_lookup_insert_ne by lia. apply Wz. lia.
  - lia.
  - apply NoDup_cons. rewrite elem_of_app, list_elem_of_singleton. split; [intros [H%Wr|?]; lia|].
    apply NoDup_app. split_and!; [done| |apply NoDup_singleton]. intros x Hx%Wr ->%list_elem_of_singleton. lia.
  - intros a. rewrite elem_of_cons, elem_of_app, list_elem_of_singleton. intros [->|[Ha%Wr| ->]]; lia.
  - done.
  - intros n Hn _. by rewrite fn_lookup_insert_ne by lia.
  - intros b. rewrite elem_of_cons, elem_of_app, list_elem_of_singleton. change (owned bl 0) with bl. intros [->|[Ha| ->]]; [right; lia|by left|right; lia].
  - change (owned bl 0) with bl. cbn [length]. rewrite length_app. cbn [length]. lia.
Qed.

Lemma find_new V d c bl ind fi fb :
  fimg V d c bl ind -> wf V fb bl ind -> fb + 2 <= FSSIZE -> (length bl < 267)%nat ->
  exists V' d' ind' fb' a, find_block (Z.of_nat (length bl)) d (st V fi fb) = Ok (d', a) (st V' fi fb') /\
    fb <= fb' <= fb + 2 /\ fimg V' d' c (bl ++ [a]) ind' /\ wf V' fb' (bl ++ [a]) ind' /\ grown V fb d bl ind V' fb' d' (bl ++ [a]) ind'.
Proof.
  intros Hf Hw Hfb Hl. destruct (decide (length bl <= 11)%nat) as [H11|H11].
  - assert (ind = 0) as -> by by apply (fm_noind _ _ _ _ _ Hf). destruct (decide (length bl = 11%nat)) as [E11|Hne].
    + destruct (find_first V d c bl fi fb Hf Hw) as (d' & E & Hf' & Hr); [lia|done|]. cbv zeta in *. rewrite E11.
      do 5 eexists. split; [exact E|]. split; [lia|]. split; [exact Hf'|]. by apply first_ok.
    + destruct (find_direct V d c bl fi fb Hf Hw) as (d' & E & Hf' & Hr); [lia|lia|].
      do 5 eexists. split; [exact E|]. split; [lia|]. split; [exact Hf'|]. apply fresh_ok; try done. apply (wf_blk _ _ _ _ Hw).
  - destruct (find_next V d c bl ind fi fb Hf Hw) as (E & Hf'); [lia|lia|]. cbv zeta in *.
    do 5 eexists. split; [exact E|]. split; [lia|]. split; [exact Hf'|]. apply fresh_ok; try done.
    + intros n [Hn|Hn]; [by rewrite fn_lookup_insert_ne|]. apply (fm_noind _ _ _ _ _ Hf) in Hn. lia.
    + rewrite fn_lookup_insert. apply blk_set_word; [apply (wf_blk _ _ _ _ Hw)|lia].
Qed.

(** *** Writing a piece *)

Lemma owned_disjoint bl ind : NoDup (owned bl ind) -> NoDup bl /\ (ind <> 0 -> ind ∉ bl).
Proof. unfold owned. case_decide; [done|]. by intros [? ?]%NoDup_cons. Qed.

Lemma fimg_write V d c bl ind fb a bs :
  fimg V d c bl ind -> wf V fb bl ind -> let off := Z.of_nat (length c) in
  bl !! Z.to_nat (off / 1024) = Some a -> off mod 1024 + Z.of_nat (length bs) <= 1024 ->
  let V' := <[a := splice (V a) (Z.to_nat (off mod 1024)) bs]> V in
  fimg V' d (c ++ bs) bl ind /\ wf V' fb bl ind.
Proof.
  intros Hf Hw off Ha Hbs V'. pose proof Hw as [Wb Wz W57 Wn Wr]. destruct (owned_disjoint _ _ Wn) as [Hnd Hni].
  assert (a ∈ bl) as Hin by by eapply list_elem_of_lookup_2. pose proof (lookup_lt_Some _ _ _ Ha) as Hlt.
  pose proof (Wb a) as Hba. unfold blk in Hba. rewrite bsize_eq in Hba. destruct Hf as [H1 H2 H3 H4 H5 H6 H7 H8 H9]. split; split; try done.
  - intros Hi. unfold V'. rewrite fn_lookup_insert_ne; [by apply H5|]. intros ->. by apply Hni.
  - rewrite length_app. dlia.
  - intros o Ho. destruct (H9 o Ho) as (b & Hb & Hv). exists b. split; [done|]. unfold V'.
    destruct (decide (b = a)) as [->|Hne].
    + assert (o / 1024 = off / 1024) as Eo by (pose proof (NoDup_lookup _ _ _ _ Hnd Hb Ha); unfold off in *; dlia).
      rewrite fn_lookup_insert. destruct (decide (off <= o < off + Z.of_nat (length bs))) as [Hr|Hr].
      * rewrite lookup_splice_in by (unfold off in *; dlia). rewrite lookup_app_r by (unfold off in *; lia).
        replace (Z.to_nat (o mod 1024) - Z.to_nat (off mod 1024))%nat with (Z.to_nat o - length c)%nat by (unfold off in *; dlia).
        destruct (lookup_lt_is_Some_2 bs (Z.to_nat o - length c)) as [x ->]; [unfold off in *; lia|done].
      * rewrite lookup_splice_out by (unfold off in *; dlia). rewrite Hv. f_equal.
        destruct (decide (o < off)) as [Hlo|Hhi]; [by rewrite lookup_app_l by (unfold off in *; lia)|].
        rewrite (proj2 (lookup_ge_None c _)), (proj2 (lookup_ge_None (c ++ bs) _)) by (rewrite ?length_app; unfold off in *; lia). done.
    + rewrite fn_lookup_insert_ne by done. rewrite Hv. f_equal. destruct (decide (o < off)) as [Hlo|Hhi]; [by rewrite lookup_app_l by (unfold off in *; lia)|].
      destruct (decide (o < off + Z.of_nat (length bs))) as [Hr|Hr].
      * exfalso. apply Hne. assert (o / 1024 = off / 1024) as Eo by (unfold off in *; dlia). rewrite Eo in Hb. congruence.
      * rewrite (proj2 (lookup_ge_None c _)), (proj2 (lookup_ge_None (c ++ bs) _)) by (rewrite ?length_app; unfold off in *; lia). done.
  - intros n. unfold V'. destruct (decide (n = a)) as [->|Hn]; [|by rewrite fn_lookup_insert_ne].
    rewrite fn_lookup_insert. apply blk_splice; [done|]. unfold off in *. dlia.
  - intros n Hn. unfold V'. rewrite fn_lookup_insert_ne; [by apply Wz|]. intros ->. apply (owned_bl bl ind), Wr in Hin. lia.
Qed.

(** *** Appending *)

(** The blocks that a file of [n] bytes needs. *)
Definition need (n : Z) : Z := (n + 1023) / 1024 + (if 11264 <? n then 1 else 0).
Definition tight (bl : list Z) (c : list byte) : Prop := Z.of_nat (length bl) = (Z.of_nat (length c) + 1023) / 1024.

Lemma need_mono n m : n <= m -> need n <= need m.
Proof. intros H. unfold need. destruct (Z.ltb_spec 11264 n), (Z.ltb_spec 11264 m); dlia. Qed.

Lemma owned_need V d c bl ind : fimg V d c bl ind -> tight bl c -> Z.of_nat (length (owned bl ind)) = need (Z.of_nat (length c)).
Proof.
  intros Hf Ht. unfold tight in Ht. unfold owned, need. pose proof (fm_noind _ _ _ _ _ Hf) as Hn.
  case_decide as Hi; destruct (Z.ltb_spec 11264 (Z.of_nat (length c))); cbn [length].
  - apply Hn in Hi. dlia.
  - lia.
  - lia.
  - destruct Hi. apply Hn. dlia.
Qed.

Lemma find_any V d c bl ind fi fb :
  fimg V d c bl ind -> wf V fb bl ind -> tight bl c -> fb + 2 <= FSSIZE -> Z.of_nat (length c) < 267 * 1024 ->
  let fbn := Z.of_nat (length c) / 1024 in
  exists V' d' bl' ind' fb' a, find_block fbn d (st V fi fb) = Ok (d', a) (st V' fi fb') /\ fb <= fb' <= fb + 2 /\
    fimg V' d' c bl' ind' /\ wf V' fb' bl' ind' /\ grown V fb d bl ind V' fb' d' bl' ind' /\
    bl' !! Z.to_nat fbn = Some a /\ Z.of_nat (length bl') = fbn + 1.
Proof.
  intros Hf Hw Ht Hfb Hc fbn. unfold tight in Ht. destruct (decide (Z.of_nat (length c) mod 1024 = 0)) as [Hm|Hm].
  - assert (fbn = Z.of_nat (length bl)) as Efbn by (unfold fbn; dlia).
    destruct (find_new V d c bl ind fi fb Hf Hw Hfb) as (V' & d' & ind' & fb' & a & E & Hr & Hf' & Hw' & Hg); [unfold fbn in *; dlia|].
    exists V', d', (bl ++ [a]), ind', fb', a. rewrite Efbn, Nat2Z.id, bl_end by done. split_and!; try done; try lia. rewrite length_app. cbn. lia.
  - destruct (lookup_lt_is_Some_2 bl (Z.to_nat fbn)) as [a Ha]; [unfold fbn; dlia|].
    exists V, d, bl, ind, fb, a. split_and!; try done; try lia.
    + apply (find_old V d c bl ind); try done; unfold fbn; dlia.
    + split; try done; [by left|lia].
    + unfold fbn. dlia.
Qed.

Lemma iappend_loop_ok fi fuel : forall p V d c bl ind fb,
  fimg V d c bl ind -> wf V fb bl ind -> tight bl c -> (length p < fuel)%nat ->
  let n := Z.of_nat (length c) in let m := n + Z.of_nat (length p) in
  m <= 267 * 1024 -> fb + (need m - need n) + 2 <= FSSIZE ->
  exists V' d' bl' ind' fb', iappend_loop fuel d n p (st V fi fb) = Ok (d', m) (st V' fi fb') /\ fb <= fb' /\
    fimg V' d' (c ++ p) bl' ind' /\ wf V' fb' bl' ind' /\ tight bl' (c ++ p) /\ grown V fb d bl ind V' fb' d' bl' ind'.
Proof.
  induction fuel as [|fuel IH]; intros p V d c bl ind fb Hf Hw Ht Hlen n m Hm Hfb; [lia|]. cbn [iappend_loop].
  destruct (Z.ltb_spec 0 (Z.of_nat (length p))) as [Hp|Hp]; cbn [negb].
  2:{ destruct p; [|cbn in Hp; lia]. exists V, d, bl, ind, fb. rewrite app_nil_r. unfold m. cbn [length]. rewrite Z.add_0_r.
      split_and!; try done; split; try done; [by left|lia]. }
  pose proof (need_mono n m ltac:(lia)) as Hnm. change BSIZE with 1024.
  destruct (find_any V d c bl ind fi fb Hf Hw Ht) as (V1 & d1 & bl1 & ind1 & fb1 & a & E & Hr & Hf1 & Hw1 & Hg1 & Ha & Hl1); [lia|lia|].
  fold n in E, Ha, Hl1. unfold assert. rewrite (proj2 (Z.ltb_lt (n / 1024) MAXFILE)) by (unfold MAXFILE; change NINDIRECT with 256; unfold NDIRECT, ND_INDIRECT; change NINDIRECT with 256; dlia).
  run1. run E. set (n1 := Z.min _ _). assert (1 <= n1 <= Z.of_nat (length p) /\ n mod 1024 + n1 <= 1024) as [Hn1 Hn2] by (unfold n1; dlia).
  assert (0 <= a < FSSIZE) as Har by (assert (a ∈ bl1) as Hin by (by eapply list_elem_of_lookup_2); apply (owned_bl bl1 ind1), (wf_range _ _ _ _ Hw1) in Hin; lia).
  run (rsect_ok a V1 fi fb1 Har). run (wsect_ok a (splice (V1 a) (Z.to_nat (n - n / 1024 * 1024)) (take (Z.to_nat n1) p)) V1 fi fb1 Har).
  replace (n - n / 1024 * 1024) with (n mod 1024) by dlia.
  destruct (fimg_write V1 d1 c bl1 ind1 fb1 a (take (Z.to_nat n1) p) Hf1 Hw1 Ha) as [Hf2 Hw2]; [rewrite length_take; fold n; lia|].
  fold n in Hf2, Hw2. set (V2 := <[a := _]> V1) in *. set (c2 := c ++ take (Z.to_nat n1) p) in *.
  assert (Z.of_nat (length c2) = n + n1) as Hc2 by (unfold c2; rewrite length_app, length_take; unfold n; lia).
  assert (tight bl1 c2) as Ht2 by (unfold tight; rewrite Hc2, Hl1; dlia).
  assert (grown V fb d bl ind V2 fb1 d1 bl1 ind1) as Hg2.
  { destruct Hg1 as [G1 G2 G3 G4]. split; try done. intros k Hk Ho. unfold V2. rewrite fn_lookup_insert_ne; [by apply G2|]. intros Ek. subst k.
    destruct (G3 a) as [?|?]; [|done|lia]. apply owned_bl. by eapply list_elem_of_lookup_2. }
  pose proof (gw_count _ _ _ _ _ _ _ _ _ _ Hg2) as Hcnt. rewrite (owned_need _ _ _ _ _ Hf2 Ht2), (owned_need _ _ _ _ _ Hf Ht), Hc2 in Hcnt.
  rewrite (u32_small (n + n1)) by lia. rewrite <- Hc2.
  destruct (IH (drop (Z.to_nat n1) p) V2 d1 c2 bl1 ind1 fb1 Hf2 Hw2 Ht2) as (V' & d' & bl' & ind' & fb' & E' & Hr' & Hf' & Hw' & Ht' & Hg');
    [rewrite length_drop; lia|rewrite Hc2, length_drop; lia|..].
  { rewrite Hc2, length_drop. fold n in Hcnt. replace (n + n1 + Z.of_nat (length p - Z.to_nat n1)) with m by lia. lia. }
  assert (c2 ++ drop (Z.to_nat n1) p = c ++ p) as Ec by (unfold c2; by rewrite <- app_assoc, take_drop). rewrite Ec in *.
  exists V', d', bl', ind', fb'. split_and!; try done; [|lia|].
  - rewrite E'. do 2 f_equal. rewrite Hc2, length_drop. lia.
  - eapply mk_grown_trans; [|exact Hg2|exact Hg']. lia.
Qed.
End image.
