(* ===== verification/MkfsInv.v ===== *)
(** * The image while it is built

    The image holds a list of files, the one with inode number [k + 1] at place
    [k]; [img] gives their types and contents, and how many blocks are in use. *)

From S2P Require Import Prelude CString Bio Log LogSpec FsLayout TxnLayer Fs FsAlloc FsMap FsInode FsRw User Mkfs MkfsSpec.
Import Host.

(** The type and the contents of a file. *)
Abbreviation content := (Z * list byte)%type.

Record hfile := mkHf { hf_type : Z; hf_data : list byte; hf_bl : list Z; hf_ind : Z }.
Definition hf_owned (f : hfile) : list Z := owned (hf_bl f) (hf_ind f).

Definition inum_of (k : nat) : Z := Z.of_nat k + 1.

Record file_at (V : view) (k : nat) (f : hfile) : Prop := {
  fa_img : fimg V (inode_at sbm V (inum_of k)) (hf_data f) (hf_bl f) (hf_ind f);
  fa_rest : rest (inode_at sbm V (inum_of k)) = (hf_type f, 0, 0, 1, Z.of_nat (length (hf_data f)));
  fa_tight : tight (hf_bl f) (hf_data f)
}.

(** The blocks below the data, other than those of the inodes. *)
Definition meta (n : Z) : block := if decide (n = 1) then sb_bytes sbm else zero_block.

Record ginv (V : view) (fi fb : Z) (fs : list hfile) : Prop := {
  gi_blk : forall n, blk (V n);
  gi_fi : fi = inum_of (length fs);
  gi_max : fi <= NINODES;
  gi_fb : 57 <= fb;
  gi_zero : forall n, fb <= n -> V n = zero_block;
  gi_meta : forall n, n < 32 \/ 45 <= n < 57 -> V n = meta n;
  gi_file : forall k f, fs !! k = Some f -> file_at V k f;
  gi_free : forall i, i = 0 \/ fi <= i < NINODES -> dn_type (inode_at sbm V i) = 0;
  gi_range : forall k f a, fs !! k = Some f -> a ∈ hf_owned f -> 57 <= a < fb;
  gi_nodup : forall k f, fs !! k = Some f -> NoDup (hf_owned f);
  gi_disj : forall k k' f f' a, fs !! k = Some f -> fs !! k' = Some f' -> a ∈ hf_owned f -> a ∈ hf_owned f' -> k = k'
}.

Lemma put_inode_other i d V n : 0 <= i < NINODES -> ~ (32 <= n < 45) -> put_inode sbm i d V n = V n.
Proof. intros Hi Hn. unfold put_inode. destruct (iblock_range i Hi) as [_ Hr]. apply fn_lookup_insert_ne. lia. Qed.

Lemma put_inode_blk i d V : 0 <= i < NINODES -> length (dn_addrs d) = naddrs -> (forall n, blk (V n)) -> forall n, blk (put_inode sbm i d V n).
Proof.
  intros Hi Hd HV n. unfold put_inode. destruct (decide (IBLOCK i sbm = n)) as [<-|Hn]; [|by rewrite fn_lookup_insert_ne].
  rewrite fn_lookup_insert. apply blk_dinode_put; [done| |done]. change IPB with 16. dlia.
Qed.

Lemma inum_range k n fi : fi = inum_of n -> (k < n)%nat -> fi <= NINODES -> 0 <= inum_of k < NINODES.
Proof. unfold inum_of. intros -> Hk Hm. lia. Qed.

(** A file whose inode and blocks stay as they are. *)
Lemma file_at_ext V V' k f :
  file_at V k f -> inode_at sbm V' (inum_of k) = inode_at sbm V (inum_of k) -> (forall a, a ∈ hf_owned f -> V' a = V a) -> file_at V' k f.
Proof. intros [H1 H2 H3] Hi He. split; rewrite ?Hi; try done. by apply (fimg_ext V). Qed.

(** ** A new inode *)

Lemma new_inode_ok type : 0 <= type < 2 ^ 15 -> dinode_ok (new_inode type).
Proof. intros Ht. split; cbn [new_inode dn_type dn_major dn_minor dn_nlink dn_size dn_addrs]; try lia; [done|]. by apply Forall_replicate. Qed.

Lemma fimg_new V type : fimg V (new_inode type) [] [] 0.
Proof.
  split; try done.
  - intros j Hj. unfold new_inode. cbn [dn_addrs]. rewrite lookup_replicate_2 by (unfold naddrs; lia). by rewrite lookup_nil.
  - cbn. lia.
  - cbn. lia.
  - cbn [length]. intros o Ho. lia.
Qed.

Lemma ginv_ialloc V fi fb fs type :
  ginv V fi fb fs -> fi < NINODES -> 0 <= type < 2 ^ 15 ->
  ginv (put_inode sbm fi (new_inode type) V) (fi + 1) fb (fs ++ [mkHf type [] [] 0]).
Proof.
  intros [G1 G2 G3 G4 G5 G6 G7 G8 G9 G10 G11] Hfi Ht. assert (0 <= fi < NINODES) as Hr by (unfold inum_of in G2; lia).
  set (f0 := mkHf type [] [] 0). set (V' := put_inode sbm fi (new_inode type) V).
  assert (forall i, 0 <= i < NINODES -> inode_at sbm V' i = if decide (i = fi) then new_inode type else inode_at sbm V i) as Hat.
  { intros i Hi. apply inode_at_put; try done. by apply new_inode_ok. }
  assert (forall n, ~ (32 <= n < 45) -> V' n = V n) as Ho by (intros n Hn; by apply put_inode_other).
  assert (forall k f, (fs ++ [f0]) !! k = Some f -> fs !! k = Some f \/ k = length fs /\ f = f0) as Hsplit.
  { intros k f [H|[Hk H]]%lookup_app_Some; [by left|right]. apply list_lookup_singleton_Some in H as [? <-]. split; [lia|done]. }
  split.
  - by apply put_inode_blk.
  - rewrite length_app. unfold inum_of in *. cbn. lia.
  - lia.
  - done.
  - intros n Hn. rewrite Ho by lia. by apply G5.
  - intros n Hn. rewrite Ho by lia. by apply G6.
  - intros k f [Hk|[-> ->]]%Hsplit.
    + pose proof (lookup_lt_Some _ _ _ Hk) as Hlt. apply (file_at_ext V); [by apply G7| |].
      * rewrite Hat by (by apply (inum_range k _ fi G2)). apply decide_False. unfold inum_of in *. lia.
      * intros a Ha. apply Ho. pose proof (G9 k f a Hk Ha). lia.
    + assert (inode_at sbm V' (inum_of (length fs)) = new_inode type) as E by (rewrite <- G2, (Hat fi Hr); by apply decide_True).
      split; rewrite ?E; [apply fimg_new|done|done].
  - intros i Hi. rewrite Hat by (unfold NINODES in *; lia). rewrite decide_False by (unfold inum_of in G2; lia). apply G8. lia.
  - intros k f a [Hk|[_ ->]]%Hsplit; [by eapply G9|]. by intros []%not_elem_of_nil.
  - intros k f [Hk|[_ ->]]%Hsplit; [by eapply G10|apply NoDup_nil_2].
  - intros k k' f f' a [Hk|[_ ->]]%Hsplit [Hk'|[_ ->]]%Hsplit Ha Ha'; [by eapply G11| | |];
      try (by apply not_elem_of_nil in Ha); by apply not_elem_of_nil in Ha'.
Qed.

(** ** Appending to a file *)

Lemma fimg_dinode_ok V d c bl ind fb ty sz :
  fimg V d c bl ind -> (forall a, a ∈ owned bl ind -> 57 <= a < fb) -> fb <= FSSIZE -> 0 <= ty < 2 ^ 15 -> 0 <= sz < 2 ^ 32 ->
  rest d = (ty, 0, 0, 1, sz) -> dinode_ok d.
Proof.
  intros Hf Hr Hfb Ht Hs E. unfold rest in E. injection E as E1 E2 E3 E4 E5. unfold FSSIZE in Hfb.
  split; rewrite ?E1, ?E2, ?E3, ?E4, ?E5; try lia; [apply Hf|]. apply Forall_lookup. intros j a Hj.
  pose proof (lookup_lt_Some _ _ _ Hj) as Hlt. rewrite (fm_len _ _ _ _ _ Hf) in Hlt. unfold naddrs in Hlt.
  destruct (decide (j < 11)%nat) as [H|H].
  - rewrite (fm_dir _ _ _ _ _ Hf) in Hj by done. injection Hj as <-. destruct (bl !! j) as [b|] eqn:Eb; cbn; [|lia].
    assert (b ∈ bl) as Hb%(owned_bl bl ind)%Hr by (by eapply list_elem_of_lookup_2). lia.
  - destruct (decide (j = 11%nat)) as [->|].
    + rewrite (fm_ind _ _ _ _ _ Hf) in Hj. injection Hj as <-. destruct (decide (ind = 0)) as [->|Hi]; [lia|]. apply owned_ind with (bl := bl), Hr in Hi. lia.
    + replace j with 12%nat in Hj by lia. rewrite (fm_dbl _ _ _ _ _ Hf) in Hj. injection Hj as <-. lia.
Qed.

(** The size is not part of how a file is laid out. *)
Lemma fimg_size V d c bl ind n : fimg V d c bl ind -> fimg V (set_size n d) c bl ind.
Proof. by intros []. Qed.

Section build.
Context (files : list (list byte * stream)).
Abbreviation st := (st files).

Lemma ginv_wf V fi fb fs k f : ginv V fi fb fs -> fs !! k = Some f -> wf V fb (hf_bl f) (hf_ind f).
Proof.
  intros G Hk. split; [apply (gi_blk _ _ _ _ G)|apply (gi_zero _ _ _ _ G)|apply (gi_fb _ _ _ _ G)|by eapply (gi_nodup _ _ _ _ G)|].
  intros a. by eapply (gi_range _ _ _ _ G).
Qed.

(** The rest of the image when file [k] grows. *)
Lemma ginv_grown V fi fb fs k f V1 fb1 d1 bl1 ind1 c1 :
  ginv V fi fb fs -> fs !! k = Some f -> fb <= fb1 <= FSSIZE -> 0 <= hf_type f < 2 ^ 15 -> Z.of_nat (length c1) < 2 ^ 32 ->
  fimg V1 d1 c1 bl1 ind1 -> wf V1 fb1 bl1 ind1 -> tight bl1 c1 ->
  grown V fb (inode_at sbm V (inum_of k)) (hf_bl f) (hf_ind f) V1 fb1 d1 bl1 ind1 ->
  ginv (put_inode sbm (inum_of k) (set_size (Z.of_nat (length c1)) d1) V1) fi fb1 (<[k := mkHf (hf_type f) c1 bl1 ind1]> fs).
Proof.
  intros G Hk Hfb Hty Hc Hf1 [W1 W2 W3 W4 W5] Ht1 [R1 R2 R3 _]. pose proof G as [G1 G2 G3 G4 G5 G6 G7 G8 G9 G10 G11].
  set (f1 := mkHf (hf_type f) c1 bl1 ind1). set (d2 := set_size _ d1). set (V2 := put_inode _ _ d2 V1).
  pose proof (lookup_lt_Some _ _ _ Hk) as Hlt. pose proof (inum_range k _ fi G2 Hlt G3) as Hi.
  assert (rest d2 = (hf_type f, 0, 0, 1, Z.of_nat (length c1))) as Hr2.
  { pose proof (fa_rest _ _ _ (G7 k f Hk)) as E. rewrite <- R1 in E. unfold rest in *. unfold d2, set_size. cbn. congruence. }
  assert (dinode_ok d2) as Hd2 by (eapply (fimg_dinode_ok V1 d2 c1 bl1 ind1 fb1); [by apply fimg_size|done|lia|done| |done]; lia).
  assert (forall n, n < 57 -> V1 n = V n) as Hlow by (intros n Hn; apply R2; [lia|]; intros Ha%(G9 k f n Hk); lia).
  assert (forall i, 0 <= i < NINODES -> inode_at sbm V1 i = inode_at sbm V i) as Hat1.
  { intros i Hi'. unfold inode_at. destruct (iblock_range i Hi') as [_ ?]. by rewrite Hlow by lia. }
  assert (forall i, 0 <= i < NINODES -> inode_at sbm V2 i = if decide (i = inum_of k) then d2 else inode_at sbm V i) as Hat.
  { intros i Hi'. rewrite <- Hat1 by done. by apply inode_at_put. }
  assert (forall n, ~ (32 <= n < 45) -> V2 n = V1 n) as Ho by (intros n Hn; by apply put_inode_other).
  assert (forall k' f', <[k := f1]> fs !! k' = Some f' -> k' = k /\ f' = f1 \/ k' <> k /\ fs !! k' = Some f') as Hsplit.
  { intros k' f' [(<- & <- & _)|[? ?]]%list_lookup_insert_Some; [by left|by right]. }
  assert (forall k' f' a, k' <> k -> fs !! k' = Some f' -> a ∈ hf_owned f' -> a ∉ owned (hf_bl f) (hf_ind f)) as Hother.
  { intros k' f' a Hne Hk' Ha Ha'. apply Hne. by eapply (G11 k' k). }
  split.
  - by apply put_inode_blk; [done|apply Hd2|].
  - by rewrite length_insert.
  - done.
  - lia.
  - intros n Hn. rewrite Ho by lia. by apply W2.
  - intros n Hn. rewrite Ho, Hlow by lia. by apply G6.
  - intros k' f' [[-> ->]|[Hne Hk']]%Hsplit.
    + assert (inode_at sbm V2 (inum_of k) = d2) as E by (rewrite Hat by done; by apply decide_True).
      split; rewrite ?E; cbn [hf_data hf_bl hf_ind hf_type f1]; try done.
      apply (fimg_ext V1); [by apply fimg_size|]. intros a Ha%W5. apply Ho. lia.
    + apply (file_at_ext V); [by apply G7| |].
      * rewrite Hat by (apply (inum_range k' _ fi G2); [by eapply lookup_lt_Some|done]). apply decide_False. unfold inum_of. lia.
      * intros a Ha. pose proof (G9 k' f' a Hk' Ha). rewrite Ho by lia. apply R2; [lia|]. by eapply Hother.
  - intros i Hi'. rewrite Hat by (unfold inum_of, NINODES in *; lia). rewrite decide_False; [by apply G8|].
    unfold inum_of in *. lia.
  - intros k' f' a [[-> ->]|[Hne Hk']]%Hsplit Ha; [by apply W5|]. pose proof (G9 k' f' a Hk' Ha). lia.
  - intros k' f' [[-> ->]|[Hne Hk']]%Hsplit; [done|by eapply G10].
  - intros k1 k2 g1 g2 a [[-> ->]|[N1 H1]]%Hsplit [[-> ->]|[N2 H2]]%Hsplit Ha1 Ha2; [done| | |by eapply G11].
    + exfalso. apply R3 in Ha1 as [Ha1|Ha1]; [by eapply Hother|]. pose proof (G9 k2 g2 a H2 Ha2). lia.
    + exfalso. apply R3 in Ha2 as [Ha2|Ha2]; [by eapply Hother|]. pose proof (G9 k1 g1 a H1 Ha1). lia.
Qed.

(** ** The image by its contents *)

Definition proj (f : hfile) : content := (hf_type f, hf_data f).

Fixpoint total (ps : list content) : Z :=
  match ps with [] => 0 | x :: ps => need (Z.of_nat (length x.2)) + total ps end.

Lemma total_app ps qs : total (ps ++ qs) = total ps + total qs.
Proof. induction ps as [|x ps IH]; cbn [app total]; [done|]. rewrite IH. lia. Qed.

Lemma total_insert ps k x y :
  ps !! k = Some x -> total (<[k := y]> ps) = total ps - need (Z.of_nat (length x.2)) + need (Z.of_nat (length y.2)).
Proof.
  revert k. induction ps as [|z ps IH]; intros [|k] Hk; try done.
  - injection Hk as ->. cbn. lia.
  - change (<[S k := y]> (z :: ps)) with (z :: <[k := y]> ps). cbn [total]. rewrite (IH k Hk). lia.
Qed.

Lemma need_pos n : 0 <= n -> 0 <= need n.
Proof. intros H. unfold need. destruct (11264 <? n); dlia. Qed.
Lemma total_pos ps : 0 <= total ps.
Proof. induction ps as [|x ps IH]; cbn [total]; [lia|]. pose proof (need_pos (Z.of_nat (length x.2)) ltac:(lia)). lia. Qed.

Definition img (V : view) (ps : list content) : Prop :=
  exists fs, ginv V (inum_of (length ps)) (57 + total ps) fs /\ proj <$> fs = ps.
(** The state of the program then. *)
Definition stp (V : view) (ps : list content) : mkst := st V (inum_of (length ps)) (57 + total ps).

Lemma ialloc_img V ps type :
  img V ps -> inum_of (length ps) < NINODES -> 0 <= type < 2 ^ 15 ->
  exists V', Host.ialloc type (stp V ps) = Ok (inum_of (length ps)) (stp V' (ps ++ [(type, [])])) /\ img V' (ps ++ [(type, [])]).
Proof.
  intros (fs & G & Hp) Hn Ht. assert (0 <= inum_of (length ps) < NINODES) as Hr by (unfold inum_of in *; lia).
  eexists. unfold stp, img. rewrite total_app, length_app. cbn [length total snd]. change (need (Z.of_nat 0)) with 0.
  replace (inum_of (length ps + 1)) with (inum_of (length ps) + 1) by (unfold inum_of; lia).
  replace (total ps + (0 + 0)) with (total ps) by lia.
  split; [by apply ialloc_ok|]. exists (fs ++ [mkHf type [] [] 0]). split; [by apply ginv_ialloc|]. by rewrite fmap_app, Hp.
Qed.

Lemma iappend_img V ps k ty c p :
  img V ps -> ps !! k = Some (ty, c) -> 0 <= ty < 2 ^ 15 -> Z.of_nat (length (c ++ p)) <= 267 * 1024 ->
  let ps' := <[k := (ty, c ++ p)]> ps in 57 + total ps' + 2 <= FSSIZE ->
  exists V', iappend (inum_of k) p (stp V ps) = Ok tt (stp V' ps') /\ img V' ps'.
Proof.
  intros (fs & G & Hp) Hk Ht Hl ps' Hfb. rewrite <- Hp, list_lookup_fmap in Hk. destruct (fs !! k) as [f|] eqn:Ek; [|done].
  injection Hk as <- <-. pose proof (gi_file _ _ _ _ G k f Ek) as [F1 F2 F3].
  pose proof (lookup_lt_Some _ _ _ Ek) as Hlt. pose proof (inum_range k _ _ (gi_fi _ _ _ _ G) Hlt (gi_max _ _ _ _ G)) as Hi.
  assert (ps !! k = Some (proj f)) as Hpk by (rewrite <- Hp, list_lookup_fmap, Ek; done).
  assert (57 + total ps' = 57 + total ps - need (Z.of_nat (length (hf_data f))) + need (Z.of_nat (length (hf_data f ++ p)))) as Htot
    by (unfold ps'; rewrite (total_insert _ _ _ _ Hpk); cbn [proj snd]; lia).
  rewrite length_app, Nat2Z.inj_add in *.
  destruct (iappend_loop_ok files (inum_of (length ps)) (S (length p)) p V (inode_at sbm V (inum_of k)) (hf_data f) (hf_bl f) (hf_ind f) (57 + total ps))
    as (V1 & d1 & bl1 & ind1 & fb1 & E & Hr & Hf1 & Hw1 & Ht1 & Hg); [done|by eapply ginv_wf|done|lia|lia|lia|].
  pose proof (gw_count _ _ _ _ _ _ _ _ _ _ Hg) as Hc. rewrite (owned_need _ _ _ _ _ Hf1 Ht1), (owned_need _ _ _ _ _ F1 F3), length_app, Nat2Z.inj_add in Hc.
  assert (fb1 = 57 + total ps') as -> by lia.
  assert (length ps' = length ps) as Hlen by (unfold ps'; apply length_insert).
  exists (put_inode sbm (inum_of k) (set_size (Z.of_nat (length (hf_data f ++ p))) d1) V1). unfold stp. rewrite Hlen. split.
  - unfold iappend. run (rinode_ok files (inum_of k) V (inum_of (length ps)) (57 + total ps) Hi).
    rewrite (f_equal snd F2 : dn_size (inode_at sbm V (inum_of k)) = _). cbn [snd]. rewrite xint_id by lia. run E. rewrite xint_id by lia.
    rewrite length_app, Nat2Z.inj_add. by apply winode_ok.
  - exists (<[k := mkHf (hf_type f) (hf_data f ++ p) bl1 ind1]> fs). rewrite Hlen. split.
    + eapply ginv_grown; try done; [lia|]. rewrite length_app. lia.
    + unfold ps'. rewrite list_fmap_insert, Hp. done.
Qed.

Lemma total_grow ps k x y : ps !! k = Some x -> (length x.2 <= length y.2)%nat -> total ps <= total (<[k := y]> ps).
Proof. intros Hk Hl. rewrite (total_insert _ _ _ _ Hk). pose proof (need_mono (Z.of_nat (length x.2)) (Z.of_nat (length y.2)) ltac:(lia)). lia. Qed.

Lemma copy_in_img fuel : forall fd V ps k ty c,
  img V ps -> ps !! k = Some (ty, c) -> 0 <= ty < 2 ^ 15 -> healthy fd -> (length (s_data fd) < fuel)%nat ->
  let ps' := <[k := (ty, c ++ s_data fd)]> ps in
  Z.of_nat (length (c ++ s_data fd)) <= 267 * 1024 -> 57 + total ps' + 2 <= FSSIZE ->
  exists V', copy_in fuel (inum_of k) fd (stp V ps) = Ok tt (stp V' ps') /\ img V' ps'.
Proof.
  induction fuel as [|fuel IH]; intros fd V ps k ty c Hi Hk Hty Hh Hf ps' Hl Hfb; [lia|]. cbn [copy_in].
  destruct (stream_read_ok (Z.to_nat BSIZE) fd Hh) as (bs & fd' & E & Hd & Hh' & _ & Hnil); [unfold BSIZE; lia|]. rewrite E.
  destruct bs as [|b bs].
  { exists V. unfold ps'. rewrite (proj1 Hnil eq_refl), app_nil_r, list_insert_id by done. done. }
  unfold ps' in *. rewrite Hd in *. rewrite app_assoc in *. set (c1 := c ++ b :: bs) in *.
  pose proof (lookup_lt_Some _ _ _ Hk) as Hlt. set (ps1 := <[k := (ty, c1)]> ps).
  assert (ps1 !! k = Some (ty, c1)) as Hk1 by by apply list_lookup_insert_eq.
  assert (<[k := (ty, c1 ++ s_data fd')]> ps1 = <[k := (ty, c1 ++ s_data fd')]> ps) as E1 by (unfold ps1; by rewrite list_insert_insert_eq).
  assert (total ps1 <= total (<[k := (ty, c1 ++ s_data fd')]> ps)) as Htot.
  { rewrite <- E1. apply (total_grow ps1 k _ _ Hk1). cbn [snd]. rewrite length_app. lia. }
  destruct (iappend_img V ps k ty c (b :: bs) Hi Hk Hty) as (V1 & Ea & Hi1); [fold c1; rewrite length_app in Hl; lia|fold c1 ps1; lia|].
  fold c1 ps1 in Ea, Hi1. run Ea.
  destruct (IH fd' V1 ps1 k ty c1 Hi1 Hk1 Hty Hh') as (V' & Ec & Hi'); [rewrite length_app in Hf; cbn in Hf; lia|done|by rewrite E1|].
  rewrite E1 in *. by exists V'.
Qed.

(** ** Files of the host *)

(** The name a file gets in the root directory. *)
Definition shortname (path : list byte) : list byte :=
  match basename path with c :: l => if bool_decide (c = underscore) then l else basename path | [] => [] end.

(** A file that can be added: its name and its contents. *)
Definition host_file (path : list byte) (e : list byte * list byte) : Prop :=
  slash ∉ basename path /\ Z.of_nat (length e.2) <= 267 * 1024 /\
  exists i q fd, list_find (fun f => f.1 = path) files = Some (i, (q, fd)) /\ healthy fd /\ e = (shortname path, s_data fd).

Lemma length_de_of i name : length (de_of i name) = 16%nat.
Proof. unfold de_of, dirent_bytes. cbn [de_inum de_name]. by rewrite length_app, length_le_enc, length_name_field. Qed.

Lemma add_file_img V ps c0 path e :
  img V ps -> ps !! 0%nat = Some (T_DIR, c0) -> host_file path e -> inum_of (length ps) < NINODES ->
  Z.of_nat (length c0) + 16 <= 267 * 1024 ->
  let ps' := <[0%nat := (T_DIR, c0 ++ de_of (inum_of (length ps)) e.1)]> ps ++ [(T_FILE, e.2)] in 57 + total ps' + 2 <= FSSIZE ->
  exists V', add_file ROOTINO path (stp V ps) = Ok tt (stp V' ps') /\ img V' ps'.
Proof.
  intros Hi H0 (Hs & Hl & i & q & fd & Hfind & Hh & ->) Hn Hc ps' Hfb. cbn [fst snd] in *. unfold add_file, assert.
  rewrite bool_decide_eq_false_2 by done. cbn [negb]. run1. run1. cbn [k_files stp MkfsSpec.st]. rewrite Hfind.
  pose proof (lookup_lt_Some _ _ _ H0) as Hlt.
  destruct (ialloc_img V ps T_FILE Hi Hn) as (V1 & E1 & Hi1); [done|]. run E1.
  set (c1 := c0 ++ de_of (inum_of (length ps)) (shortname path)) in *. set (ps1 := ps ++ [(T_FILE, [])]) in *.
  assert (ps1 !! 0%nat = Some (T_DIR, c0)) as H01 by (unfold ps1; by rewrite lookup_app_l).
  assert (<[0%nat := (T_DIR, c1)]> ps1 = <[0%nat := (T_DIR, c1)]> ps ++ [(T_FILE, [])]) as E01 by (unfold ps1; by rewrite insert_app_l).
  set (ps2 := <[0%nat := (T_DIR, c1)]> ps ++ [(T_FILE, [])]) in *.
  assert (total ps2 <= total ps') as Htot.
  { unfold ps2, ps'. rewrite !total_app. cbn [total snd length]. change (need (Z.of_nat 0)) with 0. pose proof (need_pos (Z.of_nat (length (s_data fd))) ltac:(lia)). lia. }
  destruct (iappend_img V1 ps1 0 T_DIR c0 (de_of (inum_of (length ps)) (shortname path)) Hi1 H01) as (V2 & E2 & Hi2);
    [done|rewrite length_app, length_de_of; lia|fold c1; rewrite E01; lia|].
  fold c1 in E2, Hi2. rewrite E01 in E2, Hi2. change (inum_of 0) with ROOTINO in E2. fold (shortname path). run E2.
  assert (ps2 !! length ps = Some (T_FILE, [])) as H2 by (unfold ps2; apply list_lookup_middle; by rewrite length_insert).
  assert (<[length ps := (T_FILE, [] ++ s_data fd)]> ps2 = ps') as E3.
  { unfold ps2, ps'. rewrite insert_app_r_alt by (rewrite length_insert; lia). rewrite length_insert, Nat.sub_diag. done. }
  destruct (copy_in_img (S (length (s_data fd))) fd V2 ps2 (length ps) T_FILE [] Hi2 H2) as (V' & E4 & Hi4); [done|done|lia|done|by rewrite E3|].
  rewrite E3 in E4, Hi4. by exists V'.
Qed.
End build.
