(* ===== verification/MkfsRun.v ===== *)
(** * A run of the image builder

    From an empty image to one that holds the files of the command line. *)

From S2P Require Import Prelude CString Bio Log LogSpec FsLayout TxnLayer Fs FsAlloc FsMap FsInode FsRw User Mkfs MkfsSpec MkfsInv.
Import Host.

(** The directory entries of the files from inode [k] on, and the whole image. *)
Fixpoint dirs (k : nat) (es : list (list byte * list byte)) : list byte :=
  match es with [] => [] | e :: es => de_of (inum_of k) e.1 ++ dirs (S k) es end.
Definition dots : list byte := de_of ROOTINO (bytes ".") ++ de_of ROOTINO (bytes "..").
Definition root_data (es : list (list byte * list byte)) : list byte := dots ++ dirs 1 es.
Definition root_files (es : list (list byte * list byte)) : list content :=
  (T_DIR, root_data es) :: ((fun e => (T_FILE, e.2)) <$> es).

Lemma dirs_app k es e : dirs k (es ++ [e]) = dirs k es ++ de_of (inum_of (k + length es)) e.1.
Proof.
  revert k. induction es as [|x es IH]; intros k; cbn [app dirs length].
  - by rewrite Nat.add_0_r, app_nil_r.
  - rewrite IH, <- app_assoc. do 4 f_equal. lia.
Qed.

Lemma length_dirs k es : length (dirs k es) = (16 * length es)%nat.
Proof. revert k. induction es as [|x es IH]; intros k; [done|]. cbn [dirs length]. rewrite length_app, length_de_of, IH. lia. Qed.

Lemma length_root_data es : length (root_data es) = (16 * (2 + length es))%nat.
Proof. unfold root_data, dots. rewrite !length_app, !length_de_of, length_dirs. lia. Qed.

Lemma length_root_files es : length (root_files es) = S (length es).
Proof. unfold root_files. cbn [length]. by rewrite length_fmap. Qed.

Lemma root_files_app es e :
  root_files (es ++ [e]) = <[0%nat := (T_DIR, root_data es ++ de_of (inum_of (length (root_files es))) e.1)]> (root_files es) ++ [(T_FILE, e.2)].
Proof.
  rewrite length_root_files. unfold root_files, root_data. rewrite dirs_app, fmap_app, app_assoc. done.
Qed.

Lemma total_root_mono es es' : total (root_files es) <= total (root_files (es ++ es')).
Proof.
  unfold root_files. rewrite fmap_app. cbn [total snd]. rewrite total_app, !length_root_data, length_app.
  pose proof (need_mono (Z.of_nat (16 * (2 + length es))) (Z.of_nat (16 * (2 + (length es + length es')))) ltac:(lia)).
  pose proof (total_pos ((fun e => (T_FILE, e.2)) <$> es')). lia.
Qed.

Section run.
Context (files : list (list byte * stream)).
Abbreviation st := (st files).
Abbreviation stp := (stp files).

Lemma add_files_ok paths : forall es done V,
  img V (root_files done) -> Forall2 (host_file files) paths es -> (length done + length es <= 198)%nat ->
  57 + total (root_files (done ++ es)) + 2 <= FSSIZE ->
  exists V', for_each paths (add_file ROOTINO) (stp V (root_files done)) = Ok tt (stp V' (root_files (done ++ es))) /\ img V' (root_files (done ++ es)).
Proof.
  induction paths as [|path paths IH]; intros es done V Hi HF Hn Hfb.
  { apply Forall2_nil_inv_l in HF as ->. rewrite app_nil_r in *. by exists V. }
  apply Forall2_cons_inv_l in HF as (e & es' & He & HF & ->). cbn [for_each length] in *.
  assert (root_files done !! 0%nat = Some (T_DIR, root_data done)) as H0 by done.
  replace (done ++ e :: es') with ((done ++ [e]) ++ es') in * by by rewrite <- app_assoc.
  pose proof (total_root_mono (done ++ [e]) es') as Htot.
  destruct (add_file_img files V (root_files done) (root_data done) path e Hi H0 He) as (V1 & E1 & Hi1).
  - rewrite length_root_files. unfold inum_of, NINODES. lia.
  - rewrite length_root_data. lia.
  - rewrite <- root_files_app. lia.
  - rewrite <- root_files_app in E1, Hi1. run E1. apply IH; try done. rewrite length_app. cbn. lia.
Qed.

(** ** The empty image *)

Definition raw (V : view) (len : Z) : mkst := mkMk V len sbm 1 57 files [].

Lemma zeroes_ok n : (n <= Z.to_nat FSSIZE)%nat ->
  exists V, for_each (seqZ 0 (Z.of_nat n)) (fun i => wsect i zero_block) (raw (fun _ => zero_block) 0) = Ok tt (raw V (Z.of_nat n)) /\
    forall k, V k = zero_block.
Proof.
  induction n as [|n IH]; intros Hn; [by exists (fun _ => zero_block)|]. destruct IH as (V & E & HV); [lia|].
  exists (<[Z.of_nat n := zero_block]> V). split.
  - rewrite Nat2Z.inj_succ, <- Z.add_1_r, seqZ_app by lia. rewrite for_each_app. run E. rewrite Z.add_0_l, (seqZ_cons _ 1), seqZ_nil by lia.
    cbn [for_each]. unfold wsect, access, bind, modify, raw, set_img, set_io. cbn -[FSSIZE Z.max].
    rewrite sector_id by (unfold FSSIZE in *; lia). unfold ret. do 2 f_equal. lia.
  - intros k. destruct (decide (k = Z.of_nat n)) as [->|Hk]; [by rewrite fn_lookup_insert|by rewrite fn_lookup_insert_ne].
Qed.

Lemma zero_inode k : (k < 16)%nat -> dn_type (dinode_get k zero_block) = 0.
Proof. intros Hk. do 16 (destruct k as [|k]; [reflexivity|]). lia. Qed.

Lemma img_nil V : (forall k, V k = zero_block) -> img (<[1 := sb_bytes sbm]> V) [].
Proof.
  intros HV. exists []. split; [|done]. change (57 + total []) with 57. change (inum_of (length [])) with 1.
  assert (forall n, n <> 1 -> <[1 := sb_bytes sbm]> V n = zero_block) as Ho by (intros n Hn; by rewrite fn_lookup_insert_ne).
  split; try done.
  - intros n. destruct (decide (n = 1)) as [->|Hn]; [rewrite fn_lookup_insert; apply blk_words; [done|cbn; lia]|by rewrite Ho].
  - intros n Hn. apply Ho. lia.
  - intros n Hn. unfold meta. case_decide as E; [subst; apply fn_lookup_insert|by apply Ho].
  - intros i Hi. unfold inode_at. destruct (iblock_range i) as [_ Hr]; [unfold NINODES in *; lia|]. rewrite Ho by lia. apply zero_inode.
    change IPB with 16. dlia.
Qed.

(** ** The bitmap *)

Definition marks (used : Z) : block := fold_left (fun buf i => bm_set i buf) (seqZ 0 used) zero_block.

Lemma bm_free_zero b : 0 <= b < 8192 -> bm_free b zero_block = true.
Proof.
  intros Hb. unfold bm_free, bm_byte, rd, slice, zero_block. rewrite drop_replicate, take_replicate. change (Z.to_nat BSIZE) with 1024%nat.
  replace (1 `min` (1024 - Z.to_nat (b / 8)))%nat with 1%nat by dlia. reflexivity.
Qed.

Lemma marks_ok n : (n <= Z.to_nat 8192)%nat ->
  blk (marks (Z.of_nat n)) /\ forall b, 0 <= b < 8192 -> bm_free b (marks (Z.of_nat n)) = negb (b <? Z.of_nat n).
Proof.
  induction n as [|n IH]; intros Hn.
  { split; [done|]. intros b Hb. rewrite (proj2 (Z.ltb_ge _ _)) by lia. by apply bm_free_zero. }
  destruct IH as [Hb Hf]; [lia|]. unfold marks in *. rewrite Nat2Z.inj_succ, <- Z.add_1_r, seqZ_app, fold_left_app by lia.
  rewrite Z.add_0_l, (seqZ_cons _ 1), seqZ_nil by lia. cbn [fold_left]. split; [apply blk_bm_set; [done|lia]|].
  intros b Hb'. rewrite bm_free_set by (done || lia). case_decide as E; [by rewrite (proj2 (Z.ltb_lt _ _)) by lia|]. rewrite Hf by done.
  f_equal. destruct (Z.ltb_spec b (Z.of_nat n)), (Z.ltb_spec b (Z.of_nat n + 1)); done || lia.
Qed.

(** ** The whole program *)

(** The size that the root directory is given, and the image at the end. *)
Definition root_size (es : list (list byte * list byte)) : Z := (16 * (2 + Z.of_nat (length es)) / 1024 + 1) * 1024.
Definition last_view (V : view) (es : list (list byte * list byte)) : view :=
  <[45 := marks (57 + total (root_files es))]> (put_inode sbm ROOTINO (set_size (root_size es) (inode_at sbm V ROOTINO)) V).

Lemma img_rest V ps k ty c :
  img V ps -> ps !! k = Some (ty, c) -> rest (inode_at sbm V (inum_of k)) = (ty, 0, 0, 1, Z.of_nat (length c)).
Proof.
  intros (fs & G & <-) Hk. rewrite list_lookup_fmap in Hk. destruct (fs !! k) as [f|] eqn:E; [|done]. injection Hk as <- <-.
  apply (gi_file _ _ _ _ G k f E).
Qed.

Lemma main_ok a0 a1 paths es s0 :
  k_io s0 = [] -> k_freeinode s0 = 1 -> k_files s0 = files ->
  Forall2 (host_file files) paths es -> (length es <= 198)%nat -> 57 + total (root_files es) < 8192 ->
  exists V, img V (root_files es) /\
    main (a0 :: a1 :: paths) s0 = Ok tt (st (last_view V es) (inum_of (S (length es))) (57 + total (root_files es))).
Proof.
  intros Hio Hfi Hfl HF Hn Hfb. destruct (zeroes_ok (Z.to_nat FSSIZE)) as (V0 & E0 & HV0); [apply Nat.le_refl|].
  rewrite Z2Nat.id in E0 by discriminate. revert E0. pose proof (img_nil V0 HV0) as Hi1. set (V1 := <[1 := _]> V0) in *.
  destruct (ialloc_img files V1 [] T_DIR Hi1) as (V2 & E2 & Hi2); [done|done|]. cbn [app] in E2, Hi2.
  destruct (iappend_img files V2 [(T_DIR, [])] 0 T_DIR [] (de_of ROOTINO (bytes ".")) Hi2) as (V3 & E3 & Hi3); [done|done|done|vm_compute; discriminate|].
  cbn [app] in E3, Hi3. change (<[0%nat := ?x]> [_]) with [x] in E3, Hi3.
  destruct (iappend_img files V3 _ 0 T_DIR (de_of ROOTINO (bytes ".")) (de_of ROOTINO (bytes "..")) Hi3) as (V4 & E4 & Hi4); [done|done|done|vm_compute; discriminate|].
  change (<[0%nat := ?x]> [_]) with [x] in E4, Hi4. fold dots in E4, Hi4.
  change [(T_DIR, dots)] with (root_files []) in E4, Hi4.
  destruct (add_files_ok paths es [] V4 Hi4 HF) as (V5 & E5 & Hi5); [cbn; lia|cbn [app]; unfold FSSIZE; lia|]. cbn [app] in E5, Hi5.
  intros E0. exists V5. split; [exact Hi5|]. destruct s0 as [W len sb fi fb fl io]. cbn [k_io k_freeinode k_files] in *. subst io fi fl.
  unfold main. run1. run1. run1. run1. cbv zeta.
  assert (mkSb FSMAGIC (xint FSSIZE) (xint nblocks) (xint NINODES) (xint nlog) (xint 2) (xint (2 + nlog)) (xint (2 + nlog + ninodeblocks)) = sbm) as -> by reflexivity.
  run1. run1. change (set_freeblock _ _) with (raw (fun _ => zero_block) 0). run E0. clear E0. change (raw V0 FSSIZE) with (st V0 1 57).
  run (wsect_ok files 1 (sb_bytes sbm) V0 1 57 ltac:(unfold FSSIZE; lia)). fold V1. change (st V1 1 57) with (stp V1 []). run E2.
  change (assert (inum_of (length []) =? ROOTINO)) with (assert true). run1. change (inum_of (length [])) with (inum_of 0). change ROOTINO with (inum_of 0) in *.
  run E3. run E4. run E5. unfold MkfsInv.stp. rewrite length_root_files. set (fi := inum_of (S (length es))). set (fb' := 57 + total (root_files es)) in *.
  run (rinode_ok files (inum_of 0) V5 fi fb' ltac:(done)).
  rewrite (f_equal snd (img_rest V5 (root_files es) 0 T_DIR (root_data es) Hi5 eq_refl) : dn_size (inode_at sbm V5 (inum_of 0)) = _).
  cbn [snd]. rewrite length_root_data. rewrite (xint_id (Z.of_nat _)) by lia. rewrite xint_id by (unfold BSIZE; dlia).
  run (winode_ok files (inum_of 0) (set_size ((Z.of_nat (16 * (2 + length es)) / BSIZE + 1) * BSIZE) (inode_at sbm V5 (inum_of 0))) V5 fi fb' ltac:(done)).
  run1. cbn [k_freeblock MkfsSpec.st]. unfold Host.balloc, assert. change (BSIZE * 8) with 8192. rewrite (proj2 (Z.ltb_lt _ _)) by lia. run1. run1.
  cbn [k_sb MkfsSpec.st sb_bmapstart sbm]. fold (marks fb').
  replace ((Z.of_nat (16 * (2 + length es)) / BSIZE + 1) * BSIZE) with (root_size es) by (unfold root_size, BSIZE; do 3 f_equal; lia).
  by apply wsect_ok.
Qed.
End run.
