(* ===== verification/MkfsClaims.v ===== *)
(** * The image that mkfs builds is a file system

    The kernel's view of the finished image: the invariant of the file-system
    theorems holds, and the files of the command line are in the root directory. *)

From S2P Require Import Prelude CString Bio Log LogSpec FsLayout TxnLayer Fs FsAlloc FsMap FsInode FsRw FsDir FsPath FsNamex User Mkfs MkfsSpec MkfsInv MkfsRun.
Import Host.

(** ** One file *)

Section file.
Context (V : view) (d : dinode) (c : list byte) (bl : list Z) (ind : Z).
Context (Hf : fimg V d c bl ind) (Hnd : NoDup (owned bl ind)) (Hnz : forall a, a ∈ owned bl ind -> 57 <= a).
Abbreviation x := (i_from_disk d inode0).

(** The address at a position. *)
Definition place (p : pos) : Z :=
  match p with
  | PDir i => default 0 (bl !! Z.to_nat i)
  | PInd => ind
  | PIndE j => default 0 (bl !! (11 + Z.to_nat j)%nat)
  | _ => 0
  end.

Lemma at_place p : pos_ok p -> at_pos V x p = place p.
Proof.
  assert (slot x NDIRECT = ind) as Hi by (unfold slot; change (Z.to_nat NDIRECT) with 11%nat; cbn [i_addrs i_from_disk]; by rewrite (fm_ind _ _ _ _ _ Hf)).
  assert (slot x (NDIRECT + 1) = 0) as H2 by (unfold slot; change (Z.to_nat (NDIRECT + 1)) with 12%nat; cbn [i_addrs i_from_disk]; by rewrite (fm_dbl _ _ _ _ _ Hf)).
  destruct p as [i| |j| |i|i j]; cbn [at_pos place pos_ok]; intros Hp; rewrite ?H2; try done.
  - unfold slot. cbn [i_addrs i_from_disk]. by rewrite (fm_dir _ _ _ _ _ Hf) by (unfold NDIRECT in Hp; lia).
  - rewrite Hi. unfold entry. destruct (Z.eqb_spec ind 0) as [E|E].
    + apply (fm_noind _ _ _ _ _ Hf) in E. by rewrite (proj2 (lookup_ge_None bl _)) by lia.
    + change NINDIRECT with 256 in Hp. replace j with (Z.of_nat (Z.to_nat j)) at 1 by lia. apply (fm_words _ _ _ _ _ Hf E). lia.
Qed.

Lemma bl_owned j a : bl !! j = Some a -> a ∈ owned bl ind.
Proof. intros H. apply owned_bl. by eapply list_elem_of_lookup_2. Qed.

Lemma place_owned p : place p <> 0 -> place p ∈ owned bl ind.
Proof.
  destruct p as [i| |j| |i|i j]; cbn [place]; try done.
  - destruct (bl !! Z.to_nat i) as [a|] eqn:E; cbn; [|done]. intros _. by eapply bl_owned.
  - by apply owned_ind.
  - destruct (bl !! (11 + Z.to_nat j)%nat) as [a|] eqn:E; cbn; [|done]. intros _. by eapply bl_owned.
Qed.

(** The place in the list of blocks, for the blocks that are not the indirect one. *)
Definition index (p : pos) : option nat :=
  match p with PDir i => Some (Z.to_nat i) | PIndE j => Some (11 + Z.to_nat j)%nat | _ => None end.

Lemma place_index p : place p <> 0 -> p = PInd \/ exists k, index p = Some k /\ bl !! k = Some (place p).
Proof.
  destruct p as [i| |j| |i|i j]; cbn [place index]; try done; intros H; [right|by left|right].
  - exists (Z.to_nat i). split; [done|]. destruct (bl !! Z.to_nat i); [done|]. by cbn in H.
  - exists (11 + Z.to_nat j)%nat. split; [done|]. destruct (bl !! (11 + Z.to_nat j)%nat); [done|]. by cbn in H.
Qed.

Lemma index_inj p q k : pos_ok p -> pos_ok q -> index p = Some k -> index q = Some k -> p = q.
Proof.
  destruct p as [i| |j| |i|i j], q as [i'| |j'| |i'|i' j']; cbn [index pos_ok]; try done; unfold NDIRECT; change NINDIRECT with 256;
    intros Hp Hq [= <-] [= E]; try lia; f_equal; lia.
Qed.

Lemma place_inj p q : pos_ok p -> pos_ok q -> place p <> 0 -> place p = place q -> p = q.
Proof.
  intros Hp Hq Hz E. destruct (owned_disjoint _ _ Hnd) as [Hb Hi].
  destruct (place_index p Hz) as [->|(k & Ik & Bk)], (place_index q ltac:(congruence)) as [->|(k' & Ik' & Bk')]; [done|..].
  - exfalso. cbn [place] in E, Hz. rewrite <- E in Bk'. apply (Hi Hz). by eapply list_elem_of_lookup_2.
  - exfalso. cbn [place] in E. rewrite E in Bk, Hz. apply (Hi Hz). by eapply list_elem_of_lookup_2.
  - rewrite E in Bk. pose proof (NoDup_lookup _ _ _ _ Hb Bk Bk') as <-. by eapply index_inj.
Qed.

Lemma place_of_block bn : 0 <= bn < 267 -> pos_ok (pos_of bn) /\ place (pos_of bn) = default 0 (bl !! Z.to_nat bn).
Proof.
  intros Hb. unfold pos_of, NDIRECT. change NINDIRECT with 256. destruct (Z.ltb_spec bn 11) as [H|H].
  - split; [cbn; unfold NDIRECT; lia|done].
  - rewrite (proj2 (Z.ltb_lt _ _)) by lia. cbn [pos_ok place]. change NINDIRECT with 256. split; [lia|]. do 2 f_equal. lia.
Qed.

Lemma at_block bn : 0 <= bn < 267 -> at_pos V x (pos_of bn) = default 0 (bl !! Z.to_nat bn).
Proof. intros Hb. destruct (place_of_block bn Hb) as [H1 H2]. by rewrite at_place. Qed.

Lemma file_byte o : 0 <= o < 1024 * Z.of_nat (length bl) -> fbyte V x o = default x00 (c !! Z.to_nat o).
Proof.
  intros Ho. pose proof (fm_max _ _ _ _ _ Hf) as Hm. destruct (fm_bytes _ _ _ _ _ Hf o Ho) as (a & Ha & Hv).
  unfold fbyte, BSIZE. rewrite at_block by dlia. rewrite Ha. cbn [default from_option id]. by rewrite Hv.
Qed.

Lemma file_data off n :
  0 <= off -> off + Z.of_nat n <= Z.of_nat (length c) -> fdata V x off n = slice (Z.to_nat off) n c.
Proof.
  intros Ho Hn. pose proof (fm_room _ _ _ _ _ Hf) as Hr. apply list_eq. intros i. unfold fdata. rewrite list_lookup_fmap.
  destruct (decide (i < n)%nat) as [Hi|Hi].
  - rewrite lookup_seq_lt, lookup_slice by done. cbn [fmap option_fmap option_map Nat.add]. rewrite file_byte by lia.
    replace (Z.to_nat (off + Z.of_nat i)) with (Z.to_nat off + i)%nat by lia.
    destruct (lookup_lt_is_Some_2 c (Z.to_nat off + i)) as [b ->]; [lia|done].
  - rewrite lookup_seq_ge by lia. symmetry. apply lookup_ge_None. unfold slice. rewrite length_take. lia.
Qed.

Lemma file_tail off n :
  Z.of_nat (length c) <= off -> off + Z.of_nat n <= 1024 * Z.of_nat (length bl) -> fdata V x off n = replicate n x00.
Proof.
  intros Ho Hn. apply list_eq. intros i. unfold fdata. rewrite list_lookup_fmap. destruct (decide (i < n)%nat) as [Hi|Hi].
  - rewrite lookup_seq_lt, lookup_replicate_2 by done. cbn [fmap option_fmap option_map Nat.add]. rewrite file_byte by lia.
    by rewrite (proj2 (lookup_ge_None c _)) by lia.
  - rewrite lookup_seq_ge by lia. symmetry. apply lookup_ge_None. rewrite length_replicate. lia.
Qed.

Lemma file_finv fb : (forall a, a ∈ owned bl ind -> 57 <= a < fb) -> fb <= 8192 ->
  (forall b, 0 <= b < FSSIZE -> used sbm V b = (b <? fb)) -> finv sbm V x.
Proof.
  intros Hr Hfb Hu. split.
  - apply Hf.
  - intros p Hp Hz. rewrite at_place in * by done. pose proof (Hr _ (place_owned p Hz)) as Ha. rewrite sbm_dstart. cbn [sb_size sbm].
    rewrite Hu by (unfold FSSIZE; lia). split; [unfold FSSIZE; lia|]. apply Z.ltb_lt. lia.
  - intros p q Hp Hq. rewrite !at_place by done. by apply place_inj.
Qed.
End file.

(** A file that fills the direct and the indirect blocks cannot grow: the assertion
    on the number of the block holds, and the index is past the array of indirect blocks. *)
Lemma iappend_overrun files V d c bl ind fi fb fuel b p :
  fimg V d c bl ind -> length bl = 267%nat -> 57 <= ind < FSSIZE ->
  iappend_loop (S fuel) d (267 * BSIZE) (b :: p) (st files V fi fb) = Undef.
Proof.
  intros Hf Hl Hi. cbn [iappend_loop]. change (267 * BSIZE / BSIZE) with 267. rewrite (proj2 (Z.ltb_lt 0 _)) by (cbn [length]; lia). cbn [negb].
  assert (addr d NDIRECT = ind) as Ha by (unfold addr; change (Z.to_nat NDIRECT) with 11%nat; by rewrite (fm_ind _ _ _ _ _ Hf)).
  assert (fill_addr NDIRECT d (st files V fi fb) = Ok d (st files V fi fb)) as Ef.
  { unfold fill_addr. rewrite Ha, xint_id by (unfold FSSIZE in Hi; lia). by rewrite (proj2 (Z.eqb_neq _ _)) by lia. }
  assert (find_block 267 d (st files V fi fb) = Undef) as E.
  { unfold find_block. change (267 <? NDIRECT) with false. cbv iota. run Ef. rewrite Ha, xint_id by (unfold FSSIZE in Hi; lia).
    run (rsect_ok files ind V fi fb ltac:(lia)). reflexivity. }
  run1. unfold bind at 1. by rewrite E.
Qed.

(** ** The entries of the root directory *)

Fixpoint names (k : nat) (es : list (list byte * list byte)) : list (Z * list byte) :=
  match es with [] => [] | e :: es => (inum_of k, e.1) :: names (S k) es end.
Definition entries (es : list (list byte * list byte)) : list (Z * list byte) :=
  (ROOTINO, bytes ".") :: (ROOTINO, bytes "..") :: names 1 es.
Definition encode (ns : list (Z * list byte)) : list byte := mjoin ((fun q => de_of q.1 q.2) <$> ns).

Lemma dirs_encode k es : dirs k es = encode (names k es).
Proof. revert k. induction es as [|e es IH]; intros k; [done|]. cbn [dirs names]. by rewrite IH. Qed.

Lemma root_encode es : root_data es = encode (entries es).
Proof. unfold root_data, dots. rewrite dirs_encode, <- app_assoc. reflexivity. Qed.

Lemma names_lookup es : forall k j, names k es !! j = (fun e => (inum_of (k + j), e.1)) <$> es !! j.
Proof.
  induction es as [|e es IH]; intros k j; [done|]. destruct j as [|j]; cbn [names].
  - cbn. by rewrite Nat.add_0_r.
  - change (names (S k) es !! j = (fun e => (inum_of (k + S j), e.1)) <$> es !! j). rewrite IH. by replace (S k + j)%nat with (k + S j)%nat by lia.
Qed.

Lemma encode_slice ns : forall j q, ns !! j = Some q -> slice (16 * j) 16 (encode ns) = de_of q.1 q.2.
Proof.
  induction ns as [|n ns IH]; intros j q Hj; [done|]. change (encode (n :: ns)) with (de_of n.1 n.2 ++ encode ns). unfold slice in *.
  destruct j as [|j].
  - injection Hj as <-. rewrite Nat.mul_0_r, drop_0. rewrite <- (length_de_of n.1 n.2). by rewrite take_app_length.
  - rewrite drop_app_ge by (rewrite length_de_of; lia). rewrite length_de_of. replace (16 * S j - 16)%nat with (16 * j)%nat by lia. by apply IH.
Qed.

Lemma length_names k es : length (names k es) = length es.
Proof. revert k. induction es as [|e es IH]; intros k; [done|]. cbn [names length]. by rewrite IH. Qed.

Lemma length_entries es : length (entries es) = (2 + length es)%nat.
Proof. unfold entries. cbn [length]. by rewrite length_names. Qed.

Lemma entries_inum es j q : entries es !! j = Some q -> exists k, q.1 = inum_of k /\ (k <= length es)%nat.
Proof.
  destruct j as [|[|j]]; [intros [= <-]; exists 0%nat; split; [done|lia]..|]. change (entries es !! S (S j)) with (names 1 es !! j). rewrite names_lookup.
  intros (e & He & ->)%fmap_Some. exists (1 + j)%nat. split; [done|]. apply lookup_lt_Some in He. lia.
Qed.

Lemma key_name_field n : key (name_field n DIRSIZ) = key n.
Proof. unfold key. rewrite take_ge by (by rewrite length_name_field). apply cstr_name_field. Qed.

Lemma root_size_ok es : (length es <= 198)%nat -> root_size es mod 16 = 0 /\ 0 <= root_size es <= MAXFILE * BSIZE.
Proof. intros Hn. assert (MAXFILE * BSIZE = 67382272) as -> by reflexivity. unfold root_size. dlia. Qed.

(** ** The finished image *)

Section image.
Context (V : view) (es : list (list byte * list byte)) (fs : list hfile).
Context (G : ginv V (inum_of (length (root_files es))) (57 + total (root_files es)) fs) (Hfs : proj <$> fs = root_files es).
Context (Hn : (length es <= 198)%nat) (Hfb : 57 + total (root_files es) < 8192).
Abbreviation fb := (57 + total (root_files es)).
Abbreviation L := (last_view V es).

Lemma fs_length : length fs = S (length es).
Proof. by rewrite <- (length_fmap proj), Hfs, length_root_files. Qed.

Lemma fs_proj k f : fs !! k = Some f -> root_files es !! k = Some (hf_type f, hf_data f).
Proof. intros E. by rewrite <- Hfs, list_lookup_fmap, E. Qed.

Lemma fs_type k f : fs !! k = Some f -> hf_type f = if decide (k = 0%nat) then T_DIR else T_FILE.
Proof.
  intros E%fs_proj. unfold root_files in E. destruct k as [|k]; [by injection E|]. rewrite decide_False by done.
  change (((fun e => (T_FILE, e.2)) <$> es) !! k = Some (hf_type f, hf_data f)) in E. rewrite list_lookup_fmap in E. destruct (es !! k); [by injection E|done].
Qed.

Lemma fs_inum k f : fs !! k = Some f -> 0 <= inum_of k < NINODES.
Proof. intros E%lookup_lt_Some. by eapply inum_range; [apply (gi_fi _ _ _ _ G)|exact E|apply (gi_max _ _ _ _ G)]. Qed.

Lemma fs_root : exists f, fs !! 0%nat = Some f /\ hf_data f = root_data es.
Proof.
  destruct (fs !! 0%nat) as [f|] eqn:E; [|apply lookup_ge_None in E; rewrite fs_length in E; lia].
  exists f. split; [done|]. apply fs_proj in E. by injection E.
Qed.

Lemma last_other n : ~ (32 <= n <= 45) -> L n = V n.
Proof. intros H. unfold last_view. rewrite fn_lookup_insert_ne by lia. apply put_inode_other; [done|lia]. Qed.

Lemma last_inode n : 32 <= n < 45 -> L n = put_inode sbm ROOTINO (set_size (root_size es) (inode_at sbm V ROOTINO)) V n.
Proof. intros H. unfold last_view. by rewrite fn_lookup_insert_ne by lia. Qed.

Lemma fb_nat : fb = Z.of_nat (Z.to_nat fb).
Proof. pose proof (total_pos (root_files es)). lia. Qed.

Lemma last_marks : blk (L 45) /\ forall b, 0 <= b < 8192 -> bm_free b (L 45) = negb (b <? fb).
Proof. unfold last_view. rewrite fn_lookup_insert. rewrite fb_nat. apply marks_ok. lia. Qed.

Lemma last_blk n : blk (L n).
Proof.
  destruct (decide (n = 45)) as [->|H]; [apply last_marks|]. unfold last_view. rewrite fn_lookup_insert_ne by done.
  destruct fs_root as (f & Ef & _). apply put_inode_blk; [done|apply (fa_img _ _ _ (gi_file _ _ _ _ G _ _ Ef))|apply (gi_blk _ _ _ _ G)].
Qed.

Lemma last_used b : 0 <= b < FSSIZE -> used sbm L b = (b <? fb).
Proof.
  intros Hb. unfold used. destruct (BBLOCK_eq sbm b sbm_geom Hb) as [-> _]. change (sb_bmapstart sbm) with 45. change BPB with 8192.
  destruct (decide (b < 8192)) as [Hlt|Hge].
  - replace (b / 8192 + 45) with 45 by dlia. rewrite (proj2 last_marks) by dlia. rewrite negb_involutive. f_equal. dlia.
  - unfold FSSIZE in Hb. rewrite last_other by dlia. rewrite (gi_meta _ _ _ _ G) by dlia. unfold meta. rewrite decide_False by dlia.
    rewrite bm_free_zero by dlia. symmetry. apply Z.ltb_ge. lia.
Qed.

(** Inodes. *)
Lemma root_dinode_ok : dinode_ok (set_size (root_size es) (inode_at sbm V ROOTINO)).
Proof.
  destruct fs_root as (f & E & Hd). pose proof (gi_file _ _ _ _ G 0%nat f E) as [F1 F2 F3].
  apply (fimg_dinode_ok V _ (hf_data f) (hf_bl f) (hf_ind f) fb (hf_type f) (root_size es)).
  - apply fimg_size. exact F1.
  - intros a. by eapply (gi_range _ _ _ _ G).
  - unfold FSSIZE. lia.
  - by rewrite (fs_type _ _ E).
  - unfold root_size. dlia.
  - unfold rest in *. change (inum_of 0) with ROOTINO in F2. cbn [set_size dn_type dn_major dn_minor dn_nlink dn_size]. congruence.
Qed.

Lemma last_at i : 0 <= i < NINODES ->
  inode_at sbm L i = if decide (i = ROOTINO) then set_size (root_size es) (inode_at sbm V ROOTINO) else inode_at sbm V i.
Proof.
  intros Hi. destruct (iblock_range i Hi) as [_ Hr]. unfold inode_at at 1. rewrite last_inode by done.
  apply (inode_at_put sbm V ROOTINO i); [apply sbm_geom|apply (gi_blk _ _ _ _ G)|done|done|exact root_dinode_ok].
Qed.

Lemma last_fimg k f : fs !! k = Some f -> fimg L (inode_at sbm L (inum_of k)) (hf_data f) (hf_bl f) (hf_ind f).
Proof.
  intros E. apply (fimg_ext V).
  - rewrite last_at by by eapply fs_inum. pose proof (fa_img _ _ _ (gi_file _ _ _ _ G k f E)) as F.
    case_decide as Hk; [|done]. rewrite <- Hk. by apply fimg_size.
  - intros a Ha. pose proof (gi_range _ _ _ _ G k f a E Ha). apply last_other. lia.
Qed.

Lemma last_rest k f : fs !! k = Some f -> rest (inode_at sbm L (inum_of k)) =
  (hf_type f, 0, 0, 1, if decide (k = 0%nat) then root_size es else Z.of_nat (length (hf_data f))).
Proof.
  intros E. rewrite last_at by by eapply fs_inum. pose proof (fa_rest _ _ _ (gi_file _ _ _ _ G k f E)) as F. unfold inum_of in *.
  destruct (decide (k = 0%nat)) as [->|Hk].
  - rewrite decide_True by done. unfold rest in *. cbn [set_size dn_type dn_major dn_minor dn_nlink dn_size]. change (Z.of_nat 0 + 1) with ROOTINO in F. congruence.
  - rewrite decide_False by (unfold ROOTINO; lia). done.
Qed.

Lemma last_live i : live sbm L i <-> exists k f, fs !! k = Some f /\ i = inum_of k.
Proof.
  split.
  - intros [Hi Ht]. change (sb_ninodes sbm) with NINODES in Hi. destruct (decide (i = ROOTINO)) as [->|Hr]; [destruct fs_root as (f & E & _); by exists 0%nat, f|].
    rewrite last_at, decide_False in Ht by done. pose proof (gi_fi _ _ _ _ G) as Hfi.
    destruct (decide (i = 0 \/ inum_of (length (root_files es)) <= i)) as [Hd|Hd]; [destruct Ht; apply (gi_free _ _ _ _ G); lia|].
    rewrite Hfi in Hd. unfold inum_of in *. destruct (lookup_lt_is_Some_2 fs (Z.to_nat (i - 1))) as [f Ef]; [lia|]. exists (Z.to_nat (i - 1)), f. split; [done|lia].
  - intros (k & f & E & ->). split; [by eapply fs_inum|]. pose proof (last_rest k f E) as F. unfold rest in F.
    rewrite (f_equal (fun x => x.1.1.1.1) F : dn_type (inode_at sbm L (inum_of k)) = _). cbn [fst]. rewrite (fs_type k f E). by case_decide.
Qed.

Lemma last_finv k f : fs !! k = Some f -> finv sbm L (din sbm L (inum_of k)).
Proof.
  intros E. apply (file_finv L _ (hf_data f) (hf_bl f) (hf_ind f) (last_fimg k f E)) with (fb := fb).
  - by eapply (gi_nodup _ _ _ _ G).
  - intros a. by eapply (gi_range _ _ _ _ G).
  - lia.
  - apply last_used.
Qed.

(** The root directory. *)
Abbreviation root := (din sbm L ROOTINO).

Lemma root_rest : dn_type (inode_at sbm L ROOTINO) = T_DIR /\ dn_size (inode_at sbm L ROOTINO) = root_size es.
Proof.
  destruct fs_root as (f & E & _). pose proof (last_rest 0%nat f E) as F. rewrite (fs_type _ _ E) in F. unfold rest in F.
  split; [exact (f_equal (fun x => x.1.1.1.1) F)|exact (f_equal snd F)].
Qed.

Lemma root_room f : fs !! 0%nat = Some f -> (2 + Z.of_nat (length es)) mod 64 <> 0 ->
  root_size es = 1024 * Z.of_nat (length (hf_bl f)).
Proof.
  intros E Hm. destruct fs_root as (f' & E' & Hd). rewrite E in E'. injection E' as <-.
  pose proof (fa_tight _ _ _ (gi_file _ _ _ _ G 0%nat f E)) as Ht. unfold tight in Ht. rewrite Ht, Hd, length_root_data. unfold root_size. dlia.
Qed.

Lemma root_dent j : (2 + Z.of_nat (length es)) mod 64 <> 0 -> 0 <= j < nents root ->
  match entries es !! Z.to_nat j with
  | Some q => de_inum (dent L root j) = q.1 /\ key (de_name (dent L root j)) = key q.2
  | None => de_inum (dent L root j) = 0
  end.
Proof.
  intros Hm Hj. destruct fs_root as (f & E & Hd). pose proof (last_fimg 0%nat f E) as F. change (inum_of 0) with ROOTINO in F. rewrite Hd in F.
  pose proof (root_room f E Hm) as Hr. unfold nents in Hj. change (i_size root) with (dn_size (inode_at sbm L ROOTINO)) in Hj.
  rewrite (proj2 root_rest) in Hj. unfold dent. destruct (entries es !! Z.to_nat j) as [q|] eqn:Eq.
  - pose proof (lookup_lt_Some _ _ _ Eq) as Hlt. rewrite length_entries in Hlt.
    rewrite (file_data _ _ _ _ _ F) by (rewrite ?length_root_data; lia). rewrite root_encode.
    replace (Z.to_nat (16 * j)) with (16 * Z.to_nat j)%nat by lia. rewrite (encode_slice _ _ _ Eq).
    destruct (entries_inum es _ _ Eq) as (k & Hk & Hle). unfold inum_of in Hk. unfold de_of. rewrite xshort_id by lia.
    rewrite dirent_round by (cbn [de_inum de_name]; rewrite ?length_name_field; done || lia). cbn [de_inum de_name]. split; [done|apply key_name_field].
  - apply lookup_ge_None in Eq. rewrite length_entries in Eq. rewrite (file_tail _ _ _ _ _ F); [reflexivity|rewrite length_root_data; lia|].
    rewrite <- Hr. dlia.
Qed.

Lemma root_holes : (2 + Z.of_nat (length es)) mod 64 <> 0 -> no_holes L root.
Proof.
  intros Hm bn Hb. change (i_size root) with (dn_size (inode_at sbm L ROOTINO)). rewrite (proj2 root_rest). destruct fs_root as (f & E & _).
  rewrite (root_room f E Hm). unfold BSIZE. intros Hlt. pose proof (last_fimg 0%nat f E) as F. pose proof (fm_max _ _ _ _ _ F).
  rewrite (at_block _ _ _ _ _ F) by lia. destruct (lookup_lt_is_Some_2 (hf_bl f) (Z.to_nat bn)) as [a Ha]; [lia|]. rewrite Ha. cbn [default from_option id].
  pose proof (gi_range _ _ _ _ G 0%nat f a E (bl_owned _ _ _ _ Ha)). lia.
Qed.

Lemma live_dir i : live sbm L i -> dn_type (inode_at sbm L i) = T_DIR -> i = ROOTINO.
Proof.
  intros (k & f & E & ->)%last_live Ht. pose proof (f_equal (fun x => x.1.1.1.1) (last_rest k f E) : dn_type (inode_at sbm L (inum_of k)) = _) as F.
  cbn [fst] in F. rewrite Ht, (fs_type k f E) in F. case_decide as Hk; [by subst k|done].
Qed.

Lemma inum_live k : (k <= length es)%nat -> live sbm L (inum_of k) /\ dn_nlink (inode_at sbm L (inum_of k)) = 1.
Proof.
  intros Hk. destruct (lookup_lt_is_Some_2 fs k) as [f E]; [rewrite fs_length; lia|]. split; [apply last_live; by exists k, f|].
  exact (f_equal (fun x => x.1.2) (last_rest k f E)).
Qed.

Lemma last_good : (2 + Z.of_nat (length es)) mod 64 <> 0 -> fs_good sbm L.
Proof.
  intros Hm. split.
  - intros i (k & f & E & ->)%last_live. by eapply last_finv.
  - intros i Hl Ht. pose proof (live_dir i Hl Ht) as ->. split; [exact Ht|by apply root_holes|..];
      change (i_size root) with (dn_size (inode_at sbm L ROOTINO)); rewrite (proj2 root_rest); apply (root_size_ok es Hn).
  - intros i j Hl Ht Hj Hz. pose proof (live_dir i Hl Ht) as ->. pose proof (root_dent j Hm Hj) as Hd.
    destruct (entries es !! Z.to_nat j) as [q|] eqn:Eq; [|done]. destruct Hd as [Hd _]. destruct (entries_inum es _ _ Eq) as (k & Hk & Hle).
    rewrite Hd, Hk. destruct (inum_live k Hle) as [H1 H2]. split; [done|by rewrite H2].
Qed.

Lemma root_nents : 2 + Z.of_nat (length es) <= nents root.
Proof. unfold nents. change (i_size root) with (dn_size (inode_at sbm L ROOTINO)). rewrite (proj2 root_rest). unfold root_size. dlia. Qed.

(** Which entry of the root directory a name finds. *)
Lemma root_is_entry n j : (2 + Z.of_nat (length es)) mod 64 <> 0 -> 0 <= j < nents root ->
  is_entry L root n j <-> exists q, entries es !! Z.to_nat j = Some q /\ key n = key q.2.
Proof.
  intros Hm Hj. pose proof (root_dent j Hm Hj) as Hd. unfold is_entry. destruct (entries es !! Z.to_nat j) as [q|] eqn:Eq.
  - destruct Hd as [-> ->]. destruct (entries_inum es _ _ Eq) as (k & Hk & _). split; [intros [_ H]; by exists q|].
    intros (q' & [= <-] & H). split; [unfold inum_of in Hk; lia|done].
  - split; [by intros [? _]|by intros (q & ? & _)].
Qed.

Lemma root_finds n j q : (2 + Z.of_nat (length es)) mod 64 <> 0 -> entries es !! j = Some q -> key n = key q.2 ->
  (forall j' q', (j' < j)%nat -> entries es !! j' = Some q' -> key n <> key q'.2) -> resolves sbm L false ROOTINO [n] (Some q.1).
Proof.
  intros Hm Hj Hk Hf. pose proof (lookup_lt_Some _ _ _ Hj) as Hlt. rewrite length_entries in Hlt. pose proof root_nents as Hr.
  pose proof (root_dent (Z.of_nat j) Hm ltac:(lia)) as Hd. rewrite Nat2Z.id, Hj in Hd. destruct Hd as [<- _].
  apply (rs_step sbm L false ROOTINO n [] (Z.of_nat j)); [apply root_rest|done| |exact (rs_end sbm L false _)]. split_and!; [lia|lia|..].
  - apply root_is_entry; [done|lia|]. rewrite Nat2Z.id. by exists q.
  - intros j' Hj' Hi. apply root_is_entry in Hi as (q' & Hq & Hk'); [|done|lia]. by apply (Hf (Z.to_nat j') q'); [lia|..].
Qed.

Lemma root_misses n : (2 + Z.of_nat (length es)) mod 64 <> 0 -> (forall q, q ∈ entries es -> key n <> key q.2) ->
  resolves sbm L false ROOTINO [n] None.
Proof.
  intros Hm Hf. eapply rs_none; [apply root_rest|done|]. intros j Hj Hi. apply root_is_entry in Hi as (q & Hq & Hk); [|done|done].
  apply (Hf q); [by eapply list_elem_of_lookup_2|done].
Qed.

(** The contents of a file, and that no block belongs to two of them. *)
Lemma last_data j e : es !! j = Some e ->
  i_type (din sbm L (inum_of (S j))) = T_FILE /\ i_nlink (din sbm L (inum_of (S j))) = 1 /\
  i_size (din sbm L (inum_of (S j))) = Z.of_nat (length e.2) /\ fdata L (din sbm L (inum_of (S j))) 0 (length e.2) = e.2.
Proof.
  intros He. pose proof (lookup_lt_Some _ _ _ He) as Hlt. destruct (lookup_lt_is_Some_2 fs (S j)) as [f E]; [rewrite fs_length; lia|].
  assert (hf_data f = e.2) as Hd.
  { apply fs_proj in E. change (((fun e => (T_FILE, e.2)) <$> es) !! j = Some (hf_type f, hf_data f)) in E. rewrite list_lookup_fmap, He in E. by injection E. }
  pose proof (last_rest (S j) f E) as R. rewrite (fs_type _ _ E), Hd in R. rewrite !decide_False in R by done.
  split_and!; [exact (f_equal (fun x => x.1.1.1.1) R)|exact (f_equal (fun x => x.1.2) R)|exact (f_equal snd R)|].
  rewrite <- Hd. unfold din. rewrite (file_data _ _ _ _ _ (last_fimg _ _ E)) by lia. unfold slice. rewrite drop_0. by apply take_ge.
Qed.

Lemma last_apart i i' p p' : live sbm L i -> live sbm L i' -> pos_ok p -> pos_ok p' ->
  at_pos L (din sbm L i) p <> 0 -> at_pos L (din sbm L i) p = at_pos L (din sbm L i') p' -> i = i' /\ p = p'.
Proof.
  intros (k & f & E & ->)%last_live (k' & f' & E' & ->)%last_live Hp Hp' Hz Heq. pose proof Hz as Hz1. pose proof Heq as Heq1.
  unfold din in Hz1, Heq1. rewrite (at_place _ _ _ _ _ (last_fimg _ _ E)) in Hz1, Heq1 by done. rewrite (at_place _ _ _ _ _ (last_fimg _ _ E')) in Heq1 by done.
  pose proof (place_owned _ _ p Hz1) as Ho. rewrite Heq1 in Hz1. pose proof (place_owned _ _ p' Hz1) as Ho'. rewrite <- Heq1 in Ho'.
  pose proof (gi_disj _ _ _ _ G k k' f f' _ E E' Ho Ho') as <-. split; [done|]. by apply (fi_inj _ _ _ (last_finv k f E)).
Qed.

Lemma last_live_range i : live sbm L i <-> 1 <= i <= 1 + Z.of_nat (length es).
Proof.
  rewrite last_live. unfold inum_of. split.
  - intros (k & f & E%lookup_lt_Some & ->). rewrite fs_length in E. lia.
  - intros Hi. destruct (lookup_lt_is_Some_2 fs (Z.to_nat (i - 1))) as [f Ef]; [rewrite fs_length; lia|]. exists (Z.to_nat (i - 1)), f. split; [done|lia].
Qed.

(** When the entries fill their blocks, rounding the size up leaves a block of the
    root directory that is not there. *)
Lemma root_hole : (2 + Z.of_nat (length es)) mod 64 = 0 -> ~ no_holes L root.
Proof.
  intros Hm Hh. destruct fs_root as (f & E & Hd). pose proof (last_fimg 0%nat f E) as F. pose proof (fm_max _ _ _ _ _ F) as Hmax.
  pose proof (fa_tight _ _ _ (gi_file _ _ _ _ G 0%nat f E)) as Ht. unfold tight in Ht. rewrite Hd, length_root_data in Ht.
  set (bn := (2 + Z.of_nat (length es)) / 64). assert (Z.of_nat (length (hf_bl f)) = bn) as Hl by (unfold bn; dlia).
  apply (Hh bn); [lia|..].
  - change (i_size root) with (dn_size (inode_at sbm L ROOTINO)). rewrite (proj2 root_rest). unfold root_size, BSIZE, bn. dlia.
  - assert (bn < 267) by (unfold bn; dlia). rewrite (at_block _ _ _ _ _ F) by lia. by rewrite (proj2 (lookup_ge_None _ _)) by lia.
Qed.
End image.

Lemma sbm_round : sb_get (sb_bytes sbm) = sbm.
Proof. vm_compute. reflexivity. Qed.

(** ** What a run of mkfs leaves *)

(** A name that is not one of the two names every directory has. *)
Definition ordinary (n : list byte) : Prop := key n <> key (bytes ".") /\ key n <> key (bytes "..").

Lemma entries_first es j e : es !! j = Some e -> ordinary e.1 ->
  (forall j' e', (j' < j)%nat -> es !! j' = Some e' -> key e'.1 <> key e.1) ->
  forall j' q', (j' < S (S j))%nat -> entries es !! j' = Some q' -> key e.1 <> key q'.2.
Proof.
  intros He [H1 H2] Hf j' q' Hj'. destruct j' as [|[|j']]; [intros [= <-]; done..|].
  change (entries es !! S (S j')) with (names 1 es !! j'). rewrite names_lookup. intros (e' & He' & ->)%fmap_Some. apply not_eq_sym, (Hf j' e'); [lia|done].
Qed.

(** C11: mkfs builds a file system.  For at most 198 host files that can be read, none of
    them longer than the direct and the single indirect blocks hold, whose blocks fit under
    one bitmap block, and whose directory does not end at a block boundary, [main]
    writes an image of 97000 blocks.  It has the superblock the kernel expects and an
    empty log, and the bitmap marks exactly the blocks up to the last one handed out.
    It satisfies the invariant of the file-system theorems, no block is at
    two places of one file or in two files, and the live inodes are the root and one for each
    host file.  Each file has its contents and one link, its name (without the leading
    underscore) finds it unless an earlier file has the same name, and a name that
    was not given finds nothing. *)
Theorem mkfs_builds files a0 a1 paths es s0 :
  k_io s0 = [] -> k_freeinode s0 = 1 -> k_files s0 = files -> Forall2 (host_file files) paths es -> (length es <= 198)%nat ->
  57 + total (root_files es) < 8192 -> (2 + Z.of_nat (length es)) mod 64 <> 0 ->
  exists s', main (a0 :: a1 :: paths) s0 = Ok tt s' /\ k_len s' = FSSIZE /\ (forall n, blk (k_img s' n)) /\
    sb_get (k_img s' 1) = sbm /\ geom sbm /\ k_img s' 2 = zero_block /\
    (forall b, 0 <= b < FSSIZE -> used sbm (k_img s') b = (b <? 57 + total (root_files es))) /\
    fs_good sbm (k_img s') /\
    (forall i i' p p', live sbm (k_img s') i -> live sbm (k_img s') i' -> pos_ok p -> pos_ok p' ->
       at_pos (k_img s') (din sbm (k_img s') i) p <> 0 ->
       at_pos (k_img s') (din sbm (k_img s') i) p = at_pos (k_img s') (din sbm (k_img s') i') p' -> i = i' /\ p = p') /\
    (forall i, live sbm (k_img s') i <-> 1 <= i <= 1 + Z.of_nat (length es)) /\
    (forall j e, es !! j = Some e ->
       (i_type (din sbm (k_img s') (inum_of (S j))) = T_FILE /\ i_nlink (din sbm (k_img s') (inum_of (S j))) = 1 /\
        i_size (din sbm (k_img s') (inum_of (S j))) = Z.of_nat (length e.2) /\
        fdata (k_img s') (din sbm (k_img s') (inum_of (S j))) 0 (length e.2) = e.2) /\
       (ordinary e.1 -> (forall j' e', (j' < j)%nat -> es !! j' = Some e' -> key e'.1 <> key e.1) ->
        resolves sbm (k_img s') false ROOTINO [e.1] (Some (inum_of (S j))))) /\
    (forall n, ordinary n -> (forall e, e ∈ es -> key n <> key e.1) -> resolves sbm (k_img s') false ROOTINO [n] None).
Proof.
  intros Hio Hfi Hfl HF Hn Hfb Hm. destruct (main_ok files a0 a1 paths es s0 Hio Hfi Hfl HF Hn Hfb) as (V & (fs & G & Hfs) & Em).
  eexists. split; [exact Em|]. clear Em. cbn [k_img k_len st]. split; [done|]. split; [by apply last_blk with fs|].
  split; [rewrite last_other, (gi_meta _ _ _ _ G) by lia; exact sbm_round|]. split; [exact sbm_geom|].
  split; [rewrite last_other, (gi_meta _ _ _ _ G) by lia; done|]. split; [by apply last_used with fs|]. split; [by apply last_good with fs|].
  split; [by apply last_apart with fs|]. split; [by apply last_live_range with fs|]. split.
  - intros j e He. split; [by apply last_data with fs|]. intros Ho Hf. apply (root_finds V es fs G Hfs Hn Hfb e.1 (S (S j)) (inum_of (S j), e.1) Hm); [|done|].
    + change (entries es !! S (S j)) with (names 1 es !! j). by rewrite names_lookup, He.
    + by apply entries_first.
  - intros n [H1 H2] Hf. apply (root_misses V es fs G Hfs Hn Hfb n Hm). intros q Hq. apply list_elem_of_lookup in Hq as (j & Hj).
    destruct j as [|[|j]]; [by injection Hj as <-..|]. change (entries es !! S (S j)) with (names 1 es !! j) in Hj. rewrite names_lookup in Hj.
    apply fmap_Some in Hj as (e & He & ->). apply Hf. by eapply list_elem_of_lookup_2.
Qed.

Definition mk_files : list (list byte * stream) :=
  [(bytes "user/_cat", mkStream (bytes "cat binary") [Some 4%nat]); (bytes "README", mkStream (bytes "text") [])].
Definition mk_start : mkst := mkMk (fun _ => zero_block) 0 sbm 1 0 mk_files [].

Lemma mkfs_builds_witness :
  exists s', main [bytes "mkfs"; bytes "fs.img"; bytes "user/_cat"; bytes "README"] mk_start = Ok tt s' /\
    fs_good sbm (k_img s') /\ resolves sbm (k_img s') false ROOTINO [bytes "cat"] (Some 2) /\
    fdata (k_img s') (din sbm (k_img s') 2) 0 10 = bytes "cat binary" /\
    resolves sbm (k_img s') false ROOTINO [bytes "_cat"] None.
Proof.
  destruct (mkfs_builds mk_files (bytes "mkfs") (bytes "fs.img") [bytes "user/_cat"; bytes "README"]
    [(bytes "cat", bytes "cat binary"); (bytes "README", bytes "text")] mk_start eq_refl eq_refl eq_refl)
    as (s' & E & _ & _ & _ & _ & _ & _ & H1 & _ & _ & H2 & H3); [|cbn; lia|reflexivity|discriminate|].
  - constructor; [|constructor; [|constructor]].
    + split; [by apply (bool_decide_unpack _)|]. split; [vm_compute; discriminate|].
      eexists _, _, _. split; [reflexivity|]. split; [|reflexivity]. by apply (bool_decide_unpack _).
    + split; [by apply (bool_decide_unpack _)|]. split; [vm_compute; discriminate|].
      eexists _, _, _. split; [reflexivity|]. split; [|reflexivity]. by apply (bool_decide_unpack _).
  - exists s'. split; [exact E|]. split; [exact H1|]. destruct (H2 0%nat _ eq_refl) as [(_ & _ & _ & Hd) Hr]. split; [|split].
    + apply Hr; [split; vm_compute; discriminate|]. intros j' e' Hj'. lia.
    + exact Hd.
    + apply H3; [split; vm_compute; discriminate|]. intros e He. rewrite !elem_of_cons, elem_of_nil in He.
      destruct He as [->|[->|[]]]; vm_compute; discriminate.
Defined.
